(* ===== verification/_CoqProject ===== *)
-Q . S2P
Prelude.v
Serialization.v
BTreeMap.v
Height.v
Amount.v
ValueBalance.v
Difficulty.v
Merkle.v
FundingStreams.v
NetworkUpgrade.v
Subsidy.v
BlockHeader.v
Transaction.v
TransparentWire.v
BlockCommitment.v
TransparentIndex.v
DiskFormat.v
ChainIndexes.v
Chain.v
ChainRepr.v
ContextChecks.v
AdjustedDifficulty.v
FinalizedState.v
ChainSafety.v
FinalizedRepr.v
NonFinalizedState.v
StateRead.v
ChainTip.v
WriteBlock.v
StateService.v
BlockQueue.v
TransactionVerifier.v
BlockVerifier.v
CheckpointVerifier.v
Mempool.v
MempoolStorage.v
LongPoll.v
TemplateTime.v
BlockTemplate.v
TemplateBlock.v
CrosslinkWire.v
CrosslinkRoster.v
TflService.v
