(* ===== verification/Prelude.v ===== *)
(** A verification of zebra-crosslink, the Zebra full node with the Crosslink
    finality layer.

    * The program

    A node validates blocks of a proof-of-work chain, keeps the recent part of
    it in memory as a set of competing chains (the non-finalized state) and the
    settled part in a database (the finalized state). Crosslink adds a
    Byzantine-fault-tolerant (BFT) chain whose blocks point at proof-of-work
    headers; when a BFT block is decided, the proof-of-work block it points at
    and everything below it become final and are moved to the database.

    A block comes in through a router (zebra-consensus). Up to the last checkpoint
    the checkpoint verifier accepts it by its hash; above, the block verifier sends
    its transactions to the transaction verifier. The checked block goes to the
    state service (zebra-state), which keeps it in a queue until its parent was
    sent to the write task. The write task checks the block against the chain it
    extends, adds it to the non-finalized state, and moves
    blocks to the finalized state, either past the reorg limit or on a message of
    the Crosslink service (zebra-crosslink). That service keeps the BFT chain and
    the roster of finalizers, proposes and validates BFT blocks, and reads the
    chain through requests to the state service.

    Transactions that are not in a block yet are verified by the same transaction
    verifier and wait in the mempool (zebrad). When a miner asks for a block
    template, the RPC server (zebra-rpc) selects transactions of the mempool,
    makes a coinbase transaction for them and takes difficulty and times from the
    state; the block that is mined comes back to the block verifier.

    * The files

    Results are values of [res]: success, error or panic ([Panic] is an outcome
    of the model, so that theorems can say that code does not panic). Plain
    arithmetic on machine integers takes the build profile as a class
    ([BuildProfile]): it panics on overflow in a debug build and wraps around in
    a release build, and the theorems hold for both.

    Foundations (zebra-chain/src):
    - [Prelude]: results, machine integers, bytes, loops, sums and their lemmas.
    - [Serialization]: readers and writers of [serialization/], and the laws of a
      codec as type classes. [BTreeMap]: ordered maps as sorted lists.
    - [Height], [Amount], [ValueBalance], [Difficulty]: [block/height.rs],
      [amount.rs], [value_balance.rs], [work/difficulty.rs].
    - [Merkle]: the trees of [block/merkle.rs].
    - [NetworkUpgrade], [FundingStreams], [Subsidy]: [parameters/], with the
      builder of configured networks, halvings, subsidies and funding streams.
    - [BlockHeader], [Transaction], [TransparentWire], [BlockCommitment]:
      [block/], [transaction.rs], [transparent/] and the shielded data.

    State (zebra-state/src/service):
    - [TransparentIndex], [ChainIndexes], [Chain]: one non-finalized chain, with
      its indexes, trees, push, pop and fork. [ChainRepr] and [ChainSafety]: the
      chain refines the list of its blocks, and what follows for its blocks.
    - [ContextChecks], [AdjustedDifficulty]: the contextual checks of [check/].
    - [DiskFormat], [FinalizedState], [FinalizedRepr]: the database, its
      encodings, and that it is a replay of the committed blocks.
    - [NonFinalizedState]: the set of chains. [WriteBlock]: the write task.
    - [StateRead], [ChainTip], [StateService]: queries, the observers of the tip,
      and the requests of the Crosslink service with their handlers.
    - [BlockQueue]: [queued_blocks.rs], [pending_utxos.rs] and the methods of
      [service.rs] that queue blocks and send them to the write task.

    Verification (zebra-consensus/src, zebra-script/src):
    - [TransactionVerifier]: [transaction.rs], [transaction/check.rs] and the fees
      of ZIP 317. [BlockVerifier]: [block.rs] and [block/check.rs].
    - [CheckpointVerifier]: [checkpoint.rs], [checkpoint/] and [router.rs].

    Mempool and mining (zebrad/src/components/mempool, zebra-rpc/src/methods/types):
    - [Mempool], [MempoolStorage]: [storage.rs], [storage/], [pending_outputs.rs]
      and the dependencies of [zebra-node-services]; the operations with the
      invariant of the verified transactions, then the storage as a whole.
    - [LongPoll]: [long_poll.rs]. [TemplateTime]: difficulty and times of
      [read/difficulty.rs] in zebra-state. [BlockTemplate]: the selection of
      [get_block_template/zip317.rs]. [TemplateBlock]: [get_block_template.rs],
      [proposal.rs] and the coinbase of [transaction/builder.rs].

    Crosslink (zebra-crosslink/src):
    - [CrosslinkWire]: BFT blocks, fat pointers and votes on the wire.
      [CrosslinkRoster]: the roster, staking actions and rewards. [TflService]:
      the finality service.

    * What the theorems show

    Finality: over any run of the write task a finalized block never changes
    ([WriteBlock.finality_irrevocable]), and a Crosslink finality message commits
    exactly the blocks of the best chain up to the given one
    ([WriteBlock.crosslink_finality]); queries across a finalization see the same
    chain ([StateService.finality_keeps_best_chain]). The BFT chain keeps its
    shape, a decision settles exactly the blocks between two final blocks, and an
    honest proposal becomes final (in [TflService], against the interface
    [StateService]).

    The state is its blocks: a non-finalized chain and the database are functions
    of the blocks they hold ([ChainRepr], [FinalizedRepr]; the trees and anchors of
    the database for as long as the callers pass the trees of its tip); the set of
    chains keeps its invariant ([NonFinalizedState]); no output is spent and no
    nullifier revealed twice in a chain that pushes, pops, forks and invalidations
    reach ([ChainSafety]); pushing and popping are inverse ([Chain]).

    Money: the supply grows by the block subsidies, with the exception that
    [BlockVerifier.chain_supply] states; accepted blocks pay their funding
    streams; amounts, balances and rewards are exact or fail ([Subsidy],
    [CrosslinkRoster]).

    Verification: what an accepted transaction satisfies
    ([TransactionVerifier.verified_transaction_rules]) and that a header binds the
    transactions of an accepted block ([BlockVerifier]). The checkpoint verifier
    accepts only the chain of its checkpoints, answers each request once and
    verifies a range when its blocks are there ([CheckpointVerifier]). The queues
    of the state send a block after its parent and lose no commit request
    ([BlockQueue.queue_run_safety]).

    Mempool and mining: the storage keeps its transactions free of conflicts and
    within its limits under every operation ([MempoolStorage.storage_invariant]),
    selection keeps the order of dependencies and the limits of a block
    ([BlockTemplate]), and a block that is proposed from a template passes the
    checks of the block verifier and of the state
    ([TemplateBlock.template_proposal_accepted]).

    Wire formats are round trips and canonical ([CrosslinkWire],
    [TransparentWire], [BlockHeader], [LongPoll]); compact difficulties, difficulty
    adjustment, activation heights and tip observers have their contracts.

    Some theorems state behaviour that is not what the code means to do: a fee of
    100 ZEC for every Crosslink transaction, verification that is skipped for
    transactions of the mempool, outputs in the wrong order, finality that can
    move back, trees that stay behind a finalization, late halving heights, a
    panic when two dependent transactions leave the mempool together, a child
    that is not mined once its parent was, an evicted transaction that is reported
    as stored, queued blocks that are never pruned, checkpoint blocks that are
    refused and still count as sent, an upgrade that replaces Genesis, and
    configured difficulty limits with which the mean target overflows.

    * Bounds

    Loops are recursions on their data wherever the data bounds them. The others
    take fuel that is shown to be enough: the walk over blocks of a Crosslink
    range takes [2^32 + 2] steps at most, as the code panics when the number of
    hashes does not fit in a [u32] (on a chain it takes one request for every 500
    blocks and a last one, [TflService.block_sequence_exact]); a best chain is walked once per block; a block locator has at most 33 heights; the search for
    an activation height looks at the ten upgrades; a Merkle tree has at most as
    many rows as leaves; eviction and selection take a transaction in every step,
    the walks over dependents a level of the transactions they have not visited,
    and pruning an entry of the list; a [u32] has less than 32 digits; sending
    queued blocks takes a step for each queued block and one more.

    * Third-party code

    Hash functions, proof, signature and script verification, note commitment and
    history trees, address decoding, Equihash, the random choices of the rand crate
    and the BFT engine are parameters: class fields, or arguments in sections. What
    is assumed of them is a hypothesis of the theorem that needs it, with an
    example that satisfies it.

    * Not modelled

    - zebra-network: peer connections, the address book, the protocol codec, the
      peer set and the synchronization requests.
    - zebra-rpc: the JSON-RPC and gRPC servers; block templates are modelled from
      the chosen transactions and the chain on, without their JSON.
    - zebrad: the command line, configuration files, the syncer, the inbound
      service, and the download and gossip tasks around the mempool.
    - zebra-consensus: the hard-coded checkpoints (an argument) with their parser,
      the start of the services, and the batch verifiers of proofs and signatures,
      which call third-party cryptography.
    - zebra-state: database format upgrades, RocksDB itself, opening the state, and
      the address and tree queries of the RPC server.
    - zebra-chain: the wire format of whole transactions, note encryption, the
      shielded primitives, and code for tests.
    - zebra-crosslink: the visualisation, the BFT engine binding and the test
      format; zebra-scan, zebra-node-services, zebra-grpc, zebra-utils and
      zebra-test.
    - Concurrency: tasks are modelled by the order of the messages they handle,
      timeouts by errors, and logs and metrics not at all. *)
From stdpp Require Import prelude strings countable sorting.
From coqutil Require Import Byte.
From coqutil Require Import Word.LittleEndianList.
From Stdlib Require Import ZArith Lia Permutation.
#[local] Open Scope Z_scope.

(** * Results of Rust code

    A call of a Rust function that returns [Result<A, E>] ends with [Ok], with
    [Err], or not at all because the thread panics (a failed [assert!], an
    [unwrap] of [None], an index out of range, an arithmetic overflow in a
    build with overflow checks). The workspace compiles with
    [panic = "abort"], so a panic is final and is a third constructor here. *)
Inductive res (E A : Type) : Type :=
| Ok (a : A)
| Err (e : E)
| Panic.
Arguments Ok {E A} a.
Arguments Err {E A} e.
Arguments Panic {E A}.

(** A function that is not fallible but may panic. *)
Abbreviation outcome := (res Empty_set).

#[export] Instance res_ret {E} : MRet (res E) := fun A a => Ok a.
#[export] Instance res_bind {E} : MBind (res E) := fun A B f m =>
  match m with
  | Ok a => f a
  | Err e => Err e
  | Panic => Panic
  end.
#[export] Instance res_fmap {E} : FMap (res E) := fun A B f m =>
  match m with
  | Ok a => Ok (f a)
  | Err e => Err e
  | Panic => Panic
  end.

(** [Result::map_err] and the [From] conversion that [?] applies. *)
Definition map_err {E F A} (f : E -> F) (m : res E A) : res F A :=
  match m with
  | Ok a => Ok a
  | Err e => Err (f e)
  | Panic => Panic
  end.

(** [Option::ok_or]. *)
Definition ok_or {E A} (o : option A) (e : E) : res E A :=
  match o with
  | Some a => Ok a
  | None => Err e
  end.

(** [Result::ok]; a panic stays a panic. *)
Definition res_ok {E A} (m : res E A) : outcome (option A) :=
  match m with
  | Ok a => Ok (Some a)
  | Err _ => Ok None
  | Panic => Panic
  end.

(** [Option::unwrap] and [Option::expect]. *)
Definition unwrap {E A} (o : option A) : res E A :=
  match o with
  | Some a => Ok a
  | None => Panic
  end.

(** [Result::unwrap] and [Result::expect]. *)
Definition expect {E F A} (m : res E A) : res F A :=
  match m with
  | Ok a => Ok a
  | Err _ => Panic
  | Panic => Panic
  end.

(** [assert!]. *)
Definition assert_ {E} (b : bool) : res E unit :=
  if b then Ok tt else Panic.

(** An infallible computation used inside a fallible one. *)
Definition lift {E A} (m : outcome A) : res E A :=
  match m with
  | Ok a => Ok a
  | Err e => match e with end
  | Panic => Panic
  end.

Definition is_ok {E A} (m : res E A) : bool :=
  match m with Ok _ => true | _ => false end.

(** * Fixed-width integers *)

Definition u8_MAX : Z := 255.
Definition u16_MAX : Z := 65535.
Definition u32_MAX : Z := 4294967295.
Definition i32_MIN : Z := -2147483648.
Definition i32_MAX : Z := 2147483647.
Definition u64_MAX : Z := 18446744073709551615.
Definition i64_MIN : Z := -9223372036854775808.
Definition i64_MAX : Z := 9223372036854775807.
Definition u128_MAX : Z := 340282366920938463463374607431768211455.
Definition i128_MIN : Z := -170141183460469231731687303715884105728.
Definition i128_MAX : Z := 170141183460469231731687303715884105727.

Definition in_range (lo hi x : Z) : bool := (lo <=? x) && (x <=? hi).
Definition is_u8 (x : Z) : Prop := 0 <= x <= u8_MAX.
Definition is_u16 (x : Z) : Prop := 0 <= x <= u16_MAX.
Definition is_u32 (x : Z) : Prop := 0 <= x <= u32_MAX.
Definition is_u64 (x : Z) : Prop := 0 <= x <= u64_MAX.
Definition is_i64 (x : Z) : Prop := i64_MIN <= x <= i64_MAX.
Definition is_i32 (x : Z) : Prop := i32_MIN <= x <= i32_MAX.

(** The integer conversions [T::try_from] and the [checked_*] operations: the
    exact result when it is representable, [None] otherwise. *)
Definition checked (lo hi x : Z) : option Z :=
  if in_range lo hi x then Some x else None.
Abbreviation u16_checked := (checked 0 u16_MAX).
Abbreviation u32_checked := (checked 0 u32_MAX).
Abbreviation u64_checked := (checked 0 u64_MAX).
Abbreviation i32_checked := (checked i32_MIN i32_MAX).
Abbreviation i64_checked := (checked i64_MIN i64_MAX).

(** The [saturating_*] operations. *)
Definition saturate (lo hi x : Z) : Z := Z.max lo (Z.min hi x).
Abbreviation u64_saturate := (saturate 0 u64_MAX).
Abbreviation u32_saturate := (saturate 0 u32_MAX).

(** [x as uN] and [x as iN]. *)
Definition as_unsigned (bits x : Z) : Z := x mod 2 ^ bits.
Definition as_signed (bits x : Z) : Z :=
  let m := x mod 2 ^ bits in
  if m <? 2 ^ (bits - 1) then m else m - 2 ^ bits.

(** ** Plain arithmetic operators

    [a + b] on a fixed-width type panics on overflow when the build has
    overflow checks (the [dev] and test profiles) and wraps around when it has
    not (the [release] profile). Definitions that use plain operators take the
    profile as a class argument, so the theorems hold for both builds. *)
Class BuildProfile := overflow_checks : bool.

Definition release_build : BuildProfile := false.
Definition debug_build : BuildProfile := true.

Definition arith_u {E} `{BuildProfile} (bits x : Z) : res E Z :=
  if in_range 0 (2 ^ bits - 1) x then Ok x
  else if overflow_checks then Panic
  else Ok (as_unsigned bits x).

Definition arith_i {E} `{BuildProfile} (bits x : Z) : res E Z :=
  if in_range (- 2 ^ (bits - 1)) (2 ^ (bits - 1) - 1) x then Ok x
  else if overflow_checks then Panic
  else Ok (as_signed bits x).

(** ** Loops

    [for a in l { .. }] over a state, with early exit by [?] or panic. *)
Fixpoint foldM {E S A} (f : S -> A -> res E S) (s : S) (l : list A) : res E S :=
  match l with
  | [] => Ok s
  | a :: l' => s' ← f s a; foldM f s' l'
  end.

(** * Bytes *)

Abbreviation bytes := (list byte).

#[export] Instance byte_eq_dec : EqDecision byte := Byte.byte_eq_dec.
#[export] Program Instance byte_countable : Countable byte :=
  inj_countable Byte.to_N (fun n => Byte.of_N n) _.
Next Obligation. intros b. apply Byte.of_to_N. Qed.

(** [to_le_bytes] of an [n]-byte integer and its inverse. *)
Definition le_bytes (n : nat) (x : Z) : bytes := LittleEndianList.le_split n x.
Definition le_value (l : bytes) : Z := LittleEndianList.le_combine l.
(** [to_be_bytes] and its inverse. *)
Definition be_bytes (n : nat) (x : Z) : bytes := reverse (le_bytes n x).
Definition be_value (l : bytes) : Z := le_value (reverse l).

#[global] Arguments le_bytes : simpl never.
#[global] Arguments le_value : simpl never.
#[global] Arguments be_bytes : simpl never.
#[global] Arguments be_value : simpl never.

Definition zero_bytes (n : nat) : bytes := replicate n Byte.x00.

(** * Tactics *)

(** Split the comparisons the boolean tests of the code make. *)
Ltac bool_to_prop :=
  repeat match goal with
  | H : _ && _ = true |- _ => apply andb_true_iff in H as [? ?]
  | H : _ || _ = false |- _ => apply orb_false_iff in H as [? ?]
  | H : negb _ = true |- _ => apply negb_true_iff in H
  | H : negb _ = false |- _ => apply negb_false_iff in H
  | H : (_ <=? _)%Z = true |- _ => apply Z.leb_le in H
  | H : (_ <=? _)%Z = false |- _ => apply Z.leb_gt in H
  | H : (_ <? _)%Z = true |- _ => apply Z.ltb_lt in H
  | H : (_ <? _)%Z = false |- _ => apply Z.ltb_ge in H
  | H : (_ =? _)%Z = true |- _ => apply Z.eqb_eq in H
  | H : (_ =? _)%Z = false |- _ => apply Z.eqb_neq in H
  | H : bool_decide _ = true |- _ => apply bool_decide_eq_true in H
  | H : bool_decide _ = false |- _ => apply bool_decide_eq_false in H
  end.

Lemma Ok_inj {E A} (a b : A) : Ok (E := E) a = Ok b -> a = b.
Proof. by intros [= ->]. Qed.

Lemma Some_inj' {A} (a b : A) : Some a = Some b -> a = b.
Proof. by intros [= ->]. Qed.

(** Invert a successful run of a monadic definition. *)
Ltac inv_res :=
  repeat match goal with
  | H : Ok _ = Ok _ |- _ => apply Ok_inj in H; subst
  | H : Some _ = Some _ |- _ => apply Some_inj' in H; subst
  | H : (_, _) = (_, _) |- _ => apply pair_equal_spec in H as [? ?]; subst
  | H : Ok _ = Err _ |- _ => discriminate H
  | H : Err _ = Ok _ |- _ => discriminate H
  | H : Ok _ = Panic |- _ => discriminate H
  | H : Panic = Ok _ |- _ => discriminate H
  | H : Some _ = None |- _ => discriminate H
  | H : None = Some _ |- _ => discriminate H
  end.

(** Case analysis on the scrutinee of the first [match] or [if] of [H]. *)
Ltac step_in H :=
  match type of H with
  | context [match ?x with _ => _ end] =>
      let E := fresh "E" in destruct x eqn:E; try discriminate H
  end.

(** Linear arithmetic with the width constants unfolded. *)
Ltac width_lia :=
  unfold is_u8, is_u16, is_u32, is_u64, is_i32, is_i64,
    u8_MAX, u16_MAX, u32_MAX, u64_MAX, i32_MIN, i32_MAX, i64_MIN, i64_MAX,
    u128_MAX, i128_MIN, i128_MAX in *; lia.

(** * Lemmas *)

Create HintDb zebra.
Create Rewrite HintDb zebra.

Section ResLemmas.
Context {E A B : Type}.
Implicit Types (m : res E A) (f : A -> res E B).

Lemma bind_Ok_inv m f b :
  m ≫= f = Ok b <-> exists a, m = Ok a /\ f a = Ok b.
Proof.
  destruct m; cbn; split.
  - eauto.
  - intros (? & [= <-] & ?); done.
  - done.
  - intros (? & ? & ?); done.
  - done.
  - intros (? & ? & ?); done.
Qed.

Lemma foldM_app {T} (f : T -> A -> res E T) t l1 l2 :
  foldM f t (l1 ++ l2) = (t' ← foldM f t l1; foldM f t' l2).
Proof.
  revert t. induction l1 as [|a l1 IH]; intros t; cbn; [done |].
  destruct (f t a) as [t'| |]; cbn; [apply IH | done | done].
Qed.

Lemma foldM_inv {T} (f : T -> A -> res E T) (P : T -> Prop) t l :
  P t -> (forall s a s', a ∈ l -> P s -> f s a = Ok s' -> P s') ->
  forall t', foldM f t l = Ok t' -> P t'.
Proof.
  revert t. induction l as [|a l IH]; intros t Ht Hf t'; cbn.
  - by intros [= <-].
  - destruct (f t a) as [s| |] eqn:E1; cbn; [|done|done]. apply IH.
    + eapply Hf; [|done|done]. left.
    + intros. eapply Hf; [|done|done]. by right.
Qed.

Lemma ok_or_Ok (o : option A) (e : E) a : ok_or o e = Ok a <-> o = Some a.
Proof. destruct o; cbn; split; intros; inv_res; done. Qed.

Lemma unwrap_Ok (o : option A) a : unwrap (E := E) o = Ok a <-> o = Some a.
Proof. destruct o; cbn; split; intros; inv_res; done. Qed.
End ResLemmas.

(** What a fold does to a projection of its state. *)
Lemma foldM_proj {E T U A} (f : T -> A -> res E T) (g : T -> U) (step : U -> A -> U) t l t' :
  (forall s a s', a ∈ l -> f s a = Ok s' -> g s' = step (g s) a) -> foldM f t l = Ok t' -> g t' = foldl step (g t) l.
Proof.
  revert t. induction l as [|a l IH]; intros t Hf; cbn [foldM foldl]; [by intros [= <-]|].
  intros (t1 & H1 & H2)%bind_Ok_inv. rewrite <- (Hf t a t1); [|left|done]. apply IH; [|done].
  intros s b s' Hb. apply Hf. by right.
Qed.
Lemma foldl_const {A U} (u : U) (l : list A) : foldl (fun u _ => u) u l = u.
Proof. by induction l. Qed.

(** A nested loop is a loop over the flattened list. *)
Lemma foldM_mbind {E T A B} (f : T -> B -> res E T) (g : A -> list B) t l :
  foldM (fun t a => foldM f t (g a)) t l = foldM f t (mbind g l).
Proof.
  revert t. induction l as [|a l IH]; intros t; [done|]. cbn [mbind list_bind foldM]. rewrite foldM_app.
  destruct (foldM f t (g a)) as [t'| |]; cbn [mbind res_bind]; [apply IH|done|done].
Qed.

(** The inversion of the small conversions. *)
Lemma map_err_Ok {E F A} (f : E -> F) (m : res E A) a : map_err f m = Ok a <-> m = Ok a.
Proof. destruct m; cbn; split; congruence. Qed.

Lemma expect_Ok {E F A} (m : res E A) a : expect (F := F) m = Ok a <-> m = Ok a.
Proof. destruct m; cbn; split; congruence. Qed.

Lemma assert_Ok {E} b u : assert_ (E := E) b = Ok u <-> b = true.
Proof. destruct b, u; cbn; split; congruence. Qed.

Lemma lift_Ok {E A} (m : outcome A) a : lift (E := E) m = Ok a <-> m = Ok a.
Proof. destruct m as [x|[]|]; cbn; split; congruence. Qed.

(** A loop that only checks succeeds when every check does. *)
Lemma foldM_unit_Ok {E A} (f : A -> res E unit) l :
  foldM (fun _ a => f a) tt l = Ok tt <-> Forall (fun a => f a = Ok tt) l.
Proof.
  induction l as [|a l IH]; cbn [foldM]; [by split|]. rewrite Forall_cons, <- IH.
  destruct (f a) as [[]|e|]; cbn [mbind res_bind]; naive_solver.
Qed.

(** A loop over the indices [0..n], by an invariant indexed by the number of
    iterations done: it runs to its end and establishes the invariant at [n]. *)
Lemma foldM_seq_total {E T} (f : T -> nat -> res E T) (P : nat -> T -> Prop) n t :
  P 0%nat t ->
  (forall k s, (k < n)%nat -> P k s -> exists s', f s k = Ok s' /\ P (S k) s') ->
  exists s, foldM f t (seq 0 n) = Ok s /\ P n s.
Proof.
  intros H0 Hstep.
  assert (Hgen : forall m k s, (k + m = n)%nat -> P k s ->
            exists s', foldM f s (seq k m) = Ok s' /\ P n s'); [|by apply (Hgen n 0%nat t)].
  induction m as [|m IH]; intros k s Hkm Hk; cbn.
  - exists s. split; [done |]. by replace n with k by lia.
  - destruct (Hstep k s) as (s' & -> & Hs'); [lia | done |]. cbn. apply IH; [lia | done].
Qed.

Lemma in_range_spec lo hi x : in_range lo hi x = true <-> lo <= x <= hi.
Proof. unfold in_range. rewrite andb_true_iff, !Z.leb_le. done. Qed.

Lemma checked_Some lo hi x y : checked lo hi x = Some y <-> y = x /\ lo <= x <= hi.
Proof.
  unfold checked. destruct (in_range lo hi x) eqn:Hr.
  - apply in_range_spec in Hr. split; [intros [= <-]; done | intros [-> _]; done].
  - split; [done |]. intros [_ Hx]. apply in_range_spec in Hx. congruence.
Qed.

Lemma checked_in lo hi x : lo <= x <= hi -> checked lo hi x = Some x.
Proof. intros. by apply checked_Some. Qed.

Lemma checked_None lo hi x : checked lo hi x = None <-> ~ (lo <= x <= hi).
Proof.
  unfold checked. rewrite <- in_range_spec.
  destruct (in_range lo hi x); split; congruence.
Qed.

Lemma arith_u_in {E} `{BuildProfile} bits x :
  0 <= x < 2 ^ bits -> arith_u (E := E) bits x = Ok x.
Proof.
  intros. unfold arith_u.
  replace (in_range 0 (2 ^ bits - 1) x) with true; [done |].
  symmetry. apply in_range_spec. lia.
Qed.

Lemma arith_u_range {E} `{BuildProfile} bits x y :
  0 <= bits -> arith_u (E := E) bits x = Ok y -> 0 <= y < 2 ^ bits.
Proof.
  intros Hb. unfold arith_u. destruct (in_range _ _ x) eqn:Hr.
  - intros [= <-]. apply in_range_spec in Hr. lia.
  - destruct overflow_checks; [done |]. intros [= <-].
    apply Z.mod_pos_bound. apply Z.pow_pos_nonneg; lia.
Qed.

Lemma arith_i_in {E} `{BuildProfile} bits x :
  - 2 ^ (bits - 1) <= x < 2 ^ (bits - 1) -> arith_i (E := E) bits x = Ok x.
Proof.
  intros. unfold arith_i.
  replace (in_range _ _ x) with true; [done |].
  symmetry. apply in_range_spec. lia.
Qed.

#[export] Hint Resolve checked_in arith_u_in arith_i_in : zebra.

(** ** Byte strings *)

Lemma length_le_bytes n x : length (le_bytes n x) = n.
Proof. apply LittleEndianList.length_le_split. Qed.

Lemma le_value_bytes n x :
  0 <= x < 2 ^ (Z.of_nat n * 8) -> le_value (le_bytes n x) = x.
Proof.
  intros. unfold le_value, le_bytes.
  rewrite LittleEndianList.le_combine_split. by apply Z.mod_small.
Qed.

Lemma le_bytes_value l n : length l = n -> le_bytes n (le_value l) = l.
Proof. apply LittleEndianList.split_le_combine'. Qed.

Lemma le_value_bound l : 0 <= le_value l < 2 ^ (8 * Z.of_nat (length l)).
Proof. apply LittleEndianList.le_combine_bound. Qed.

Lemma length_zero_bytes n : length (zero_bytes n) = n.
Proof. apply length_replicate. Qed.

(** ** Byte strings in lexicographic order *)

Fixpoint bytes_compare (a b : bytes) : comparison :=
  match a, b with
  | [], [] => Eq
  | [], _ => Lt
  | _, [] => Gt
  | x :: a', y :: b' =>
      match Z.compare (byte.unsigned x) (byte.unsigned y) with Eq => bytes_compare a' b' | c => c end
  end.

Lemma bytes_compare_antisym a b : bytes_compare b a = CompOpp (bytes_compare a b).
Proof.
  revert b. induction a as [|x a IH]; intros [|y b]; cbn; try done.
  rewrite (Z.compare_antisym (byte.unsigned x) (byte.unsigned y)).
  destruct (Z.compare (byte.unsigned x) (byte.unsigned y)); cbn; auto.
Qed.
Lemma bytes_compare_refl a : bytes_compare a a = Eq.
Proof. induction a as [|x a IH]; cbn; [done|]. by rewrite Z.compare_refl. Qed.
Lemma bytes_compare_trans a b c : bytes_compare a b = Lt -> bytes_compare b c = Lt -> bytes_compare a c = Lt.
Proof.
  revert b c. induction a as [|x a IH]; intros [|y b] [|z c]; cbn; try done.
  destruct (Z.compare_spec (byte.unsigned x) (byte.unsigned y)) as [Exy|Hxy|Hxy]; try done;
    destruct (Z.compare_spec (byte.unsigned y) (byte.unsigned z)) as [Eyz|Hyz|Hyz]; try done; intros H1 H2.
  - rewrite Exy, Eyz, Z.compare_refl. eauto.
  - by rewrite Exy, (proj2 (Z.compare_lt_iff _ _)).
  - by rewrite <- Eyz, (proj2 (Z.compare_lt_iff _ _)).
  - rewrite (proj2 (Z.compare_lt_iff _ _)); [done|lia].
Qed.

Lemma le_value_cons x l : le_value (x :: l) = byte.unsigned x + 256 * le_value l.
Proof.
  unfold le_value. pose proof (byte.unsigned_range x) as Hx.
  pose proof (Z.add_lor_land (byte.unsigned x) (Z.shiftl (LittleEndianList.le_combine l) 8)) as Hsum.
  assert (Z.land (byte.unsigned x) (Z.shiftl (LittleEndianList.le_combine l) 8) = 0) as Hland.
  { apply Z.bits_inj'. intros n Hn. rewrite Z.land_spec, Z.bits_0.
    destruct (Z.lt_ge_cases n 8) as [Hlt|Hge]; [rewrite Z.shiftl_spec_low by lia; apply andb_false_r|].
    rewrite <- (Z.mod_small (byte.unsigned x) (2 ^ 8)) by lia. by rewrite Z.mod_pow2_bits_high by lia. }
  rewrite Hland, Z.add_0_r, Z.shiftl_mul_pow2 in Hsum by lia.
  change (Z.lor (byte.unsigned x) (Z.shiftl (LittleEndianList.le_combine l) 8) = byte.unsigned x + 256 * LittleEndianList.le_combine l).
  rewrite Z.shiftl_mul_pow2 by lia. lia.
Qed.
Lemma le_value_snoc l x : le_value (l ++ [x]) = le_value l + byte.unsigned x * 256 ^ Z.of_nat (length l).
Proof.
  induction l as [|y l IH]; [cbn [app]; rewrite le_value_cons; change (le_value []) with 0; cbn; lia|].
  cbn [app length]. rewrite !le_value_cons, IH, Nat2Z.inj_succ, Z.pow_succ_r by lia. lia.
Qed.
Lemma be_value_cons x l : be_value (x :: l) = byte.unsigned x * 256 ^ Z.of_nat (length l) + be_value l.
Proof. unfold be_value. rewrite reverse_cons, le_value_snoc, length_reverse. lia. Qed.
Lemma be_value_bound l : 0 <= be_value l < 256 ^ Z.of_nat (length l).
Proof.
  unfold be_value. pose proof (le_value_bound (reverse l)) as Hb. rewrite length_reverse, Z.pow_mul_r in Hb by lia. done.
Qed.
Lemma length_be_bytes n x : length (be_bytes n x) = n.
Proof. unfold be_bytes. by rewrite length_reverse, length_le_bytes. Qed.
Lemma be_value_bytes n x : 0 <= x < 2 ^ (Z.of_nat n * 8) -> be_value (be_bytes n x) = x.
Proof. intros. unfold be_value, be_bytes. rewrite reverse_involutive. by apply le_value_bytes. Qed.
Lemma be_bytes_value l n : length l = n -> be_bytes n (be_value l) = l.
Proof. intros. unfold be_value, be_bytes. rewrite le_bytes_value by (by rewrite length_reverse). apply reverse_involutive. Qed.

(** Big-endian encodings of one length are ordered as their values. *)
Lemma bytes_compare_be_value a b : length a = length b -> bytes_compare a b = Z.compare (be_value a) (be_value b).
Proof.
  revert b. induction a as [|x a IH]; intros [|y b]; try done. cbn [length bytes_compare]. intros [= Hlen].
  rewrite !be_value_cons, <- Hlen. pose proof (be_value_bound a) as Ha. pose proof (be_value_bound b) as Hb.
  rewrite <- Hlen in Hb. set (w := 256 ^ Z.of_nat (length a)) in *.
  destruct (Z.compare_spec (byte.unsigned x) (byte.unsigned y)) as [E|H|H]; symmetry.
  - rewrite E, IH by done. apply Z.add_compare_mono_l.
  - apply Z.compare_lt_iff. nia.
  - apply Z.compare_gt_iff. nia.
Qed.
Lemma bytes_compare_app a b c d :
  length a = length b ->
  bytes_compare (a ++ c) (b ++ d) = match bytes_compare a b with Eq => bytes_compare c d | o => o end.
Proof.
  revert b. induction a as [|x a IH]; intros [|y b]; try done. cbn [length app bytes_compare]. intros [= Hlen].
  destruct (Z.compare (byte.unsigned x) (byte.unsigned y)); auto.
Qed.

#[export] Hint Rewrite length_le_bytes length_be_bytes length_zero_bytes @length_app : zebra.

(** ** A fallible map *)

Fixpoint map_res {E A B} (f : A -> res E B) (l : list A) : res E (list B) :=
  match l with
  | [] => Ok []
  | a :: l' => b ← f a; l'' ← map_res f l'; Ok (b :: l'')
  end.
Lemma map_res_Ok {E A B} (f : A -> res E B) l l' : map_res f l = Ok l' <-> Forall2 (fun a b => f a = Ok b) l l'.
Proof.
  revert l'. induction l as [|a l IH]; intros l'; cbn.
  - split; [intros He; inv_res; constructor|by intros ->%Forall2_nil_inv_l].
  - split.
    + intros (b & Hb & (l'' & Hl & He)%bind_Ok_inv)%bind_Ok_inv. inv_res. constructor; [done|]. by apply IH.
    + intros (b & l'' & Hb & Hl & ->)%Forall2_cons_inv_l. rewrite Hb. cbn. apply IH in Hl. by rewrite Hl.
Qed.

(** ** Sums of integers over lists *)

Fixpoint sum_Z {A} (f : A -> Z) (l : list A) : Z :=
  match l with
  | [] => 0
  | a :: l' => f a + sum_Z f l'
  end.

Section SumZ.
Context {A : Type}.
Implicit Types (f g : A -> Z) (l : list A).

Lemma sum_Z_app f l1 l2 : sum_Z f (l1 ++ l2) = sum_Z f l1 + sum_Z f l2.
Proof. induction l1 as [|a l1 IH]; cbn; [done | rewrite IH; lia]. Qed.

Lemma sum_Z_nonneg f l : Forall (fun a => 0 <= f a) l -> 0 <= sum_Z f l.
Proof. induction 1; cbn; lia. Qed.

Lemma sum_Z_le f g l : Forall (fun a => f a <= g a) l -> sum_Z f l <= sum_Z g l.
Proof. induction 1; cbn; lia. Qed.

Lemma sum_Z_scale c f l : sum_Z (fun a => c * f a) l = c * sum_Z f l.
Proof. induction l as [|a l IH]; cbn; [lia | rewrite IH; lia]. Qed.

Lemma sum_Z_ext f g l : (forall a, a ∈ l -> f a = g a) -> sum_Z f l = sum_Z g l.
Proof.
  induction l as [|a l IH]; intros H; cbn; [done |].
  rewrite H, IH; [done | | set_solver]. intros; apply H; set_solver.
Qed.

Lemma sum_Z_elem f l a : Forall (fun b => 0 <= f b) l -> a ∈ l -> f a <= sum_Z f l.
Proof.
  intros Hp Hin. induction Hin as [a l | a b l Hin IH];
    apply Forall_cons_1 in Hp as [? Hp]; cbn.
  - pose proof (sum_Z_nonneg f l Hp). lia.
  - specialize (IH Hp). lia.
Qed.

#[global] Instance sum_Z_perm f : Proper ((≡ₚ) ==> eq) (sum_Z f).
Proof. induction 1; cbn; lia. Qed.

Lemma sum_Z_fmap {B} (h : B -> A) f (l : list B) : sum_Z f (h <$> l) = sum_Z (f ∘ h) l.
Proof. induction l as [|b l IH]; [done |]. rewrite fmap_cons. cbn [sum_Z]. by rewrite IH. Qed.

Lemma sum_Z_imap_add {B} (h : nat -> B -> A) f (g : B -> Z) (k : nat -> B -> Z) (l : list B) :
  (forall i b, f (h i b) = g b + k i b) ->
  sum_Z f (imap h l) = sum_Z g l + sum_Z id (imap k l).
Proof.
  revert h k. induction l as [|b l IH]; intros h k Hf; [done |].
  rewrite !imap_cons. cbn [sum_Z]. rewrite Hf, (IH (h ∘ S) (k ∘ S)); [unfold id; lia |].
  intros i b'. apply Hf.
Qed.

Lemma sum_Z_insert f l i a b :
  l !! i = Some a -> sum_Z f (<[i := b]> l) = sum_Z f l - f a + f b.
Proof.
  revert i. induction l as [|c l IH]; intros [|i] H; [done.. | |].
  - injection H as ->. simpl. lia.
  - simpl in H. specialize (IH _ H). simpl. lia.
Qed.
End SumZ.

(** ** Total orders as boolean functions

    What Rust's [Ord] promises of [<=]. *)
Class BoolTotalOrder {A} (le : A -> A -> bool) : Prop := {
  ble_total : forall a b, le a b = true \/ le b a = true;
  ble_trans : forall a b c, le a b = true -> le b c = true -> le a c = true;
  ble_antisym : forall a b, le a b = true -> le b a = true -> a = b
}.

(** The derived order of byte arrays. *)
Fixpoint bytes_le (a b : bytes) : bool :=
  match a, b with
  | [], _ => true
  | _ :: _, [] => false
  | x :: a', y :: b' =>
      (byte.unsigned x <? byte.unsigned y)
      || ((byte.unsigned x =? byte.unsigned y) && bytes_le a' b')
  end.

#[export] Instance bytes_le_order : BoolTotalOrder bytes_le.
Proof.
  split.
  - induction a as [|x a IH]; intros [|y b]; simpl; auto.
    destruct (Z.ltb_spec (byte.unsigned x) (byte.unsigned y)); simpl; auto.
    destruct (Z.ltb_spec (byte.unsigned y) (byte.unsigned x)); simpl; auto.
    rewrite !(proj2 (Z.eqb_eq _ _)) by lia. apply IH.
  - induction a as [|x a IH]; intros [|y b] [|z c]; simpl; try done.
    rewrite !orb_true_iff, !andb_true_iff, !Z.ltb_lt, !Z.eqb_eq.
    intros [?|[? Hab]] [?|[? Hbc]]; [left; lia .. |]. right. split; [lia | eauto].
  - induction a as [|x a IH]; intros [|y b]; simpl; try done.
    rewrite !orb_true_iff, !andb_true_iff, !Z.ltb_lt, !Z.eqb_eq.
    intros [?|[? Hab]] [?|[? Hba]]; try lia. f_equal; [by apply byte.unsigned_inj | auto].
Qed.

(** ** Stable sorting by a total order

    Rust's [sort], [sort_by_key] and the like are stable sorts; the result of
    a stable sort does not depend on the algorithm, so insertion sort stands
    for it. *)
Section StableSort.
Context {A : Type} (le : A -> A -> bool).

Fixpoint sort_insert (a : A) (l : list A) : list A :=
  match l with
  | [] => [a]
  | b :: l' => if le a b then a :: b :: l' else b :: sort_insert a l'
  end.

Fixpoint stable_sort (l : list A) : list A :=
  match l with
  | [] => []
  | a :: l' => sort_insert a (stable_sort l')
  end.

Lemma sort_insert_perm a l : sort_insert a l ≡ₚ a :: l.
Proof.
  induction l as [|b l IH]; simpl; [done |]. case_match; [done |].
  rewrite IH. apply Permutation_swap.
Qed.

Lemma stable_sort_perm l : stable_sort l ≡ₚ l.
Proof. induction l as [|a l IH]; simpl; [done |]. by rewrite sort_insert_perm, IH. Qed.

Hypothesis le_total : forall a b, le a b = true \/ le b a = true.
Hypothesis le_trans : forall a b c, le a b = true -> le b c = true -> le a c = true.

Lemma sort_insert_sorted a l :
  StronglySorted (fun x y => le x y = true) l ->
  StronglySorted (fun x y => le x y = true) (sort_insert a l).
Proof.
  induction 1 as [|b l Hs IH Hb]; simpl; [by repeat constructor |].
  destruct (le a b) eqn:E.
  - constructor; [by constructor |]. constructor; [done |].
    eapply Forall_impl; [exact Hb |]. simpl. intros c. by apply le_trans.
  - constructor; [done |]. rewrite sort_insert_perm. constructor; [|done].
    destruct (le_total a b); [congruence | done].
Qed.

Lemma stable_sort_sorted l : StronglySorted (fun x y => le x y = true) (stable_sort l).
Proof. induction l; simpl; [constructor | by apply sort_insert_sorted]. Qed.

(** When the order is antisymmetric on the elements, the result depends on
    the elements only. *)
Lemma sorted_perm_unique l1 l2 :
  (forall a b, a ∈ l1 -> b ∈ l1 -> le a b = true -> le b a = true -> a = b) ->
  StronglySorted (fun x y => le x y = true) l1 ->
  StronglySorted (fun x y => le x y = true) l2 -> l1 ≡ₚ l2 -> l1 = l2.
Proof.
  revert l2. induction l1 as [|a l IH]; intros [|b l'] Hanti H1 H2 Hp; [done | | |].
  - by apply Permutation_nil_cons in Hp.
  - symmetry in Hp. by apply Permutation_nil_cons in Hp.
  - inversion H1 as [|? ? Hs1 Hf1]; inversion H2 as [|? ? Hs2 Hf2]; subst.
    assert (Hb : b ∈ a :: l) by (rewrite Hp; left).
    assert (a = b) as <-.
    { assert (Ha : a ∈ b :: l') by (rewrite <- Hp; left).
      apply elem_of_cons in Ha as [-> | Ha]; [done |].
      destruct (proj1 (elem_of_cons _ _ _) Hb) as [-> | Hb']; [done |].
      rewrite Forall_forall in Hf1, Hf2. apply Hanti; auto; left. }
    f_equal. apply IH; [|done|done|by apply Permutation_cons_inv in Hp].
    intros x y Hx Hy. apply Hanti; by right.
Qed.

Lemma stable_sort_unique l1 l2 :
  (forall a b, a ∈ l1 -> b ∈ l1 -> le a b = true -> le b a = true -> a = b) ->
  l1 ≡ₚ l2 -> stable_sort l1 = stable_sort l2.
Proof.
  intros Hanti Hp. apply sorted_perm_unique.
  - intros a b. rewrite !stable_sort_perm. apply Hanti.
  - apply stable_sort_sorted.
  - apply stable_sort_sorted.
  - by rewrite !stable_sort_perm.
Qed.
End StableSort.

Lemma StronglySorted_fmap_iff {A B} (f : A -> B) (R : B -> B -> Prop) l :
  StronglySorted (fun a b => R (f a) (f b)) l <-> StronglySorted R (f <$> l).
Proof.
  induction l as [|a l IH]; [split; constructor |]. rewrite fmap_cons.
  split; inversion 1; subst; constructor; try (by apply IH); by apply Forall_fmap.
Qed.

Lemma StronglySorted_weaken {A} (R S : A -> A -> Prop) l :
  (forall a b, R a b -> S a b) -> StronglySorted R l -> StronglySorted S l.
Proof.
  intros HRS. induction 1; constructor; [done |]. eapply Forall_impl; [done |]. simpl. auto.
Qed.

Section FilterLemmas.
Context {A : Type} (P : A -> Prop) `{forall x, Decision (P x)}.

Lemma filter_all (l : list A) : Forall P l -> filter P l = l.
Proof. induction 1; [done|]. rewrite filter_cons_True by done. by f_equal. Qed.

Lemma filter_none (l : list A) : Forall (fun x => ~ P x) l -> filter P l = [].
Proof. induction 1; [done|]. by rewrite filter_cons_False. Qed.

Lemma head_filter_elem (l : list A) x : head (filter P l) = Some x -> P x /\ x ∈ l.
Proof. intros (l' & Hl)%head_Some. apply (proj1 (list_elem_of_filter P l x)). rewrite Hl. left. Qed.
Lemma list_filter_iff' (Q : A -> Prop) `{forall x, Decision (Q x)} (l : list A) :
  Forall (fun x => P x <-> Q x) l -> filter P l = filter Q l.
Proof. induction 1 as [|x l Hx Hl IH]; [done|]. rewrite !filter_cons, IH. repeat case_decide; tauto. Qed.
End FilterLemmas.

Lemma StronglySorted_app_inv {A} (R : A -> A -> Prop) (l1 l2 : list A) :
  StronglySorted R (l1 ++ l2) ->
  StronglySorted R l1 /\ StronglySorted R l2 /\ (forall a b, a ∈ l1 -> b ∈ l2 -> R a b).
Proof.
  induction l1 as [|x l1 IH]; cbn.
  { intros Hs. split_and!; [constructor|done|]. intros a b Ha. by apply not_elem_of_nil in Ha. }
  inversion 1 as [|? ? Hs Hf]; subst. destruct (IH Hs) as (?&?&Hc).
  apply Forall_app in Hf as [Hf1 Hf2]. rewrite Forall_forall in Hf2.
  split_and!; [by constructor|done|]. intros a b [->|Ha]%elem_of_cons Hb; eauto.
Qed.

(** ** Undoing a sequence of partial operations in another order *)

Fixpoint foldO {S A} (f : S -> A -> option S) (s : S) (l : list A) : option S :=
  match l with
  | [] => Some s
  | a :: l' => match f s a with Some s' => foldO f s' l' | None => None end
  end.

Lemma foldO_app {S A} (f : S -> A -> option S) s l1 l2 :
  foldO f s (l1 ++ l2) = match foldO f s l1 with Some s' => foldO f s' l2 | None => None end.
Proof. revert s. induction l1 as [|a l1 IH]; intros s; cbn; [done|]. by destruct (f s a). Qed.

Section CommutingOperations.
Context {S A : Type} (ap un : S -> A -> option S) (good : S -> Prop).
Hypothesis good_ap : forall s a s', good s -> ap s a = Some s' -> good s'.
Hypothesis un_ap : forall s a s', good s -> ap s a = Some s' -> un s' a = Some s.
Hypothesis ap_comm : forall s a b s1 s2, good s -> ap s a = Some s1 -> ap s1 b = Some s2 ->
  exists s1', ap s b = Some s1' /\ ap s1' a = Some s2.

Lemma foldO_perm s l l' s' : good s -> l ≡ₚ l' -> foldO ap s l = Some s' -> foldO ap s l' = Some s'.
Proof.
  intros Hg Hp. revert s Hg. induction Hp as [|x l l' Hp IH|x y l|l l' l'' Hp1 IH1 Hp2 IH2]; intros s Hg; cbn.
  - done.
  - destruct (ap s x) as [s1|] eqn:E; [|done]. eauto.
  - destruct (ap s y) as [s1|] eqn:E; [|done]. destruct (ap s1 x) as [s2|] eqn:E2; [|done].
    destruct (ap_comm s y x s1 s2 Hg E E2) as (s1' & -> & ->). done.
  - eauto.
Qed.

Lemma foldO_good s l s' : good s -> foldO ap s l = Some s' -> good s'.
Proof.
  revert s. induction l as [|a l IH]; cbn; intros s Hg; [congruence|].
  destruct (ap s a) as [s1|] eqn:E; [|done]. eauto.
Qed.

(** Undoing a prefix of a reordering leaves the state the other operations
    lead to. *)
Lemma foldO_undo_prefix s l s' p q :
  good s -> l ≡ₚ p ++ q -> foldO ap s l = Some s' ->
  exists t, foldO un s' p = Some t /\ foldO ap s q = Some t.
Proof.
  revert l s'. induction p as [|a p IH]; intros l s' Hg Hp Hl.
  - exists s'. split; [done|]. by eapply foldO_perm.
  - assert (l ≡ₚ (p ++ q) ++ [a]) as Hp' by (rewrite Hp; cbn; by rewrite Permutation_cons_append).
    pose proof (foldO_perm s _ _ s' Hg Hp' Hl) as Hl'. rewrite foldO_app in Hl'.
    destruct (foldO ap s (p ++ q)) as [s1|] eqn:E; [|done]. cbn in Hl'.
    destruct (ap s1 a) as [s2|] eqn:Ea; [|done]. injection Hl' as ->.
    destruct (IH (p ++ q) s1 Hg (reflexivity _) E) as (t & Hun & Hap).
    exists t. split; [|done]. cbn. by rewrite (un_ap s1 a s' (foldO_good _ _ _ Hg E) Ea).
Qed.
End CommutingOperations.
