(* ===== verification/Serialization.v ===== *)
(** Consensus-critical serialization ([zebra-chain/src/serialization]): the
    reader and writer interfaces as type classes, [CompactSize] integers, byte
    vectors and vectors of items with their preallocation limits, and the laws
    ([Codec]) that the wire formats of the other files are proved to satisfy.

    A writer appends to a byte string, so [zcash_serialize] is a function to
    [res IoError bytes]; a reader is a function from the remaining input to the
    value read and what is left. *)
From S2P Require Import Prelude.
From stdpp Require Import prelude strings.
From coqutil Require Import Byte.
From Stdlib Require Import ZArith Lia.
#[local] Open Scope Z_scope.

(** * Errors *)

(** [io::Error]: the only kinds the formats produce are an input that ends
    early and [io::Error::other] with a message. *)
Inductive IoError : Type :=
| UnexpectedEof
| IoOther (msg : string).

Inductive SerializationError : Type :=
| Io (e : IoError)
| Parse (msg : string)
| Utf8Error
| TryFromSliceError
| TryFromIntError
| FromHexError
| AmountError
| BadTransactionBalance.

(** * The reader and writer interfaces *)

Definition reader (A : Type) : Type := bytes -> res SerializationError (A * bytes).

#[export] Instance reader_ret : MRet reader := fun A a s => Ok (a, s).
#[export] Instance reader_bind : MBind reader := fun A B f m s =>
  match m s with
  | Ok (a, s') => f a s'
  | Err e => Err e
  | Panic => Panic
  end.

(** A computation without input inside a reader. *)
Definition reader_of {A} (m : res SerializationError A) : reader A := fun s =>
  match m with
  | Ok a => Ok (a, s)
  | Err e => Err e
  | Panic => Panic
  end.

Class ZcashSerialize (A : Type) := zcash_serialize : A -> res IoError bytes.
Class ZcashDeserialize (A : Type) := zcash_deserialize : reader A.
Class TrustedPreallocate (A : Type) := max_allocation : Z.
Arguments max_allocation A {_}.
#[global] Arguments zcash_serialize {A _} _ : simpl never.
#[global] Arguments zcash_deserialize {A _} _ : simpl never.

(** [Read::read_exact] on an in-memory reader. *)
Definition read_exact (n : nat) : reader bytes := fun s =>
  if decide (n <= length s)%nat then Ok (take n s, drop n s) else Err (Io UnexpectedEof).

(** The [ReadBytesExt] and [ReadZcashExt] methods. *)
Definition read_le (n : nat) : reader Z := b ← read_exact n; mret (le_value b).
Definition read_u8 : reader Z := read_le 1.
Definition read_u16 : reader Z := read_le 2.
Definition read_u32 : reader Z := read_le 4.
Definition read_u64 : reader Z := read_le 8.
Definition read_4_bytes : reader bytes := read_exact 4.
Definition read_12_bytes : reader bytes := read_exact 12.
Definition read_32_bytes : reader bytes := read_exact 32.
Definition read_64_bytes : reader bytes := read_exact 64.

(** The [WriteBytesExt] methods write [n as uN]. *)
Definition write_u8 (x : Z) : bytes := le_bytes 1 x.
Definition write_u16 (x : Z) : bytes := le_bytes 2 x.
Definition write_u32 (x : Z) : bytes := le_bytes 4 x.
Definition write_u64 (x : Z) : bytes := le_bytes 8 x.

(** * CompactSize *)

Definition MAX_PROTOCOL_MESSAGE_LEN : Z := 2 * 1024 * 1024.
Definition MAX_U8_ALLOCATION : Z := MAX_PROTOCOL_MESSAGE_LEN - 5.

Record CompactSizeMessage := mkCompactSizeMessage { compact_size_message : Z }.
Record CompactSize64 := mkCompactSize64 { compact_size_64 : Z }.

(** [TryFrom<usize> for CompactSizeMessage]. *)
Definition CompactSizeMessage_try_from (size : Z) : res SerializationError CompactSizeMessage :=
  size ← ok_or (u32_checked size) TryFromIntError;
  if MAX_PROTOCOL_MESSAGE_LEN <? size
  then Err (Parse "CompactSize larger than protocol message limit")
  else Ok (mkCompactSizeMessage size).

#[export] Instance CompactSize64_serialize : ZcashSerialize CompactSize64 := fun c =>
  let n := compact_size_64 c in
  if n <=? 0xfc then Ok (write_u8 n)
  else if n <=? 0xffff then Ok (write_u8 0xfd ++ write_u16 n)
  else if n <=? 0xffffffff then Ok (write_u8 0xfe ++ write_u32 n)
  else Ok (write_u8 0xff ++ write_u64 n).

#[export] Instance CompactSize64_deserialize : ZcashDeserialize CompactSize64 :=
  flag_byte ← read_u8;
  size ← (if flag_byte <=? 0xfc then mret flag_byte
          else if flag_byte =? 0xfd then
            n ← read_u16;
            reader_of (if 0xfd <=? n then Ok n else Err (Parse "non-canonical CompactSize"))
          else if flag_byte =? 0xfe then
            n ← read_u32;
            reader_of (if 0x10000 <=? n then Ok n else Err (Parse "non-canonical CompactSize"))
          else
            n ← read_u64;
            reader_of (if 0x100000000 <=? n then Ok n else Err (Parse "non-canonical CompactSize")));
  mret (mkCompactSize64 size).

#[export] Instance CompactSizeMessage_serialize : ZcashSerialize CompactSizeMessage := fun c =>
  _ ← assert_ (compact_size_message c <=? MAX_PROTOCOL_MESSAGE_LEN);
  zcash_serialize (mkCompactSize64 (compact_size_message c)).

(** On a 64-bit platform the conversion from [u64] to [usize] cannot fail. *)
#[export] Instance CompactSizeMessage_deserialize : ZcashDeserialize CompactSizeMessage :=
  size ← zcash_deserialize;
  reader_of (CompactSizeMessage_try_from (compact_size_64 size)).

(** * Byte vectors *)

Definition zcash_serialize_bytes_external_count (vec : bytes) : res IoError bytes := Ok vec.

Definition zcash_serialize_bytes (vec : bytes) : res IoError bytes :=
  len ← expect (CompactSizeMessage_try_from (Z.of_nat (length vec)));
  l ← zcash_serialize len;
  b ← zcash_serialize_bytes_external_count vec;
  Ok (l ++ b).

Definition zcash_deserialize_bytes_external_count (external_count : Z) : reader bytes :=
  if MAX_U8_ALLOCATION <? external_count
  then reader_of (Err (Parse "Byte vector longer than MAX_U8_ALLOCATION"))
  else read_exact (Z.to_nat external_count).

(** [ZcashDeserialize for Vec<u8>]. *)
Definition zcash_deserialize_bytes : reader bytes :=
  len ← zcash_deserialize;
  zcash_deserialize_bytes_external_count (compact_size_message len).

Definition zcash_serialize_empty_list : res IoError bytes :=
  len ← expect (CompactSizeMessage_try_from 0);
  zcash_serialize len.

(** * Vectors of items *)

Section Vectors.
Context {T : Type} `{ZcashSerialize T} `{ZcashDeserialize T} `{TrustedPreallocate T}.

Fixpoint zcash_serialize_external_count (vec : list T) : res IoError bytes :=
  match vec with
  | [] => Ok []
  | x :: vec' =>
      b ← zcash_serialize x;
      bs ← zcash_serialize_external_count vec';
      Ok (b ++ bs)
  end.

(** The [for _ in 0..external_count] loop. *)
Fixpoint read_items (n : nat) : reader (list T) :=
  match n with
  | O => mret []
  | S n' => x ← zcash_deserialize; xs ← read_items n'; mret (x :: xs)
  end.

Definition zcash_deserialize_external_count (external_count : Z) : reader (list T) :=
  if max_allocation T <? external_count
  then reader_of (Err (Parse "Vector longer than max_allocation"))
  else read_items (Z.to_nat external_count).

Definition vec_serialize (vec : list T) : res IoError bytes :=
  len ← expect (CompactSizeMessage_try_from (Z.of_nat (length vec)));
  l ← zcash_serialize len;
  b ← zcash_serialize_external_count vec;
  Ok (l ++ b).

Definition vec_deserialize : reader (list T) :=
  len ← zcash_deserialize;
  zcash_deserialize_external_count (compact_size_message len).

(** [AtLeastOne<T>]: a vector that is not empty. *)
Definition AtLeastOne_try_from (vec : list T) : res SerializationError (list T) :=
  match vec with
  | [] => Err (Parse "expected at least one item")
  | _ => Ok vec
  end.

Definition at_least_one_deserialize : reader (list T) :=
  v ← vec_deserialize; reader_of (AtLeastOne_try_from v).
End Vectors.

(** * The laws of a wire format

    [wf] says which values of the model type are values of the Rust type (a
    list that stands for a [[u8; 32]] has 32 elements, an integer is in the
    range of its type) and within the limits the format imposes. *)
Class Codec (A : Type) (wf : A -> Prop) `{ZcashSerialize A} `{ZcashDeserialize A} : Prop := {
  codec_total : forall a, wf a -> exists bs, zcash_serialize a = Ok bs;
  codec_roundtrip : forall a bs rest,
    wf a -> zcash_serialize a = Ok bs -> zcash_deserialize (bs ++ rest) = Ok (a, rest)
}.

(** A format is canonical when a value has one encoding: what was read is what
    would be written. *)
Class Canonical (A : Type) (wf : A -> Prop) `{ZcashSerialize A} `{ZcashDeserialize A} : Prop :=
  codec_canonical : forall s a rest,
    zcash_deserialize s = Ok (a, rest) ->
    wf a /\ exists bs, zcash_serialize a = Ok bs /\ s = bs ++ rest.

(** * Lemmas on readers *)

Lemma reader_bind_Ok {A B} (m : reader A) (f : A -> reader B) s a s' :
  m s = Ok (a, s') -> (m ≫= f) s = f a s'.
Proof. intros E. unfold mbind, reader_bind. by rewrite E. Qed.

Lemma reader_bind_inv {A B} (m : reader A) (f : A -> reader B) s b s' :
  (m ≫= f) s = Ok (b, s') -> exists a s1, m s = Ok (a, s1) /\ f a s1 = Ok (b, s').
Proof.
  unfold mbind, reader_bind. destruct (m s) as [[a s1]| |]; [|done|done]. eauto.
Qed.

Lemma reader_of_inv {A} (m : res SerializationError A) s a s' :
  reader_of m s = Ok (a, s') -> m = Ok a /\ s' = s.
Proof. unfold reader_of. destruct m; [|done|done]. intros [= <- <-]. done. Qed.

Lemma read_exact_app n l rest : length l = n -> read_exact n (l ++ rest) = Ok (l, rest).
Proof.
  intros <-. unfold read_exact. rewrite decide_True by (rewrite length_app; lia).
  by rewrite take_app_length, drop_app_length.
Qed.

Lemma read_exact_inv n s l rest :
  read_exact n s = Ok (l, rest) -> s = l ++ rest /\ length l = n.
Proof.
  unfold read_exact. case_decide; [|done]. intros [= <- <-].
  rewrite take_drop, length_take. split; [done | lia].
Qed.

Lemma read_le_app n x rest :
  0 <= x < 2 ^ (Z.of_nat n * 8) -> read_le n (le_bytes n x ++ rest) = Ok (x, rest).
Proof.
  intros. unfold read_le.
  erewrite reader_bind_Ok by (apply read_exact_app, length_le_bytes).
  by rewrite le_value_bytes.
Qed.

Lemma read_le_inv n s x rest :
  read_le n s = Ok (x, rest) ->
  s = le_bytes n x ++ rest /\ 0 <= x < 2 ^ (8 * Z.of_nat n).
Proof.
  intros (l & s1 & Hl & [= <- <-])%reader_bind_inv.
  apply read_exact_inv in Hl as [-> <-]. rewrite le_bytes_value by done.
  split; [done | apply le_value_bound].
Qed.

Ltac rd_inv H :=
  let a := fresh "a" in let s1 := fresh "s" in let H1 := fresh "Hr" in
  apply reader_bind_inv in H as (a & s1 & H1 & H).

#[export] Hint Resolve read_exact_app read_le_app : zebra.

(** * CompactSize theorems *)

Definition wf_CompactSize64 (c : CompactSize64) : Prop := is_u64 (compact_size_64 c).
Definition wf_CompactSizeMessage (c : CompactSizeMessage) : Prop :=
  0 <= compact_size_message c <= MAX_PROTOCOL_MESSAGE_LEN.

Lemma CompactSize64_roundtrip c bs rest :
  wf_CompactSize64 c -> zcash_serialize c = Ok bs ->
  zcash_deserialize (bs ++ rest) = Ok (c, rest).
Proof.
  destruct c as [n]. unfold wf_CompactSize64, is_u64, u64_MAX; cbn.
  intros Hn. unfold zcash_serialize, CompactSize64_serialize.
  unfold zcash_deserialize, CompactSize64_deserialize, read_u8, read_u16, read_u32, read_u64,
    write_u8, write_u16, write_u32, write_u64.
  cbn [compact_size_64]. cbv zeta.
  repeat case_match; bool_to_prop; intros Hs; inv_res; rewrite <- ?app_assoc;
    (erewrite reader_bind_Ok; [| apply read_le_app; lia]); cbn -[read_le].
  1: by rewrite (proj2 (Z.leb_le n 252)) by lia.
  all: erewrite reader_bind_Ok; [done|].
  all: erewrite reader_bind_Ok by (apply read_le_app; lia).
  all: by rewrite (proj2 (Z.leb_le _ _)) by lia.
Qed.

Lemma CompactSize64_canonical s c rest :
  zcash_deserialize s = Ok (c, rest) ->
  wf_CompactSize64 c /\ exists bs, zcash_serialize c = Ok bs /\ s = bs ++ rest.
Proof.
  unfold zcash_deserialize, CompactSize64_deserialize, read_u8, read_u16, read_u32, read_u64.
  intros H. rd_inv H. rd_inv H. injection H as <- <-.
  apply read_le_inv in Hr as [-> Ha].
  unfold wf_CompactSize64, is_u64, u64_MAX, zcash_serialize, CompactSize64_serialize.
  cbn [compact_size_64]. cbv zeta.
  repeat case_match; bool_to_prop; try lia.
  all: try (rd_inv Hr0; apply read_le_inv in Hr as [-> Hb];
            apply reader_of_inv in Hr0 as [Hr0 ->]; case_match; inv_res; bool_to_prop; try lia).
  all: try (injection Hr0 as -> ->; try lia).
  all: split; [lia | eexists; split; [done | rewrite ?app_assoc; repeat f_equal; try lia]].
Qed.

#[export] Instance CompactSize64_codec : Codec CompactSize64 wf_CompactSize64.
Proof.
  split.
  - intros [n] _. unfold zcash_serialize, CompactSize64_serialize. cbv zeta.
    repeat case_match; eauto.
  - apply CompactSize64_roundtrip.
Qed.

#[export] Instance CompactSize64_is_canonical : Canonical CompactSize64 wf_CompactSize64.
Proof. exact CompactSize64_canonical. Qed.

Lemma CompactSizeMessage_try_from_Ok n c :
  CompactSizeMessage_try_from n = Ok c <->
  c = mkCompactSizeMessage n /\ 0 <= n <= MAX_PROTOCOL_MESSAGE_LEN.
Proof.
  unfold CompactSizeMessage_try_from. rewrite bind_Ok_inv. split.
  - intros (m & Hm%ok_or_Ok%checked_Some & H). destruct Hm as [-> Hm].
    case_match; inv_res; bool_to_prop. split; [done | lia].
  - intros [-> Hn]. unfold MAX_PROTOCOL_MESSAGE_LEN in *.
    exists n. split; [by apply ok_or_Ok, checked_in; unfold u32_MAX; lia |].
    by rewrite (proj2 (Z.ltb_ge _ _)) by lia.
Qed.

#[export] Instance CompactSizeMessage_codec : Codec CompactSizeMessage wf_CompactSizeMessage.
Proof.
  unfold wf_CompactSizeMessage. split.
  - intros [n] Hn; simpl in Hn. unfold zcash_serialize, CompactSizeMessage_serialize. simpl.
    rewrite (proj2 (Z.leb_le _ _)) by lia. simpl.
    eapply (codec_total (mkCompactSize64 n)).
    unfold wf_CompactSize64, is_u64, u64_MAX, MAX_PROTOCOL_MESSAGE_LEN in *; simpl; lia.
  - intros [n] bs rest Hn H; simpl in Hn.
    unfold zcash_serialize, CompactSizeMessage_serialize in H. simpl in H.
    rewrite (proj2 (Z.leb_le _ _)) in H by lia. simpl in H.
    unfold zcash_deserialize, CompactSizeMessage_deserialize.
    erewrite reader_bind_Ok; [| eapply codec_roundtrip; [|exact H];
      unfold wf_CompactSize64, is_u64, u64_MAX, MAX_PROTOCOL_MESSAGE_LEN in *; simpl; lia].
    unfold reader_of. simpl.
    by rewrite (proj2 (CompactSizeMessage_try_from_Ok n (mkCompactSizeMessage n))) by done.
Qed.

#[export] Instance CompactSizeMessage_is_canonical :
  Canonical CompactSizeMessage wf_CompactSizeMessage.
Proof.
  intros s c rest H. unfold zcash_deserialize, CompactSizeMessage_deserialize in H.
  rd_inv H. apply reader_of_inv in H as [H ->].
  apply CompactSizeMessage_try_from_Ok in H as [-> Hn].
  apply codec_canonical in Hr as [_ (bs & Hs & ->)]. destruct a as [n].
  split; [done |]. exists bs. split; [|done].
  unfold zcash_serialize at 1, CompactSizeMessage_serialize. simpl in *.
  by rewrite (proj2 (Z.leb_le _ _)) by lia.
Qed.

(** * Byte vector theorems *)

(** What [zcash_serialize_bytes] writes: defined for every byte vector up to
    the message limit, and a panic beyond it. *)
Lemma zcash_serialize_bytes_spec vec :
  zcash_serialize_bytes vec =
    if Z.of_nat (length vec) <=? MAX_PROTOCOL_MESSAGE_LEN
    then l ← zcash_serialize (mkCompactSizeMessage (Z.of_nat (length vec))); Ok (l ++ vec)
    else Panic.
Proof.
  unfold zcash_serialize_bytes. case_match; bool_to_prop.
  - by rewrite (proj2 (CompactSizeMessage_try_from_Ok _ _)) by (split; [done | lia]).
  - destruct (CompactSizeMessage_try_from _) as [c| |] eqn:E; [|done|done].
    apply CompactSizeMessage_try_from_Ok in E. lia.
Qed.

Lemma zcash_bytes_roundtrip vec bs rest :
  Z.of_nat (length vec) <= MAX_U8_ALLOCATION ->
  zcash_serialize_bytes vec = Ok bs ->
  zcash_deserialize_bytes (bs ++ rest) = Ok (vec, rest).
Proof.
  unfold MAX_U8_ALLOCATION. intros Hlen. rewrite zcash_serialize_bytes_spec.
  rewrite (proj2 (Z.leb_le _ _)) by lia.
  intros (l & Hl & H)%bind_Ok_inv. inv_res. rewrite <- app_assoc.
  unfold zcash_deserialize_bytes.
  erewrite reader_bind_Ok; [|eapply codec_roundtrip; [|exact Hl]; unfold wf_CompactSizeMessage; simpl; lia].
  unfold zcash_deserialize_bytes_external_count, MAX_U8_ALLOCATION. cbn [compact_size_message].
  rewrite (proj2 (Z.ltb_ge _ _)) by (unfold MAX_PROTOCOL_MESSAGE_LEN in *; lia).
  rewrite Nat2Z.id. by apply read_exact_app.
Qed.

Lemma zcash_bytes_canonical s vec rest :
  zcash_deserialize_bytes s = Ok (vec, rest) ->
  Z.of_nat (length vec) <= MAX_U8_ALLOCATION /\
  exists bs, zcash_serialize_bytes vec = Ok bs /\ s = bs ++ rest.
Proof.
  unfold zcash_deserialize_bytes. intros H. rd_inv H.
  apply codec_canonical in Hr as [Hw (l & Hl & ->)]. destruct a as [n].
  unfold wf_CompactSizeMessage in Hw. simpl in *.
  unfold zcash_deserialize_bytes_external_count in H. case_match; [done|]. bool_to_prop.
  apply read_exact_inv in H as [-> Hlen].
  assert (Hn : Z.of_nat (length vec) = n) by lia.
  split; [lia |]. exists (l ++ vec). split; [|by rewrite app_assoc].
  rewrite zcash_serialize_bytes_spec, (proj2 (Z.leb_le _ _)), Hn, Hl by lia. done.
Qed.

(** * Vector theorems: proved against the [Codec] interface *)

Section VectorLaws.
Context {T : Type} {wf : T -> Prop} `{CT : Codec T wf} `{TrustedPreallocate T}.

Definition wf_vec (vec : list T) : Prop :=
  Forall wf vec /\ Z.of_nat (length vec) <= max_allocation T
  /\ Z.of_nat (length vec) <= MAX_PROTOCOL_MESSAGE_LEN.

Lemma serialize_items_total vec :
  Forall wf vec -> exists bs, zcash_serialize_external_count vec = Ok bs.
Proof.
  induction 1 as [|x vec Hx _ [bs IH]]; simpl; [eauto |].
  destruct (codec_total x Hx) as [b ->]. rewrite IH. simpl. eauto.
Qed.

Lemma read_items_roundtrip vec bs rest :
  Forall wf vec -> zcash_serialize_external_count vec = Ok bs ->
  read_items (length vec) (bs ++ rest) = Ok (vec, rest).
Proof.
  intros Hf. revert bs. induction Hf as [|x vec Hx _ IH]; intros bs H'; simpl in *.
  - by inv_res.
  - apply bind_Ok_inv in H' as (b & Hb & H').
    apply bind_Ok_inv in H' as (bs' & Hbs & H'). inv_res. rewrite <- app_assoc.
    erewrite reader_bind_Ok by (by eapply codec_roundtrip).
    by erewrite reader_bind_Ok by (by apply IH).
Qed.

Lemma read_items_canonical `{!Canonical T wf} n s vec rest :
  read_items n s = Ok (vec, rest) ->
  length vec = n /\ Forall wf vec /\
  exists bs, zcash_serialize_external_count vec = Ok bs /\ s = bs ++ rest.
Proof.
  revert s vec. induction n as [|n IH]; intros s vec H'; simpl in H'.
  - injection H' as <- <-. simpl. eauto.
  - rd_inv H'. rd_inv H'. injection H' as <- <-.
    apply codec_canonical in Hr as [Hw (b & Hb & ->)].
    apply IH in Hr0 as (Hl & Hf & bs & Hbs & ->).
    simpl. rewrite Hb. simpl. rewrite Hbs. simpl. rewrite Hl.
    split; [done |]. split; [by constructor |].
    eexists. split; [done |]. by rewrite app_assoc.
Qed.

Lemma vec_total vec : wf_vec vec -> exists bs, vec_serialize vec = Ok bs.
Proof.
  intros (Hf & _ & Hlen). unfold vec_serialize.
  rewrite (proj2 (CompactSizeMessage_try_from_Ok _ _)) by (split; [done | lia]). simpl.
  destruct (codec_total (mkCompactSizeMessage (Z.of_nat (length vec)))) as [l ->].
  { unfold wf_CompactSizeMessage; simpl; lia. }
  destruct (serialize_items_total vec Hf) as [bs ->]. simpl. eauto.
Qed.

Lemma vec_roundtrip_gen vec bs rest :
  wf_vec vec -> vec_serialize vec = Ok bs ->
  vec_deserialize (bs ++ rest) = Ok (vec, rest).
Proof.
  intros (Hf & Ha & Hlen). unfold vec_serialize.
  rewrite (proj2 (CompactSizeMessage_try_from_Ok _ _)) by (split; [done | lia]). simpl.
  intros (l & Hl & H')%bind_Ok_inv. apply bind_Ok_inv in H' as (bs' & Hbs & H').
  inv_res. rewrite <- app_assoc. unfold vec_deserialize.
  erewrite reader_bind_Ok; [|eapply codec_roundtrip; [|exact Hl];
    unfold wf_CompactSizeMessage; simpl; lia].
  unfold zcash_deserialize_external_count. cbn [compact_size_message].
  rewrite (proj2 (Z.ltb_ge _ _)) by lia. rewrite Nat2Z.id.
  by apply read_items_roundtrip.
Qed.

(** A decoded vector never holds more items than [max_allocation]: the
    preallocation is bounded whatever count the input claims. *)
Lemma vec_deserialize_bounded s vec rest :
  vec_deserialize s = Ok (vec, rest) ->
  Z.of_nat (length vec) <= Z.max 0 (max_allocation T).
Proof.
  unfold vec_deserialize. intros H'. rd_inv H'.
  unfold zcash_deserialize_external_count in H'. case_match; [done|]. bool_to_prop.
  assert (Hl : length vec = Z.to_nat (compact_size_message a)); [|lia].
  clear -H'. revert s0 vec rest H'.
  induction (Z.to_nat (compact_size_message a)) as [|n IH]; intros s0 vec rest Hn; simpl in Hn.
  - by injection Hn as <- <-.
  - rd_inv Hn. rd_inv Hn. injection Hn as <- <-. simpl. f_equal. eauto.
Qed.
End VectorLaws.
