(* ===== verification/BTreeMap.v ===== *)
(** Rust's [BTreeMap] with integer keys, as its list of entries in ascending
    key order: the operations the sources use of it, the ordering invariant
    they keep, and how they act on lookups. *)
From S2P Require Import Prelude.
From stdpp Require Import prelude sorting.
From Stdlib Require Import ZArith Lia.
#[local] Open Scope Z_scope.

Abbreviation btree V := (list (Z * V)).

Section BTreeMap.
Context {V : Type}.
Implicit Types (m : btree V) (k : Z) (v : V).

Fixpoint bt_get k m : option V :=
  match m with
  | [] => None
  | (k', v) :: m' => if k =? k' then Some v else bt_get k m'
  end.

Fixpoint bt_insert k v m : btree V :=
  match m with
  | [] => [(k, v)]
  | (k', v') :: m' =>
      if k <? k' then (k, v) :: m
      else if k =? k' then (k, v) :: m'
      else (k', v') :: bt_insert k v m'
  end.

Definition bt_remove k m : btree V := filter (fun e => e.1 ≠ k) m.
Definition bt_range (lo hi : Z) m : btree V := filter (fun e => lo <= e.1 <= hi) m.
Definition bt_from_list (l : list (Z * V)) : btree V := foldl (fun m e => bt_insert e.1 e.2 m) [] l.
Definition bt_extend m (l : list (Z * V)) : btree V := foldl (fun m e => bt_insert e.1 e.2 m) m l.

(** The ordering invariant. *)
Definition bt_sorted m : Prop := StronglySorted (fun a b => a.1 < b.1) m.

Lemma bt_sorted_cons e m : bt_sorted (e :: m) <-> bt_sorted m /\ Forall (fun x => e.1 < x.1) m.
Proof. unfold bt_sorted. split; [inversion 1; auto|intros []; by constructor]. Qed.

Lemma bt_sorted_app m1 m2 :
  bt_sorted (m1 ++ m2) <->
  bt_sorted m1 /\ bt_sorted m2 /\ (forall a b, a ∈ m1 -> b ∈ m2 -> a.1 < b.1).
Proof.
  induction m1 as [|e m1 IH]; cbn [app].
  - split; [intros H; split_and!; [constructor|done|intros a b Ha; by apply not_elem_of_nil in Ha]|tauto].
  - rewrite !bt_sorted_cons, IH, Forall_app, !Forall_forall. split.
    + intros [(?&?&Hc) [? ?]]. split_and!; try done.
      intros a b [->|Ha]%elem_of_cons Hb; eauto.
    + intros ((?&?)&?&Hc). split_and!; try done; intros; apply Hc; set_solver.
Qed.

Lemma bt_get_Some_elem k v m : bt_get k m = Some v -> (k, v) ∈ m.
Proof.
  induction m as [|[k' v'] m IH]; cbn; [done|].
  case_match eqn:Ek; [|intros; right; auto].
  intros [= <-]. apply Z.eqb_eq in Ek. subst. left.
Qed.

Lemma bt_get_elem k v m : bt_sorted m -> bt_get k m = Some v <-> (k, v) ∈ m.
Proof.
  split; [apply bt_get_Some_elem|].
  induction m as [|[k' v'] m IH]; [by intros ?%not_elem_of_nil|].
  apply bt_sorted_cons in H as [Hs Hf]. rewrite Forall_forall in Hf.
  intros [[= <- <-]|Hin]%elem_of_cons; cbn; [by rewrite Z.eqb_refl|].
  specialize (Hf _ Hin). cbn in Hf. rewrite (proj2 (Z.eqb_neq k k')) by lia. auto.
Qed.

Lemma bt_get_None k m : bt_get k m = None <-> (forall e, e ∈ m -> e.1 ≠ k).
Proof.
  induction m as [|[k' v'] m IH]; cbn.
  - split; [intros _ e He; by apply not_elem_of_nil in He|done].
  - destruct (Z.eqb_spec k k') as [->|Hne].
    + split; [done|]. intros H. exfalso. by apply (H (k', v')); [left|].
    + rewrite IH. split; [|intros H e He; apply H; by right].
      intros H e [->|He]%elem_of_cons; [cbn; congruence|auto].
Qed.

Lemma bt_insert_elem k v m e :
  bt_sorted m -> e ∈ bt_insert k v m <-> e = (k, v) \/ (e ∈ m /\ e.1 ≠ k).
Proof.
  induction m as [|[k' v'] m IH]; cbn; intros Hs; [set_solver|].
  apply bt_sorted_cons in Hs as [Hs Hf]. rewrite Forall_forall in Hf. cbn in Hf.
  destruct (Z.ltb_spec k k').
  { rewrite !elem_of_cons. split; [|tauto].
    intros [->|[->|Hin]]; [tauto|right; cbn; split; [tauto|lia]|].
    right. specialize (Hf _ Hin). split; [tauto|lia]. }
  destruct (Z.eqb_spec k k') as [->|].
  { rewrite !elem_of_cons. split; [|intros [->|[[->|?] Hne]]; cbn in *; tauto].
    intros [->|Hin]; [tauto|]. specialize (Hf _ Hin). right. split; [tauto|lia]. }
  rewrite !elem_of_cons, IH by done. split; [|tauto].
  intros [->|[->|[? ?]]]; [right; cbn; split; [tauto|congruence]|tauto|tauto].
Qed.

Lemma bt_insert_sorted k v m : bt_sorted m -> bt_sorted (bt_insert k v m).
Proof.
  induction m as [|[k' v'] m IH]; cbn; intros Hs; [repeat constructor|].
  pose proof Hs as Hs0. apply bt_sorted_cons in Hs as [Hs Hf].
  destruct (Z.ltb_spec k k').
  { apply bt_sorted_cons. split; [done|]. constructor; [done|].
    eapply Forall_impl; [exact Hf|]. cbn. lia. }
  destruct (Z.eqb_spec k k') as [->|]; [by apply bt_sorted_cons|].
  apply bt_sorted_cons. split; [auto|]. apply Forall_forall. intros e.
  rewrite bt_insert_elem by done. rewrite Forall_forall in Hf. cbn in *.
  intros [->|[? _]]; [cbn; lia|auto].
Qed.

Lemma bt_get_insert k v m k' :
  bt_get k' (bt_insert k v m) = if k' =? k then Some v else bt_get k' m.
Proof.
  induction m as [|[k2 v2] m IH]; cbn; [done|].
  destruct (Z.ltb_spec k k2); cbn; [done|].
  destruct (Z.eqb_spec k k2) as [->|]; cbn.
  - by destruct (k' =? k2).
  - rewrite IH. destruct (Z.eqb_spec k' k2), (Z.eqb_spec k' k); congruence || done.
Qed.

Lemma bt_filter_sorted (P : Z * V -> Prop) `{forall x, Decision (P x)} m :
  bt_sorted m -> bt_sorted (filter P m).
Proof.
  induction m as [|e m IH]; [done|]. intros [Hs Hf]%bt_sorted_cons. rewrite filter_cons.
  case_decide; [|auto]. apply bt_sorted_cons. split; [auto|].
  apply Forall_forall. rewrite Forall_forall in Hf.
  intros x [_ Hx]%list_elem_of_filter. auto.
Qed.

Lemma bt_remove_elem k m e : e ∈ bt_remove k m <-> e.1 ≠ k /\ e ∈ m.
Proof. unfold bt_remove. by rewrite list_elem_of_filter. Qed.

(** Two ordered maps with the same entries are the same. *)
Lemma bt_ext m1 m2 : bt_sorted m1 -> bt_sorted m2 -> (forall e, e ∈ m1 <-> e ∈ m2) -> m1 = m2.
Proof.
  revert m2. induction m1 as [|e m1 IH]; intros m2 H1 H2 He.
  { destruct m2 as [|e2 m2]; [done|]. exfalso. apply (not_elem_of_nil e2), He. left. }
  destruct m2 as [|e2 m2]. { exfalso. apply (not_elem_of_nil e), He. left. }
  apply bt_sorted_cons in H1 as [H1 F1]. apply bt_sorted_cons in H2 as [H2 F2].
  rewrite Forall_forall in F1, F2.
  assert (e = e2) as <-.
  { pose proof (proj1 (He e) (list_elem_of_here _ _)) as [|In1]%elem_of_cons; [done|].
    pose proof (proj2 (He e2) (list_elem_of_here _ _)) as [|In2]%elem_of_cons; [done|].
    specialize (F1 _ In2). specialize (F2 _ In1). lia. }
  f_equal. apply IH; [done..|]. intros x.
  pose proof (He x) as Hx. rewrite !elem_of_cons in Hx. split; intros Hin.
  - destruct (proj1 Hx (or_intror Hin)) as [->|]; [|done]. specialize (F1 _ Hin). lia.
  - destruct (proj2 Hx (or_intror Hin)) as [->|]; [|done]. specialize (F2 _ Hin). lia.
Qed.

Lemma bt_insert_last k v m :
  (forall e, e ∈ m -> e.1 < k) -> bt_insert k v m = m ++ [(k, v)].
Proof.
  induction m as [|[k' v'] m IH]; cbn; intros Hlt; [done|].
  pose proof (Hlt (k', v') (list_elem_of_here _ _)) as Hk. cbn in Hk.
  rewrite (proj2 (Z.ltb_ge k k')), (proj2 (Z.eqb_neq k k')) by lia.
  f_equal. apply IH. intros e He. apply Hlt. by right.
Qed.

Lemma bt_remove_last k v m :
  (forall e, e ∈ m -> e.1 < k) -> bt_remove k (m ++ [(k, v)]) = m.
Proof.
  intros Hlt. unfold bt_remove. rewrite filter_app.
  rewrite filter_cons_False by (cbn; intros H; by apply H). rewrite filter_nil, app_nil_r.
  apply filter_all, Forall_forall. intros e He. specialize (Hlt e He). lia.
Qed.

Lemma bt_remove_first k v m :
  bt_sorted ((k, v) :: m) -> bt_remove k ((k, v) :: m) = m.
Proof.
  intros [_ Hf]%bt_sorted_cons. unfold bt_remove.
  rewrite filter_cons_False by (cbn; intros H; by apply H).
  apply filter_all. eapply Forall_impl; [exact Hf|]. cbn. lia.
Qed.
Lemma bt_remove_insert k v m : bt_get k m = None -> bt_remove k (bt_insert k v m) = m.
Proof.
  intros Hn. pose proof (proj1 (bt_get_None k m) Hn) as Hk.
  assert (forall m', (forall e, e ∈ m' -> e.1 ≠ k) -> bt_remove k m' = m') as Hid.
  { intros m' Hm'. apply filter_all, Forall_forall. done. }
  clear Hn. induction m as [|[k' v'] m IH]; cbn [bt_insert].
  { unfold bt_remove. rewrite filter_cons_False by (cbn; tauto). done. }
  pose proof (Hk (k', v') (list_elem_of_here _ _)) as Hne. cbn in Hne.
  destruct (k <? k').
  - unfold bt_remove. rewrite filter_cons_False by (cbn; tauto). exact (Hid _ Hk).
  - rewrite (proj2 (Z.eqb_neq k k')) by congruence. unfold bt_remove.
    rewrite filter_cons_True by done. f_equal. apply IH. intros e He. apply Hk. by right.
Qed.

Definition bt_below (h : Z) m : Prop := Forall (fun e => e.1 < h) m.

Lemma bt_below_fresh h m : bt_below h m -> bt_get h m = None.
Proof. intros Hb. apply bt_get_None. intros e He. unfold bt_below in Hb. rewrite Forall_forall in Hb. specialize (Hb e He). lia. Qed.

Lemma bt_below_insert_last h v m : bt_below h m -> bt_insert h v m = m ++ [(h, v)].
Proof. intros Hb. apply bt_insert_last. unfold bt_below in Hb. by rewrite Forall_forall in Hb. Qed.

Lemma bt_below_weaken h h' m : h <= h' -> bt_below h m -> bt_below h' m.
Proof. intros Hh Hb. eapply Forall_impl; [exact Hb|]. cbn. lia. Qed.

Lemma bt_below_insert h v m : bt_below h m -> bt_below (h + 1) (bt_insert h v m).
Proof.
  intros Hb. rewrite bt_below_insert_last by done. apply Forall_app. split.
  - eapply bt_below_weaken; [|exact Hb]. lia.
  - repeat constructor. cbn. lia.
Qed.
End BTreeMap.

#[export] Hint Resolve bt_insert_sorted bt_filter_sorted : core.
