(* ===== verification/Height.v ===== *)
(** Block heights ([zebra-chain/src/block/height.rs]). A [Height] is a [u32]
    that should not exceed [Height::MAX = 2^31 - 1]; differences of heights are
    [i64]. Heights are plain integers here, with [is_u32] as the range of the
    type and [valid_height] as the documented invariant. *)
From S2P Require Import Prelude Serialization.
From Stdlib Require Import ZArith Lia Ascii String.
From stdpp Require Import prelude strings.
#[local] Open Scope Z_scope.

Inductive HeightError : Type := Overflow | Underflow.

Definition Height_MIN : Z := 0.
Definition Height_MAX : Z := u32_MAX / 2.
Definition MAX_EXPIRY_HEIGHT : Z := 499999999.

Definition valid_height (h : Z) : Prop := Height_MIN <= h <= Height_MAX.

(** [TryFrom<u32> for Height]. *)
Definition height_try_from_u32 (height : Z) : res string Z :=
  if height <=? Height_MAX then Ok height
  else Err "heights must be less than or equal to Height::MAX".

(** [TryIntoHeight] for the integer types: first into [u32], then the bound. *)
Definition try_into_height (x : Z) : res string Z :=
  x ← ok_or (u32_checked x) "out of range integral type conversion attempted";
  height_try_from_u32 x.

Section Arithmetic.
Context `{BuildProfile}.

(** [Sub<Height> for Height]. *)
Definition height_sub (lhs rhs : Z) : outcome Z := arith_i 64 (lhs - rhs).

(** [Sub<HeightDiff> for Height]. *)
Definition height_sub_diff (h diff : Z) : outcome (option Z) :=
  r ← arith_i 64 (h - diff);
  match u32_checked r with
  | None => Ok None
  | Some r => res_ok (height_try_from_u32 r)
  end.

(** [Add<HeightDiff> for Height]. *)
Definition height_add_diff (h diff : Z) : outcome (option Z) :=
  r ← arith_i 64 (h + diff);
  match u32_checked r with
  | None => Ok None
  | Some r => res_ok (height_try_from_u32 r)
  end.

Definition height_next (h : Z) : res HeightError Z :=
  o ← lift (height_add_diff h 1); ok_or o Overflow.

Definition height_previous (h : Z) : res HeightError Z :=
  o ← lift (height_sub_diff h 1); ok_or o Underflow.
End Arithmetic.

Definition height_is_min (h : Z) : bool := h =? Height_MIN.

(** ** Parsing: [u32::from_str] followed by the bound *)

Definition digit_value (c : ascii) : option Z :=
  let n := Z.of_nat (nat_of_ascii c) in
  if (48 <=? n) && (n <=? 57) then Some (n - 48) else None.

Fixpoint parse_digits (acc : Z) (l : list ascii) : option Z :=
  match l with
  | [] => Some acc
  | c :: l' =>
      d ← digit_value c;
      acc ← u32_checked (acc * 10);
      acc ← u32_checked (acc + d);
      parse_digits acc l'
  end.

Definition u32_from_str (s : string) : option Z :=
  match String.list_ascii_of_string s with
  | [] => None
  | [c] => if Ascii.eqb c "+" then None else parse_digits 0 [c]
  | c :: l => if Ascii.eqb c "+" then parse_digits 0 l else parse_digits 0 (c :: l)
  end.

Definition height_from_str (s : string) : res SerializationError Z :=
  match u32_from_str s with
  | Some h => if h <=? Height_MAX then Ok h else Err (Parse "Height exceeds maximum height")
  | None => Err (Parse "Height(u32) integer parse error")
  end.

(** * Lemmas *)

Lemma Height_MAX_value : Height_MAX = 2147483647.
Proof. done. Qed.

Lemma height_bound_check r :
  i64_MIN <= r <= i64_MAX ->
  match u32_checked r with
  | None => Ok None
  | Some r => res_ok (height_try_from_u32 r)
  end = Ok (E := Empty_set) (if in_range Height_MIN Height_MAX r then Some r else None).
Proof.
  intros _. destruct (u32_checked r) as [x|] eqn:Ex.
  - apply checked_Some in Ex as [-> ?]. unfold height_try_from_u32.
    destruct (r <=? Height_MAX) eqn:E; cbn [res_ok].
    + bool_to_prop. by rewrite (proj2 (in_range_spec _ _ _)) by (unfold Height_MIN; lia).
    + bool_to_prop. destruct (in_range _ _ r) eqn:E'; [|done]. apply in_range_spec in E'. lia.
  - apply checked_None in Ex. destruct (in_range _ _ r) eqn:E'; [|done].
    apply in_range_spec in E'. rewrite Height_MAX_value in E'. unfold Height_MIN in E'.
    exfalso. apply Ex. width_lia.
Qed.

Section ArithmeticLemmas.
Context `{BuildProfile}.
Implicit Types h d : Z.

(** Adding a difference is exact: the sum when it is a valid height, [None]
    otherwise; the internal [i64] arithmetic cannot overflow for a [u32]
    height and a difference of two [u32] heights. *)
Lemma height_add_diff_spec h d :
  is_u32 h -> - u32_MAX <= d <= u32_MAX ->
  height_add_diff h d = Ok (if in_range Height_MIN Height_MAX (h + d) then Some (h + d) else None).
Proof.
  intros. unfold height_add_diff.
  rewrite arith_i_in by (simpl; width_lia). apply height_bound_check. width_lia.
Qed.

Lemma height_sub_diff_spec h d :
  is_u32 h -> - u32_MAX <= d <= u32_MAX ->
  height_sub_diff h d = Ok (if in_range Height_MIN Height_MAX (h - d) then Some (h - d) else None).
Proof.
  intros. unfold height_sub_diff.
  rewrite arith_i_in by (simpl; width_lia). apply height_bound_check. width_lia.
Qed.

Lemma height_sub_spec h1 h2 : is_u32 h1 -> is_u32 h2 -> height_sub h1 h2 = Ok (h1 - h2).
Proof. intros. apply arith_i_in. simpl. width_lia. Qed.

Lemma height_next_spec h :
  is_u32 h ->
  height_next h = if h <? Height_MAX then Ok (h + 1) else Err Overflow.
Proof.
  intros Hh. unfold height_next. rewrite height_add_diff_spec by width_lia.
  cbn [lift mbind res_bind]. unfold in_range, Height_MIN.
  rewrite (proj2 (Z.leb_le 0 (h + 1))) by width_lia. simpl.
  destruct (Z.ltb_spec h Height_MAX); destruct (Z.leb_spec (h + 1) Height_MAX);
    done || lia.
Qed.

Lemma height_previous_spec h :
  valid_height h ->
  height_previous h = if 0 <? h then Ok (h - 1) else Err Underflow.
Proof.
  intros Hh. unfold valid_height in Hh. rewrite Height_MAX_value in Hh. unfold Height_MIN in Hh.
  unfold height_previous. rewrite height_sub_diff_spec by width_lia.
  cbn [lift mbind res_bind]. unfold in_range. rewrite Height_MAX_value. unfold Height_MIN.
  rewrite (proj2 (Z.leb_le (h - 1) _)) by lia. rewrite andb_true_r.
  destruct (Z.ltb_spec 0 h); destruct (Z.leb_spec 0 (h - 1)); done || lia.
Qed.
End ArithmeticLemmas.
