(* ===== verification/Amount.v ===== *)
(** Zatoshi amounts ([zebra-chain/src/amount.rs]).

    [Amount<C>] is an [i64] with a phantom constraint [C]. Here the constraint
    is a value of the inductive type [Constraint] and an amount is the integer;
    [amount_in] is the invariant that the private constructor protects. *)
From S2P Require Import Prelude Serialization.
From stdpp Require Import prelude strings pretty.
From Stdlib Require Import ZArith Lia.
#[local] Open Scope Z_scope.

Definition COIN : Z := 100000000.
Definition MAX_MONEY : Z := 21000000 * COIN.

Inductive Constraint : Type := NegativeAllowed | NonNegative | NegativeOrZero.

Definition valid_range (C : Constraint) : Z * Z :=
  match C with
  | NegativeAllowed => (- MAX_MONEY, MAX_MONEY)
  | NonNegative => (0, MAX_MONEY)
  | NegativeOrZero => (- MAX_MONEY, 0)
  end.

Inductive amount_Error : Type :=
| ConstraintError (value : Z) (range : Z * Z)
| Convert (value : Z)
| MultiplicationOverflow (amount multiplier overflowing_result : Z)
| DivideByZero (amount : Z)
| SumOverflow (partial_sum : Z) (remaining_items : Z).

Definition validate (C : Constraint) (value : Z) : res amount_Error Z :=
  let '(lo, hi) := valid_range C in
  if in_range lo hi value then Ok value else Err (ConstraintError value (valid_range C)).

(** [TryFrom<i64>]; [TryFrom<i32>] is the same after a lossless conversion. *)
Definition amount_try_from_i64 (C : Constraint) (value : Z) : res amount_Error Z := validate C value.

(** [TryFrom<u64>] and [TryFrom<i128>]. *)
Definition amount_try_from_u64 (C : Constraint) (value : Z) : res amount_Error Z :=
  v ← ok_or (i64_checked value) (Convert value); validate C v.
Definition amount_try_from_i128 (C : Constraint) (value : Z) : res amount_Error Z :=
  v ← ok_or (i64_checked value) (Convert value); validate C v.

Definition amount_new (zatoshis : Z) : outcome Z :=
  _ ← assert_ ((zatoshis <=? MAX_MONEY) && (0 <=? zatoshis)); Ok zatoshis.

Definition amount_new_from_zec (zec_value : Z) : outcome Z :=
  z ← unwrap (i64_checked (zec_value * COIN)); amount_new z.

(** [checked_div] truncates and is [None] for a zero divisor and for
    [i64::MIN / -1]. *)
Definition amount_div_exact (a rhs : Z) : outcome Z :=
  result ← unwrap (if rhs =? 0 then None else i64_checked (Z.quot a rhs));
  if negb (Z.rem a rhs =? 0) then Panic else Ok result.

Definition amount_constrain (C2 : Constraint) (a : Z) : res amount_Error Z := amount_try_from_i64 C2 a.

Definition amount_checked_sub (a rhs : Z) : option Z :=
  v ← i64_checked (a - rhs);
  match amount_try_from_i64 NegativeAllowed v with Ok r => Some r | _ => None end.

(** The two's complement encoding of an [i64]. *)
Definition amount_to_bytes (a : Z) : bytes := le_bytes 8 (as_unsigned 64 a).
Definition amount_from_bytes (C : Constraint) (b : bytes) : res amount_Error Z :=
  amount_try_from_i64 C (as_signed 64 (le_value b)).

Definition amount_zero (C : Constraint) : outcome Z := expect (amount_try_from_i64 C 0).

Definition amount_add (C : Constraint) (a b : Z) : res amount_Error Z :=
  value ← unwrap (i64_checked (a + b)); amount_try_from_i64 C value.

Definition amount_sub (C : Constraint) (a b : Z) : res amount_Error Z :=
  value ← unwrap (i64_checked (a - b)); amount_try_from_i64 C value.

Definition amount_mul (C : Constraint) (a rhs : Z) : res amount_Error Z :=
  value ← unwrap (checked i128_MIN i128_MAX (a * rhs));
  map_err (fun _ => MultiplicationOverflow a rhs value) (amount_try_from_i128 C value).

(** [i128::checked_div] truncates towards zero. *)
Definition amount_div (C : Constraint) (a rhs : Z) : res amount_Error Z :=
  quotient ← ok_or (if rhs =? 0 then None else Some (Z.quot a rhs)) (DivideByZero a);
  expect (amount_try_from_i128 C quotient).

(** [- self.0] is a plain negation; for an amount it is in range. *)
Definition amount_neg (a : Z) : outcome Z :=
  v ← unwrap (i64_checked (- a)); expect (amount_try_from_i64 NegativeAllowed v).

(** [try_fold] with [Add], and the items it has not consumed. *)
Fixpoint try_sum (C : Constraint) (acc : Z) (l : list Z) : res amount_Error Z * list Z :=
  match l with
  | [] => (Ok acc, [])
  | a :: l' =>
      match amount_add C acc a with
      | Ok s => try_sum C s l'
      | e => (e, l')
      end
  end.

Definition amount_sum (C : Constraint) (l : list Z) : res amount_Error Z :=
  zero ← lift (amount_zero C);
  let '(sum, rest) := try_sum C zero l in
  match sum with
  | Ok s => Ok s
  | Err (ConstraintError value _) => Err (SumOverflow value (Z.of_nat (length rest)))
  | Err _ => Panic
  | Panic => Panic
  end.

(** [pad_integral(zats > 0, "", &zats.to_string())] without width or flags:
    a minus sign when the first argument is false, then the digits given. *)
Definition pad_integral (is_nonnegative : bool) (buf : string) : string :=
  (if is_nonnegative then "" else "-") +:+ buf.
Definition amount_display (a : Z) : string := pad_integral (0 <? a) (pretty a).

(** The wire formats: an [i64] when negative values are allowed, a [u64]
    otherwise. *)
Record NegAmount := mkNegAmount { neg_amount : Z }.
Record NonNegAmount := mkNonNegAmount { non_neg_amount : Z }.

#[export] Instance NegAmount_serialize : ZcashSerialize NegAmount := fun a =>
  Ok (le_bytes 8 (as_unsigned 64 (neg_amount a))).
#[export] Instance NegAmount_deserialize : ZcashDeserialize NegAmount :=
  v ← read_le 8;
  a ← reader_of (map_err (fun _ => AmountError) (amount_try_from_i64 NegativeAllowed (as_signed 64 v)));
  mret (mkNegAmount a).
#[export] Instance NonNegAmount_serialize : ZcashSerialize NonNegAmount := fun a =>
  amount ← unwrap (u64_checked (non_neg_amount a)); Ok (write_u64 amount).
#[export] Instance NonNegAmount_deserialize : ZcashDeserialize NonNegAmount :=
  v ← read_u64;
  a ← reader_of (map_err (fun _ => AmountError) (amount_try_from_u64 NonNegative v));
  mret (mkNonNegAmount a).

(** * Lemmas *)

Definition amount_in (C : Constraint) (a : Z) : Prop := (valid_range C).1 <= a <= (valid_range C).2.
#[export] Instance amount_in_dec C a : Decision (amount_in C a).
Proof. unfold amount_in. apply _. Defined.

Ltac amount_lia :=
  repeat match goal with C : Constraint |- _ => destruct C end;
  unfold amount_in, valid_range, MAX_MONEY, COIN in *; cbn [fst snd] in *; width_lia.

Lemma amount_in_bound C a : amount_in C a -> - MAX_MONEY <= a <= MAX_MONEY.
Proof. intros. amount_lia. Qed.

Lemma amount_in_nonneg a : amount_in NonNegative a -> amount_in NegativeAllowed a.
Proof. intros. amount_lia. Qed.

Lemma amount_try_from_eq C v :
  amount_try_from_i64 C v =
    if decide (amount_in C v) then Ok v else Err (ConstraintError v (valid_range C)).
Proof.
  unfold amount_try_from_i64, validate. destruct (valid_range C) as [lo hi] eqn:E.
  destruct (in_range lo hi v) eqn:Hr; case_decide as Hd; try done; exfalso.
  - apply in_range_spec in Hr. apply Hd. unfold amount_in. by rewrite E.
  - unfold amount_in in Hd. rewrite E in Hd. apply in_range_spec in Hd. cbn in Hd. congruence.
Qed.

Lemma amount_try_from_in C v : amount_in C v -> amount_try_from_i64 C v = Ok v.
Proof. intros. rewrite amount_try_from_eq. by rewrite decide_True. Qed.

Lemma amount_try_from_Ok C v a : amount_try_from_i64 C v = Ok a <-> a = v /\ amount_in C v.
Proof.
  rewrite amount_try_from_eq. case_decide as Hd; split.
  - by intros [= ->].
  - by intros [-> _].
  - done.
  - intros [_ ?]. by destruct Hd.
Qed.

Lemma amount_add_eq C a b :
  amount_in C a -> amount_in C b -> amount_add C a b = amount_try_from_i64 C (a + b).
Proof.
  intros Ha%amount_in_bound Hb%amount_in_bound. unfold amount_add.
  by rewrite checked_in by amount_lia.
Qed.

Lemma amount_sub_eq C a b :
  amount_in C a -> amount_in C b -> amount_sub C a b = amount_try_from_i64 C (a - b).
Proof.
  intros Ha%amount_in_bound Hb%amount_in_bound. unfold amount_sub.
  by rewrite checked_in by amount_lia.
Qed.

Lemma amount_neg_eq C a : amount_in C a -> amount_neg a = Ok (- a).
Proof.
  intros Ha%amount_in_bound. unfold amount_neg. rewrite checked_in by amount_lia. cbn [unwrap mbind res_bind].
  rewrite amount_try_from_in; [done |]. amount_lia.
Qed.

Lemma amount_neg_in C a : amount_in C a -> amount_in NegativeAllowed (- a).
Proof. intros Ha%amount_in_bound. amount_lia. Qed.

Lemma amount_zero_eq C : amount_zero C = Ok 0.
Proof. by destruct C. Qed.

#[export] Hint Resolve amount_in_nonneg amount_neg_in amount_try_from_in : zebra.

(** ** Sums *)

Definition prefix_sum (k : nat) (l : list Z) : Z := sum_Z id (take k l).

(** Either every prefix sum is in range, or the fold stops right after the
    first one that is not. *)
Lemma try_sum_spec C acc l :
  amount_in C acc -> Forall (amount_in C) l ->
  (try_sum C acc l = (Ok (acc + sum_Z id l), [])
   /\ forall k, amount_in C (acc + prefix_sum k l))
  \/ (exists k, (k < length l)%nat
       /\ (forall j, (j <= k)%nat -> amount_in C (acc + prefix_sum j l))
       /\ ~ amount_in C (acc + prefix_sum (S k) l)
       /\ try_sum C acc l =
            (Err (ConstraintError (acc + prefix_sum (S k) l) (valid_range C)), drop (S k) l)).
Proof.
  intros Hacc Hl. revert acc Hacc. induction Hl as [|a l Ha Hl IH]; intros acc Hacc.
  - left. cbn [try_sum sum_Z]. rewrite Z.add_0_r. split; [done |].
    intros k. unfold prefix_sum. rewrite take_nil. cbn [sum_Z]. by rewrite Z.add_0_r.
  - cbn [try_sum]. rewrite amount_add_eq by done. rewrite amount_try_from_eq.
    assert (Hpre : forall j, acc + prefix_sum (S j) (a :: l) = acc + a + prefix_sum j l).
    { intros j. unfold prefix_sum. cbn [take sum_Z]. unfold id at 1. lia. }
    assert (H0 : acc + prefix_sum 0 (a :: l) = acc) by (unfold prefix_sum; cbn [take sum_Z]; lia).
    case_decide as Hd.
    + destruct (IH (acc + a) Hd) as [[-> Hall]|(k & Hk & Hin & Hout & ->)].
      * left. cbn [sum_Z]. unfold id at 1. rewrite Z.add_assoc. split; [done |].
        intros [|k]; [by rewrite H0 | by rewrite Hpre].
      * right. exists (S k). rewrite !Hpre. cbn [length drop]. split; [lia |]. split; [|done].
        intros [|j] Hj; [by rewrite H0 |]. rewrite Hpre. apply Hin. lia.
    + right. exists 0%nat. rewrite Hpre. unfold prefix_sum at 2 3. cbn [take sum_Z length drop].
      rewrite Z.add_0_r. split; [lia |]. split; [|done].
      intros j ->%Nat.le_0_r. by rewrite H0.
Qed.

(** ** Wire formats *)

(** Sums of non-negative amounts: only the total matters. *)
Lemma amount_sum_nonneg l :
  Forall (amount_in NonNegative) l ->
  amount_sum NonNegative l <> Panic /\
  (forall s, amount_sum NonNegative l = Ok s <-> s = sum_Z id l /\ sum_Z id l <= MAX_MONEY).
Proof.
  intros Hl. assert (H0 : amount_in NonNegative 0) by amount_lia.
  assert (Hn : Forall (fun a => 0 <= id a) l) by (eapply Forall_impl; [exact Hl|]; cbn; intros; amount_lia).
  unfold amount_sum. rewrite amount_zero_eq. cbn [lift mbind res_bind].
  destruct (try_sum_spec NonNegative 0 l H0 Hl) as [[-> Hk]|(k & Hlt & Hin & Hout & ->)].
  - split; [done|]. intros s. specialize (Hk (length l)). unfold prefix_sum in Hk.
    rewrite take_ge in Hk by done. split.
    + intros Hs. inv_res. split; [lia|]. amount_lia.
    + intros [-> _]. done.
  - split; [done|]. intros s. split; [done|]. intros [_ Hs]. exfalso. apply Hout.
    assert (sum_Z id l = prefix_sum (S k) l + sum_Z id (drop (S k) l)) as He
      by (unfold prefix_sum; by rewrite <- sum_Z_app, take_drop).
    assert (0 <= sum_Z id (drop (S k) l)) by (apply sum_Z_nonneg; by apply Forall_drop).
    assert (0 <= prefix_sum (S k) l) by (apply sum_Z_nonneg; by apply Forall_take). amount_lia.
Qed.

Definition wf_NegAmount (a : NegAmount) : Prop := amount_in NegativeAllowed (neg_amount a).
Definition wf_NonNegAmount (a : NonNegAmount) : Prop := amount_in NonNegative (non_neg_amount a).

Lemma as_signed_unsigned x : is_i64 x -> as_signed 64 (as_unsigned 64 x) = x.
Proof.
  intros Hx. unfold as_signed, as_unsigned. rewrite Z.mod_mod by done.
  destruct (Z_lt_le_dec x 0) as [Hn|Hn].
  - rewrite <- (Z.mod_unique x (2 ^ 64) (-1) (x + 2 ^ 64)) by width_lia.
    rewrite (proj2 (Z.ltb_ge _ _)) by width_lia. lia.
  - rewrite Z.mod_small by width_lia. by rewrite (proj2 (Z.ltb_lt _ _)) by width_lia.
Qed.

Lemma as_unsigned_signed x : 0 <= x < 2 ^ 64 -> as_unsigned 64 (as_signed 64 x) = x.
Proof.
  intros Hx. unfold as_signed, as_unsigned. rewrite (Z.mod_small x) by done.
  destruct (x <? 2 ^ (64 - 1)); [by apply Z.mod_small |].
  symmetry. apply (Z.mod_unique _ _ (-1)); lia.
Qed.

Lemma amount_bytes_roundtrip C a : amount_in C a -> amount_from_bytes C (amount_to_bytes a) = Ok a.
Proof.
  intros Ha. unfold amount_from_bytes, amount_to_bytes.
  rewrite le_value_bytes by (apply Z.mod_pos_bound; done).
  rewrite as_signed_unsigned by (apply amount_in_bound in Ha; amount_lia). by apply amount_try_from_in.
Qed.

Lemma amount_bytes_canonical C b a :
  length b = 8%nat -> amount_from_bytes C b = Ok a -> amount_in C a /\ amount_to_bytes a = b.
Proof.
  intros Hb. unfold amount_from_bytes, amount_to_bytes. rewrite amount_try_from_Ok.
  intros [-> Hin]. split; [done |].
  pose proof (le_value_bound b) as Hv. rewrite Hb in Hv.
  rewrite as_unsigned_signed by exact Hv. by apply le_bytes_value.
Qed.

#[export] Instance NegAmount_codec : Codec NegAmount wf_NegAmount.
Proof.
  split.
  - intros a _. by eexists.
  - intros [a] bs rest Hw [= <-]. unfold zcash_deserialize, NegAmount_deserialize.
    erewrite reader_bind_Ok by (apply read_le_app; apply Z.mod_pos_bound; done).
    unfold wf_NegAmount in Hw. cbn [neg_amount] in *.
    rewrite as_signed_unsigned by amount_lia.
    erewrite reader_bind_Ok; [done |]. by rewrite amount_try_from_in.
Qed.

#[export] Instance NegAmount_is_canonical : Canonical NegAmount wf_NegAmount.
Proof.
  intros s [a] rest H. unfold zcash_deserialize, NegAmount_deserialize in H.
  apply reader_bind_inv in H as (v & s' & Hv & H). apply read_le_inv in Hv as [-> Hv].
  apply reader_bind_inv in H as (a' & s'' & Ha & H). apply reader_of_inv in Ha as [Ha ->].
  rewrite amount_try_from_eq in Ha. case_decide as Hd; [|done]. cbn in Ha. inv_res.
  cbv [mret reader_ret] in H. apply Ok_inj in H. injection H as <- <-.
  split; [done |]. eexists. split; [done |]. cbn [neg_amount].
  by rewrite as_unsigned_signed.
Qed.

#[export] Instance NonNegAmount_codec : Codec NonNegAmount wf_NonNegAmount.
Proof.
  split.
  - intros [a] Hw. unfold zcash_serialize, NonNegAmount_serialize. cbn [non_neg_amount].
    unfold wf_NonNegAmount in Hw. cbn in Hw. rewrite checked_in by amount_lia. by eexists.
  - intros [a] bs rest Hw. unfold zcash_serialize, NonNegAmount_serialize. cbn [non_neg_amount].
    unfold wf_NonNegAmount in Hw. cbn in Hw. rewrite checked_in by amount_lia. cbn [unwrap mbind res_bind].
    intros Hbs. inv_res. unfold zcash_deserialize, NonNegAmount_deserialize.
    erewrite reader_bind_Ok by (apply read_le_app; amount_lia).
    erewrite reader_bind_Ok; [done |]. unfold amount_try_from_u64.
    rewrite checked_in by amount_lia. cbn [ok_or mbind res_bind].
    by rewrite (amount_try_from_in NonNegative a Hw : validate _ _ = _).
Qed.

#[export] Instance NonNegAmount_is_canonical : Canonical NonNegAmount wf_NonNegAmount.
Proof.
  intros s [a] rest H. unfold zcash_deserialize, NonNegAmount_deserialize in H.
  apply reader_bind_inv in H as (v & s' & Hv & H). apply read_le_inv in Hv as [-> Hv].
  apply reader_bind_inv in H as (a' & s'' & Ha & H). apply reader_of_inv in Ha as [Ha ->].
  unfold amount_try_from_u64 in Ha. destruct (i64_checked v) as [w|] eqn:Ew; [|done].
  apply checked_Some in Ew as [-> _]. cbn [ok_or mbind res_bind] in Ha.
  change (validate NonNegative v) with (amount_try_from_i64 NonNegative v) in Ha.
  rewrite amount_try_from_eq in Ha. case_decide as Hd; [|done]. cbn in Ha. inv_res.
  cbv [mret reader_ret] in H. apply Ok_inj in H. injection H as <- <-.
  split; [done |]. unfold zcash_serialize, NonNegAmount_serialize. cbn [non_neg_amount].
  rewrite checked_in by amount_lia. by eexists.
Qed.

(** * Claims *)

(** Arithmetic on amounts is exact and total: on operands that satisfy
    their constraint no operation panics; addition, subtraction and
    multiplication return the exact result when it satisfies the constraint
    and an error that carries the exact result when it does not; division
    truncates towards zero and fails only for a zero divisor; negation always
    succeeds. *)
Theorem amount_arithmetic (C : Constraint) (a b n : Z) :
  amount_in C a -> amount_in C b -> is_u64 n ->
  amount_add C a b = (if decide (amount_in C (a + b)) then Ok (a + b)
                      else Err (ConstraintError (a + b) (valid_range C)))
  /\ amount_sub C a b = (if decide (amount_in C (a - b)) then Ok (a - b)
                         else Err (ConstraintError (a - b) (valid_range C)))
  /\ amount_mul C a n = (if decide (amount_in C (a * n)) then Ok (a * n)
                         else Err (MultiplicationOverflow a n (a * n)))
  /\ amount_div C a n = (if decide (n = 0) then Err (DivideByZero a) else Ok (Z.quot a n))
  /\ amount_neg a = Ok (- a).
Proof.
  intros Ha Hb Hn. rewrite amount_add_eq, amount_sub_eq, !amount_try_from_eq by done.
  split; [done |]. split; [done |]. pose proof (amount_in_bound C a Ha) as Hba.
  split; [|split; [|by apply (amount_neg_eq C)]].
  - assert (Hm : - (MAX_MONEY * u64_MAX) <= a * n <= MAX_MONEY * u64_MAX)
      by (destruct Hn; generalize dependent MAX_MONEY; generalize dependent u64_MAX; nia).
    unfold amount_mul. rewrite checked_in by amount_lia.
    cbn [unwrap mbind res_bind]. unfold amount_try_from_i128.
    destruct (i64_checked (a * n)) as [v|] eqn:Ev.
    + apply checked_Some in Ev as [-> _]. cbn [ok_or mbind res_bind].
      change (validate C (a * n)) with (amount_try_from_i64 C (a * n)).
      rewrite amount_try_from_eq. by case_decide.
    + rewrite decide_False; [done |]. intros Hin%amount_in_bound.
      apply checked_None in Ev. apply Ev. amount_lia.
  - unfold amount_div. case_decide as Hz; [by subst |].
    rewrite (proj2 (Z.eqb_neq _ _)) by done. cbn [ok_or mbind res_bind]. unfold amount_try_from_i128.
    assert (Hq : amount_in C (Z.quot a n)).
    { assert (Habs : Z.abs (Z.quot a n) <= Z.abs a).
      { rewrite <- Z.quot_abs by done. apply Z.quot_le_upper_bound; [lia |]. assert (1 <= Z.abs n) by lia. nia. }
      pose proof (Z.quot_pos a n). pose proof (Z.quot_opp_l a n Hz). pose proof (Z.quot_pos (- a) n).
      amount_lia. }
    rewrite checked_in by (apply amount_in_bound in Hq; amount_lia). cbn [ok_or mbind res_bind].
    by rewrite (amount_try_from_in C _ Hq : validate _ _ = _).
Qed.

(** Summing amounts succeeds exactly when every prefix of the list has a
    sum that satisfies the constraint, and then returns the sum; otherwise it
    reports the first offending partial sum and how many items were left. The
    [unreachable!] arm is never taken. *)
Theorem amount_sum_prefixes (C : Constraint) (l : list Z) :
  Forall (amount_in C) l ->
  (amount_sum C l = Ok (sum_Z id l) /\ forall k, amount_in C (prefix_sum k l))
  \/ (exists k, (k < length l)%nat
       /\ (forall j, (j <= k)%nat -> amount_in C (prefix_sum j l))
       /\ ~ amount_in C (prefix_sum (S k) l)
       /\ amount_sum C l =
            Err (SumOverflow (prefix_sum (S k) l) (Z.of_nat (length l) - Z.of_nat (S k)))).
Proof.
  intros Hl. unfold amount_sum. rewrite amount_zero_eq. cbn [lift mbind res_bind].
  assert (H0 : amount_in C 0) by amount_lia.
  destruct (try_sum_spec C 0 l H0 Hl) as [[-> Hall]|(k & Hk & Hin & Hout & ->)].
  - left. split; [done |]. intros k. exact (Hall k).
  - right. exists k. split; [done |]. split; [exact Hin |]. split; [exact Hout |].
    rewrite length_drop. do 2 f_equal. lia.
Qed.

(** Zero and negative amounts are displayed wrongly: the sign argument of
    [pad_integral] is computed as [zats > 0] and the digits already carry a
    sign, so zero is shown with a minus sign and negative amounts with two. *)
Theorem amount_display_sign (a : Z) :
  amount_display a = (if decide (0 < a) then pretty a else "-" +:+ pretty a)
  /\ amount_display 0 = "-0" /\ amount_display (-5) = "--5".
Proof.
  split; [|split; reflexivity]. unfold amount_display, pad_integral.
  case_decide as H; [by rewrite (proj2 (Z.ltb_lt _ _) H) | by rewrite (proj2 (Z.ltb_ge _ _)) by lia].
Qed.

Lemma amount_arithmetic_witness :
  amount_add NonNegative MAX_MONEY 1 = Err (ConstraintError (MAX_MONEY + 1) (0, MAX_MONEY))
  /\ amount_div NonNegative MAX_MONEY 2 = Ok (MAX_MONEY / 2).
Proof.
  destruct (amount_arithmetic NonNegative MAX_MONEY 1 2) as (Ha & _ & _ & Hd & _);
    [amount_lia | amount_lia | width_lia |].
  split; [exact Ha | exact Hd].
Defined.

Lemma amount_sum_prefixes_witness :
  amount_sum NegativeAllowed [MAX_MONEY; 1; -1] = Err (SumOverflow (MAX_MONEY + 1) 1).
Proof.
  destruct (amount_sum_prefixes NegativeAllowed [MAX_MONEY; 1; -1]) as [[_ H]|(k & Hk & Hin & Hout & ->)].
  - repeat constructor; amount_lia.
  - exfalso. specialize (H 2%nat). vm_compute in H. destruct H as [_ H]. by apply H.
  - destruct k as [|[|[|k]]]; [| |exfalso; specialize (Hin 2%nat ltac:(lia)); vm_compute in Hin; destruct Hin as [_ H]; by apply H | simpl in Hk; lia].
    + exfalso. apply Hout. vm_compute. split; done.
    + reflexivity.
Defined.
