(* ===== verification/ValueBalance.v ===== *)
(** Value balances of the five chain value pools
    ([zebra-chain/src/value_balance.rs]). *)
From S2P Require Import Prelude Serialization Amount.
From stdpp Require Import prelude strings.
From Stdlib Require Import ZArith Lia.
#[local] Open Scope Z_scope.

Record ValueBalance := mkValueBalance {
  transparent : Z;
  sprout : Z;
  sapling : Z;
  orchard : Z;
  deferred : Z
}.

#[export] Instance ValueBalance_eq_dec : EqDecision ValueBalance.
Proof. solve_decision. Defined.

Inductive ValueBalanceError : Type :=
| Transparent (e : amount_Error)
| Sprout (e : amount_Error)
| Sapling (e : amount_Error)
| Orchard (e : amount_Error)
| Deferred (e : amount_Error)
| Unparsable.

Definition value_balance_zero : ValueBalance := mkValueBalance 0 0 0 0 0.

Definition from_transparent_amount (a : Z) : ValueBalance := mkValueBalance a 0 0 0 0.
Definition from_sprout_amount (a : Z) : ValueBalance := mkValueBalance 0 a 0 0 0.
Definition from_sapling_amount (a : Z) : ValueBalance := mkValueBalance 0 0 a 0 0.
Definition from_orchard_amount (a : Z) : ValueBalance := mkValueBalance 0 0 0 a 0.

Definition set_transparent_value_balance (v t : ValueBalance) : ValueBalance :=
  mkValueBalance (transparent t) (sprout v) (sapling v) (orchard v) (deferred v).
Definition set_sprout_value_balance (v t : ValueBalance) : ValueBalance :=
  mkValueBalance (transparent v) (sprout t) (sapling v) (orchard v) (deferred v).
Definition set_sapling_value_balance (v t : ValueBalance) : ValueBalance :=
  mkValueBalance (transparent v) (sprout v) (sapling t) (orchard v) (deferred v).
Definition set_orchard_value_balance (v t : ValueBalance) : ValueBalance :=
  mkValueBalance (transparent v) (sprout v) (sapling v) (orchard t) (deferred v).
Definition set_deferred_amount (v : ValueBalance) (a : Z) : ValueBalance :=
  mkValueBalance (transparent v) (sprout v) (sapling v) (orchard v) a.

Definition value_balance_constrain (C2 : Constraint) (v : ValueBalance)
    : res ValueBalanceError ValueBalance :=
  t ← map_err Transparent (amount_constrain C2 (transparent v));
  s ← map_err Sprout (amount_constrain C2 (sprout v));
  p ← map_err Sapling (amount_constrain C2 (sapling v));
  o ← map_err Orchard (amount_constrain C2 (orchard v));
  d ← map_err Deferred (amount_constrain C2 (deferred v));
  Ok (mkValueBalance t s p o d).

Definition value_balance_add (C : Constraint) (v w : ValueBalance) : res ValueBalanceError ValueBalance :=
  t ← map_err Transparent (amount_add C (transparent v) (transparent w));
  s ← map_err Sprout (amount_add C (sprout v) (sprout w));
  p ← map_err Sapling (amount_add C (sapling v) (sapling w));
  o ← map_err Orchard (amount_add C (orchard v) (orchard w));
  d ← map_err Deferred (amount_add C (deferred v) (deferred w));
  Ok (mkValueBalance t s p o d).

Definition value_balance_sub (C : Constraint) (v w : ValueBalance) : res ValueBalanceError ValueBalance :=
  t ← map_err Transparent (amount_sub C (transparent v) (transparent w));
  s ← map_err Sprout (amount_sub C (sprout v) (sprout w));
  p ← map_err Sapling (amount_sub C (sapling v) (sapling w));
  o ← map_err Orchard (amount_sub C (orchard v) (orchard w));
  d ← map_err Deferred (amount_sub C (deferred v) (deferred w));
  Ok (mkValueBalance t s p o d).

Definition value_balance_neg (v : ValueBalance) : outcome ValueBalance :=
  t ← amount_neg (transparent v);
  s ← amount_neg (sprout v);
  p ← amount_neg (sapling v);
  o ← amount_neg (orchard v);
  d ← amount_neg (deferred v);
  Ok (mkValueBalance t s p o d).

(** [iter.try_fold(ValueBalance::zero(), |acc, v| acc + v)]. *)
Definition value_balance_sum (C : Constraint) (l : list ValueBalance) : res ValueBalanceError ValueBalance :=
  foldM (value_balance_add C) value_balance_zero l.

(** The deferred pool is not part of a transaction's value pool. *)
Definition remaining_transaction_value (v : ValueBalance) : res amount_Error Z :=
  a ← amount_add NegativeAllowed (transparent v) (sprout v);
  b ← amount_add NegativeAllowed a (sapling v);
  c ← amount_add NegativeAllowed b (orchard v);
  amount_constrain NonNegative c.

Definition add_chain_value_pool_change (v change : ValueBalance) : res ValueBalanceError ValueBalance :=
  p ← expect (value_balance_constrain NegativeAllowed v);
  p ← value_balance_add NegativeAllowed p change;
  value_balance_constrain NonNegative p.

Definition value_balance_to_bytes (v : ValueBalance) : bytes :=
  amount_to_bytes (transparent v) ++ amount_to_bytes (sprout v) ++ amount_to_bytes (sapling v)
  ++ amount_to_bytes (orchard v) ++ amount_to_bytes (deferred v).

(** [bytes[a..a + 8]] of an input whose length was checked. *)
Definition word_at (b : bytes) (a : nat) : bytes := take 8 (drop a b).

Definition value_balance_from_bytes (b : bytes) : res ValueBalanceError ValueBalance :=
  if negb (bool_decide (length b = 32%nat) || bool_decide (length b = 40%nat)) then Err Unparsable
  else
    t ← map_err Transparent (amount_from_bytes NonNegative (word_at b 0));
    s ← map_err Sprout (amount_from_bytes NonNegative (word_at b 8));
    p ← map_err Sapling (amount_from_bytes NonNegative (word_at b 16));
    o ← map_err Orchard (amount_from_bytes NonNegative (word_at b 24));
    d ← (if bool_decide (length b = 32%nat) then Ok 0
         else map_err Deferred (amount_from_bytes NonNegative (word_at b 32)));
    Ok (mkValueBalance t s p o d).

(** * Lemmas *)

(** A property of all five pools, and pool-wise operations. *)
Definition pools_all (P : Z -> Prop) (v : ValueBalance) : Prop :=
  P (transparent v) /\ P (sprout v) /\ P (sapling v) /\ P (orchard v) /\ P (deferred v).
Definition pools_op (f : Z -> Z -> Z) (v w : ValueBalance) : ValueBalance :=
  mkValueBalance (f (transparent v) (transparent w)) (f (sprout v) (sprout w))
    (f (sapling v) (sapling w)) (f (orchard v) (orchard w)) (f (deferred v) (deferred w)).
Definition pools_map (f : Z -> Z) (v : ValueBalance) : ValueBalance :=
  mkValueBalance (f (transparent v)) (f (sprout v)) (f (sapling v)) (f (orchard v)) (f (deferred v)).

Abbreviation pools_in C := (pools_all (amount_in C)).

Lemma pools_all_impl (P Q : Z -> Prop) v : (forall a, P a -> Q a) -> pools_all P v -> pools_all Q v.
Proof. intros H (? & ? & ? & ? & ?). unfold pools_all. eauto 10. Qed.

(** Five checks in sequence succeed when each does. *)
Ltac pool_checks :=
  rewrite ?bind_Ok_inv; repeat setoid_rewrite bind_Ok_inv; repeat setoid_rewrite map_err_Ok.

Lemma value_balance_constrain_Ok C v w :
  value_balance_constrain C v = Ok w <-> w = v /\ pools_in C v.
Proof.
  unfold value_balance_constrain, amount_constrain, pools_all. pool_checks.
  setoid_rewrite amount_try_from_Ok. destruct v; cbn. split.
  - intros (? & [-> ?] & ? & [-> ?] & ? & [-> ?] & ? & [-> ?] & ? & [-> ?] & [= <-]). done.
  - intros (-> & ? & ? & ? & ? & ?). naive_solver.
Qed.

Lemma value_balance_add_Ok C v w u :
  pools_in C v -> pools_in C w ->
  value_balance_add C v w = Ok u <-> u = pools_op Z.add v w /\ pools_in C (pools_op Z.add v w).
Proof.
  intros (? & ? & ? & ? & ?) (? & ? & ? & ? & ?). unfold value_balance_add.
  rewrite !amount_add_eq by done. unfold pools_all, pools_op. pool_checks.
  setoid_rewrite amount_try_from_Ok. cbn. split.
  - intros (? & [-> ?] & ? & [-> ?] & ? & [-> ?] & ? & [-> ?] & ? & [-> ?] & [= <-]). done.
  - intros (-> & ? & ? & ? & ? & ?). naive_solver.
Qed.

Lemma value_balance_add_cases C v w :
  pools_in C v -> pools_in C w ->
  (pools_in C (pools_op Z.add v w) /\ value_balance_add C v w = Ok (pools_op Z.add v w))
  \/ (~ pools_in C (pools_op Z.add v w) /\ exists e, value_balance_add C v w = Err e).
Proof.
  intros Hv Hw. destruct (value_balance_add C v w) as [u|e|] eqn:E.
  - apply value_balance_add_Ok in E as [-> ?]; auto.
  - right. split; [|eauto]. intros Hin.
    pose proof (proj2 (value_balance_add_Ok C v w _ Hv Hw) (conj eq_refl Hin)). congruence.
  - exfalso. destruct Hv as (? & ? & ? & ? & ?), Hw as (? & ? & ? & ? & ?).
    unfold value_balance_add in E. rewrite !amount_add_eq, !amount_try_from_eq in E by done.
    repeat (case_decide; cbn [map_err mbind res_bind] in E; try done).
Qed.

Lemma value_balance_neg_eq C v : pools_in C v -> value_balance_neg v = Ok (pools_map Z.opp v).
Proof.
  intros (? & ? & ? & ? & ?). unfold value_balance_neg. by rewrite !(amount_neg_eq C) by done.
Qed.

Lemma pools_neg_in C v : pools_in C v -> pools_in NegativeAllowed (pools_map Z.opp v).
Proof. intros (? & ? & ? & ? & ?). unfold pools_all. cbn. eauto 10 with zebra. Qed.

Lemma pools_op_assoc_neg v w : pools_op Z.add (pools_op Z.add v w) (pools_map Z.opp w) = v.
Proof. destruct v, w. unfold pools_op, pools_map. cbn. f_equal; lia. Qed.

Lemma add_chain_value_pool_change_Ok v change u :
  pools_in NonNegative v -> pools_in NegativeAllowed change ->
  add_chain_value_pool_change v change = Ok u <->
    u = pools_op Z.add v change /\ pools_in NonNegative (pools_op Z.add v change).
Proof.
  intros Hv Hc. unfold add_chain_value_pool_change.
  assert (Hn : pools_in NegativeAllowed v) by (eapply pools_all_impl; [|exact Hv]; eauto with zebra).
  assert (Hc1 : value_balance_constrain NegativeAllowed v = Ok v) by (by apply value_balance_constrain_Ok).
  rewrite Hc1. cbn [expect]. rewrite !bind_Ok_inv.
  setoid_rewrite bind_Ok_inv. setoid_rewrite value_balance_constrain_Ok. split.
  - intros (p & [= <-] & q & Hq & -> & Hp). apply value_balance_add_Ok in Hq as [-> _]; [done..|]. done.
  - intros [-> Hp]. exists v. split; [done |]. eexists. split; [|done].
    apply value_balance_add_Ok; [done..|]. split; [done |].
    eapply pools_all_impl; [|exact Hp]. eauto with zebra.
Qed.

Lemma add_chain_value_pool_change_no_panic v change :
  pools_in NonNegative v -> pools_in NegativeAllowed change ->
  add_chain_value_pool_change v change <> Panic.
Proof.
  intros Hv Hc. unfold add_chain_value_pool_change.
  assert (Hn : pools_in NegativeAllowed v) by (eapply pools_all_impl; [|exact Hv]; eauto with zebra).
  assert (Hc1 : value_balance_constrain NegativeAllowed v = Ok v) by (by apply value_balance_constrain_Ok).
  rewrite Hc1. cbn [expect mbind res_bind].
  destruct Hn as (? & ? & ? & ? & ?), Hc as (? & ? & ? & ? & ?). unfold value_balance_add.
  rewrite !amount_add_eq by done. rewrite !amount_try_from_eq.
  repeat (case_decide; cbn [map_err mbind res_bind]; try done).
  unfold value_balance_constrain, amount_constrain.
  cbn [transparent sprout sapling orchard deferred]. rewrite !amount_try_from_eq.
  repeat (case_decide; cbn [map_err mbind res_bind]; try done).
Qed.

Lemma length_amount_to_bytes a : length (amount_to_bytes a) = 8%nat.
Proof. apply length_le_bytes. Qed.

(** Cutting the concatenation of 8-byte words at multiples of 8. *)
Lemma word_at_skip w b k : length w = 8%nat -> word_at (w ++ b) (8 + k) = word_at b k.
Proof. intros Hw. unfold word_at. by rewrite <- Hw, drop_app_add. Qed.

Lemma word_at_here w b : length w = 8%nat -> word_at (w ++ b) 0 = w.
Proof. intros Hw. unfold word_at. rewrite drop_0, <- Hw. by rewrite take_app_length. Qed.

Lemma word_at_last w : length w = 8%nat -> word_at w 0 = w.
Proof. intros Hw. unfold word_at. rewrite drop_0. by rewrite take_ge by lia. Qed.

Lemma words_at w0 w1 w2 w3 w4 :
  Forall (fun w => length w = 8%nat) [w0; w1; w2; w3; w4] ->
  let b := w0 ++ w1 ++ w2 ++ w3 ++ w4 in
  word_at b 0 = w0 /\ word_at b 8 = w1 /\ word_at b 16 = w2 /\ word_at b 24 = w3 /\ word_at b 32 = w4.
Proof.
  rewrite !Forall_cons. intros (H0 & H1 & H2 & H3 & H4 & _). cbv zeta.
  pose proof (fun k r => word_at_skip w0 r k H0) as S0. pose proof (fun k r => word_at_skip w1 r k H1) as S1.
  pose proof (fun k r => word_at_skip w2 r k H2) as S2. pose proof (fun k r => word_at_skip w3 r k H3) as S3.
  split; [by apply word_at_here |].
  split; [rewrite (S0 0%nat); by apply word_at_here |].
  split; [rewrite (S0 8%nat), (S1 0%nat); by apply word_at_here |].
  split; [rewrite (S0 16%nat), (S1 8%nat), (S2 0%nat); by apply word_at_here |].
  rewrite (S0 24%nat), (S1 16%nat), (S2 8%nat), (S3 0%nat). by apply word_at_last.
Qed.

(** The five words of a 40-byte string. *)
Lemma words_of (b : bytes) :
  length b = 40%nat ->
  b = word_at b 0 ++ word_at b 8 ++ word_at b 16 ++ word_at b 24 ++ word_at b 32
  /\ Forall (fun k => length (word_at b k) = 8%nat) [0; 8; 16; 24; 32]%nat.
Proof.
  intros Hb. unfold word_at. split.
  - assert (Hcut : forall k, drop k b = take 8 (drop k b) ++ drop (k + 8) b)
      by (intros k; by rewrite <- drop_drop, take_drop).
    pose proof (Hcut 0%nat) as H0. pose proof (Hcut 8%nat) as H8. pose proof (Hcut 16%nat) as H16.
    pose proof (Hcut 24%nat) as H24. cbn [Nat.add] in H0, H8, H16, H24.
    rewrite (take_ge (drop 32 b)) by (rewrite length_drop; lia).
    by rewrite <- H24, <- H16, <- H8, <- H0.
  - repeat constructor; rewrite length_take, length_drop; lia.
Qed.

(** * Claims *)

(** Adding a block's pool change to the chain value pools is exactly the
    consensus rule that no pool becomes negative: on valid balances it never
    panics, it succeeds if and only if every resulting pool is between zero and
    [MAX_MONEY], it then returns the pool-wise sum, and adding the negated
    change to the result gives back the balances before. *)
Theorem add_chain_value_pool_change_exact (v change : ValueBalance) :
  pools_in NonNegative v -> pools_in NegativeAllowed change ->
  add_chain_value_pool_change v change <> Panic
  /\ (forall u, add_chain_value_pool_change v change = Ok u <->
        u = pools_op Z.add v change /\ pools_in NonNegative u)
  /\ (forall u, add_chain_value_pool_change v change = Ok u ->
        exists n, value_balance_neg change = Ok n /\ add_chain_value_pool_change u n = Ok v).
Proof.
  intros Hv Hc. split; [by apply add_chain_value_pool_change_no_panic |]. split.
  - intros u. rewrite add_chain_value_pool_change_Ok by done. split; [by intros [-> ?] | by intros [-> ?]].
  - intros u Hu. apply add_chain_value_pool_change_Ok in Hu as [-> Hp]; [|done..].
    exists (pools_map Z.opp change). split; [by eapply value_balance_neg_eq |].
    apply add_chain_value_pool_change_Ok; [done | by eapply pools_neg_in |].
    by rewrite pools_op_assoc_neg.
Qed.

(** The database encoding of value balances: valid balances survive it,
    whatever is decoded from 40 bytes is valid and re-encodes to the same
    bytes, and the older 32-byte form decodes as if its deferred pool was
    zero. *)
Theorem value_balance_bytes (v : ValueBalance) :
  (pools_in NonNegative v -> value_balance_from_bytes (value_balance_to_bytes v) = Ok v)
  /\ (forall b, length b = 40%nat -> value_balance_from_bytes b = Ok v ->
        pools_in NonNegative v /\ value_balance_to_bytes v = b)
  /\ (forall b, length b = 32%nat ->
        value_balance_from_bytes b = value_balance_from_bytes (b ++ amount_to_bytes 0)).
Proof.
  unfold value_balance_from_bytes. split; [|split].
  - intros (? & ? & ? & ? & ?). unfold value_balance_to_bytes.
    rewrite !length_app, !length_amount_to_bytes. cbn [Nat.add].
    rewrite (bool_decide_true (40 = 40)%nat), (bool_decide_false (40 = 32)%nat) by lia. cbn [orb negb].
    destruct (words_at (amount_to_bytes (transparent v)) (amount_to_bytes (sprout v))
      (amount_to_bytes (sapling v)) (amount_to_bytes (orchard v)) (amount_to_bytes (deferred v)))
      as (-> & -> & -> & -> & ->); [repeat constructor; apply length_amount_to_bytes |].
    rewrite !amount_bytes_roundtrip by done. by destruct v.
  - intros b Hb. destruct (words_of b Hb) as [Hw Hl]. rewrite Hb.
    rewrite (bool_decide_true (40 = 40)%nat), (bool_decide_false (40 = 32)%nat) by lia. cbn [orb negb].
    rewrite !Forall_cons in Hl. destruct Hl as (? & ? & ? & ? & ? & _). pool_checks.
    intros (t & ? & s & ? & p & ? & o & ? & d & ? & [= <-]).
    repeat match goal with Hx : amount_from_bytes _ _ = Ok _ |- _ =>
      apply amount_bytes_canonical in Hx as [? ?]; [|done] end.
    split; [done |]. unfold value_balance_to_bytes. cbn [transparent sprout sapling orchard deferred].
    rewrite Hw. congruence.
  - intros b Hb. rewrite length_app, Hb, length_amount_to_bytes. cbn [Nat.add].
    rewrite (bool_decide_true (40 = 40)%nat), (bool_decide_true (32 = 32)%nat) by lia.
    rewrite (bool_decide_false (40 = 32)%nat) by lia. cbn [orb negb].
    assert (Hpre : forall k, (k + 8 <= 32)%nat -> word_at (b ++ amount_to_bytes 0) k = word_at b k).
    { intros k Hk. unfold word_at. rewrite drop_app_le, take_app_le by (rewrite ?length_drop; lia). done. }
    rewrite (Hpre 0%nat), (Hpre 8%nat), (Hpre 16%nat), (Hpre 24%nat) by lia.
    assert (Hd : word_at (b ++ amount_to_bytes 0) 32 = amount_to_bytes 0).
    { unfold word_at. rewrite <- Hb, drop_app_length. by rewrite take_ge by (by rewrite length_amount_to_bytes). }
    rewrite Hd, amount_bytes_roundtrip by amount_lia. done.
Qed.

(** The remaining value of a transaction, when it is returned, is the sum of
    its four pools, is not negative and at most [MAX_MONEY]; a negative sum is
    never accepted, and the deferred pool has no influence. *)
Theorem remaining_transaction_value_spec (v : ValueBalance) :
  pools_in NegativeAllowed v ->
  remaining_transaction_value v <> Panic
  /\ (forall r, remaining_transaction_value v = Ok r ->
        r = transparent v + sprout v + sapling v + orchard v /\ 0 <= r <= MAX_MONEY)
  /\ (forall d, remaining_transaction_value (set_deferred_amount v d) = remaining_transaction_value v).
Proof.
  intros (Ht & Hs & Hp & Ho & _). unfold remaining_transaction_value, amount_constrain.
  split; [|split; [|done]].
  - rewrite amount_add_eq, amount_try_from_eq by done. case_decide; [|done]. cbn [mbind res_bind].
    rewrite amount_add_eq, amount_try_from_eq by done. case_decide; [|done]. cbn [mbind res_bind].
    rewrite amount_add_eq, amount_try_from_eq by done. case_decide; [|done]. cbn [mbind res_bind].
    rewrite amount_try_from_eq. by case_decide.
  - intros r. rewrite !bind_Ok_inv. intros (a & Ha & Hr).
    rewrite amount_add_eq in Ha by done. apply amount_try_from_Ok in Ha as [-> Ha].
    apply bind_Ok_inv in Hr as (b & Hb & Hr).
    rewrite amount_add_eq in Hb by done. apply amount_try_from_Ok in Hb as [-> Hb].
    apply bind_Ok_inv in Hr as (c & Hc & Hr).
    rewrite amount_add_eq in Hc by done. apply amount_try_from_Ok in Hc as [-> Hc].
    apply amount_try_from_Ok in Hr as [-> Hr]. split; [done |]. exact Hr.
Qed.

Definition example_pools : ValueBalance := mkValueBalance 5 4 3 2 1.

Lemma example_pools_valid C : C <> NegativeOrZero -> pools_in C example_pools.
Proof. intros. destruct C; [| |done]; repeat split; cbn; unfold MAX_MONEY, COIN; lia. Qed.

Lemma add_chain_value_pool_change_exact_witness :
  add_chain_value_pool_change example_pools example_pools = Ok (mkValueBalance 10 8 6 4 2)
  /\ exists n, value_balance_neg example_pools = Ok n
       /\ add_chain_value_pool_change (mkValueBalance 10 8 6 4 2) n = Ok example_pools.
Proof.
  destruct (add_chain_value_pool_change_exact example_pools example_pools) as (_ & Hs & Hr);
    [by apply example_pools_valid.. |].
  assert (Hu : add_chain_value_pool_change example_pools example_pools = Ok (mkValueBalance 10 8 6 4 2)).
  { apply Hs. split; [reflexivity |]. repeat split; cbn; unfold MAX_MONEY, COIN; lia. }
  split; [exact Hu | exact (Hr _ Hu)].
Defined.

Lemma remaining_transaction_value_witness :
  remaining_transaction_value example_pools = Ok 14 /\ 0 <= 14 <= MAX_MONEY.
Proof.
  destruct (remaining_transaction_value_spec example_pools) as (_ & Hs & _);
    [by apply example_pools_valid |].
  assert (Hr : remaining_transaction_value example_pools = Ok 14) by reflexivity.
  split; [exact Hr | apply (Hs 14 Hr)].
Defined.
