(* ===== verification/Difficulty.v ===== *)
(** Difficulty thresholds and work ([zebra-chain/src/work/difficulty.rs]).

    A [CompactDifficulty] is its [u32], an [ExpandedDifficulty] its 256-bit
    integer, a [Work] and a [PartialCumulativeWork] their [u128]. The third-party
    [U256] type panics on overflow in every build. *)
From S2P Require Import Prelude.
From stdpp Require Import prelude strings.
From Stdlib Require Import ZArith Lia.
#[local] Open Scope Z_scope.

Definition BASE : Z := 256.
Definition OFFSET : Z := 3.
Definition PRECISION : Z := 24.
Definition SIGN_BIT : Z := Z.shiftl 1 (PRECISION - 1).
Definition UNSIGNED_MANTISSA_MASK : Z := SIGN_BIT - 1.
Definition INVALID_COMPACT_DIFFICULTY : Z := u32_MAX.

Definition U256_MAX : Z := 2 ^ 256 - 1.
(** The operators of [U256]. *)
Definition u256 {E} (x : Z) : res E Z := unwrap (checked 0 U256_MAX x).
(** [U256::bits]: the number of bits needed to represent the value. *)
Definition u256_bits (x : Z) : Z := if x =? 0 then 0 else Z.log2 x + 1.

Definition to_expanded (compact : Z) : outcome (option Z) :=
  if Z.land compact SIGN_BIT =? SIGN_BIT then Ok None
  else
    let m := Z.land compact UNSIGNED_MANTISSA_MASK in
    let e := Z.shiftr compact PRECISION - OFFSET in
    let normal :=
      if 32 <=? e then None
      else if (e =? 31) && (u8_MAX <? m) then None
      else if (e =? 31) && (m <=? u8_MAX) then Some (Z.shiftl m 16, e - 2)
      else if (e =? 30) && (u16_MAX <? m) then None
      else if (e =? 30) && (m <=? u16_MAX) then Some (Z.shiftl m 8, e - 1)
      else if e <? 0 then Some (Z.shiftr m (Z.abs e * 8), 0)
      else Some (m, e) in
    match normal with
    | None => Ok None
    | Some (mantissa, exponent) =>
        pow ← u256 (BASE ^ exponent);
        result ← u256 (mantissa * pow);
        if result =? 0 then Ok None else Ok (Some result)
    end.

(** [Work::try_from(ExpandedDifficulty)]; [!x] is the bitwise complement in
    256 bits. *)
Definition work_try_from (expanded : Z) : outcome (option Z) :=
  d ← u256 (expanded + 1);
  result ← u256 ((U256_MAX - expanded) / d + 1);
  if result <=? u128_MAX then Ok (Some result) else Ok None.

Definition to_work (compact : Z) : outcome (option Z) :=
  expanded ← to_expanded compact;
  match expanded with
  | None => Ok None
  | Some t => work_try_from t
  end.

(** The size, a [usize], is at least 1; the shifts keep 256 bits. *)
Definition to_compact (x : Z) : outcome Z :=
  _ ← assert_ (0 <? x);
  let size := u256_bits x / 8 + 1 in
  mantissa ← (if x <=? UNSIGNED_MANTISSA_MASK
              then s ← unwrap (u64_checked (3 - size)); Ok (as_unsigned 256 (Z.shiftl x (8 * s)))
              else s ← unwrap (u64_checked (size - 3)); Ok (Z.shiftr x (8 * s)));
  _ ← assert_ (size <? 31 + OFFSET);
  size ← unwrap (u32_checked size);
  _ ← assert_ (mantissa <=? UNSIGNED_MANTISSA_MASK);
  mantissa ← unwrap (u32_checked mantissa);
  if 0 <? mantissa then unwrap (u32_checked (mantissa + Z.shiftl size 24)) else Panic.

Definition from_bytes_in_display_order (b : bytes) : res string Z :=
  let difficulty := be_value b in
  e ← lift (to_expanded difficulty);
  match e with
  | None => Err "invalid difficulty value"
  | Some _ => Ok difficulty
  end.
Definition compact_bytes_in_display_order (c : Z) : bytes := be_bytes 4 c.

(** [ExpandedDifficulty::from_hash] and the comparison of a hash with a
    threshold. *)
Definition from_hash (hash : bytes) : Z := le_value hash.
Definition hash_cmp (hash : bytes) (threshold : Z) : comparison := CompOpp (Z.compare threshold (from_hash hash)).

(** [Sum], [Div] and [Mul] of expanded difficulties. *)
Definition expanded_sum (l : list Z) : outcome Z := foldM (fun acc d => u256 (acc + d)) 0 l.
Definition expanded_div (x n : Z) : outcome Z := if n =? 0 then Panic else Ok (x / n).
Definition expanded_mul (x n : Z) : outcome Z := u256 (x * n).

(** The proof-of-work limits of Mainnet, and of test networks by their
    configured value. *)
Inductive PowLimit : Type := MainnetLimit | TestnetLimit (limit : Z).
Definition target_difficulty_limit (l : PowLimit) : outcome Z :=
  match l with
  | TestnetLimit limit => Ok limit
  | MainnetLimit =>
      c ← to_compact (Z.shiftl 1 243 - 1);
      e ← to_expanded c;
      unwrap e
  end.

(** [PartialCumulativeWork]. *)
Definition cumulative_work_add (w rhs : Z) : outcome Z := unwrap (checked 0 u128_MAX (w + rhs)).
Definition cumulative_work_sub (w rhs : Z) : outcome Z := unwrap (checked 0 u128_MAX (w - rhs)).

(** * The specification

    [ToTarget] of the Zcash protocol, section 7.7.4: a floating point number of
    radix 256 with a 23-bit mantissa; fractions are rounded down. *)
Definition spec_mantissa (x : Z) : Z := x mod 2 ^ 23.
Definition spec_exponent (x : Z) : Z := x / 2 ^ 24 - 3.
Definition spec_negative (x : Z) : bool := Z.testbit x 23.
Definition spec_target (x : Z) : Z :=
  if 0 <=? spec_exponent x then spec_mantissa x * 256 ^ spec_exponent x
  else spec_mantissa x / 256 ^ (- spec_exponent x).

(** * Lemmas *)

#[global] Arguments to_expanded : simpl never.
#[global] Arguments to_compact : simpl never.

Lemma sign_bit_test x : (Z.land x SIGN_BIT =? SIGN_BIT) = Z.testbit x 23.
Proof.
  change SIGN_BIT with (2 ^ 23). destruct (Z.testbit x 23) eqn:E.
  - apply Z.eqb_eq, Z.bits_inj'. intros n Hn. rewrite Z.land_spec, Z.pow2_bits_eqb by done.
    destruct (Z.eqb_spec 23 n) as [<-|]; [by rewrite E | by rewrite andb_false_r].
  - apply Z.eqb_neq. intros H. apply (f_equal (fun y => Z.testbit y 23)) in H.
    rewrite Z.land_spec, E, Z.pow2_bits_true in H by done. done.
Qed.

Lemma mantissa_mask x : Z.land x UNSIGNED_MANTISSA_MASK = spec_mantissa x.
Proof. change UNSIGNED_MANTISSA_MASK with (Z.ones 23). by rewrite Z.land_ones. Qed.

Lemma exponent_shift x : Z.shiftr x PRECISION - OFFSET = spec_exponent x.
Proof. unfold PRECISION, OFFSET. by rewrite Z.shiftr_div_pow2. Qed.

Lemma spec_mantissa_bound x : 0 <= spec_mantissa x < 2 ^ 23.
Proof. by apply Z.mod_pos_bound. Qed.

Lemma u256_in {E} x : 0 <= x < 2 ^ 256 -> u256 (E := E) x = Ok x.
Proof. intros. unfold u256. rewrite checked_in by (unfold U256_MAX; lia). done. Qed.

Lemma pow256 e : 0 <= e -> 256 ^ e = 2 ^ (8 * e).
Proof. intros. change 256 with (2 ^ 8). rewrite <- Z.pow_mul_r by lia. done. Qed.

(** What [to_expanded] should return: nothing for negative, zero and
    overflowing targets. *)
Definition spec_expanded (x : Z) : option Z :=
  if spec_negative x || (spec_target x =? 0) || (2 ^ 256 <=? spec_target x) then None
  else Some (spec_target x).

(** The last step of [to_expanded]: scale a normalised mantissa. *)
Definition scale (mantissa exponent : Z) : outcome (option Z) :=
  pow ← u256 (BASE ^ exponent);
  result ← u256 (mantissa * pow);
  if result =? 0 then Ok None else Ok (Some result).

Lemma scale_eq m e :
  0 <= e <= 29 -> 0 <= m < 2 ^ 24 ->
  scale m e = Ok (if m * 256 ^ e =? 0 then None else Some (m * 256 ^ e)).
Proof.
  intros He Hm. unfold scale, BASE. rewrite pow256 by lia.
  assert (Hp : 0 < 2 ^ (8 * e) <= 2 ^ 232).
  { split; [apply Z.pow_pos_nonneg; lia |]. apply Z.pow_le_mono_r; lia. }
  assert (Hl : m * 2 ^ (8 * e) < 2 ^ 24 * 2 ^ 232) by nia.
  change (2 ^ 24 * 2 ^ 232) with (2 ^ 256) in Hl.
  rewrite u256_in by (split; [lia |]; apply Z.le_lt_trans with (2 ^ 232); [lia | done]).
  cbn [mbind res_bind]. rewrite u256_in by nia. cbn [mbind res_bind]. by case_match.
Qed.

Lemma scaled_overflow m e : 0 <= m -> 32 <= e -> m * 256 ^ e = 0 \/ 2 ^ 256 <= m * 256 ^ e.
Proof.
  intros Hm He. destruct (Z.eq_dec m 0) as [->|]; [by left |]. right. rewrite pow256 by lia.
  assert (2 ^ 256 <= 2 ^ (8 * e)) by (apply Z.pow_le_mono_r; lia). nia.
Qed.

Lemma spec_expanded_none x :
  spec_target x = 0 \/ 2 ^ 256 <= spec_target x -> spec_expanded x = None.
Proof.
  unfold spec_expanded. intros [H|H].
  - by rewrite H, orb_true_r.
  - by rewrite (proj2 (Z.leb_le _ _) H), !orb_true_r.
Qed.

Lemma spec_expanded_scale x m e :
  spec_negative x = false -> spec_target x = m * 256 ^ e -> 0 <= e <= 29 -> 0 <= m < 2 ^ 24 ->
  scale m e = Ok (spec_expanded x).
Proof.
  intros Hn Ht He Hm. rewrite scale_eq by done. unfold spec_expanded. rewrite Hn, Ht. cbn [orb].
  rewrite pow256 by lia.
  assert (Hp : 0 < 2 ^ (8 * e) <= 2 ^ 232).
  { split; [apply Z.pow_pos_nonneg; lia |]. apply Z.pow_le_mono_r; lia. }
  assert (Hl : m * 2 ^ (8 * e) < 2 ^ 24 * 2 ^ 232) by nia.
  change (2 ^ 24 * 2 ^ 232) with (2 ^ 256) in Hl.
  rewrite (proj2 (Z.leb_gt _ _)) by done. by rewrite orb_false_r.
Qed.

(** [to_expanded] computes the specified target and never panics. *)
Lemma to_expanded_spec x : is_u32 x -> to_expanded x = Ok (spec_expanded x).
Proof.
  intros Hx. unfold to_expanded. rewrite sign_bit_test, mantissa_mask, exponent_shift.
  destruct (Z.testbit x 23) eqn:Hs.
  { unfold spec_expanded, spec_negative. by rewrite Hs. }
  pose proof (spec_mantissa_bound x) as Hm.
  assert (He : -3 <= spec_exponent x <= 252)
    by (unfold spec_exponent; pose proof (Z.div_le_mono x (2 ^ 32 - 1) (2 ^ 24));
        pose proof (Z.div_pos x (2 ^ 24)); change ((2 ^ 32 - 1) / 2 ^ 24) with 255 in *; width_lia).
  fold (scale (spec_mantissa x) (spec_exponent x)).
  assert (Ht : 0 <= spec_exponent x -> spec_target x = spec_mantissa x * 256 ^ spec_exponent x)
    by (intros; unfold spec_target; by rewrite (proj2 (Z.leb_le _ _))).
  set (m := spec_mantissa x) in *. set (e := spec_exponent x) in *.
  destruct (Z.leb_spec 32 e).
  { rewrite spec_expanded_none; [done |]. rewrite Ht by lia. apply scaled_overflow; lia. }
  destruct (Z.eqb_spec e 31) as [E31|]; cbn [andb].
  { destruct (Z.ltb_spec u8_MAX m).
    - rewrite spec_expanded_none; [done |]. right. rewrite Ht, E31 by lia. unfold u8_MAX in *.
      change (2 ^ 256) with (256 * 256 ^ 31). nia.
    - rewrite (proj2 (Z.leb_le _ _)) by done.
      apply (spec_expanded_scale x (Z.shiftl m 16) (e - 2)); [done | | lia |];
        rewrite Z.shiftl_mul_pow2 by done.
      + rewrite Ht, E31 by lia. change (256 ^ 31) with (2 ^ 16 * 256 ^ (31 - 2)). lia.
      + unfold u8_MAX in *. lia. }
  destruct (Z.eqb_spec e 30) as [E30|]; cbn [andb].
  { destruct (Z.ltb_spec u16_MAX m).
    - rewrite spec_expanded_none; [done |]. right. rewrite Ht, E30 by lia. unfold u16_MAX in *.
      change (2 ^ 256) with (2 ^ 16 * 256 ^ 30). nia.
    - rewrite (proj2 (Z.leb_le _ _)) by done.
      apply (spec_expanded_scale x (Z.shiftl m 8) (e - 1)); [done | | lia |];
        rewrite Z.shiftl_mul_pow2 by done.
      + rewrite Ht, E30 by lia. change (256 ^ 30) with (2 ^ 8 * 256 ^ (30 - 1)). lia.
      + unfold u16_MAX in *. lia. }
  destruct (Z.ltb_spec e 0).
  - apply (spec_expanded_scale x (Z.shiftr m (Z.abs e * 8)) 0); [done | | lia |];
      rewrite Z.shiftr_div_pow2 by lia.
    + unfold spec_target. fold e m. rewrite (proj2 (Z.leb_gt _ _)) by lia.
      rewrite Z.mul_1_r, pow256 by lia. f_equal. f_equal. lia.
    + split; [apply Z.div_pos; [lia | apply Z.pow_pos_nonneg; lia] |].
      apply Z.le_lt_trans with m; [|lia]. apply Z.div_le_upper_bound; [apply Z.pow_pos_nonneg; lia |].
      pose proof (Z.pow_pos_nonneg 2 (Z.abs e * 8)). nia.
  - apply (spec_expanded_scale x m e); [done | by apply Ht | lia | lia].
Qed.

(** ** Encoding *)

Definition compact_size (x : Z) : Z := u256_bits x / 8 + 1.
(** The mantissa of the encoding: the number scaled to three bytes. *)
Definition compact_mantissa (x : Z) : Z :=
  let s := compact_size x in
  if s <=? 3 then x * 256 ^ (3 - s) else x / 256 ^ (s - 3).

Lemma compact_size_bounds x :
  0 < x < 2 ^ 256 ->
  1 <= compact_size x <= 33
  /\ 2 ^ (8 * compact_size x - 9) <= x < 2 ^ (8 * compact_size x - 1).
Proof.
  intros Hx. unfold compact_size, u256_bits. rewrite (proj2 (Z.eqb_neq _ _)) by lia.
  assert (Hl : 0 <= Z.log2 x <= 255).
  { split; [apply Z.log2_nonneg |]. change 255 with (Z.log2 (2 ^ 256 - 1)).
    apply Z.log2_le_mono. lia. }
  set (l := Z.log2 x) in *. pose proof (Z.log2_spec x ltac:(lia)) as Hs. fold l in Hs.
  set (q := (l + 1) / 8). assert (Hq : 8 * q <= l + 1 < 8 * q + 8).
  { pose proof (Z.mul_div_le (l + 1) 8 eq_refl). pose proof (Z.mul_succ_div_gt (l + 1) 8 eq_refl). lia. }
  split; [lia |]. split.
  - apply Z.le_trans with (2 ^ l); [|lia].
    destruct (Z_lt_le_dec (8 * (q + 1) - 9) 0); [rewrite Z.pow_neg_r by lia; apply Z.pow_nonneg; lia |].
    apply Z.pow_le_mono_r; lia.
  - apply Z.lt_le_trans with (2 ^ Z.succ l); [lia |]. apply Z.pow_le_mono_r; lia.
Qed.

Lemma small_iff x : 0 < x < 2 ^ 256 -> (x <=? UNSIGNED_MANTISSA_MASK) = (compact_size x <=? 3).
Proof.
  intros Hx. destruct (compact_size_bounds x Hx) as [Hs Hb].
  change UNSIGNED_MANTISSA_MASK with (2 ^ 23 - 1). apply eq_true_iff_eq. rewrite !Z.leb_le. split.
  - intros. assert (2 ^ (8 * compact_size x - 9) < 2 ^ 23) as Hlt by lia.
    apply Z.pow_lt_mono_r_iff in Hlt; lia.
  - intros. assert (2 ^ (8 * compact_size x - 1) <= 2 ^ 23) by (apply Z.pow_le_mono_r; lia). lia.
Qed.

Lemma compact_mantissa_bounds x :
  0 < x < 2 ^ 256 -> 2 ^ 15 <= compact_mantissa x < 2 ^ 23.
Proof.
  intros Hx. destruct (compact_size_bounds x Hx) as [Hs Hb]. unfold compact_mantissa. cbv zeta.
  set (s := compact_size x) in *. destruct (Z.leb_spec s 3).
  - rewrite pow256 by lia. assert (s = 1 \/ s = 2 \/ s = 3) as [E|[E|E]] by lia; rewrite E in *; cbn in *; lia.
  - rewrite pow256 by lia. split.
    + apply Z.div_le_lower_bound; [apply Z.pow_pos_nonneg; lia |].
      rewrite <- Z.pow_add_r by lia. replace (8 * (s - 3) + 15) with (8 * s - 9) by lia. lia.
    + apply Z.div_lt_upper_bound; [apply Z.pow_pos_nonneg; lia |].
      rewrite <- Z.pow_add_r by lia. replace (8 * (s - 3) + 23) with (8 * s - 1) by lia. lia.
Qed.

Lemma to_compact_spec x :
  0 < x < 2 ^ 256 -> to_compact x = Ok (compact_mantissa x + compact_size x * 2 ^ 24).
Proof.
  intros Hx. destruct (compact_size_bounds x Hx) as [Hs Hb].
  pose proof (compact_mantissa_bounds x Hx) as Hm. unfold to_compact.
  rewrite (proj2 (Z.ltb_lt 0 x)) by lia. fold (compact_size x).
  cbn [assert_ mbind res_bind]. rewrite small_iff by done.
  assert (Hman : (if compact_size x <=? 3
     then s ← unwrap (u64_checked (3 - compact_size x)); Ok (as_unsigned 256 (Z.shiftl x (8 * s)))
     else s ← unwrap (u64_checked (compact_size x - 3)); Ok (Z.shiftr x (8 * s)))
     = Ok (E := Empty_set) (compact_mantissa x)).
  { unfold compact_mantissa in *. cbv zeta in *. set (s := compact_size x) in *.
    destruct (Z.leb_spec s 3).
    - rewrite checked_in by width_lia. cbn [unwrap mbind res_bind].
      rewrite pow256 in * by lia. rewrite Z.shiftl_mul_pow2 by lia. unfold as_unsigned.
      rewrite Z.mod_small; [done |]. split; [lia |]. apply Z.lt_trans with (2 ^ 23); [lia | done].
    - rewrite checked_in by width_lia. cbn [unwrap mbind res_bind].
      by rewrite Z.shiftr_div_pow2, pow256 by lia. }
  rewrite Hman. cbn [mbind res_bind]. rewrite (proj2 (Z.ltb_lt (compact_size x) _)) by (unfold OFFSET; lia).
  cbn [assert_ mbind res_bind]. rewrite (checked_in 0 u32_MAX (compact_size x)) by width_lia.
  cbn [unwrap mbind res_bind]. change UNSIGNED_MANTISSA_MASK with (2 ^ 23 - 1).
  rewrite (proj2 (Z.leb_le _ _)) by lia. cbn [assert_ mbind res_bind].
  rewrite (checked_in 0 u32_MAX (compact_mantissa x)) by width_lia. cbn [unwrap mbind res_bind].
  rewrite (proj2 (Z.ltb_lt _ _)) by lia. rewrite Z.shiftl_mul_pow2 by done.
  by rewrite checked_in by width_lia.
Qed.

(** The fields of an encoded value. *)
Lemma spec_fields m s :
  0 <= m < 2 ^ 23 ->
  spec_mantissa (m + s * 2 ^ 24) = m /\ spec_exponent (m + s * 2 ^ 24) = s - 3
  /\ spec_negative (m + s * 2 ^ 24) = false.
Proof.
  intros Hm. unfold spec_mantissa, spec_exponent, spec_negative. split; [|split].
  - replace (s * 2 ^ 24) with (s * 2 * 2 ^ 23) by lia. rewrite Z.mod_add by done.
    by apply Z.mod_small.
  - rewrite Z.div_add by done. rewrite Z.div_small by lia. lia.
  - rewrite Z.testbit_false by done. replace (s * 2 ^ 24) with (s * 2 * 2 ^ 23) by lia.
    rewrite Z.div_add, (Z.div_small m) by lia. rewrite Z.add_0_l. by apply Z.mod_mul.
Qed.

(** The value an encoding stands for: the number with all but its three most
    significant bytes cleared. *)
Definition truncated (x : Z) : Z :=
  let s := compact_size x in
  if s <=? 3 then x else x / 256 ^ (s - 3) * 256 ^ (s - 3).

Lemma truncated_bounds x :
  0 < x < 2 ^ 256 ->
  2 ^ (8 * compact_size x - 9) <= truncated x <= x /\ 0 < truncated x
  /\ (x - truncated x) * 2 ^ 15 < x.
Proof.
  intros Hx. destruct (compact_size_bounds x Hx) as [Hs Hb]. unfold truncated. cbv zeta.
  set (s := compact_size x) in *. destruct (Z.leb_spec s 3); [lia |].
  rewrite pow256 by lia. set (u := 2 ^ (8 * (s - 3))).
  assert (Hu : 0 < u) by (apply Z.pow_pos_nonneg; lia).
  assert (H15 : 2 ^ (8 * s - 9) = u * 2 ^ 15).
  { unfold u. rewrite <- Z.pow_add_r by lia. f_equal. lia. }
  rewrite H15 in *. pose proof (Z.mul_div_le x u Hu). pose proof (Z.mul_succ_div_gt x u Hu).
  assert (2 ^ 15 <= x / u) by (apply Z.div_le_lower_bound; lia). nia.
Qed.

Lemma spec_target_compact x :
  0 < x < 2 ^ 256 -> spec_target (compact_mantissa x + compact_size x * 2 ^ 24) = truncated x.
Proof.
  intros Hx. destruct (compact_size_bounds x Hx) as [Hs _].
  pose proof (compact_mantissa_bounds x Hx) as Hm.
  destruct (spec_fields (compact_mantissa x) (compact_size x)) as (E1 & E2 & _); [lia |].
  unfold spec_target. rewrite E1, E2. unfold compact_mantissa, truncated. cbv zeta.
  set (s := compact_size x) in *. destruct (Z.leb_spec s 3); destruct (Z.leb_spec 0 (s - 3)); try lia.
  - replace (s - 3) with 0 by lia. replace (3 - s) with 0 by lia. cbn. lia.
  - replace (- (s - 3)) with (3 - s) by lia. apply Z.div_mul.
    pose proof (Z.pow_pos_nonneg 256 (3 - s)). lia.
Qed.

Lemma expanded_of_compact x :
  0 < x < 2 ^ 256 ->
  to_expanded (compact_mantissa x + compact_size x * 2 ^ 24) = Ok (Some (truncated x)).
Proof.
  intros Hx. destruct (compact_size_bounds x Hx) as [Hs _].
  pose proof (compact_mantissa_bounds x Hx) as Hm. pose proof (truncated_bounds x Hx) as (Ht & Ht0 & _).
  rewrite to_expanded_spec by width_lia. unfold spec_expanded.
  destruct (spec_fields (compact_mantissa x) (compact_size x)) as (_ & _ & ->); [lia |].
  rewrite spec_target_compact by done. cbn [orb].
  rewrite (proj2 (Z.eqb_neq _ _)), (proj2 (Z.leb_gt _ _)) by lia. done.
Qed.

(** Clearing low bytes does not change the size, so encoding is stable. *)
Lemma compact_size_truncated x : 0 < x < 2 ^ 256 -> compact_size (truncated x) = compact_size x.
Proof.
  intros Hx. destruct (compact_size_bounds x Hx) as [Hs Hb].
  destruct (truncated_bounds x Hx) as (Ht & Ht0 & _).
  destruct (compact_size_bounds (truncated x) ltac:(lia)) as [Hs' Hb'].
  assert (H1 : 2 ^ (8 * compact_size x - 9) < 2 ^ (8 * compact_size (truncated x) - 1)) by lia.
  assert (H2 : 2 ^ (8 * compact_size (truncated x) - 9) < 2 ^ (8 * compact_size x - 1)) by lia.
  apply Z.pow_lt_mono_r_iff in H1; [|lia..]. apply Z.pow_lt_mono_r_iff in H2; [|lia..]. lia.
Qed.

Lemma compact_mantissa_truncated x :
  0 < x < 2 ^ 256 -> compact_mantissa (truncated x) = compact_mantissa x.
Proof.
  intros Hx. unfold compact_mantissa. rewrite compact_size_truncated by done.
  destruct (compact_size_bounds x Hx) as [Hs _]. unfold truncated. cbv zeta.
  set (s := compact_size x) in *. destruct (Z.leb_spec s 3); [done |].
  apply Z.div_mul. pose proof (Z.pow_pos_nonneg 256 (s - 3)). lia.
Qed.

Lemma work_try_from_spec t :
  0 < t < 2 ^ 256 - 1 ->
  work_try_from t = Ok (if 2 ^ 256 / (t + 1) <=? u128_MAX then Some (2 ^ 256 / (t + 1)) else None).
Proof.
  intros Ht. unfold work_try_from. rewrite u256_in by lia. cbn [mbind res_bind].
  assert (Hd : (U256_MAX - t) / (t + 1) + 1 = 2 ^ 256 / (t + 1)).
  { replace (U256_MAX - t) with (2 ^ 256 + (-1) * (t + 1)) by (unfold U256_MAX; lia).
    rewrite Z.div_add by lia. lia. }
  assert (Hq : 0 <= (U256_MAX - t) / (t + 1) <= U256_MAX - t).
  { unfold U256_MAX. split; [apply Z.div_pos; lia |].
    rewrite <- (Z.div_1_r (2 ^ 256 - 1 - t)) at 2. apply Z.div_le_compat_l; lia. }
  rewrite u256_in by (unfold U256_MAX in *; lia). cbn [mbind res_bind]. rewrite Hd. by case_match.
Qed.

(** Targets are small or multiples of 256, so none is [2^256 - 1]. *)
Lemma spec_target_range x : 0 <= spec_target x /\ spec_target x <> 2 ^ 256 - 1.
Proof.
  pose proof (spec_mantissa_bound x) as Hm. unfold spec_target.
  destruct (Z.leb_spec 0 (spec_exponent x)) as [He|He].
  - pose proof (Z.pow_pos_nonneg 256 (spec_exponent x) eq_refl He). split; [nia |].
    destruct (Z.eq_dec (spec_exponent x) 0) as [->|]; [lia |].
    replace (spec_exponent x) with (Z.succ (spec_exponent x - 1)) by lia.
    rewrite Z.pow_succ_r by lia. lia.
  - pose proof (Z.pow_pos_nonneg 256 (- spec_exponent x)) as Hp.
    assert (Hd : 0 <= spec_mantissa x / 256 ^ (- spec_exponent x) <= spec_mantissa x).
    { split; [apply Z.div_pos; lia |]. rewrite <- (Z.div_1_r (spec_mantissa x)) at 2.
      apply Z.div_le_compat_l; lia. }
    lia.
Qed.

(** * Claims *)

(** C36. [to_expanded] is exactly the [ToTarget] function of the protocol
    specification: for every 32-bit encoding it returns the specified target
    when that is positive and fits in 256 bits, and nothing for negative, zero
    and overflowing encodings; it never panics. *)
Theorem to_expanded_is_to_target (compact : Z) :
  is_u32 compact -> to_expanded compact = Ok (spec_expanded compact).
Proof. apply to_expanded_spec. Qed.

(** Encoding a positive 256-bit threshold never panics; decoding it again
    gives a threshold that is at most the original and differs by less than one
    part in 2^15; and encoding that once more gives the same encoding, so
    thresholds that went through the compact form are stable. *)
Theorem compact_roundtrip (x : Z) :
  0 < x < 2 ^ 256 ->
  exists compact t, to_compact x = Ok compact
    /\ is_u32 compact
    /\ to_expanded compact = Ok (Some t)
    /\ 0 < t <= x /\ (x - t) * 2 ^ 15 < x
    /\ to_compact t = Ok compact.
Proof.
  intros Hx. destruct (truncated_bounds x Hx) as (Ht & Ht0 & Hp).
  pose proof (compact_mantissa_bounds x Hx). destruct (compact_size_bounds x Hx) as [Hs _].
  eexists _, (truncated x). rewrite to_compact_spec, expanded_of_compact by done.
  split; [done |]. split; [width_lia |]. split; [done |]. split; [lia |]. split; [done |].
  rewrite to_compact_spec by lia.
  by rewrite compact_size_truncated, compact_mantissa_truncated by done.
Qed.

(** The work of an encoding is [floor (2^256 / (ToTarget + 1))] of the
    protocol specification, computed without leaving 256 bits and without
    panicking, and is missing exactly when there is no valid target or the
    work does not fit in 128 bits. *)
Theorem to_work_spec (compact : Z) :
  is_u32 compact ->
  to_work compact =
    Ok (match spec_expanded compact with
        | None => None
        | Some t => if 2 ^ 256 / (t + 1) <=? u128_MAX then Some (2 ^ 256 / (t + 1)) else None
        end).
Proof.
  intros Hc. unfold to_work. rewrite to_expanded_spec by done. cbn [mbind res_bind].
  destruct (spec_expanded compact) as [t|] eqn:E; [|done]. apply work_try_from_spec.
  unfold spec_expanded in E. destruct (spec_negative compact); [done |]. cbn [orb] in E.
  destruct (Z.eqb_spec (spec_target compact) 0); [done |]. cbn [orb] in E.
  destruct (Z.leb_spec (2 ^ 256) (spec_target compact)); [done |]. inv_res.
  pose proof (spec_target_range compact). lia.
Qed.

(** The minimum-difficulty encoding of the default test network. *)
Definition example_compact : Z := 0x1f07ffff.

Lemma to_expanded_is_to_target_witness :
  to_expanded example_compact = Ok (Some (0x07ffff * 256 ^ 28)).
Proof. rewrite (to_expanded_is_to_target example_compact); [reflexivity | unfold example_compact; width_lia]. Defined.

Lemma compact_roundtrip_witness :
  exists compact t, to_compact (2 ^ 251 - 1) = Ok compact
    /\ to_expanded compact = Ok (Some t) /\ to_compact t = Ok compact.
Proof.
  destruct (compact_roundtrip (2 ^ 251 - 1)) as (c & t & H1 & _ & H2 & _ & _ & H3); [done |].
  exists c, t. split; [exact H1 |]. split; [exact H2 | exact H3].
Defined.

Lemma to_work_spec_witness : to_work example_compact = Ok (Some 8192).
Proof. rewrite (to_work_spec example_compact); [vm_compute; reflexivity | unfold example_compact; width_lia]. Defined.
