(* ===== verification/Merkle.v ===== *)
(** The Merkle trees over the transactions of a block
    ([zebra-chain/src/block/merkle.rs]).

    The two hash functions are third-party code and are arguments here. A
    [while] loop over rows of hashes is a recursion on fuel; the length of the
    first row is enough ([merkle_loop_done]). *)
From S2P Require Import Prelude.
From stdpp Require Import prelude.
From Stdlib Require Import ZArith Lia.

Section Merkle.
Context (hash : bytes -> bytes -> bytes).

(** [hashes.chunks(2).map(..)]: an odd last hash is paired with itself. *)
Fixpoint merkle_row (hashes : list bytes) : list bytes :=
  match hashes with
  | [] => []
  | [h1] => [hash h1 h1]
  | h1 :: h2 :: rest => hash h1 h2 :: merkle_row rest
  end.

Fixpoint merkle_loop (fuel : nat) (hashes : list bytes) : list bytes :=
  match hashes with
  | [] | [_] => hashes
  | _ =>
      match fuel with
      | O => hashes
      | S fuel => merkle_loop fuel (merkle_row hashes)
      end
  end.

(** [Root::from_iter]; [hashes[0]] panics when there is no hash. *)
Definition merkle_root_of (hashes : list bytes) : outcome bytes :=
  unwrap (head (merkle_loop (length hashes) hashes)).

(** [AuthDataRoot::from_iter]: the leaves are padded to a power of two, so
    every chunk has two hashes. *)
Fixpoint auth_row (hashes : list bytes) : outcome (list bytes) :=
  match hashes with
  | [] => Ok []
  | [_] => Panic
  | h1 :: h2 :: rest => row ← auth_row rest; Ok (hash h1 h2 :: row)
  end.
Fixpoint auth_loop (fuel : nat) (hashes : list bytes) : outcome (list bytes) :=
  match hashes with
  | [] | [_] => Ok hashes
  | _ =>
      match fuel with
      | O => Ok hashes
      | S fuel => row ← auth_row hashes; auth_loop fuel row
      end
  end.
Definition next_power_of_two (n : nat) : nat := 2 ^ Nat.log2_up n.
Definition auth_data_root_of (hashes : list bytes) : outcome bytes :=
  let pad_count := next_power_of_two (length hashes) - length hashes in
  let padded := hashes ++ replicate pad_count (zero_bytes 32) in
  row ← auth_loop (length padded) padded;
  unwrap (head row).

(** * The loops end *)

Lemma length_merkle_row l : length (merkle_row l) = Nat.div2 (S (length l)).
Proof.
  induction l as [l IH] using (induction_ltof1 _ (@length bytes)). unfold ltof in IH.
  destruct l as [|h1 [|h2 l]]; [done..|]. cbn [merkle_row length]. rewrite IH by (cbn; lia). done.
Qed.

Lemma merkle_row_shorter h1 h2 l : length (merkle_row (h1 :: h2 :: l)) <= S (length l).
Proof.
  rewrite length_merkle_row. cbn [length]. change (Nat.div2 (S (S (S (length l))))) with (S (Nat.div2 (S (length l)))).
  apply le_n_S, Nat.div2_decr. lia.
Qed.

Lemma merkle_loop_done fuel l : length l <= S fuel -> length (merkle_loop fuel l) <= 1.
Proof.
  revert l. induction fuel as [|fuel IH]; intros [|h1 [|h2 l]] Hl; cbn [merkle_loop]; [cbn in *; lia..|].
  apply IH. pose proof (merkle_row_shorter h1 h2 l). cbn in Hl. lia.
Qed.

(** A row with a hash has a root. *)
Lemma merkle_loop_nonempty fuel l : l <> [] -> merkle_loop fuel l <> [].
Proof.
  revert l. induction fuel as [|fuel IH]; intros [|h1 [|h2 l]] Hl; cbn [merkle_loop]; try done. by apply IH.
Qed.

Lemma merkle_root_total l : l <> [] -> exists root, merkle_root_of l = Ok root.
Proof.
  intros Hl. pose proof (merkle_loop_nonempty (length l) l Hl). unfold merkle_root_of.
  destruct (merkle_loop _ l) as [|r ?]; [done|]. by exists r.
Qed.

Lemma auth_row_total n l : length l = 2 * n -> exists row, auth_row l = Ok row /\ length row = n.
Proof.
  revert l. induction n as [|n IH]; intros l Hl.
  { apply nil_length_inv in Hl as ->. by exists []. }
  destruct l as [|h1 [|h2 l]]; [cbn in Hl; lia..|]. cbn in Hl. destruct (IH l) as (row & Hr & Hlen); [lia|].
  exists (hash h1 h2 :: row). cbn [auth_row]. rewrite Hr. cbn. by rewrite Hlen.
Qed.

Lemma auth_loop_total n fuel l : length l = 2 ^ n -> n <= fuel -> exists root, auth_loop fuel l = Ok [root].
Proof.
  revert fuel l. induction n as [|n IH]; intros fuel l Hl Hf.
  { destruct l as [|h [|h2 l]]; [done| |done]. exists h. by destruct fuel. }
  destruct fuel as [|fuel]; [lia|]. destruct l as [|h1 [|h2 l]].
  { cbn [length] in Hl. pose proof (Nat.pow_nonzero 2 (S n)). lia. }
  { cbn [length] in Hl. rewrite Nat.pow_succ_r' in Hl. lia. }
  rewrite Nat.pow_succ_r' in Hl. destruct (auth_row_total _ _ Hl) as (row & Hr & Hlen).
  cbn [auth_loop]. rewrite Hr. cbn [mbind res_bind]. apply IH; [done|lia].
Qed.

(** The authorizing data root exists for every list of digests, also the empty
    one. *)
Lemma auth_data_root_total l : exists root, auth_data_root_of l = Ok root.
Proof.
  unfold auth_data_root_of. set (n := length l).
  assert (n <= next_power_of_two n) as Hn.
  { unfold next_power_of_two. destruct n as [|[|m]]; [cbn; lia..|].
    apply Nat.log2_up_spec. lia. }
  destruct (auth_loop_total (Nat.log2_up n) (length (l ++ replicate (next_power_of_two n - n) (zero_bytes 32)))
              (l ++ replicate (next_power_of_two n - n) (zero_bytes 32))) as (root & ->).
  - rewrite length_app, length_replicate. fold n. unfold next_power_of_two in *. lia.
  - rewrite length_app, length_replicate. fold n. unfold next_power_of_two in *.
    pose proof (Nat.pow_gt_lin_r 2 (Nat.log2_up n)). lia.
  - by exists root.
Qed.

(** * A root determines its transactions *)

(** The pairs that are hashed for one row, and for the whole tree. *)
Fixpoint row_pairs (l : list bytes) : list (bytes * bytes) :=
  match l with
  | [] => []
  | [h1] => [(h1, h1)]
  | h1 :: h2 :: rest => (h1, h2) :: row_pairs rest
  end.
Fixpoint tree_pairs (fuel : nat) (l : list bytes) : list (bytes * bytes) :=
  match l with
  | [] | [_] => []
  | _ =>
      match fuel with
      | O => []
      | S fuel => row_pairs l ++ tree_pairs fuel (merkle_row l)
      end
  end.

Section Binding.
Context (P : bytes * bytes -> Prop).
Context (Hinj : forall p q, P p -> P q -> hash p.1 p.2 = hash q.1 q.2 -> p = q).

Lemma row_pairs_elem l h : h ∈ merkle_row l -> exists p, p ∈ row_pairs l /\ h = hash p.1 p.2.
Proof.
  induction l as [l IH] using (induction_ltof1 _ (@length bytes)). unfold ltof in IH.
  destruct l as [|h1 [|h2 l]]; cbn [merkle_row row_pairs].
  - by intros ?%elem_of_nil.
  - intros ->%list_elem_of_singleton. exists (h1, h1). split; [left|done].
  - intros [->|Hin]%elem_of_cons; [exists (h1, h2); split; [left|done]|].
    destruct (IH l) as (p & ? & ?); [cbn; lia|done|]. exists p. split; [by right|done].
Qed.

Lemma row_pairs_in l p : p ∈ row_pairs l -> p.1 ∈ l /\ p.2 ∈ l.
Proof.
  induction l as [l IH] using (induction_ltof1 _ (@length bytes)). unfold ltof in IH.
  destruct l as [|h1 [|h2 l]]; cbn [row_pairs].
  - by intros ?%elem_of_nil.
  - intros ->%list_elem_of_singleton. cbn. set_solver.
  - intros [->|Hin]%elem_of_cons; [cbn; set_solver|]. destruct (IH l) as [? ?]; [cbn; lia|done|]. set_solver.
Qed.

Lemma merkle_row_NoDup l : NoDup l -> Forall P (row_pairs l) -> NoDup (merkle_row l).
Proof using Hinj.
  induction l as [l IH] using (induction_ltof1 _ (@length bytes)). unfold ltof in IH.
  destruct l as [|h1 [|h2 l]]; cbn [merkle_row row_pairs]; [constructor| |].
  { intros _ _. apply NoDup_singleton. }
  intros Hnd [Hp Hf]%Forall_cons. apply NoDup_cons in Hnd as [Hn1 Hnd]. apply NoDup_cons in Hnd as [Hn2 Hnd].
  apply NoDup_cons. split; [|apply IH; [cbn; lia|done|done]].
  intros ([a b] & Hin & He)%row_pairs_elem. rewrite Forall_forall in Hf.
  pose proof (Hinj (h1, h2) (a, b) Hp (Hf _ Hin) He) as [= -> ->].
  apply row_pairs_in in Hin as [Ha _]. apply Hn1. by right.
Qed.

Lemma merkle_row_inj l1 l2 :
  NoDup l1 -> NoDup l2 -> Forall P (row_pairs l1) -> Forall P (row_pairs l2) ->
  merkle_row l1 = merkle_row l2 -> l1 = l2.
Proof using Hinj.
  revert l2. induction l1 as [l1 IH] using (induction_ltof1 _ (@length bytes)). unfold ltof in IH. intros l2.
  assert (forall a b c l l', a ≠ b -> Forall P ((a, b) :: l) -> Forall P ((c, c) :: l') -> hash a b <> hash c c) as Hodd.
  { intros a b c l l' Hne [Hp _]%Forall_cons [Hq _]%Forall_cons He.
    pose proof (Hinj (a, b) (c, c) Hp Hq He) as [= -> ->]. done. }
  destruct l1 as [|a1 [|b1 l1]], l2 as [|a2 [|b2 l2]]; cbn [merkle_row row_pairs]; try done.
  - intros _ _ [Hp _]%Forall_cons [Hq _]%Forall_cons [= He].
    by pose proof (Hinj (a1, a1) (a2, a2) Hp Hq He) as [= ->].
  - intros _ [Hn _]%NoDup_cons H1 H2 [= He _]. exfalso. symmetry in He. revert He. eapply Hodd; eauto. set_solver.
  - intros [Hn _]%NoDup_cons _ H1 H2 [= He _]. exfalso. revert He. eapply Hodd; eauto. set_solver.
  - intros [_ Hn1]%NoDup_cons [_ Hn2]%NoDup_cons [Hp Hf1]%Forall_cons [Hq Hf2]%Forall_cons [= He Hr].
    pose proof (Hinj (a1, b1) (a2, b2) Hp Hq He) as [= -> ->].
    apply NoDup_cons in Hn1 as [_ Hn1]. apply NoDup_cons in Hn2 as [_ Hn2].
    rewrite (IH l1 ltac:(cbn; lia) l2) by done. done.
Qed.

(** The loop makes some number of rows, all of them without duplicates. *)
Inductive rows : list bytes -> nat -> bytes -> Prop :=
| rows_root r : rows [r] 0 r
| rows_step l n r : 1 < length l -> NoDup l -> Forall P (row_pairs l) -> rows (merkle_row l) n r -> rows l (S n) r.

Lemma merkle_loop_rows fuel l r :
  NoDup l -> Forall P (tree_pairs fuel l) -> length l <= S fuel -> head (merkle_loop fuel l) = Some r ->
  exists n, rows l n r.
Proof using Hinj.
  revert l. induction fuel as [|fuel IH]; intros [|h1 [|h2 l]] Hnd Hp Hlen; cbn [merkle_loop tree_pairs] in *; try done.
  - intros [= <-]. exists 0. constructor.
  - cbn in Hlen. lia.
  - intros [= <-]. exists 0. constructor.
  - apply Forall_app in Hp as [Hp1 Hp2]. intros Hr. destruct (IH (merkle_row (h1 :: h2 :: l))) as [n Hn].
    + by apply merkle_row_NoDup.
    + done.
    + pose proof (merkle_row_shorter h1 h2 l). cbn in Hlen. lia.
    + done.
    + exists (S n). constructor; [cbn; lia|done|done|done].
Qed.

Lemma rows_up l n r k : rows l n r -> k <= n -> rows (Nat.iter k merkle_row l) (n - k) r.
Proof.
  intros H. revert k. induction H as [r|l n r Hlen Hnd Hp H IH]; intros k Hk.
  { assert (k = 0) as -> by lia. constructor. }
  destruct k as [|k]; [by constructor|]. rewrite Nat.iter_succ_r. apply IH. lia.
Qed.

(** Equal roots: the smaller tree is an upper part of the larger one. *)
Lemma rows_binding l1 n1 l2 n2 r :
  rows l1 n1 r -> rows l2 n2 r -> n1 <= n2 -> l1 = Nat.iter (n2 - n1) merkle_row l2.
Proof using Hinj.
  intros H1. revert n2. induction H1 as [r|l1 n1 r Hlen1 Hnd1 Hp1 H1 IH]; intros n2 H2 Hle.
  - pose proof (rows_up _ _ _ n2 H2 (le_n _)) as H. rewrite Nat.sub_diag in H. rewrite Nat.sub_0_r. inversion H; congruence.
  - specialize (IH n2 H2 ltac:(lia)). replace (n2 - n1) with (S (n2 - S n1)) in IH by lia. rewrite Nat.iter_succ in IH.
    pose proof (rows_up _ _ _ (n2 - S n1) H2 ltac:(lia)) as H.
    replace (n2 - (n2 - S n1)) with (S n1) in H by lia. inversion H; subst. by apply merkle_row_inj.
Qed.
End Binding.

Lemma roots_binding fuel1 l1 fuel2 l2 r :
  NoDup l1 -> NoDup l2 -> length l1 <= S fuel1 -> length l2 <= S fuel2 ->
  let pairs := tree_pairs fuel1 l1 ++ tree_pairs fuel2 l2 in
  (forall p q, p ∈ pairs -> q ∈ pairs -> hash p.1 p.2 = hash q.1 q.2 -> p = q) ->
  (forall p, p ∈ pairs -> hash p.1 p.2 ∉ l1 ++ l2) ->
  head (merkle_loop fuel1 l1) = Some r -> head (merkle_loop fuel2 l2) = Some r -> l1 = l2.
Proof.
  intros Hn1 Hn2 Hl1 Hl2 pairs Hinj Hleaf Hr1 Hr2.
  destruct (merkle_loop_rows (fun p => p ∈ pairs) Hinj fuel1 l1 r) as [n1 H1]; try done.
  { apply Forall_forall. intros. apply elem_of_app. by left. }
  destruct (merkle_loop_rows (fun p => p ∈ pairs) Hinj fuel2 l2 r) as [n2 H2]; try done.
  { apply Forall_forall. intros. apply elem_of_app. by right. }
  assert (forall l n lb nb, (forall x, x ∈ l -> x ∈ l1 ++ l2) -> rows (fun p => p ∈ pairs) l n r ->
            rows (fun p => p ∈ pairs) lb nb r -> n < nb -> False) as Hno.
  { intros l n lb nb Hin Ha Hb Hlt.
    pose proof (rows_binding _ Hinj _ _ _ _ _ Ha Hb ltac:(lia)) as He.
    replace (nb - n) with (S (nb - S n)) in He by lia. rewrite Nat.iter_succ in He.
    pose proof (rows_up _ _ _ _ (nb - S n) Hb ltac:(lia)) as H. replace (nb - (nb - S n)) with (S n) in H by lia.
    inversion H as [|l' n' r' Hlen _ Hp _ El En Er]. clear El En Er H. rewrite Forall_forall in Hp.
    destruct (Nat.iter (nb - S n) merkle_row lb) as [|a [|b rest]]; cbn in Hlen; [lia..|].
    apply (Hleaf (a, b)); [apply Hp; cbn; left|]. apply Hin. rewrite He. left. }
  destruct (lt_eq_lt_dec n1 n2) as [[Hlt|Heq]|Hlt].
  - exfalso. eapply (Hno l1 n1 l2 n2); eauto. set_solver.
  - subst n2. pose proof (rows_binding _ Hinj _ _ _ _ _ H1 H2 (le_n _)) as He. by rewrite Nat.sub_diag in He.
  - exfalso. eapply (Hno l2 n2 l1 n1); eauto. set_solver.
Qed.
End Merkle.

(** Two lists of transaction hashes without duplicates that have the same
    Merkle root are the same list, unless the two trees show a collision of the
    hash function, or a transaction hash that is also a hash of two nodes. *)
Lemma merkle_root_binds hash l1 l2 r :
  NoDup l1 -> NoDup l2 ->
  let pairs := tree_pairs hash (length l1) l1 ++ tree_pairs hash (length l2) l2 in
  (forall p q, p ∈ pairs -> q ∈ pairs -> hash p.1 p.2 = hash q.1 q.2 -> p = q) ->
  (forall p, p ∈ pairs -> hash p.1 p.2 ∉ l1 ++ l2) ->
  merkle_root_of hash l1 = Ok r -> merkle_root_of hash l2 = Ok r -> l1 = l2.
Proof.
  intros Hn1 Hn2 pairs Hinj Hleaf Hr1%unwrap_Ok Hr2%unwrap_Ok.
  by eapply (roots_binding hash (length l1) l1 (length l2) l2); eauto.
Qed.

(** Duplicates are the exception: without a check for them a last transaction
    can be repeated. *)
Lemma merkle_root_malleable hash a b c :
  merkle_root_of hash [a; b; c] = merkle_root_of hash [a; b; c; c].
Proof. reflexivity. Qed.

Module MerkleExample.
(** A toy hash: a marked concatenation. *)
Definition toy_hash (a b : bytes) : bytes := Byte.xff :: a ++ [Byte.xfe] ++ b.
Definition leaves : list bytes := [[Byte.x01]; [Byte.x02]; [Byte.x03]].

Definition toy_pairs : list (bytes * bytes) :=
  tree_pairs toy_hash 3 leaves ++ tree_pairs toy_hash 3 (reverse (reverse leaves)).
Lemma toy_hash_no_collision :
  Forall (fun p => Forall (fun q => toy_hash p.1 p.2 = toy_hash q.1 q.2 -> p = q) toy_pairs) toy_pairs
  /\ Forall (fun p => toy_hash p.1 p.2 ∉ leaves ++ reverse (reverse leaves)) toy_pairs.
Proof. apply (bool_decide_unpack _). vm_compute. exact I. Qed.

Lemma merkle_root_binds_witness : leaves = reverse (reverse leaves).
Proof.
  destruct toy_hash_no_collision as [Hc Hl]. rewrite !Forall_forall in Hc, Hl.
  apply (merkle_root_binds toy_hash leaves (reverse (reverse leaves))
           match merkle_root_of toy_hash leaves with Ok r => r | _ => [] end).
  - apply (bool_decide_unpack _). vm_compute. exact I.
  - apply (bool_decide_unpack _). vm_compute. exact I.
  - intros p q Hp Hq. specialize (Hc p Hp). rewrite Forall_forall in Hc. exact (Hc q Hq).
  - exact Hl.
  - vm_compute. reflexivity.
  - vm_compute. reflexivity.
Defined.
End MerkleExample.
