(* ===== verification/FundingStreams.v ===== *)
(** Transparent addresses and the funding streams of a network
    ([zebra-chain/src/transparent/address.rs] and the data of
    [zebra-chain/src/parameters/network/subsidy.rs]).

    The text form of an address is decoded by third-party base58 and bech32
    code: the decoder is the class [AddressParser]. A [HashMap] of recipients is
    a finite map; the code iterates over it in an unspecified order, here in
    the order of [map_to_list]. *)
From S2P Require Import Prelude Serialization Height Amount.
From stdpp Require Import prelude strings gmap.
From Stdlib Require Import ZArith Lia.
#[local] Open Scope Z_scope.

(** ** Addresses *)

Inductive NetworkKind : Type := MainnetKind | TestnetKind | RegtestKind.
#[export] Instance NetworkKind_eq_dec : EqDecision NetworkKind.
Proof. solve_decision. Defined.

Inductive Address : Type :=
| PayToScriptHash (network_kind : NetworkKind) (script_hash : bytes)
| PayToPublicKeyHash (network_kind : NetworkKind) (pub_key_hash : bytes)
| Tex (network_kind : NetworkKind) (validating_key_hash : bytes).
#[export] Instance Address_eq_dec : EqDecision Address.
Proof. solve_decision. Defined.

Definition address_network_kind (a : Address) : NetworkKind :=
  match a with PayToScriptHash k _ | PayToPublicKeyHash k _ | Tex k _ => k end.
Definition is_script_hash (a : Address) : bool :=
  match a with PayToScriptHash _ _ => true | _ => false end.
Definition hash_bytes (a : Address) : bytes :=
  match a with PayToScriptHash _ h | PayToPublicKeyHash _ h | Tex _ h => h end.

(** The opcodes of [transparent/opcodes.rs]: Equal 0x87, Hash160 0xa9,
    Push20Bytes 0x14, Dup 0x76, EqualVerify 0x88, CheckSig 0xac. *)
Definition address_script (a : Address) : bytes :=
  match a with
  | PayToScriptHash _ _ => [Byte.xa9; Byte.x14] ++ hash_bytes a ++ [Byte.x87]
  | PayToPublicKeyHash _ _ => [Byte.x76; Byte.xa9; Byte.x14] ++ hash_bytes a ++ [Byte.x88; Byte.xac]
  | Tex _ _ => []
  end.

(** [new_coinbase_script] of [zebra-consensus/src/block/subsidy.rs]. *)
Definition new_coinbase_script (address : Address) : outcome bytes :=
  _ ← assert_ (is_script_hash address); Ok (address_script address).

(** [str::parse::<Address>]. *)
Class AddressParser := parse_address : string -> option Address.

(** ** Funding streams *)

Inductive FundingStreamReceiver : Type := Ecc | ZcashFoundation | MajorGrants | DeferredReceiver.
#[export] Instance FundingStreamReceiver_eq_dec : EqDecision FundingStreamReceiver.
Proof. solve_decision. Defined.
#[export] Instance FundingStreamReceiver_countable : Countable FundingStreamReceiver.
Proof.
  refine (inj_countable'
    (fun r => match r with Ecc => 0%nat | ZcashFoundation => 1%nat | MajorGrants => 2%nat | DeferredReceiver => 3%nat end)
    (fun n => match n with 0%nat => Ecc | 1%nat => ZcashFoundation | 2%nat => MajorGrants | _ => DeferredReceiver end) _).
  by intros [].
Defined.

Record FundingStreamRecipient := mkFundingStreamRecipient { numerator : Z; addresses : list Address }.
#[export] Instance FundingStreamRecipient_eq_dec : EqDecision FundingStreamRecipient.
Proof. solve_decision. Defined.

Record FundingStreams := mkFundingStreams {
  height_range : Z * Z;
  recipients : gmap FundingStreamReceiver FundingStreamRecipient
}.
#[export] Instance FundingStreams_eq_dec : EqDecision FundingStreams.
Proof. solve_decision. Defined.

(** [Range::contains]. *)
Definition range_contains (r : Z * Z) (height : Z) : bool := (r.1 <=? height) && (height <? r.2).

Definition recipient (fs : FundingStreams) (receiver : FundingStreamReceiver) : option FundingStreamRecipient :=
  recipients fs !! receiver.

Definition FundingStreams_empty : FundingStreams := mkFundingStreams (Height_MAX, Height_MAX) ∅.

(** [FundingStreamRecipient::new] parses every address. *)
Definition FundingStreamRecipient_new `{AddressParser} (numerator : Z) (addresses : list string)
    : outcome FundingStreamRecipient :=
  addresses ← map_res (fun addr => unwrap (parse_address addr)) addresses;
  Ok (mkFundingStreamRecipient numerator addresses).

Definition FUNDING_STREAM_RECEIVER_DENOMINATOR : Z := 100.
Definition FUNDING_STREAMS_NUM_ADDRESSES_MAINNET : nat := 48.
Definition POST_NU6_FUNDING_STREAMS_NUM_ADDRESSES_MAINNET : nat := 12.
Definition FUNDING_STREAMS_NUM_ADDRESSES_TESTNET : nat := 51.
Definition POST_NU6_FUNDING_STREAMS_NUM_ADDRESSES_TESTNET : nat := 13.
Definition POST_NU6_1_FUNDING_STREAMS_NUM_ADDRESSES_TESTNET : nat := 27.

Definition FUNDING_STREAM_ECC_ADDRESSES_MAINNET : list string :=
  ["t3LmX1cxWPPPqL4TZHx42HU3U5ghbFjRiif"; "t3Toxk1vJQ6UjWQ42tUJz2rV2feUWkpbTDs";
   "t3ZBdBe4iokmsjdhMuwkxEdqMCFN16YxKe6"; "t3ZuaJziLM8xZ32rjDUzVjVtyYdDSz8GLWB";
   "t3bAtYWa4bi8VrtvqySxnbr5uqcG9czQGTZ"; "t3dktADfb5Rmxncpe1HS5BRS5Gcj7MZWYBi";
   "t3hgskquvKKoCtvxw86yN7q8bzwRxNgUZmc"; "t3R1VrLzwcxAZzkX4mX3KGbWpNsgtYtMntj";
   "t3ff6fhemqPMVujD3AQurxRxTdvS1pPSaa2"; "t3cEUQFG3KYnFG6qYhPxSNgGi3HDjUPwC3J";
   "t3WR9F5U4QvUFqqx9zFmwT6xFqduqRRXnaa"; "t3PYc1LWngrdUrJJbHkYPCKvJuvJjcm85Ch";
   "t3bgkjiUeatWNkhxY3cWyLbTxKksAfk561R"; "t3Z5rrR8zahxUpZ8itmCKhMSfxiKjUp5Dk5";
   "t3PU1j7YW3fJ67jUbkGhSRto8qK2qXCUiW3"; "t3S3yaT7EwNLaFZCamfsxxKwamQW2aRGEkh";
   "t3eutXKJ9tEaPSxZpmowhzKhPfJvmtwTEZK"; "t3gbTb7brxLdVVghSPSd3ycGxzHbUpukeDm";
   "t3UCKW2LrHFqPMQFEbZn6FpjqnhAAbfpMYR"; "t3NyHsrnYbqaySoQqEQRyTWkjvM2PLkU7Uu";
   "t3QEFL6acxuZwiXtW3YvV6njDVGjJ1qeaRo"; "t3PdBRr2S1XTDzrV8bnZkXF3SJcrzHWe1wj";
   "t3ZWyRPpWRo23pKxTLtWsnfEKeq9T4XPxKM"; "t3he6QytKCTydhpztykFsSsb9PmBT5JBZLi";
   "t3VWxWDsLb2TURNEP6tA1ZSeQzUmPKFNxRY"; "t3NmWLvZkbciNAipauzsFRMxoZGqmtJksbz";
   "t3cKr4YxVPvPBG1mCvzaoTTdBNokohsRJ8n"; "t3T3smGZn6BoSFXWWXa1RaoQdcyaFjMfuYK";
   "t3gkDUe9Gm4GGpjMk86TiJZqhztBVMiUSSA"; "t3eretuBeBXFHe5jAqeSpUS1cpxVh51fAeb";
   "t3dN8g9zi2UGJdixGe9txeSxeofLS9t3yFQ"; "t3S799pq9sYBFwccRecoTJ3SvQXRHPrHqvx";
   "t3fhYnv1S5dXwau7GED3c1XErzt4n4vDxmf"; "t3cmE3vsBc5xfDJKXXZdpydCPSdZqt6AcNi";
   "t3h5fPdjJVHaH4HwynYDM5BB3J7uQaoUwKi"; "t3Ma35c68BgRX8sdLDJ6WR1PCrKiWHG4Da9";
   "t3LokMKPL1J8rkJZvVpfuH7dLu6oUWqZKQK"; "t3WFFGbEbhJWnASZxVLw2iTJBZfJGGX73mM";
   "t3L8GLEsUn4QHNaRYcX3EGyXmQ8kjpT1zTa"; "t3PgfByBhaBSkH8uq4nYJ9ZBX4NhGCJBVYm";
   "t3WecsqKDhWXD4JAgBVcnaCC2itzyNZhJrv"; "t3ZG9cSfopnsMQupKW5v9sTotjcP5P6RTbn";
   "t3hC1Ywb5zDwUYYV8LwhvF5rZ6m49jxXSG5"; "t3VgMqDL15ZcyQDeqBsBW3W6rzfftrWP2yB";
   "t3LC94Y6BwLoDtBoK2NuewaEbnko1zvR9rm"; "t3cWCUZJR3GtALaTcatrrpNJ3MGbMFVLRwQ";
   "t3YYF4rPLVxDcF9hHFsXyc5Yq1TFfbojCY6"; "t3XHAGxRP2FNfhAjxGjxbrQPYtQQjc3RCQD"].
Definition FUNDING_STREAM_ZF_ADDRESSES_MAINNET : list string :=
  replicate FUNDING_STREAMS_NUM_ADDRESSES_MAINNET "t3dvVE3SQEi7kqNzwrfNePxZ1d4hUyztBA1".
Definition FUNDING_STREAM_MG_ADDRESSES_MAINNET : list string :=
  replicate FUNDING_STREAMS_NUM_ADDRESSES_MAINNET "t3XyYW8yBFRuMnfvm5KLGFbEVz25kckZXym".
Definition POST_NU6_FUNDING_STREAM_FPF_ADDRESSES_MAINNET : list string :=
  replicate POST_NU6_FUNDING_STREAMS_NUM_ADDRESSES_MAINNET "t3cFfPt1Bcvgez9ZbMBFWeZsskxTkPzGCow".

Definition FUNDING_STREAM_ECC_ADDRESSES_TESTNET : list string :=
  ["t26ovBdKAJLtrvBsE2QGF4nqBkEuptuPFZz"; "t26ovBdKAJLtrvBsE2QGF4nqBkEuptuPFZz";
   "t26ovBdKAJLtrvBsE2QGF4nqBkEuptuPFZz"; "t26ovBdKAJLtrvBsE2QGF4nqBkEuptuPFZz";
   "t2NNHrgPpE388atmWSF4DxAb3xAoW5Yp45M"; "t2VMN28itPyMeMHBEd9Z1hm6YLkQcGA1Wwe";
   "t2CHa1TtdfUV8UYhNm7oxbzRyfr8616BYh2"; "t2F77xtr28U96Z2bC53ZEdTnQSUAyDuoa67";
   "t2ARrzhbgcpoVBDPivUuj6PzXzDkTBPqfcT"; "t278aQ8XbvFR15mecRguiJDQQVRNnkU8kJw";
   "t2Dp1BGnZsrTXZoEWLyjHmg3EPvmwBnPDGB"; "t2KzeqXgf4ju33hiSqCuKDb8iHjPCjMq9iL";
   "t2Nyxqv1BiWY1eUSiuxVw36oveawYuo18tr"; "t2DKFk5JRsVoiuinK8Ti6eM4Yp7v8BbfTyH";
   "t2CUaBca4k1x36SC4q8Nc8eBoqkMpF3CaLg"; "t296SiKL7L5wvFmEdMxVLz1oYgd6fTfcbZj";
   "t29fBCFbhgsjL3XYEZ1yk1TUh7eTusB6dPg"; "t2FGofLJXa419A76Gpf5ncxQB4gQXiQMXjK";
   "t2ExfrnRVnRiXDvxerQ8nZbcUQvNvAJA6Qu"; "t28JUffLp47eKPRHKvwSPzX27i9ow8LSXHx";
   "t2JXWPtrtyL861rFWMZVtm3yfgxAf4H7uPA"; "t2QdgbJoWfYHgyvEDEZBjHmgkr9yNJff3Hi";
   "t2QW43nkco8r32ZGRN6iw6eSzyDjkMwCV3n"; "t2DgYDXMJTYLwNcxighQ9RCgPxMVATRcUdC";
   "t2Bop7dg33HGZx3wunnQzi2R2ntfpjuti3M"; "t2HVeEwovcLq9RstAbYkqngXNEsCe2vjJh9";
   "t2HxbP5keQSx7p592zWQ5bJ5GrMmGDsV2Xa"; "t2TJzUg2matao3mztBRJoWnJY6ekUau6tPD";
   "t29pMzxmo6wod25YhswcjKv3AFRNiBZHuhj"; "t2QBQMRiJKYjshJpE6RhbF7GLo51yE6d4wZ";
   "t2F5RqnqguzZeiLtYHFx4yYfy6pDnut7tw5"; "t2CHvyZANE7XCtg8AhZnrcHCC7Ys1jJhK13";
   "t2BRzpMdrGWZJ2upsaNQv6fSbkbTy7EitLo"; "t2BFixHGQMAWDY67LyTN514xRAB94iEjXp3";
   "t2Uvz1iVPzBEWfQBH1p7NZJsFhD74tKaG8V"; "t2CmFDj5q6rJSRZeHf1SdrowinyMNcj438n";
   "t2ErNvWEReTfPDBaNizjMPVssz66aVZh1hZ"; "t2GeJQ8wBUiHKDVzVM5ZtKfY5reCg7CnASs";
   "t2L2eFtkKv1G6j55kLytKXTGuir4raAy3yr"; "t2EK2b87dpPazb7VvmEGc8iR6SJ289RywGL";
   "t2DJ7RKeZJxdA4nZn8hRGXE8NUyTzjujph9"; "t2K1pXo4eByuWpKLkssyMLe8QKUbxnfFC3H";
   "t2TB4mbSpuAcCWkH94Leb27FnRxo16AEHDg"; "t2Phx4gVL4YRnNsH3jM1M7jE4Fo329E66Na";
   "t2VQZGmeNomN8c3USefeLL9nmU6M8x8CVzC"; "t2RicCvTVTY5y9JkreSRv3Xs8q2K67YxHLi";
   "t2JrSLxTGc8wtPDe9hwbaeUjCrCfc4iZnDD"; "t2Uh9Au1PDDSw117sAbGivKREkmMxVC5tZo";
   "t2FDwoJKLeEBMTy3oP7RLQ1Fihhvz49a3Bv"; "t2FY18mrgtb7QLeHA8ShnxLXuW8cNQ2n1v8";
   "t2L15TkDYum7dnQRBqfvWdRe8Yw3jVy9z7g"].
Definition FUNDING_STREAM_ZF_ADDRESSES_TESTNET : list string :=
  replicate FUNDING_STREAMS_NUM_ADDRESSES_TESTNET "t27eWDgjFYJGVXmzrXeVjnb5J3uXDM9xH9v".
Definition FUNDING_STREAM_MG_ADDRESSES_TESTNET : list string :=
  replicate FUNDING_STREAMS_NUM_ADDRESSES_TESTNET "t2Gvxv2uNM7hbbACjNox4H6DjByoKZ2Fa3P".
Definition POST_NU6_FUNDING_STREAM_FPF_ADDRESSES_TESTNET : list string :=
  replicate POST_NU6_FUNDING_STREAMS_NUM_ADDRESSES_TESTNET "t2HifwjUj9uyxr9bknR8LFuQbc98c3vkXtu".
Definition POST_NU6_1_FUNDING_STREAM_FPF_ADDRESSES_TESTNET : list string :=
  replicate POST_NU6_1_FUNDING_STREAMS_NUM_ADDRESSES_TESTNET "t2HifwjUj9uyxr9bknR8LFuQbc98c3vkXtu".

(** From [network_upgrade.rs]. *)
Definition NU6_1_ACTIVATION_HEIGHT_TESTNET : Z := 3536500.

Definition POST_NU6_FUNDING_STREAM_START_HEIGHT_MAINNET : Z := 2726400.
Definition POST_NU6_FUNDING_STREAM_START_HEIGHT_TESTNET : Z := 2976000.
Definition POST_NU6_FUNDING_STREAM_NUM_BLOCKS : Z := 420000.
Definition POST_NU6_FUNDING_STREAM_START_RANGE_MAINNET : Z * Z :=
  (POST_NU6_FUNDING_STREAM_START_HEIGHT_MAINNET,
   POST_NU6_FUNDING_STREAM_START_HEIGHT_MAINNET + POST_NU6_FUNDING_STREAM_NUM_BLOCKS).
Definition POST_NU6_FUNDING_STREAM_START_RANGE_TESTNET : Z * Z :=
  (POST_NU6_FUNDING_STREAM_START_HEIGHT_TESTNET,
   POST_NU6_FUNDING_STREAM_START_HEIGHT_TESTNET + POST_NU6_FUNDING_STREAM_NUM_BLOCKS).

Section Statics.
Context `{AddressParser}.

(** The three streams of ZIP 214, and the two of ZIP 1015 that pay the
    lockbox and the grants recipient. *)
Definition zip214_streams (range : Z * Z) (ecc zf mg : list string) : outcome FundingStreams :=
  ecc ← FundingStreamRecipient_new 7 ecc;
  zf ← FundingStreamRecipient_new 5 zf;
  mg ← FundingStreamRecipient_new 8 mg;
  Ok (mkFundingStreams range (list_to_map [(Ecc, ecc); (ZcashFoundation, zf); (MajorGrants, mg)])).
Definition zip1015_streams (range : Z * Z) (fpf : list string) : outcome FundingStreams :=
  deferred ← FundingStreamRecipient_new 12 [];
  fpf ← FundingStreamRecipient_new 8 fpf;
  Ok (mkFundingStreams range (list_to_map [(DeferredReceiver, deferred); (MajorGrants, fpf)])).

Definition FUNDING_STREAMS_MAINNET : outcome (list FundingStreams) :=
  zip214 ← zip214_streams (1046400, 2726400) FUNDING_STREAM_ECC_ADDRESSES_MAINNET
             FUNDING_STREAM_ZF_ADDRESSES_MAINNET FUNDING_STREAM_MG_ADDRESSES_MAINNET;
  zip1015 ← zip1015_streams POST_NU6_FUNDING_STREAM_START_RANGE_MAINNET
              POST_NU6_FUNDING_STREAM_FPF_ADDRESSES_MAINNET;
  Ok [zip214; zip1015].

Definition FUNDING_STREAMS_TESTNET : outcome (list FundingStreams) :=
  zip214 ← zip214_streams (1028500, 2796000) FUNDING_STREAM_ECC_ADDRESSES_TESTNET
             FUNDING_STREAM_ZF_ADDRESSES_TESTNET FUNDING_STREAM_MG_ADDRESSES_TESTNET;
  zip1015 ← zip1015_streams POST_NU6_FUNDING_STREAM_START_RANGE_TESTNET
              POST_NU6_FUNDING_STREAM_FPF_ADDRESSES_TESTNET;
  nu6_1 ← zip1015_streams (NU6_1_ACTIVATION_HEIGHT_TESTNET, 4476000)
            POST_NU6_1_FUNDING_STREAM_FPF_ADDRESSES_TESTNET;
  Ok [zip214; zip1015; nu6_1].
End Statics.
