(* ===== verification/NetworkUpgrade.v ===== *)
(** Network upgrades and their activation heights
    ([zebra-chain/src/parameters/network_upgrade.rs] and the parts of
    [parameters/network.rs] and [parameters/network/testnet.rs] that hold the
    consensus parameters).

    A [BTreeMap] of activation heights is its list of entries in ascending
    height order. The model is of the default build: the [Nu7] entry of the
    ordered list and the [ZFuture] upgrade only exist in test and unstable
    builds. *)
From S2P Require Import Prelude BTreeMap Height FundingStreams.
From stdpp Require Import prelude strings sorting.
From Stdlib Require Import ZArith Lia.
#[local] Open Scope Z_scope.

Inductive NetworkUpgrade : Type :=
| Genesis | BeforeOverwinter | Overwinter | Sapling | Blossom | Heartwood | Canopy
| Nu5 | Nu6 | Nu6_1 | Nu7.

#[export] Instance NetworkUpgrade_eq_dec : EqDecision NetworkUpgrade.
Proof. solve_decision. Defined.

(** The derived order. *)
Definition nu_index (nu : NetworkUpgrade) : nat :=
  match nu with
  | Genesis => 0 | BeforeOverwinter => 1 | Overwinter => 2 | Sapling => 3 | Blossom => 4
  | Heartwood => 5 | Canopy => 6 | Nu5 => 7 | Nu6 => 8 | Nu6_1 => 9 | Nu7 => 10
  end.
Definition nu_lt (a b : NetworkUpgrade) : Prop := (nu_index a < nu_index b)%nat.
Definition nu_le (a b : NetworkUpgrade) : Prop := (nu_index a <= nu_index b)%nat.
#[export] Instance nu_le_dec a b : Decision (nu_le a b).
Proof. unfold nu_le. apply _. Defined.

Definition NETWORK_UPGRADES_IN_ORDER : list NetworkUpgrade :=
  [Genesis; BeforeOverwinter; Overwinter; Sapling; Blossom; Heartwood; Canopy; Nu5; Nu6; Nu6_1].

Definition MAINNET_ACTIVATION_HEIGHTS : list (Z * NetworkUpgrade) :=
  [(0, Genesis); (1, BeforeOverwinter); (347500, Overwinter); (419200, Sapling);
   (653600, Blossom); (903000, Heartwood); (1046400, Canopy); (1687104, Nu5); (2726400, Nu6)].
Definition TESTNET_ACTIVATION_HEIGHTS : list (Z * NetworkUpgrade) := [(0, Genesis); (1, Nu6)].

(** The consensus parameters of a test network. *)
Record Parameters := mkParameters {
  network_name_ : string;
  network_magic_ : bytes;
  genesis_hash_ : bytes;
  activation_heights : list (Z * NetworkUpgrade);
  slow_start_interval_ : Z;
  slow_start_shift_ : Z;
  funding_streams_ : list FundingStreams;
  target_difficulty_limit_ : Z;
  disable_pow_ : bool;
  should_allow_unshielded_coinbase_spends_ : bool;
  pre_blossom_halving_interval_ : Z;
  post_blossom_halving_interval_ : Z;
  lockbox_disbursements_ : list (string * Z)
}.
#[export] Instance Parameters_eq_dec : EqDecision Parameters.
Proof. solve_decision. Defined.

Inductive Network : Type := Mainnet | Testnet (params : Parameters).

Definition activation_list (network : Network) : list (Z * NetworkUpgrade) :=
  match network with
  | Mainnet => MAINNET_ACTIVATION_HEIGHTS
  | Testnet params => activation_heights params
  end.

(** [range(..=height)] and its last entry. *)
Definition entries_to (height : Z) (l : list (Z * NetworkUpgrade)) : list (Z * NetworkUpgrade) :=
  filter (fun e => e.1 <= height) l.

Definition current_with_activation_height (network : Network) (height : Z)
    : outcome (NetworkUpgrade * Z) :=
  unwrap ((fun e => (e.2, e.1)) <$> last (entries_to height (activation_list network))).

Definition nu_current (network : Network) (height : Z) : outcome NetworkUpgrade :=
  unwrap (snd <$> last (entries_to height (activation_list network))).

(** [skip_while(|&nu| self != nu).nth(1)]. *)
Fixpoint skip_until (nu : NetworkUpgrade) (l : list NetworkUpgrade) : list NetworkUpgrade :=
  match l with
  | [] => []
  | x :: l' => if decide (nu = x) then l else skip_until nu l'
  end.
Definition next_upgrade (nu : NetworkUpgrade) : option NetworkUpgrade :=
  skip_until nu NETWORK_UPGRADES_IN_ORDER !! 1%nat.
Definition previous_upgrade (nu : NetworkUpgrade) : option NetworkUpgrade :=
  skip_until nu (reverse NETWORK_UPGRADES_IN_ORDER) !! 1%nat.

Fixpoint find_upgrade (nu : NetworkUpgrade) (l : list (Z * NetworkUpgrade)) : option Z :=
  match l with
  | [] => None
  | (h, x) :: l' => if decide (x = nu) then Some h else find_upgrade nu l'
  end.

(** [activation_height] calls itself on the next upgrade; there are ten of
    them, so ten levels are enough ([activation_height_eq] below). *)
Fixpoint activation_height_fuel (fuel : nat) (nu : NetworkUpgrade) (l : list (Z * NetworkUpgrade))
    : option Z :=
  match find_upgrade nu l with
  | Some h => Some h
  | None =>
      match fuel with
      | O => None
      | S fuel' => next_nu ← next_upgrade nu; activation_height_fuel fuel' next_nu l
      end
  end.
Definition activation_height (nu : NetworkUpgrade) (network : Network) : option Z :=
  activation_height_fuel 10 nu (activation_list network).

Definition is_activation_height (network : Network) (height : Z) : bool :=
  existsb (fun e => e.1 =? height) (activation_list network).

Fixpoint map_while {A B} (f : A -> option B) (l : list A) : list B :=
  match l with
  | [] => []
  | a :: l' => match f a with Some b => b :: map_while f l' | None => [] end
  end.
Definition full_activation_list (network : Network) : list (Z * NetworkUpgrade) :=
  map_while (fun nu => (fun h => (h, nu)) <$> activation_height nu network) NETWORK_UPGRADES_IN_ORDER.

(** ** Branch ids *)

Definition CONSENSUS_BRANCH_IDS : list (NetworkUpgrade * Z) :=
  [(Overwinter, 0x5ba81b19); (Sapling, 0x76b809bb); (Blossom, 0x2bb40e60); (Heartwood, 0xf5b9230b);
   (Canopy, 0xe9ff75a6); (Nu5, 0xc2d6d0b4); (Nu6, 0xc8e71055); (Nu6_1, 0x4dec4df0)].

Definition branch_id (nu : NetworkUpgrade) : option Z :=
  snd <$> List.find (fun e => bool_decide (e.1 = nu)) CONSENSUS_BRANCH_IDS.
Definition upgrade_from_branch_id (id : Z) : option NetworkUpgrade :=
  fst <$> List.find (fun e => e.2 =? id) CONSENSUS_BRANCH_IDS.
Definition current_branch_id (network : Network) (height : Z) : outcome (option Z) :=
  nu ← nu_current network height; Ok (branch_id nu).

(** ** Block spacing; durations in seconds *)

Definition PRE_BLOSSOM_POW_TARGET_SPACING : Z := 150.
Definition POST_BLOSSOM_POW_TARGET_SPACING : Z := 75.
Definition POW_AVERAGING_WINDOW : Z := 17.
Definition TESTNET_MINIMUM_DIFFICULTY_GAP_MULTIPLIER : Z := 6.
Definition TESTNET_MINIMUM_DIFFICULTY_START_HEIGHT : Z := 299188.
Definition TESTNET_MAX_TIME_START_HEIGHT : Z := 653606.

Definition target_spacing (nu : NetworkUpgrade) : Z :=
  match nu with
  | Genesis | BeforeOverwinter | Overwinter | Sapling => PRE_BLOSSOM_POW_TARGET_SPACING
  | Blossom | Heartwood | Canopy | Nu5 | Nu6 | Nu6_1 | Nu7 => POST_BLOSSOM_POW_TARGET_SPACING
  end.
Definition target_spacing_for_height (network : Network) (height : Z) : outcome Z :=
  nu ← nu_current network height; Ok (target_spacing nu).
Definition target_spacings (network : Network) : list (Z * Z) :=
  omap (fun '(nu, s) => (fun h => (h, s)) <$> activation_height nu network)
    [(Genesis, PRE_BLOSSOM_POW_TARGET_SPACING); (Blossom, POST_BLOSSOM_POW_TARGET_SPACING)].

Definition minimum_difficulty_spacing_for_height (network : Network) (height : Z) : outcome (option Z) :=
  match network with
  | Mainnet => Ok None
  | Testnet _ =>
      if height <? TESTNET_MINIMUM_DIFFICULTY_START_HEIGHT then Ok None
      else nu ← nu_current network height;
           Ok (Some (target_spacing nu * TESTNET_MINIMUM_DIFFICULTY_GAP_MULTIPLIER))
  end.
Definition is_testnet_min_difficulty_block (network : Network) (block_height block_time previous_block_time : Z)
    : outcome bool :=
  let block_time_gap := block_time - previous_block_time in
  gap ← minimum_difficulty_spacing_for_height network block_height;
  match gap with
  | Some min_difficulty_gap => Ok (min_difficulty_gap <? block_time_gap)
  | None => Ok false
  end.

Definition averaging_window_timespan (nu : NetworkUpgrade) : Z := target_spacing nu * POW_AVERAGING_WINDOW.
Definition averaging_window_timespan_for_height (network : Network) (height : Z) : outcome Z :=
  nu ← nu_current network height; Ok (averaging_window_timespan nu).

(** ** Other parameters of a network *)

Definition SLOW_START_INTERVAL : Z := 20000.
Definition SLOW_START_SHIFT : Z := SLOW_START_INTERVAL / 2.

Definition disable_pow (network : Network) : bool :=
  match network with Testnet p => disable_pow_ p | Mainnet => false end.
Definition slow_start_interval (network : Network) : Z :=
  match network with Testnet p => slow_start_interval_ p | Mainnet => SLOW_START_INTERVAL end.
Definition slow_start_shift (network : Network) : Z :=
  match network with Testnet p => slow_start_shift_ p | Mainnet => SLOW_START_SHIFT end.
Definition should_allow_unshielded_coinbase_spends (network : Network) : bool :=
  match network with Testnet p => should_allow_unshielded_coinbase_spends_ p | Mainnet => false end.
Definition is_max_block_time_enforced (network : Network) (height : Z) : bool :=
  match network with Mainnet => true | Testnet _ => TESTNET_MAX_TIME_START_HEIGHT <=? height end.
Definition is_a_test_network (network : Network) : bool :=
  match network with Mainnet => false | Testnet _ => true end.
Definition mandatory_checkpoint_height `{BuildProfile} (network : Network) : outcome Z :=
  h ← unwrap (activation_height Canopy network);
  expect (height_previous h).

(** ** Configured activation heights *)

Record ConfiguredActivationHeights := mkConfiguredActivationHeights {
  cfg_before_overwinter : option Z;
  cfg_overwinter : option Z;
  cfg_sapling : option Z;
  cfg_blossom : option Z;
  cfg_heartwood : option Z;
  cfg_canopy : option Z;
  cfg_nu5 : option Z;
  cfg_nu6 : option Z;
  cfg_nu6_1 : option Z;
  cfg_nu7 : option Z
}.

(** [Option::or]. *)
Definition option_or {A} (a b : option A) : option A := match a with Some _ => a | None => b end.

Definition for_regtest (c : ConfiguredActivationHeights) : ConfiguredActivationHeights :=
  let overwinter' := option_or (option_or (cfg_overwinter c) (cfg_before_overwinter c)) (Some 1) in
  let sapling' := option_or (cfg_sapling c) overwinter' in
  let blossom' := option_or (cfg_blossom c) sapling' in
  let heartwood' := option_or (cfg_heartwood c) blossom' in
  let canopy' := option_or (cfg_canopy c) heartwood' in
  mkConfiguredActivationHeights (cfg_before_overwinter c) overwinter' sapling' blossom' heartwood' canopy'
    (cfg_nu5 c) (cfg_nu6 c) (cfg_nu6_1 c) (cfg_nu7 c).

Definition configured_list (c : ConfiguredActivationHeights) : list (Z * NetworkUpgrade) :=
  omap (fun '(h, nu) => (fun h => (h, nu)) <$> h)
    [(cfg_before_overwinter c, BeforeOverwinter); (cfg_overwinter c, Overwinter); (cfg_sapling c, Sapling);
     (cfg_blossom c, Blossom); (cfg_heartwood c, Heartwood); (cfg_canopy c, Canopy); (cfg_nu5 c, Nu5);
     (cfg_nu6 c, Nu6); (cfg_nu6_1 c, Nu6_1); (cfg_nu7 c, Nu7)].

(** The loop of [with_activation_heights] over the upgrades in order. *)
Fixpoint check_upgrade_order (expected : list NetworkUpgrade) (network_upgrades : list NetworkUpgrade)
    (iter : list (Z * NetworkUpgrade)) : outcome unit :=
  match expected with
  | [] => Ok tt
  | expected_network_upgrade :: expected' =>
      if bool_decide (expected_network_upgrade ∈ network_upgrades) then
        match iter with
        | (height, network_upgrade) :: iter' =>
            _ ← assert_ (negb (height =? 0));
            _ ← assert_ (bool_decide (network_upgrade = expected_network_upgrade));
            check_upgrade_order expected' network_upgrades iter'
        | [] => check_upgrade_order expected' network_upgrades []
        end
      else check_upgrade_order expected' network_upgrades iter
  end.

(** [with_activation_heights] on a builder whose current map is [old], before
    any funding stream is set. *)
Definition with_activation_heights (old : btree NetworkUpgrade) (c : ConfiguredActivationHeights)
    : outcome (btree NetworkUpgrade) :=
  configured ← foldM (fun acc '(h, nu) => h' ← expect (height_try_from_u32 h); Ok (acc ++ [(h', nu)]))
                 [] (configured_list c);
  let activation_heights := bt_from_list configured in
  let network_upgrades := snd <$> activation_heights in
  _ ← check_upgrade_order NETWORK_UPGRADES_IN_ORDER network_upgrades activation_heights;
  Ok (bt_extend (filter (fun e => e.1 < 1) old) activation_heights).

(** ** The upgrade in force at a height *)

(** A list of activation heights every height has an upgrade in, in protocol
    order. *)
Record upgrades_wf (l : list (Z * NetworkUpgrade)) : Prop := {
  upgrades_sorted : bt_sorted l;
  upgrades_ordered : StronglySorted (fun a b => nu_lt a.2 b.2) l;
  upgrades_known : Forall (fun e => e.2 ∈ NETWORK_UPGRADES_IN_ORDER) l;
  upgrades_start : exists nu l', l = (0, nu) :: l'
}.

#[local] Instance upgrades_in_order_dec (nu : NetworkUpgrade) (l : list NetworkUpgrade) : Decision (nu ∈ l).
Proof. apply _. Defined.

Lemma next_upgrade_index nu :
  match next_upgrade nu with
  | Some nu' => nu_index nu' = S (nu_index nu)
  | None => (9 <= nu_index nu)%nat
  end.
Proof. destruct nu; vm_compute; lia || reflexivity. Qed.

Lemma known_index nu : nu ∈ NETWORK_UPGRADES_IN_ORDER -> (nu_index nu <= 9)%nat.
Proof. unfold NETWORK_UPGRADES_IN_ORDER. rewrite !elem_of_cons, elem_of_nil. intuition subst; cbn; lia. Qed.

Lemma nu_index_inj a b : nu_index a = nu_index b -> a = b.
Proof. destruct a, b; cbn; congruence. Qed.

Lemma find_upgrade_elem nu l h : find_upgrade nu l = Some h -> (h, nu) ∈ l.
Proof.
  induction l as [|[h' x] l IH]; cbn; [done|].
  case_decide; [intros [= <-]; subst; left|right; auto].
Qed.

Lemma find_upgrade_first nu l :
  StronglySorted (fun a b => nu_lt a.2 b.2) l ->
  match find_upgrade nu l with
  | Some h => fst <$> head (filter (fun e => nu_le nu e.2) l) = Some h
  | None => Forall (fun e => e.2 ≠ nu) l
  end.
Proof.
  induction 1 as [|[h x] l Hs IH Hf]; cbn [find_upgrade]; [constructor|].
  destruct (decide (x = nu)) as [->|Hne].
  { rewrite filter_cons_True; [done|]. unfold nu_le. cbn. lia. }
  destruct (find_upgrade nu l) as [h'|] eqn:E; [|constructor; done].
  rewrite filter_cons_False; [done|]. cbn.
  apply find_upgrade_elem in E. rewrite Forall_forall in Hf. specialize (Hf _ E).
  unfold nu_lt, nu_le in *. cbn in *. lia.
Qed.

(** The recursion finds the first entry of an upgrade at or after [nu]; ten
    levels reach the last upgrade. *)
Lemma activation_height_eq fuel nu l :
  StronglySorted (fun a b => nu_lt a.2 b.2) l ->
  Forall (fun e => e.2 ∈ NETWORK_UPGRADES_IN_ORDER) l ->
  (10 <= nu_index nu + fuel)%nat ->
  activation_height_fuel fuel nu l = fst <$> head (filter (fun e => nu_le nu e.2) l).
Proof.
  intros Hs Hk. revert nu. induction fuel as [|fuel IH]; intros nu Hfuel; cbn [activation_height_fuel];
    pose proof (find_upgrade_first nu l Hs) as Hf; destruct (find_upgrade nu l) as [h|]; try done.
  - rewrite filter_none; [done|]. eapply Forall_impl; [exact Hk|]. cbn.
    intros e He%known_index. unfold nu_le. lia.
  - pose proof (next_upgrade_index nu) as Hn. destruct (next_upgrade nu) as [nu'|]; cbn [mbind option_bind].
    + rewrite IH by lia. do 2 f_equal. apply list_filter_iff'. rewrite Forall_forall in Hf |- *.
      intros e He. specialize (Hf e He). unfold nu_le. rewrite Hn.
      split; [lia|]. intros ?. assert (nu_index e.2 ≠ nu_index nu) by (intros ?%nu_index_inj; done). lia.
    + rewrite filter_none; [done|]. rewrite Forall_forall in Hf, Hk |- *. intros e He.
      specialize (Hf e He). specialize (Hk e He). apply known_index in Hk. unfold nu_le. intros ?.
      apply Hf, nu_index_inj. lia.
Qed.

Lemma head_filter_first {A} (R : A -> A -> Prop) (P : A -> Prop) `{forall x, Decision (P x)} l x y :
  StronglySorted R l -> head (filter P l) = Some x -> y ∈ l -> P y -> y = x \/ R x y.
Proof.
  intros Hs (l1 & l2 & -> & Hl1)%head_filter_Some Hin HPy.
  apply StronglySorted_app_inv in Hs as (_ & Hs & _). inversion Hs as [|? ? _ Hf]; subst.
  rewrite Forall_forall in Hf, Hl1.
  apply elem_of_app in Hin as [Hin|[->|Hin]%elem_of_cons]; [by destruct (Hl1 y Hin)|auto|auto].
Qed.

(** On a network whose activation heights are well formed, every height
    has a current upgrade, and an upgrade is at or before the current one
    exactly when its activation height (its own, or that of the next
    configured upgrade when it is skipped) has been reached. *)
Theorem upgrade_active_iff network height nu :
  upgrades_wf (activation_list network) -> 0 <= height ->
  exists cur, nu_current network height = Ok cur /\
    (nu_le nu cur <-> exists h, activation_height nu network = Some h /\ h <= height).
Proof.
  intros [Hs Ho Hk (g & l' & Hstart)] Hh. unfold nu_current, activation_height.
  rewrite activation_height_eq by (done || lia). set (l := activation_list network) in *.
  destruct (last (entries_to height l)) as [[h0 cur]|] eqn:El; cycle 1.
  { apply last_None in El. unfold entries_to in El.
    rewrite Hstart, filter_cons_True in El by done. done. }
  exists cur. split; [done|].
  pose proof (last_Some_elem_of _ _ El) as [Hh0 Hin]%list_elem_of_filter. cbn in Hh0.
  apply last_filter_Some in El as (l1 & l2 & El & Hl2). split.
  - intros Hle. destruct (head (filter _ l)) as [[h x]|] eqn:Eh.
    + exists h. split; [done|].
      destruct (head_filter_first _ _ _ _ (h0, cur) Hs Eh Hin Hle) as [[= -> ->]|Hlt]; [done|].
      cbn in Hlt. lia.
    + apply head_None in Eh. exfalso. eapply (filter_nil_not_elem_of _ _ (h0, cur)); eauto.
  - intros (h & Eh & Hle). destruct (head (filter _ l)) as [[h' x]|] eqn:Ef; [|done].
    injection Eh as ->. apply head_filter_elem in Ef as [Hnu Hx]. rewrite El in Hx, Ho.
    apply elem_of_app in Hx as [Hx|[[= -> ->]|Hx]%elem_of_cons].
    + apply StronglySorted_app_inv in Ho as (_ & _ & Hc).
      specialize (Hc _ (h0, cur) Hx (list_elem_of_here _ _)). unfold nu_lt, nu_le in *. cbn in *. lia.
    + done.
    + rewrite Forall_forall in Hl2. destruct (Hl2 _ Hx). done.
Qed.

(** ** Networks built from a configuration *)

Lemma bt_from_list_sorted {V} (l : list (Z * V)) : bt_sorted (bt_from_list l).
Proof.
  unfold bt_from_list. assert (Hs : bt_sorted ([] : btree V)) by constructor.
  revert Hs. generalize (@nil (Z * V)). induction l as [|e l IH]; cbn; intros m Hs; auto.
Qed.

Lemma bt_from_list_elem {V} (l : list (Z * V)) e : e ∈ bt_from_list l -> e ∈ l.
Proof.
  unfold bt_from_list. assert (Hs : bt_sorted ([] : btree V)) by constructor.
  cut (e ∈ foldl (fun m e => bt_insert e.1 e.2 m) [] l -> e ∈ [] \/ e ∈ l).
  { intros H He. destruct (H He) as [Hn|]; [by apply not_elem_of_nil in Hn|done]. }
  revert Hs. generalize (@nil (Z * V)).
  induction l as [|[k v] l IH]; cbn [foldl]; intros m Hs Hin; [by left|].
  destruct (IH _ (bt_insert_sorted k v m Hs) Hin) as [Hin'|]; [|by right; right].
  apply (bt_insert_elem k v m e Hs) in Hin' as [->|[? _]]; [right; left|by left].
Qed.

(** A configuration in protocol order cannot name an upgrade twice. *)
Lemma bt_from_list_values (l : list (Z * NetworkUpgrade)) :
  NoDup l.*2 -> NoDup (bt_from_list l).*2.
Proof.
  intros Hnd. pose proof (bt_from_list_sorted l) as Hs.
  assert (forall e, e ∈ bt_from_list l -> e ∈ l) as Hin by apply bt_from_list_elem.
  revert Hs Hin. generalize (bt_from_list l) as m. induction m as [|[k v] m IH]; cbn; [constructor|].
  intros [Hs Hf]%bt_sorted_cons Hin. constructor; [|apply IH; [done|]; intros e He; apply Hin; by right].
  intros ([k' v'] & Heq & Hm)%list_elem_of_fmap. cbn in Heq. subst v'.
  rewrite Forall_forall in Hf. specialize (Hf _ Hm). cbn in Hf.
  pose proof (Hin _ (list_elem_of_here _ _)) as H1. pose proof (Hin _ (list_elem_of_further _ _ _ Hm)) as H2.
  apply list_elem_of_lookup in H1 as [i Hi]. apply list_elem_of_lookup in H2 as [j Hj].
  assert (i = j) as <-.
  { apply (proj1 (NoDup_alt _) Hnd i j v); rewrite list_lookup_fmap, ?Hi, ?Hj; done. }
  rewrite Hi in Hj. injection Hj. lia.
Qed.

(** The check of the order covers the upgrades that it loops over, which come
    before the others. *)
Lemma check_upgrade_order_sound expected others nus iter :
  StronglySorted nu_lt expected -> NoDup iter.*2 -> iter.*2 ⊆ nus -> iter.*2 ⊆ expected ++ others ->
  check_upgrade_order expected nus iter = Ok tt ->
  exists checked last, iter = checked ++ last /\ StronglySorted (fun a b => nu_lt a.2 b.2) checked
    /\ Forall (fun e => e.1 ≠ 0) checked /\ checked.*2 ⊆ expected /\ last.*2 ⊆ others.
Proof.
  intros Hs. revert iter. induction Hs as [|e expected Hs IH Hf]; intros iter Hnd Hnus Hexp.
  { intros _. exists [], iter. split_and!; [done|repeat constructor|repeat constructor|done|done]. }
  cbn [check_upgrade_order]. case_bool_decide as Hin.
  - destruct iter as [|[h nu] iter].
    { intros _. exists [], []. split_and!; [done|repeat constructor|repeat constructor|set_solver|set_solver]. }
    intros Hc. destruct (Z.eqb_spec h 0); [done|]. cbn in Hc. case_bool_decide; [|done]. subst nu.
    cbn in Hc, Hnd, Hnus, Hexp. apply NoDup_cons in Hnd as [Hni Hnd].
    assert (iter.*2 ⊆ expected ++ others) as Hexp'.
    { intros x Hx. pose proof (Hexp x (list_elem_of_further _ _ _ Hx)) as [->|]%elem_of_cons; done. }
    destruct (IH iter Hnd) as (checked & last & -> & Hs' & Hz & Hk & Hl); [set_solver|done|done|].
    exists ((h, e) :: checked), last. split_and!; [done| |by constructor|set_solver|done].
    constructor; [done|]. apply Forall_forall. intros x Hx. rewrite Forall_forall in Hf. cbn.
    apply Hf, Hk, list_elem_of_fmap. by exists x.
  - intros Hc. destruct (IH iter Hnd Hnus) as (checked & last & -> & Hs' & Hz & Hk & Hl); [|done|].
    { intros x Hx. pose proof (Hexp x Hx) as [->|]%elem_of_cons; [|done]. by destruct Hin; apply Hnus. }
    exists checked, last. split_and!; try done. set_solver.
Qed.

Lemma configured_sublist (l : list (option Z * NetworkUpgrade)) :
  (omap (fun '(h, nu) => (fun h => (h, nu)) <$> h) l : list (Z * NetworkUpgrade)).*2 `sublist_of` l.*2.
Proof. induction l as [|[[h|] nu] l IH]; cbn; [constructor|by constructor|by constructor]. Qed.

Definition nu7_entry (c : ConfiguredActivationHeights) : list (Z * NetworkUpgrade) :=
  match cfg_nu7 c with Some h => [(h, Nu7)] | None => [] end.
Lemma configured_list_nu7 c : exists l, configured_list c = l ++ nu7_entry c /\ l.*2 ⊆ tail NETWORK_UPGRADES_IN_ORDER.
Proof.
  set (known := [(cfg_before_overwinter c, BeforeOverwinter); (cfg_overwinter c, Overwinter); (cfg_sapling c, Sapling);
    (cfg_blossom c, Blossom); (cfg_heartwood c, Heartwood); (cfg_canopy c, Canopy); (cfg_nu5 c, Nu5);
    (cfg_nu6 c, Nu6); (cfg_nu6_1 c, Nu6_1)]).
  exists (omap (fun '(h, nu) => (fun h => (h, nu)) <$> h) known). split.
  - unfold configured_list. change (_ :: _) with (known ++ [(cfg_nu7 c, Nu7)]). rewrite omap_app. unfold nu7_entry. by destruct (cfg_nu7 c).
  - intros x Hx. change (tail NETWORK_UPGRADES_IN_ORDER) with (known.*2).
    eapply elem_of_submseteq; [exact Hx|apply sublist_submseteq, configured_sublist].
Qed.
Lemma nu7_not_listed : Nu7 ∉ NETWORK_UPGRADES_IN_ORDER.
Proof. apply (bool_decide_unpack _). vm_compute. exact I. Qed.
Lemma configured_list_NoDup c : NoDup (configured_list c).*2.
Proof.
  unfold configured_list. eapply sublist_NoDup; [|apply configured_sublist]. cbn. apply (bool_decide_unpack _). vm_compute. exact I.
Qed.

(** The map of the configured heights, when its order is accepted: upgrades in
    order at later heights than 0, then NU7 if it is configured. *)
Lemma configured_map_accepted c :
  let m := bt_from_list (configured_list c) in
  check_upgrade_order NETWORK_UPGRADES_IN_ORDER m.*2 m = Ok tt ->
  exists known, m = known ++ nu7_entry c /\ StronglySorted (fun a b => nu_lt a.2 b.2) known
    /\ Forall (fun e => e.1 ≠ 0) known /\ known.*2 ⊆ tail NETWORK_UPGRADES_IN_ORDER.
Proof.
  intros m Hc. destruct (configured_list_nu7 c) as (l & El & Hl).
  assert (m.*2 ⊆ tail NETWORK_UPGRADES_IN_ORDER ++ (nu7_entry c).*2) as Hm.
  { intros x (e & -> & He%bt_from_list_elem)%list_elem_of_fmap. rewrite El in He. apply elem_of_app in He as [He|He]; apply elem_of_app.
    - left. by apply Hl, list_elem_of_fmap_2.
    - right. by apply list_elem_of_fmap_2. }
  assert (nu7_entry c ⊆ m) as H7.
  { intros e He. unfold m. rewrite El. unfold bt_from_list. unfold nu7_entry in *. destruct (cfg_nu7 c) as [h|]; [|by apply not_elem_of_nil in He].
    apply list_elem_of_singleton in He as ->. rewrite foldl_app. cbn [foldl fst snd]. apply bt_insert_elem; [apply (bt_from_list_sorted l)|by left]. }
  pose proof (bt_from_list_values _ (configured_list_NoDup c)) as Hnd. fold m in Hnd.
  apply (check_upgrade_order_sound _ (nu7_entry c).*2) in Hc as (known & last & E & Ho & Hz & Hk & H7');
    [|repeat constructor|done|done|by intros x Hx; right; apply Hm].
  assert (known.*2 ⊆ tail NETWORK_UPGRADES_IN_ORDER) as Hk'.
  { intros x Hx. assert (x ∈ m.*2) as Hx' by (rewrite E, fmap_app; apply elem_of_app; by left).
    apply Hm, elem_of_app in Hx' as [|Hx']; [done|]. apply Hk in Hx. unfold nu7_entry in Hx'.
    destruct (cfg_nu7 c); [|by apply not_elem_of_nil in Hx']. apply list_elem_of_singleton in Hx' as ->. by destruct nu7_not_listed. }
  exists known. split; [|done]. rewrite E. f_equal. rewrite E in H7, Hnd. clear -H7 H7' Hnd Hk. unfold nu7_entry in *.
  destruct (cfg_nu7 c) as [h|]; cbn in H7'.
  - specialize (H7 (h, Nu7) (list_elem_of_here _ _)). apply elem_of_app in H7 as [H7|H7].
    { destruct nu7_not_listed. exact (Hk _ (list_elem_of_fmap_2 snd _ _ H7)). }
    rewrite fmap_app in Hnd. apply NoDup_app in Hnd as (_ & _ & Hnd). destruct last as [|[h1 n1] [|[h2 n2] last]]; cbn in *.
    + by apply not_elem_of_nil in H7.
    + by apply list_elem_of_singleton in H7 as ->.
    + assert (n1 = Nu7 /\ n2 = Nu7) as [-> ->].
      { split; apply list_elem_of_singleton, H7'; [left|right; left]. }
      apply NoDup_cons in Hnd as [Hnd _]. destruct Hnd. left.
  - destruct last as [|e last]; [done|]. exfalso. apply (not_elem_of_nil e.2), H7'. left.
Qed.

Lemma collect_heights_Ok (l acc r : list (Z * NetworkUpgrade)) :
  foldM (fun acc '(h, nu) => h' ← expect (height_try_from_u32 h); Ok (acc ++ [(h', nu)])) acc l
    = Ok (E := Empty_set) r ->
  r = acc ++ l.
Proof.
  revert acc. induction l as [|[h nu] l IH]; cbn [foldM]; intros acc.
  { intros H. inv_res. by rewrite app_nil_r. }
  unfold height_try_from_u32. destruct (h <=? Height_MAX); cbn; [|done].
  intros ->%IH. by rewrite <- app_assoc.
Qed.

Lemma bt_extend_after {V} (m1 m2 : btree V) : bt_sorted (m1 ++ m2) -> bt_extend m1 m2 = m1 ++ m2.
Proof.
  unfold bt_extend. revert m1. induction m2 as [|[k v] m2 IH]; intros m1 Hs; cbn [foldl].
  { by rewrite app_nil_r. }
  rewrite bt_insert_last.
  - rewrite IH; rewrite <- app_assoc; done.
  - intros e He. apply bt_sorted_app in Hs as (_ & _ & Hc). apply (Hc e (k, v) He). left.
Qed.

(** Genesis before such a map. *)
Lemma accepted_heights known c :
  bt_sorted (known ++ nu7_entry c) -> Forall (fun e => 0 <= e.1) (known ++ nu7_entry c) ->
  StronglySorted (fun a b => nu_lt a.2 b.2) known -> Forall (fun e => e.1 ≠ 0) known -> known.*2 ⊆ tail NETWORK_UPGRADES_IN_ORDER ->
  let l := (0, Genesis) :: known ++ nu7_entry c in
  (cfg_nu7 c = Some 0 /\ known = [] /\ nu7_entry c = [(0, Nu7)])
  \/ (cfg_nu7 c <> Some 0 /\ bt_sorted l /\ StronglySorted (fun a b => nu_lt a.2 b.2) l /\ (cfg_nu7 c = None -> upgrades_wf l)).
Proof.
  intros Hs Hm Ho Hz Hk l. rewrite Forall_app in Hm. destruct Hm as [Hm1 Hm2].
  assert (forall e, e ∈ known -> 0 < e.1 /\ (0 < nu_index e.2 <= 9)%nat) as Hin.
  { intros e He. rewrite Forall_forall in Hm1, Hz. specialize (Hm1 e He). specialize (Hz e He). split; [lia|].
    pose proof (Hk _ (list_elem_of_fmap_2 snd _ _ He)) as Hx. cbn in Hx. destruct e.2; cbn; lia || (exfalso; set_solver). }
  destruct (decide (cfg_nu7 c = Some 0)) as [H7|H7]; [left|right].
  { unfold nu7_entry in *. rewrite H7 in *. split_and!; [done| |done]. destruct known as [|e known]; [done|].
    apply bt_sorted_app in Hs as (_ & _ & Hc). specialize (Hc e (0, Nu7) (list_elem_of_here _ _) (list_elem_of_here _ _)).
    destruct (Hin e (list_elem_of_here _ _)). cbn in Hc. lia. }
  assert (forall e, e ∈ nu7_entry c -> 0 < e.1 /\ e.2 = Nu7) as Hin7.
  { unfold nu7_entry in *. destruct (cfg_nu7 c) as [h|]; intros e He; [|by apply not_elem_of_nil in He].
    apply list_elem_of_singleton in He as ->. rewrite Forall_singleton in Hm2. cbn in *. split; [|done]. destruct (decide (h = 0)); [congruence|lia]. }
  assert (bt_sorted l) as Hsl.
  { apply bt_sorted_cons. split; [done|]. apply Forall_forall. intros e [He|He]%elem_of_app; cbn; [by apply Hin|by apply Hin7]. }
  assert (StronglySorted (fun a b => nu_lt a.2 b.2) l) as Hol.
  { constructor.
    - apply StronglySorted_app. split; [|split; [done|]].
      + intros e e' He He'. unfold nu_lt. destruct (Hin7 e' He') as [_ ->]. pose proof (Hin e He). cbn. lia.
      + unfold nu7_entry. destruct (cfg_nu7 c); repeat constructor.
    - apply Forall_forall. unfold nu_lt. intros e [He|He]%elem_of_app; cbn; [by apply Hin|]. destruct (Hin7 e He) as [_ ->]. cbn. lia. }
  split_and!; [done..|]. intros Hn. split; [done|done| |eauto].
  unfold l, nu7_entry. rewrite Hn, app_nil_r. constructor; [left|]. apply Forall_forall. intros e He. right. by apply Hk, list_elem_of_fmap_2.
Qed.

(** C39. The activation heights that [with_activation_heights] accepts, on a
    builder that starts with Genesis at height 0. Unless NU7 is configured at
    height 0, they are Genesis at height 0 and then upgrades at later heights that
    they were configured with, in protocol order, NU7 last; without NU7 they are
    well formed. With NU7 at height 0 the configuration is accepted only when
    nothing else is in its map, and NU7 then replaces Genesis. *)
Theorem with_activation_heights_wf rest c l :
  bt_sorted ((0, Genesis) :: rest) -> Forall (fun h => 0 <= h) (configured_list c).*1 ->
  with_activation_heights ((0, Genesis) :: rest) c = Ok l ->
  match cfg_nu7 c with
  | Some 0 => l = [(0, Nu7)]
  | _ => exists l', l = (0, Genesis) :: l' /\ l' ⊆ configured_list c /\ bt_sorted l /\ StronglySorted (fun a b => nu_lt a.2 b.2) l
           /\ (cfg_nu7 c = None -> upgrades_wf l)
  end.
Proof.
  intros [_ Hrest]%bt_sorted_cons Hpos. unfold with_activation_heights. intros Hw.
  apply bind_Ok_inv in Hw as (conf & Hconf & Hw). apply collect_heights_Ok in Hconf as ->. cbn [app] in Hw.
  apply bind_Ok_inv in Hw as ([] & (known & E & Ho & Hz & Hk)%configured_map_accepted & Hw).
  rewrite filter_cons_True, filter_none in Hw by (cbn; lia || (eapply Forall_impl; [exact Hrest|]; cbn; lia)).
  pose proof (bt_from_list_sorted (configured_list c)) as Hs.
  assert (bt_from_list (configured_list c) ⊆ configured_list c) as Hsub by (intros e; apply bt_from_list_elem).
  rewrite E in Hs, Hsub, Hw. clear E Hrest.
  assert (Forall (fun e => 0 <= e.1) (known ++ nu7_entry c)) as Hm.
  { apply Forall_forall. intros e He. rewrite Forall_forall in Hpos. by apply Hpos, list_elem_of_fmap_2, Hsub. }
  destruct (accepted_heights known c Hs Hm Ho Hz Hk) as [(H7 & -> & E)|(H7 & Hs0 & Ho0 & Hwf)].
  - rewrite H7. rewrite E in Hw. by inv_res.
  - rewrite (bt_extend_after [(0, Genesis)] (known ++ nu7_entry c) Hs0) in Hw. inv_res.
    destruct (cfg_nu7 c) as [[]|] eqn:E; [done|..]; exists (known ++ nu7_entry c); unfold nu7_entry in *; rewrite E in *; done.
Qed.

Definition example_configuration : ConfiguredActivationHeights :=
  mkConfiguredActivationHeights None (Some 1) (Some 1) None None (Some 10) (Some 20) (Some 20) None None.

Lemma with_activation_heights_wf_witness :
  upgrades_wf [(0, Genesis); (1, Sapling); (10, Canopy); (20, Nu6)]
  /\ with_activation_heights [(0, Genesis)] (mkConfiguredActivationHeights None None None None None None None None None (Some 0))
     = Ok [(0, Nu7)].
Proof.
  split.
  - destruct (with_activation_heights_wf [(1, Nu6)] example_configuration [(0, Genesis); (1, Sapling); (10, Canopy); (20, Nu6)])
      as (l' & _ & _ & _ & _ & Hwf).
    + repeat constructor.
    + repeat (constructor; [cbn; lia|]). constructor.
    + vm_compute. reflexivity.
    + exact (Hwf eq_refl).
  - assert (exists l, with_activation_heights [(0, Genesis)] (mkConfiguredActivationHeights None None None None None None None None None (Some 0))
             = Ok l) as (l & E) by (eexists; reflexivity).
    rewrite E. f_equal. refine (with_activation_heights_wf [] _ l _ _ E); [repeat constructor|]. constructor; [cbn; lia|constructor].
Defined.

Lemma mainnet_upgrades_wf : upgrades_wf MAINNET_ACTIVATION_HEIGHTS.
Proof.
  split.
  - repeat (constructor; [|repeat (constructor; [cbn; lia|]); constructor]). constructor.
  - repeat (constructor; [|repeat (constructor; [unfold nu_lt; cbn; lia|]); constructor]). constructor.
  - repeat (constructor; [apply (bool_decide_unpack _); vm_compute; exact I|]). constructor.
  - unfold MAINNET_ACTIVATION_HEIGHTS. eauto.
Qed.

Lemma upgrade_active_iff_witness :
  exists cur, nu_current Mainnet 1700000 = Ok cur /\
    (nu_le Canopy cur <-> exists h, activation_height Canopy Mainnet = Some h /\ h <= 1700000).
Proof. apply (upgrade_active_iff Mainnet 1700000 Canopy); [apply mainnet_upgrades_wf|lia]. Defined.

