(* ===== verification/Subsidy.v ===== *)
(** Block subsidies, funding streams and the parameters of test networks
    ([zebra-chain/src/parameters/network/subsidy.rs], [network/testnet.rs],
    [parameters/network.rs] and
    [zebra-consensus/src/block/subsidy/funding_streams.rs]).

    The hex text of a genesis hash is decoded by a third-party crate; hashes are
    given decoded. The checks on the characters of a configured network name
    are left out, and so are the address extensions that only exist in test
    builds. *)
From S2P Require Import Prelude BTreeMap Height Amount Difficulty FundingStreams NetworkUpgrade.
From stdpp Require Import prelude strings gmap.
From Stdlib Require Import ZArith Lia.
#[local] Open Scope Z_scope.

(** ** Constants *)

Definition MAX_BLOCK_SUBSIDY : Z := 25 * COIN / 2.
Definition BLOSSOM_POW_TARGET_SPACING_RATIO : Z := 2.
Definition PRE_BLOSSOM_HALVING_INTERVAL : Z := 840000.
Definition POST_BLOSSOM_HALVING_INTERVAL : Z := PRE_BLOSSOM_HALVING_INTERVAL * BLOSSOM_POW_TARGET_SPACING_RATIO.
Definition FIRST_HALVING_TESTNET : Z := 1116000.
Definition FIRST_HALVING_REGTEST : Z := 287.
Definition FUNDING_STREAM_ADDRESS_CHANGE_INTERVAL : Z := POST_BLOSSOM_HALVING_INTERVAL / 48.

Definition EXPECTED_NU6_1_LOCKBOX_DISBURSEMENTS_TOTAL_MAINNET : Z := 78750 * COIN.
Definition EXPECTED_NU6_1_LOCKBOX_DISBURSEMENTS_TOTAL_TESTNET : Z := 78750 * COIN.
Definition NU6_1_LOCKBOX_DISBURSEMENTS_MAINNET : list (string * Z) := [].
Definition NU6_1_LOCKBOX_DISBURSEMENTS_TESTNET : list (string * Z) :=
  replicate 10 ("t2RnBRiqrN1nW4ecZs1Fj3WWjNdnSs4kiX8", EXPECTED_NU6_1_LOCKBOX_DISBURSEMENTS_TOTAL_TESTNET / 10).

Definition MAGIC_MAINNET : bytes := [Byte.x24; Byte.xe9; Byte.x27; Byte.x64].
Definition MAGIC_TESTNET : bytes := [Byte.xfa; Byte.x1a; Byte.xf9; Byte.xbf].
Definition MAGIC_REGTEST : bytes := [Byte.xaa; Byte.xe8; Byte.x3f; Byte.x5f].

(** Block hashes are displayed in the reverse byte order. *)
Definition REGTEST_GENESIS_HASH : bytes :=
  le_bytes 32 0x029f11d80ef9765602235e1bc9727e3eb6ba20839319f761fee920d63401e327.
Definition TESTNET_GENESIS_HASH : bytes :=
  le_bytes 32 0x05a60a92d99d85997cce3b87616c089f6124d7342af37106edc76126334a2c38.
Definition PRE_BLOSSOM_REGTEST_HALVING_INTERVAL : Z := 144.

(** ** The builder of test network parameters *)

Record ParametersBuilder := mkParametersBuilder {
  b_network_name : string;
  b_network_magic : bytes;
  b_genesis_hash : bytes;
  b_activation_heights : btree NetworkUpgrade;
  b_slow_start_interval : Z;
  b_funding_streams : list FundingStreams;
  b_should_lock_funding_stream_address_period : bool;
  b_target_difficulty_limit : Z;
  b_disable_pow : bool;
  b_should_allow_unshielded_coinbase_spends : bool;
  b_pre_blossom_halving_interval : Z;
  b_post_blossom_halving_interval : Z;
  b_lockbox_disbursements : list (string * Z)
}.

(** [limit.to_compact().to_expanded().expect(..)]. *)
Definition rounded_limit (limit : Z) : outcome Z :=
  c ← to_compact limit; e ← to_expanded c; unwrap e.

Definition with_network_magic (network_magic : bytes) (b : ParametersBuilder) : outcome ParametersBuilder :=
  _ ← assert_ (forallb (fun reserved => negb (bool_decide (network_magic = reserved))) [MAGIC_MAINNET; MAGIC_REGTEST]);
  Ok (mkParametersBuilder (b_network_name b) network_magic (b_genesis_hash b) (b_activation_heights b)
        (b_slow_start_interval b) (b_funding_streams b) (b_should_lock_funding_stream_address_period b)
        (b_target_difficulty_limit b) (b_disable_pow b) (b_should_allow_unshielded_coinbase_spends b)
        (b_pre_blossom_halving_interval b) (b_post_blossom_halving_interval b) (b_lockbox_disbursements b)).

Definition with_genesis_hash (genesis_hash : bytes) (b : ParametersBuilder) : ParametersBuilder :=
  mkParametersBuilder (b_network_name b) (b_network_magic b) genesis_hash (b_activation_heights b)
    (b_slow_start_interval b) (b_funding_streams b) (b_should_lock_funding_stream_address_period b)
    (b_target_difficulty_limit b) (b_disable_pow b) (b_should_allow_unshielded_coinbase_spends b)
    (b_pre_blossom_halving_interval b) (b_post_blossom_halving_interval b) (b_lockbox_disbursements b).

Definition builder_with_activation_heights (c : ConfiguredActivationHeights) (b : ParametersBuilder)
    : outcome ParametersBuilder :=
  if b_should_lock_funding_stream_address_period b then Panic
  else
    activation_heights ← with_activation_heights (b_activation_heights b) c;
    Ok (mkParametersBuilder (b_network_name b) (b_network_magic b) (b_genesis_hash b) activation_heights
          (b_slow_start_interval b) (b_funding_streams b) (b_should_lock_funding_stream_address_period b)
          (b_target_difficulty_limit b) (b_disable_pow b) (b_should_allow_unshielded_coinbase_spends b)
          (b_pre_blossom_halving_interval b) (b_post_blossom_halving_interval b) (b_lockbox_disbursements b)).

Definition with_slow_start_interval (slow_start_interval : Z) (b : ParametersBuilder) : ParametersBuilder :=
  mkParametersBuilder (b_network_name b) (b_network_magic b) (b_genesis_hash b) (b_activation_heights b)
    slow_start_interval (b_funding_streams b) (b_should_lock_funding_stream_address_period b)
    (b_target_difficulty_limit b) (b_disable_pow b) (b_should_allow_unshielded_coinbase_spends b)
    (b_pre_blossom_halving_interval b) (b_post_blossom_halving_interval b) (b_lockbox_disbursements b).

Definition with_target_difficulty_limit (limit : Z) (b : ParametersBuilder) : outcome ParametersBuilder :=
  limit ← rounded_limit limit;
  Ok (mkParametersBuilder (b_network_name b) (b_network_magic b) (b_genesis_hash b) (b_activation_heights b)
        (b_slow_start_interval b) (b_funding_streams b) (b_should_lock_funding_stream_address_period b)
        limit (b_disable_pow b) (b_should_allow_unshielded_coinbase_spends b)
        (b_pre_blossom_halving_interval b) (b_post_blossom_halving_interval b) (b_lockbox_disbursements b)).

Definition with_disable_pow (disable_pow : bool) (b : ParametersBuilder) : ParametersBuilder :=
  mkParametersBuilder (b_network_name b) (b_network_magic b) (b_genesis_hash b) (b_activation_heights b)
    (b_slow_start_interval b) (b_funding_streams b) (b_should_lock_funding_stream_address_period b)
    (b_target_difficulty_limit b) disable_pow (b_should_allow_unshielded_coinbase_spends b)
    (b_pre_blossom_halving_interval b) (b_post_blossom_halving_interval b) (b_lockbox_disbursements b).

Definition with_unshielded_coinbase_spends (allow : bool) (b : ParametersBuilder) : ParametersBuilder :=
  mkParametersBuilder (b_network_name b) (b_network_magic b) (b_genesis_hash b) (b_activation_heights b)
    (b_slow_start_interval b) (b_funding_streams b) (b_should_lock_funding_stream_address_period b)
    (b_target_difficulty_limit b) (b_disable_pow b) allow
    (b_pre_blossom_halving_interval b) (b_post_blossom_halving_interval b) (b_lockbox_disbursements b).

Definition with_halving_interval `{BuildProfile} (interval : Z) (b : ParametersBuilder) : outcome ParametersBuilder :=
  if b_should_lock_funding_stream_address_period b then Panic
  else
    post ← arith_i 64 (interval * BLOSSOM_POW_TARGET_SPACING_RATIO);
    Ok (mkParametersBuilder (b_network_name b) (b_network_magic b) (b_genesis_hash b) (b_activation_heights b)
          (b_slow_start_interval b) (b_funding_streams b) (b_should_lock_funding_stream_address_period b)
          (b_target_difficulty_limit b) (b_disable_pow b) (b_should_allow_unshielded_coinbase_spends b)
          interval post (b_lockbox_disbursements b)).

(** The configured disbursements are pairs of an address text and an amount. *)
Definition with_lockbox_disbursements (l : list (string * Z)) (b : ParametersBuilder) : ParametersBuilder :=
  mkParametersBuilder (b_network_name b) (b_network_magic b) (b_genesis_hash b) (b_activation_heights b)
    (b_slow_start_interval b) (b_funding_streams b) (b_should_lock_funding_stream_address_period b)
    (b_target_difficulty_limit b) (b_disable_pow b) (b_should_allow_unshielded_coinbase_spends b)
    (b_pre_blossom_halving_interval b) (b_post_blossom_halving_interval b) l.

Definition clear_funding_streams (b : ParametersBuilder) : ParametersBuilder :=
  mkParametersBuilder (b_network_name b) (b_network_magic b) (b_genesis_hash b) (b_activation_heights b)
    (b_slow_start_interval b) [] (b_should_lock_funding_stream_address_period b)
    (b_target_difficulty_limit b) (b_disable_pow b) (b_should_allow_unshielded_coinbase_spends b)
    (b_pre_blossom_halving_interval b) (b_post_blossom_halving_interval b) (b_lockbox_disbursements b).

Definition finish (b : ParametersBuilder) : Parameters :=
  mkParameters (b_network_name b) (b_network_magic b) (b_genesis_hash b) (b_activation_heights b)
    (b_slow_start_interval b) (b_slow_start_interval b / 2) (b_funding_streams b)
    (b_target_difficulty_limit b) (b_disable_pow b) (b_should_allow_unshielded_coinbase_spends b)
    (b_pre_blossom_halving_interval b) (b_post_blossom_halving_interval b) (b_lockbox_disbursements b).

Definition to_network_unchecked (b : ParametersBuilder) : Network := Testnet (finish b).

(** [Parameters { network_name, network_magic, ..params }]. *)
Definition with_name_and_magic (name : string) (magic : bytes) (p : Parameters) : Parameters :=
  mkParameters name magic (genesis_hash_ p) (activation_heights p) (slow_start_interval_ p) (slow_start_shift_ p)
    (funding_streams_ p) (target_difficulty_limit_ p) (disable_pow_ p)
    (should_allow_unshielded_coinbase_spends_ p) (pre_blossom_halving_interval_ p)
    (post_blossom_halving_interval_ p) (lockbox_disbursements_ p).

(** ** Configured funding streams *)

Record ConfiguredFundingStreamRecipient := mkConfiguredFundingStreamRecipient {
  cfg_receiver : FundingStreamReceiver;
  cfg_numerator : Z;
  cfg_addresses : option (list string)
}.
Record ConfiguredFundingStreams := mkConfiguredFundingStreams {
  cfg_height_range : option (Z * Z);
  cfg_recipients : option (list ConfiguredFundingStreamRecipient)
}.
Record RegtestParameters := mkRegtestParameters {
  regtest_activation_heights : ConfiguredActivationHeights;
  regtest_funding_streams : option (list ConfiguredFundingStreams)
}.
Definition ConfiguredActivationHeights_default : ConfiguredActivationHeights :=
  mkConfiguredActivationHeights None None None None None None None None None None.

(** The conversions of a configured stream that the builder calls. *)
Abbreviation StreamConverter :=
  (ConfiguredFundingStreams -> option FundingStreams -> ParametersBuilder -> outcome FundingStreams).

Section Networks.
Context `{BuildProfile} `{AddressParser}.

Definition into_recipient (c : ConfiguredFundingStreamRecipient)
    : outcome (FundingStreamReceiver * FundingStreamRecipient) :=
  r ← FundingStreamRecipient_new (cfg_numerator c) (default [] (cfg_addresses c));
  Ok (cfg_receiver c, r).

(** [collect] into a [HashMap]: a later entry replaces an earlier one. *)
Definition collect_recipients (l : list ConfiguredFundingStreamRecipient)
    : outcome (gmap FundingStreamReceiver FundingStreamRecipient) :=
  foldM (fun m c => e ← into_recipient c; Ok (<[e.1 := e.2]> m)) ∅ l.

Definition into_funding_streams_unchecked (c : ConfiguredFundingStreams) : outcome FundingStreams :=
  height_range ← unwrap (cfg_height_range c);
  recipients ← collect_recipients (default [] (cfg_recipients c));
  Ok (mkFundingStreams height_range recipients).

(** [ParametersBuilder::default]. *)
Definition Parameters_build : outcome ParametersBuilder :=
  limit ← rounded_limit (Z.shiftl 1 251 - 1);
  funding_streams ← FUNDING_STREAMS_TESTNET;
  Ok (mkParametersBuilder "UnknownTestnet" MAGIC_TESTNET TESTNET_GENESIS_HASH
        (bt_from_list TESTNET_ACTIVATION_HEIGHTS) SLOW_START_INTERVAL funding_streams false limit false false
        PRE_BLOSSOM_HALVING_INTERVAL POST_BLOSSOM_HALVING_INTERVAL NU6_1_LOCKBOX_DISBURSEMENTS_TESTNET).

(** [Parameters::default]. *)
Definition Parameters_default : outcome Parameters :=
  b ← Parameters_build;
  Ok (with_name_and_magic "Testnet" (b_network_magic b) (finish b)).

Definition is_default_testnet (p : Parameters) : outcome bool :=
  d ← Parameters_default; Ok (bool_decide (p = d)).

(** [with_funding_streams] and [new_regtest], given the conversion of a
    configured stream. The conversion looks at the network being built, and so
    at [is_regtest], which builds a Regtest network without streams: for it no
    conversion runs. *)
Definition with_funding_streams_by (convert : StreamConverter) (l : list ConfiguredFundingStreams)
    (b : ParametersBuilder) : outcome ParametersBuilder :=
  funding_streams ← map_res (fun '(idx, streams) =>
                               defaults ← FUNDING_STREAMS_TESTNET;
                               convert streams (defaults !! idx) b)
                      (imap pair l);
  Ok (mkParametersBuilder (b_network_name b) (b_network_magic b) (b_genesis_hash b) (b_activation_heights b)
        (b_slow_start_interval b) funding_streams true
        (b_target_difficulty_limit b) (b_disable_pow b) (b_should_allow_unshielded_coinbase_spends b)
        (b_pre_blossom_halving_interval b) (b_post_blossom_halving_interval b) (b_lockbox_disbursements b)).

(** The limit is thirty-two bytes 0x0f. *)
Definition new_regtest_by (convert : StreamConverter) (p : RegtestParameters) : outcome Parameters :=
  b ← Parameters_build;
  b ← with_target_difficulty_limit (be_value (replicate 32 Byte.x0f)) (with_genesis_hash REGTEST_GENESIS_HASH b);
  b ← builder_with_activation_heights (for_regtest (regtest_activation_heights p))
        (with_slow_start_interval Height_MIN (with_unshielded_coinbase_spends true (with_disable_pow true b)));
  b ← with_halving_interval PRE_BLOSSOM_REGTEST_HALVING_INTERVAL b;
  b ← with_funding_streams_by convert (default [] (regtest_funding_streams p)) b;
  Ok (with_name_and_magic "Regtest" MAGIC_REGTEST (finish (with_lockbox_disbursements [] b))).

Definition is_regtest (p : Parameters) : outcome bool :=
  if negb (bool_decide (network_magic_ p = MAGIC_REGTEST)) then Ok false
  else
    d ← new_regtest_by (fun _ _ _ => Panic) (mkRegtestParameters ConfiguredActivationHeights_default None);
    Ok (bool_decide (network_name_ p = network_name_ d)
        && bool_decide (genesis_hash_ p = genesis_hash_ d)
        && (slow_start_interval_ p =? slow_start_interval_ d)
        && (slow_start_shift_ p =? slow_start_shift_ d)
        && (target_difficulty_limit_ p =? target_difficulty_limit_ d)
        && Bool.eqb (disable_pow_ p) (disable_pow_ d)
        && Bool.eqb (should_allow_unshielded_coinbase_spends_ p) (should_allow_unshielded_coinbase_spends_ d)
        && (pre_blossom_halving_interval_ p =? pre_blossom_halving_interval_ d)
        && (post_blossom_halving_interval_ p =? post_blossom_halving_interval_ d)
        && bool_decide (lockbox_disbursements_ p = lockbox_disbursements_ d)).

(** [is_compatible_with_default_parameters]. *)
Definition is_compatible_with_default_parameters (b : ParametersBuilder) : outcome bool :=
  d ← Parameters_build;
  Ok (bool_decide (b_activation_heights b = b_activation_heights d)
      && bool_decide (b_network_magic b = b_network_magic d)
      && bool_decide (b_genesis_hash b = b_genesis_hash d)
      && (b_slow_start_interval b =? b_slow_start_interval d)
      && bool_decide (b_funding_streams b = b_funding_streams d)
      && (b_target_difficulty_limit b =? b_target_difficulty_limit d)
      && Bool.eqb (b_disable_pow b) (b_disable_pow d)
      && Bool.eqb (b_should_allow_unshielded_coinbase_spends b) (b_should_allow_unshielded_coinbase_spends d)
      && (b_pre_blossom_halving_interval b =? b_pre_blossom_halving_interval d)
      && (b_post_blossom_halving_interval b =? b_post_blossom_halving_interval d)
      && bool_decide (b_lockbox_disbursements b = b_lockbox_disbursements d)).

(** ** Halvings *)

Definition pre_blossom_halving_interval (network : Network) : Z :=
  match network with Mainnet => PRE_BLOSSOM_HALVING_INTERVAL | Testnet p => pre_blossom_halving_interval_ p end.
Definition post_blossom_halving_interval (network : Network) : Z :=
  match network with Mainnet => POST_BLOSSOM_HALVING_INTERVAL | Testnet p => post_blossom_halving_interval_ p end.
(** Division of [i64]s truncates; by zero, or [i64::MIN / -1], it panics. *)
Definition i64_div (a b : Z) : outcome Z := if b =? 0 then Panic else unwrap (i64_checked (Z.quot a b)).
Definition funding_stream_address_change_interval (network : Network) : outcome Z :=
  i64_div (post_blossom_halving_interval network) 48.

Definition num_halvings (height : Z) (network : Network) : outcome Z :=
  let slow_start_shift := slow_start_shift network in
  blossom_height ← unwrap (activation_height Blossom network);
  halving_index ←
    (if height <? slow_start_shift then Ok 0
     else if height <? blossom_height then
       pre_blossom_height ← height_sub height slow_start_shift;
       i64_div pre_blossom_height (pre_blossom_halving_interval network)
     else
       pre_blossom_height ← height_sub blossom_height slow_start_shift;
       scaled_pre_blossom_height ← arith_i 64 (pre_blossom_height * BLOSSOM_POW_TARGET_SPACING_RATIO);
       post_blossom_height ← height_sub height blossom_height;
       sum ← arith_i 64 (scaled_pre_blossom_height + post_blossom_height);
       i64_div sum (post_blossom_halving_interval network));
  unwrap (u32_checked halving_index).

Definition height_for_halving (halving : Z) (network : Network) : outcome (option Z) :=
  if halving =? 0 then Ok (Some 0)
  else
    let slow_start_shift := slow_start_shift network in
    blossom_height ← unwrap (activation_height Blossom network);
    unscaled_height ← unwrap (i64_checked (halving * pre_blossom_halving_interval network));
    pre_blossom_height ← unwrap (i64_checked (Z.min unscaled_height blossom_height + slow_start_shift));
    difference ← arith_i 64 (unscaled_height - blossom_height);
    scaled ← unwrap (i64_checked (Z.max 0 difference * BLOSSOM_POW_TARGET_SPACING_RATIO));
    post_blossom_height ← unwrap (i64_checked (scaled + slow_start_shift));
    height ← unwrap (i64_checked (pre_blossom_height + post_blossom_height));
    match u32_checked height with
    | None => Ok None
    | Some height => res_ok (height_try_from_u32 height)
    end.

Definition height_for_first_halving (network : Network) : outcome Z :=
  match network with
  | Mainnet => unwrap (activation_height Canopy network)
  | Testnet p =>
      regtest ← is_regtest p;
      if (regtest : bool) then Ok FIRST_HALVING_REGTEST
      else
        default_testnet ← is_default_testnet p;
        if (default_testnet : bool) then Ok FIRST_HALVING_TESTNET
        else h ← height_for_halving 1 network; unwrap h
  end.

(** ** Subsidies *)

Inductive SubsidyError : Type :=
| NoCoinbase
| FundingStreamNotFound
| OneTimeLockboxDisbursementNotFound
| InvalidMinerFees
| SubsidySumOverflow
| UnsupportedHeight
| InvalidAmount (e : amount_Error).

(** [1u64.checked_shl(n)] is [None] when [n] is at least the width. *)
Definition halving_divisor (height : Z) (network : Network) : outcome (option Z) :=
  n ← num_halvings height network;
  Ok (if n <? 64 then Some (Z.shiftl 1 n) else None).

Definition block_subsidy (height : Z) (network : Network) : res SubsidyError Z :=
  blossom_height ← unwrap (activation_height Blossom network);
  d ← lift (halving_divisor height network);
  match d with
  | None => lift (amount_zero NonNegative)
  | Some halving_div =>
      if height <? slow_start_interval network then Err UnsupportedHeight
      else if height <? blossom_height then
        map_err InvalidAmount (amount_try_from_u64 NonNegative (MAX_BLOCK_SUBSIDY / halving_div))
      else
        let scaled_max_block_subsidy := MAX_BLOCK_SUBSIDY / BLOSSOM_POW_TARGET_SPACING_RATIO in
        map_err InvalidAmount (amount_try_from_u64 NonNegative (scaled_max_block_subsidy / halving_div))
  end.

Definition all_funding_streams (network : Network) : outcome (list FundingStreams) :=
  match network with Testnet p => Ok (funding_streams_ p) | Mainnet => FUNDING_STREAMS_MAINNET end.
Definition funding_streams (network : Network) (height : Z) : outcome (option FundingStreams) :=
  l ← all_funding_streams network;
  Ok (List.find (fun streams => range_contains (height_range streams) height) l).

Definition funding_stream_values (height : Z) (network : Network) (expected_block_subsidy : Z)
    : res amount_Error (gmap FundingStreamReceiver Z) :=
  canopy_height ← unwrap (activation_height Canopy network);
  if canopy_height <=? height then
    streams ← lift (funding_streams network height);
    match streams with
    | Some streams =>
        foldM (fun results '(receiver, recipient) =>
                 product ← amount_mul NonNegative expected_block_subsidy (numerator recipient);
                 amount_value ← amount_div NonNegative product FUNDING_STREAM_RECEIVER_DENOMINATOR;
                 Ok (<[receiver := amount_value]> results))
          ∅ (map_to_list (recipients streams))
    | None => Ok ∅
    end
  else Ok ∅.

Definition miner_subsidy (height : Z) (network : Network) (expected_block_subsidy : Z) : res amount_Error Z :=
  values ← funding_stream_values height network expected_block_subsidy;
  total_funding_stream_amount ← amount_sum NonNegative (snd <$> map_to_list values);
  amount_sub NonNegative expected_block_subsidy total_funding_stream_amount.

(** ** Lockbox disbursements *)

Definition parse_disbursements (l : list (string * Z)) : outcome (list (Address * Z)) :=
  map_res (fun '(addr, amount) => a ← unwrap (parse_address addr); Ok (a, amount)) l.
Definition lockbox_disbursements (network : Network) (height : Z) : outcome (list (Address * Z)) :=
  if negb (bool_decide (Some height = activation_height Nu6_1 network)) then Ok []
  else
    match network with
    | Mainnet => parse_disbursements NU6_1_LOCKBOX_DISBURSEMENTS_MAINNET
    | Testnet p =>
        default_testnet ← is_default_testnet p;
        parse_disbursements
          (if (default_testnet : bool) then NU6_1_LOCKBOX_DISBURSEMENTS_TESTNET else lockbox_disbursements_ p)
    end.

(** [reduce] of the parameters' amounts. *)
Definition parameters_disbursement_total (p : Parameters) : outcome Z :=
  l ← parse_disbursements (lockbox_disbursements_ p);
  match snd <$> l with
  | [] => amount_zero NonNegative
  | a :: l => foldM (fun a b => expect (amount_add NonNegative a b)) a l
  end.
Definition lockbox_disbursement_total_amount (network : Network) (height : Z) : outcome Z :=
  if negb (bool_decide (Some height = activation_height Nu6_1 network)) then amount_zero NonNegative
  else
    match network with
    | Mainnet => Ok EXPECTED_NU6_1_LOCKBOX_DISBURSEMENTS_TOTAL_MAINNET
    | Testnet p =>
        default_testnet ← is_default_testnet p;
        if (default_testnet : bool) then Ok EXPECTED_NU6_1_LOCKBOX_DISBURSEMENTS_TOTAL_TESTNET
        else parameters_disbursement_total p
    end.

(** ** Funding stream addresses *)

Definition funding_stream_address_period (height : Z) (network : Network) : outcome Z :=
  first_halving ← height_for_first_halving network;
  height_after_first_halving ← height_sub height first_halving;
  sum ← arith_i 64 (height_after_first_halving + post_blossom_halving_interval network);
  interval ← funding_stream_address_change_interval network;
  address_period ← i64_div sum interval;
  unwrap (u32_checked address_period).

(** [1u32.checked_add(last).expect(..).checked_sub(first).expect(..) as usize]. *)
Definition address_periods_between (first last : outcome Z) : outcome Z :=
  last ← last;
  next ← unwrap (u32_checked (1 + last));
  first ← first;
  unwrap (u32_checked (next - first)).

Definition num_funding_stream_addresses_required_for_height_range (range : Z * Z) (network : Network) : outcome Z :=
  previous ← expect (height_previous range.2);
  address_periods_between (funding_stream_address_period range.1 network)
    (funding_stream_address_period previous network).

Definition check_recipient (expected_min_num_addresses : Z) (e : FundingStreamReceiver * FundingStreamRecipient)
    : outcome unit :=
  if bool_decide (e.1 = DeferredReceiver) then Ok tt
  else
    _ ← assert_ (expected_min_num_addresses <=? Z.of_nat (length (addresses e.2)));
    foldM (fun _ address => assert_ (bool_decide (address_network_kind address = TestnetKind)))
      tt (addresses e.2).
Definition check_funding_stream_address_period (fs : FundingStreams) (network : Network) : outcome unit :=
  expected_min_num_addresses ← num_funding_stream_addresses_required_for_height_range (height_range fs) network;
  foldM (fun _ e => check_recipient expected_min_num_addresses e) tt (map_to_list (recipients fs)).

Definition funding_stream_address_index (height : Z) (network : Network) (receiver : FundingStreamReceiver)
    : outcome (option Z) :=
  if bool_decide (receiver = DeferredReceiver) then Ok None
  else
    streams ← funding_streams network height;
    match streams with
    | None => Ok None
    | Some funding_streams =>
        match recipient funding_streams receiver with
        | None => Ok None
        | Some r =>
            let num_addresses := Z.of_nat (length (addresses r)) in
            index ← address_periods_between
                      (funding_stream_address_period (height_range funding_streams).1 network)
                      (funding_stream_address_period height network);
            _ ← assert_ ((0 <? index) && (index <=? num_addresses));
            Ok (Some (index - 1))
        end
    end.

Definition funding_stream_address (height : Z) (network : Network) (receiver : FundingStreamReceiver)
    : outcome (option Address) :=
  index ← funding_stream_address_index height network receiver;
  match index with
  | None => Ok None
  | Some index =>
      streams ← funding_streams network height;
      Ok (fs ← streams; r ← recipient fs receiver; addresses r !! Z.to_nat index)
  end.

(** ** Building a network *)

(** The sum of the numerators is a [u64] addition. *)
Definition convert_with_default (c : ConfiguredFundingStreams) (default_funding_streams : option FundingStreams)
    (parameters_builder : ParametersBuilder) : outcome FundingStreams :=
  let network := to_network_unchecked parameters_builder in
  height_range ← (match cfg_height_range c with
                  | Some r => Ok r
                  | None => height_range <$> unwrap default_funding_streams
                  end);
  recipients ← (match cfg_recipients c with
                | Some l => collect_recipients l
                | None => recipients <$> unwrap default_funding_streams
                end);
  _ ← assert_ (height_range.1 <=? height_range.2);
  let funding_streams := mkFundingStreams height_range recipients in
  _ ← check_funding_stream_address_period funding_streams network;
  sum_numerators ← foldM (fun s e => arith_u 64 (s + numerator e.2)) 0 (map_to_list recipients);
  _ ← assert_ (sum_numerators <=? FUNDING_STREAM_RECEIVER_DENOMINATOR);
  Ok funding_streams.

Definition with_funding_streams : list ConfiguredFundingStreams -> ParametersBuilder -> outcome ParametersBuilder :=
  with_funding_streams_by convert_with_default.
Definition new_regtest : RegtestParameters -> outcome Parameters := new_regtest_by convert_with_default.

Definition to_network (b : ParametersBuilder) : outcome Network :=
  let network := to_network_unchecked b in
  _ ← foldM (fun _ fs => check_funding_stream_address_period fs network) tt (b_funding_streams b);
  Ok network.

(** The network of the node's own configuration
    ([zebrad/src/application.rs]). *)
Definition crosslink_testnet : outcome Network :=
  b ← Parameters_build;
  b ← with_network_magic [Byte.x43; Byte.x6c; Byte.x54; Byte.x6e] b;
  to_network (with_slow_start_interval 0 b).
End Networks.

(** * Halvings *)

(** A network whose post-Blossom interval is twice its pre-Blossom one, as the
    builder makes it; the intervals of a configuration are [u32]s. *)
Record halving_network (network : Network) (blossom : Z) : Prop := {
  hn_blossom : activation_height Blossom network = Some blossom;
  hn_blossom_height : valid_height blossom;
  hn_start : valid_height (slow_start_interval network);
  hn_shift : slow_start_shift network = slow_start_interval network / 2;
  hn_pre : 0 < pre_blossom_halving_interval network <= u32_MAX;
  hn_post : post_blossom_halving_interval network = 2 * pre_blossom_halving_interval network
}.

(** Time since the start of the halvings, in post-Blossom blocks: a block
    before Blossom counts for two. *)
Definition halving_progress (network : Network) (blossom height : Z) : Z :=
  height + Z.min height blossom - 2 * slow_start_shift network.

Ltac hn_lia :=
  unfold halving_progress, valid_height, BLOSSOM_POW_TARGET_SPACING_RATIO in *;
  rewrite ?Height_MAX_value in *; unfold Height_MIN in *; width_lia.

Lemma i64_div_in a b : 0 < b -> is_i64 a -> i64_div a b = Ok (Z.quot a b).
Proof.
  intros Hb Ha. unfold i64_div. destruct (Z.eqb_spec b 0); [lia|]. rewrite checked_in; [done|].
  unfold is_i64, i64_MIN, i64_MAX in *. pose proof (Z.quot_rem' a b). pose proof (Z.rem_bound_abs a b).
  destruct (Z.le_gt_cases 0 a).
  - pose proof (Z.quot_pos a b). pose proof (Z.quot_le_upper_bound a b a). nia.
  - pose proof (Z.quot_opp_l a b). pose proof (Z.quot_pos (- a) b). pose proof (Z.quot_le_upper_bound (- a) b (- a)). nia.
Qed.

Section Halvings.
Context `{BuildProfile} (network : Network) (blossom : Z) (Hn : halving_network network blossom).
Let interval : Z := pre_blossom_halving_interval network.
Let shift : Z := slow_start_shift network.

Lemma shift_bounds : 0 <= shift <= Height_MAX /\ 2 * shift <= slow_start_interval network <= 2 * shift + 1.
Proof using Hn.
  unfold shift. pose proof (hn_shift _ _ Hn) as Hs. pose proof (hn_start _ _ Hn).
  pose proof (Z.div_mod (slow_start_interval network) 2). pose proof (Z.mod_pos_bound (slow_start_interval network) 2). hn_lia.
Qed.

(** The halving index is the progress divided by the interval, rounded
    towards zero. *)
Lemma num_halvings_quot height :
  valid_height height ->
  num_halvings height network =
    unwrap (u32_checked (if height <? shift then 0
                         else Z.quot (halving_progress network blossom height) (2 * interval))).
Proof using Hn.
  intros Hh. destruct shift_bounds as [Hs _]. destruct Hn as [Hb Hbh _ _ Hpre Hpost]. fold interval in Hpre, Hpost.
  unfold num_halvings. rewrite Hb. cbn [unwrap mbind res_bind]. fold shift interval. rewrite Hpost.
  destruct (Z.ltb_spec height shift); [done|].
  destruct (Z.ltb_spec height blossom).
  - rewrite height_sub_spec by hn_lia. cbn [mbind res_bind]. rewrite i64_div_in by (unfold is_i64; hn_lia).
    cbn [mbind res_bind]. unfold halving_progress. fold shift. rewrite Z.min_l by lia.
    replace (height + height - 2 * shift) with (2 * (height - shift)) by lia.
    by rewrite Z.quot_mul_cancel_l by lia.
  - rewrite !height_sub_spec by hn_lia. cbn [mbind res_bind]. rewrite arith_i_in by hn_lia. cbn [mbind res_bind].
    rewrite arith_i_in by hn_lia. cbn [mbind res_bind].
    rewrite i64_div_in by (unfold is_i64; hn_lia). cbn [mbind res_bind]. unfold halving_progress. fold shift.
    rewrite Z.min_r by lia. do 3 f_equal. hn_lia.
Qed.

Lemma num_halvings_floor height :
  shift - blossom < 2 * interval -> valid_height height ->
  num_halvings height network = Ok (Z.max 0 (halving_progress network blossom height) / (2 * interval)).
Proof using Hn.
  intros Hsb Hh. rewrite num_halvings_quot by done. destruct shift_bounds as [Hs _].
  pose proof (hn_blossom_height _ _ Hn). pose proof (hn_pre _ _ Hn) as Hpre. fold interval in Hpre.
  assert (halving_progress network blossom height <= 2 * height) as Hup by (unfold halving_progress; fold shift; lia).
  assert (height < shift -> Z.max 0 (halving_progress network blossom height) = 0) as Hbefore
    by (unfold halving_progress; fold shift; lia).
  assert (shift <= height -> - (2 * interval) < halving_progress network blossom height) as Hafter
    by (unfold halving_progress; fold shift; lia).
  destruct (Z.ltb_spec height shift).
  { rewrite Hbefore by done. by rewrite Z.div_0_l by lia. }
  generalize dependent (halving_progress network blossom height). intros p Hup _ Hafter.
  specialize (Hafter ltac:(done)). destruct (Z.le_gt_cases 0 p).
  - rewrite Z.max_r, <- Z.quot_div_nonneg by lia. rewrite checked_in; [done|].
    pose proof (Z.quot_pos p (2 * interval)). pose proof (Z.quot_le_upper_bound p (2 * interval) p).
    assert (p <= 2 * interval * p) by nia. hn_lia.
  - rewrite Z.max_l, Z.div_0_l by lia. replace (Z.quot p (2 * interval)) with 0; [done|].
    replace p with (- (- p)) by lia. rewrite Z.quot_opp_l, Z.quot_small by lia. done.
Qed.

Lemma progress_mono h1 h2 : h1 <= h2 -> halving_progress network blossom h1 <= halving_progress network blossom h2.
Proof. unfold halving_progress. lia. Qed.

(** Nothing is halved before the progress reaches a multiple of the
    interval. *)
Lemma num_halvings_before k h h' :
  shift - blossom < 2 * interval -> 0 < k -> halving_progress network blossom h = 2 * interval * k ->
  0 <= h' < h -> h <= Height_MAX -> exists k', num_halvings h' network = Ok k' /\ 0 <= k' < k.
Proof using Hn.
  intros Hsb Hk Hp Hh' Hh. pose proof (hn_pre _ _ Hn) as Hpre. fold interval in Hpre.
  rewrite num_halvings_floor by (done || hn_lia). eexists. split; [reflexivity|].
  assert (halving_progress network blossom h' < 2 * interval * k) as Hlt by (unfold halving_progress in *; lia).
  split; [apply Z.div_pos; lia|]. apply Z.div_lt_upper_bound; [lia|]. nia.
Qed.

Lemma num_halvings_at k h :
  shift - blossom < 2 * interval -> 0 <= k -> halving_progress network blossom h = 2 * interval * k ->
  valid_height h -> num_halvings h network = Ok k.
Proof using Hn.
  intros Hsb Hk Hp Hh. pose proof (hn_pre _ _ Hn) as Hpre. fold interval in Hpre.
  rewrite num_halvings_floor by done. rewrite Hp, Z.max_r by nia. by rewrite Z.mul_comm, Z.div_mul by lia.
Qed.

(** What [height_for_halving] computes, as long as the result is a height. *)
Lemma height_for_halving_eq k :
  1 <= k -> k * interval <= Height_MAX ->
  let h := Z.min (k * interval) blossom + 2 * Z.max 0 (k * interval - blossom) + 2 * shift in
  h <= Height_MAX -> height_for_halving k network = Ok (Some h).
Proof using Hn.
  cbv zeta. intros Hk Hki Hh. destruct shift_bounds as [Hs _]. pose proof (hn_pre _ _ Hn) as Hpre. fold interval in Hpre.
  pose proof (hn_blossom_height _ _ Hn) as Hb.
  unfold height_for_halving. destruct (Z.eqb_spec k 0); [lia|]. rewrite (hn_blossom _ _ Hn).
  cbn [unwrap mbind res_bind]. fold shift interval. assert (0 < k * interval) by nia.
  generalize dependent (k * interval). intros u Hu Hh Hpos. unfold BLOSSOM_POW_TARGET_SPACING_RATIO.
  rewrite checked_in by hn_lia. cbn [unwrap mbind res_bind].
  rewrite checked_in by hn_lia. cbn [unwrap mbind res_bind].
  rewrite arith_i_in by hn_lia. cbn [mbind res_bind].
  do 3 (rewrite checked_in by hn_lia; cbn [unwrap mbind res_bind]).
  rewrite height_bound_check by hn_lia. rewrite (proj2 (in_range_spec _ _ _)) by hn_lia. do 2 f_equal. lia.
Qed.
End Halvings.

(** [num_halvings] gives a halving index for every height exactly when the
    slow start shift is less than two pre-Blossom halving intervals after
    Blossom; otherwise it panics at the end of the slow start. *)
Theorem num_halvings_total `{BuildProfile} network blossom :
  halving_network network blossom ->
  (forall height, valid_height height -> is_ok (num_halvings height network) = true)
  <-> slow_start_shift network - blossom < 2 * pre_blossom_halving_interval network.
Proof.
  intros Hn. split.
  - intros Hok. destruct (shift_bounds _ _ Hn) as [Hs _]. specialize (Hok (slow_start_shift network)).
    rewrite (num_halvings_quot _ _ Hn), Z.ltb_irrefl in Hok by hn_lia.
    pose proof (hn_pre _ _ Hn) as Hpre. apply Z.nle_gt. intros Hle.
    specialize (Hok ltac:(hn_lia)). revert Hok.
    replace (halving_progress network blossom (slow_start_shift network))
      with (- (slow_start_shift network - blossom)) by (pose proof (hn_blossom_height _ _ Hn); unfold halving_progress; lia).
    rewrite Z.quot_opp_l by lia.
    assert (1 <= Z.quot (slow_start_shift network - blossom) (2 * pre_blossom_halving_interval network)).
    { apply Z.quot_le_lower_bound; lia. }
    destruct (u32_checked _) eqn:E; [|done]. apply checked_Some in E. lia.
  - intros Hlt h Hh. by rewrite (num_halvings_floor _ _ Hn).
Qed.

(** When the end of a halving interval falls at or after Blossom,
    [height_for_halving] is the first height of that halving: the halving index
    there is the one asked for, and it is smaller at every earlier height. *)
Theorem height_for_halving_first `{BuildProfile} network blossom k :
  halving_network network blossom ->
  slow_start_shift network - blossom < 2 * pre_blossom_halving_interval network ->
  1 <= k -> blossom <= k * pre_blossom_halving_interval network <= Height_MAX ->
  let h := 2 * (k * pre_blossom_halving_interval network + slow_start_shift network) - blossom in
  h <= Height_MAX ->
  height_for_halving k network = Ok (Some h) /\ num_halvings h network = Ok k
  /\ forall h', 0 <= h' < h -> exists k', num_halvings h' network = Ok k' /\ 0 <= k' < k.
Proof.
  intros Hn Hsb Hk Hki h Hh. pose proof (hn_blossom_height _ _ Hn) as Hb. destruct (shift_bounds _ _ Hn) as [Hs _].
  assert (halving_progress network blossom h = 2 * pre_blossom_halving_interval network * k) as Hp
    by (unfold halving_progress, h; hn_lia).
  split_and!.
  - rewrite (height_for_halving_eq _ _ Hn k) by (hn_lia || (unfold h in Hh; hn_lia)). do 2 f_equal. unfold h. lia.
  - apply (num_halvings_at _ _ Hn); try done; [lia|]. unfold h in *. hn_lia.
  - intros h' Hh'. apply (num_halvings_before _ _ Hn k h); try done; lia.
Qed.

(** When a halving interval ends before Blossom, [height_for_halving] adds
    the slow start shift twice: it returns a height a whole shift after the
    first height of that halving. *)
Theorem height_for_halving_late `{BuildProfile} network blossom k :
  halving_network network blossom ->
  1 <= k -> k * pre_blossom_halving_interval network + slow_start_shift network <= blossom ->
  let first := k * pre_blossom_halving_interval network + slow_start_shift network in
  first + slow_start_shift network <= Height_MAX ->
  height_for_halving k network = Ok (Some (first + slow_start_shift network))
  /\ num_halvings first network = Ok k
  /\ forall h', 0 <= h' < first -> exists k', num_halvings h' network = Ok k' /\ 0 <= k' < k.
Proof.
  intros Hn Hk Hki first Hh. pose proof (hn_blossom_height _ _ Hn) as Hb. destruct (shift_bounds _ _ Hn) as [Hs _].
  pose proof (hn_pre _ _ Hn) as Hpre.
  assert (0 < k * pre_blossom_halving_interval network) by nia.
  assert (halving_progress network blossom first = 2 * pre_blossom_halving_interval network * k) as Hp
    by (unfold halving_progress, first; hn_lia).
  assert (slow_start_shift network - blossom < 2 * pre_blossom_halving_interval network) by lia.
  split_and!.
  - rewrite (height_for_halving_eq _ _ Hn k) by (hn_lia || (unfold first in Hh; hn_lia)). do 2 f_equal. unfold first. lia.
  - apply (num_halvings_at _ _ Hn); try done; [lia|]. unfold first in *. hn_lia.
  - intros h' Hh'. apply (num_halvings_before _ _ Hn k first); try done; [lia|unfold first in *; lia].
Qed.

(** * Issuance *)

(** What the block at a height issues; nothing when there is no subsidy. *)
Definition issued `{BuildProfile} (network : Network) (height : Z) : Z :=
  match block_subsidy height network with Ok a => a | _ => 0 end.

Lemma block_subsidy_eq `{BuildProfile} network blossom height k :
  halving_network network blossom -> num_halvings height network = Ok k -> 0 <= k ->
  block_subsidy height network =
    if k <? 64 then
      if height <? slow_start_interval network then Err UnsupportedHeight
      else Ok ((if height <? blossom then MAX_BLOCK_SUBSIDY else MAX_BLOCK_SUBSIDY / 2) / 2 ^ k)
    else Ok 0.
Proof.
  intros Hn Hk Hk0. unfold block_subsidy, halving_divisor. rewrite (hn_blossom _ _ Hn), Hk.
  cbn [unwrap mbind res_bind lift]. destruct (k <? 64); [|done].
  rewrite Z.shiftl_1_l. destruct (height <? slow_start_interval network); [done|].
  assert (forall m, 0 <= m <= MAX_BLOCK_SUBSIDY ->
    map_err InvalidAmount (amount_try_from_u64 NonNegative (m / 2 ^ k)) = Ok (m / 2 ^ k)) as Hok.
  { intros m Hm. assert (0 < 2 ^ k) by (by apply Z.pow_pos_nonneg).
    assert (0 <= m / 2 ^ k <= m) by (split; [apply Z.div_pos; lia|apply Z.div_le_upper_bound; nia]).
    unfold amount_try_from_u64. change MAX_BLOCK_SUBSIDY with 1250000000 in Hm.
    rewrite checked_in by width_lia. cbn [ok_or mbind res_bind]. rewrite amount_try_from_in by amount_lia. done. }
  destruct (height <? blossom); rewrite Hok; done.
Qed.

Section Issuance.
Context `{BuildProfile} (network : Network) (blossom : Z) (Hn : halving_network network blossom).
Context (Hsb : slow_start_shift network - blossom < 2 * pre_blossom_halving_interval network).
Let interval : Z := pre_blossom_halving_interval network.
Let start : Z := slow_start_interval network.
Let S : Z := MAX_BLOCK_SUBSIDY / 2.

(** What can still be issued from some progress on, times [2 ^ 64]: the rest
    of the current interval at the current subsidy, and as much as a whole
    interval at this subsidy for all the later ones. *)
Definition remaining (p : Z) : Z := (4 * interval - p mod (2 * interval)) * (S * 2 ^ (64 - p / (2 * interval))).
Definition step_of (height : Z) : Z := if height <? blossom then 2 else 1.

Lemma remaining_bounds p : 0 <= p -> 0 <= remaining p <= 4 * interval * (S * 2 ^ 64).
Proof using Hn.
  intros Hp. pose proof (hn_pre _ _ Hn) as Hpre. fold interval in Hpre. unfold remaining.
  pose proof (Z.mod_pos_bound p (2 * interval)). assert (0 <= p / (2 * interval)) by (apply Z.div_pos; lia).
  assert (0 <= 2 ^ (64 - p / (2 * interval)) <= 2 ^ 64) by (split; [apply Z.pow_nonneg|apply Z.pow_le_mono_r]; lia).
  assert (0 < S) by done. nia.
Qed.

(** Passing [d] units costs at least their subsidy, inside an interval and at
    its end. *)
Lemma remaining_step p d :
  0 <= p -> 0 <= d -> p mod (2 * interval) + d <= 2 * interval ->
  d * (S * 2 ^ (64 - p / (2 * interval))) + remaining (p + d) <= remaining p.
Proof using Hn.
  intros Hp Hd Hle. pose proof (hn_pre _ _ Hn) as Hpre. fold interval in Hpre. unfold remaining.
  pose proof (Z.div_mod p (2 * interval)) as Hdm. pose proof (Z.mod_pos_bound p (2 * interval)) as Hmod.
  revert Hdm Hmod Hle. generalize (p / (2 * interval)) as q, (p mod (2 * interval)) as r. intros q r Hdm Hmod Hle.
  rewrite Hdm by lia. destruct (Z.eq_dec (r + d) (2 * interval)) as [He|Hne].
  - replace (2 * interval * q + r + d) with ((q + 1) * (2 * interval)) by lia.
    rewrite Z.div_mul, Z.mod_mul by lia.
    assert (2 * 2 ^ (64 - (q + 1)) <= 2 ^ (64 - q)) as Hpow.
    { destruct (Z.le_gt_cases (q + 1) 64).
      - rewrite <- Z.pow_succ_r by lia. apply Z.pow_le_mono_r; lia.
      - rewrite (Z.pow_neg_r 2 (64 - (q + 1))) by lia. pose proof (Z.pow_nonneg 2 (64 - q)). lia. }
    assert (0 < S) as HS by done. clear Hdm Hle. replace d with (2 * interval - r) by lia.
    revert Hpow. generalize (2 ^ (64 - (q + 1))) as x, (2 ^ (64 - q)) as y. intros x y Hxy.
    assert (2 * interval * S * (2 * x) <= 2 * interval * S * y) by (apply Z.mul_le_mono_nonneg_l; nia). lia.
  - replace (2 * interval * q + r + d) with ((r + d) + q * (2 * interval)) by lia.
    rewrite Z.div_add, Z.div_small, Z.mod_add, Z.mod_small by lia. rewrite Z.add_0_l. nia.
Qed.

Lemma issued_before height : valid_height height -> height < start -> issued network height = 0.
Proof using Hn Hsb.
  intros Hh Hlt. unfold issued. pose proof (hn_pre _ _ Hn).
  rewrite (block_subsidy_eq _ _ _ _ Hn (num_halvings_floor _ _ Hn _ Hsb Hh)) by (apply Z.div_pos; lia).
  destruct (_ <? 64); [|done]. by rewrite (proj2 (Z.ltb_lt _ _)).
Qed.

Lemma progress_after height : valid_height height -> start <= height ->
  0 <= halving_progress network blossom height
  /\ halving_progress network blossom (height + 1) = halving_progress network blossom height + step_of height
  /\ halving_progress network blossom height mod (2 * interval) + step_of height <= 2 * interval.
Proof using Hn.
  intros Hh Hle. pose proof (hn_pre _ _ Hn) as Hpre. fold interval in Hpre.
  destruct (shift_bounds _ _ Hn) as [Hs Hs']. pose proof (hn_blossom_height _ _ Hn). unfold start in Hle.
  unfold halving_progress, step_of. split_and!.
  - hn_lia.
  - destruct (Z.ltb_spec height blossom); lia.
  - destruct (Z.ltb_spec height blossom).
    + replace (height + Z.min height blossom - 2 * slow_start_shift network)
        with (2 * (height - slow_start_shift network)) by lia.
      rewrite Zmult_mod_distr_l. pose proof (Z.mod_pos_bound (height - slow_start_shift network) interval). lia.
    + pose proof (Z.mod_pos_bound (height + Z.min height blossom - 2 * slow_start_shift network) (2 * interval)). lia.
Qed.

Lemma issued_after height :
  valid_height height -> start <= height ->
  issued network height * 2 ^ 64
  <= step_of height * (S * 2 ^ (64 - halving_progress network blossom height / (2 * interval))).
Proof using Hn Hsb.
  intros Hh Hle. destruct (progress_after height Hh Hle) as [Hp _]. pose proof (hn_pre _ _ Hn) as Hpre.
  unfold issued. pose proof (num_halvings_floor _ _ Hn _ Hsb Hh) as Hnum. rewrite Z.max_r in Hnum by done.
  fold interval in Hpre, Hnum. rewrite (block_subsidy_eq _ _ _ _ Hn Hnum) by (apply Z.div_pos; lia). clear Hnum.
  assert (0 <= halving_progress network blossom height / (2 * interval)) as Hq by (apply Z.div_pos; lia).
  revert Hq. generalize (halving_progress network blossom height / (2 * interval)) as q. intros q Hq.
  assert (0 <= 2 ^ (64 - q)) as Hpow by (apply Z.pow_nonneg; lia). assert (0 < S) as HS by done.
  destruct (Z.ltb_spec q 64); [|unfold step_of; destruct (_ <? _); nia].
  rewrite (proj2 (Z.ltb_ge _ _)) by done.
  assert (forall m, 0 <= m -> m / 2 ^ q * 2 ^ 64 <= m * 2 ^ (64 - q)) as Hdiv.
  { intros m Hm. assert (0 < 2 ^ q) by (apply Z.pow_pos_nonneg; lia).
    replace 64 with (q + (64 - q)) at 1 by lia. rewrite Z.pow_add_r, Z.mul_assoc by lia.
    apply Z.mul_le_mono_nonneg_r; [done|]. rewrite Z.mul_comm. by apply Z.mul_div_le. }
  unfold step_of. destruct (height <? blossom).
  - rewrite Z.mul_assoc. apply (Hdiv MAX_BLOCK_SUBSIDY). done.
  - rewrite Z.mul_1_l. by apply Hdiv.
Qed.

Lemma issuance_bounded n from :
  0 <= from -> from + Z.of_nat n <= Height_MAX + 1 ->
  sum_Z (issued network) (seqZ from (Z.of_nat n)) * 2 ^ 64
  <= if from <? start then 4 * interval * (S * 2 ^ 64) else remaining (halving_progress network blossom from).
Proof using Hn Hsb.
  revert from. induction n as [|n IH]; intros from Hf Hn'.
  { cbn [seqZ sum_Z]. destruct (Z.ltb_spec from start).
    - pose proof (remaining_bounds 0). rewrite seqZ_nil by lia. cbn [sum_Z]. lia.
    - rewrite seqZ_nil by lia. cbn [sum_Z]. rewrite Z.mul_0_l. apply remaining_bounds.
      destruct (Z.le_gt_cases from Height_MAX) as [Hle|]; [apply progress_after; hn_lia|].
      destruct (shift_bounds _ _ Hn). pose proof (hn_blossom_height _ _ Hn). unfold start in *. hn_lia. }
  rewrite seqZ_cons by lia. replace (Z.pred (Z.of_nat (Datatypes.S n))) with (Z.of_nat n) by lia.
  rewrite Nat2Z.inj_succ in Hn'. cbn [sum_Z]. rewrite Z.mul_add_distr_r.
  specialize (IH (Z.succ from) ltac:(lia) ltac:(lia)). assert (valid_height from) as Hv by hn_lia.
  destruct (Z.ltb_spec from start).
  - rewrite issued_before by done. rewrite Z.mul_0_l, Z.add_0_l. etrans; [exact IH|].
    destruct (Z.ltb_spec (Z.succ from) start); [done|]. apply remaining_bounds.
    destruct (shift_bounds _ _ Hn). pose proof (hn_blossom_height _ _ Hn). unfold start in *. hn_lia.
  - rewrite (proj2 (Z.ltb_ge (Z.succ from) start)) in IH by lia.
    destruct (progress_after from Hv) as (Hp & Hnext & Hmod); [done|].
    rewrite <- Z.add_1_r, Hnext in IH. rewrite <- Z.add_1_r.
    pose proof (issued_after from Hv ltac:(done)).
    pose proof (remaining_step (halving_progress network blossom from) (step_of from) Hp) as Hstep.
    assert (0 <= step_of from) by (unfold step_of; destruct (_ <? _); lia). lia.
Qed.
End Issuance.

(** Whatever heights are mined, the block subsidies of a network add up to
    at most two pre-Blossom halving intervals of the largest subsidy; with the
    halving interval of Mainnet that is [MAX_MONEY]. *)
Lemma total_issuance_bounded `{BuildProfile} network blossom (from : Z) (n : nat) :
  halving_network network blossom ->
  slow_start_shift network - blossom < 2 * pre_blossom_halving_interval network ->
  0 <= from -> from + Z.of_nat n <= Height_MAX + 1 ->
  sum_Z (issued network) (seqZ from (Z.of_nat n)) <= 2 * pre_blossom_halving_interval network * MAX_BLOCK_SUBSIDY
  /\ 2 * PRE_BLOSSOM_HALVING_INTERVAL * MAX_BLOCK_SUBSIDY = MAX_MONEY.
Proof.
  intros Hn Hsb Hf Hlen. split; [|done]. pose proof (issuance_bounded _ _ Hn Hsb n from Hf Hlen) as Hle.
  assert (sum_Z (issued network) (seqZ from (Z.of_nat n)) * 2 ^ 64
          <= 4 * pre_blossom_halving_interval network * (MAX_BLOCK_SUBSIDY / 2 * 2 ^ 64)) as Hb.
  { etrans; [exact Hle|]. destruct (Z.ltb_spec from (slow_start_interval network)); [done|].
    apply (remaining_bounds _ _ Hn). destruct (shift_bounds _ _ Hn). pose proof (hn_blossom_height _ _ Hn). hn_lia. }
  change MAX_BLOCK_SUBSIDY with (MAX_BLOCK_SUBSIDY / 2 * 2). lia.
Qed.

(** * Funding stream addresses *)

Section Addresses.
Context `{BuildProfile} `{AddressParser}.

Lemma height_for_halving_height k network h : height_for_halving k network = Ok (Some h) -> is_u32 h.
Proof.
  unfold height_for_halving. destruct (k =? 0); [intros [= <-]; width_lia|]. intros Hk.
  repeat (apply bind_Ok_inv in Hk as (? & _ & Hk)).
  destruct (u32_checked _) as [y|] eqn:E; [|done]. apply checked_Some in E as [-> E].
  unfold height_try_from_u32 in Hk. destruct (_ <=? Height_MAX); cbn in Hk; [|done]. injection Hk as <-. exact E.
Qed.

Lemma first_halving_height p h : height_for_first_halving (Testnet p) = Ok h -> is_u32 h.
Proof.
  cbn [height_for_first_halving]. intros Hf. apply bind_Ok_inv in Hf as (r & _ & Hf).
  destruct r; [injection Hf as <-; unfold FIRST_HALVING_REGTEST; width_lia|]. apply bind_Ok_inv in Hf as (d & _ & Hf).
  destruct d; [injection Hf as <-; unfold FIRST_HALVING_TESTNET; width_lia|]. apply bind_Ok_inv in Hf as (o & Ho & Hf).
  apply unwrap_Ok in Hf as ->. by eapply height_for_halving_height.
Qed.

(** The address period grows with the height. *)
Lemma address_period_between p lo h hi first_ last_ :
  let network := Testnet p in
  0 < post_blossom_halving_interval network <= 2 * u32_MAX ->
  is_u32 lo -> lo <= h <= hi -> is_u32 hi ->
  funding_stream_address_period lo network = Ok first_ ->
  funding_stream_address_period hi network = Ok last_ ->
  exists period, funding_stream_address_period h network = Ok period /\ first_ <= period <= last_.
Proof.
  cbv zeta. intros Hpost Hlo Hh Hhi. unfold funding_stream_address_period.
  destruct (height_for_first_halving (Testnet p)) as [f| |] eqn:Ef; [|done..].
  apply first_halving_height in Ef. cbn [mbind res_bind]. rewrite !height_sub_spec by width_lia. cbn [mbind res_bind].
  rewrite !arith_i_in by width_lia. cbn [mbind res_bind]. unfold funding_stream_address_change_interval.
  rewrite i64_div_in by (lia || width_lia). cbn [mbind res_bind].
  set (post := post_blossom_halving_interval (Testnet p)) in *. clearbody post.
  assert (0 <= Z.quot post 48) by (apply Z.quot_pos; lia).
  destruct (Z.eq_dec (Z.quot post 48) 0) as [->|]; [done|].
  rewrite !i64_div_in by (lia || width_lia). cbn [mbind res_bind].
  intros (-> & ?)%unwrap_Ok%checked_Some (-> & ?)%unwrap_Ok%checked_Some.
  assert (Z.quot (lo - f + post) (Z.quot post 48) <= Z.quot (h - f + post) (Z.quot post 48)) by (apply Z.quot_le_mono; lia).
  assert (Z.quot (h - f + post) (Z.quot post 48) <= Z.quot (hi - f + post) (Z.quot post 48)) by (apply Z.quot_le_mono; lia).
  rewrite checked_in by lia. eauto.
Qed.

Lemma periods_between_Ok first_ last_ n :
  address_periods_between first_ last_ = Ok n ->
  exists f l, first_ = Ok f /\ last_ = Ok l /\ n = 1 + l - f /\ 1 + l <= u32_MAX /\ 0 <= n.
Proof.
  unfold address_periods_between. intros Hn. apply bind_Ok_inv in Hn as (l & -> & Hn).
  apply bind_Ok_inv in Hn as (x & (-> & ?)%unwrap_Ok%checked_Some & Hn).
  apply bind_Ok_inv in Hn as (f & -> & (-> & ?)%unwrap_Ok%checked_Some).
  exists f, l. split_and!; lia || done.
Qed.

(** What [check_funding_stream_address_period] establishes. *)
Lemma checked_stream_index p fs receiver r h :
  let network := Testnet p in
  0 < post_blossom_halving_interval network <= 2 * u32_MAX ->
  is_u32 (height_range fs).1 -> is_u32 (height_range fs).2 -> range_contains (height_range fs) h = true ->
  check_funding_stream_address_period fs network = Ok tt ->
  recipient fs receiver = Some r -> receiver <> DeferredReceiver ->
  exists index, address_periods_between (funding_stream_address_period (height_range fs).1 network)
                  (funding_stream_address_period h network) = Ok index
    /\ 0 < index <= Z.of_nat (length (addresses r))
    /\ Forall (fun a => address_network_kind a = TestnetKind) (addresses r).
Proof.
  cbv zeta. intros Hpost Hlo Hhi Hc Hcheck Hr Hne. unfold check_funding_stream_address_period in Hcheck.
  apply bind_Ok_inv in Hcheck as (required & Hreq & Hcheck).
  apply bind_Ok_inv in Hreq as (prev & Hprev & Hreq).
  apply (proj1 (expect_Ok _ _)) in Hprev.
  apply andb_true_iff in Hc as [Hc1%Z.leb_le Hc2%Z.ltb_lt].
  assert (prev = (height_range fs).2 - 1) as ->.
  { unfold height_previous in Hprev. rewrite height_sub_diff_spec in Hprev by width_lia.
    cbn [lift mbind res_bind] in Hprev. apply ok_or_Ok in Hprev. destruct (in_range _ _ _); [|done].
    by injection Hprev as <-. }
  apply periods_between_Ok in Hreq as (f & l & Hf & Hl & -> & Hmax & Hn).
  destruct (address_period_between p (height_range fs).1 h ((height_range fs).2 - 1) f l) as (q & Hq & Hle);
    [done|done|lia|width_lia|done|done|].
  apply foldM_unit_Ok in Hcheck. rewrite Forall_forall in Hcheck.
  specialize (Hcheck (receiver, r) (proj2 (elem_of_map_to_list _ _ _) Hr)). unfold check_recipient in Hcheck. cbn in Hcheck.
  rewrite bool_decide_eq_false_2 in Hcheck by done.
  apply bind_Ok_inv in Hcheck as (u & Hlen%assert_Ok%Z.leb_le & Hkind%foldM_unit_Ok).
  exists (1 + q - f). split_and!; [|lia|lia|].
  - unfold address_periods_between. rewrite Hq. cbn [mbind res_bind].
    assert (0 <= f) as ?.
    { unfold funding_stream_address_period in Hf. repeat (apply bind_Ok_inv in Hf as (? & _ & Hf)).
      apply unwrap_Ok, checked_Some in Hf. lia. }
    rewrite checked_in by lia. cbn [unwrap mbind res_bind]. rewrite Hf. cbn [mbind res_bind].
    rewrite checked_in; [done|lia].
  - eapply Forall_impl; [exact Hkind|]. cbn. intros a Ha%assert_Ok. by apply bool_decide_eq_true in Ha.
Qed.

Lemma find_Some_inv {A} (f : A -> bool) l x : List.find f l = Some x -> x ∈ l /\ f x = true.
Proof. intros Hf. apply List.find_some in Hf as [Hin Hx]. split; [by apply list_elem_of_In|done]. Qed.

(** On a test network that [to_network] accepts, the address of a funding
    stream is found without a panic at every height: there is one whenever the
    receiver is paid at that height and is not the deferred pool, and it is a
    test network address of that recipient. *)
Theorem checked_streams_have_addresses b network height receiver :
  to_network b = Ok network ->
  0 < b_post_blossom_halving_interval b <= 2 * u32_MAX ->
  Forall (fun fs => is_u32 (height_range fs).1 /\ is_u32 (height_range fs).2) (b_funding_streams b) ->
  exists address, funding_stream_address height network receiver = Ok address
    /\ (forall fs r, funding_streams network height = Ok (Some fs) -> recipient fs receiver = Some r ->
         receiver <> DeferredReceiver ->
         exists a, address = Some a /\ a ∈ addresses r /\ address_network_kind a = TestnetKind).
Proof.
  unfold to_network. intros Hnet Hpost Hrange. apply bind_Ok_inv in Hnet as (u & Hcheck & Hnet). destruct u.
  apply foldM_unit_Ok in Hcheck. injection Hnet as <-. unfold to_network_unchecked in *.
  unfold funding_stream_address, funding_stream_address_index.
  destruct (bool_decide_reflect (receiver = DeferredReceiver)) as [Hd|Hd]; [by eexists|].
  unfold funding_streams. cbn [all_funding_streams mbind res_bind finish funding_streams_].
  destruct (List.find _ _) as [fs|] eqn:Ef; [|by eexists].
  destruct (recipient fs receiver) as [r|] eqn:Er; [|eexists; split; [done|]; intros; simplify_eq].
  apply find_Some_inv in Ef as [Hin Hc]. rewrite Forall_forall in Hcheck, Hrange.
  destruct (Hrange fs Hin). specialize (Hcheck fs Hin).
  destruct (checked_stream_index (finish b) fs receiver r height) as (i & -> & Hi & Hk); [done..|].
  cbn [mbind res_bind]. destruct (Z.ltb_spec 0 i); [|lia]. destruct (Z.leb_spec i (Z.of_nat (length (addresses r)))); [|lia].
  cbn. rewrite Er. cbn. destruct (lookup_lt_is_Some_2 (addresses r) (Z.to_nat (i - 1))) as [a Ha]; [lia|].
  rewrite Ha. eexists. split; [done|]. intros fs' r' [= <-] Hr' _. simplify_eq. exists a. split; [done|].
  split; [by eapply list_elem_of_lookup_2|]. exact (Forall_lookup_1 _ _ _ _ Hk Ha).
Qed.
End Addresses.

(** * Funding stream values *)

Lemma foldM_insert_map `{Countable K} {E A B} (f : A -> B) (l : list (K * A)) (m : gmap K B) :
  NoDup l.*1 ->
  foldM (fun m e => Ok (E := E) (<[e.1 := f e.2]> m)) m l = Ok (list_to_map (prod_map id f <$> l) ∪ m).
Proof.
  revert m. induction l as [|[k a] l IH]; intros m Hnd; cbn [foldM].
  { cbn. by rewrite (left_id_L ∅ (∪)). }
  cbn in Hnd. apply NoDup_cons in Hnd as [Hk Hnd]. cbn [mbind res_bind]. rewrite IH by done. cbn. f_equal.
  rewrite <- insert_union_l, insert_union_r; [done|]. apply not_elem_of_list_to_map_1.
  intros Hin. apply Hk. rewrite <- list_fmap_compose in Hin. exact Hin.
Qed.

Lemma foldM_ext {E S A} (f g : S -> A -> res E S) s l :
  (forall s a, a ∈ l -> f s a = g s a) -> foldM f s l = foldM g s l.
Proof.
  revert s. induction l as [|a l IH]; intros s Hfg; [done|]. cbn [foldM]. rewrite Hfg by left.
  destruct (g s a); cbn [mbind res_bind]; [|done..]. apply IH. intros. apply Hfg. by right.
Qed.

Definition stream_value (subsidy : Z) (r : FundingStreamRecipient) : Z :=
  subsidy * numerator r / FUNDING_STREAM_RECEIVER_DENOMINATOR.

(** The numerators of a stream are percentages of a whole. *)
Definition percentages (fs : FundingStreams) : Prop :=
  Forall (fun e => 0 <= numerator e.2) (map_to_list (recipients fs))
  /\ sum_Z (fun e => numerator e.2) (map_to_list (recipients fs)) <= FUNDING_STREAM_RECEIVER_DENOMINATOR.

Lemma numerator_bound fs e :
  percentages fs -> e ∈ map_to_list (recipients fs) -> 0 <= numerator e.2 <= 100.
Proof.
  intros [Hnn Hsum] He. split; [by eapply Forall_forall in Hnn|].
  pose proof (sum_Z_elem (fun e => numerator e.2) _ e Hnn He) as Hle. cbn beta in Hle.
  unfold FUNDING_STREAM_RECEIVER_DENOMINATOR in Hsum. lia.
Qed.

Lemma stream_value_eq subsidy n :
  0 <= subsidy -> subsidy * 100 <= MAX_MONEY -> 0 <= n <= 100 ->
  (product ← amount_mul NonNegative subsidy n;
   amount_div NonNegative product FUNDING_STREAM_RECEIVER_DENOMINATOR)
  = Ok (subsidy * n / FUNDING_STREAM_RECEIVER_DENOMINATOR).
Proof.
  intros Hs0 Hs Hn. assert (0 <= subsidy * n <= subsidy * 100) as Hp by nia.
  assert (amount_in NonNegative subsidy) as Ha by amount_lia.
  assert (amount_in NonNegative (subsidy * n)) as Hb by amount_lia.
  destruct (amount_arithmetic NonNegative subsidy subsidy n Ha Ha ltac:(width_lia)) as (_ & _ & -> & _).
  rewrite decide_True by done. cbn [mbind res_bind].
  destruct (amount_arithmetic NonNegative (subsidy * n) subsidy FUNDING_STREAM_RECEIVER_DENOMINATOR Hb Ha)
    as (_ & _ & _ & -> & _); [unfold FUNDING_STREAM_RECEIVER_DENOMINATOR; width_lia|].
  rewrite decide_False by done. by rewrite Z.quot_div_nonneg by (done || lia).
Qed.

Lemma stream_values_loop subsidy fs :
  0 <= subsidy -> subsidy * 100 <= MAX_MONEY -> percentages fs ->
  foldM (fun results '(receiver, recipient) =>
           product ← amount_mul NonNegative subsidy (numerator recipient);
           amount_value ← amount_div NonNegative product FUNDING_STREAM_RECEIVER_DENOMINATOR;
           Ok (<[receiver := amount_value]> results))
    ∅ (map_to_list (recipients fs))
  = Ok (stream_value subsidy <$> recipients fs).
Proof.
  intros Hs0 Hs Hp.
  rewrite (foldM_ext _ (fun m e => Ok (<[e.1 := stream_value subsidy e.2]> m))).
  - rewrite foldM_insert_map by apply NoDup_fst_map_to_list.
    by rewrite (right_id_L ∅ (∪)), list_to_map_fmap, list_to_map_to_list.
  - intros m [k r] He. pose proof (stream_value_eq subsidy (numerator r) Hs0 Hs (numerator_bound fs _ Hp He)) as Hv.
    destruct (amount_mul NonNegative subsidy (numerator r)) as [p| |]; [|done..]. cbn [mbind res_bind] in Hv |- *.
    by rewrite Hv.
Qed.

(** Rounding down every share leaves at least nothing. *)
Lemma stream_values_total subsidy fs :
  0 <= subsidy -> percentages fs ->
  let total := sum_Z id (snd <$> map_to_list (stream_value subsidy <$> recipients fs)) in
  0 <= total <= subsidy /\ Forall (fun v => 0 <= v <= subsidy) (snd <$> map_to_list (stream_value subsidy <$> recipients fs)).
Proof.
  intros Hs0 Hp. cbv zeta.
  assert (Forall (fun e => 0 <= stream_value subsidy e.2 <= subsidy /\ 100 * stream_value subsidy e.2 <= subsidy * numerator e.2)
            (map_to_list (recipients fs))) as Hall.
  { apply Forall_forall. intros e He. pose proof (numerator_bound fs e Hp He).
    unfold stream_value, FUNDING_STREAM_RECEIVER_DENOMINATOR.
    pose proof (Z.mul_div_le (subsidy * numerator e.2) 100). pose proof (Z.div_pos (subsidy * numerator e.2) 100). nia. }
  assert ((snd <$> map_to_list (stream_value subsidy <$> recipients fs))
          ≡ₚ (stream_value subsidy ∘ snd) <$> map_to_list (recipients fs)) as Hperm.
  { rewrite map_to_list_fmap, <- list_fmap_compose. done. }
  rewrite Hperm, sum_Z_fmap. split.
  - destruct Hp as [_ Hsum]. split.
    + apply sum_Z_nonneg. eapply Forall_impl; [exact Hall|]. cbn. unfold id. lia.
    + pose proof (sum_Z_le (fun e => 100 * stream_value subsidy e.2) (fun e => subsidy * numerator e.2)
                    (map_to_list (recipients fs))) as Hle.
      rewrite !sum_Z_scale in Hle. specialize (Hle ltac:(eapply Forall_impl; [exact Hall|]; cbn; lia)).
      unfold FUNDING_STREAM_RECEIVER_DENOMINATOR in Hsum.
      rewrite (sum_Z_ext (id ∘ (stream_value subsidy ∘ snd)) (fun e => stream_value subsidy e.2)) by done. nia.
  - apply Forall_fmap. eapply Forall_impl; [exact Hall|]. cbn. lia.
Qed.

Section StreamValues.
Context `{BuildProfile} `{AddressParser}.

(** The streams that a configuration gets past the checks. *)
Lemma converted_percentages c d b fs :
  convert_with_default c d b = Ok fs ->
  Forall (fun e => 0 <= numerator e.2) (map_to_list (recipients fs)) ->
  sum_Z (fun e => numerator e.2) (map_to_list (recipients fs)) <= u64_MAX ->
  percentages fs.
Proof.
  unfold convert_with_default. intros Hc Hnn Hsum. repeat (apply bind_Ok_inv in Hc as (? & ? & Hc)).
  rename H5 into Hs, H6 into Ha. injection Hc as <-. cbn [recipients] in *. split; [done|].
  apply assert_Ok, Z.leb_le in Ha.
  assert (forall l acc, 0 <= acc -> Forall (fun e : FundingStreamReceiver * FundingStreamRecipient => 0 <= numerator e.2) l ->
            acc + sum_Z (fun e => numerator e.2) l <= u64_MAX ->
            foldM (fun s e => arith_u 64 (s + numerator e.2)) acc l
            = Ok (E := Empty_set) (acc + sum_Z (fun e => numerator e.2) l)) as Hfold.
  { clear. induction l as [|e l IH]; intros acc Hacc Hl Hb; cbn [foldM sum_Z] in *; [by rewrite Z.add_0_r|].
    apply Forall_cons in Hl as [He Hl]. assert (0 <= sum_Z (fun e => numerator e.2) l) by (by apply sum_Z_nonneg).
    rewrite arith_u_in by width_lia. cbn [mbind res_bind]. rewrite IH by (done || lia). f_equal. lia. }
  rewrite Hfold in Hs by (done || lia). apply Ok_inj in Hs as <-. rewrite Z.add_0_l in Ha. exact Ha.
Qed.

Lemma funding_values_testnet p height subsidy canopy :
  activation_height Canopy (Testnet p) = Some canopy -> (forall fs, fs ∈ funding_streams_ p -> percentages fs) ->
  0 <= subsidy -> subsidy * 100 <= MAX_MONEY ->
  exists values, funding_stream_values height (Testnet p) subsidy = Ok values
    /\ (forall receiver, values !! receiver =
          (if canopy <=? height then
             fs ← List.find (fun fs => range_contains (height_range fs) height) (funding_streams_ p);
             stream_value subsidy <$> recipient fs receiver
           else None))
    /\ Forall (fun v => 0 <= v <= subsidy) (snd <$> map_to_list values)
    /\ 0 <= sum_Z id (snd <$> map_to_list values) <= subsidy.
Proof.
  intros Hcanopy Hpct Hs0 Hs. unfold funding_stream_values. rewrite Hcanopy. cbn [unwrap mbind res_bind].
  assert (forall P : gmap FundingStreamReceiver Z -> Prop, P ∅ -> exists values, Ok (E := amount_Error) ∅ = Ok values
    /\ P values /\ Forall (fun v => 0 <= v <= subsidy) (snd <$> map_to_list values)
    /\ 0 <= sum_Z id (snd <$> map_to_list values) <= subsidy) as Hempty.
  { intros P HP. exists ∅. split; [done|]. split; [done|]. rewrite map_to_list_empty. split; [constructor|]. cbn. lia. }
  destruct (canopy <=? height); [|apply Hempty; intros; apply lookup_empty].
  unfold funding_streams. cbn [all_funding_streams mbind res_bind lift].
  destruct (List.find _ (funding_streams_ p)) as [fs|] eqn:Ef; [|apply Hempty; intros; apply lookup_empty].
  apply find_Some_inv in Ef as [Hin _]. specialize (Hpct fs Hin). rewrite stream_values_loop by done.
  eexists. split; [done|]. destruct (stream_values_total subsidy fs) as [? ?]; [done..|].
  split; [|done]. intros receiver. by rewrite lookup_fmap.
Qed.

(** On a test network whose funding streams were configured and accepted,
    every funding stream value is computed, is the share of the subsidy rounded
    down, and the streams together never take more than the subsidy: the miner
    subsidy is the rest of it. *)
Theorem miner_subsidy_exact l b b' network height subsidy canopy :
  with_funding_streams l b = Ok b' -> to_network b' = Ok network ->
  Forall (fun fs => Forall (fun e => 0 <= numerator e.2) (map_to_list (recipients fs))
            /\ sum_Z (fun e => numerator e.2) (map_to_list (recipients fs)) <= u64_MAX) (b_funding_streams b') ->
  activation_height Canopy network = Some canopy -> 0 <= subsidy <= MAX_BLOCK_SUBSIDY ->
  exists values, funding_stream_values height network subsidy = Ok values
    /\ (forall receiver, values !! receiver =
          (if canopy <=? height then
             fs ← List.find (fun fs => range_contains (height_range fs) height) (b_funding_streams b');
             stream_value subsidy <$> recipient fs receiver
           else None))
    /\ miner_subsidy height network subsidy = Ok (subsidy - sum_Z id (snd <$> map_to_list values))
    /\ 0 <= sum_Z id (snd <$> map_to_list values) <= subsidy.
Proof.
  unfold with_funding_streams, with_funding_streams_by, to_network. intros Hb Hnet Hall Hcanopy Hs.
  apply bind_Ok_inv in Hb as (streams & Hstreams & Hb). apply Ok_inj in Hb as <-.
  apply bind_Ok_inv in Hnet as (u & _ & Hnet). apply Ok_inj in Hnet as <-. cbn [b_funding_streams] in Hall |- *.
  change MAX_BLOCK_SUBSIDY with 1250000000 in Hs.
  destruct (funding_values_testnet _ height subsidy canopy Hcanopy) as (values & Hv & Hl & Hin & Htot);
    [|lia|unfold MAX_MONEY, COIN; lia|].
  { intros fs Hin. apply map_res_Ok in Hstreams. apply list_elem_of_lookup in Hin as [i Hi].
    destruct (Forall2_lookup_r _ _ _ _ _ Hstreams Hi) as ([idx c] & _ & Hc).
    apply bind_Ok_inv in Hc as (d & _ & Hc). apply (Forall_lookup_1 _ _ _ _ Hall) in Hi as [? ?].
    by eapply converted_percentages. }
  exists values. unfold to_network_unchecked. split; [exact Hv|]. split; [exact Hl|]. split; [|done].
  unfold miner_subsidy. rewrite Hv. cbn [mbind res_bind].
  assert (Forall (amount_in NonNegative) (snd <$> map_to_list values)) as Ha
    by (eapply Forall_impl; [exact Hin|]; intros; amount_lia).
  destruct (amount_sum_nonneg _ Ha) as [_ Hsum].
  assert (sum_Z id (snd <$> map_to_list values) <= MAX_MONEY) as Hm by (unfold MAX_MONEY, COIN; lia).
  rewrite (proj2 (Hsum _) (conj eq_refl Hm)). cbn [mbind res_bind].
  rewrite amount_sub_eq by amount_lia. apply amount_try_from_in. amount_lia.
Qed.
End StreamValues.

(** * Examples *)

Module SubsidyExample.
#[local] Existing Instance release_build.
#[local] Instance toy_parser : AddressParser := fun _ => Some (PayToScriptHash TestnetKind []).

Lemma mainnet_halving : halving_network Mainnet 653600.
Proof. split; vm_compute; first [reflexivity | split; (discriminate || reflexivity)]. Qed.

Lemma num_halvings_total_witness : is_ok (num_halvings 1046400 Mainnet) = true.
Proof.
  apply (proj2 (num_halvings_total Mainnet 653600 mainnet_halving)); [vm_compute; reflexivity|].
  split; vm_compute; discriminate.
Defined.

Lemma height_for_halving_first_witness :
  height_for_halving 2 Mainnet = Ok (Some 2726400) /\ num_halvings 2726400 Mainnet = Ok 2.
Proof.
  destruct (height_for_halving_first Mainnet 653600 2 mainnet_halving) as (H1 & H2 & _);
    [vm_compute; reflexivity|lia|split; vm_compute; discriminate|vm_compute; discriminate|].
  split; [exact H1|exact H2].
Defined.

(** A network with short halvings and a late Blossom. *)
Definition late_blossom : Network :=
  Testnet (mkParameters "Late" [] [] [(0, Genesis); (1, Sapling); (2000, Nu6)] 1000 500 [] 0 false false 100 200 []).
Lemma late_blossom_halving : halving_network late_blossom 2000.
Proof. split; vm_compute; first [reflexivity | split; (discriminate || reflexivity)]. Qed.

Lemma height_for_halving_late_witness :
  height_for_halving 1 late_blossom = Ok (Some 1100) /\ num_halvings 600 late_blossom = Ok 1.
Proof.
  destruct (height_for_halving_late late_blossom 2000 1 late_blossom_halving) as (H1 & H2 & _);
    [lia|vm_compute; discriminate|vm_compute; discriminate|].
  split; [exact H1|exact H2].
Defined.

Lemma total_issuance_bounded_witness : sum_Z (issued Mainnet) (seqZ 1046399 2) <= MAX_MONEY.
Proof.
  destruct (total_issuance_bounded Mainnet 653600 1046399 2 mainnet_halving) as [H1 H2];
    [vm_compute; reflexivity|lia|vm_compute; discriminate|].
  etransitivity; [exact H1|]. rewrite <- H2. reflexivity.
Defined.

Definition builder_or (m : outcome ParametersBuilder) : ParametersBuilder :=
  match m with
  | Ok b => b
  | _ => mkParametersBuilder "" [] [] [] 0 [] false 0 false false 0 0 []
  end.
Definition crosslink_builder : ParametersBuilder := Eval vm_compute in
  with_slow_start_interval 0 (builder_or (b ← Parameters_build; with_network_magic [Byte.x43; Byte.x6c; Byte.x54; Byte.x6e] b)).

Lemma checked_streams_have_addresses_witness :
  exists address, funding_stream_address 1028500 (to_network_unchecked crosslink_builder) Ecc = Ok address.
Proof.
  destruct (checked_streams_have_addresses crosslink_builder (to_network_unchecked crosslink_builder) 1028500 Ecc)
    as (a & Ha & _); [vm_compute; reflexivity|split; vm_compute; (reflexivity || discriminate)| |eauto].
  repeat (constructor; [split; split; vm_compute; discriminate|]). constructor.
Defined.

(** One configured stream: 12 percent deferred, 8 percent for the grants. *)
Definition configured : list ConfiguredFundingStreams :=
  [mkConfiguredFundingStreams (Some (10, 20))
     (Some [mkConfiguredFundingStreamRecipient DeferredReceiver 12 None;
            mkConfiguredFundingStreamRecipient MajorGrants 8 (Some ["t2HifwjUj9uyxr9bknR8LFuQbc98c3vkXtu"])])].
Definition configured_builder : ParametersBuilder :=
  Eval vm_compute in builder_or (with_funding_streams configured crosslink_builder).

Lemma miner_subsidy_exact_witness :
  exists values, funding_stream_values 15 (to_network_unchecked configured_builder) 625000001 = Ok values
    /\ values !! MajorGrants = Some 50000000
    /\ miner_subsidy 15 (to_network_unchecked configured_builder) 625000001
       = Ok (625000001 - sum_Z id (snd <$> map_to_list values)).
Proof.
  destruct (miner_subsidy_exact configured crosslink_builder configured_builder
              (to_network_unchecked configured_builder) 15 625000001 1) as (values & Hv & Hl & Hm & _).
  - vm_compute. reflexivity.
  - vm_compute. reflexivity.
  - constructor; [|constructor]. split; [|vm_compute; discriminate].
    apply Forall_forall. vm_compute map_to_list. intros e He. rewrite !elem_of_cons, elem_of_nil in He.
    destruct He as [->|[->|[]]]; vm_compute; discriminate.
  - vm_compute. reflexivity.
  - split; vm_compute; discriminate.
  - exists values. split; [exact Hv|]. split; [|exact Hm]. rewrite Hl. vm_compute. reflexivity.
Defined.

(** On the default test network no halving has happened at
    [FIRST_HALVING_TESTNET], which [height_for_first_halving] returns there. *)
Lemma default_testnet_first_halving :
  exists p, Parameters_default = Ok p
    /\ height_for_first_halving (Testnet p) = Ok FIRST_HALVING_TESTNET
    /\ num_halvings FIRST_HALVING_TESTNET (Testnet p) = Ok 0.
Proof. eexists. split; [vm_compute; reflexivity|]. split; vm_compute; reflexivity. Qed.
End SubsidyExample.
