(* ===== verification/BlockHeader.v ===== *)
(** Block headers and their wire format
    ([zebra-chain/src/block/header.rs], [block/serialize.rs],
    [work/equihash.rs]): the version check, Equihash solutions, the fat
    pointer to a BFT block that Crosslink adds to the header, and headers with
    a transaction count. *)
From S2P Require Import Prelude Serialization.
From stdpp Require Import prelude strings.
From coqutil Require Import Byte.
From Stdlib Require Import ZArith Lia.
#[local] Open Scope Z_scope.

(** * Fat pointers *)

Record FatPointerSignature := mkFatPointerSignature {
  fps_public_key : bytes;
  fps_vote_signature : bytes
}.

Record FatPointerToBftBlock := mkFatPointerToBftBlock {
  fp_vote_for_block_without_finalizer_public_key : bytes;
  fp_signatures : list FatPointerSignature
}.

Definition FatPointerSignature_to_bytes (s : FatPointerSignature) : bytes :=
  fps_public_key s ++ fps_vote_signature s.

Definition FatPointerSignature_from_bytes (b : bytes) : FatPointerSignature :=
  mkFatPointerSignature (take 32 b) (take 64 (drop 32 b)).

Definition FatPointerToBftBlock_null : FatPointerToBftBlock :=
  mkFatPointerToBftBlock (zero_bytes (76 - 32)) [].

Definition FatPointerToBftBlock_to_bytes (fp : FatPointerToBftBlock) : bytes :=
  fp_vote_for_block_without_finalizer_public_key fp
  ++ write_u16 (Z.of_nat (length (fp_signatures fp)))
  ++ concat (FatPointerSignature_to_bytes <$> fp_signatures fp).

(** [&l[a..b]]: panics unless [a <= b <= l.len()]. *)
Definition slice {E} (a b : nat) (l : bytes) : res E bytes :=
  if decide (a <= b /\ b <= length l)%nat then Ok (take (b - a) (drop a l)) else Panic.

(** [chunks_exact(n)]: the consecutive chunks of exactly [n] bytes; a shorter
    rest is dropped. The fuel is the length of the list. *)
Fixpoint chunks_exact_fuel (fuel n : nat) (l : bytes) : list bytes :=
  match fuel with
  | O => []
  | S fuel' =>
      if decide (n <= length l)%nat
      then take n l :: chunks_exact_fuel fuel' n (drop n l)
      else []
  end.
Definition chunks_exact (n : nat) (l : bytes) : list bytes :=
  chunks_exact_fuel (length l) n l.

(** The count is read from [bytes[76 - 32..2]], as in the source. *)
Definition FatPointerToBftBlock_try_from_bytes (b : bytes) : outcome (option FatPointerToBftBlock) :=
  if decide (length b < 76 - 32 + 2)%nat then Ok None
  else
    vote ← slice 0 (76 - 32) b;
    len_bytes ← slice (76 - 32) 2 b;
    len_array ← assert_ (bool_decide (length len_bytes = 2%nat));
    let len := le_value len_bytes in
    if Z.of_nat (length b) <? 76 - 32 + 2 + len * (32 + 64) then Ok None
    else
      let rem := drop (76 - 32 + 2) b in
      let signatures := FatPointerSignature_from_bytes <$> chunks_exact (32 + 64) rem in
      Ok (Some (mkFatPointerToBftBlock vote signatures)).

Definition points_at_block_hash (fp : FatPointerToBftBlock) : bytes :=
  take 32 (fp_vote_for_block_without_finalizer_public_key fp).

(** One iteration of the loops that write and read the signatures. *)
#[export] Instance FatPointerSignature_write : ZcashSerialize FatPointerSignature := fun s =>
  Ok (FatPointerSignature_to_bytes s).
#[export] Instance FatPointerSignature_read : ZcashDeserialize FatPointerSignature :=
  b ← read_exact (32 + 64); mret (FatPointerSignature_from_bytes b).

#[export] Instance FatPointerToBftBlock_serialize : ZcashSerialize FatPointerToBftBlock := fun fp =>
  sigs ← zcash_serialize_external_count (fp_signatures fp);
  Ok (fp_vote_for_block_without_finalizer_public_key fp
      ++ write_u16 (Z.of_nat (length (fp_signatures fp))) ++ sigs).

#[export] Instance FatPointerToBftBlock_deserialize : ZcashDeserialize FatPointerToBftBlock :=
  vote ← read_exact (76 - 32);
  len ← read_u16;
  signatures ← read_items (Z.to_nat len);
  mret (mkFatPointerToBftBlock vote signatures).

(** * Equihash solutions *)

Definition SOLUTION_SIZE : nat := 1344.
Definition REGTEST_SOLUTION_SIZE : nat := 36.
Definition INPUT_LENGTH : nat := 4 + 32 * 3 + 4 * 2.

Inductive Solution : Type :=
| Common (b : bytes)
| Regtest (b : bytes).

Definition Solution_value (s : Solution) : bytes :=
  match s with Common b => b | Regtest b => b end.

Definition Solution_from_bytes (solution : bytes) : res SerializationError Solution :=
  if decide (length solution = SOLUTION_SIZE) then Ok (Common solution)
  else if decide (length solution = REGTEST_SOLUTION_SIZE) then Ok (Regtest solution)
  else Err (Parse "incorrect equihash solution size").

Definition Solution_for_proposal : Solution := Common (zero_bytes SOLUTION_SIZE).

#[export] Instance Solution_serialize : ZcashSerialize Solution := fun s =>
  zcash_serialize_bytes (Solution_value s).

#[export] Instance Solution_deserialize : ZcashDeserialize Solution :=
  solution ← zcash_deserialize_bytes;
  reader_of (Solution_from_bytes solution).

(** * Headers *)

(** [time] is the Unix timestamp in seconds; block times have no smaller part
    on the wire. *)
Record Header := mkHeader {
  version : Z;
  previous_block_hash : bytes;
  merkle_root : bytes;
  commitment_bytes : bytes;
  time : Z;
  difficulty_threshold : Z;
  nonce : bytes;
  solution : Solution;
  fat_pointer_to_bft_block : FatPointerToBftBlock
}.

Record CountedHeader := mkCountedHeader { counted_header : Header }.

Definition ZCASH_BLOCK_VERSION : Z := 4.
Definition BLOCK_HEADER_LENGTH : Z :=
  Z.of_nat INPUT_LENGTH + 32 + 3 + Z.of_nat SOLUTION_SIZE + (76 - 32 + 2) + 128.
Definition MIN_COUNTED_HEADER_LEN : Z := BLOCK_HEADER_LENGTH + 1.

#[export] Instance CountedHeader_max_allocation : TrustedPreallocate CountedHeader :=
  (MAX_PROTOCOL_MESSAGE_LEN - 1) / MIN_COUNTED_HEADER_LEN.

Definition check_version (version : Z) : res string unit :=
  if negb (Z.shiftr version 31 =? 0) then Err "high bit was set in version field"
  else if version <? ZCASH_BLOCK_VERSION then Err "version must be at least 4"
  else Ok tt.

(** [u32::reverse_bits]. *)
Definition reverse_bits (x : Z) : Z :=
  foldr (fun i acc => if Z.testbit x i then Z.lor acc (Z.shiftl 1 (31 - i)) else acc)
    0 (Z.of_nat <$> seq 0 32).

(** The [logical_version] both directions compute from the version field. *)
Definition logical_version (version : Z) : Z :=
  if negb (Z.land version 0xffff0000 =? 0) then reverse_bits version else version.
#[global] Arguments reverse_bits : simpl never.
#[global] Arguments logical_version : simpl never.

#[export] Instance Header_serialize : ZcashSerialize Header := fun h =>
  _ ← map_err IoOther (check_version (version h));
  let lv := logical_version (version h) in
  t ← unwrap (u32_checked (time h));
  sol ← zcash_serialize (solution h);
  fp ← (if 5 <=? lv then zcash_serialize (fat_pointer_to_bft_block h) else Ok []);
  Ok (write_u32 (version h)
      ++ previous_block_hash h
      ++ merkle_root h
      ++ commitment_bytes h
      ++ write_u32 t
      ++ write_u32 (difficulty_threshold h)
      ++ nonce h
      ++ sol
      ++ fp).

#[export] Instance Header_deserialize : ZcashDeserialize Header :=
  version ← read_u32;
  _ ← reader_of (map_err Parse (check_version version));
  let lv := logical_version version in
  previous_block_hash ← read_32_bytes;
  merkle_root ← read_32_bytes;
  commitment_bytes ← read_32_bytes;
  time ← read_u32;
  difficulty_threshold ← read_u32;
  nonce ← read_32_bytes;
  solution ← zcash_deserialize;
  fat_pointer_to_bft_block ←
    (if 5 <=? lv then zcash_deserialize else mret FatPointerToBftBlock_null);
  mret (mkHeader version previous_block_hash merkle_root commitment_bytes time
          difficulty_threshold nonce solution fat_pointer_to_bft_block).

#[export] Instance CountedHeader_serialize : ZcashSerialize CountedHeader := fun c =>
  h ← zcash_serialize (counted_header c);
  transaction_count ← expect (CompactSizeMessage_try_from 0);
  n ← zcash_serialize transaction_count;
  Ok (h ++ n).

#[export] Instance CountedHeader_deserialize : ZcashDeserialize CountedHeader :=
  header ← zcash_deserialize;
  _transaction_count ← (zcash_deserialize : reader CompactSizeMessage);
  mret (mkCountedHeader header).

(** [Header::time_is_valid_at]: at most two hours after [now]. *)
Inductive BlockTimeError : Type :=
| InvalidBlockTime (time height : Z) (hash : bytes) (limit : Z).

Definition time_is_valid_at (h : Header) (now height : Z) (hash : bytes) : res BlockTimeError unit :=
  let two_hours_in_the_future := now + 2 * 60 * 60 in
  if time h <=? two_hours_in_the_future then Ok tt
  else Err (InvalidBlockTime (time h) height hash two_hours_in_the_future).

(** * Well-formed values *)

Definition wf_FatPointerSignature (s : FatPointerSignature) : Prop :=
  length (fps_public_key s) = 32%nat /\ length (fps_vote_signature s) = 64%nat.

(** The signature count is written as a [u16]. *)
Definition wf_FatPointerToBftBlock (fp : FatPointerToBftBlock) : Prop :=
  length (fp_vote_for_block_without_finalizer_public_key fp) = 44%nat
  /\ Forall wf_FatPointerSignature (fp_signatures fp)
  /\ Z.of_nat (length (fp_signatures fp)) <= u16_MAX.

Definition wf_Solution (s : Solution) : Prop :=
  match s with
  | Common b => length b = SOLUTION_SIZE
  | Regtest b => length b = REGTEST_SOLUTION_SIZE
  end.

Definition valid_version (v : Z) : Prop := ZCASH_BLOCK_VERSION <= v < 2 ^ 31.

(** A header of a logical version below 5 has no fat pointer on the wire, so
    only the null one can be represented. *)
Definition wf_Header (h : Header) : Prop :=
  valid_version (version h)
  /\ length (previous_block_hash h) = 32%nat
  /\ length (merkle_root h) = 32%nat
  /\ length (commitment_bytes h) = 32%nat
  /\ is_u32 (time h)
  /\ is_u32 (difficulty_threshold h)
  /\ length (nonce h) = 32%nat
  /\ wf_Solution (solution h)
  /\ wf_FatPointerToBftBlock (fat_pointer_to_bft_block h)
  /\ (logical_version (version h) < 5 ->
      fat_pointer_to_bft_block h = FatPointerToBftBlock_null).

(** * Codec lemmas *)

Lemma FatPointerSignature_from_to_bytes s :
  wf_FatPointerSignature s -> FatPointerSignature_from_bytes (FatPointerSignature_to_bytes s) = s.
Proof.
  destruct s as [pk sg]. intros [Hp Hs]; simpl in *.
  unfold FatPointerSignature_from_bytes, FatPointerSignature_to_bytes; simpl.
  rewrite take_app_length', drop_app_length', take_ge by lia. done.
Qed.

Lemma FatPointerSignature_to_from_bytes b :
  length b = 96%nat ->
  FatPointerSignature_to_bytes (FatPointerSignature_from_bytes b) = b
  /\ wf_FatPointerSignature (FatPointerSignature_from_bytes b).
Proof.
  intros Hb. unfold FatPointerSignature_to_bytes, FatPointerSignature_from_bytes,
    wf_FatPointerSignature; simpl.
  rewrite (take_ge (drop 32 b)) by (rewrite length_drop; lia).
  rewrite take_drop, length_take, length_drop. split; [done | lia].
Qed.

#[export] Instance FatPointerSignature_codec : Codec FatPointerSignature wf_FatPointerSignature.
Proof.
  split.
  - intros s _. unfold zcash_serialize, FatPointerSignature_write. eauto.
  - intros s bs rest Hw [= <-]. unfold zcash_deserialize, FatPointerSignature_read.
    erewrite reader_bind_Ok.
    2: { apply read_exact_app. unfold FatPointerSignature_to_bytes.
         destruct Hw as [Hp Hs]. rewrite length_app. lia. }
    by rewrite FatPointerSignature_from_to_bytes.
Qed.

#[export] Instance FatPointerSignature_is_canonical :
  Canonical FatPointerSignature wf_FatPointerSignature.
Proof.
  intros s a rest H. unfold zcash_deserialize, FatPointerSignature_read in H. rd_inv H.
  injection H as <- <-. apply read_exact_inv in Hr as [-> Hl].
  destruct (FatPointerSignature_to_from_bytes _ Hl) as [Hb Hw].
  split; [done |]. eexists. split; [done |]. by rewrite Hb.
Qed.

#[export] Instance FatPointerToBftBlock_codec :
  Codec FatPointerToBftBlock wf_FatPointerToBftBlock.
Proof.
  split.
  - intros fp (_ & Hf & _). unfold zcash_serialize, FatPointerToBftBlock_serialize.
    destruct (serialize_items_total _ Hf) as [bs ->]. simpl. eauto.
  - intros [vote sigs] bs rest (Hv & Hf & Hn) H; simpl in *.
    unfold zcash_serialize, FatPointerToBftBlock_serialize in H; cbn [fp_signatures] in H.
    apply bind_Ok_inv in H as (sb & Hs & H). inv_res. cbn [fp_vote_for_block_without_finalizer_public_key].
    rewrite <- !app_assoc. unfold zcash_deserialize, FatPointerToBftBlock_deserialize.
    erewrite reader_bind_Ok by (by apply read_exact_app).
    erewrite reader_bind_Ok by (apply read_le_app; simpl; width_lia).
    rewrite Nat2Z.id.
    by erewrite reader_bind_Ok by (by apply read_items_roundtrip).
Qed.

#[export] Instance FatPointerToBftBlock_is_canonical :
  Canonical FatPointerToBftBlock wf_FatPointerToBftBlock.
Proof.
  intros s a rest H. unfold zcash_deserialize, FatPointerToBftBlock_deserialize in H.
  rd_inv H. rd_inv H. rd_inv H. injection H as <- <-.
  apply read_exact_inv in Hr as [-> Hv]. apply read_le_inv in Hr0 as [-> Hn].
  apply read_items_canonical in Hr1 as (Hl & Hf & bs & Hs & ->).
  split; [split; [done |]; split; [done |]; simpl in *; rewrite Hl; width_lia |].
  unfold zcash_serialize, FatPointerToBftBlock_serialize. cbn [fp_signatures]. rewrite Hs.
  eexists. split; [done |]. cbn [fp_vote_for_block_without_finalizer_public_key].
  rewrite Hl, Z2Nat.id, <- !app_assoc by lia. done.
Qed.

Lemma wf_null_fat_pointer : wf_FatPointerToBftBlock FatPointerToBftBlock_null.
Proof. by repeat split. Qed.

Lemma Solution_from_value s : wf_Solution s -> Solution_from_bytes (Solution_value s) = Ok s.
Proof.
  unfold Solution_from_bytes. destruct s; simpl; intros ->;
    [by rewrite decide_True | by rewrite decide_False, decide_True].
Qed.

Lemma Solution_from_bytes_inv b s :
  Solution_from_bytes b = Ok s -> wf_Solution s /\ Solution_value s = b.
Proof. unfold Solution_from_bytes. repeat case_decide; intros; inv_res; done. Qed.

Lemma wf_Solution_length s :
  wf_Solution s -> (length (Solution_value s) <= SOLUTION_SIZE)%nat.
Proof. destruct s; simpl; intros ->; unfold SOLUTION_SIZE, REGTEST_SOLUTION_SIZE; lia. Qed.

#[export] Instance Solution_codec : Codec Solution wf_Solution.
Proof.
  split.
  - intros s Hw. apply wf_Solution_length in Hw.
    unfold zcash_serialize, Solution_serialize. rewrite zcash_serialize_bytes_spec.
    unfold SOLUTION_SIZE in Hw.
    rewrite (proj2 (Z.leb_le _ _)) by (unfold MAX_PROTOCOL_MESSAGE_LEN; lia).
    destruct (codec_total (mkCompactSizeMessage (Z.of_nat (length (Solution_value s))))) as [l ->].
    { unfold wf_CompactSizeMessage, MAX_PROTOCOL_MESSAGE_LEN; simpl; lia. }
    simpl. eauto.
  - intros s bs rest Hw H. unfold zcash_deserialize, Solution_deserialize.
    pose proof (wf_Solution_length s Hw) as Hl. unfold SOLUTION_SIZE in Hl.
    erewrite reader_bind_Ok.
    2: { eapply zcash_bytes_roundtrip; [|exact H].
         unfold MAX_U8_ALLOCATION, MAX_PROTOCOL_MESSAGE_LEN; lia. }
    unfold reader_of. by rewrite Solution_from_value.
Qed.

#[export] Instance Solution_is_canonical : Canonical Solution wf_Solution.
Proof.
  intros s a rest H. unfold zcash_deserialize, Solution_deserialize in H. rd_inv H.
  apply reader_of_inv in H as [H ->]. apply Solution_from_bytes_inv in H as [Hw <-].
  apply zcash_bytes_canonical in Hr as [_ Hr]. done.
Qed.

Lemma check_version_spec v :
  is_u32 v -> check_version v = Ok tt <-> valid_version v.
Proof.
  intros Hv. unfold check_version, valid_version, ZCASH_BLOCK_VERSION.
  assert (Hs : Z.shiftr v 31 = v / 2 ^ 31) by (by rewrite Z.shiftr_div_pow2).
  rewrite Hs. split.
  - repeat case_match; intros; inv_res; try done. bool_to_prop.
    split; [lia |]. apply Z.div_small_iff in H; [|lia]. width_lia.
  - intros. rewrite Z.div_small by lia. simpl. by rewrite (proj2 (Z.ltb_ge _ _)) by lia.
Qed.

Lemma valid_version_check v : valid_version v -> check_version v = Ok tt.
Proof.
  intros Hv. apply check_version_spec; [|done].
  unfold valid_version, ZCASH_BLOCK_VERSION in Hv. width_lia.
Qed.

Lemma Header_roundtrip h bs rest :
  wf_Header h -> zcash_serialize h = Ok bs -> zcash_deserialize (bs ++ rest) = Ok (h, rest).
Proof.
  destruct h as [v prev mr cb t d n sol fp].
  intros (Hv & Hprev & Hmr & Hcb & Ht & Hd & Hn & Hsol & Hfp & Hnull); cbn in *.
  pose proof (valid_version_check v Hv) as Hcv.
  assert (Hv32 : 0 <= v < 2 ^ 32) by (unfold valid_version, ZCASH_BLOCK_VERSION in Hv; lia).
  unfold zcash_serialize, Header_serialize; cbn [version time solution fat_pointer_to_bft_block
    previous_block_hash merkle_root commitment_bytes difficulty_threshold nonce].
  rewrite Hcv. cbn [map_err mbind res_bind].
  rewrite (checked_in 0 u32_MAX t) by done. cbn [unwrap].
  intros (t' & [= <-] & H)%bind_Ok_inv. apply bind_Ok_inv in H as (sb & Hsb & H).
  apply bind_Ok_inv in H as (fb & Hfb & H). inv_res.
  rewrite <- !app_assoc. unfold zcash_deserialize, Header_deserialize.
  erewrite reader_bind_Ok by (apply read_le_app; simpl; lia).
  rewrite Hcv. erewrite reader_bind_Ok by done. cbv zeta.
  do 3 erewrite reader_bind_Ok by (by apply read_exact_app).
  do 2 erewrite reader_bind_Ok by (apply read_le_app; simpl; width_lia).
  erewrite reader_bind_Ok by (by apply read_exact_app).
  erewrite reader_bind_Ok by (by eapply codec_roundtrip).
  destruct (5 <=? logical_version v) eqn:E.
  - by erewrite reader_bind_Ok by (by eapply codec_roundtrip).
  - inv_res. bool_to_prop. rewrite Hnull by lia. done.
Qed.

Lemma Header_total h : wf_Header h -> exists bs, zcash_serialize h = Ok bs.
Proof.
  intros (Hv & _ & _ & _ & Ht & _ & _ & Hsol & Hfp & _).
  unfold zcash_serialize, Header_serialize.
  rewrite valid_version_check by done.
  cbn [map_err mbind res_bind]. rewrite (checked_in 0 u32_MAX _) by done. cbn [unwrap].
  destruct (codec_total _ Hsol) as [sb ->]. cbn.
  destruct (codec_total _ Hfp) as [fb Hfb].
  case_match; [rewrite Hfb|]; cbn; eauto.
Qed.

#[export] Instance Header_codec : Codec Header wf_Header.
Proof. split; [exact Header_total | exact Header_roundtrip]. Qed.

Lemma header_fat_pointer_canonical lv s fp rest :
  (if 5 <=? lv then zcash_deserialize else mret FatPointerToBftBlock_null) s = Ok (fp, rest) ->
  wf_FatPointerToBftBlock fp /\ (lv < 5 -> fp = FatPointerToBftBlock_null) /\
  exists fb, (if 5 <=? lv then zcash_serialize fp else Ok []) = Ok fb /\ s = fb ++ rest.
Proof.
  destruct (5 <=? lv) eqn:E; bool_to_prop; intros H.
  - apply codec_canonical in H as [? (fb & ? & ->)]. split; [done |]. split; [lia | eauto].
  - injection H as <- <-. split; [apply wf_null_fat_pointer |]. eauto.
Qed.

#[export] Instance Header_is_canonical : Canonical Header wf_Header.
Proof.
  intros s a rest H. unfold zcash_deserialize, Header_deserialize in H.
  apply reader_bind_inv in H as (v & s1 & Hv & H). apply reader_bind_inv in H as ([] & s2 & Hc & H).
  cbv zeta in H. apply reader_bind_inv in H as (prev & s3 & Hprev & H).
  apply reader_bind_inv in H as (mr & s4 & Hmr & H). apply reader_bind_inv in H as (cb & s5 & Hcb & H).
  apply reader_bind_inv in H as (t & s6 & Ht & H). apply reader_bind_inv in H as (d & s7 & Hd & H).
  apply reader_bind_inv in H as (n & s8 & Hn & H). apply reader_bind_inv in H as (sol & s9 & Hsol & H).
  apply reader_bind_inv in H as (fp & s10 & Hfp & H). injection H as <- <-.
  apply read_le_inv in Hv as [-> Hv]. apply reader_of_inv in Hc as [Hc ->].
  assert (Hcv : check_version v = Ok tt) by (by destruct (check_version v) as [[]| |]).
  apply read_exact_inv in Hprev as [-> ?]. apply read_exact_inv in Hmr as [-> ?].
  apply read_exact_inv in Hcb as [-> ?]. apply read_le_inv in Ht as [-> Ht].
  apply read_le_inv in Hd as [-> Hd]. apply read_exact_inv in Hn as [-> ?].
  apply codec_canonical in Hsol as [Hsol (sb & Hsb & ->)].
  apply header_fat_pointer_canonical in Hfp as (Hfp & Hnull & fb & Hfb & ->).
  change (2 ^ (8 * Z.of_nat 4)) with 4294967296 in *.
  assert (Hvv : valid_version v) by (apply check_version_spec; [width_lia | done]).
  split.
  { unfold wf_Header. cbn.
    repeat match goal with |- _ /\ _ => split end; try done; width_lia. }
  unfold zcash_serialize, Header_serialize; cbn [version time solution fat_pointer_to_bft_block
    previous_block_hash merkle_root commitment_bytes difficulty_threshold nonce].
  rewrite Hcv, (checked_in 0 u32_MAX t), Hsb by width_lia. cbn [map_err unwrap mbind res_bind].
  rewrite Hfb. eexists. split; [done |]. by rewrite <- !app_assoc.
Qed.

(** * Headers with a transaction count *)

Definition wf_CountedHeader (c : CountedHeader) : Prop := wf_Header (counted_header c).

#[export] Instance CountedHeader_codec : Codec CountedHeader wf_CountedHeader.
Proof.
  split.
  - intros [h] Hw. unfold zcash_serialize, CountedHeader_serialize.
    destruct (Header_total h Hw) as [bs Hb]. cbn [counted_header]. rewrite Hb. simpl. eauto.
  - intros [h] bs rest Hw H. unfold zcash_serialize, CountedHeader_serialize in H.
    cbn [counted_header] in H. apply bind_Ok_inv in H as (hb & Hh & H).
    apply bind_Ok_inv in H as (n & [= <-] & H). apply bind_Ok_inv in H as (nb & Hnb & H). inv_res.
    rewrite <- app_assoc. unfold zcash_deserialize, CountedHeader_deserialize.
    erewrite reader_bind_Ok by (by eapply Header_roundtrip).
    erewrite reader_bind_Ok; [done |]. eapply codec_roundtrip; [|exact Hnb].
    unfold wf_CompactSizeMessage, MAX_PROTOCOL_MESSAGE_LEN. simpl. lia.
Qed.

(** * Claims *)

(** A header in the wire format: every well-formed header can be written, and
    reading back what was written, with anything after it, gives the same
    header and leaves the rest; conversely whatever the reader accepts is
    well-formed and is exactly the encoding of what it returned. *)
Theorem header_wire_format (h : Header) :
  (wf_Header h ->
   exists bs, zcash_serialize h = Ok bs /\
     forall rest, zcash_deserialize (bs ++ rest) = Ok (h, rest))
  /\ (forall s rest, zcash_deserialize s = Ok (h, rest) ->
       wf_Header h /\ exists bs, zcash_serialize h = Ok bs /\ s = bs ++ rest).
Proof.
  split.
  - intros Hw. destruct (Header_total h Hw) as [bs Hb]. exists bs.
    split; [done |]. intros. by apply Header_roundtrip.
  - intros s rest H. by apply codec_canonical.
Qed.

(** [FatPointerToBftBlock::try_from_bytes] never returns a fat pointer: inputs
    of fewer than 46 bytes give [None], and every other input panics, because
    the signature count is sliced from the reversed range [44..2]. *)
Theorem fat_pointer_try_from_bytes_panics (b : bytes) :
  FatPointerToBftBlock_try_from_bytes b =
    if decide (length b < 46)%nat then Ok None else Panic.
Proof.
  unfold FatPointerToBftBlock_try_from_bytes. change (76 - 32 + 2)%nat with 46%nat.
  case_decide as Hlen; [done |]. unfold slice. change (76 - 32)%nat with 44%nat.
  rewrite (decide_False (P := (44 <= 2 <= length b)%nat)) by lia. by case_decide.
Qed.

Lemma header_length h bs :
  wf_Header h -> logical_version (version h) < 5 -> zcash_serialize h = Ok bs ->
  length (Solution_value (solution h)) = SOLUTION_SIZE -> length bs = 1487%nat.
Proof.
  intros (Hv & Hp & Hm & Hc & Ht & _ & Hn & _ & _ & _) Hlv Hs Hsol.
  unfold zcash_serialize, Header_serialize in Hs. rewrite valid_version_check in Hs by done.
  rewrite (checked_in 0 u32_MAX _ Ht) in Hs. cbn [map_err unwrap mbind res_bind] in Hs.
  apply bind_Ok_inv in Hs as (sb & Hsb & Hs). rewrite (proj2 (Z.leb_gt _ _)) in Hs by lia.
  cbn [mbind res_bind] in Hs. inv_res.
  unfold zcash_serialize, Solution_serialize in Hsb. rewrite zcash_serialize_bytes_spec, Hsol in Hsb.
  apply bind_Ok_inv in Hsb as (lb & [= <-] & Hsb). inv_res.
  rewrite !length_app, Hp, Hm, Hc, Hn, Hsol. by unfold write_u32; rewrite !length_le_bytes.
Qed.

(** [MIN_COUNTED_HEADER_LEN] (1662) is not the minimum size of an encoded
    [CountedHeader], as its comment says: the encoding of every well-formed
    header of logical version 4 with a 1344-byte solution is 1488 bytes. *)
Theorem counted_header_below_min (h : Header) :
  wf_Header h -> logical_version (version h) < 5 ->
  length (Solution_value (solution h)) = SOLUTION_SIZE ->
  exists bs, zcash_serialize (mkCountedHeader h) = Ok bs
    /\ Z.of_nat (length bs) = 1488
    /\ Z.of_nat (length bs) < MIN_COUNTED_HEADER_LEN.
Proof.
  intros Hw Hlv Hsol. destruct (Header_total h Hw) as [hb Hh].
  pose proof (header_length h hb Hw Hlv Hh Hsol) as Hlen.
  unfold zcash_serialize, CountedHeader_serialize. cbn [counted_header]. rewrite Hh.
  eexists. split; [done |]. rewrite length_app, Hlen. done.
Qed.

(** * The claims at a concrete header *)

Definition example_header : Header :=
  mkHeader 4 (zero_bytes 32) (zero_bytes 32) (zero_bytes 32) 1477641360 0x1f07ffff (zero_bytes 32)
    Solution_for_proposal FatPointerToBftBlock_null.

Lemma example_header_wf : wf_Header example_header.
Proof.
  repeat match goal with |- _ /\ _ => split end; try done; try apply wf_null_fat_pointer.
Qed.

Lemma header_wire_format_witness :
  exists bs, zcash_serialize example_header = Ok bs /\ zcash_deserialize bs = Ok (example_header, []).
Proof.
  destruct (header_wire_format example_header) as [Hw _].
  destruct (Hw example_header_wf) as (bs & Hb & Hr).
  exists bs. split; [exact Hb |]. rewrite <- (app_nil_r bs). apply Hr.
Defined.

Lemma counted_header_below_min_witness :
  exists bs, zcash_serialize (mkCountedHeader example_header) = Ok bs /\ Z.of_nat (length bs) = 1488.
Proof.
  destruct (counted_header_below_min example_header example_header_wf) as (bs & Hb & Hl & _); [done | done |].
  exists bs. split; [exact Hb | exact Hl].
Defined.
