(* ===== verification/Transaction.v ===== *)
(** Transactions and their data
    ([zebra-chain/src/transaction.rs], [transparent.rs], [transparent/utxo.rs],
    [transaction/joinsplit.rs], [sprout/joinsplit.rs],
    [sapling/shielded_data.rs], [orchard/shielded_data.rs], [block.rs]).

    Curve points, proofs, ciphertexts and signatures are byte strings: the
    code below moves them around and never looks inside. The model is of the
    default build, without the [tx_v6] feature. *)
From S2P Require Import Prelude Serialization Height Amount ValueBalance NetworkUpgrade BlockHeader.
From stdpp Require Import prelude strings gmap.
From Stdlib Require Import ZArith Lia.
#[local] Open Scope Z_scope.

(** ** Transparent data *)

Record OutPoint := mkOutPoint { outpoint_hash : bytes; outpoint_index : Z }.
#[export] Instance OutPoint_eq_dec : EqDecision OutPoint.
Proof. solve_decision. Defined.
#[export] Instance OutPoint_countable : Countable OutPoint.
Proof.
  refine (inj_countable' (fun o => (outpoint_hash o, outpoint_index o)) (fun p => mkOutPoint p.1 p.2) _).
  by intros [].
Defined.

Inductive Input : Type :=
| PrevOut (outpoint : OutPoint) (unlock_script : bytes) (sequence : Z)
| Coinbase (height : Z) (data : bytes) (sequence : Z).

Record Output := mkOutput { output_value : Z; lock_script : bytes }.
#[export] Instance Output_eq_dec : EqDecision Output.
Proof. solve_decision. Defined.

Record Utxo := mkUtxo { utxo_output : Output; utxo_height : Z; from_coinbase : bool }.
Record OrderedUtxo := mkOrderedUtxo { ordered_utxo : Utxo; tx_index_in_block : Z }.

Definition input_sequence (i : Input) : Z :=
  match i with PrevOut _ _ sequence => sequence | Coinbase _ _ sequence => sequence end.

Definition input_outpoint (i : Input) : option OutPoint :=
  match i with PrevOut outpoint _ _ => Some outpoint | Coinbase _ _ _ => None end.

(** [Amount::zero] for an amount that may be zero never fails. *)
Definition value_from_outputs (i : Input) (outputs : gmap OutPoint Output) : outcome Z :=
  match i with
  | PrevOut outpoint _ _ => output_value <$> unwrap (outputs !! outpoint)
  | Coinbase _ _ _ => Ok 0
  end.

Definition OrderedUtxo_new (output : Output) (height tx_index : Z) : OrderedUtxo :=
  mkOrderedUtxo (mkUtxo output height (tx_index =? 0)) tx_index.

Definition utxos_from_ordered_utxos (ordered : gmap OutPoint OrderedUtxo) : gmap OutPoint Utxo :=
  ordered_utxo <$> ordered.
Definition outputs_from_utxos (utxos : gmap OutPoint Utxo) : gmap OutPoint Output :=
  utxo_output <$> utxos.

(** ** Sprout, Sapling and Orchard data *)

Record JoinSplit := mkJoinSplit {
  vpub_old : Z;
  vpub_new : Z;
  joinsplit_anchor : bytes;
  joinsplit_nullifiers : bytes * bytes;
  joinsplit_commitments : bytes * bytes;
  joinsplit_rest : bytes
}.

Record JoinSplitData := mkJoinSplitData {
  first_joinsplit : JoinSplit;
  rest_joinsplits : list JoinSplit;
  joinsplit_data_pub_key : bytes;
  joinsplit_data_sig : bytes
}.

Definition joinsplits (d : JoinSplitData) : list JoinSplit := first_joinsplit d :: rest_joinsplits d.
Definition data_nullifiers (d : JoinSplitData) : list bytes :=
  mbind (fun j => [(joinsplit_nullifiers j).1; (joinsplit_nullifiers j).2]) (joinsplits d).
Definition data_note_commitments (d : JoinSplitData) : list bytes :=
  mbind (fun j => [(joinsplit_commitments j).1; (joinsplit_commitments j).2]) (joinsplits d).

Definition joinsplit_value_balance (j : JoinSplit) : outcome Z :=
  vpub_new ← expect (amount_constrain NegativeAllowed (vpub_new j));
  vpub_old ← expect (amount_constrain NegativeAllowed (vpub_old j));
  expect (amount_sub NegativeAllowed vpub_new vpub_old).

(** [AnchorVariant]: in version 4 every spend has its own anchor, from version
    5 on the spends share one. *)
Record Spend (PerSpend : Type) := mkSpend {
  spend_cv : bytes;
  per_spend_anchor : PerSpend;
  spend_nullifier : bytes;
  spend_rest : bytes
}.
Arguments mkSpend {_} _ _ _ _.
Arguments spend_cv {_} _.
Arguments per_spend_anchor {_} _.
Arguments spend_nullifier {_} _.
Arguments spend_rest {_} _.

Record SaplingOutput := mkSaplingOutput { sapling_output_cv : bytes; cm_u : bytes; sapling_output_rest : bytes }.

Inductive TransferData (Shared PerSpend : Type) : Type :=
| SpendsAndMaybeOutputs (shared_anchor : Shared) (first_spend : Spend PerSpend)
    (rest_spends : list (Spend PerSpend)) (maybe_outputs : list SaplingOutput)
| JustOutputs (first_output : SaplingOutput) (rest_outputs : list SaplingOutput).
Arguments SpendsAndMaybeOutputs {_ _} _ _ _ _.
Arguments JustOutputs {_ _} _ _.

Record SaplingShieldedData (Shared PerSpend : Type) := mkSaplingShieldedData {
  sapling_data_value_balance : Z;
  transfers : TransferData Shared PerSpend;
  sapling_data_binding_sig : bytes
}.
Arguments mkSaplingShieldedData {_ _} _ _ _.
Arguments sapling_data_value_balance {_ _} _.
Arguments transfers {_ _} _.
Arguments sapling_data_binding_sig {_ _} _.

Abbreviation PerSpendAnchorData := (SaplingShieldedData unit bytes).
Abbreviation SharedAnchorData := (SaplingShieldedData bytes unit).

Section TransferData.
Context {Shared PerSpend : Type}.

Definition transfer_spends (t : TransferData Shared PerSpend) : list (Spend PerSpend) :=
  match t with
  | SpendsAndMaybeOutputs _ first rest _ => first :: rest
  | JustOutputs _ _ => []
  end.
Definition transfer_outputs (t : TransferData Shared PerSpend) : list SaplingOutput :=
  match t with
  | SpendsAndMaybeOutputs _ _ _ maybe_outputs => maybe_outputs
  | JustOutputs first rest => first :: rest
  end.
Definition shared_anchor (t : TransferData Shared PerSpend) : option Shared :=
  match t with
  | SpendsAndMaybeOutputs shared_anchor _ _ _ => Some shared_anchor
  | JustOutputs _ _ => None
  end.
Definition data_sapling_nullifiers (d : SaplingShieldedData Shared PerSpend) : list bytes :=
  spend_nullifier <$> transfer_spends (transfers d).
Definition data_sapling_note_commitments (d : SaplingShieldedData Shared PerSpend) : list bytes :=
  cm_u <$> transfer_outputs (transfers d).

(** [spends_per_anchor], given the conversion of a spend with the shared
    anchor into a spend with its own. *)
Definition spends_per_anchor (convert : Spend PerSpend -> Shared -> Spend bytes) (t : TransferData Shared PerSpend)
    : outcome (list (Spend bytes)) :=
  foldM (fun acc spend => anchor ← unwrap (shared_anchor t); Ok (acc ++ [convert spend anchor]))
    [] (transfer_spends t).
End TransferData.

(** The two [From<(Spend<_>, _)> for Spend<PerSpendAnchor>]. *)
Definition convert_per_spend (spend : Spend bytes) (_ : unit) : Spend bytes := spend.
Definition convert_shared (spend : Spend unit) (anchor : bytes) : Spend bytes :=
  mkSpend (spend_cv spend) anchor (spend_nullifier spend) (spend_rest spend).

Definition ENABLE_SPENDS : Z := 1.
Definition ENABLE_OUTPUTS : Z := 2.

Record Action := mkAction { action_cv : bytes; action_nullifier : bytes; cm_x : bytes; action_rest : bytes }.

Record OrchardShieldedData := mkOrchardShieldedData {
  flags : Z;
  orchard_data_value_balance : Z;
  orchard_shared_anchor : bytes;
  proof : bytes;
  first_action : Action * bytes;
  rest_actions : list (Action * bytes);
  orchard_data_binding_sig : bytes
}.

Definition data_actions (d : OrchardShieldedData) : list Action := fst <$> first_action d :: rest_actions d.
Definition data_orchard_nullifiers (d : OrchardShieldedData) : list bytes := action_nullifier <$> data_actions d.
Definition data_orchard_note_commitments (d : OrchardShieldedData) : list bytes := cm_x <$> data_actions d.

(** ** Staking actions

    The type comes from a third-party crate; these are the fields the sources
    read. *)

Inductive StakingActionKind : Type := Add | Sub | Clear | Move | MoveClear.

Record StakingAction := mkStakingAction {
  kind : StakingActionKind;
  val : Z;
  target : bytes;
  source : bytes;
  insecure_target_name : string;
  insecure_source_name : string
}.

(** ** Transactions *)

Inductive LockTime : Type := LockHeight (height : Z) | LockTimestamp (time : Z).

Inductive Transaction : Type :=
| V1 (inputs : list Input) (outputs : list Output) (lock_time : LockTime)
| V2 (inputs : list Input) (outputs : list Output) (lock_time : LockTime)
    (joinsplit_data : option JoinSplitData)
| V3 (inputs : list Input) (outputs : list Output) (lock_time : LockTime) (expiry_height : Z)
    (joinsplit_data : option JoinSplitData)
| V4 (inputs : list Input) (outputs : list Output) (lock_time : LockTime) (expiry_height : Z)
    (joinsplit_data : option JoinSplitData) (sapling_shielded_data : option PerSpendAnchorData)
| V5 (network_upgrade : NetworkUpgrade) (lock_time : LockTime) (expiry_height : Z)
    (inputs : list Input) (outputs : list Output)
    (sapling_shielded_data : option SharedAnchorData) (orchard_shielded_data : option OrchardShieldedData)
| VCrosslink (network_upgrade : NetworkUpgrade) (lock_time : LockTime) (expiry_height : Z)
    (inputs : list Input) (outputs : list Output)
    (sapling_shielded_data : option SharedAnchorData) (orchard_shielded_data : option OrchardShieldedData)
    (staking_action : option StakingAction).

Definition OVERWINTER_VERSION_GROUP_ID : Z := 0x03C48270.
Definition SAPLING_VERSION_GROUP_ID : Z := 0x892F2085.
Definition TX_V5_VERSION_GROUP_ID : Z := 0x26A7270A.

Definition inputs (tx : Transaction) : list Input :=
  match tx with
  | V1 inputs _ _ => inputs | V2 inputs _ _ _ => inputs | V3 inputs _ _ _ _ => inputs
  | V4 inputs _ _ _ _ _ => inputs | V5 _ _ _ inputs _ _ _ => inputs
  | VCrosslink _ _ _ inputs _ _ _ _ => inputs
  end.
Definition outputs (tx : Transaction) : list Output :=
  match tx with
  | V1 _ outputs _ => outputs | V2 _ outputs _ _ => outputs | V3 _ outputs _ _ _ => outputs
  | V4 _ outputs _ _ _ _ => outputs | V5 _ _ _ _ outputs _ _ => outputs
  | VCrosslink _ _ _ _ outputs _ _ _ => outputs
  end.
Definition spent_outpoints (tx : Transaction) : list OutPoint := omap input_outpoint (inputs tx).

Definition is_coinbase (tx : Transaction) : bool :=
  match inputs tx with [Coinbase _ _ _] => true | _ => false end.
Definition is_valid_non_coinbase (tx : Transaction) : bool :=
  forallb (fun i => match i with PrevOut _ _ _ => true | Coinbase _ _ _ => false end) (inputs tx).

Definition is_overwintered (tx : Transaction) : bool :=
  match tx with
  | V1 _ _ _ | V2 _ _ _ _ => false
  | V3 _ _ _ _ _ | V4 _ _ _ _ _ _ | V5 _ _ _ _ _ _ _ => true
  | VCrosslink _ _ _ _ _ _ _ _ => true
  end.
Definition version (tx : Transaction) : Z :=
  match tx with
  | V1 _ _ _ => 1 | V2 _ _ _ _ => 2 | V3 _ _ _ _ _ => 3 | V4 _ _ _ _ _ _ => 4
  | V5 _ _ _ _ _ _ _ => 5 | VCrosslink _ _ _ _ _ _ _ _ => 7
  end.
Definition raw_field_lock_time (tx : Transaction) : LockTime :=
  match tx with
  | V1 _ _ lock_time | V2 _ _ lock_time _ | V3 _ _ lock_time _ _ | V4 _ _ lock_time _ _ _
  | V5 _ lock_time _ _ _ _ _ | VCrosslink _ lock_time _ _ _ _ _ _ => lock_time
  end.
Definition lock_time (tx : Transaction) : option LockTime :=
  let lock_time := raw_field_lock_time tx in
  match lock_time with
  | LockHeight 0 => None
  | _ =>
      let has_sequence_number_enabling_lock_time :=
        existsb (fun s => negb (s =? u32_MAX)) (input_sequence <$> inputs tx) in
      if has_sequence_number_enabling_lock_time then Some lock_time else None
  end.
Definition lock_time_is_time (tx : Transaction) : bool :=
  match lock_time tx with Some (LockTimestamp _) => true | _ => false end.

Definition expiry_height (tx : Transaction) : option Z :=
  match tx with
  | V1 _ _ _ | V2 _ _ _ _ => None
  | V3 _ _ _ expiry_height _ | V4 _ _ _ expiry_height _ _ | V5 _ _ expiry_height _ _ _ _
  | VCrosslink _ _ expiry_height _ _ _ _ _ => if expiry_height =? 0 then None else Some expiry_height
  end.
Definition network_upgrade (tx : Transaction) : option NetworkUpgrade :=
  match tx with
  | V1 _ _ _ | V2 _ _ _ _ | V3 _ _ _ _ _ | V4 _ _ _ _ _ _ => None
  | V5 network_upgrade _ _ _ _ _ _ | VCrosslink network_upgrade _ _ _ _ _ _ _ => Some network_upgrade
  end.
(** The Crosslink group id is a constant of a third-party crate. *)
Definition version_group_id (TX_VCROSSLINK_VERSION_GROUP_ID : Z) (tx : Transaction) : option Z :=
  match tx with
  | V1 _ _ _ | V2 _ _ _ _ => None
  | V3 _ _ _ _ _ => Some OVERWINTER_VERSION_GROUP_ID
  | V4 _ _ _ _ _ _ => Some SAPLING_VERSION_GROUP_ID
  | V5 _ _ _ _ _ _ _ => Some TX_V5_VERSION_GROUP_ID
  | VCrosslink _ _ _ _ _ _ _ _ => Some TX_VCROSSLINK_VERSION_GROUP_ID
  end.

(** ** Sprout, Sapling and Orchard accessors *)

Definition transaction_joinsplit_data (tx : Transaction) : option JoinSplitData :=
  match tx with
  | V2 _ _ _ joinsplit_data | V3 _ _ _ _ joinsplit_data | V4 _ _ _ _ joinsplit_data _ => joinsplit_data
  | V1 _ _ _ | V5 _ _ _ _ _ _ _ | VCrosslink _ _ _ _ _ _ _ _ => None
  end.

Definition joinsplit_count (tx : Transaction) : nat :=
  match transaction_joinsplit_data tx with Some d => length (joinsplits d) | None => 0 end.
Definition sprout_nullifiers (tx : Transaction) : list bytes :=
  match transaction_joinsplit_data tx with Some d => data_nullifiers d | None => [] end.
Definition sprout_note_commitments (tx : Transaction) : list bytes :=
  match transaction_joinsplit_data tx with Some d => data_note_commitments d | None => [] end.
Definition has_sprout_joinsplit_data (tx : Transaction) : bool :=
  match transaction_joinsplit_data tx with Some _ => true | None => false end.
Definition joinsplit_pub_key (tx : Transaction) : option bytes :=
  joinsplit_data_pub_key <$> transaction_joinsplit_data tx.
Definition joinsplit_sig (tx : Transaction) : option bytes :=
  joinsplit_data_sig <$> transaction_joinsplit_data tx.

Definition sapling_spends_per_anchor (tx : Transaction) : outcome (list (Spend bytes)) :=
  match tx with
  | V4 _ _ _ _ _ (Some d) => spends_per_anchor convert_per_spend (transfers d)
  | V5 _ _ _ _ _ (Some d) _ => spends_per_anchor convert_shared (transfers d)
  | VCrosslink _ _ _ _ _ (Some d) _ _ => spends_per_anchor convert_shared (transfers d)
  | _ => Ok []
  end.
Definition sapling_outputs (tx : Transaction) : list SaplingOutput :=
  match tx with
  | V4 _ _ _ _ _ (Some d) => transfer_outputs (transfers d)
  | V5 _ _ _ _ _ (Some d) _ => transfer_outputs (transfers d)
  | VCrosslink _ _ _ _ _ (Some d) _ _ => transfer_outputs (transfers d)
  | _ => []
  end.
Definition sapling_nullifiers (tx : Transaction) : list bytes :=
  match tx with
  | V4 _ _ _ _ _ (Some d) => data_sapling_nullifiers d
  | V5 _ _ _ _ _ (Some d) _ => data_sapling_nullifiers d
  | VCrosslink _ _ _ _ _ (Some d) _ _ => data_sapling_nullifiers d
  | _ => []
  end.
Definition sapling_note_commitments (tx : Transaction) : list bytes :=
  match tx with
  | V4 _ _ _ _ _ (Some d) => data_sapling_note_commitments d
  | V5 _ _ _ _ _ (Some d) _ => data_sapling_note_commitments d
  | VCrosslink _ _ _ _ _ (Some d) _ _ => data_sapling_note_commitments d
  | _ => []
  end.
Definition has_sapling_shielded_data (tx : Transaction) : bool :=
  match tx with
  | V4 _ _ _ _ _ (Some _) | V5 _ _ _ _ _ (Some _) _ | VCrosslink _ _ _ _ _ (Some _) _ _ => true
  | _ => false
  end.
Definition sapling_binding_sig (tx : Transaction) : option bytes :=
  match tx with
  | V4 _ _ _ _ _ (Some d) => Some (sapling_data_binding_sig d)
  | V5 _ _ _ _ _ (Some d) _ => Some (sapling_data_binding_sig d)
  | _ => None
  end.

(** [unique_by]: the first occurrence of each anchor. *)
Fixpoint unique (seen : list bytes) (l : list bytes) : list bytes :=
  match l with
  | [] => []
  | x :: l' => if bool_decide (x ∈ seen) then unique seen l' else x :: unique (x :: seen) l'
  end.
Definition sapling_anchors (tx : Transaction) : outcome (list bytes) :=
  spends ← sapling_spends_per_anchor tx; Ok (unique [] (per_spend_anchor <$> spends)).

Definition transaction_orchard_data (tx : Transaction) : option OrchardShieldedData :=
  match tx with
  | V5 _ _ _ _ _ _ d => d
  | VCrosslink _ _ _ _ _ _ d _ => d
  | V1 _ _ _ | V2 _ _ _ _ | V3 _ _ _ _ _ | V4 _ _ _ _ _ _ => None
  end.
Definition orchard_actions (tx : Transaction) : list Action :=
  match transaction_orchard_data tx with Some d => data_actions d | None => [] end.
Definition orchard_nullifiers (tx : Transaction) : list bytes :=
  match transaction_orchard_data tx with Some d => data_orchard_nullifiers d | None => [] end.
Definition orchard_note_commitments (tx : Transaction) : list bytes :=
  match transaction_orchard_data tx with Some d => data_orchard_note_commitments d | None => [] end.
Definition orchard_flags (tx : Transaction) : option Z := flags <$> transaction_orchard_data tx.
Definition has_orchard_shielded_data (tx : Transaction) : bool :=
  match transaction_orchard_data tx with Some _ => true | None => false end.

(** ** What a transaction has *)

Definition nonempty {A} (l : list A) : bool := match l with [] => false | _ => true end.
Definition contains_flag (fs flag : Z) : bool := Z.land fs flag =? flag.
Definition intersects_flags (fs flags : Z) : bool := negb (Z.land fs flags =? 0).

Definition has_transparent_inputs (tx : Transaction) : bool := nonempty (inputs tx).
Definition has_transparent_outputs (tx : Transaction) : bool := nonempty (outputs tx).
Definition has_transparent_inputs_or_outputs (tx : Transaction) : bool :=
  has_transparent_inputs tx || has_transparent_outputs tx.
Definition has_shielded_inputs (tx : Transaction) : outcome bool :=
  if (0 <? joinsplit_count tx)%nat then Ok true
  else
    spends ← sapling_spends_per_anchor tx;
    Ok (nonempty spends
        || (nonempty (orchard_actions tx) && contains_flag (default 0 (orchard_flags tx)) ENABLE_SPENDS)).
Definition has_shielded_outputs (tx : Transaction) : bool :=
  (0 <? joinsplit_count tx)%nat || nonempty (sapling_outputs tx)
  || (nonempty (orchard_actions tx) && contains_flag (default 0 (orchard_flags tx)) ENABLE_OUTPUTS).
Definition has_transparent_or_shielded_inputs (tx : Transaction) : outcome bool :=
  if has_transparent_inputs tx then Ok true else has_shielded_inputs tx.
Definition has_transparent_or_shielded_outputs (tx : Transaction) : bool :=
  has_transparent_outputs tx || has_shielded_outputs tx.
Definition has_enough_orchard_flags (tx : Transaction) : bool :=
  if (version tx <? 5) || negb (nonempty (orchard_actions tx)) then true
  else intersects_flags (default 0 (orchard_flags tx)) (Z.lor ENABLE_SPENDS ENABLE_OUTPUTS).

Inductive CoinbaseSpendRestriction : Type :=
| DisallowCoinbaseSpend
| CheckCoinbaseMaturity (spend_height : Z).
Definition coinbase_spend_restriction (tx : Transaction) (network : Network) (spend_height : Z)
    : CoinbaseSpendRestriction :=
  if negb (nonempty (outputs tx)) || should_allow_unshielded_coinbase_spends network
  then CheckCoinbaseMaturity spend_height
  else DisallowCoinbaseSpend.

(** ** Value balances *)

Definition transparent_value_balance_from_outputs (tx : Transaction) (outs : gmap OutPoint Output)
    : res ValueBalanceError ValueBalance :=
  values ← lift (foldM (fun acc i => v ← value_from_outputs i outs; Ok (acc ++ [v])) [] (inputs tx));
  input_value ← map_err Transparent (amount_sum NonNegative values);
  input_value ← expect (amount_constrain NegativeAllowed input_value);
  output_value ← map_err Transparent (amount_sum NonNegative (output_value <$> outputs tx));
  output_value ← expect (amount_constrain NegativeAllowed output_value);
  map_err Transparent (from_transparent_amount <$> amount_sub NegativeAllowed input_value output_value).

Definition output_values_to_sprout (tx : Transaction) : list Z :=
  match transaction_joinsplit_data tx with Some d => vpub_old <$> joinsplits d | None => [] end.
Definition input_values_from_sprout (tx : Transaction) : list Z :=
  match transaction_joinsplit_data tx with Some d => vpub_new <$> joinsplits d | None => [] end.

(** [sprout_joinsplit_value_balances] summed: the balances are computed while
    they are added. *)
Definition sprout_value_balance (tx : Transaction) : res ValueBalanceError ValueBalance :=
  foldM (fun acc j =>
           v ← lift (joinsplit_value_balance j);
           value_balance_add NegativeAllowed acc (from_sprout_amount v))
    value_balance_zero
    match transaction_joinsplit_data tx with Some d => joinsplits d | None => [] end.

Definition sapling_value_balance (tx : Transaction) : ValueBalance :=
  from_sapling_amount
    match tx with
    | V4 _ _ _ _ _ (Some d) => sapling_data_value_balance d
    | V5 _ _ _ _ _ (Some d) _ => sapling_data_value_balance d
    | VCrosslink _ _ _ _ _ (Some d) _ _ => sapling_data_value_balance d
    | _ => 0
    end.
Definition orchard_value_balance (tx : Transaction) : ValueBalance :=
  from_orchard_amount (default 0 (orchard_data_value_balance <$> transaction_orchard_data tx)).

Definition value_balance_from_outputs (tx : Transaction) (outs : gmap OutPoint Output)
    : res ValueBalanceError ValueBalance :=
  t ← transparent_value_balance_from_outputs tx outs;
  s ← sprout_value_balance tx;
  b ← value_balance_add NegativeAllowed t s;
  b ← value_balance_add NegativeAllowed b (sapling_value_balance tx);
  value_balance_add NegativeAllowed b (orchard_value_balance tx).

Definition value_balance (tx : Transaction) (utxos : gmap OutPoint Utxo) : res ValueBalanceError ValueBalance :=
  value_balance_from_outputs tx (outputs_from_utxos utxos).

(** ** Blocks *)

Record Block := mkBlock { block_header : Header; transactions : list Transaction }.

Definition coinbase_height (b : Block) : option Z :=
  tx ← head (transactions b);
  i ← head (inputs tx);
  match i with Coinbase height _ _ => Some height | PrevOut _ _ _ => None end.

Definition check_transaction_network_upgrade_consistency (b : Block) (network : Network)
    : res string unit :=
  height ← unwrap (coinbase_height b);
  block_nu ← lift (nu_current network height);
  if existsb (fun nu => negb (bool_decide (nu = block_nu))) (omap network_upgrade (transactions b))
  then Err "WrongTransactionConsensusBranchId" else Ok tt.

Definition block_sprout_note_commitments (b : Block) : list bytes := mbind sprout_note_commitments (transactions b).
Definition block_sapling_note_commitments (b : Block) : list bytes := mbind sapling_note_commitments (transactions b).
Definition block_orchard_note_commitments (b : Block) : list bytes := mbind orchard_note_commitments (transactions b).
Definition sapling_transactions_count (b : Block) : Z :=
  Z.of_nat (length (filter (fun tx => has_sapling_shielded_data tx = true) (transactions b))).
Definition orchard_transactions_count (b : Block) : Z :=
  Z.of_nat (length (filter (fun tx => has_orchard_shielded_data tx = true) (transactions b))).

(** [flat_map] over a [Result] yields the value of an [Ok] and nothing for an
    [Err]. *)
Definition chain_value_pool_change (b : Block) (utxos : gmap OutPoint Utxo)
    (deferred_pool_balance_change : option Z) : res ValueBalanceError ValueBalance :=
  total ← foldM (fun acc tx =>
                   match value_balance tx utxos with
                   | Ok v => value_balance_add NegativeAllowed acc v
                   | Err _ => Ok acc
                   | Panic => Panic
                   end) value_balance_zero (transactions b);
  change ← lift (value_balance_neg total);
  Ok (set_deferred_amount change (default 0 deferred_pool_balance_change)).

(** ** Outputs created by a block *)

Definition new_transaction_ordered_outputs (tx : Transaction) (hash : bytes) (tx_index height : Z)
    : outcome (gmap OutPoint OrderedUtxo) :=
  foldM (fun m '(i, output) =>
           i ← unwrap (u32_checked (Z.of_nat i));
           Ok (<[mkOutPoint hash i := OrderedUtxo_new output height tx_index]> m))
    ∅ (imap pair (outputs tx)).

(** [zip] of the transactions with their hashes, [enumerate]d. *)
Definition enumerated_transactions (b : Block) (transaction_hashes : list bytes) : list (Z * (Transaction * bytes)) :=
  imap (fun i p => (Z.of_nat i, p)) (zip (transactions b) transaction_hashes).

Definition new_ordered_outputs_with_height (b : Block) (height : Z) (transaction_hashes : list bytes)
    : outcome (gmap OutPoint OrderedUtxo) :=
  foldM (fun m '(i, (tx, hash)) =>
           new ← new_transaction_ordered_outputs tx hash i height; Ok (new ∪ m))
    ∅ (enumerated_transactions b transaction_hashes).
Definition new_ordered_outputs (b : Block) (transaction_hashes : list bytes) : outcome (gmap OutPoint OrderedUtxo) :=
  height ← unwrap (coinbase_height b); new_ordered_outputs_with_height b height transaction_hashes.

(** * Value balances are exact *)

Definition spent_value (i : Input) (outs : gmap OutPoint Output) : option Z :=
  match i with
  | PrevOut outpoint _ _ => output_value <$> outs !! outpoint
  | Coinbase _ _ _ => Some 0
  end.

Definition sapling_balance (tx : Transaction) : Z := sapling (sapling_value_balance tx).
Definition orchard_balance (tx : Transaction) : Z := orchard (orchard_value_balance tx).

(** The balance of each pool, over the integers. *)
Definition spec_value_balance (tx : Transaction) (spent : list Z) : ValueBalance :=
  mkValueBalance
    (sum_Z id spent - sum_Z output_value (outputs tx))
    (sum_Z id (input_values_from_sprout tx) - sum_Z id (output_values_to_sprout tx))
    (sapling_balance tx) (orchard_balance tx) 0.

(** The amounts of a parsed transaction are in the ranges of their types. *)
Record tx_amounts_valid (tx : Transaction) : Prop := {
  outputs_valid : Forall (fun o => amount_in NonNegative (output_value o)) (outputs tx);
  vpub_new_valid : Forall (amount_in NonNegative) (input_values_from_sprout tx);
  vpub_old_valid : Forall (amount_in NonNegative) (output_values_to_sprout tx);
  sapling_valid : amount_in NegativeAllowed (sapling_balance tx);
  orchard_valid : amount_in NegativeAllowed (orchard_balance tx)
}.

Lemma collect_spent_values (ins : list Input) outs vals acc :
  Forall2 (fun i v => spent_value i outs = Some v) ins vals ->
  foldM (fun acc i => v ← value_from_outputs i outs; Ok (acc ++ [v])) acc ins = Ok (E := Empty_set) (acc ++ vals).
Proof.
  intros H. revert acc. induction H as [|i v ins vals Hi H IH]; intros acc; cbn [foldM].
  { by rewrite app_nil_r. }
  assert (value_from_outputs i outs = Ok v) as ->.
  { destruct i as [o u s|h d s]; cbn in *; [|congruence]. by destruct (outs !! o); cbn in *; simplify_eq. }
  cbn [mbind res_bind]. rewrite IH. by rewrite <- app_assoc.
Qed.

Lemma joinsplit_value_balance_eq j :
  amount_in NonNegative (vpub_new j) -> amount_in NonNegative (vpub_old j) ->
  joinsplit_value_balance j = Ok (vpub_new j - vpub_old j).
Proof.
  intros Hn Ho. unfold joinsplit_value_balance, amount_constrain.
  rewrite !amount_try_from_in by eauto with zebra. cbn [expect mbind res_bind].
  rewrite amount_sub_eq by eauto with zebra. rewrite amount_try_from_in; [done|amount_lia].
Qed.

Lemma pools_in_from_sprout C a : C <> NegativeOrZero -> amount_in C a -> pools_in C (from_sprout_amount a).
Proof. intros HC Ha. repeat split; cbn; try done; destruct C; try done; amount_lia. Qed.

Lemma sprout_sum_spec js a :
  amount_in NegativeAllowed a ->
  Forall (fun j => amount_in NonNegative (vpub_new j) /\ amount_in NonNegative (vpub_old j)) js ->
  let total := a + (sum_Z vpub_new js - sum_Z vpub_old js) in
  let r := foldM (fun acc j => v ← lift (joinsplit_value_balance j);
                    value_balance_add NegativeAllowed acc (from_sprout_amount v)) (from_sprout_amount a) js in
  r <> Panic
  /\ (forall v, r = Ok v -> v = from_sprout_amount total /\ amount_in NegativeAllowed total)
  /\ (a + sum_Z vpub_new js <= MAX_MONEY -> - MAX_MONEY <= a - sum_Z vpub_old js -> exists v, r = Ok v).
Proof.
  intros Ha Hjs. revert a Ha. induction Hjs as [|j js [Hn Ho] Hjs IH]; intros a Ha; cbn [foldM sum_Z].
  { cbn. split; [done|]. split; [|eauto]. intros v Hv. inv_res. rewrite Z.add_0_r. done. }
  rewrite joinsplit_value_balance_eq by done. cbn [lift mbind res_bind].
  assert (0 <= sum_Z vpub_new js /\ 0 <= sum_Z vpub_old js) as [? ?].
  { split; apply sum_Z_nonneg; (eapply Forall_impl; [exact Hjs|]); cbn; intros ? [? ?]; amount_lia. }
  set (a' := a + (vpub_new j - vpub_old j)).
  assert (pools_op Z.add (from_sprout_amount a) (from_sprout_amount (vpub_new j - vpub_old j))
          = from_sprout_amount a') as Hop by done.
  destruct (value_balance_add_cases NegativeAllowed (from_sprout_amount a)
              (from_sprout_amount (vpub_new j - vpub_old j))) as [[Hin ->]|[Hout [e ->]]];
    [apply pools_in_from_sprout; [done|amount_lia]..| |]; rewrite Hop in *; cbn [mbind res_bind].
  - destruct Hin as (_ & Ha' & _). cbn in Ha'. destruct (IH a' Ha') as (Hp & Hok & Hex).
    split; [done|]. split.
    + intros v Hv%Hok. unfold a' in Hv.
      replace (a + (vpub_new j + sum_Z vpub_new js - (vpub_old j + sum_Z vpub_old js)))
        with (a + (vpub_new j - vpub_old j) + (sum_Z vpub_new js - sum_Z vpub_old js)) by lia. done.
    + intros. apply Hex; unfold a'; amount_lia.
  - split; [done|]. split; [done|]. intros. exfalso. apply Hout, pools_in_from_sprout; [done|].
    unfold a'. amount_lia.
Qed.

Lemma sum_Z_id_fmap {A} (f : A -> Z) (l : list A) : sum_Z id (f <$> l) = sum_Z f l.
Proof. rewrite sum_Z_fmap. by apply sum_Z_ext. Qed.

Lemma sprout_value_balance_spec tx :
  Forall (amount_in NonNegative) (input_values_from_sprout tx) ->
  Forall (amount_in NonNegative) (output_values_to_sprout tx) ->
  let total := sum_Z id (input_values_from_sprout tx) - sum_Z id (output_values_to_sprout tx) in
  sprout_value_balance tx <> Panic
  /\ (forall v, sprout_value_balance tx = Ok v -> v = from_sprout_amount total /\ amount_in NegativeAllowed total)
  /\ (sum_Z id (input_values_from_sprout tx) <= MAX_MONEY ->
      sum_Z id (output_values_to_sprout tx) <= MAX_MONEY -> exists v, sprout_value_balance tx = Ok v).
Proof.
  unfold sprout_value_balance, input_values_from_sprout, output_values_to_sprout.
  destruct (transaction_joinsplit_data tx) as [d|].
  - rewrite !Forall_fmap, !sum_Z_id_fmap. intros Hn Ho.
    assert (amount_in NegativeAllowed 0) as H0 by amount_lia.
    destruct (sprout_sum_spec (joinsplits d) 0 H0) as (Hp & Hok & Hex).
    { apply Forall_and. done. }
    rewrite Z.add_0_l in Hok. split; [done|]. split; [done|]. intros. apply Hex; lia.
  - cbn. intros _ _. split; [done|]. split; [|eauto]. intros v Hv. inv_res. split; [done|amount_lia].
Qed.

Lemma transparent_value_balance_spec tx outs spent :
  Forall (fun o => amount_in NonNegative (output_value o)) (outputs tx) ->
  Forall2 (fun i v => spent_value i outs = Some v) (inputs tx) spent ->
  Forall (amount_in NonNegative) spent ->
  let total := sum_Z id spent - sum_Z output_value (outputs tx) in
  let r := transparent_value_balance_from_outputs tx outs in
  r <> Panic
  /\ (forall v, r = Ok v -> v = from_transparent_amount total /\ amount_in NegativeAllowed total)
  /\ (sum_Z id spent <= MAX_MONEY -> sum_Z output_value (outputs tx) <= MAX_MONEY -> exists v, r = Ok v).
Proof.
  intros Ho Hspent Hs. unfold transparent_value_balance_from_outputs.
  rewrite (collect_spent_values _ _ _ [] Hspent). cbn [lift mbind res_bind app].
  apply Forall_fmap in Ho.
  assert (0 <= sum_Z id spent /\ 0 <= sum_Z id (output_value <$> outputs tx)) as [Hs0 Ho0].
  { split; apply sum_Z_nonneg; eapply Forall_impl; eauto; cbn; intros; amount_lia. }
  destruct (amount_sum_nonneg spent Hs) as [Hp1 Hok1].
  destruct (amount_sum_nonneg (output_value <$> outputs tx) Ho) as [Hp2 Hok2].
  rewrite !sum_Z_id_fmap in Hok2. rewrite sum_Z_id_fmap in Ho0. clear Ho Hs Hspent.
  destruct (amount_sum NonNegative spent) as [a|e|]; [|split; [done|]; split; [done|]; intros Hb _;
    by pose proof (proj2 (Hok1 _) (conj eq_refl Hb))|done].
  destruct (proj1 (Hok1 a) eq_refl) as [-> Hsm]. cbn [map_err mbind res_bind].
  unfold amount_constrain. rewrite amount_try_from_in by amount_lia. cbn [expect mbind res_bind].
  destruct (amount_sum NonNegative (output_value <$> outputs tx)) as [b|e|];
    [|split; [done|]; split; [done|]; intros _ Hb; by pose proof (proj2 (Hok2 _) (conj eq_refl Hb))|done].
  destruct (proj1 (Hok2 b) eq_refl) as [-> Hom]. cbn [map_err mbind res_bind].
  rewrite amount_try_from_in by amount_lia. cbn [expect mbind res_bind].
  assert (amount_in NegativeAllowed (sum_Z id spent - sum_Z output_value (outputs tx))) by amount_lia.
  rewrite amount_sub_eq by amount_lia. rewrite amount_try_from_in by done. cbn.
  split; [done|]. split; [|eauto]. intros v Hv. inv_res. done.
Qed.

(** Balances of different pools can always be added. *)
Lemma add_pools_in tx a b :
  amount_in NegativeAllowed a -> amount_in NegativeAllowed b ->
  amount_in NegativeAllowed (sapling_balance tx) -> amount_in NegativeAllowed (orchard_balance tx) ->
  (v ← value_balance_add NegativeAllowed (from_transparent_amount a) (from_sprout_amount b);
   w ← value_balance_add NegativeAllowed v (sapling_value_balance tx);
   value_balance_add NegativeAllowed w (orchard_value_balance tx))
  = Ok (mkValueBalance a b (sapling_balance tx) (orchard_balance tx) 0).
Proof.
  intros Ha Hb Hs Ho. unfold sapling_balance, orchard_balance in *.
  unfold sapling_value_balance, orchard_value_balance in *.
  revert Hs Ho. generalize (match tx with V4 _ _ _ _ _ (Some d) => sapling_data_value_balance d
    | V5 _ _ _ _ _ (Some d) _ => sapling_data_value_balance d
    | VCrosslink _ _ _ _ _ (Some d) _ _ => sapling_data_value_balance d | _ => 0 end).
  generalize (default 0 (orchard_data_value_balance <$> transaction_orchard_data tx)).
  intros o s. cbn [sapling orchard from_sapling_amount from_orchard_amount]. intros Hs Ho.
  assert (amount_in NegativeAllowed 0) as H0 by amount_lia.
  unfold value_balance_add. cbn [transparent sprout sapling orchard deferred from_transparent_amount
    from_sprout_amount from_sapling_amount from_orchard_amount].
  repeat (rewrite amount_add_eq by (rewrite ?Z.add_0_r, ?Z.add_0_l; done);
          rewrite amount_try_from_in by (rewrite ?Z.add_0_r, ?Z.add_0_l; done);
          cbn [map_err mbind res_bind transparent sprout sapling orchard deferred]).
  rewrite ?Z.add_0_r, ?Z.add_0_l. done.
Qed.

(** For a transaction whose amounts are in the ranges of their types and
    whose spent outputs are all provided, [value_balance] never panics, every
    balance it returns is the exact one of each pool (inputs minus outputs,
    sprout values, the declared sapling and orchard balances), and it does
    return one when the value entering and leaving each transparent and sprout
    side is at most the money supply. *)
Theorem transaction_value_balance (tx : Transaction) (utxos : gmap OutPoint Utxo) (spent : list Z) :
  tx_amounts_valid tx ->
  Forall2 (fun i v => spent_value i (outputs_from_utxos utxos) = Some v) (inputs tx) spent ->
  Forall (amount_in NonNegative) spent ->
  value_balance tx utxos <> Panic
  /\ (forall v, value_balance tx utxos = Ok v -> v = spec_value_balance tx spent)
  /\ (sum_Z id spent <= MAX_MONEY -> sum_Z output_value (outputs tx) <= MAX_MONEY ->
      sum_Z id (input_values_from_sprout tx) <= MAX_MONEY ->
      sum_Z id (output_values_to_sprout tx) <= MAX_MONEY ->
      value_balance tx utxos = Ok (spec_value_balance tx spent)).
Proof.
  intros [Ho Hnew Hold Hsap Horc] Hspent Hs. unfold value_balance, value_balance_from_outputs, spec_value_balance.
  destruct (transparent_value_balance_spec tx _ spent Ho Hspent Hs) as (Hp1 & Hok1 & Hex1).
  destruct (sprout_value_balance_spec tx Hnew Hold) as (Hp2 & Hok2 & Hex2).
  destruct (transparent_value_balance_from_outputs tx _) as [t|e|]; [|split; [done|]; split; [done|];
    intros ? ? _ _; destruct Hex1 as [? [=]]; done|done].
  destruct (Hok1 t eq_refl) as [-> Ht]. cbn [mbind res_bind].
  destruct (sprout_value_balance tx) as [s|e|]; [|split; [done|]; split; [done|];
    intros _ _ ? ?; destruct Hex2 as [? [=]]; done|done].
  destruct (Hok2 s eq_refl) as [-> Hb]. cbn [mbind res_bind].
  pose proof (add_pools_in tx _ _ Ht Hb Hsap Horc) as Hadd. cbn [mbind res_bind] in Hadd. rewrite Hadd.
  split; [done|]. split; [|done]. intros v Hv. by inv_res.
Qed.

Definition example_outpoint : OutPoint := mkOutPoint [Byte.x01] 0.
Definition example_utxos : gmap OutPoint Utxo := {[ example_outpoint := mkUtxo (mkOutput 10 []) 5 false ]}.
Definition example_tx : Transaction :=
  V4 [PrevOut example_outpoint [] 0] [mkOutput 3 []; mkOutput 1 []] (LockHeight 0) 0
    (Some (mkJoinSplitData (mkJoinSplit 4 1 [] ([Byte.x02], [Byte.x03]) ([], []) []) [] [] []))
    (Some (mkSaplingShieldedData (-3) (JustOutputs (mkSaplingOutput [] [] []) []) [])).

Lemma example_tx_valid : tx_amounts_valid example_tx.
Proof. split; repeat constructor; cbn; unfold MAX_MONEY, COIN; lia. Qed.

Lemma transaction_value_balance_witness :
  value_balance example_tx example_utxos = Ok (mkValueBalance 6 (-3) (-3) 0 0).
Proof.
  destruct (transaction_value_balance example_tx example_utxos [10]) as (_ & _ & H).
  - apply example_tx_valid.
  - repeat constructor.
  - repeat constructor; cbn; unfold MAX_MONEY, COIN; lia.
  - apply H; vm_compute; discriminate.
Defined.

(** * The pool change of a block *)

(** [Block::chain_value_pool_change] does not see transactions whose value
    balance is an error: the result is that of the block without them. *)
Theorem chain_value_pool_change_drops_errors (b : Block) utxos deferred :
  chain_value_pool_change b utxos deferred =
  chain_value_pool_change
    (mkBlock (block_header b)
       (List.filter (fun tx => match value_balance tx utxos with Err _ => false | _ => true end)
          (transactions b))) utxos deferred.
Proof.
  unfold chain_value_pool_change. cbn [transactions].
  generalize value_balance_zero as acc.
  induction (transactions b) as [|tx txs IH]; intros acc; [done|]. cbn [List.filter foldM].
  destruct (value_balance tx utxos) as [v|e|] eqn:E; cbn [foldM]; rewrite ?E; cbn [mbind res_bind].
  - destruct (value_balance_add NegativeAllowed acc v); cbn [mbind res_bind]; [apply IH|done..].
  - apply IH.
  - done.
Qed.

(** * Outputs created by a block *)

Definition created_by (tx : Transaction) (hash : bytes) (tx_index height : Z) (op : OutPoint) : option OrderedUtxo :=
  if bool_decide (outpoint_hash op = hash) && (0 <=? outpoint_index op)
  then (fun o => OrderedUtxo_new o height tx_index) <$> outputs tx !! Z.to_nat (outpoint_index op)
  else None.

Lemma new_transaction_outputs_fold hash tx_index height (outs : list Output) (k : nat) (m : gmap OutPoint OrderedUtxo) :
  Z.of_nat (k + length outs) <= 2 ^ 32 ->
  exists m' : gmap OutPoint OrderedUtxo, foldM (fun m '(i, output) =>
               i ← unwrap (u32_checked (Z.of_nat i));
               Ok (<[mkOutPoint hash i := OrderedUtxo_new output height tx_index]> m))
             m (imap (fun i o => ((k + i)%nat, o)) outs) = Ok (E := Empty_set) m' /\
    forall op, m' !! op =
      match (if bool_decide (outpoint_hash op = hash) && (Z.of_nat k <=? outpoint_index op)
             then outs !! (Z.to_nat (outpoint_index op) - k)%nat else None) with
      | Some o => Some (OrderedUtxo_new o height tx_index)
      | None => m !! op
      end.
Proof.
  revert k m. induction outs as [|o outs IH]; intros k m Hk; cbn [imap foldM].
  { exists m. split; [done|]. intros op. by destruct (_ && _). }
  cbn [length] in Hk. rewrite checked_in by (unfold u32_MAX; lia). cbn [unwrap mbind res_bind].
  destruct (IH (S k) (<[mkOutPoint hash (Z.of_nat (k + 0)) := OrderedUtxo_new o height tx_index]> m)) as (m' & Hm & Hl).
  { lia. }
  exists m'. split.
  { rewrite <- Hm. f_equal. apply imap_ext. intros. cbn. f_equal. lia. }
  intros [h i]. rewrite Hl. cbn [outpoint_hash outpoint_index]. clear Hl Hm IH.
  destruct (decide (h = hash)) as [->|Hne]; cycle 1.
  { rewrite !bool_decide_eq_false_2 by done. cbn. rewrite lookup_insert_ne by congruence. done. }
  rewrite !bool_decide_eq_true_2 by done. cbn [andb].
  destruct (Z.eq_dec i (Z.of_nat k)) as [->|Hne].
  - rewrite (proj2 (Z.leb_gt (Z.of_nat (S k)) _)), Z.leb_refl by lia.
    rewrite Nat2Z.id, Nat.sub_diag. cbn. rewrite Nat.add_0_r. by rewrite lookup_insert_eq.
  - rewrite lookup_insert_ne by (intros [=]; lia).
    destruct (Z.leb_spec (Z.of_nat (S k)) i), (Z.leb_spec (Z.of_nat k) i); try lia; [|done].
    replace (Z.to_nat i - k)%nat with (S (Z.to_nat i - S k)) by lia. done.
Qed.

Lemma new_transaction_ordered_outputs_spec tx hash tx_index height :
  Z.of_nat (length (outputs tx)) <= 2 ^ 32 ->
  exists m, new_transaction_ordered_outputs tx hash tx_index height = Ok m /\
    forall op, m !! op = created_by tx hash tx_index height op.
Proof.
  intros Hlen. destruct (new_transaction_outputs_fold hash tx_index height (outputs tx) 0 ∅) as (m & Hm & Hl); [done|].
  exists m. split; [exact Hm|]. intros op. rewrite Hl. unfold created_by. rewrite Nat.sub_0_r.
  destruct (_ && _); [|by rewrite lookup_empty]. by destruct (outputs tx !! _).
Qed.

Lemma created_by_Some tx hash tx_index height op u :
  created_by tx hash tx_index height op = Some u <->
  exists j o, outputs tx !! j = Some o /\ op = mkOutPoint hash (Z.of_nat j)
    /\ u = OrderedUtxo_new o height tx_index.
Proof.
  unfold created_by. destruct op as [h i]; cbn. split.
  - destruct (bool_decide_reflect (h = hash)) as [->|]; [|done]. cbn.
    destruct (Z.leb_spec 0 i); [|done]. intros (o & Ho & ->)%fmap_Some.
    exists (Z.to_nat i), o. rewrite Z2Nat.id by done. done.
  - intros (j & o & Hj & [= -> ->] & ->). rewrite bool_decide_eq_true_2 by done.
    rewrite (proj2 (Z.leb_le 0 _)) by lia. cbn. by rewrite Nat2Z.id, Hj.
Qed.

Lemma new_ordered_outputs_fold height (ps : list (Transaction * bytes)) (k : nat) (m : gmap OutPoint OrderedUtxo) :
  NoDup ps.*2 -> Forall (fun p => Z.of_nat (length (outputs p.1)) <= 2 ^ 32) ps ->
  (forall op, is_Some (m !! op) -> outpoint_hash op ∉ ps.*2) ->
  exists m', foldM (fun m '(i, (tx, hash)) =>
               new ← new_transaction_ordered_outputs tx hash i height; Ok (new ∪ m))
             m (imap (fun i p => (Z.of_nat (k + i), p)) ps) = Ok m' /\
    forall op u, m' !! op = Some u <-> m !! op = Some u \/
      exists i tx hash, ps !! i = Some (tx, hash) /\ created_by tx hash (Z.of_nat (k + i)) height op = Some u.
Proof.
  revert k m. induction ps as [|[tx hash] ps IH]; intros k m Hnd Hf Hm; cbn [imap foldM].
  { exists m. split; [done|]. intros op u. split; [by left|]. intros [?|(i & ? & ? & [=] & _)]. done. }
  apply NoDup_cons in Hnd as [Hni Hnd]. apply Forall_cons in Hf as [Ho Hf]. cbn in Ho.
  destruct (new_transaction_ordered_outputs_spec tx hash (Z.of_nat (k + 0)) height Ho) as (new & -> & Hnew).
  cbn [mbind res_bind].
  destruct (IH (S k) (new ∪ m) Hnd Hf) as (m' & Hm' & Hl).
  { intros op [u Hu]. apply lookup_union_Some_raw in Hu as [Hu|[_ Hu]].
    - rewrite Hnew in Hu. apply created_by_Some in Hu as (j & o & _ & -> & _). done.
    - intros Hin. apply (Hm op); [by eexists|]. by right. }
  exists m'. split.
  { rewrite <- Hm'. f_equal. apply imap_ext. intros. cbn. do 2 f_equal. lia. }
  intros op u. rewrite Hl, lookup_union_Some_raw, Hnew. split.
  - intros [[?|[? ?]]|(i & tx' & hash' & Hi & Hc)]; [|by left|].
    + right. by exists 0%nat, tx, hash.
    + right. exists (S i), tx', hash'. split; [done|]. rewrite <- Hc. do 2 f_equal. lia.
  - intros [Hu|([|i] & tx' & hash' & Hi & Hc)].
    + left. right. split; [|done]. apply eq_None_not_Some. intros [u' Hu'].
      apply created_by_Some in Hu' as (j & o & _ & -> & _).
      apply (Hm (mkOutPoint hash (Z.of_nat j))); [by eexists|]. left.
    + left. left. cbn in Hi. by simplify_eq.
    + right. exists i, tx', hash'. split; [done|]. rewrite <- Hc. do 2 f_equal. lia.
Qed.

(** When the hashes of a block's transactions are distinct, the outputs it
    creates are computed without panic, and the map holds exactly the [j]-th
    output of the [i]-th transaction under that transaction's hash and index
    [j], marked with the height, the index [i], and as a coinbase output for
    the first transaction only. *)
Theorem new_ordered_outputs_exact (b : Block) (height : Z) (hashes : list bytes) :
  length hashes = length (transactions b) -> NoDup hashes ->
  Forall (fun tx => Z.of_nat (length (outputs tx)) <= 2 ^ 32) (transactions b) ->
  exists m, new_ordered_outputs_with_height b height hashes = Ok m /\
    forall op u, m !! op = Some u <->
      exists i tx hash j o, transactions b !! i = Some tx /\ hashes !! i = Some hash /\
        outputs tx !! j = Some o /\ op = mkOutPoint hash (Z.of_nat j) /\
        u = mkOrderedUtxo (mkUtxo o height (i =? 0)%nat) (Z.of_nat i).
Proof.
  intros Hlen Hnd Hb. unfold new_ordered_outputs_with_height, enumerated_transactions.
  destruct (new_ordered_outputs_fold height (zip (transactions b) hashes) 0 ∅) as (m & Hm & Hl).
  - rewrite snd_zip by lia. done.
  - apply Forall_forall. intros [tx h] Hin. apply elem_of_zip_l in Hin. rewrite Forall_forall in Hb. by apply Hb.
  - intros op [? Hu]. by rewrite lookup_empty in Hu.
  - exists m. split; [exact Hm|]. intros op u. rewrite Hl, lookup_empty. split.
    + intros [?|(i & tx & hash & Hi & Hc)]; [done|].
      apply lookup_zip_Some in Hi as [Ht Hh]. apply created_by_Some in Hc as (j & o & Hj & -> & ->).
      exists i, tx, hash, j, o. split_and!; try done. unfold OrderedUtxo_new. cbn. by destruct i.
    + intros (i & tx & hash & j & o & Ht & Hh & Hj & -> & ->). right. exists i, tx, hash.
      split; [by apply lookup_zip_Some|]. apply created_by_Some. exists j, o. split_and!; try done.
      unfold OrderedUtxo_new. cbn. by destruct i.
Qed.

Definition example_block (h : Header) : Block := mkBlock h [example_tx; example_tx].

Lemma new_ordered_outputs_exact_witness :
  exists m, new_ordered_outputs_with_height (example_block example_header) 7 [[Byte.x08]; [Byte.x09]] = Ok m /\
    m !! mkOutPoint [Byte.x09] 1 = Some (mkOrderedUtxo (mkUtxo (mkOutput 1 []) 7 false) 1).
Proof.
  destruct (new_ordered_outputs_exact (example_block example_header) 7 [[Byte.x08]; [Byte.x09]]) as (m & Hm & Hl).
  - reflexivity.
  - apply (bool_decide_unpack _). vm_compute. exact I.
  - repeat constructor; vm_compute; discriminate.
  - exists m. split; [exact Hm|]. apply Hl. exists 1%nat, example_tx, [Byte.x09], 1%nat, (mkOutput 1 []).
    repeat split; reflexivity.
Defined.

(** A Crosslink transaction with Sapling data has no binding signature
    according to [sapling_binding_sig]. *)
Lemma sapling_binding_sig_crosslink nu lt eh ins outs d od a :
  sapling_binding_sig (VCrosslink nu lt eh ins outs (Some d) od a) = None
  /\ has_sapling_shielded_data (VCrosslink nu lt eh ins outs (Some d) od a) = true.
Proof. done. Qed.
