(* ===== verification/TransparentWire.v ===== *)
(** The wire format of transparent inputs and outputs
    ([zebra-chain/src/transparent/serialize.rs], [transparent/script.rs] and
    [Input::new_coinbase] of [transparent.rs]). *)
From S2P Require Import Prelude Serialization Height Amount Transaction.
From stdpp Require Import prelude strings.
From coqutil Require Import Byte.
From Stdlib Require Import ZArith Lia.
#[local] Open Scope Z_scope.

Definition MAX_COINBASE_DATA_LEN : Z := 100.
Definition MAX_COINBASE_HEIGHT_DATA_LEN : Z := 6.
Definition MIN_COINBASE_DATA_LEN : Z := 2.

Definition GENESIS_COINBASE_DATA : bytes :=
  byte.of_Z <$>
  [4; 255; 255; 7; 31; 1; 4; 69; 90; 99; 97; 115; 104; 48; 98; 57; 99; 52; 101; 101; 102; 56; 98;
   55; 99; 99; 52; 49; 55; 101; 101; 53; 48; 48; 49; 101; 51; 53; 48; 48; 57; 56; 52; 98; 54; 102;
   101; 97; 51; 53; 54; 56; 51; 97; 55; 99; 97; 99; 49; 52; 49; 97; 48; 52; 51; 99; 52; 50; 48;
   54; 52; 56; 51; 53; 100; 51; 52].

(** ** The height in the coinbase data *)

(** [data[i] as u32]; the code only indexes inside the data. *)
Definition byte_at (data : bytes) (i : nat) : Z := default 0 (byte.unsigned <$> data !! i).

Definition parse_coinbase_height (data : bytes) : res SerializationError (Z * bytes) :=
  match data with
  | [] => Err (Parse "Could not parse BIP34 height in coinbase data")
  | first :: _ =>
      let op := byte.unsigned first in
      let len := Z.of_nat (length data) in
      if (0x51 <=? op) && (op <=? 0x60) then Ok (op - 0x50, drop 1 data)
      else if (op =? 0x01) && (2 <=? len) && (byte_at data 1 <? 0x80) then
        let h := byte_at data 1 in
        if (17 <=? h) && (h <? 128) then Ok (h, drop 2 data) else Err (Parse "Invalid block height")
      else if (op =? 0x02) && (3 <=? len) && (byte_at data 2 <? 0x80) then
        let h := byte_at data 1 + Z.shiftl (byte_at data 2) 8 in
        if (128 <=? h) && (h <? 32768) then Ok (h, drop 3 data) else Err (Parse "Invalid block height")
      else if (op =? 0x03) && (4 <=? len) && (byte_at data 3 <? 0x80) then
        let h := byte_at data 1 + Z.shiftl (byte_at data 2) 8 + Z.shiftl (byte_at data 3) 16 in
        if (32768 <=? h) && (h <? 8388608) then Ok (h, drop 4 data) else Err (Parse "Invalid block height")
      else if (op =? 0x04) && bool_decide (data = GENESIS_COINBASE_DATA) then Ok (0, data)
      else if (op =? 0x04) && (5 <=? len) && (byte_at data 4 <? 0x80) then
        let h := byte_at data 1 + Z.shiftl (byte_at data 2) 8 + Z.shiftl (byte_at data 3) 16
                 + Z.shiftl (byte_at data 4) 24 in
        if (8388608 <=? h) && (h <=? Height_MAX) then Ok (h, drop 5 data) else Err (Parse "Invalid block height")
      else Err (Parse "Could not parse BIP34 height in coinbase data")
  end.

Definition write_coinbase_height (height : Z) (coinbase_data : bytes) : res IoError bytes :=
  if height =? 0 then
    if bool_decide (coinbase_data = GENESIS_COINBASE_DATA) then Ok [] else Err (IoOther "invalid genesis coinbase data")
  else if in_range 1 16 height then Ok (write_u8 (0x50 + height))
  else if in_range 17 127 height then Ok (write_u8 0x01 ++ write_u8 height)
  else if in_range 128 32767 height then Ok (write_u8 0x02 ++ write_u16 height)
  else if in_range 32768 8388607 height then
    Ok (write_u8 0x03 ++ write_u8 height ++ write_u8 (Z.shiftr height 8) ++ write_u8 (Z.shiftr height 16))
  else if in_range 8388608 Height_MAX height then Ok (write_u8 0x04 ++ write_u32 height)
  else Panic.

(** [coinbase_zcash_serialized_size]. *)
Definition coinbase_zcash_serialized_size (height : Z) : outcome Z :=
  b ← expect (write_coinbase_height height []); Ok (Z.of_nat (length b)).

Definition new_coinbase_input `{BuildProfile} (height : Z) (data : bytes) (sequence : option Z) : outcome Input :=
  let data := match data with [] => [Byte.x00] | _ => data end in
  size ← coinbase_zcash_serialized_size height;
  data_limit ← arith_u 64 (MAX_COINBASE_DATA_LEN - size);
  _ ← assert_ (Z.of_nat (length data) <=? data_limit);
  Ok (Coinbase height data (default 0 sequence)).

(** ** Wire formats *)

#[export] Instance OutPoint_serialize : ZcashSerialize OutPoint := fun o =>
  Ok (outpoint_hash o ++ write_u32 (outpoint_index o)).
#[export] Instance OutPoint_deserialize : ZcashDeserialize OutPoint :=
  hash ← read_32_bytes; index ← read_u32; mret (mkOutPoint hash index).

#[export] Instance Input_serialize : ZcashSerialize Input := fun i =>
  match i with
  | PrevOut outpoint unlock_script sequence =>
      o ← zcash_serialize outpoint;
      s ← zcash_serialize_bytes unlock_script;
      Ok (o ++ s ++ write_u32 sequence)
  | Coinbase height data sequence =>
      height_bytes ← write_coinbase_height height data;
      d ← zcash_serialize_bytes (height_bytes ++ data);
      Ok (zero_bytes 32 ++ write_u32 0xffffffff ++ d ++ write_u32 sequence)
  end.

#[export] Instance Input_deserialize : ZcashDeserialize Input :=
  hash ← read_32_bytes;
  if bool_decide (hash = zero_bytes 32) then
    index ← read_u32;
    _ ← reader_of (if negb (index =? 0xffffffff) then Err (Parse "wrong index in coinbase") else Ok tt);
    data ← zcash_deserialize_bytes;
    _ ← reader_of (if MAX_COINBASE_DATA_LEN <? Z.of_nat (length data) then Err (Parse "coinbase data is too long")
                   else if Z.of_nat (length data) <? MIN_COINBASE_DATA_LEN then Err (Parse "coinbase data is too short")
                   else Ok tt);
    hd ← reader_of (parse_coinbase_height data);
    sequence ← read_u32;
    mret (Coinbase hd.1 hd.2 sequence)
  else
    index ← read_u32;
    unlock_script ← zcash_deserialize_bytes;
    sequence ← read_u32;
    mret (PrevOut (mkOutPoint hash index) unlock_script sequence).

#[export] Instance Output_serialize : ZcashSerialize Output := fun o =>
  v ← zcash_serialize (mkNonNegAmount (output_value o));
  s ← zcash_serialize_bytes (lock_script o);
  Ok (v ++ s).
#[export] Instance Output_deserialize : ZcashDeserialize Output :=
  v ← zcash_deserialize;
  s ← zcash_deserialize_bytes;
  mret (mkOutput (non_neg_amount v) s).

(** [zcash_serialized_size]: the length of what is written, by a writer that
    only counts. *)
Definition zcash_serialized_size {A} `{ZcashSerialize A} (a : A) : outcome Z :=
  b ← expect (zcash_serialize a); Ok (Z.of_nat (length b)).

(** * Coinbase heights *)

Lemma unsigned_bounds b : 0 <= byte.unsigned b < 256.
Proof. apply byte.unsigned_range. Qed.

Lemma le_bytes_1 x : exists b, le_bytes 1 x = [b] /\ byte.unsigned b = x mod 256.
Proof.
  pose proof (length_le_bytes 1 x) as Hl. destruct (le_bytes 1 x) as [|b [|]] eqn:E; [done| |done].
  exists b. split; [done|]. unfold le_bytes, LittleEndianList.le_split in E. injection E as <-.
  rewrite byte.unsigned_of_Z. done.
Qed.

Lemma le_bytes_vals n x l :
  0 <= x < 2 ^ (8 * Z.of_nat n) -> le_bytes n x = l -> le_value l = x.
Proof. intros Hx <-. apply le_value_bytes. by rewrite Z.mul_comm. Qed.

Lemma le_value_4 a b c d :
  le_value [a; b; c; d]
  = byte.unsigned a + Z.shiftl (byte.unsigned b) 8 + Z.shiftl (byte.unsigned c) 16 + Z.shiftl (byte.unsigned d) 24.
Proof.
  rewrite !le_value_cons, !Z.shiftl_mul_pow2 by lia. change (le_value []) with 0. lia.
Qed.
Lemma le_value_3 a b c :
  le_value [a; b; c] = byte.unsigned a + Z.shiftl (byte.unsigned b) 8 + Z.shiftl (byte.unsigned c) 16.
Proof. rewrite !le_value_cons, !Z.shiftl_mul_pow2 by lia. change (le_value []) with 0. lia. Qed.
Lemma le_value_2 a b : le_value [a; b] = byte.unsigned a + Z.shiftl (byte.unsigned b) 8.
Proof. rewrite !le_value_cons, !Z.shiftl_mul_pow2 by lia. change (le_value []) with 0. lia. Qed.

(** The bytes of a height in each of the ranges of [write_coinbase_height]. *)
Lemma write_height_3 h :
  write_u8 h ++ write_u8 (Z.shiftr h 8) ++ write_u8 (Z.shiftr h 16) = le_bytes 3 h.
Proof.
  unfold write_u8, le_bytes, LittleEndianList.le_split. cbn [app]. rewrite Z.shiftr_shiftr by lia. done.
Qed.

Ltac byte_cases H n x :=
  let E := fresh "E" in let Hl := fresh "Hl" in
  pose proof (length_le_bytes n x) as Hl; destruct (le_bytes n x) as [|? [|? [|? [|? [|? ?]]]]] eqn:E;
  cbn [length] in Hl; try discriminate Hl; clear Hl;
  apply le_bytes_vals in E as H; [|cbn; lia].

(** The most significant byte of a little-endian value below the sign bit. *)
Ltac parse_lia :=
  repeat match goal with b : Init.Byte.byte |- _ =>
           lazymatch goal with H : 0 <= byte.unsigned b < 256 |- _ => fail | _ => pose proof (unsigned_bounds b) end end;
  rewrite ?Z.shiftl_mul_pow2 in * by lia; rewrite ?Height_MAX_value in *; cbn [Z.pow Z.pow_pos Pos.iter Z.mul] in *; lia.

(** A written height is read back, except that height 0 needs the genesis data
    and that no other height may happen to write that data. *)
Lemma parse_write_height h data p :
  write_coinbase_height h data = Ok p -> (h <> 0 -> p ++ data <> GENESIS_COINBASE_DATA) ->
  parse_coinbase_height (p ++ data) = Ok (h, data).
Proof.
  unfold write_coinbase_height, in_range.
  destruct (Z.eqb_spec h 0) as [->|Hne].
  { case_bool_decide as Hd; [|done]. intros [= <-] _. subst data. vm_compute. reflexivity. }
  repeat case_match; try done; bool_to_prop; intros Hp Hg; specialize (Hg Hne); apply Ok_inj in Hp; subst p.
  - unfold write_u8. destruct (le_bytes_1 (0x50 + h)) as (b & -> & Hb). rewrite Z.mod_small in Hb by lia.
    cbn [app parse_coinbase_height drop]. cbv zeta.
    rewrite (proj2 (andb_true_iff _ _)) by (rewrite !Z.leb_le; lia). do 2 f_equal. lia.
  - destruct (le_bytes_1 h) as (b & Hw & Hb). rewrite Z.mod_small in Hb by lia. change (write_u8 h) with (le_bytes 1 h). rewrite Hw.
    change (write_u8 1) with [Byte.x01]. cbn [app parse_coinbase_height drop]. cbv zeta.
    change (byte.unsigned Byte.x01) with 1. change (byte_at (Byte.x01 :: b :: data) 1) with (byte.unsigned b).
    cbn [length]. rewrite Hb. cbn [Z.leb Z.eqb andb Z.compare Pos.compare Pos.compare_cont].
    rewrite !(proj2 (Z.leb_le _ _)), !(proj2 (Z.ltb_lt _ _)) by lia. done.
  - unfold write_u16. byte_cases Hv 2%nat h. rewrite le_value_2 in Hv.
    change (write_u8 2) with [Byte.x02]. cbn [app parse_coinbase_height drop length]. cbv zeta.
    change (byte.unsigned Byte.x02) with 2. change (byte_at (Byte.x02 :: b :: b0 :: data) 1) with (byte.unsigned b).
    change (byte_at (Byte.x02 :: b :: b0 :: data) 2) with (byte.unsigned b0).
    cbn [Z.leb Z.eqb andb Z.compare Pos.compare Pos.compare_cont Pos.eqb]. rewrite Hv.
    rewrite !(proj2 (Z.leb_le _ _)), !(proj2 (Z.ltb_lt _ _)) by parse_lia. done.
  - rewrite write_height_3. byte_cases Hv 3%nat h. rewrite le_value_3 in Hv.
    change (write_u8 3) with [Byte.x03]. cbn [app parse_coinbase_height drop length]. cbv zeta.
    change (byte.unsigned Byte.x03) with 3. change (byte_at (Byte.x03 :: b :: b0 :: b1 :: data) 1) with (byte.unsigned b).
    change (byte_at (Byte.x03 :: b :: b0 :: b1 :: data) 2) with (byte.unsigned b0).
    change (byte_at (Byte.x03 :: b :: b0 :: b1 :: data) 3) with (byte.unsigned b1).
    cbn [Z.leb Z.eqb andb Z.compare Pos.compare Pos.compare_cont Pos.eqb]. rewrite Hv.
    rewrite !(proj2 (Z.leb_le _ _)), !(proj2 (Z.ltb_lt _ _)) by parse_lia. done.
  - unfold write_u32 in *. rewrite Height_MAX_value in *. byte_cases Hv 4%nat h.
    rewrite le_value_4 in Hv. change (write_u8 4) with [Byte.x04] in *.
    cbn [app parse_coinbase_height drop length] in *. cbv zeta.
    change (byte.unsigned Byte.x04) with 4.
    change (byte_at (Byte.x04 :: b :: b0 :: b1 :: b2 :: data) 1) with (byte.unsigned b).
    change (byte_at (Byte.x04 :: b :: b0 :: b1 :: b2 :: data) 2) with (byte.unsigned b0).
    change (byte_at (Byte.x04 :: b :: b0 :: b1 :: b2 :: data) 3) with (byte.unsigned b1).
    change (byte_at (Byte.x04 :: b :: b0 :: b1 :: b2 :: data) 4) with (byte.unsigned b2).
    cbn [Z.leb Z.eqb andb Z.compare Pos.compare Pos.compare_cont Pos.eqb].
    rewrite bool_decide_eq_false_2 by exact Hg. rewrite Hv, Height_MAX_value.
    rewrite !(proj2 (Z.leb_le _ _)), !(proj2 (Z.ltb_lt _ _)) by parse_lia. done.
Qed.

Lemma write_u8_unsigned b : write_u8 (byte.unsigned b) = [b].
Proof.
  unfold write_u8, le_bytes, LittleEndianList.le_split. by rewrite byte.of_Z_unsigned.
Qed.
Lemma first_byte first k : byte.unsigned first = k -> [first] = write_u8 k.
Proof. intros <-. by rewrite write_u8_unsigned. Qed.

(** The range tests of [write_coinbase_height] on a height in one of them. *)
Lemma write_height_range h data p (n : nat) :
  h <> 0 ->
  match n with
  | 0%nat => 1 <= h <= 16 /\ p = write_u8 (0x50 + h)
  | 1%nat => 17 <= h <= 127 /\ p = write_u8 0x01 ++ write_u8 h
  | 2%nat => 128 <= h <= 32767 /\ p = write_u8 0x02 ++ le_bytes 2 h
  | 3%nat => 32768 <= h <= 8388607 /\ p = write_u8 0x03 ++ le_bytes 3 h
  | _ => 8388608 <= h <= Height_MAX /\ p = write_u8 0x04 ++ le_bytes 4 h
  end -> write_coinbase_height h data = Ok p.
Proof.
  intros Hne Hn. unfold write_coinbase_height. destruct (Z.eqb_spec h 0); [done|].
  assert (forall lo hi, hi < h -> in_range lo hi h = false) as Hout.
  { intros lo hi Hlt. apply andb_false_iff. right. apply Z.leb_gt. done. }
  rewrite Height_MAX_value in *.
  destruct n as [|[|[|[|n]]]]; destruct Hn as [Hr ->];
    rewrite ?Hout by lia; rewrite (proj2 (in_range_spec _ _ _)) by lia; rewrite ?write_height_3; done.
Qed.

Lemma write_parse_height d h data :
  parse_coinbase_height d = Ok (h, data) ->
  exists p, write_coinbase_height h data = Ok p /\ d = p ++ data /\ (h <> 0 -> d <> GENESIS_COINBASE_DATA).
Proof.
  destruct d as [|first rest]; [done|]. cbn [parse_coinbase_height]. cbv zeta.
  assert (forall k, byte.unsigned first = k -> k <> 4 -> first :: rest <> GENESIS_COINBASE_DATA) as Hgen.
  { intros k Hk Hne Heq. apply Hne. rewrite <- Hk. injection Heq as -> _. reflexivity. }
  case_match eqn:E0; [|clear E0; case_match eqn:E1; [|clear E1; case_match eqn:E2; [|clear E2; case_match eqn:E3;
    [|clear E3; case_match eqn:E4; [|case_match eqn:E5; [|done]]]]]].
  - intros [= <- <-]. bool_to_prop. eexists. split; [apply (write_height_range _ _ _ 0); [lia|split; [lia|reflexivity]]|].
    split; [|intros _; by eapply (Hgen _ eq_refl); lia].
    replace (0x50 + (byte.unsigned first - 0x50)) with (byte.unsigned first) by lia. by rewrite write_u8_unsigned.
  - case_match eqn:Er; [|done]. intros [= <- <-]. bool_to_prop. destruct rest as [|b rest]; [cbn in *; lia|].
    change (byte_at (first :: b :: rest) 1) with (byte.unsigned b) in *.
    eexists. split; [apply (write_height_range _ _ _ 1); [lia|split; [lia|reflexivity]]|].
    split; [|intros _; eapply (Hgen 1); [done|lia]]. by rewrite write_u8_unsigned, <- (first_byte first).
  - case_match eqn:Er; [|done]. intros [= <- <-]. bool_to_prop. destruct rest as [|b [|b0 rest]]; [cbn in *; lia..|].
    change (byte_at (first :: b :: b0 :: rest) 1) with (byte.unsigned b) in *.
    change (byte_at (first :: b :: b0 :: rest) 2) with (byte.unsigned b0) in *. rewrite <- le_value_2 in *.
    eexists. split; [apply (write_height_range _ _ _ 2); [lia|split; [lia|reflexivity]]|].
    split; [|intros _; eapply (Hgen 2); [done|lia]]. by rewrite le_bytes_value, <- (first_byte first).
  - case_match eqn:Er; [|done]. intros [= <- <-]. bool_to_prop. destruct rest as [|b [|b0 [|b1 rest]]]; [cbn in *; lia..|].
    change (byte_at (first :: b :: b0 :: b1 :: rest) 1) with (byte.unsigned b) in *.
    change (byte_at (first :: b :: b0 :: b1 :: rest) 2) with (byte.unsigned b0) in *.
    change (byte_at (first :: b :: b0 :: b1 :: rest) 3) with (byte.unsigned b1) in *. rewrite <- le_value_3 in *.
    eexists. split; [apply (write_height_range _ _ _ 3); [lia|split; [lia|reflexivity]]|].
    split; [|intros _; eapply (Hgen 3); [done|lia]]. by rewrite le_bytes_value, <- (first_byte first).
  - apply andb_true_iff in E4 as [_ E4]. apply bool_decide_eq_true in E4. intros [= <- <-].
    exists []. split; [|split; [done|done]]. rewrite E4. vm_compute. reflexivity.
  - case_match eqn:Er; [|done]. intros [= <- <-].
    assert (first :: rest <> GENESIS_COINBASE_DATA) as Hng.
    { bool_to_prop. rewrite (proj2 (Z.eqb_eq _ _)) in E4 by done. cbn [andb] in E4.
      by apply bool_decide_eq_false in E4. }
    clear E4. bool_to_prop. destruct rest as [|b [|b0 [|b1 [|b2 rest]]]]; [cbn in *; lia..|].
    change (byte_at (first :: b :: b0 :: b1 :: b2 :: rest) 1) with (byte.unsigned b) in *.
    change (byte_at (first :: b :: b0 :: b1 :: b2 :: rest) 2) with (byte.unsigned b0) in *.
    change (byte_at (first :: b :: b0 :: b1 :: b2 :: rest) 3) with (byte.unsigned b1) in *.
    change (byte_at (first :: b :: b0 :: b1 :: b2 :: rest) 4) with (byte.unsigned b2) in *. rewrite <- le_value_4 in *.
    eexists. split; [apply (write_height_range _ _ _ 4); [lia|split; [lia|reflexivity]]|].
    split; [|done]. by rewrite le_bytes_value, <- (first_byte first).
Qed.

(** * Wire format laws *)

Definition wf_script (s : bytes) : Prop := Z.of_nat (length s) <= MAX_U8_ALLOCATION.
Definition wf_OutPoint (o : OutPoint) : Prop := length (outpoint_hash o) = 32%nat /\ is_u32 (outpoint_index o).

(** A coinbase input has a height that can be written before its data, in a
    script of 2 to 100 bytes; a previous output is not named by the null hash. *)
Definition wf_Input (i : Input) : Prop :=
  match i with
  | PrevOut outpoint unlock_script sequence =>
      wf_OutPoint outpoint /\ outpoint_hash outpoint <> zero_bytes 32 /\ wf_script unlock_script /\ is_u32 sequence
  | Coinbase height data sequence =>
      (exists p, write_coinbase_height height data = Ok p /\ 2 <= Z.of_nat (length (p ++ data)) <= 100
         /\ (height <> 0 -> p ++ data <> GENESIS_COINBASE_DATA))
      /\ is_u32 sequence
  end.
Definition wf_Output (o : Output) : Prop := amount_in NonNegative (output_value o) /\ wf_script (lock_script o).

(** Reading the next field of what was written, and undoing a read. *)
Lemma read_u32_app x rest : is_u32 x -> read_u32 (write_u32 x ++ rest) = Ok (x, rest).
Proof. intros. apply read_le_app. cbn. width_lia. Qed.
Lemma read_u32_inv s x rest : read_u32 s = Ok (x, rest) -> s = write_u32 x ++ rest /\ is_u32 x.
Proof. intros [-> Hx]%read_le_inv. split; [done|]. cbn in Hx. width_lia. Qed.

Ltac read_back :=
  erewrite reader_bind_Ok;
  [|lazymatch goal with
    | |- read_exact _ _ = _ => by apply read_exact_app
    | |- read_u32 _ = _ => by apply read_u32_app
    | |- zcash_deserialize_bytes _ = _ => eapply zcash_bytes_roundtrip; [|eassumption]; done
    | |- zcash_deserialize _ = _ => eapply codec_roundtrip; [|eassumption]; done
    end].

Lemma serialize_bytes_total s : wf_script s -> exists b, zcash_serialize_bytes s = Ok b.
Proof.
  unfold wf_script, MAX_U8_ALLOCATION. intros Hs. rewrite zcash_serialize_bytes_spec.
  rewrite (proj2 (Z.leb_le _ _)) by lia.
  destruct (codec_total (mkCompactSizeMessage (Z.of_nat (length s)))) as [l ->]; [|cbn; eauto].
  unfold wf_CompactSizeMessage. cbn. lia.
Qed.

#[export] Instance OutPoint_codec : Codec OutPoint wf_OutPoint.
Proof.
  split; [by eexists|]. intros [h i] bs rest [Hh Hi]. unfold zcash_serialize, OutPoint_serialize. intros Hs.
  apply Ok_inj in Hs as <-. rewrite <- app_assoc. unfold zcash_deserialize, OutPoint_deserialize, read_32_bytes.
  cbn [outpoint_hash outpoint_index] in *. by do 2 read_back.
Qed.
#[export] Instance OutPoint_is_canonical : Canonical OutPoint wf_OutPoint.
Proof.
  intros s a rest H. unfold zcash_deserialize, OutPoint_deserialize, read_32_bytes in H. rd_inv H. rd_inv H.
  injection H as <- <-. apply read_exact_inv in Hr as [-> Hl]. apply read_u32_inv in Hr0 as [-> Hi].
  split; [done|]. eexists. split; [reflexivity|]. cbn. by rewrite <- app_assoc.
Qed.

#[export] Instance Output_codec : Codec Output wf_Output.
Proof.
  split.
  - intros [v s] [Hv Hs]. unfold zcash_serialize, Output_serialize. cbn [output_value lock_script] in *.
    destruct (codec_total (mkNonNegAmount v) Hv) as [b ->]. destruct (serialize_bytes_total s Hs) as [c ->]. by eexists.
  - intros [v s] bs rest [Hv Hs]. unfold zcash_serialize, Output_serialize. cbn [output_value lock_script] in *.
    intros (b & Hb & H)%bind_Ok_inv. apply bind_Ok_inv in H as (c & Hc & H). apply Ok_inj in H as <-.
    rewrite <- app_assoc. unfold zcash_deserialize, Output_deserialize. by do 2 read_back.
Qed.
#[export] Instance Output_is_canonical : Canonical Output wf_Output.
Proof.
  intros s a rest H. unfold zcash_deserialize, Output_deserialize in H. rd_inv H. rd_inv H. injection H as <- <-.
  apply codec_canonical in Hr as [Hv (b & Hb & ->)]. apply zcash_bytes_canonical in Hr0 as [Hs (c & Hc & ->)].
  split; [done|]. destruct a0 as [v]. unfold zcash_serialize, Output_serialize. cbn [output_value lock_script non_neg_amount].
  rewrite Hb. cbn [mbind res_bind]. rewrite Hc. eexists. split; [reflexivity|]. by rewrite <- app_assoc.
Qed.

Lemma wf_Input_total i : wf_Input i -> exists bs, zcash_serialize i = Ok bs.
Proof.
  destruct i as [o u q|h d q]; unfold zcash_serialize, Input_serialize.
  - intros (Ho & _ & Hu & _). destruct (codec_total o Ho) as [b ->]. destruct (serialize_bytes_total u Hu) as [c ->].
    by eexists.
  - intros [(p & -> & Hl & _) _]. cbn [mbind res_bind]. destruct (serialize_bytes_total (p ++ d)) as [c ->]; [|by eexists].
    unfold wf_script, MAX_U8_ALLOCATION, MAX_PROTOCOL_MESSAGE_LEN. lia.
Qed.

#[export] Instance Input_codec : Codec Input wf_Input.
Proof.
  split; [exact wf_Input_total|]. intros [o u q|h d q] bs rest; unfold zcash_serialize, Input_serialize.
  - intros ([Hh Hi] & Hz & Hu & Hq) (b & Hb & H)%bind_Ok_inv. apply bind_Ok_inv in H as (c & Hc & H).
    apply Ok_inj in H as <-. destruct o as [h i]. cbn [outpoint_hash outpoint_index] in *.
    unfold zcash_serialize, OutPoint_serialize in Hb. apply Ok_inj in Hb as <-. cbn [outpoint_hash outpoint_index].
    rewrite <- !app_assoc. unfold zcash_deserialize, Input_deserialize, read_32_bytes. read_back.
    rewrite bool_decide_eq_false_2 by done. by do 3 read_back.
  - intros [(p & Hp & Hl & Hg) Hq]. rewrite Hp. cbn [mbind res_bind]. intros (c & Hc & H)%bind_Ok_inv.
    apply Ok_inj in H as <-. rewrite <- !app_assoc. unfold zcash_deserialize, Input_deserialize, read_32_bytes.
    read_back. rewrite bool_decide_eq_true_2 by done.
    erewrite reader_bind_Ok by (apply read_u32_app; width_lia). cbn [negb Z.eqb Pos.eqb].
    erewrite reader_bind_Ok by reflexivity.
    erewrite reader_bind_Ok;
      [|eapply zcash_bytes_roundtrip; [|exact Hc]; unfold MAX_U8_ALLOCATION, MAX_PROTOCOL_MESSAGE_LEN; lia].
    unfold MAX_COINBASE_DATA_LEN, MIN_COINBASE_DATA_LEN. rewrite !(proj2 (Z.ltb_ge _ _)) by lia.
    erewrite reader_bind_Ok by reflexivity. rewrite (parse_write_height _ _ _ Hp Hg).
    erewrite reader_bind_Ok by reflexivity. by read_back.
Qed.

#[export] Instance Input_is_canonical : Canonical Input wf_Input.
Proof.
  intros s a rest H. unfold zcash_deserialize, Input_deserialize, read_32_bytes in H.
  apply reader_bind_inv in H as (hash & s1 & Hh & H). apply read_exact_inv in Hh as [-> Hlen].
  destruct (bool_decide_reflect (hash = zero_bytes 32)) as [->|Hne].
  - apply reader_bind_inv in H as (i & s2 & Hi & H). apply read_u32_inv in Hi as [-> Hi].
    apply reader_bind_inv in H as (u & s3 & Hu & H). apply reader_of_inv in Hu as [Hu ->].
    destruct (Z.eqb_spec i 0xffffffff) as [->|]; [clear Hu|done].
    apply reader_bind_inv in H as (d & s4 & Hd & H). apply zcash_bytes_canonical in Hd as [_ (c & Hc & ->)].
    apply reader_bind_inv in H as (u' & s5 & Hu & H). apply reader_of_inv in Hu as [Hu ->].
    unfold MAX_COINBASE_DATA_LEN, MIN_COINBASE_DATA_LEN in Hu. repeat case_match; try done. bool_to_prop.
    apply reader_bind_inv in H as ([h data] & s6 & Hp & H). apply reader_of_inv in Hp as [Hp ->].
    apply reader_bind_inv in H as (q & s7 & Hq & H). apply read_u32_inv in Hq as [-> Hq]. injection H as <- <-.
    apply write_parse_height in Hp as (p & Hp & -> & Hg). split; [split; [exists p; split_and!; done|done]|].
    unfold zcash_serialize, Input_serialize. cbn [fst snd]. rewrite Hp. cbn [mbind res_bind]. rewrite Hc.
    eexists. split; [reflexivity|]. by rewrite <- !app_assoc.
  - apply reader_bind_inv in H as (i & s2 & Hi & H). apply read_u32_inv in Hi as [-> Hi].
    apply reader_bind_inv in H as (u & s3 & Hu & H). apply zcash_bytes_canonical in Hu as [Hs (c & Hc & ->)].
    apply reader_bind_inv in H as (q & s4 & Hq & H). apply read_u32_inv in Hq as [-> Hq]. injection H as <- <-.
    split; [done|]. unfold zcash_serialize, Input_serialize. cbn. rewrite Hc. eexists. split; [reflexivity|].
    cbn. by rewrite <- !app_assoc.
Qed.

(** Height 520617983 is the height that the genesis data would encode: a
    coinbase input of that height with the rest of the genesis data is written
    like the genesis input, and read back as height 0. *)
Lemma genesis_height_collision :
  zcash_serialize (Coinbase 520617983 (drop 5 GENESIS_COINBASE_DATA) 0)
  = zcash_serialize (Coinbase 0 GENESIS_COINBASE_DATA 0).
Proof. vm_compute. reflexivity. Qed.

(** [coinbase_zcash_serialized_size] writes a height with empty data: at height
    0 that is an error, so building a coinbase input for genesis panics. *)
Lemma new_coinbase_genesis_panics `{BuildProfile} data sequence : new_coinbase_input 0 data sequence = Panic.
Proof. reflexivity. Qed.

(** The wire format of transparent inputs and outputs: every well-formed
    one can be written, reading back what was written, with anything after it,
    gives the same value and leaves the rest, and whatever the reader accepts is
    well-formed and is exactly the encoding of what it returned. In particular
    the height in a coinbase input has one encoding. *)
Theorem transparent_wire_format (i : Input) (o : Output) :
  (wf_Input i -> exists bs, zcash_serialize i = Ok bs /\ forall rest, zcash_deserialize (bs ++ rest) = Ok (i, rest))
  /\ (forall s rest, zcash_deserialize s = Ok (i, rest) ->
       wf_Input i /\ exists bs, zcash_serialize i = Ok bs /\ s = bs ++ rest)
  /\ (wf_Output o -> exists bs, zcash_serialize o = Ok bs /\ forall rest, zcash_deserialize (bs ++ rest) = Ok (o, rest))
  /\ (forall s rest, zcash_deserialize s = Ok (o, rest) ->
       wf_Output o /\ exists bs, zcash_serialize o = Ok bs /\ s = bs ++ rest).
Proof.
  repeat apply conj.
  - intros Hi. destruct (codec_total i Hi) as [bs Hb]. exists bs. split; [done|]. intros. by apply codec_roundtrip.
  - intros s rest. apply codec_canonical.
  - intros Ho. destruct (codec_total o Ho) as [bs Hb]. exists bs. split; [done|]. intros. by apply codec_roundtrip.
  - intros s rest. apply codec_canonical.
Qed.
