(* ===== verification/BlockCommitment.v ===== *)
(** The commitment field of a block header and how it is read
    ([zebra-chain/src/block/commitment.rs], [Block::commitment]).

    Decoding a Sapling root, hashing a header and the two roots that a block
    commitment hashes together are functions of third-party crates; they are
    parameters. *)
From S2P Require Import Prelude NetworkUpgrade BlockHeader Transaction.
From stdpp Require Import prelude.
From Stdlib Require Import ZArith Lia.
#[local] Open Scope Z_scope.

Class CommitmentOps := {
  (** [jubjub::Base::from_bytes] accepts the bytes. *)
  sapling_root_canonical : bytes -> bool;
  block_header_hash : Header -> bytes;
  auth_data_root : Block -> bytes;
  (** BLAKE2b of the history root and the authorizing data root. *)
  from_commitments : bytes -> bytes -> bytes
}.

Inductive Commitment : Type :=
| PreSaplingReserved (reserved : bytes)
| FinalSaplingRoot (root : bytes)
| ChainHistoryActivationReserved
| ChainHistoryRoot (root : bytes)
| ChainHistoryBlockTxAuthCommitment (hash : bytes).

Inductive CommitmentError : Type :=
| InvalidFinalSaplingRoot (expected actual : bytes)
| InvalidChainHistoryActivationReserved (actual : bytes)
| InvalidChainHistoryRoot (expected actual : bytes)
| InvalidChainHistoryBlockTxAuthCommitment (expected actual : bytes)
| MissingBlockHeight (block_hash : bytes)
| InvalidSapingRootBytes.

Definition CHAIN_HISTORY_ACTIVATION_RESERVED : bytes := zero_bytes 32.

Section Commitment.
Context `{CommitmentOps}.

Definition activation_reserved (bs : bytes) : res CommitmentError Commitment :=
  if bool_decide (bs = CHAIN_HISTORY_ACTIVATION_RESERVED)
  then Ok ChainHistoryActivationReserved
  else Err (InvalidChainHistoryActivationReserved bs).

Definition commitment_from_bytes (bs : bytes) (network : Network) (height : Z) : res CommitmentError Commitment :=
  '(nu, activation) ← lift (current_with_activation_height network height);
  match nu with
  | Genesis | BeforeOverwinter | Overwinter => Ok (PreSaplingReserved bs)
  | Sapling | Blossom =>
      if sapling_root_canonical bs then Ok (FinalSaplingRoot bs) else Err InvalidSapingRootBytes
  | Heartwood =>
      if height =? activation then activation_reserved bs else Ok (ChainHistoryRoot bs)
  | Canopy | Nu5 | Nu6 | Nu6_1 | Nu7 =>
      if (height =? activation) && bool_decide (Some height = activation_height Heartwood network)
      then activation_reserved bs
      else match nu with
           | Canopy => Ok (ChainHistoryRoot bs)
           | _ => Ok (ChainHistoryBlockTxAuthCommitment bs)
           end
  end.

Definition block_commitment (b : Block) (network : Network) : res CommitmentError Commitment :=
  match coinbase_height b with
  | None => Err (MissingBlockHeight (block_header_hash (block_header b)))
  | Some height => commitment_from_bytes (commitment_bytes (block_header b)) network height
  end.
End Commitment.
