(* ===== verification/TransparentIndex.v ===== *)
(** The transparent address index of a non-finalized chain
    ([zebra-state/src/service/non_finalized_state/chain/index.rs]): per-address
    balances, transaction ids, created and spent outputs, and how a created or
    spent output is added and reverted. *)
From S2P Require Import Prelude Amount Transaction.
From stdpp Require Import prelude gmap gmultiset.
From Stdlib Require Import ZArith Lia.
#[local] Open Scope Z_scope.

Record TransactionLocation := mkTransactionLocation { loc_height : Z; loc_index : Z }.
#[export] Instance TransactionLocation_eq_dec : EqDecision TransactionLocation.
Proof. solve_decision. Defined.
#[export] Instance TransactionLocation_countable : Countable TransactionLocation.
Proof.
  refine (inj_countable' (fun l => (loc_height l, loc_index l)) (fun p => mkTransactionLocation p.1 p.2) _).
  by intros [].
Defined.

Record OutputLocation := mkOutputLocation { transaction_loc : TransactionLocation; output_index : Z }.
#[export] Instance OutputLocation_eq_dec : EqDecision OutputLocation.
Proof. solve_decision. Defined.
#[export] Instance OutputLocation_countable : Countable OutputLocation.
Proof.
  refine (inj_countable' (fun l => (transaction_loc l, output_index l)) (fun p => mkOutputLocation p.1 p.2) _).
  by intros [].
Defined.

(** Transaction indexes are stored in 16 bits. *)
Definition TransactionLocation_from_usize (height index : Z) : outcome TransactionLocation :=
  index ← unwrap (checked 0 u16_MAX index); Ok (mkTransactionLocation height index).

Definition from_outpoint (loc : TransactionLocation) (outpoint : OutPoint) : OutputLocation :=
  mkOutputLocation loc (outpoint_index outpoint).

Record TransparentTransfers := mkTransparentTransfers {
  balance : Z;
  tx_ids : gmultiset bytes;
  address_created_utxos : gmap OutputLocation Output;
  address_spent_utxos : gset OutputLocation
}.

Definition default_transfers : TransparentTransfers := mkTransparentTransfers 0 ∅ ∅ ∅.

Definition transfers_is_empty (t : TransparentTransfers) : bool :=
  (balance t =? 0) && bool_decide (tx_ids t = ∅) && bool_decide (address_created_utxos t = ∅)
  && bool_decide (address_spent_utxos t = ∅).

Definition transaction_location (u : OrderedUtxo) : outcome TransactionLocation :=
  TransactionLocation_from_usize (utxo_height (ordered_utxo u)) (tx_index_in_block u).

Definition utxo_value (u : OrderedUtxo) : Z := output_value (utxo_output (ordered_utxo u)).

(** A created output. *)
Definition transfers_update_created (t : TransparentTransfers) (outpoint : OutPoint) (created_utxo : OrderedUtxo)
    : outcome TransparentTransfers :=
  value ← expect (amount_constrain NegativeAllowed (utxo_value created_utxo));
  balance ← expect (amount_add NegativeAllowed (balance t) value);
  loc ← transaction_location created_utxo;
  let output_location := from_outpoint loc outpoint in
  _ ← assert_ (bool_decide (address_created_utxos t !! output_location = None));
  Ok (mkTransparentTransfers balance (tx_ids t ⊎ {[+ outpoint_hash outpoint +]})
        (<[output_location := utxo_output (ordered_utxo created_utxo)]> (address_created_utxos t))
        (address_spent_utxos t)).

Definition transfers_revert_created (t : TransparentTransfers) (outpoint : OutPoint) (created_utxo : OrderedUtxo)
    : outcome TransparentTransfers :=
  value ← expect (amount_constrain NegativeAllowed (utxo_value created_utxo));
  balance ← expect (amount_sub NegativeAllowed (balance t) value);
  loc ← transaction_location created_utxo;
  let output_location := from_outpoint loc outpoint in
  _ ← assert_ (bool_decide (is_Some (address_created_utxos t !! output_location)));
  _ ← assert_ (bool_decide (outpoint_hash outpoint ∈ tx_ids t));
  Ok (mkTransparentTransfers balance (tx_ids t ∖ {[+ outpoint_hash outpoint +]})
        (delete output_location (address_created_utxos t)) (address_spent_utxos t)).

(** A spent output; [spent_outpoint] is the outpoint of the spending input. *)
Definition transfers_update_spent (t : TransparentTransfers) (spent_outpoint : OutPoint) (spending_tx_hash : bytes)
    (spent_output : OrderedUtxo) : outcome TransparentTransfers :=
  value ← expect (amount_constrain NegativeAllowed (utxo_value spent_output));
  balance ← expect (amount_sub NegativeAllowed (balance t) value);
  loc ← transaction_location spent_output;
  let output_location := from_outpoint loc spent_outpoint in
  _ ← assert_ (bool_decide (output_location ∉ address_spent_utxos t));
  Ok (mkTransparentTransfers balance (tx_ids t ⊎ {[+ spending_tx_hash +]}) (address_created_utxos t)
        ({[output_location]} ∪ address_spent_utxos t)).

Definition transfers_revert_spent (t : TransparentTransfers) (spent_outpoint : OutPoint) (spending_tx_hash : bytes)
    (spent_output : OrderedUtxo) : outcome TransparentTransfers :=
  value ← expect (amount_constrain NegativeAllowed (utxo_value spent_output));
  balance ← expect (amount_add NegativeAllowed (balance t) value);
  loc ← transaction_location spent_output;
  let output_location := from_outpoint loc spent_outpoint in
  _ ← assert_ (bool_decide (output_location ∈ address_spent_utxos t));
  _ ← assert_ (bool_decide (spending_tx_hash ∈ tx_ids t));
  Ok (mkTransparentTransfers balance (tx_ids t ∖ {[+ spending_tx_hash +]}) (address_created_utxos t)
        (address_spent_utxos t ∖ {[output_location]})).

(** [received]: a [u64] sum. *)
Definition transfers_received `{BuildProfile} (t : TransparentTransfers) : outcome Z :=
  foldM (fun acc o => arith_u 64 (acc + output_value o)) 0 (map_to_list (address_created_utxos t)).*2.

(** [tx_ids] in a height range, located in the chain. *)
Definition transfers_tx_ids (t : TransparentTransfers) (chain_tx_loc_by_hash : gmap bytes TransactionLocation)
    (lo hi : Z) : outcome (gmap TransactionLocation bytes) :=
  foldM (fun m tx_hash =>
           tx_loc ← unwrap (chain_tx_loc_by_hash !! tx_hash);
           Ok (if (lo <=? loc_height tx_loc) && (loc_height tx_loc <=? hi) then <[tx_loc := tx_hash]> m else m))
    ∅ (elements (dom (tx_ids t) : gset bytes)).

(** * One transfer, without the balance check

    A transfer is a created or a spent output of an address. Transfers of one
    block are applied in one order and reverted in another; the balance is an
    exact integer here, and its range is accounted for separately. *)

Record transfer := mkTransfer {
  is_created : bool;
  transfer_location : OutputLocation;
  transfer_output : Output;
  transfer_tx : bytes
}.

Definition transfer_delta (x : transfer) : Z :=
  if is_created x then output_value (transfer_output x) else - output_value (transfer_output x).

Definition apply_transfer (t : TransparentTransfers) (x : transfer) : option TransparentTransfers :=
  if is_created x then
    if decide (address_created_utxos t !! transfer_location x = None) then
      Some (mkTransparentTransfers (balance t + transfer_delta x) (tx_ids t ⊎ {[+ transfer_tx x +]})
              (<[transfer_location x := transfer_output x]> (address_created_utxos t)) (address_spent_utxos t))
    else None
  else
    if decide (transfer_location x ∉ address_spent_utxos t) then
      Some (mkTransparentTransfers (balance t + transfer_delta x) (tx_ids t ⊎ {[+ transfer_tx x +]})
              (address_created_utxos t) ({[transfer_location x]} ∪ address_spent_utxos t))
    else None.

Definition revert_transfer (t : TransparentTransfers) (x : transfer) : option TransparentTransfers :=
  if decide (transfer_tx x ∈ tx_ids t) then
    if is_created x then
      if decide (is_Some (address_created_utxos t !! transfer_location x)) then
        Some (mkTransparentTransfers (balance t - transfer_delta x) (tx_ids t ∖ {[+ transfer_tx x +]})
                (delete (transfer_location x) (address_created_utxos t)) (address_spent_utxos t))
      else None
    else
      if decide (transfer_location x ∈ address_spent_utxos t) then
        Some (mkTransparentTransfers (balance t - transfer_delta x) (tx_ids t ∖ {[+ transfer_tx x +]})
                (address_created_utxos t) (address_spent_utxos t ∖ {[transfer_location x]}))
      else None
  else None.

Lemma amount_add_Ok C a b r : amount_add C a b = Ok r <-> r = a + b /\ amount_in C (a + b).
Proof.
  unfold amount_add. destruct (checked _ _ _) as [x|] eqn:E.
  - apply checked_Some in E as [-> _]. cbn. apply amount_try_from_Ok.
  - apply checked_None in E. split; [done|]. intros [_ Hin]. exfalso. apply E. amount_lia.
Qed.

Lemma amount_sub_Ok C a b r : amount_sub C a b = Ok r <-> r = a - b /\ amount_in C (a - b).
Proof.
  unfold amount_sub. destruct (checked _ _ _) as [x|] eqn:E.
  - apply checked_Some in E as [-> _]. cbn. apply amount_try_from_Ok.
  - apply checked_None in E. split; [done|]. intros [_ Hin]. exfalso. apply E. amount_lia.
Qed.

Definition created_transfer (loc : TransactionLocation) (op : OutPoint) (u : OrderedUtxo) : transfer :=
  mkTransfer true (from_outpoint loc op) (utxo_output (ordered_utxo u)) (outpoint_hash op).
Definition spent_transfer (loc : TransactionLocation) (op : OutPoint) (tx : bytes) (u : OrderedUtxo) : transfer :=
  mkTransfer false (from_outpoint loc op) (utxo_output (ordered_utxo u)) tx.

Ltac transfer_inv :=
  repeat match goal with
  | H : mbind _ _ = Ok _ |- _ => apply bind_Ok_inv in H as (? & ? & ?)
  | H : expect _ = Ok _ |- _ => apply (proj1 (expect_Ok _ _)) in H
  | H : assert_ _ = Ok _ |- _ => apply (proj1 (assert_Ok _ _)), bool_decide_eq_true in H
  | H : amount_constrain _ _ = Ok _ |- _ => apply (proj1 (amount_try_from_Ok _ _ _)) in H as [-> ?]
  | H : amount_add _ _ _ = Ok _ |- _ => apply (proj1 (amount_add_Ok _ _ _ _)) in H as [-> ?]
  | H : amount_sub _ _ _ = Ok _ |- _ => apply (proj1 (amount_sub_Ok _ _ _ _)) in H as [-> ?]
  end.

Lemma transfers_update_created_apply t op u t' :
  transfers_update_created t op u = Ok t' ->
  exists loc, transaction_location u = Ok loc /\ amount_in NegativeAllowed (utxo_value u) /\
    apply_transfer t (created_transfer loc op u) = Some t'.
Proof.
  unfold transfers_update_created. intros. transfer_inv. inv_res.
  eexists. split; [done|]. split; [done|]. unfold apply_transfer. cbn. by rewrite decide_True.
Qed.

Lemma transfers_update_spent_apply t op tx u t' :
  transfers_update_spent t op tx u = Ok t' ->
  exists loc, transaction_location u = Ok loc /\ amount_in NegativeAllowed (utxo_value u) /\
    apply_transfer t (spent_transfer loc op tx u) = Some t'.
Proof.
  unfold transfers_update_spent. intros. transfer_inv. inv_res.
  eexists. split; [done|]. split; [done|]. unfold apply_transfer. cbn. rewrite decide_True by done. done.
Qed.

Lemma transfers_revert_created_revert t op u loc t' :
  transaction_location u = Ok loc -> amount_in NegativeAllowed (utxo_value u) ->
  revert_transfer t (created_transfer loc op u) = Some t' -> amount_in NegativeAllowed (balance t') ->
  transfers_revert_created t op u = Ok t'.
Proof.
  intros Hl Hv. unfold revert_transfer. cbn.
  do 2 (case_decide; [|done]). intros [= <-]. cbn. intros Hb.
  unfold transfers_revert_created, amount_constrain. rewrite amount_try_from_in by done. cbn [expect mbind res_bind].
  rewrite (proj2 (amount_sub_Ok _ (balance t) (utxo_value u) _) (conj eq_refl Hb)). cbn [expect mbind res_bind].
  rewrite Hl. cbn [mbind res_bind]. rewrite !bool_decide_eq_true_2 by done. done.
Qed.

Lemma transfers_revert_spent_revert t op tx u loc t' :
  transaction_location u = Ok loc -> amount_in NegativeAllowed (utxo_value u) ->
  revert_transfer t (spent_transfer loc op tx u) = Some t' -> amount_in NegativeAllowed (balance t') ->
  transfers_revert_spent t op tx u = Ok t'.
Proof.
  intros Hl Hv. unfold revert_transfer. cbn.
  do 2 (case_decide; [|done]). intros [= <-]. cbn.
  rewrite Z.sub_opp_r. intros Hb.
  unfold transfers_revert_spent, amount_constrain. rewrite amount_try_from_in by done. cbn [expect mbind res_bind].
  rewrite (proj2 (amount_add_Ok _ (balance t) (utxo_value u) _) (conj eq_refl Hb)). cbn [expect mbind res_bind].
  rewrite Hl. cbn [mbind res_bind]. rewrite !bool_decide_eq_true_2 by done. done.
Qed.

Lemma revert_apply_transfer t x t' : apply_transfer t x = Some t' -> revert_transfer t' x = Some t.
Proof.
  destruct t as [b ids c s], x as [[] loc o tx]; unfold apply_transfer, revert_transfer; cbn; case_decide; try done;
    cbn; intros [= <-]; cbn; rewrite decide_True by multiset_solver; cbn.
  - rewrite decide_True by (rewrite lookup_insert_eq; eauto). cbn. f_equal. f_equal; [lia|multiset_solver|].
    by rewrite delete_insert_id.
  - rewrite decide_True by set_solver. cbn. f_equal. f_equal; [lia|multiset_solver|set_solver].
Qed.

Lemma apply_transfer_nonempty t x t' : apply_transfer t x = Some t' -> transfers_is_empty t' = false.
Proof.
  destruct t as [b ids c s], x as [[] loc o tx]; unfold apply_transfer, transfers_is_empty; cbn; case_decide; try done;
    cbn; intros [= <-]; cbn; rewrite (bool_decide_eq_false_2 (_ ⊎ _ = ∅)) by multiset_solver; by rewrite andb_false_r.
Qed.

Lemma apply_transfer_comm t x y t1 t2 :
  apply_transfer t x = Some t1 -> apply_transfer t1 y = Some t2 ->
  exists t1', apply_transfer t y = Some t1' /\ apply_transfer t1' x = Some t2.
Proof.
  destruct t as [b ids c s], x as [[] lx ox tx], y as [[] ly oy ty]; unfold apply_transfer; cbn;
    case_decide as Hx; try done; cbn; intros [= <-]; cbn; case_decide as Hy; try done; cbn; intros [= <-].
  - rewrite lookup_insert_None in Hy. destruct Hy as [Hy Hne].
    rewrite decide_True by done. eexists. split; [done|]. cbn.
    rewrite decide_True by (by rewrite lookup_insert_ne).
    f_equal. f_equal; [lia|multiset_solver|by apply insert_insert_ne].
  - eexists. split; [done|]. cbn. rewrite decide_True by done.
    f_equal. f_equal; [lia|multiset_solver].
  - eexists. split; [done|]. cbn. rewrite decide_True by done.
    f_equal. f_equal; [lia|multiset_solver].
  - rewrite decide_True by set_solver. eexists. split; [done|]. cbn. rewrite decide_True by set_solver.
    f_equal. f_equal; [lia|multiset_solver|set_solver].
Qed.

Lemma transfers_empty_iff t : transfers_is_empty t = true <-> t = default_transfers.
Proof.
  destruct t as [b ids c s]. unfold transfers_is_empty, default_transfers. cbn.
  rewrite !andb_true_iff, !bool_decide_eq_true, Z.eqb_eq. split.
  - intros [[[-> ->] ->] ->]. done.
  - intros [= -> -> -> ->]. done.
Qed.
