(* ===== verification/DiskFormat.v ===== *)
(** The on-disk encodings of heights, locations and balances
    ([zebra-state/src/service/finalized_state/disk_format.rs],
    [disk_format/block.rs] and [disk_format/transparent.rs]).

    RocksDB orders the keys of a column family by their bytes, and the
    database iterates over ranges of keys: the encodings have to keep the
    order of the locations. *)
From S2P Require Import Prelude Height Amount ValueBalance Transaction TransparentIndex.
From stdpp Require Import prelude gmap.
From coqutil Require Import Byte.
From Stdlib Require Import ZArith Lia.
#[local] Open Scope Z_scope.

Definition HEIGHT_DISK_BYTES : nat := 3.
Definition TX_INDEX_DISK_BYTES : nat := 2.
Definition TRANSACTION_LOCATION_DISK_BYTES : nat := HEIGHT_DISK_BYTES + TX_INDEX_DISK_BYTES.
Definition MAX_ON_DISK_HEIGHT : Z := Z.shiftl 1 (Z.of_nat HEIGHT_DISK_BYTES * 8) - 1.
Definition BALANCE_DISK_BYTES : nat := 8.
Definition OUTPUT_INDEX_DISK_BYTES : nat := 3.
Definition MAX_ON_DISK_OUTPUT_INDEX : Z := Z.shiftl 1 (Z.of_nat OUTPUT_INDEX_DISK_BYTES * 8) - 1.
Definition OUTPUT_LOCATION_DISK_BYTES : nat := TRANSACTION_LOCATION_DISK_BYTES + OUTPUT_INDEX_DISK_BYTES.

Definition truncate_zero_be_bytes (mem_bytes : bytes) (disk_len : nat) : outcome (option bytes) :=
  _ ← assert_ (bool_decide (disk_len <= length mem_bytes)%nat);
  let discarded_bytes := (length mem_bytes - disk_len)%nat in
  if bool_decide (discarded_bytes = 0%nat) then Ok (Some mem_bytes)
  else
    let discarded := take discarded_bytes mem_bytes in
    let truncated := drop discarded_bytes mem_bytes in
    if forallb (fun b => byte.unsigned b =? 0) discarded then
      _ ← assert_ (bool_decide (length truncated = disk_len)); Ok (Some truncated)
    else Ok None.

Definition expand_zero_be_bytes (disk_bytes : bytes) (mem_len : nat) : outcome bytes :=
  _ ← assert_ (bool_decide (length disk_bytes <= mem_len)%nat);
  let extra_bytes := (mem_len - length disk_bytes)%nat in
  if bool_decide (extra_bytes = 0%nat) then Ok disk_bytes
  else
    let expanded := zero_bytes extra_bytes ++ disk_bytes in
    _ ← assert_ (bool_decide (length expanded = mem_len)); Ok expanded.

(** [try_into] of a slice to an array of [n] bytes, and [split_at]. *)
Definition to_array (n : nat) (b : bytes) : outcome bytes := _ ← assert_ (bool_decide (length b = n)); Ok b.
Definition split_bytes (n : nat) (b : bytes) : outcome (bytes * bytes) :=
  _ ← assert_ (bool_decide (n <= length b)%nat); Ok (take n b, drop n b).

(** A [u32] stored in three bytes; larger values become the largest one. *)
Definition u32_as_3_bytes (max x : Z) : outcome bytes :=
  disk_bytes ← truncate_zero_be_bytes (be_bytes 4 x) 3;
  match disk_bytes with
  | Some b => to_array 3 b
  | None => max_bytes ← truncate_zero_be_bytes (be_bytes 4 max) 3; b ← unwrap max_bytes; to_array 3 b
  end.
Definition u32_from_be_bytes (disk_bytes : bytes) : outcome Z :=
  mem_bytes ← expand_zero_be_bytes disk_bytes 4; mem_bytes ← to_array 4 mem_bytes; Ok (be_value mem_bytes).

Definition height_as_bytes (height : Z) : outcome bytes := u32_as_3_bytes MAX_ON_DISK_HEIGHT height.
Definition height_from_bytes (disk_bytes : bytes) : outcome Z := u32_from_be_bytes disk_bytes.

Definition transaction_index_as_bytes (index : Z) : bytes := be_bytes 2 index.
Definition transaction_index_from_bytes (disk_bytes : bytes) : outcome Z := b ← to_array 2 disk_bytes; Ok (be_value b).

Definition transaction_location_as_bytes (l : TransactionLocation) : outcome bytes :=
  height_bytes ← height_as_bytes (loc_height l);
  to_array TRANSACTION_LOCATION_DISK_BYTES (height_bytes ++ transaction_index_as_bytes (loc_index l)).
Definition transaction_location_from_bytes (disk_bytes : bytes) : outcome TransactionLocation :=
  '(height_bytes, index_bytes) ← split_bytes HEIGHT_DISK_BYTES disk_bytes;
  height ← height_from_bytes height_bytes;
  index ← transaction_index_from_bytes index_bytes;
  Ok (mkTransactionLocation height index).
Definition option_transaction_location_from_bytes (disk_bytes : bytes) : outcome (option TransactionLocation) :=
  if bool_decide (length disk_bytes = TRANSACTION_LOCATION_DISK_BYTES)
  then Some <$> transaction_location_from_bytes disk_bytes
  else Ok None.

Definition output_index_as_bytes (index : Z) : outcome bytes := u32_as_3_bytes MAX_ON_DISK_OUTPUT_INDEX index.
Definition output_index_from_bytes (disk_bytes : bytes) : outcome Z := u32_from_be_bytes disk_bytes.

Definition output_location_as_bytes (l : OutputLocation) : outcome bytes :=
  transaction_location_bytes ← transaction_location_as_bytes (transaction_loc l);
  output_index_bytes ← output_index_as_bytes (output_index l);
  to_array OUTPUT_LOCATION_DISK_BYTES (transaction_location_bytes ++ output_index_bytes).
Definition output_location_from_bytes (disk_bytes : bytes) : outcome OutputLocation :=
  '(transaction_location_bytes, output_index_bytes) ← split_bytes TRANSACTION_LOCATION_DISK_BYTES disk_bytes;
  transaction_location ← transaction_location_from_bytes transaction_location_bytes;
  output_index ← output_index_from_bytes output_index_bytes;
  Ok (mkOutputLocation transaction_location output_index).

(** ** Balances by address *)

Record AddressBalanceLocationInner := mkAddressBalanceLocationInner {
  abl_balance : Z;
  abl_received : Z;
  abl_location : OutputLocation
}.

Definition abl_new (first_output : OutputLocation) : AddressBalanceLocationInner :=
  mkAddressBalanceLocationInner 0 0 first_output.

(** The derived orders. *)
Definition tx_loc_cmp (a b : TransactionLocation) : comparison :=
  match Z.compare (loc_height a) (loc_height b) with Eq => Z.compare (loc_index a) (loc_index b) | c => c end.
Definition out_loc_cmp (a b : OutputLocation) : comparison :=
  match tx_loc_cmp (transaction_loc a) (transaction_loc b) with
  | Eq => Z.compare (output_index a) (output_index b)
  | c => c
  end.
Definition out_loc_min (a b : OutputLocation) : OutputLocation :=
  match out_loc_cmp a b with Gt => b | _ => a end.

Definition abl_add (C : Constraint) (a b : AddressBalanceLocationInner) : res amount_Error AddressBalanceLocationInner :=
  balance ← amount_add C (abl_balance a) (abl_balance b);
  Ok (mkAddressBalanceLocationInner balance (u64_saturate (abl_received a + abl_received b))
        (out_loc_min (abl_location a) (abl_location b))).

Definition into_new_change (a : AddressBalanceLocationInner) : AddressBalanceLocationInner := abl_new (abl_location a).

Definition receive_output (a : AddressBalanceLocationInner) (o : Output) : res amount_Error AddressBalanceLocationInner :=
  sum ← unwrap (i64_checked (abl_balance a + output_value o));
  balance ← amount_try_from_i64 NegativeAllowed sum;
  Ok (mkAddressBalanceLocationInner balance (u64_saturate (abl_received a + output_value o)) (abl_location a)).
Definition spend_output (a : AddressBalanceLocationInner) (o : Output) : res amount_Error AddressBalanceLocationInner :=
  difference ← unwrap (i64_checked (abl_balance a - output_value o));
  balance ← amount_try_from_i64 NegativeAllowed difference;
  Ok (mkAddressBalanceLocationInner balance (abl_received a) (abl_location a)).

Definition abl_as_bytes (a : AddressBalanceLocationInner) : outcome bytes :=
  address_location_bytes ← output_location_as_bytes (abl_location a);
  to_array (BALANCE_DISK_BYTES + OUTPUT_LOCATION_DISK_BYTES + 8)
    (amount_to_bytes (abl_balance a) ++ address_location_bytes ++ le_bytes 8 (abl_received a)).

(** A value without a [received] field, written by an older version, reads as
    zero received. *)
Definition abl_from_bytes (C : Constraint) (disk_bytes : bytes) : outcome AddressBalanceLocationInner :=
  '(balance_bytes, rest) ← split_bytes BALANCE_DISK_BYTES disk_bytes;
  '(address_location_bytes, rest) ← split_bytes BALANCE_DISK_BYTES rest;
  balance_array ← to_array 8 balance_bytes;
  balance ← expect (amount_from_bytes C balance_array);
  location ← output_location_from_bytes address_location_bytes;
  Ok (mkAddressBalanceLocationInner balance (if (8 <=? length rest)%nat then le_value (take 8 rest) else 0) location).

(** ** Address index keys *)

Record AddressUnspentOutput := mkAddressUnspentOutput { auo_address : OutputLocation; auo_output : OutputLocation }.
Record AddressTransaction := mkAddressTransaction { at_address : OutputLocation; at_transaction : TransactionLocation }.
#[export] Instance AddressUnspentOutput_eq_dec : EqDecision AddressUnspentOutput.
Proof. solve_decision. Defined.
#[export] Instance AddressUnspentOutput_countable : Countable AddressUnspentOutput.
Proof.
  refine (inj_countable' (fun k => (auo_address k, auo_output k)) (fun p => mkAddressUnspentOutput p.1 p.2) _).
  by intros [].
Defined.
#[export] Instance AddressTransaction_eq_dec : EqDecision AddressTransaction.
Proof. solve_decision. Defined.
#[export] Instance AddressTransaction_countable : Countable AddressTransaction.
Proof.
  refine (inj_countable' (fun k => (at_address k, at_transaction k)) (fun p => mkAddressTransaction p.1 p.2) _).
  by intros [].
Defined.

Definition address_unspent_output_as_bytes (k : AddressUnspentOutput) : outcome bytes :=
  address ← output_location_as_bytes (auo_address k);
  output ← output_location_as_bytes (auo_output k);
  to_array (OUTPUT_LOCATION_DISK_BYTES + OUTPUT_LOCATION_DISK_BYTES) (address ++ output).
Definition address_unspent_output_from_bytes (disk_bytes : bytes) : outcome AddressUnspentOutput :=
  '(address_bytes, output_bytes) ← split_bytes OUTPUT_LOCATION_DISK_BYTES disk_bytes;
  address ← output_location_from_bytes address_bytes;
  output ← output_location_from_bytes output_bytes;
  Ok (mkAddressUnspentOutput address output).
Definition address_transaction_as_bytes (k : AddressTransaction) : outcome bytes :=
  address ← output_location_as_bytes (at_address k);
  transaction ← transaction_location_as_bytes (at_transaction k);
  to_array (OUTPUT_LOCATION_DISK_BYTES + TRANSACTION_LOCATION_DISK_BYTES) (address ++ transaction).
Definition address_transaction_from_bytes (disk_bytes : bytes) : outcome AddressTransaction :=
  '(address_bytes, transaction_bytes) ← split_bytes OUTPUT_LOCATION_DISK_BYTES disk_bytes;
  address ← output_location_from_bytes address_bytes;
  transaction ← transaction_location_from_bytes transaction_bytes;
  Ok (mkAddressTransaction address transaction).

(** * Round trips and order *)

Definition disk_tx_loc (l : TransactionLocation) : Prop :=
  0 <= loc_height l <= MAX_ON_DISK_HEIGHT /\ 0 <= loc_index l <= u16_MAX.
Definition disk_out_loc (l : OutputLocation) : Prop :=
  disk_tx_loc (transaction_loc l) /\ 0 <= output_index l <= MAX_ON_DISK_OUTPUT_INDEX.

Lemma to_array_ok n b : length b = n -> to_array n b = Ok b.
Proof. intros. unfold to_array. by rewrite bool_decide_eq_true_2. Qed.
Lemma split_bytes_app n a b : length a = n -> split_bytes n (a ++ b) = Ok (a, b).
Proof.
  intros <-. unfold split_bytes. rewrite bool_decide_eq_true_2 by (rewrite length_app; lia). cbn [assert_ mbind res_bind].
  by rewrite take_app_length, drop_app_length.
Qed.

Lemma be_bytes_4 x : 0 <= x < 2 ^ 24 -> be_bytes 4 x = Byte.x00 :: be_bytes 3 x.
Proof.
  intros Hx. rewrite <- (be_bytes_value (Byte.x00 :: be_bytes 3 x) 4) by (cbn [length]; by rewrite length_be_bytes).
  f_equal. rewrite be_value_cons, be_value_bytes by (cbn; lia). cbn. lia.
Qed.
Lemma be_bytes_4_head x : 2 ^ 24 <= x <= u32_MAX -> exists b, be_bytes 4 x = b :: drop 1 (be_bytes 4 x) /\ byte.unsigned b <> 0.
Proof.
  intros Hx. pose proof (length_be_bytes 4 x) as Hlen. destruct (be_bytes 4 x) as [|b l] eqn:E; [done|].
  exists b. split; [done|]. intros Hb. assert (be_value (be_bytes 4 x) = x) as Hv.
  { apply be_value_bytes. width_lia. }
  rewrite E, be_value_cons, Hb in Hv. injection Hlen as Hlen. pose proof (be_value_bound l) as Hl. rewrite Hlen in Hl.
  change (256 ^ Z.of_nat 3) with (2 ^ 24) in Hl. lia.
Qed.

Lemma truncate_4_3 b l :
  length l = 3%nat -> truncate_zero_be_bytes (b :: l) 3 = Ok (if byte.unsigned b =? 0 then Some l else None).
Proof. destruct l as [|? [|? [|? [|? ?]]]]; try done. intros _. unfold truncate_zero_be_bytes. cbn. by destruct (_ =? _). Qed.
Lemma expand_3_4 l : length l = 3%nat -> expand_zero_be_bytes l 4 = Ok (Byte.x00 :: l).
Proof. by destruct l as [|? [|? [|? [|? ?]]]]. Qed.

Lemma u32_as_3_bytes_small max x : 0 <= x < 2 ^ 24 -> u32_as_3_bytes max x = Ok (be_bytes 3 x).
Proof.
  intros Hx. unfold u32_as_3_bytes. rewrite (be_bytes_4 x), truncate_4_3 by (done || apply length_be_bytes).
  apply to_array_ok, length_be_bytes.
Qed.
Lemma u32_as_3_bytes_large max x :
  2 ^ 24 <= x <= u32_MAX -> 0 <= max < 2 ^ 24 -> u32_as_3_bytes max x = Ok (be_bytes 3 max).
Proof.
  intros Hx Hmax. unfold u32_as_3_bytes. destruct (be_bytes_4_head x Hx) as (b & Hb & Hnz).
  rewrite Hb, truncate_4_3 by (by rewrite length_drop, length_be_bytes). rewrite (proj2 (Z.eqb_neq _ _) Hnz).
  cbn [mbind res_bind]. rewrite (be_bytes_4 max), truncate_4_3 by (done || apply length_be_bytes).
  apply to_array_ok, length_be_bytes.
Qed.
Lemma u32_from_3_bytes x : 0 <= x < 2 ^ 24 -> u32_from_be_bytes (be_bytes 3 x) = Ok x.
Proof.
  intros Hx. unfold u32_from_be_bytes. rewrite expand_3_4 by apply length_be_bytes. cbn [mbind res_bind].
  rewrite <- be_bytes_4, to_array_ok by (done || apply length_be_bytes). cbn [mbind res_bind].
  rewrite be_value_bytes by (cbn; lia). done.
Qed.

(** The bytes of a stored location. *)
Definition tx_loc_bytes (l : TransactionLocation) : bytes := be_bytes 3 (loc_height l) ++ be_bytes 2 (loc_index l).
Definition out_loc_bytes (l : OutputLocation) : bytes := tx_loc_bytes (transaction_loc l) ++ be_bytes 3 (output_index l).

Lemma length_tx_loc_bytes l : length (tx_loc_bytes l) = 5%nat.
Proof. unfold tx_loc_bytes. by rewrite length_app, !length_be_bytes. Qed.
Lemma length_out_loc_bytes l : length (out_loc_bytes l) = 8%nat.
Proof. unfold out_loc_bytes. by rewrite length_app, length_tx_loc_bytes, length_be_bytes. Qed.

Lemma tx_loc_as_bytes l : disk_tx_loc l -> transaction_location_as_bytes l = Ok (tx_loc_bytes l).
Proof.
  intros [Hh _]. unfold transaction_location_as_bytes, height_as_bytes.
  rewrite u32_as_3_bytes_small by (change (2 ^ 24) with (MAX_ON_DISK_HEIGHT + 1); lia). apply to_array_ok, length_tx_loc_bytes.
Qed.
Lemma tx_loc_from_bytes l : disk_tx_loc l -> transaction_location_from_bytes (tx_loc_bytes l) = Ok l.
Proof.
  intros [Hh Hi]. unfold transaction_location_from_bytes, tx_loc_bytes, height_from_bytes.
  rewrite split_bytes_app by apply length_be_bytes. cbn [mbind res_bind].
  rewrite u32_from_3_bytes by (change (2 ^ 24) with (MAX_ON_DISK_HEIGHT + 1); lia). cbn [mbind res_bind].
  unfold transaction_index_from_bytes. rewrite to_array_ok by apply length_be_bytes. cbn [mbind res_bind].
  rewrite be_value_bytes by width_lia. by destruct l.
Qed.
Lemma out_loc_as_bytes l : disk_out_loc l -> output_location_as_bytes l = Ok (out_loc_bytes l).
Proof.
  intros [Ht Ho]. unfold output_location_as_bytes, output_index_as_bytes. rewrite tx_loc_as_bytes by done. cbn [mbind res_bind].
  rewrite u32_as_3_bytes_small by (change (2 ^ 24) with (MAX_ON_DISK_OUTPUT_INDEX + 1); lia).
  apply to_array_ok, length_out_loc_bytes.
Qed.
Lemma out_loc_from_bytes l : disk_out_loc l -> output_location_from_bytes (out_loc_bytes l) = Ok l.
Proof.
  intros [Ht Ho]. unfold output_location_from_bytes, out_loc_bytes, output_index_from_bytes.
  rewrite split_bytes_app by apply length_tx_loc_bytes. cbn [mbind res_bind]. rewrite tx_loc_from_bytes by done.
  cbn [mbind res_bind]. rewrite u32_from_3_bytes by (change (2 ^ 24) with (MAX_ON_DISK_OUTPUT_INDEX + 1); lia).
  by destruct l.
Qed.

Lemma be_bytes_compare n x y :
  0 <= x < 2 ^ (Z.of_nat n * 8) -> 0 <= y < 2 ^ (Z.of_nat n * 8) ->
  bytes_compare (be_bytes n x) (be_bytes n y) = Z.compare x y.
Proof. intros. rewrite bytes_compare_be_value by (by rewrite !length_be_bytes). by rewrite !be_value_bytes. Qed.
Lemma tx_loc_bytes_compare a b :
  disk_tx_loc a -> disk_tx_loc b -> bytes_compare (tx_loc_bytes a) (tx_loc_bytes b) = tx_loc_cmp a b.
Proof.
  intros [Ha Hai] [Hb Hbi]. unfold tx_loc_bytes, tx_loc_cmp. rewrite bytes_compare_app by (by rewrite !length_be_bytes).
  change MAX_ON_DISK_HEIGHT with (2 ^ 24 - 1) in *. rewrite !be_bytes_compare by (cbn; width_lia). done.
Qed.
Lemma out_loc_bytes_compare a b :
  disk_out_loc a -> disk_out_loc b -> bytes_compare (out_loc_bytes a) (out_loc_bytes b) = out_loc_cmp a b.
Proof.
  intros [Ha Hai] [Hb Hbi]. unfold out_loc_bytes, out_loc_cmp. rewrite bytes_compare_app by (by rewrite !length_tx_loc_bytes).
  change MAX_ON_DISK_OUTPUT_INDEX with (2 ^ 24 - 1) in *. rewrite tx_loc_bytes_compare, be_bytes_compare by (done || (cbn; lia)).
  done.
Qed.

Definition pair_cmp (c1 c2 : comparison) : comparison := match c1 with Eq => c2 | c => c end.

(** Stored locations and address index keys read back as they were written,
    and the byte order of their keys, which RocksDB iterates in, is the order
    of the locations: first by height, then by transaction, then by output,
    and for address keys first by address. A height that does not fit in three
    bytes is written as the largest one that does. *)
Theorem disk_keys_ordered (a b c d : OutputLocation) :
  disk_out_loc a -> disk_out_loc b -> disk_out_loc c -> disk_out_loc d ->
  (exists ka kb, output_location_as_bytes a = Ok ka /\ output_location_as_bytes b = Ok kb
     /\ output_location_from_bytes ka = Ok a /\ bytes_compare ka kb = out_loc_cmp a b)
  /\ (exists k1 k2, address_unspent_output_as_bytes (mkAddressUnspentOutput a c) = Ok k1
     /\ address_unspent_output_as_bytes (mkAddressUnspentOutput b d) = Ok k2
     /\ address_unspent_output_from_bytes k1 = Ok (mkAddressUnspentOutput a c)
     /\ bytes_compare k1 k2 = pair_cmp (out_loc_cmp a b) (out_loc_cmp c d))
  /\ (exists k1 k2, address_transaction_as_bytes (mkAddressTransaction a (transaction_loc c)) = Ok k1
     /\ address_transaction_as_bytes (mkAddressTransaction b (transaction_loc d)) = Ok k2
     /\ address_transaction_from_bytes k1 = Ok (mkAddressTransaction a (transaction_loc c))
     /\ bytes_compare k1 k2 = pair_cmp (out_loc_cmp a b) (tx_loc_cmp (transaction_loc c) (transaction_loc d)))
  /\ (forall h, MAX_ON_DISK_HEIGHT <= h <= u32_MAX -> height_as_bytes h = Ok (be_bytes 3 MAX_ON_DISK_HEIGHT)).
Proof.
  intros Ha Hb Hc Hd. split_and!.
  - exists (out_loc_bytes a), (out_loc_bytes b). rewrite !out_loc_as_bytes by done.
    split_and!; [done..|by apply out_loc_from_bytes|by apply out_loc_bytes_compare].
  - exists (out_loc_bytes a ++ out_loc_bytes c), (out_loc_bytes b ++ out_loc_bytes d).
    unfold address_unspent_output_as_bytes, address_unspent_output_from_bytes. cbn [auo_address auo_output].
    rewrite !out_loc_as_bytes by done. cbn [mbind res_bind].
    rewrite !to_array_ok by (rewrite length_app, !length_out_loc_bytes; done).
    rewrite split_bytes_app, bytes_compare_app by (rewrite !length_out_loc_bytes; done). cbn [mbind res_bind].
    rewrite (out_loc_from_bytes a) by done. cbn [mbind res_bind]. rewrite (out_loc_from_bytes c) by done.
    rewrite (out_loc_bytes_compare a b Ha Hb), (out_loc_bytes_compare c d Hc Hd). by destruct (out_loc_cmp a b).
  - exists (out_loc_bytes a ++ tx_loc_bytes (transaction_loc c)), (out_loc_bytes b ++ tx_loc_bytes (transaction_loc d)).
    unfold address_transaction_as_bytes, address_transaction_from_bytes. cbn [at_address at_transaction].
    destruct Hc as [Hc _], Hd as [Hd _]. rewrite !out_loc_as_bytes, !tx_loc_as_bytes by done. cbn [mbind res_bind].
    rewrite !to_array_ok by (rewrite length_app, length_out_loc_bytes, length_tx_loc_bytes; done).
    rewrite split_bytes_app, bytes_compare_app by (rewrite !length_out_loc_bytes; done). cbn [mbind res_bind].
    rewrite (out_loc_from_bytes a) by done. cbn [mbind res_bind]. rewrite tx_loc_from_bytes by done.
    rewrite (out_loc_bytes_compare a b Ha Hb), (tx_loc_bytes_compare _ _ Hc Hd). by destruct (out_loc_cmp a b).
  - intros h Hh. unfold height_as_bytes. change MAX_ON_DISK_HEIGHT with (2 ^ 24 - 1) in *.
    destruct (decide (h = 2 ^ 24 - 1)) as [->|]; [by apply u32_as_3_bytes_small|]. apply u32_as_3_bytes_large; lia.
Qed.

Definition example_location (h t o : Z) : OutputLocation := mkOutputLocation (mkTransactionLocation h t) o.
Lemma disk_keys_ordered_witness :
  exists ka kb, output_location_as_bytes (example_location 255 1 0) = Ok ka
    /\ output_location_as_bytes (example_location 256 0 0) = Ok kb /\ bytes_compare ka kb = Lt.
Proof.
  destruct (disk_keys_ordered (example_location 255 1 0) (example_location 256 0 0) (example_location 0 0 0)
              (example_location 0 0 0)) as [(ka & kb & Ha & Hb & _ & Hc) _].
  1-4: repeat split; vm_compute; discriminate.
  exists ka, kb. split; [exact Ha|]. split; [exact Hb|]. rewrite Hc. reflexivity.
Defined.

(** A balance read back; [disk_out_loc] holds for every stored location. *)
Lemma abl_roundtrip C a :
  amount_in C (abl_balance a) -> 0 <= abl_received a <= u64_MAX -> disk_out_loc (abl_location a) ->
  exists b, abl_as_bytes a = Ok b /\ abl_from_bytes C b = Ok a /\ abl_from_bytes C (take 16 b) =
    Ok (mkAddressBalanceLocationInner (abl_balance a) 0 (abl_location a)).
Proof.
  intros Hb Hr Hl. unfold abl_as_bytes. rewrite out_loc_as_bytes by done. cbn [mbind res_bind].
  eexists. rewrite to_array_ok; cycle 1.
  { rewrite !length_app, length_le_bytes, length_out_loc_bytes, length_amount_to_bytes. done. }
  split; [done|]. assert (forall rest, abl_from_bytes C (amount_to_bytes (abl_balance a) ++ out_loc_bytes (abl_location a) ++ rest)
    = Ok (mkAddressBalanceLocationInner (abl_balance a)
            (if (8 <=? length rest)%nat then le_value (take 8 rest) else 0) (abl_location a))) as Hread.
  { intros rest. unfold abl_from_bytes. rewrite split_bytes_app by apply length_amount_to_bytes. cbn [mbind res_bind].
    rewrite split_bytes_app by apply length_out_loc_bytes. cbn [mbind res_bind].
    rewrite to_array_ok by apply length_amount_to_bytes. cbn [mbind res_bind].
    rewrite amount_bytes_roundtrip by done. cbn [expect mbind res_bind].
    by rewrite out_loc_from_bytes. }
  split.
  - rewrite Hread, length_le_bytes. cbn [Nat.leb]. rewrite (take_ge _ 8) by (by rewrite length_le_bytes).
    rewrite le_value_bytes by width_lia. by destruct a.
  - rewrite app_assoc, take_app_length' by (rewrite length_app, length_amount_to_bytes, length_out_loc_bytes; done).
    rewrite <- (app_nil_r (out_loc_bytes _)) at 1. by rewrite Hread.
Qed.
