(* ===== verification/ChainIndexes.v ===== *)
(** The per-transaction indexes of a non-finalized chain: transaction
    locations, created and spent outputs, nullifiers and address transfers
    ([zebra-state/src/service/non_finalized_state/chain.rs], the [UpdateWith]
    implementations for outputs, inputs and shielded data, and
    [service/check/nullifier.rs]).

    The receiving address of an output is decoded by a third-party crate; it
    is a parameter. The model is of the default build, without the [indexer]
    feature: spends are recorded without the spending transaction. *)
From S2P Require Import Prelude Amount Transaction ValueBalance NetworkUpgrade BlockCommitment TransparentIndex.
From stdpp Require Import prelude strings gmap gmultiset.
From Stdlib Require Import ZArith Lia.
#[local] Open Scope Z_scope.

Inductive Pool : Type := SproutPool | SaplingPool | OrchardPool.
#[export] Instance Pool_eq_dec : EqDecision Pool.
Proof. solve_decision. Defined.

(** [ValidateContextError]. The errors of the note commitment trees (which
    carry their pool) and of the history tree come from components that are
    parameters of the model: they are strings. *)
Inductive ValidateContextError : Type :=
| BlockPreviouslyInvalidated (block_hash : bytes)
| NotReadyToBeCommitted
| OrphanedBlock (candidate_height finalized_tip_height : Z)
| NonSequentialBlock (candidate_height parent_height : Z)
| TimeTooEarly (candidate_time median_time_past : Z)
| TimeTooLate (candidate_time block_time_max : Z)
| InvalidDifficultyThreshold (difficulty_threshold expected_difficulty : Z)
| DuplicateTransparentSpend (outpoint : OutPoint) (location : string)
| MissingTransparentOutput (outpoint : OutPoint) (location : string)
| EarlyTransparentSpend (outpoint : OutPoint)
| UnshieldedTransparentCoinbaseSpend (outpoint : OutPoint)
| ImmatureTransparentCoinbaseSpend (outpoint : OutPoint) (spend_height min_spend_height created_height : Z)
| DuplicateSproutNullifier (nullifier : bytes) (in_finalized_state : bool)
| DuplicateSaplingNullifier (nullifier : bytes) (in_finalized_state : bool)
| DuplicateOrchardNullifier (nullifier : bytes) (in_finalized_state : bool)
| NegativeRemainingTransactionValue (amount_error : amount_Error) (height tx_index_in_block : Z)
    (transaction_hash : bytes)
| CalculateRemainingTransactionValue (amount_error : amount_Error) (height tx_index_in_block : Z)
    (transaction_hash : bytes)
| CalculateTransactionValueBalances (value_balance_error : ValueBalanceError)
    (height tx_index_in_block : Z) (transaction_hash : bytes)
| CalculateBlockChainValueChange (value_balance_error : ValueBalanceError) (height : Z)
    (block_hash : bytes) (transaction_count spent_utxo_count : Z)
| AddValuePool (value_balance_error : ValueBalanceError) (chain_value_pools : ValueBalance)
    (block_value_pool_change : ValueBalance) (height : option Z)
| NoteCommitmentTreeError (pool : Pool) (error : string)
| HistoryTreeError (error : string)
| InvalidBlockCommitment (error : CommitmentError)
| UnknownSproutAnchor (anchor : bytes) (height tx_index_in_block : option Z) (transaction_hash : bytes)
| UnknownSaplingAnchor (anchor : bytes) (height tx_index_in_block : option Z) (transaction_hash : bytes)
| UnknownOrchardAnchor (anchor : bytes) (height tx_index_in_block : option Z) (transaction_hash : bytes)
| DuplicateCommitRequest (block_hash : bytes)
| AlreadyFinalized (block_height : Z)
| ReplacedByNewerRequest (block_hash : bytes)
| PrunedBelowFinalizedTip (block_height : Z)
| DroppedCommitRequest (block_hash : bytes)
| CommitTaskExited
| DroppedUnusedBlock.

(** [DuplicateNullifierError::duplicate_nullifier_error]. *)
Definition duplicate_nullifier_error (pool : Pool) (nullifier : bytes) (in_finalized_state : bool)
    : ValidateContextError :=
  match pool with
  | SproutPool => DuplicateSproutNullifier nullifier in_finalized_state
  | SaplingPool => DuplicateSaplingNullifier nullifier in_finalized_state
  | OrchardPool => DuplicateOrchardNullifier nullifier in_finalized_state
  end.

Record TxIndexes := mkTxIndexes {
  tx_loc_by_hash : gmap bytes TransactionLocation;
  created_utxos : gmap OutPoint OrderedUtxo;
  spent_utxos : gmap OutPoint unit;
  sprout_nullifier_map : gmap bytes unit;
  sapling_nullifier_map : gmap bytes unit;
  orchard_nullifier_map : gmap bytes unit;
  partial_transparent_transfers : gmap bytes TransparentTransfers
}.

Definition empty_indexes : TxIndexes := mkTxIndexes ∅ ∅ ∅ ∅ ∅ ∅ ∅.

Definition with_tx_loc (s : TxIndexes) m :=
  mkTxIndexes m (created_utxos s) (spent_utxos s) (sprout_nullifier_map s) (sapling_nullifier_map s)
    (orchard_nullifier_map s) (partial_transparent_transfers s).
Definition with_created (s : TxIndexes) m :=
  mkTxIndexes (tx_loc_by_hash s) m (spent_utxos s) (sprout_nullifier_map s) (sapling_nullifier_map s)
    (orchard_nullifier_map s) (partial_transparent_transfers s).
Definition with_spent (s : TxIndexes) m :=
  mkTxIndexes (tx_loc_by_hash s) (created_utxos s) m (sprout_nullifier_map s) (sapling_nullifier_map s)
    (orchard_nullifier_map s) (partial_transparent_transfers s).
Definition with_transfers (s : TxIndexes) m :=
  mkTxIndexes (tx_loc_by_hash s) (created_utxos s) (spent_utxos s) (sprout_nullifier_map s)
    (sapling_nullifier_map s) (orchard_nullifier_map s) m.

Definition nullifier_map (pool : Pool) (s : TxIndexes) : gmap bytes unit :=
  match pool with
  | SproutPool => sprout_nullifier_map s
  | SaplingPool => sapling_nullifier_map s
  | OrchardPool => orchard_nullifier_map s
  end.
Definition with_nullifiers (pool : Pool) (s : TxIndexes) m : TxIndexes :=
  match pool with
  | SproutPool => mkTxIndexes (tx_loc_by_hash s) (created_utxos s) (spent_utxos s) m
      (sapling_nullifier_map s) (orchard_nullifier_map s) (partial_transparent_transfers s)
  | SaplingPool => mkTxIndexes (tx_loc_by_hash s) (created_utxos s) (spent_utxos s)
      (sprout_nullifier_map s) m (orchard_nullifier_map s) (partial_transparent_transfers s)
  | OrchardPool => mkTxIndexes (tx_loc_by_hash s) (created_utxos s) (spent_utxos s)
      (sprout_nullifier_map s) (sapling_nullifier_map s) m (partial_transparent_transfers s)
  end.

(** ** Nullifiers *)

Definition add_to_non_finalized_chain_unique (pool : Pool) (s : TxIndexes) (nullifiers : list bytes)
    : res ValidateContextError TxIndexes :=
  foldM (fun s nullifier =>
           let previous := nullifier_map pool s !! nullifier in
           let s := with_nullifiers pool s (<[nullifier := tt]> (nullifier_map pool s)) in
           match previous with
           | Some _ => Err (duplicate_nullifier_error pool nullifier false)
           | None => Ok s
           end) s nullifiers.

Definition remove_from_non_finalized_chain (pool : Pool) (s : TxIndexes) (nullifiers : list bytes)
    : outcome TxIndexes :=
  foldM (fun s nullifier =>
           _ ← assert_ (bool_decide (is_Some (nullifier_map pool s !! nullifier)));
           Ok (with_nullifiers pool s (delete nullifier (nullifier_map pool s)))) s nullifiers.

(** ** Address transfers *)

Definition transfers_of (s : TxIndexes) (address : bytes) : TransparentTransfers :=
  default default_transfers (partial_transparent_transfers s !! address).

(** [entry(address).or_default()] and the update of the entry. *)
Definition update_address (s : TxIndexes) (address : bytes)
    (f : TransparentTransfers -> outcome TransparentTransfers) : outcome TxIndexes :=
  t ← f (transfers_of s address);
  Ok (with_transfers s (<[address := t]> (partial_transparent_transfers s))).

(** [get_mut(&address).expect(..)], the revert of the entry, and its removal
    when it is empty. *)
Definition revert_address (s : TxIndexes) (address : bytes)
    (f : TransparentTransfers -> outcome TransparentTransfers) : outcome TxIndexes :=
  t ← unwrap (partial_transparent_transfers s !! address);
  t ← f t;
  Ok (with_transfers s
        (if transfers_is_empty t then delete address (partial_transparent_transfers s)
         else <[address := t]> (partial_transparent_transfers s))).

Section Updates.
Context (output_address : Network -> Output -> option bytes) (network : Network).

Definition utxo_address (u : OrderedUtxo) : option bytes :=
  output_address network (utxo_output (ordered_utxo u)).

(** ** Created outputs *)

Definition update_outputs (s : TxIndexes) (created_outputs : list Output) (creating_tx_hash : bytes)
    (block_created_outputs : gmap OutPoint OrderedUtxo) : outcome TxIndexes :=
  foldM (fun s output_index =>
           index ← unwrap (u32_checked (Z.of_nat output_index));
           let outpoint := mkOutPoint creating_tx_hash index in
           created_utxo ← unwrap (block_created_outputs !! outpoint);
           _ ← assert_ (bool_decide (created_utxos s !! outpoint = None));
           let s := with_created s (<[outpoint := created_utxo]> (created_utxos s)) in
           match utxo_address created_utxo with
           | Some receiving_address =>
               update_address s receiving_address (fun t => transfers_update_created t outpoint created_utxo)
           | None => Ok s
           end) s (seq 0 (length created_outputs)).

Definition revert_outputs (s : TxIndexes) (created_outputs : list Output) (creating_tx_hash : bytes)
    (block_created_outputs : gmap OutPoint OrderedUtxo) : outcome TxIndexes :=
  foldM (fun s output_index =>
           index ← unwrap (u32_checked (Z.of_nat output_index));
           let outpoint := mkOutPoint creating_tx_hash index in
           created_utxo ← unwrap (block_created_outputs !! outpoint);
           _ ← assert_ (bool_decide (is_Some (created_utxos s !! outpoint)));
           let s := with_created s (delete outpoint (created_utxos s)) in
           match utxo_address created_utxo with
           | Some receiving_address =>
               revert_address s receiving_address (fun t => transfers_revert_created t outpoint created_utxo)
           | None => Ok s
           end) s (seq 0 (length created_outputs)).

(** ** Spent outputs *)

Definition update_inputs (s : TxIndexes) (spending_inputs : list Input) (spending_tx_hash : bytes)
    (spent_outputs : gmap OutPoint OrderedUtxo) : outcome TxIndexes :=
  foldM (fun s spending_input =>
           match input_outpoint spending_input with
           | None => Ok s
           | Some spent_outpoint =>
               _ ← assert_ (bool_decide (spent_utxos s !! spent_outpoint = None));
               let s := with_spent s (<[spent_outpoint := tt]> (spent_utxos s)) in
               spent_output ← unwrap (spent_outputs !! spent_outpoint);
               match utxo_address spent_output with
               | Some spending_address =>
                   update_address s spending_address
                     (fun t => transfers_update_spent t spent_outpoint spending_tx_hash spent_output)
               | None => Ok s
               end
           end) s spending_inputs.

Definition revert_inputs (s : TxIndexes) (spending_inputs : list Input) (spending_tx_hash : bytes)
    (spent_outputs : gmap OutPoint OrderedUtxo) : outcome TxIndexes :=
  foldM (fun s spending_input =>
           match input_outpoint spending_input with
           | None => Ok s
           | Some spent_outpoint =>
               _ ← assert_ (bool_decide (is_Some (spent_utxos s !! spent_outpoint)));
               let s := with_spent s (delete spent_outpoint (spent_utxos s)) in
               spent_output ← unwrap (spent_outputs !! spent_outpoint);
               match utxo_address spent_output with
               | Some receiving_address =>
                   revert_address s receiving_address
                     (fun t => transfers_revert_spent t spent_outpoint spending_tx_hash spent_output)
               | None => Ok s
               end
           end) s spending_inputs.

(** ** Whole transactions *)

(** The destructuring of a transaction: versions 1 to 3 are unreachable in a
    non-finalized chain. *)
Definition transaction_parts (tx : Transaction)
    : outcome (list Input * list Output * option JoinSplitData * option PerSpendAnchorData
               * option SharedAnchorData * option OrchardShieldedData) :=
  match tx with
  | V4 inputs outputs _ _ joinsplit_data sapling_shielded_data =>
      Ok (inputs, outputs, joinsplit_data, sapling_shielded_data, None, None)
  | V5 _ _ _ inputs outputs sapling_shielded_data orchard_shielded_data
  | VCrosslink _ _ _ inputs outputs sapling_shielded_data orchard_shielded_data _ =>
      Ok (inputs, outputs, None, None, sapling_shielded_data, orchard_shielded_data)
  | V1 _ _ _ | V2 _ _ _ _ | V3 _ _ _ _ _ => Panic
  end.

Definition opt_nullifiers {D} (f : D -> list bytes) (d : option D) : list bytes :=
  match d with Some d => f d | None => [] end.

Definition update_transaction (height : Z) (new_outputs spent_outputs : gmap OutPoint OrderedUtxo)
    (s : TxIndexes) (entry : Z * (Transaction * bytes)) : res ValidateContextError TxIndexes :=
  let '(transaction_index, (transaction, transaction_hash)) := entry in
  '(inputs, outputs, joinsplit_data, sapling_per_spend, sapling_shared, orchard_data) ←
    lift (transaction_parts transaction);
  transaction_location ← lift (TransactionLocation_from_usize height transaction_index);
  _ ← assert_ (bool_decide (tx_loc_by_hash s !! transaction_hash = None));
  let s := with_tx_loc s (<[transaction_hash := transaction_location]> (tx_loc_by_hash s)) in
  s ← lift (update_outputs s outputs transaction_hash new_outputs);
  s ← lift (update_inputs s inputs transaction_hash spent_outputs);
  s ← add_to_non_finalized_chain_unique SproutPool s (opt_nullifiers data_nullifiers joinsplit_data);
  s ← add_to_non_finalized_chain_unique SaplingPool s (opt_nullifiers data_sapling_nullifiers sapling_per_spend);
  s ← add_to_non_finalized_chain_unique SaplingPool s (opt_nullifiers data_sapling_nullifiers sapling_shared);
  add_to_non_finalized_chain_unique OrchardPool s (opt_nullifiers data_orchard_nullifiers orchard_data).

Definition revert_transaction (new_outputs spent_outputs : gmap OutPoint OrderedUtxo)
    (s : TxIndexes) (entry : Transaction * bytes) : outcome TxIndexes :=
  let '(transaction, transaction_hash) := entry in
  '(inputs, outputs, joinsplit_data, sapling_per_spend, sapling_shared, orchard_data) ←
    transaction_parts transaction;
  s ← revert_outputs s outputs transaction_hash new_outputs;
  s ← revert_inputs s inputs transaction_hash spent_outputs;
  _ ← assert_ (bool_decide (is_Some (tx_loc_by_hash s !! transaction_hash)));
  let s := with_tx_loc s (delete transaction_hash (tx_loc_by_hash s)) in
  s ← remove_from_non_finalized_chain SproutPool s (opt_nullifiers data_nullifiers joinsplit_data);
  s ← remove_from_non_finalized_chain SaplingPool s (opt_nullifiers data_sapling_nullifiers sapling_per_spend);
  s ← remove_from_non_finalized_chain SaplingPool s (opt_nullifiers data_sapling_nullifiers sapling_shared);
  remove_from_non_finalized_chain OrchardPool s (opt_nullifiers data_orchard_nullifiers orchard_data).

(** The loops of [update_chain_tip_with_block_except_trees] and
    [revert_chain_with] over the transactions of a block. *)
Definition update_transactions (height : Z) (new_outputs spent_outputs : gmap OutPoint OrderedUtxo)
    (s : TxIndexes) (block : Block) (transaction_hashes : list bytes) : res ValidateContextError TxIndexes :=
  foldM (update_transaction height new_outputs spent_outputs) s (enumerated_transactions block transaction_hashes).

Definition revert_transactions (new_outputs spent_outputs : gmap OutPoint OrderedUtxo)
    (s : TxIndexes) (block : Block) (transaction_hashes : list bytes) : outcome TxIndexes :=
  foldM (revert_transaction new_outputs spent_outputs) s (zip (transactions block) transaction_hashes).
End Updates.

(** * Reverting a block's transactions

    Reverting does not run the update backwards: it visits the transactions in
    the same order, and outputs before inputs again. Both are sequences of
    elementary operations that commute, so each undoes the other. *)

Inductive index_op : Type :=
| OpLocation (tx_hash : bytes) (loc : TransactionLocation)
| OpCreate (outpoint : OutPoint) (utxo : OrderedUtxo)
| OpSpend (outpoint : OutPoint)
| OpNullifier (pool : Pool) (nullifier : bytes)
| OpTransfer (address : bytes) (x : transfer).

Definition insert_new {K V} `{Countable K} (k : K) (v : V) (m : gmap K V) : option (gmap K V) :=
  if decide (m !! k = None) then Some (<[k := v]> m) else None.
Definition remove_present {K V} `{Countable K} (k : K) (m : gmap K V) : option (gmap K V) :=
  if decide (is_Some (m !! k)) then Some (delete k m) else None.

Definition apply_op (s : TxIndexes) (op : index_op) : option TxIndexes :=
  match op with
  | OpLocation h loc => with_tx_loc s <$> insert_new h loc (tx_loc_by_hash s)
  | OpCreate o u => with_created s <$> insert_new o u (created_utxos s)
  | OpSpend o => with_spent s <$> insert_new o tt (spent_utxos s)
  | OpNullifier pool nf => with_nullifiers pool s <$> insert_new nf tt (nullifier_map pool s)
  | OpTransfer a x =>
      (fun t => with_transfers s (<[a := t]> (partial_transparent_transfers s))) <$>
        apply_transfer (transfers_of s a) x
  end.

Definition revert_op (s : TxIndexes) (op : index_op) : option TxIndexes :=
  match op with
  | OpLocation h _ => with_tx_loc s <$> remove_present h (tx_loc_by_hash s)
  | OpCreate o _ => with_created s <$> remove_present o (created_utxos s)
  | OpSpend o => with_spent s <$> remove_present o (spent_utxos s)
  | OpNullifier pool nf => with_nullifiers pool s <$> remove_present nf (nullifier_map pool s)
  | OpTransfer a x =>
      t ← partial_transparent_transfers s !! a;
      t ← revert_transfer t x;
      Some (with_transfers s
              (if transfers_is_empty t then delete a (partial_transparent_transfers s)
               else <[a := t]> (partial_transparent_transfers s)))
  end.

(** No address has an empty entry. *)
Definition no_empty_transfers (s : TxIndexes) : Prop :=
  map_Forall (fun _ t => transfers_is_empty t = false) (partial_transparent_transfers s).

Section MapOps.
Context {K V : Type} `{Countable K}.
Implicit Types (k : K) (v : V) (m : gmap K V).

Lemma insert_new_Some k v m m' : insert_new k v m = Some m' <-> m !! k = None /\ m' = <[k := v]> m.
Proof. unfold insert_new. case_decide; split; naive_solver. Qed.

Lemma remove_insert_new k v m m' : insert_new k v m = Some m' -> remove_present k m' = Some m.
Proof.
  intros [Hn ->]%insert_new_Some. unfold remove_present.
  rewrite decide_True by (rewrite lookup_insert_eq; eauto). by rewrite delete_insert_id.
Qed.

Lemma insert_new_comm k1 v1 k2 v2 m m1 m2 :
  insert_new k1 v1 m = Some m1 -> insert_new k2 v2 m1 = Some m2 ->
  exists m1', insert_new k2 v2 m = Some m1' /\ insert_new k1 v1 m1' = Some m2.
Proof.
  intros [H1 ->]%insert_new_Some [H2 ->]%insert_new_Some. apply lookup_insert_None in H2 as [H2 Hne].
  exists (<[k2 := v2]> m). rewrite !insert_new_Some. rewrite lookup_insert_ne by done.
  split; [done|]. split; [done|]. by apply insert_insert_ne.
Qed.
End MapOps.

Lemma apply_op_no_empty s op s' : no_empty_transfers s -> apply_op s op = Some s' -> no_empty_transfers s'.
Proof.
  intros Hg. unfold no_empty_transfers in *.
  destruct op as [| | |[]|a x]; cbn; intros (m & Hm & ->)%fmap_Some; cbn; try done.
  apply map_Forall_insert_2; [by eapply apply_transfer_nonempty|done].
Qed.

Lemma revert_apply_op s op s' : no_empty_transfers s -> apply_op s op = Some s' -> revert_op s' op = Some s.
Proof.
  intros Hg. destruct s as [l c sp n1 n2 n3 tr].
  destruct op as [| | |[]|a x]; cbn; intros (m & Hm & ->)%fmap_Some; cbn;
    try (by rewrite (remove_insert_new _ _ _ _ Hm)).
  rewrite lookup_insert_eq. cbn. rewrite (revert_apply_transfer _ _ _ Hm). cbn.
  unfold transfers_of in *. cbn in *. destruct (tr !! a) as [t|] eqn:Ea; cbn in *.
  - rewrite (Hg a t Ea). unfold with_transfers. cbn. rewrite insert_insert_eq, insert_id by done. done.
  - rewrite (proj2 (transfers_empty_iff _) eq_refl). unfold with_transfers. cbn.
    rewrite delete_insert_id by done. done.
Qed.

Lemma apply_op_comm s a b s1 s2 :
  apply_op s a = Some s1 -> apply_op s1 b = Some s2 ->
  exists s1', apply_op s b = Some s1' /\ apply_op s1' a = Some s2.
Proof.
  destruct s as [l c sp n1 n2 n3 tr]. unfold apply_op, transfers_of.
  destruct a as [| | |[]|a x], b as [| | |[]|b y]; cbn;
    intros (m1 & H1 & ->)%fmap_Some (m2 & H2 & ->)%fmap_Some; cbn in *;
    try (rewrite H2; eexists; split; [reflexivity|]; cbn; rewrite H1; reflexivity);
    try (destruct (insert_new_comm _ _ _ _ _ _ _ H1 H2) as (m' & -> & Hm'); eexists; split; [reflexivity|];
         cbn; rewrite Hm'; reflexivity).
  destruct (decide (a = b)) as [->|Hne].
  - rewrite lookup_insert_eq in H2. cbn in H2.
    destruct (apply_transfer_comm _ _ _ _ _ H1 H2) as (t' & -> & Ht'). eexists. split; [reflexivity|]. cbn.
    rewrite lookup_insert_eq. cbn. rewrite Ht'. cbn. unfold with_transfers. cbn. rewrite !insert_insert_eq. done.
  - rewrite lookup_insert_ne in H2 by done. rewrite H2. eexists. split; [reflexivity|]. cbn.
    rewrite lookup_insert_ne by done. rewrite H1. cbn. unfold with_transfers. cbn.
    by rewrite insert_insert_ne.
Qed.

(** ** Balances *)

Definition address_balance (s : TxIndexes) (a : bytes) : Z := balance (transfers_of s a).
Definition op_delta (a : bytes) (op : index_op) : Z :=
  match op with OpTransfer b x => if decide (a = b) then transfer_delta x else 0 | _ => 0 end.

Lemma apply_transfer_balance t x t' : apply_transfer t x = Some t' -> balance t' = balance t + transfer_delta x.
Proof. unfold apply_transfer. destruct (is_created x); case_decide; intros [= <-]; done. Qed.

Lemma apply_op_balance s op s' a :
  apply_op s op = Some s' -> address_balance s' a = address_balance s a + op_delta a op.
Proof.
  unfold address_balance, transfers_of.
  destruct op as [| | |[]|b x]; cbn; intros (m & Hm & ->)%fmap_Some; cbn; try lia.
  destruct (decide (a = b)) as [->|Hne].
  - rewrite lookup_insert_eq. cbn. by apply apply_transfer_balance.
  - rewrite lookup_insert_ne by done. lia.
Qed.

Lemma apply_ops_balance s ops s' a :
  foldO apply_op s ops = Some s' -> address_balance s' a = address_balance s a + sum_Z (op_delta a) ops.
Proof.
  revert s. induction ops as [|op ops IH]; cbn; intros s; [intros [= ->]; lia|].
  destruct (apply_op s op) as [s1|] eqn:E; [|done]. intros ->%IH.
  rewrite (apply_op_balance _ _ _ a E). lia.
Qed.

Lemma sum_delta_abs a ops : Z.abs (sum_Z (op_delta a) ops) <= sum_Z (fun op => Z.abs (op_delta a op)) ops.
Proof. induction ops; cbn; lia. Qed.

(** The reverts of a list of operations keep every balance in range. *)
Fixpoint reverts_in_range (s : TxIndexes) (ops : list index_op) : Prop :=
  match ops with
  | [] => True
  | op :: ops' => forall s', revert_op s op = Some s' ->
      (forall a, amount_in NegativeAllowed (address_balance s' a)) /\ reverts_in_range s' ops'
  end.

Lemma reverts_in_range_app s p q :
  reverts_in_range s (p ++ q) <->
  reverts_in_range s p /\ (forall s', foldO revert_op s p = Some s' -> reverts_in_range s' q).
Proof.
  revert s. induction p as [|op p IH]; cbn; intros s.
  { split; [|intros [_ H]; auto]. intros H. split; [done|]. by intros s' [= ->]. }
  split.
  - intros H. split; [|destruct (revert_op s op) as [s1|]; [|done]; apply IH, H; done].
    intros s' Hs'. destruct (H s' Hs') as [? Hq]. split; [done|]. apply IH in Hq. tauto.
  - intros [Hp Hq] s' Hs'. destruct (Hp s' Hs') as [? Hp']. split; [done|]. apply IH. split; [done|].
    rewrite Hs' in Hq. done.
Qed.

(** ** Loops as lists of operations *)

Section Loops.
Context {E X : Type} (f : TxIndexes -> X -> res E TxIndexes) (ops : X -> list index_op) (P : X -> Prop).

Lemma foldM_apply_ops s l s' :
  (forall s x s', f s x = Ok s' -> P x /\ foldO apply_op s (ops x) = Some s') ->
  foldM f s l = Ok s' -> Forall P l /\ foldO apply_op s (mbind ops l) = Some s'.
Proof.
  intros Hf. revert s. induction l as [|x l IH]; cbn [foldM mbind list_bind]; intros s.
  { intros H. inv_res. done. }
  intros (s1 & H1 & H2)%bind_Ok_inv. destruct (Hf _ _ _ H1) as [HP Hx]. destruct (IH _ H2) as [HF Hl].
  split; [by constructor|]. rewrite foldO_app, Hx. done.
Qed.

Lemma foldM_revert_ops s l s' :
  (forall s x s', P x -> reverts_in_range s (ops x) -> foldO revert_op s (ops x) = Some s' -> f s x = Ok s') ->
  Forall P l -> reverts_in_range s (mbind ops l) -> foldO revert_op s (mbind ops l) = Some s' ->
  foldM f s l = Ok s'.
Proof.
  intros Hf HP. revert s. induction HP as [|x l Hx HP IH]; cbn [foldM mbind list_bind]; intros s.
  { intros _ [= ->]. done. }
  intros [Hr1 Hr2]%reverts_in_range_app. rewrite foldO_app.
  destruct (foldO revert_op s (ops x)) as [s1|] eqn:E1; [|done]. intros H2.
  rewrite (Hf s x s1 Hx Hr1 E1). cbn [mbind res_bind]. apply IH; [by apply Hr2|done].
Qed.
End Loops.

Definition utxo_loc (u : OrderedUtxo) : TransactionLocation :=
  mkTransactionLocation (utxo_height (ordered_utxo u)) (tx_index_in_block u).

Lemma transaction_location_eq u loc : transaction_location u = Ok loc -> loc = utxo_loc u.
Proof.
  unfold transaction_location, TransactionLocation_from_usize. intros (i & Hi & H)%bind_Ok_inv.
  apply unwrap_Ok, checked_Some in Hi as [-> _]. by inv_res.
Qed.

(** What an update shows of a UTXO that has an address. *)
Definition utxo_indexed (u : OrderedUtxo) : Prop :=
  transaction_location u = Ok (utxo_loc u) /\ amount_in NegativeAllowed (utxo_value u).

Definition nullifier_ops (pool : Pool) (nfs : list bytes) : list index_op := OpNullifier pool <$> nfs.

Lemma add_nullifiers_apply pool s nfs s' :
  add_to_non_finalized_chain_unique pool s nfs = Ok s' -> foldO apply_op s (nullifier_ops pool nfs) = Some s'.
Proof.
  unfold add_to_non_finalized_chain_unique, nullifier_ops.
  revert s. induction nfs as [|nf nfs IH]; cbn [foldM fmap list_fmap foldO]; intros s.
  { intros H. by inv_res. }
  cbn [apply_op]. unfold insert_new. intros (s1 & H1 & H2)%bind_Ok_inv.
  destruct (nullifier_map pool s !! nf) eqn:En; [done|]. rewrite decide_True by done. cbn. inv_res. by apply IH.
Qed.

Lemma remove_nullifiers_revert pool s nfs s' :
  foldO revert_op s (nullifier_ops pool nfs) = Some s' -> remove_from_non_finalized_chain pool s nfs = Ok s'.
Proof.
  unfold remove_from_non_finalized_chain, nullifier_ops.
  revert s. induction nfs as [|nf nfs IH]; cbn [foldM fmap list_fmap foldO]; intros s.
  { intros [= ->]. done. }
  cbn [revert_op]. unfold remove_present. case_decide; [|done]. cbn. rewrite bool_decide_eq_true_2 by done. cbn.
  apply IH.
Qed.

Lemma remove_nullifiers_app pool s nfs ops s' k :
  (forall s1, foldO revert_op s1 ops = Some s' -> k s1 = Ok s') ->
  foldO revert_op s (nullifier_ops pool nfs ++ ops) = Some s' ->
  mbind k (remove_from_non_finalized_chain pool s nfs) = Ok s'.
Proof.
  intros Hk. rewrite foldO_app. destruct (foldO revert_op s _) as [s1|] eqn:E; [|done].
  intros H. rewrite (remove_nullifiers_revert _ _ _ _ E). cbn. auto.
Qed.

Section Correspondence.
Context (output_address : Network -> Output -> option bytes) (network : Network).
Abbreviation address_of := (utxo_address output_address network).

Definition created_ops (op : OutPoint) (u : OrderedUtxo) : list index_op :=
  OpCreate op u ::
  match address_of u with
  | Some a => [OpTransfer a (created_transfer (utxo_loc u) op u)]
  | None => []
  end.
Definition spent_ops (op : OutPoint) (tx_hash : bytes) (u : OrderedUtxo) : list index_op :=
  OpSpend op ::
  match address_of u with
  | Some a => [OpTransfer a (spent_transfer (utxo_loc u) op tx_hash u)]
  | None => []
  end.

Definition output_ops (new_outputs : gmap OutPoint OrderedUtxo) (tx_hash : bytes) (j : nat) : list index_op :=
  let op := mkOutPoint tx_hash (Z.of_nat j) in
  match new_outputs !! op with Some u => created_ops op u | None => [] end.
Definition input_ops (spent_outputs : gmap OutPoint OrderedUtxo) (tx_hash : bytes) (i : Input) : list index_op :=
  match input_outpoint i with
  | Some op => match spent_outputs !! op with Some u => spent_ops op tx_hash u | None => [] end
  | None => []
  end.

Definition output_ok (new_outputs : gmap OutPoint OrderedUtxo) (tx_hash : bytes) (j : nat) : Prop :=
  0 <= Z.of_nat j <= u32_MAX /\
  exists u, new_outputs !! mkOutPoint tx_hash (Z.of_nat j) = Some u /\ (is_Some (address_of u) -> utxo_indexed u).
Definition input_ok (spent_outputs : gmap OutPoint OrderedUtxo) (i : Input) : Prop :=
  forall op, input_outpoint i = Some op ->
  exists u, spent_outputs !! op = Some u /\ (is_Some (address_of u) -> utxo_indexed u).

Lemma update_address_apply s a f x s' :
  (forall t t', f t = Ok t' -> apply_transfer t x = Some t') ->
  update_address s a f = Ok s' -> apply_op s (OpTransfer a x) = Some s'.
Proof.
  intros Hf (t & Ht & H)%bind_Ok_inv. cbn. rewrite (Hf _ _ Ht). cbn. by inv_res.
Qed.

Lemma revert_address_revert s a f x s' :
  (forall t t', revert_transfer t x = Some t' -> amount_in NegativeAllowed (balance t') -> f t = Ok t') ->
  amount_in NegativeAllowed (address_balance s' a) -> revert_op s (OpTransfer a x) = Some s' ->
  revert_address s a f = Ok s'.
Proof.
  intros Hf Hb Hs'. unfold revert_address.
  cbn in Hs'. destruct (partial_transparent_transfers s !! a) as [t|]; [|done]. cbn [unwrap mbind res_bind] in *.
  cbn in Hs'. destruct (revert_transfer t x) as [t'|] eqn:Et; [|done]. cbn in Hs'.
  rewrite (Hf t t' Et); [cbn; congruence|]. revert Hb. injection Hs' as <-.
  unfold address_balance, transfers_of. cbn. destruct (transfers_is_empty t') eqn:Ee.
  - apply transfers_empty_iff in Ee as ->. by rewrite lookup_delete_eq.
  - by rewrite lookup_insert_eq.
Qed.

Lemma update_outputs_apply s outs tx_hash new s' :
  update_outputs output_address network s outs tx_hash new = Ok s' ->
  Forall (output_ok new tx_hash) (seq 0 (length outs)) /\
  foldO apply_op s (mbind (output_ops new tx_hash) (seq 0 (length outs))) = Some s'.
Proof.
  apply foldM_apply_ops. clear s s'. intros s j s'.
  intros (i & Hi & H)%bind_Ok_inv. apply unwrap_Ok, checked_Some in Hi as [-> Hi].
  apply bind_Ok_inv in H as (u & Hu & H). apply unwrap_Ok in Hu.
  apply bind_Ok_inv in H as (? & Ha & H). apply (proj1 (assert_Ok _ _)), bool_decide_eq_true in Ha.
  unfold output_ok, output_ops. rewrite Hu. unfold created_ops. cbn [foldO apply_op].
  rewrite (proj2 (insert_new_Some _ u _ _) (conj Ha eq_refl)). cbn [fmap option_fmap option_map].
  destruct (address_of u) as [a|] eqn:Ea.
  - apply bind_Ok_inv in H as (t & Ht & H).
    destruct (transfers_update_created_apply _ _ _ _ Ht) as (loc & Hl & Hv & Ht').
    pose proof (transaction_location_eq _ _ Hl); subst loc.
    split; [split; [done|]; exists u; split; [done|]; intros _; by split|].
    cbn [foldO apply_op]. rewrite Ht'. cbn. by inv_res.
  - split; [split; [done|]; exists u; split; [done|]; rewrite Ea; by intros [? ?]|]. cbn in *. by inv_res.
Qed.

Lemma revert_outputs_revert s outs tx_hash new s' :
  Forall (output_ok new tx_hash) (seq 0 (length outs)) ->
  let ops := mbind (output_ops new tx_hash) (seq 0 (length outs)) in
  reverts_in_range s ops -> foldO revert_op s ops = Some s' ->
  revert_outputs output_address network s outs tx_hash new = Ok s'.
Proof.
  intros HP. apply (foldM_revert_ops _ _ (output_ok new tx_hash)); [|done]. clear s s' HP. intros s j s'.
  intros [Hj (u & Hu & Hx)] Hr Hs'. rewrite checked_in by done. cbn [unwrap mbind res_bind].
  unfold output_ops in *. rewrite Hu in *. cbn [unwrap mbind res_bind]. unfold created_ops in *.
  cbn [foldO] in Hs'. destruct (revert_op s (OpCreate _ u)) as [s1|] eqn:E1; [|done].
  destruct (Hr s1 E1) as [_ Hr']. cbn in E1. unfold remove_present in E1. case_decide; [|done].
  cbn in E1. injection E1 as <-. rewrite bool_decide_eq_true_2 by done. cbn [assert_ mbind res_bind].
  destruct (address_of u) as [a|] eqn:Ea; [|cbn in Hs'; congruence].
  cbn [foldO] in Hs'. destruct (revert_op _ (OpTransfer a _)) as [s2|] eqn:E2; [|done]. injection Hs' as ->.
  eapply revert_address_revert; [|exact (proj1 (Hr' _ eq_refl) a)|exact E2].
  intros t t' Ht Hb. destruct Hx as [Hl Hv]; [eauto|]. by eapply transfers_revert_created_revert.
Qed.

Lemma update_inputs_apply s ins tx_hash spent s' :
  update_inputs output_address network s ins tx_hash spent = Ok s' ->
  Forall (input_ok spent) ins /\ foldO apply_op s (mbind (input_ops spent tx_hash) ins) = Some s'.
Proof.
  apply foldM_apply_ops. clear s s'. intros s i s'. unfold input_ok, input_ops.
  destruct (input_outpoint i) as [op|]; [|intros H; inv_res; done].
  intros (? & Ha & H)%bind_Ok_inv. apply (proj1 (assert_Ok _ _)), bool_decide_eq_true in Ha.
  apply bind_Ok_inv in H as (u & Hu & H). apply unwrap_Ok in Hu. rewrite Hu.
  unfold spent_ops. cbn [foldO apply_op].
  rewrite (proj2 (insert_new_Some _ tt _ _) (conj Ha eq_refl)). cbn [fmap option_fmap option_map].
  destruct (address_of u) as [a|] eqn:Ea.
  - apply bind_Ok_inv in H as (t & Ht & H).
    destruct (transfers_update_spent_apply _ _ _ _ _ Ht) as (loc & Hl & Hv & Ht').
    pose proof (transaction_location_eq _ _ Hl); subst loc.
    split; [intros ? [= <-]; exists u; split; [done|]; intros _; by split|].
    cbn [foldO apply_op]. rewrite Ht'. cbn. by inv_res.
  - split; [intros ? [= <-]; exists u; split; [done|]; rewrite Ea; by intros [? ?]|]. cbn in *. by inv_res.
Qed.

Lemma revert_inputs_revert s ins tx_hash spent s' :
  Forall (input_ok spent) ins ->
  let ops := mbind (input_ops spent tx_hash) ins in
  reverts_in_range s ops -> foldO revert_op s ops = Some s' ->
  revert_inputs output_address network s ins tx_hash spent = Ok s'.
Proof.
  intros HP. apply (foldM_revert_ops _ _ (input_ok spent)); [|done]. clear s s' HP. intros s i s'.
  unfold input_ok, input_ops. intros Hok Hr Hs'.
  destruct (input_outpoint i) as [op|]; [|cbn in Hs'; congruence].
  destruct (Hok op eq_refl) as (u & Hu & Hx). rewrite Hu in *. unfold spent_ops in *.
  cbn [foldO] in Hs'. destruct (revert_op s (OpSpend op)) as [s1|] eqn:E1; [|done].
  destruct (Hr s1 E1) as [_ Hr']. cbn in E1. unfold remove_present in E1. case_decide; [|done].
  cbn in E1. injection E1 as <-. rewrite bool_decide_eq_true_2 by done. cbn [assert_ unwrap mbind res_bind].
  destruct (address_of u) as [a|] eqn:Ea; [|cbn in Hs'; congruence].
  cbn [foldO] in Hs'. destruct (revert_op _ (OpTransfer a _)) as [s2|] eqn:E2; [|done]. injection Hs' as ->.
  eapply revert_address_revert; [|exact (proj1 (Hr' _ eq_refl) a)|exact E2].
  intros t t' Ht Hb. destruct Hx as [Hl Hv]; [eauto|]. by eapply transfers_revert_spent_revert.
Qed.

(** ** Transactions and blocks as lists of operations *)

Definition shielded_ops (tx : Transaction) : list index_op :=
  match transaction_parts tx with
  | Ok (_, _, js, sp, sh, od) =>
      nullifier_ops SproutPool (opt_nullifiers data_nullifiers js)
      ++ nullifier_ops SaplingPool (opt_nullifiers data_sapling_nullifiers sp)
      ++ nullifier_ops SaplingPool (opt_nullifiers data_sapling_nullifiers sh)
      ++ nullifier_ops OrchardPool (opt_nullifiers data_orchard_nullifiers od)
  | _ => []
  end.

Definition transparent_ops (new spent : gmap OutPoint OrderedUtxo) (p : Transaction * bytes) : list index_op :=
  mbind (output_ops new p.2) (seq 0 (length (outputs p.1))) ++ mbind (input_ops spent p.2) (inputs p.1).

Definition location_op (height : Z) (e : Z * (Transaction * bytes)) : index_op :=
  OpLocation e.2.2 (mkTransactionLocation height e.1).

(** The order of an update, and the order of a revert. *)
Definition update_ops (height : Z) (new spent : gmap OutPoint OrderedUtxo) (e : Z * (Transaction * bytes))
    : list index_op :=
  location_op height e :: transparent_ops new spent e.2 ++ shielded_ops e.2.1.
Definition revert_ops (height : Z) (new spent : gmap OutPoint OrderedUtxo) (e : Z * (Transaction * bytes))
    : list index_op :=
  transparent_ops new spent e.2 ++ location_op height e :: shielded_ops e.2.1.

Definition transaction_ok (new spent : gmap OutPoint OrderedUtxo) (p : Transaction * bytes) : Prop :=
  Forall (output_ok new p.2) (seq 0 (length (outputs p.1))) /\ Forall (input_ok spent) (inputs p.1)
  /\ transaction_parts p.1 <> Panic.

Lemma transaction_parts_inv tx r :
  transaction_parts tx = Ok r -> exists js sp sh od, r = (inputs tx, outputs tx, js, sp, sh, od).
Proof. destruct tx; cbn; intros H; try done; inv_res; eauto. Qed.

Lemma update_transaction_apply height new spent s e s' :
  update_transaction output_address network height new spent s e = Ok s' ->
  transaction_ok new spent e.2 /\ foldO apply_op s (update_ops height new spent e) = Some s'.
Proof.
  destruct e as [i [tx h]]. unfold update_transaction, update_ops, transaction_ok, shielded_ops, transparent_ops.
  cbn [fst snd]. intros (r & Hr & H)%bind_Ok_inv. apply (proj1 (lift_Ok _ _)) in Hr.
  destruct (transaction_parts_inv _ _ Hr) as (js & sp & sh & od & ->). rewrite Hr.
  apply bind_Ok_inv in H as (loc & Hl & H). apply (proj1 (lift_Ok _ _)) in Hl.
  apply bind_Ok_inv in Hl as (i' & Hi & Hl). apply unwrap_Ok, checked_Some in Hi as [-> _]. inv_res.
  apply bind_Ok_inv in H as (? & Ha & H). apply (proj1 (assert_Ok _ _)), bool_decide_eq_true in Ha.
  apply bind_Ok_inv in H as (s1 & H1 & H). apply (proj1 (lift_Ok _ _)), update_outputs_apply in H1 as [Ho H1].
  apply bind_Ok_inv in H as (s2 & H2 & H). apply (proj1 (lift_Ok _ _)), update_inputs_apply in H2 as [Hi H2].
  apply bind_Ok_inv in H as (s3 & H3%add_nullifiers_apply & H).
  apply bind_Ok_inv in H as (s4 & H4%add_nullifiers_apply & H).
  apply bind_Ok_inv in H as (s5 & H5%add_nullifiers_apply & H6%add_nullifiers_apply).
  split; [done|]. cbn [foldO apply_op location_op fst snd].
  rewrite (proj2 (insert_new_Some _ _ _ _) (conj Ha eq_refl)). cbn [fmap option_fmap option_map].
  rewrite <- app_assoc.
  rewrite foldO_app, H1, foldO_app, H2, foldO_app, H3, foldO_app, H4, foldO_app, H5. done.
Qed.

Lemma revert_transaction_revert height new spent s e s' :
  transaction_ok new spent e.2 -> reverts_in_range s (revert_ops height new spent e) ->
  foldO revert_op s (revert_ops height new spent e) = Some s' ->
  revert_transaction output_address network new spent s e.2 = Ok s'.
Proof.
  destruct e as [i [tx h]]. unfold revert_transaction, revert_ops, transaction_ok, shielded_ops, transparent_ops.
  cbn [fst snd]. intros (Ho & Hi & Hp). destruct (transaction_parts tx) as [r|[]|] eqn:Hr; [|done].
  destruct (transaction_parts_inv _ _ Hr) as (js & sp & sh & od & ->). cbn [mbind res_bind].
  rewrite <- app_assoc. intros [Hr1 Hr2]%reverts_in_range_app. rewrite foldO_app.
  destruct (foldO revert_op s _) as [s1|] eqn:E1; [|done].
  rewrite (revert_outputs_revert _ _ _ _ s1 Ho Hr1 E1). cbn [mbind res_bind].
  specialize (Hr2 s1 eq_refl). apply reverts_in_range_app in Hr2 as [Hr2 _]. rewrite foldO_app.
  destruct (foldO revert_op s1 _) as [s2|] eqn:E2; [|done].
  rewrite (revert_inputs_revert _ _ _ _ s2 Hi Hr2 E2). cbn [mbind res_bind].
  cbn [foldO revert_op location_op fst snd]. unfold remove_present. case_decide; [|done].
  rewrite bool_decide_eq_true_2 by done. cbn [fmap option_fmap option_map assert_ mbind res_bind].
  do 3 (apply remove_nullifiers_app; clear; intros s). apply remove_nullifiers_revert.
Qed.

Definition block_ops (height : Z) (new spent : gmap OutPoint OrderedUtxo) (block : Block) (hashes : list bytes)
    : list index_op :=
  mbind (update_ops height new spent) (enumerated_transactions block hashes).

(** The value a block moves to and from an address. *)
Definition transfer_volume (height : Z) (new spent : gmap OutPoint OrderedUtxo) (block : Block)
    (hashes : list bytes) (a : bytes) : Z :=
  sum_Z (fun op => Z.abs (op_delta a op)) (block_ops height new spent block hashes).

Lemma revert_ops_perm height new spent e : update_ops height new spent e ≡ₚ revert_ops height new spent e.
Proof. unfold update_ops, revert_ops. by rewrite Permutation_middle. Qed.

Lemma mbind_perm {A B} (f g : A -> list B) (l : list A) :
  (forall a, f a ≡ₚ g a) -> mbind f l ≡ₚ mbind g l.
Proof. intros Hfg. induction l as [|a l IH]; cbn; [done|]. by rewrite (Hfg a), IH. Qed.

Lemma foldM_fmap {E S A B} (f : S -> B -> res E S) (g : A -> B) s (l : list A) :
  foldM f s (g <$> l) = foldM (fun s a => f s (g a)) s l.
Proof. revert s. induction l as [|a l IH]; intros s; cbn; [done|]. destruct (f s (g a)); cbn; auto. Qed.

Lemma enumerated_zip block hashes : zip (transactions block) hashes = snd <$> enumerated_transactions block hashes.
Proof.
  unfold enumerated_transactions. rewrite fmap_imap. symmetry.
  rewrite <- (list_fmap_id (zip (transactions block) hashes)) at 2. apply (imap_const id).
Qed.

Lemma reverts_in_range_intro s (q : list index_op) :
  (forall p r, q = p ++ r -> forall t, foldO revert_op s p = Some t ->
     forall a, amount_in NegativeAllowed (address_balance t a)) ->
  reverts_in_range s q.
Proof.
  revert s. induction q as [|op q IH]; intros s H; [done|]. intros s1 Hs1. split.
  - apply (H [op] q eq_refl). cbn. by rewrite Hs1.
  - apply IH. intros p r -> t Ht. apply (H (op :: p) r eq_refl). cbn. by rewrite Hs1.
Qed.

(** A block is an update by its operations. *)
Definition block_transactions_ok (new spent : gmap OutPoint OrderedUtxo) (block : Block) (hashes : list bytes) : Prop :=
  Forall (fun e => transaction_ok new spent e.2) (enumerated_transactions block hashes).

Lemma update_transactions_apply height new spent s block hashes s' :
  update_transactions output_address network height new spent s block hashes = Ok s' ->
  block_transactions_ok new spent block hashes /\ foldO apply_op s (block_ops height new spent block hashes) = Some s'.
Proof.
  intros Hup. apply (foldM_apply_ops _ (update_ops height new spent) (fun e => transaction_ok new spent e.2)) in Hup;
    [done|intros ? ? ?; apply update_transaction_apply].
Qed.

(** Reverting the transactions of a block leaves the indexes that the other
    operations lead to, wherever the block's operations are among them. *)
Lemma revert_transactions_prefix height new spent s block hashes ops rest s' :
  no_empty_transfers s -> block_transactions_ok new spent block hashes ->
  ops ≡ₚ block_ops height new spent block hashes ++ rest ->
  (forall a, Z.abs (address_balance s a) + sum_Z (fun op => Z.abs (op_delta a op)) ops <= MAX_MONEY) ->
  foldO apply_op s ops = Some s' ->
  exists t, revert_transactions output_address network new spent s' block hashes = Ok t
    /\ foldO apply_op s rest = Some t.
Proof.
  intros Hg Hok Hops Hvol Hap. unfold revert_transactions. rewrite enumerated_zip, foldM_fmap.
  unfold block_transactions_ok, block_ops in *. set (l := enumerated_transactions block hashes) in *.
  rewrite (mbind_perm _ _ l (revert_ops_perm height new spent)) in Hops.
  assert (forall p r, mbind (revert_ops height new spent) l = p ++ r ->
            exists t, foldO revert_op s' p = Some t /\ foldO apply_op s (r ++ rest) = Some t) as Hpre.
  { intros p r Hpr. rewrite Hpr, <- app_assoc in Hops.
    eapply (foldO_undo_prefix apply_op revert_op no_empty_transfers apply_op_no_empty revert_apply_op);
      [intros ? ? ? ? ? _; apply apply_op_comm|exact Hg|exact Hops|exact Hap]. }
  destruct (Hpre _ [] (eq_sym (app_nil_r _))) as (t0 & Hun & Hrest). exists t0. split; [|exact Hrest].
  refine (foldM_revert_ops _ _ (fun e => transaction_ok new spent e.2) _ _ _ _ Hok _ Hun).
  { intros ? ? ?. apply revert_transaction_revert. }
  apply reverts_in_range_intro. intros p r Hpr t Ht a.
  destruct (Hpre p r Hpr) as (t' & Ht' & Hr). rewrite Ht in Ht'. injection Ht' as <-.
  rewrite (apply_ops_balance _ _ _ a Hr).
  pose proof (sum_delta_abs a (r ++ rest)) as Hab. specialize (Hvol a).
  rewrite Hops, Hpr, <- app_assoc, sum_Z_app in Hvol.
  assert (0 <= sum_Z (fun op => Z.abs (op_delta a op)) p) by (apply sum_Z_nonneg, Forall_forall; intros; lia).
  amount_lia.
Qed.

(** Reverting the transactions of a block right after its update gives the
    indexes back. *)
Lemma revert_update_transactions height new spent s block hashes s' :
  no_empty_transfers s ->
  (forall a, Z.abs (address_balance s a) + transfer_volume height new spent block hashes a <= MAX_MONEY) ->
  update_transactions output_address network height new spent s block hashes = Ok s' ->
  revert_transactions output_address network new spent s' block hashes = Ok s /\ no_empty_transfers s'.
Proof.
  intros Hg Hvol [Hok Hap]%update_transactions_apply. split.
  - destruct (revert_transactions_prefix height new spent s block hashes
                (block_ops height new spent block hashes) [] s' Hg Hok) as (t & Hr & [= ->]); [|done..].
    by rewrite app_nil_r.
  - eapply (foldO_good apply_op no_empty_transfers); [apply apply_op_no_empty|exact Hg|exact Hap].
Qed.

(** A block changes the balance of an address by what it moves. *)
Lemma update_transactions_balance height new spent s block hashes s' a :
  update_transactions output_address network height new spent s block hashes = Ok s' ->
  address_balance s' a = address_balance s a + sum_Z (op_delta a) (block_ops height new spent block hashes).
Proof. intros [_ Hap]%update_transactions_apply. by apply apply_ops_balance. Qed.
End Correspondence.
