(* ===== verification/Chain.v ===== *)
(** A non-finalized chain
    ([zebra-state/src/service/non_finalized_state/chain.rs]): its blocks and
    indexes, note commitment and history trees, pushing a block, popping the
    tip or the root, and forking.

    Note commitment trees and the history tree are behind interfaces: the
    chain only appends note commitments, asks for roots and completed
    subtrees, and pushes blocks. Trees are compared as the code compares them,
    by their roots. *)
From S2P Require Import Prelude BTreeMap Height Amount ValueBalance Difficulty NetworkUpgrade BlockHeader Transaction TransparentIndex ChainIndexes.
From coqutil Require Import Byte.
From stdpp Require Import strings gmap gmultiset prelude.
From Stdlib Require Import ZArith Lia.
#[local] Open Scope Z_scope.

(** ** What the chain uses of the trees *)

Class NoteTree (T : Type) := {
  tree_root : T -> bytes;
  tree_append : T -> bytes -> res string T
}.
Class SubtreeTree (T : Type) `{NoteTree T} := { completed_subtree_index_and_root : T -> option (Z * bytes) }.
(** Equality of trees is equality of roots. *)
Class NoteTreeLaws (T : Type) `{NoteTree T} := {
  tree_root_inj : forall t1 t2 : T, tree_root t1 = tree_root t2 -> t1 = t2
}.
Class HistoryTreeOps (H : Type) := {
  history_push : H -> Network -> Block -> bytes -> bytes -> res string H
}.
(** The address encoded in an output's script and the encoded size of a block. *)
Class ChainContext := {
  output_address : Network -> Output -> option bytes;
  block_serialized_size : Block -> Z
}.

Record ContextuallyVerifiedBlock := mkContextuallyVerifiedBlock {
  cv_block : Block;
  cv_hash : bytes;
  cv_height : Z;
  cv_new_outputs : gmap OutPoint OrderedUtxo;
  cv_spent_outputs : gmap OutPoint OrderedUtxo;
  cv_transaction_hashes : list bytes;
  cv_chain_value_pool_change : ValueBalance
}.

Inductive RevertPosition : Type := Root | Tip.

Definition is_none {A} (o : option A) : bool := match o with None => true | Some _ => false end.

(** ** Trees and anchors of one pool *)

Record TreeIndex (T : Type) := mkTreeIndex {
  trees_by_height : btree T;
  anchors : gmultiset bytes;
  anchors_by_height : btree bytes
}.
Arguments mkTreeIndex {_} _ _ _.
Arguments trees_by_height {_} _.
Arguments anchors {_} _.
Arguments anchors_by_height {_} _.

Definition empty_tree_index {T} : TreeIndex T := mkTreeIndex [] ∅ [].

Section TreeIndex.
Context {T : Type} `{NoteTree T} `{BuildProfile}.
Implicit Types (ix : TreeIndex T).

(** [range(..=height).next_back()]. *)
Definition tree_at ix (height : Z) : option T :=
  snd <$> last (filter (fun e => e.1 <= height) (trees_by_height ix)).
Definition tree_for_tip ix : outcome T := unwrap (snd <$> last (trees_by_height ix)).

(** Whether a tree is stored: not when it is the tree of the previous height. *)
Definition tree_changed ix (height : Z) (tree : T) : outcome bool :=
  if height_is_min height then Ok true
  else
    prev ← expect (height_previous height);
    Ok match tree_at ix prev with
       | None => true
       | Some prev_tree => negb (bool_decide (tree_root prev_tree = tree_root tree))
       end.

Definition insert_once {V} (height : Z) (v : V) (m : btree V) : outcome (btree V) :=
  _ ← assert_ (is_none (bt_get height m)); Ok (bt_insert height v m).

Definition add_tree_and_anchor ix (height : Z) (tree : T) : outcome (TreeIndex T) :=
  let anchor := tree_root tree in
  store ← tree_changed ix height tree;
  trees ← (if (store : bool) then insert_once height tree (trees_by_height ix) else Ok (trees_by_height ix));
  anchors_by_height ← insert_once height anchor (anchors_by_height ix);
  Ok (mkTreeIndex trees (anchors ix ⊎ {[+ anchor +]}) anchors_by_height).

(** One iteration of the removal loop: the removed anchor and the new maps. *)
Definition remove_anchor ix (height : Z) : outcome (bytes * TreeIndex T) :=
  anchor ← unwrap (bt_get height (anchors_by_height ix));
  let anchors_by_height := bt_remove height (anchors_by_height ix) in
  let trees_by_height := bt_remove height (trees_by_height ix) in
  _ ← assert_ (bool_decide (anchor ∈ anchors ix));
  Ok (anchor, mkTreeIndex trees_by_height (anchors ix ∖ {[+ anchor +]}) anchors_by_height).

Definition removed_heights ix (position : RevertPosition) (height : Z) : list Z :=
  match position with
  | Root => filter (fun h => h <= height) (anchors_by_height ix).*1
  | Tip => [height]
  end.
Definition highest_removed_tree ix (position : RevertPosition) (height : Z) : option T :=
  match position with Root => tree_at ix height | Tip => None end.

(** The tree of the removed heights moves up to the next height. *)
Definition move_tree_up ix (highest : option T) (height : Z) (tip : option Z) : outcome (TreeIndex T) :=
  match tip with
  | Some tip_height =>
      if height <? tip_height then
        next_height ← expect (height_next height);
        match bt_get next_height (trees_by_height ix) with
        | Some _ => Ok ix
        | None =>
            tree ← unwrap highest;
            Ok (mkTreeIndex (bt_insert next_height tree (trees_by_height ix)) (anchors ix) (anchors_by_height ix))
        end
      else Ok ix
  | None => Ok ix
  end.

(** [tip] is the tip height of the chain when it has blocks left. *)
Definition remove_tree_and_anchor ix (position : RevertPosition) (height : Z) (tip : option Z)
    : outcome (TreeIndex T) :=
  ix' ← foldM (fun ix h => snd <$> remove_anchor ix h) ix (removed_heights ix position height);
  move_tree_up ix' (highest_removed_tree ix position height) height tip.

(** The sprout pool also maps anchors to trees. *)
Definition add_sprout_tree_and_anchor ix (by_anchor : gmap bytes T) (height : Z) (tree : T)
    : outcome (TreeIndex T * gmap bytes T) :=
  ix ← add_tree_and_anchor ix height tree;
  Ok (ix, <[tree_root tree := tree]> by_anchor).

Definition remove_sprout_tree_and_anchor ix (by_anchor : gmap bytes T) (position : RevertPosition) (height : Z)
    (tip : option Z) : outcome (TreeIndex T * gmap bytes T) :=
  '(ix', by_anchor) ←
    foldM (fun '(ix, by_anchor) h =>
             '(anchor, ix) ← remove_anchor ix h;
             Ok (ix, if bool_decide (anchor ∈ anchors ix) then by_anchor else delete anchor by_anchor))
      (ix, by_anchor) (removed_heights ix position height);
  ix' ← move_tree_up ix' (highest_removed_tree ix position height) height tip;
  Ok (ix', by_anchor).

(** Appending the note commitments of a block, when it has any
    ([zebra-chain/src/parallel/tree.rs]). *)
Definition update_note_commitment_tree (tree : T) (commitments : list bytes) : res string T :=
  foldM tree_append tree commitments.

Definition update_tree_with_subtrees `{!SubtreeTree T} (tree : T) (commitments : list bytes)
    : res string (T * option (Z * bytes)) :=
  foldM (fun '(tree, subtree_root) commitment =>
           tree ← tree_append tree commitment;
           Ok (tree, match completed_subtree_index_and_root tree with
                     | Some index_and_node => Some index_and_node
                     | None => subtree_root
                     end)) (tree, None) commitments.
End TreeIndex.

(** ** The chain *)

Section Chain.
Context {SproutT SaplingT OrchardT HistoryT : Type}
  `{!NoteTree SproutT} `{!NoteTree SaplingT} `{!SubtreeTree SaplingT} `{!NoteTree OrchardT} `{!SubtreeTree OrchardT}
  `{!HistoryTreeOps HistoryT} `{!ChainContext} `{BuildProfile}.

Record ChainInner := mkChainInner {
  blocks : btree ContextuallyVerifiedBlock;
  height_by_hash : gmap bytes Z;
  tx_indexes : TxIndexes;
  sprout_index : TreeIndex SproutT;
  sprout_trees_by_anchor : gmap bytes SproutT;
  sapling_index : TreeIndex SaplingT;
  orchard_index : TreeIndex OrchardT;
  history_trees_by_height : btree HistoryT;
  sapling_subtrees : btree (Z * bytes);
  orchard_subtrees : btree (Z * bytes);
  partial_cumulative_work : Z;
  chain_value_pools : ValueBalance;
  block_info_by_height : btree (ValueBalance * Z)
}.

Record Chain := mkChain {
  chain_network : Network;
  inner : ChainInner;
  last_fork_height : option Z
}.

Definition with_inner (c : Chain) (i : ChainInner) : Chain := mkChain (chain_network c) i (last_fork_height c).
Definition with_fork_height (c : Chain) (h : option Z) : Chain := mkChain (chain_network c) (inner c) h.
Definition set_blocks (bs : btree ContextuallyVerifiedBlock) (i : ChainInner) : ChainInner :=
  mkChainInner bs (height_by_hash i) (tx_indexes i) (sprout_index i) (sprout_trees_by_anchor i) (sapling_index i)
    (orchard_index i) (history_trees_by_height i) (sapling_subtrees i) (orchard_subtrees i)
    (partial_cumulative_work i) (chain_value_pools i) (block_info_by_height i).
Definition set_subtrees (sapling orchard : btree (Z * bytes)) (i : ChainInner) : ChainInner :=
  mkChainInner (blocks i) (height_by_hash i) (tx_indexes i) (sprout_index i) (sprout_trees_by_anchor i)
    (sapling_index i) (orchard_index i) (history_trees_by_height i) sapling orchard
    (partial_cumulative_work i) (chain_value_pools i) (block_info_by_height i).

(** *** Reading the chain *)

Definition max_block_height (i : ChainInner) : option Z := fst <$> last (blocks i).
Definition non_finalized_tip_height (i : ChainInner) : outcome Z := unwrap (max_block_height i).
Definition non_finalized_tip_hash (i : ChainInner) : outcome bytes := unwrap ((cv_hash ∘ snd) <$> last (blocks i)).
Definition non_finalized_root_height (i : ChainInner) : outcome Z := unwrap (fst <$> head (blocks i)).
Definition non_finalized_root_hash (i : ChainInner) : outcome bytes := unwrap ((cv_hash ∘ snd) <$> head (blocks i)).
Definition tip_block (i : ChainInner) : option ContextuallyVerifiedBlock := snd <$> last (blocks i).
Definition chain_is_empty (i : ChainInner) : bool := match blocks i with [] => true | _ => false end.
Definition chain_len (i : ChainInner) : nat := length (blocks i).
Definition hash_by_height (i : ChainInner) (height : Z) : option bytes := cv_hash <$> bt_get height (blocks i).
Definition contains_block_hash (i : ChainInner) (hash : bytes) : bool :=
  bool_decide (is_Some (height_by_hash i !! hash)).
Definition contains_block_height (i : ChainInner) (height : Z) : bool := negb (is_none (bt_get height (blocks i))).
Definition non_finalized_nth_hash (i : ChainInner) (n : nat) : option bytes := (cv_hash ∘ snd) <$> blocks i !! n.

Inductive HashOrHeight : Type := Hash (hash : bytes) | Height (height : Z).
Definition height_or_else (i : ChainInner) (hh : HashOrHeight) : option Z :=
  match hh with Hash hash => height_by_hash i !! hash | Height height => Some height end.
Definition chain_block (i : ChainInner) (hh : HashOrHeight) : option ContextuallyVerifiedBlock :=
  height ← height_or_else i hh; bt_get height (blocks i).
Definition chain_block_info (i : ChainInner) (hh : HashOrHeight) : option (ValueBalance * Z) :=
  height ← height_or_else i hh; bt_get height (block_info_by_height i).
Definition contains_hash_or_height (i : ChainInner) (hh : HashOrHeight) : bool :=
  match hh with Hash hash => contains_block_hash i hash | Height height => contains_block_height i height end.

Definition chain_transaction (i : ChainInner) (hash : bytes) : outcome (option (Transaction * Z * Z)) :=
  match tx_loc_by_hash (tx_indexes i) !! hash with
  | None => Ok None
  | Some loc =>
      b ← unwrap (bt_get (loc_height loc) (blocks i));
      tx ← unwrap (transactions (cv_block b) !! Z.to_nat (loc_index loc));
      Ok (Some (tx, loc_height loc, time (block_header (cv_block b))))
  end.
Definition transaction_hash_by_loc (i : ChainInner) (loc : TransactionLocation) : option bytes :=
  b ← bt_get (loc_height loc) (blocks i); cv_transaction_hashes b !! Z.to_nat (loc_index loc).
Definition unspent_utxos (i : ChainInner) : gmap OutPoint OrderedUtxo :=
  filter (fun e => spent_utxos (tx_indexes i) !! e.1 = None) (created_utxos (tx_indexes i)).
Definition created_utxo (i : ChainInner) (outpoint : OutPoint) : option Utxo :=
  ordered_utxo <$> created_utxos (tx_indexes i) !! outpoint.

(** [sapling_subtree] and [orchard_subtree]: the first entry that ends at the
    height. *)
Definition subtree_at (subtrees : btree (Z * bytes)) (height : Z) : option (Z * (Z * bytes)) :=
  List.find (fun e => e.2.1 =? height) subtrees.
Definition sapling_subtree (i : ChainInner) (hh : HashOrHeight) : option (Z * (Z * bytes)) :=
  height ← height_or_else i hh; subtree_at (sapling_subtrees i) height.
Definition orchard_subtree (i : ChainInner) (hh : HashOrHeight) : option (Z * (Z * bytes)) :=
  height ← height_or_else i hh; subtree_at (orchard_subtrees i) height.
Definition subtree_for_tip (i : ChainInner) (subtrees : btree (Z * bytes)) : option (Z * (Z * bytes)) :=
  tip ← max_block_height i; subtree_at subtrees tip.

(** *** History trees and value pools *)

Definition history_tree (i : ChainInner) (hh : HashOrHeight) : option HistoryT :=
  height ← height_or_else i hh; bt_get height (history_trees_by_height i).
Definition history_block_commitment_tree (i : ChainInner) : outcome HistoryT :=
  unwrap (snd <$> last (history_trees_by_height i)).

Definition remove_history_tree (m : btree HistoryT) (position : RevertPosition) (height : Z)
    : outcome (btree HistoryT) :=
  match position with
  | Root => Ok (filter (fun e => height < e.1) m)
  | Tip => _ ← unwrap (bt_get height m); Ok (bt_remove height m)
  end.

Definition update_value_pools (pools : ValueBalance) (info : btree (ValueBalance * Z))
    (block_value_pool_change : ValueBalance) (height size : Z)
    : res ValidateContextError (ValueBalance * btree (ValueBalance * Z)) :=
  match add_chain_value_pool_change pools block_value_pool_change with
  | Ok pools' => Ok (pools', bt_insert height (pools', as_unsigned 32 size) info)
  | Err e => Err (AddValuePool e pools block_value_pool_change (Some height))
  | Panic => Panic
  end.
Definition revert_value_pools (pools : ValueBalance) (info : btree (ValueBalance * Z))
    (block_value_pool_change : ValueBalance) (height : Z) (position : RevertPosition)
    : outcome (ValueBalance * btree (ValueBalance * Z)) :=
  pools ← match position with
          | Tip => change ← value_balance_neg block_value_pool_change;
                   expect (add_chain_value_pool_change pools change)
          | Root => Ok pools
          end;
  Ok (pools, bt_remove height info).

(** [difficulty_threshold.to_work().expect(..)]. *)
Definition block_work (b : ContextuallyVerifiedBlock) : outcome Z :=
  work ← to_work (difficulty_threshold (block_header (cv_block b))); unwrap work.

(** *** Updating with a block *)

Definition update_chain_tip_with_block_except_trees (network : Network) (i : ChainInner) (b : ContextuallyVerifiedBlock)
    : res ValidateContextError ChainInner :=
  _ ← assert_ (bool_decide (height_by_hash i !! cv_hash b = None));
  let height_by_hash := <[cv_hash b := cv_height b]> (height_by_hash i) in
  work ← lift (block_work b);
  partial_cumulative_work ← lift (cumulative_work_add (partial_cumulative_work i) work);
  tx_indexes ← update_transactions output_address network (cv_height b) (cv_new_outputs b) (cv_spent_outputs b)
                 (tx_indexes i) (cv_block b) (cv_transaction_hashes b);
  '(pools, info) ← update_value_pools (chain_value_pools i) (block_info_by_height i) (cv_chain_value_pool_change b)
                     (cv_height b) (block_serialized_size (cv_block b));
  Ok (mkChainInner (blocks i) height_by_hash tx_indexes (sprout_index i) (sprout_trees_by_anchor i) (sapling_index i)
        (orchard_index i) (history_trees_by_height i) (sapling_subtrees i) (orchard_subtrees i)
        partial_cumulative_work pools info).

Record NoteCommitmentTrees := mkNoteCommitmentTrees {
  nct_sprout : SproutT;
  nct_sapling : SaplingT;
  nct_sapling_subtree : option (Z * (Z * bytes));
  nct_orchard : OrchardT;
  nct_orchard_subtree : option (Z * (Z * bytes))
}.

(** A pool without new notes keeps its tree and its subtree. *)
Definition update_pool_tree {T} `{NoteTree T} `{!SubtreeTree T} (pool : Pool) (height : Z) (tree : T)
    (subtree : option (Z * (Z * bytes))) (commitments : list bytes)
    : res ValidateContextError (T * option (Z * (Z * bytes))) :=
  if nonempty commitments then
    r ← map_err (NoteCommitmentTreeError pool) (update_tree_with_subtrees tree commitments);
    Ok (r.1, option_map (fun p : Z * bytes => (p.1, (height, p.2))) r.2)
  else Ok (tree, subtree).

Definition update_trees_parallel (nct : NoteCommitmentTrees) (b : Block) : res ValidateContextError NoteCommitmentTrees :=
  height ← unwrap (coinbase_height b);
  sprout ← map_err (NoteCommitmentTreeError SproutPool)
             (update_note_commitment_tree (nct_sprout nct) (block_sprout_note_commitments b));
  '(sapling, sapling_subtree) ←
    update_pool_tree SaplingPool height (nct_sapling nct) (nct_sapling_subtree nct) (block_sapling_note_commitments b);
  '(orchard, orchard_subtree) ←
    update_pool_tree OrchardPool height (nct_orchard nct) (nct_orchard_subtree nct) (block_orchard_note_commitments b);
  Ok (mkNoteCommitmentTrees sprout sapling sapling_subtree orchard orchard_subtree).

Definition insert_subtree (subtree : option (Z * (Z * bytes))) (m : btree (Z * bytes)) : btree (Z * bytes) :=
  match subtree with Some (index, data) => bt_insert index data m | None => m end.

(** The trees and the other indexes are updated in parallel: a panic of either
    is a panic, then an error of the trees comes first. *)
Definition join_results {E A B} (trees : res E A) (partial : res E B) : res E (A * B) :=
  match trees, partial with
  | Panic, _ | _, Panic => Panic
  | Err e, _ => Err e
  | Ok _, Err e => Err e
  | Ok a, Ok b => Ok (a, b)
  end.

Definition trees_for_tip (i : ChainInner) : outcome NoteCommitmentTrees :=
  sprout ← tree_for_tip (sprout_index i);
  sapling ← tree_for_tip (sapling_index i);
  orchard ← tree_for_tip (orchard_index i);
  Ok (mkNoteCommitmentTrees sprout sapling (subtree_for_tip i (sapling_subtrees i))
        orchard (subtree_for_tip i (orchard_subtrees i))).

Definition update_chain_tip_with_block_parallel (network : Network) (i : ChainInner) (b : ContextuallyVerifiedBlock)
    : res ValidateContextError ChainInner :=
  let height := cv_height b in
  nct ← lift (trees_for_tip i);
  '(nct, i) ← join_results (update_trees_parallel nct (cv_block b))
                (update_chain_tip_with_block_except_trees network i b);
  '(sprout_index, sprout_trees_by_anchor) ←
    lift (add_sprout_tree_and_anchor (sprout_index i) (sprout_trees_by_anchor i) height (nct_sprout nct));
  sapling_index ← lift (add_tree_and_anchor (sapling_index i) height (nct_sapling nct));
  orchard_index ← lift (add_tree_and_anchor (orchard_index i) height (nct_orchard nct));
  let sapling_subtrees := insert_subtree (nct_sapling_subtree nct) (sapling_subtrees i) in
  let orchard_subtrees := insert_subtree (nct_orchard_subtree nct) (orchard_subtrees i) in
  sapling_tip ← lift (tree_for_tip sapling_index);
  orchard_tip ← lift (tree_for_tip orchard_index);
  history ← lift (history_block_commitment_tree i);
  history ← map_err HistoryTreeError
              (history_push history network (cv_block b) (tree_root sapling_tip) (tree_root orchard_tip));
  history_trees ← lift (insert_once height history (history_trees_by_height i));
  Ok (mkChainInner (blocks i) (height_by_hash i) (tx_indexes i) sprout_index sprout_trees_by_anchor sapling_index
        orchard_index history_trees sapling_subtrees orchard_subtrees (partial_cumulative_work i)
        (chain_value_pools i) (block_info_by_height i)).

Definition push (c : Chain) (b : ContextuallyVerifiedBlock) : res ValidateContextError Chain :=
  i ← update_chain_tip_with_block_parallel (chain_network c) (inner c) b;
  Ok (with_inner c (set_blocks (bt_insert (cv_height b) b (blocks i)) i)).

(** *** Reverting a block *)

Definition revert_chain_with (network : Network) (i : ChainInner) (b : ContextuallyVerifiedBlock)
    (position : RevertPosition) : outcome ChainInner :=
  let height := cv_height b in
  _ ← assert_ (bool_decide (is_Some (height_by_hash i !! cv_hash b)));
  let height_by_hash := delete (cv_hash b) (height_by_hash i) in
  work ← block_work b;
  partial_cumulative_work ← cumulative_work_sub (partial_cumulative_work i) work;
  tx_indexes ← revert_transactions output_address network (cv_new_outputs b) (cv_spent_outputs b)
                 (tx_indexes i) (cv_block b) (cv_transaction_hashes b);
  let tip := max_block_height i in
  '(sprout_index, sprout_trees_by_anchor) ←
    remove_sprout_tree_and_anchor (sprout_index i) (sprout_trees_by_anchor i) position height tip;
  sapling_index ← remove_tree_and_anchor (sapling_index i) position height tip;
  orchard_index ← remove_tree_and_anchor (orchard_index i) position height tip;
  history_trees ← remove_history_tree (history_trees_by_height i) position height;
  '(pools, info) ← revert_value_pools (chain_value_pools i) (block_info_by_height i)
                     (cv_chain_value_pool_change b) height position;
  Ok (mkChainInner (blocks i) height_by_hash tx_indexes sprout_index sprout_trees_by_anchor sapling_index orchard_index
        history_trees (sapling_subtrees i) (orchard_subtrees i) partial_cumulative_work pools info).

Definition pop_tip (c : Chain) : outcome Chain :=
  let i := inner c in
  block_height ← non_finalized_tip_height i;
  block ← unwrap (bt_get block_height (blocks i));
  let i := set_blocks (bt_remove block_height (blocks i)) i in
  _ ← assert_ (negb (chain_is_empty i));
  i ← revert_chain_with (chain_network c) i block Tip;
  Ok (with_inner c i).

(** [Treestate]: the trees of a height. *)
Record Treestate := mkTreestate { treestate_trees : NoteCommitmentTrees; treestate_history : HistoryT }.

Definition treestate (i : ChainInner) (hh : HashOrHeight) : option Treestate :=
  height ← height_or_else i hh;
  sprout_tree ← tree_at (sprout_index i) height;
  sapling_tree ← tree_at (sapling_index i) height;
  orchard_tree ← tree_at (orchard_index i) height;
  history_tree ← history_tree i hh;
  Some (mkTreestate (mkNoteCommitmentTrees sprout_tree sapling_tree (sapling_subtree i hh)
                       orchard_tree (orchard_subtree i hh)) history_tree).

Definition pop_root (c : Chain) : outcome (ContextuallyVerifiedBlock * Treestate * Chain) :=
  let i := inner c in
  block_height ← non_finalized_root_height i;
  treestate ← unwrap (treestate i (Height block_height));
  let sapling_subtrees := match nct_sapling_subtree (treestate_trees treestate) with
                          | Some _ => tail (sapling_subtrees i) | None => sapling_subtrees i end in
  let orchard_subtrees := match nct_orchard_subtree (treestate_trees treestate) with
                          | Some _ => tail (orchard_subtrees i) | None => orchard_subtrees i end in
  let i := set_subtrees sapling_subtrees orchard_subtrees i in
  block ← unwrap (bt_get block_height (blocks i));
  let i := set_blocks (bt_remove block_height (blocks i)) i in
  i ← revert_chain_with (chain_network c) i block Root;
  Ok (block, treestate, with_inner c i).

(** *** Forks *)

(** The loop of [fork]: every round removes a block and [pop_tip] refuses to
    remove the last one, so as many rounds as there are blocks are enough. *)
Fixpoint fork_loop (rounds : nat) (fork_tip : bytes) (forked : Chain) : outcome Chain :=
  tip_hash ← non_finalized_tip_hash (inner forked);
  if bool_decide (tip_hash = fork_tip) then Ok forked
  else
    match rounds with
    | O => Panic
    | S rounds' =>
        forked ← pop_tip forked;
        tip_height ← non_finalized_tip_height (inner forked);
        fork_loop rounds' fork_tip (with_fork_height forked (Some tip_height))
    end.

Definition fork (c : Chain) (fork_tip : bytes) : outcome (option Chain) :=
  if contains_block_hash (inner c) fork_tip
  then Some <$> fork_loop (chain_len (inner c)) fork_tip c
  else Ok None.

Definition child_blocks (i : ChainInner) (block_height : Z) : list ContextuallyVerifiedBlock :=
  snd <$> filter (fun e => block_height <= e.1) (blocks i).

(** [Option::min]: [None] is below every height. *)
Definition option_min (a b : option Z) : option Z :=
  match a, b with Some x, Some y => Some (Z.min x y) | _, _ => None end.

Definition chain_invalidate_block (c : Chain) (block_hash : bytes)
    : outcome (option (Chain * list ContextuallyVerifiedBlock)) :=
  match height_by_hash (inner c) !! block_hash with
  | None => Ok None
  | Some block_height =>
      forked ← fork c block_hash;
      match forked with
      | None => Ok None
      | Some new_chain =>
          new_chain ← pop_tip new_chain;
          Ok (Some (with_fork_height new_chain (option_min (last_fork_height c) (Some block_height)),
                    child_blocks (inner c) block_height))
      end
  end.

Definition recent_fork_height (c : Chain) : outcome (option Z) :=
  match last_fork_height c with
  | None => Ok None
  | Some last => root ← non_finalized_root_height (inner c); Ok (if root <=? last then Some last else None)
  end.
Definition recent_fork_length (c : Chain) : outcome (option Z) :=
  tip ← non_finalized_tip_height (inner c);
  recent ← recent_fork_height c;
  match recent with
  | None => Ok None
  | Some h => d ← height_sub tip h; Ok (u32_checked d)
  end.

(** *** Order of chains: work, then the bytes of the tip hash *)

Definition chain_cmp (a b : Chain) : outcome comparison :=
  if partial_cumulative_work (inner a) =? partial_cumulative_work (inner b) then
    self_hash ← non_finalized_tip_hash (inner a);
    other_hash ← non_finalized_tip_hash (inner b);
    match bytes_compare self_hash other_hash with
    | Eq => Panic
    | ordering => Ok ordering
    end
  else Ok (Z.compare (partial_cumulative_work (inner a)) (partial_cumulative_work (inner b))).

(** *** New chains *)

Definition Chain_new (network : Network) (finalized_tip_height : Z) (sprout_note_commitment_tree : SproutT)
    (sapling_note_commitment_tree : SaplingT) (orchard_note_commitment_tree : OrchardT) (history_tree : HistoryT)
    (finalized_tip_chain_value_pools : ValueBalance) : outcome Chain :=
  '(sprout_index, sprout_trees_by_anchor) ←
    add_sprout_tree_and_anchor empty_tree_index ∅ finalized_tip_height sprout_note_commitment_tree;
  sapling_index ← add_tree_and_anchor empty_tree_index finalized_tip_height sapling_note_commitment_tree;
  orchard_index ← add_tree_and_anchor empty_tree_index finalized_tip_height orchard_note_commitment_tree;
  history ← insert_once finalized_tip_height history_tree [];
  Ok (mkChain network
        (mkChainInner [] ∅ empty_indexes sprout_index sprout_trees_by_anchor sapling_index orchard_index history
           [] [] 0 finalized_tip_chain_value_pools []) None).
End Chain.

Arguments ChainInner : clear implicits.
Arguments Chain : clear implicits.
Arguments NoteCommitmentTrees : clear implicits.
Arguments Treestate : clear implicits.

(** * Popping a pushed block *)

Section TreeIndexLemmas.
Context {T : Type} `{NoteTree T} `{BuildProfile}.
Implicit Types (ix : TreeIndex T).

Lemma insert_once_Ok {V} h (v : V) m m' :
  insert_once h v m = Ok m' <-> bt_get h m = None /\ m' = bt_insert h v m.
Proof.
  unfold insert_once. destruct (bt_get h m) as [w|] eqn:E; cbn; split.
  - done.
  - by intros [? _].
  - intros H1. by inv_res.
  - by intros [_ ->].
Qed.

(** What adding a tree does: the tree is stored or not, the anchor is added. *)
Lemma add_tree_and_anchor_inv ix h t ix' :
  add_tree_and_anchor ix h t = Ok ix' ->
  (trees_by_height ix' = trees_by_height ix
   \/ (bt_get h (trees_by_height ix) = None /\ trees_by_height ix' = bt_insert h t (trees_by_height ix)))
  /\ anchors ix' = anchors ix ⊎ {[+ tree_root t +]}
  /\ bt_get h (anchors_by_height ix) = None
  /\ anchors_by_height ix' = bt_insert h (tree_root t) (anchors_by_height ix).
Proof.
  unfold add_tree_and_anchor. intros ([] & _ & H1)%bind_Ok_inv.
  - apply bind_Ok_inv in H1 as (trees & [Hn ->]%insert_once_Ok & H1).
    apply bind_Ok_inv in H1 as (abh & [Ha ->]%insert_once_Ok & H1). inv_res. cbn. auto 10.
  - cbn [mbind res_bind] in H1. apply bind_Ok_inv in H1 as (abh & [Ha ->]%insert_once_Ok & H1). inv_res. cbn. auto.
Qed.

Lemma remove_anchor_add ix h t ix' :
  add_tree_and_anchor ix h t = Ok ix' -> bt_get h (trees_by_height ix) = None ->
  remove_anchor ix' h = Ok (tree_root t, ix).
Proof.
  intros (Ht & Ha & Hn & Hb)%add_tree_and_anchor_inv Hfresh. unfold remove_anchor. rewrite Hb, bt_get_insert, Z.eqb_refl.
  cbn [unwrap mbind res_bind]. rewrite Ha, bool_decide_eq_true_2 by multiset_solver. cbn [assert_ mbind res_bind].
  rewrite bt_remove_insert by done.
  assert (bt_remove h (trees_by_height ix') = trees_by_height ix) as ->.
  { destruct Ht as [->|[_ ->]]; [|by apply bt_remove_insert].
    apply filter_all, Forall_forall. by apply bt_get_None. }
  replace ((anchors ix ⊎ {[+ tree_root t +]}) ∖ {[+ tree_root t +]}) with (anchors ix) by multiset_solver.
  by destruct ix.
Qed.

Lemma move_tree_up_tip ix h tip : (forall t, tip = Some t -> t <= h) -> move_tree_up ix None h tip = Ok ix.
Proof.
  intros Ht. unfold move_tree_up. destruct tip as [t|]; [|done].
  rewrite (proj2 (Z.ltb_ge h t)); [done|]. by apply Ht.
Qed.

Lemma remove_add_tree ix h t ix' tip :
  add_tree_and_anchor ix h t = Ok ix' -> bt_get h (trees_by_height ix) = None ->
  (forall th, tip = Some th -> th <= h) -> remove_tree_and_anchor ix' Tip h tip = Ok ix.
Proof.
  intros Hadd Hfresh Htip. unfold remove_tree_and_anchor. cbn [removed_heights highest_removed_tree foldM].
  rewrite (remove_anchor_add _ _ _ _ Hadd Hfresh). cbn. by apply move_tree_up_tip.
Qed.

(** The anchors of the sprout pool are the keys of [sprout_trees_by_anchor]. *)
Definition anchors_indexed ix (by_anchor : gmap bytes T) : Prop :=
  (forall a, a ∈ anchors ix <-> is_Some (by_anchor !! a)) /\
  (forall a t, by_anchor !! a = Some t -> tree_root t = a).

Lemma anchors_indexed_add ix by_anchor h t ix' by_anchor' :
  anchors_indexed ix by_anchor -> add_sprout_tree_and_anchor ix by_anchor h t = Ok (ix', by_anchor') ->
  anchors_indexed ix' by_anchor'.
Proof.
  intros [H1 H2] (ix1 & Hadd & He)%bind_Ok_inv. inv_res.
  apply add_tree_and_anchor_inv in Hadd as (_ & Ha & _). split.
  - intros a. rewrite Ha, gmultiset_elem_of_disj_union, gmultiset_elem_of_singleton, H1, lookup_insert_is_Some.
    destruct (decide (tree_root t = a)); naive_solver.
  - intros a t' [[<- <-]|[_ Ht]]%lookup_insert_Some; eauto.
Qed.

Lemma remove_add_sprout_tree `{!NoteTreeLaws T} ix by_anchor h t ix' by_anchor' tip :
  anchors_indexed ix by_anchor -> add_sprout_tree_and_anchor ix by_anchor h t = Ok (ix', by_anchor') ->
  bt_get h (trees_by_height ix) = None -> (forall th, tip = Some th -> th <= h) ->
  remove_sprout_tree_and_anchor ix' by_anchor' Tip h tip = Ok (ix, by_anchor).
Proof.
  intros [H1 H2] (ix1 & Hadd & He)%bind_Ok_inv Hfresh Htip. inv_res.
  unfold remove_sprout_tree_and_anchor. cbn [removed_heights highest_removed_tree foldM].
  rewrite (remove_anchor_add _ _ _ _ Hadd Hfresh). cbn [mbind res_bind].
  rewrite move_tree_up_tip by done. cbn [mbind res_bind]. do 2 f_equal.
  destruct (by_anchor !! tree_root t) as [t'|] eqn:Et.
  - rewrite bool_decide_eq_true_2 by (apply H1; eauto).
    apply insert_id. rewrite Et. f_equal. apply tree_root_inj. by apply H2.
  - rewrite bool_decide_eq_false_2 by (rewrite H1, Et; by intros [? ?]). by apply delete_insert_id.
Qed.
End TreeIndexLemmas.

Section ChainLemmas.
Context {SproutT SaplingT OrchardT HistoryT : Type}
  `{!NoteTree SproutT} `{!NoteTree SaplingT} `{!SubtreeTree SaplingT} `{!NoteTree OrchardT} `{!SubtreeTree OrchardT}
  `{!HistoryTreeOps HistoryT} `{!ChainContext} `{BuildProfile} `{!NoteTreeLaws SproutT}.
Abbreviation chain_inner := (ChainInner SproutT SaplingT OrchardT HistoryT).
Abbreviation chain := (Chain SproutT SaplingT OrchardT HistoryT).

(** The invariant of the indexes. *)
Record chain_ok (i : chain_inner) : Prop := {
  ok_transfers : no_empty_transfers (tx_indexes i);
  ok_anchors : anchors_indexed (sprout_index i) (sprout_trees_by_anchor i);
  ok_pools : pools_in NonNegative (chain_value_pools i);
  ok_work : 0 <= partial_cumulative_work i <= u128_MAX
}.

(** Everything stored by height is below [h]. *)
Record heights_below (h : Z) (i : chain_inner) : Prop := {
  below_blocks : bt_below h (blocks i);
  below_sprout : bt_below h (trees_by_height (sprout_index i));
  below_sapling : bt_below h (trees_by_height (sapling_index i));
  below_orchard : bt_below h (trees_by_height (orchard_index i));
  below_info : bt_below h (block_info_by_height i)
}.

(** The bound under which the address balances of a block can be reverted. *)
Definition volume_bounded (network : Network) (i : chain_inner) (b : ContextuallyVerifiedBlock) : Prop :=
  forall a, Z.abs (address_balance (tx_indexes i) a)
    + transfer_volume output_address network (cv_height b) (cv_new_outputs b) (cv_spent_outputs b) (cv_block b)
        (cv_transaction_hashes b) a <= MAX_MONEY.

(** What an update of the indexes other than the trees changes. *)
Lemma update_except_trees_inv network (i : chain_inner) b (i' : chain_inner) :
  update_chain_tip_with_block_except_trees network i b = Ok i' ->
  exists work, height_by_hash i !! cv_hash b = None /\ height_by_hash i' = <[cv_hash b := cv_height b]> (height_by_hash i)
  /\ block_work b = Ok work /\ cumulative_work_add (partial_cumulative_work i) work = Ok (partial_cumulative_work i')
  /\ update_transactions output_address network (cv_height b) (cv_new_outputs b) (cv_spent_outputs b)
       (tx_indexes i) (cv_block b) (cv_transaction_hashes b) = Ok (tx_indexes i')
  /\ add_chain_value_pool_change (chain_value_pools i) (cv_chain_value_pool_change b) = Ok (chain_value_pools i')
  /\ (exists size, block_info_by_height i' = bt_insert (cv_height b) (chain_value_pools i', size) (block_info_by_height i))
  /\ blocks i' = blocks i /\ sprout_index i' = sprout_index i /\ sprout_trees_by_anchor i' = sprout_trees_by_anchor i
  /\ sapling_index i' = sapling_index i /\ orchard_index i' = orchard_index i
  /\ history_trees_by_height i' = history_trees_by_height i
  /\ sapling_subtrees i' = sapling_subtrees i /\ orchard_subtrees i' = orchard_subtrees i.
Proof.
  unfold update_chain_tip_with_block_except_trees.
  intros (? & Ha & H1)%bind_Ok_inv. apply (proj1 (assert_Ok _ _)), bool_decide_eq_true in Ha.
  apply bind_Ok_inv in H1 as (work & Hw & H1). apply (proj1 (lift_Ok _ _)) in Hw.
  apply bind_Ok_inv in H1 as (pcw & Hp & H1). apply (proj1 (lift_Ok _ _)) in Hp.
  apply bind_Ok_inv in H1 as (txi & Ht & H1). apply bind_Ok_inv in H1 as ([pools info] & Hv & H1).
  unfold update_value_pools in Hv.
  destruct (add_chain_value_pool_change _ _) as [p|e|] eqn:Ep; [|done..]. inv_res. cbn. eauto 20.
Qed.

(** What pushing a block changes. *)
Lemma push_inv (c : chain) b c' :
  push c b = Ok c' ->
  let i := inner c in let i' := inner c' in
  exists i1 sprout_tree sapling_tree orchard_tree,
    update_chain_tip_with_block_except_trees (chain_network c) i b = Ok i1
    /\ add_sprout_tree_and_anchor (sprout_index i) (sprout_trees_by_anchor i) (cv_height b) sprout_tree
       = Ok (sprout_index i', sprout_trees_by_anchor i')
    /\ add_tree_and_anchor (sapling_index i) (cv_height b) sapling_tree = Ok (sapling_index i')
    /\ add_tree_and_anchor (orchard_index i) (cv_height b) orchard_tree = Ok (orchard_index i')
    /\ (exists history, bt_get (cv_height b) (history_trees_by_height i) = None
          /\ history_trees_by_height i' = bt_insert (cv_height b) history (history_trees_by_height i))
    /\ blocks i' = bt_insert (cv_height b) b (blocks i)
    /\ height_by_hash i' = height_by_hash i1 /\ tx_indexes i' = tx_indexes i1
    /\ partial_cumulative_work i' = partial_cumulative_work i1 /\ chain_value_pools i' = chain_value_pools i1
    /\ block_info_by_height i' = block_info_by_height i1
    /\ chain_network c' = chain_network c /\ last_fork_height c' = last_fork_height c.
Proof.
  unfold push, update_chain_tip_with_block_parallel. cbn zeta. intros (ii & H1 & H2)%bind_Ok_inv.
  apply bind_Ok_inv in H1 as (nct & _ & H1). apply bind_Ok_inv in H1 as ([nct' i1] & Hj & H1).
  unfold join_results in Hj. destruct (update_trees_parallel _ _) as [x|e|]; [|by repeat case_match|done].
  destruct (update_chain_tip_with_block_except_trees _ _ _) as [y|e|] eqn:Eu; [|done..]. injection Hj as <- <-.
  destruct (update_except_trees_inv _ _ _ _ Eu) as
    (work & _ & _ & _ & _ & _ & _ & _ & Eb & E1 & E2 & E3 & E4 & E5 & _ & _).
  rewrite E1, E2, E3, E4, E5, Eb in H1. clear E1 E2 E3 E4 E5.
  apply bind_Ok_inv in H1 as ([si sa] & Hs & H1). apply (proj1 (lift_Ok _ _)) in Hs.
  apply bind_Ok_inv in H1 as (sapi & Hsap & H1). apply (proj1 (lift_Ok _ _)) in Hsap.
  apply bind_Ok_inv in H1 as (orci & Horc & H1). apply (proj1 (lift_Ok _ _)) in Horc.
  do 4 apply bind_Ok_inv in H1 as (? & _ & H1).
  apply bind_Ok_inv in H1 as (hist & Hh & H1). apply (proj1 (lift_Ok _ _)), insert_once_Ok in Hh as [Hh ->].
  inv_res. cbn. exists y. do 3 eexists. split_and!; try done. eauto.
Qed.

(** The maps of [i] with the subtrees of [i']. *)
Definition with_subtrees_of (i' i : chain_inner) : chain_inner :=
  set_subtrees (sapling_subtrees i') (orchard_subtrees i') i.

Lemma cumulative_work_roundtrip w x w' :
  0 <= w <= u128_MAX -> cumulative_work_add w x = Ok w' ->
  cumulative_work_sub w' x = Ok w /\ 0 <= w' <= u128_MAX.
Proof.
  intros Hw. unfold cumulative_work_add, cumulative_work_sub. intros [-> Hr]%unwrap_Ok%checked_Some.
  split; [|done]. rewrite checked_in by lia. cbn. f_equal. lia.
Qed.

Lemma revert_value_pools_update pools info change h pools' size :
  pools_in NonNegative pools -> pools_in NegativeAllowed change -> bt_get h info = None ->
  add_chain_value_pool_change pools change = Ok pools' ->
  revert_value_pools pools' (bt_insert h (pools', size) info) change h Tip = Ok (pools, info)
  /\ pools_in NonNegative pools'.
Proof.
  intros Hp Hc Hf Hadd. apply add_chain_value_pool_change_Ok in Hadd as [-> Hin]; [|done..].
  split; [|done]. unfold revert_value_pools. rewrite (value_balance_neg_eq NegativeAllowed) by done. cbn [mbind res_bind].
  rewrite (proj2 (add_chain_value_pool_change_Ok _ _ pools Hin (pools_neg_in _ _ Hc))).
  - cbn. by rewrite bt_remove_insert.
  - by rewrite pools_op_assoc_neg.
Qed.

(** Pushing a block keeps the invariant. *)
Lemma push_ok (c : chain) b c' :
  chain_ok (inner c) -> heights_below (cv_height b) (inner c) -> pools_in NegativeAllowed (cv_chain_value_pool_change b) ->
  volume_bounded (chain_network c) (inner c) b -> push c b = Ok c' ->
  chain_ok (inner c') /\ heights_below (cv_height b + 1) (inner c').
Proof.
  intros [Hg Ha Hp Hw] [Hb1 Hb2 Hb3 Hb4 Hb5] Hc Hvol Hpush. apply push_inv in Hpush as
    (i1 & ts & tsa & tor & Hu & Hs & Hsa & Hor & _ & Eb & _ & Et & Ew & Ep & Ei & _).
  apply update_except_trees_inv in Hu as (work & _ & _ & _ & Hwork & Htx & Hpool & [size Hinfo] & _).
  split; split.
  - rewrite Et. by eapply revert_update_transactions.
  - by eapply anchors_indexed_add.
  - rewrite Ep. by apply add_chain_value_pool_change_Ok in Hpool as [-> ?].
  - rewrite Ew. by eapply cumulative_work_roundtrip.
  - rewrite Eb. by apply bt_below_insert.
  - apply bind_Ok_inv in Hs as (ix & Hix & Hs). injection Hs as <- _.
    apply add_tree_and_anchor_inv in Hix as [[->|[_ ->]] _]; [|by apply bt_below_insert].
    eapply bt_below_weaken; [|done]. lia.
  - apply add_tree_and_anchor_inv in Hsa as [[->|[_ ->]] _]; [|by apply bt_below_insert].
    eapply bt_below_weaken; [|done]. lia.
  - apply add_tree_and_anchor_inv in Hor as [[->|[_ ->]] _]; [|by apply bt_below_insert].
    eapply bt_below_weaken; [|done]. lia.
  - rewrite Ei, Hinfo. by apply bt_below_insert.
Qed.

(** Popping the tip after a push gives everything back but the subtrees. *)
Lemma push_pop_tip (c : chain) (b : ContextuallyVerifiedBlock) (c' : chain) :
  chain_ok (inner c) -> heights_below (cv_height b) (inner c) -> blocks (inner c) <> [] ->
  pools_in NegativeAllowed (cv_chain_value_pool_change b) -> volume_bounded (chain_network c) (inner c) b ->
  push c b = Ok c' ->
  pop_tip c' = Ok (with_inner c (with_subtrees_of (inner c') (inner c))).
Proof.
  intros [Hg Ha Hp Hw] [Hb1 Hb2 Hb3 Hb4 Hb5] Hne Hc Hvol Hpush. apply push_inv in Hpush as
    (i1 & ts & tsa & tor & Hu & Hs & Hsa & Hor & (hist & Hhn & Ehist) & Eb & Eh & Et & Ew & Ep & Ei & En & Ef).
  apply update_except_trees_inv in Hu as (work & Hhash & Eh1 & Hwork & Hadd & Htx & Hpool & [size Hinfo] & _).
  unfold pop_tip, non_finalized_tip_height, max_block_height. rewrite Eb, bt_below_insert_last by done.
  rewrite last_snoc. cbn [fmap option_fmap option_map fst unwrap mbind res_bind].
  rewrite <- (bt_below_insert_last _ _ _ Hb1), bt_get_insert, Z.eqb_refl. cbn [unwrap mbind res_bind].
  rewrite bt_remove_insert by (by apply bt_below_fresh). unfold chain_is_empty. cbn [blocks set_blocks].
  destruct (blocks (inner c)) as [|e bs] eqn:Ebs; [done|]. cbn [negb assert_ mbind res_bind].
  unfold revert_chain_with. cbn [set_blocks height_by_hash partial_cumulative_work tx_indexes sprout_index
    sprout_trees_by_anchor sapling_index orchard_index history_trees_by_height chain_value_pools block_info_by_height
    sapling_subtrees orchard_subtrees blocks].
  rewrite Eh, Eh1, bool_decide_eq_true_2 by (rewrite lookup_insert_eq; eauto). cbn [assert_ mbind res_bind].
  rewrite Hwork. cbn [mbind res_bind]. rewrite Ew, (proj1 (cumulative_work_roundtrip _ _ _ Hw Hadd)).
  cbn [mbind res_bind].
  rewrite Et, En, (proj1 (revert_update_transactions _ _ _ _ _ _ _ _ _ Hg Hvol Htx)). cbn [mbind res_bind].
  assert (forall th, max_block_height (set_blocks (e :: bs) (inner c')) = Some th -> th <= cv_height b) as Htip.
  { unfold max_block_height. cbn [blocks set_blocks]. intros th (x & Hx & ->)%fmap_Some.
    apply last_Some_elem_of in Hx. unfold bt_below in Hb1. rewrite Forall_forall in Hb1. specialize (Hb1 x Hx). lia. }
  rewrite (remove_add_sprout_tree _ _ _ _ _ _ _ Ha Hs (bt_below_fresh _ _ Hb2) Htip). cbn [mbind res_bind].
  rewrite (remove_add_tree _ _ _ _ _ Hsa (bt_below_fresh _ _ Hb3) Htip). cbn [mbind res_bind].
  rewrite (remove_add_tree _ _ _ _ _ Hor (bt_below_fresh _ _ Hb4) Htip). cbn [mbind res_bind].
  rewrite Ehist. unfold remove_history_tree. rewrite bt_get_insert, Z.eqb_refl. cbn [unwrap mbind res_bind].
  rewrite bt_remove_insert by done. rewrite Ei, Ep, Hinfo.
  rewrite (proj1 (revert_value_pools_update _ _ _ _ _ size Hp Hc (bt_below_fresh _ _ Hb5) Hpool)). cbn [mbind res_bind].
  rewrite delete_insert_id by done. unfold with_inner, with_subtrees_of, set_subtrees. cbn. rewrite En, Ef.
  do 2 f_equal. destruct (inner c). cbn in *. by rewrite Ebs.
Qed.

(** C30. Popping the tip right after pushing a block gives the chain back:
    every index, tree, anchor, balance, nullifier, pool and the work are those
    of the chain before the push, for a chain that keeps its invariant and a
    block above it. Only the note commitment subtrees are not restored: they
    stay those of the longer chain. *)
Theorem pop_tip_push (c : chain) (b : ContextuallyVerifiedBlock) (c' : chain) :
  chain_ok (inner c) -> heights_below (cv_height b) (inner c) -> blocks (inner c) <> [] ->
  pools_in NegativeAllowed (cv_chain_value_pool_change b) -> volume_bounded (chain_network c) (inner c) b ->
  push c b = Ok c' ->
  pop_tip c' = Ok (with_inner c (with_subtrees_of (inner c') (inner c))).
Proof. apply push_pop_tip. Qed.

(** ** Forks *)

(** A chain with other subtrees and another fork height. *)
Definition vary (s o : btree (Z * bytes)) (f : option Z) (c : chain) : chain :=
  mkChain (chain_network c) (set_subtrees s o (inner c)) f.

Lemma vary_vary s o f s' o' f' (c : chain) : vary s o f (vary s' o' f' c) = vary s o f c.
Proof. done. Qed.

Lemma vary_self (c : chain) :
  vary (sapling_subtrees (inner c)) (orchard_subtrees (inner c)) (last_fork_height c) c = c.
Proof. by destruct c as [n [] f]. Qed.

(** No operation of [pop_tip] looks at the subtrees. *)
Lemma pop_tip_vary s o f (c : chain) : pop_tip (vary s o f c) = vary s o f <$> pop_tip c.
Proof.
  destruct c as [n [bl hh tx si sa sap orc hist ss os w p info] f0].
  unfold pop_tip, revert_chain_with, vary, with_inner, set_blocks, set_subtrees, non_finalized_tip_height,
    max_block_height, chain_is_empty. cbn.
  repeat (match goal with |- context [mbind _ ?m] => destruct m as [?|[]|]; cbn; [|done] end;
          try match goal with p : (_ * _)%type |- _ => destruct p; cbn end).
  done.
Qed.

(** Chains that extend a chain by pushes, one block above the other. *)
Inductive extends (c : chain) : list ContextuallyVerifiedBlock -> chain -> Prop :=
| extends_nil : extends c [] c
| extends_snoc bs c1 b c2 :
    extends c bs c1 -> heights_below (cv_height b) (inner c1) ->
    pools_in NegativeAllowed (cv_chain_value_pool_change b) -> volume_bounded (chain_network c1) (inner c1) b ->
    push c1 b = Ok c2 -> extends c (bs ++ [b]) c2.

Lemma push_height_by_hash (c : chain) b c' :
  push c b = Ok c' ->
  height_by_hash (inner c) !! cv_hash b = None
  /\ height_by_hash (inner c') = <[cv_hash b := cv_height b]> (height_by_hash (inner c))
  /\ blocks (inner c') = bt_insert (cv_height b) b (blocks (inner c)).
Proof.
  intros (i1 & ? & ? & ? & Hu & _ & _ & _ & _ & Eb & Eh & _)%push_inv.
  apply update_except_trees_inv in Hu as (? & Hn & Hh & _). rewrite Eh. done.
Qed.

(** The invariant, the blocks and the hashes of an extension. *)
Lemma extends_inv (c : chain) bs c' :
  extends c bs c' -> chain_ok (inner c) -> blocks (inner c) <> [] ->
  chain_ok (inner c') /\ blocks (inner c') <> [] /\ chain_len (inner c') = (chain_len (inner c) + length bs)%nat
  /\ (forall h, is_Some (height_by_hash (inner c) !! h) -> is_Some (height_by_hash (inner c') !! h)).
Proof.
  intros Hext Hok Hne. induction Hext as [|bs c1 b c2 Hext IH Hb Hc Hv Hpush].
  { split_and!; try done; cbn; lia. }
  destruct IH as (Hok1 & Hne1 & Hlen & Hh). destruct (push_ok _ _ _ Hok1 Hb Hc Hv Hpush) as [Hok2 _].
  destruct (push_height_by_hash _ _ _ Hpush) as (Hn & Eh & Eb). unfold chain_len in *.
  rewrite Eb, bt_below_insert_last by apply Hb. rewrite !length_app. cbn. split_and!.
  - done.
  - by destruct (blocks (inner c1)).
  - lia.
  - intros h Hsome. rewrite Eh, lookup_insert_is_Some'. right. auto.
Qed.

Lemma extends_nil_eq (c c' : chain) : extends c [] c' -> c' = c.
Proof. inversion 1 as [|bs c1 b c2 ? ? ? ? ? Hl]; [done|]. by destruct bs. Qed.

Lemma fork_loop_extends (c : chain) bs c' fork_tip :
  extends c bs c' -> chain_ok (inner c) -> blocks (inner c) <> [] ->
  non_finalized_tip_hash (inner c) = Ok fork_tip -> is_Some (height_by_hash (inner c) !! fork_tip) ->
  forall rounds s o f, (length bs <= rounds)%nat ->
  exists f', fork_loop rounds fork_tip (vary s o f c') = Ok (vary s o f' c)
    /\ (bs = [] -> f' = f) /\ (bs <> [] -> exists h, non_finalized_tip_height (inner c) = Ok h /\ f' = Some h).
Proof.
  intros Hext Hok Hne Htip Hin. induction Hext as [|bs c1 b c2 Hext IH Hb Hc Hv Hpush]; intros rounds s o f Hr.
  - exists f. split; [|done]. destruct rounds; cbn [fork_loop]; unfold non_finalized_tip_hash in *; cbn [inner vary blocks
      set_subtrees] in *; rewrite Htip; cbn [mbind res_bind]; by rewrite bool_decide_eq_true_2.
  - rewrite length_app in Hr. cbn in Hr. destruct rounds as [|rounds]; [lia|].
    destruct (extends_inv _ _ _ Hext Hok Hne) as (Hok1 & Hne1 & _ & Hh).
    destruct (push_height_by_hash _ _ _ Hpush) as (Hn & _ & Eb).
    assert (non_finalized_tip_hash (inner (vary s o f c2)) = Ok (cv_hash b)) as Htip2.
    { unfold non_finalized_tip_hash. cbn [inner vary blocks set_subtrees].
      rewrite Eb, bt_below_insert_last, last_snoc by apply Hb. done. }
    assert (fork_tip <> cv_hash b) as Hneq.
    { intros ->. destruct (Hh _ Hin) as [? Hs]. congruence. }
    cbn [fork_loop]. rewrite Htip2. cbn [mbind res_bind]. rewrite bool_decide_eq_false_2 by congruence.
    rewrite pop_tip_vary, (push_pop_tip _ _ _ Hok1 Hb Hne1 Hc Hv Hpush). cbn [fmap res_fmap mbind res_bind].
    destruct (last (blocks (inner c1))) as [[th bl]|] eqn:El; [|by apply last_None in El].
    assert (non_finalized_tip_height (inner c1) = Ok th) as Hth.
    { unfold non_finalized_tip_height, max_block_height. by rewrite El. }
    change (non_finalized_tip_height (inner (vary s o f (with_inner c1 (with_subtrees_of (inner c2) (inner c1))))))
      with (non_finalized_tip_height (inner c1)). rewrite Hth. cbn [mbind res_bind].
    change (with_fork_height _ (Some th)) with (vary s o (Some th) c1).
    destruct (IH rounds s o (Some th)) as (f' & Hloop & Hnil & Hcons); [lia|].
    exists f'. split; [exact Hloop|]. split; [by destruct bs|]. intros _.
    destruct bs as [|b' bs']; [|by apply Hcons]. rewrite (Hnil eq_refl). exists th. split; [|done].
    by rewrite <- (extends_nil_eq _ _ Hext).
Qed.

(** Forking a chain at the tip of a chain it extends gives that shorter
    chain back, with all its indexes, trees and balances; only the subtrees
    and the recorded fork height differ.  *)
Theorem fork_restores (c : chain) bs c' fork_tip :
  extends c bs c' -> chain_ok (inner c) -> blocks (inner c) <> [] ->
  non_finalized_tip_hash (inner c) = Ok fork_tip -> is_Some (height_by_hash (inner c) !! fork_tip) ->
  exists f, fork c' fork_tip
    = Ok (Some (mkChain (chain_network c) (with_subtrees_of (inner c') (inner c)) f))
    /\ (bs = [] -> f = last_fork_height c)
    /\ (bs <> [] -> exists h, non_finalized_tip_height (inner c) = Ok h /\ f = Some h).
Proof.
  intros Hext Hok Hne Htip Hin. destruct (extends_inv _ _ _ Hext Hok Hne) as (_ & _ & Hlen & Hh).
  unfold fork, contains_block_hash. rewrite bool_decide_eq_true_2 by auto.
  destruct (fork_loop_extends _ _ _ _ Hext Hok Hne Htip Hin (chain_len (inner c')) (sapling_subtrees (inner c'))
              (orchard_subtrees (inner c')) (last_fork_height c')) as (f & Hloop & Hnil & Hcons); [lia|].
  rewrite vary_self in Hloop. exists f. rewrite Hloop. split; [done|]. split; [|done].
  intros ->. rewrite (Hnil eq_refl). by rewrite (extends_nil_eq _ _ Hext).
Qed.
End ChainLemmas.

(** * A small chain *)

Module Example.
(** A tree is the concatenation of its commitments; a subtree is complete at
    four bytes. *)
#[local] Instance tree : NoteTree bytes := {| tree_root t := t; tree_append t c := Ok (t ++ c) |}.
#[local] Instance subtree : SubtreeTree bytes :=
  {| completed_subtree_index_and_root t := if bool_decide (length t = 4%nat) then Some (0, t) else None |}.
#[local] Instance tree_laws : NoteTreeLaws bytes.
Proof. split. done. Qed.
#[local] Instance history : HistoryTreeOps nat := {| history_push h _ _ _ _ := Ok (S h) |}.
#[local] Instance context : ChainContext :=
  {| output_address _ o := Some (lock_script o); block_serialized_size _ := 1000 |}.
#[local] Existing Instance release_build.

Abbreviation chain := (Chain bytes bytes bytes nat).

(** A block at [height] with one coinbase transaction, which creates one
    output and the given sapling notes. *)
Definition coinbase (height : Z) (notes : list bytes) : Transaction :=
  V4 [Coinbase height [] 0] [mkOutput 5 [Byte.x2a]] (LockHeight 0) 0 None
    match notes with
    | [] => None
    | n :: ns => Some (mkSaplingShieldedData 0 (JustOutputs (mkSaplingOutput [] n []) ((fun m => mkSaplingOutput [] m []) <$> ns)) [])
    end.
Definition block (height : Z) (hash tx_hash : bytes) (notes : list bytes) : ContextuallyVerifiedBlock :=
  mkContextuallyVerifiedBlock (mkBlock example_header [coinbase height notes]) hash height
    {[ mkOutPoint tx_hash 0 := OrderedUtxo_new (mkOutput 5 [Byte.x2a]) height 0 ]} ∅ [tx_hash]
    (from_transparent_amount 5).

Definition block1 := block 10 [Byte.x01] [Byte.x11] [[Byte.xa1; Byte.xa2]].
Definition block2 := block 11 [Byte.x02] [Byte.x12] [[Byte.xa3; Byte.xa4]].
Definition block2' := block 11 [Byte.x03] [Byte.x13] [].

Definition get {E A} (d : A) (m : res E A) : A := match m with Ok a => a | _ => d end.
Definition empty_chain : chain :=
  mkChain Mainnet (mkChainInner [] ∅ empty_indexes empty_tree_index ∅ empty_tree_index empty_tree_index [] [] [] 0
                     value_balance_zero []) None.
Definition chain0 : chain := get empty_chain (Chain_new Mainnet 9 [] [] [] 0%nat value_balance_zero).
Definition chain1 : chain := get empty_chain (push chain0 block1).
Definition chain2 : chain := get empty_chain (push chain1 block2).

Definition is_ok {E A} (m : res E A) : bool := match m with Ok _ => true | _ => false end.
Lemma get_ok {E A} (d : A) (m : res E A) : is_ok m = true -> m = Ok (get d m).
Proof. by destruct m. Qed.
Lemma get_third {E A B C} (d : C) (m : res E (A * B * C)) :
  is_ok m = true -> exists a b, m = Ok (a, b, match m with Ok (_, _, c) => c | _ => d end).
Proof. destruct m as [[[a b] c]| |]; [by exists a, b|done..]. Qed.

Lemma push1 : push chain0 block1 = Ok chain1.
Proof. apply get_ok. vm_compute. reflexivity. Qed.
Lemma push2 : push chain1 block2 = Ok chain2.
Proof. apply get_ok. vm_compute. reflexivity. Qed.

Lemma chain0_ok : chain_ok (inner chain0).
Proof.
  split.
  - apply map_Forall_empty.
  - split.
    + intros a. change (anchors (sprout_index (inner chain0))) with (∅ ⊎ {[+ [] +]} : gmultiset bytes).
      change (sprout_trees_by_anchor (inner chain0)) with (<[[] := []]> ∅ : gmap bytes bytes).
      rewrite lookup_insert_is_Some, lookup_empty. split; [|intros [<-|[_ [? ?]]]; [multiset_solver|done]].
      intros Ha. left. multiset_solver.
    + intros a t. change (sprout_trees_by_anchor (inner chain0)) with (<[[] := []]> ∅ : gmap bytes bytes).
      intros [[<- <-]|[_ Ht]]%lookup_insert_Some; [done|]. by rewrite lookup_empty in Ht.
  - repeat split; vm_compute; congruence.
  - vm_compute. split; congruence.
Qed.

Lemma chain0_below : heights_below 10 (inner chain0).
Proof. split; unfold bt_below; cbn; repeat constructor. Qed.

(** Every example block moves 5 to one address. *)
Definition example_ops (b : ContextuallyVerifiedBlock) : list index_op :=
  block_ops output_address Mainnet (cv_height b) (cv_new_outputs b) (cv_spent_outputs b) (cv_block b)
    (cv_transaction_hashes b).
Definition small_ops (ops : list index_op) : Prop :=
  forall a, 0 <= sum_Z (op_delta a) ops <= 5 /\ 0 <= sum_Z (fun op => Z.abs (op_delta a op)) ops <= 5.

Lemma small_block1 : small_ops (example_ops block1).
Proof. vm_compute example_ops. intros a. cbn. case_decide; cbn; lia. Qed.
Lemma small_block2 : small_ops (example_ops block2).
Proof. vm_compute example_ops. intros a. cbn. case_decide; cbn; lia. Qed.

Lemma volume1 : volume_bounded Mainnet (inner chain0) block1.
Proof.
  intros a. pose proof (small_block1 a) as [_ Hs].
  change (Z.abs 0 + sum_Z (fun op => Z.abs (op_delta a op)) (example_ops block1) <= MAX_MONEY). amount_lia.
Qed.

Lemma chain1_ok : chain_ok (inner chain1) /\ heights_below 11 (inner chain1).
Proof.
  apply (push_ok chain0 block1); [apply chain0_ok|apply chain0_below| |apply volume1|apply push1].
  repeat split; vm_compute; congruence.
Qed.

Lemma volume2 : volume_bounded Mainnet (inner chain1) block2.
Proof.
  intros a. pose proof (small_block2 a) as [_ Hs].
  destruct (push_inv _ _ _ push1) as (i1 & ? & ? & ? & Hu & _ & _ & _ & _ & _ & _ & -> & _).
  apply update_except_trees_inv in Hu as (? & _ & _ & _ & _ & Htx & _).
  rewrite (update_transactions_balance _ _ _ _ _ _ _ _ _ a Htx).
  pose proof (small_block1 a) as [Hd _].
  change (Z.abs (0 + sum_Z (op_delta a) (example_ops block1))
          + sum_Z (fun op => Z.abs (op_delta a op)) (example_ops block2) <= MAX_MONEY). amount_lia.
Qed.

Lemma extends2 : extends chain1 [block2] chain2.
Proof.
  apply (extends_snoc chain1 [] chain1); [constructor|apply chain1_ok| |apply volume2|apply push2].
  repeat split; vm_compute; congruence.
Qed.
Lemma pop_tip_push_witness :
  pop_tip chain2
  = Ok (with_inner chain1 (with_subtrees_of (inner chain2) (inner chain1))).
Proof.
  apply (pop_tip_push chain1 block2 chain2).
  - apply chain1_ok.
  - apply chain1_ok.
  - vm_compute. discriminate.
  - repeat split; vm_compute; congruence.
  - apply volume2.
  - apply push2.
Defined.

Lemma fork_restores_witness :
  exists f, fork chain2 [Byte.x01]
    = Ok (Some (mkChain Mainnet (with_subtrees_of (inner chain2) (inner chain1)) f)) /\ f = Some 10.
Proof.
  destruct (fork_restores chain1 [block2] chain2 [Byte.x01]) as (f & Hf & _ & Hh).
  - apply extends2.
  - apply chain1_ok.
  - vm_compute. discriminate.
  - vm_compute. reflexivity.
  - vm_compute. eauto.
  - exists f. split; [exact Hf|]. destruct Hh as (h & Hh & ->); [discriminate|].
    vm_compute in Hh. injection Hh as <-. reflexivity.
Defined.

(** The chain that forks off before [block2], with [block2'], which has no
    shielded data, instead. *)
Definition forked : chain := default empty_chain (get None (fork chain2 [Byte.x01])).
Definition chain2' : chain := get empty_chain (push forked block2').

(** A subtree completed by a reverted block stays in the forked chain:
    after forking below [block2] and pushing a block without shielded data at
    the same height, the chain reports the subtree of [block2] as completed at
    that height, in its tip treestate too, although no tree of the chain has
    that root. *)
Theorem stale_subtree_after_fork :
  is_ok (push forked block2') = true
  /\ sapling_subtree (inner chain2') (Height 11) = Some (0, (11, [Byte.xa1; Byte.xa2; Byte.xa3; Byte.xa4]))
  /\ (treestate (inner chain2') (Height 11) ≫= fun t => nct_sapling_subtree (treestate_trees t))
     = Some (0, (11, [Byte.xa1; Byte.xa2; Byte.xa3; Byte.xa4]))
  /\ Forall (fun e => e.2 = [] \/ e.2 = [Byte.xa1; Byte.xa2]) (trees_by_height (sapling_index (inner chain2'))).
Proof. vm_compute. split_and!; try reflexivity. repeat (constructor; [by auto|]). constructor. Qed.
End Example.
