(* ===== verification/ChainRepr.v ===== *)
(** A non-finalized chain is a list of blocks: every index of a [Chain] is a
    function of its blocks, and pushing, popping the root, popping the tip and
    forking are operations on the list.

    This is the refinement that the non-finalized state relies on: on a
    represented chain, [pop_root], [pop_tip] and [fork] never panic. *)
From S2P Require Import Prelude BTreeMap Height Amount ValueBalance Difficulty NetworkUpgrade BlockHeader Transaction BlockCommitment TransparentIndex ChainIndexes Chain.
From stdpp Require Import strings gmap gmultiset prelude.
From Stdlib Require Import ZArith Lia.
#[local] Open Scope Z_scope.

(** ** The trees of one pool *)

Lemma bt_remove_perm {V} h (a : V) (m : btree V) :
  bt_sorted m -> bt_get h m = Some a -> m.*2 ≡ₚ a :: (bt_remove h m).*2.
Proof.
  induction m as [|[k v] m IH]; [done|]. intros [Hs Hf]%bt_sorted_cons Hget. cbn in Hget.
  unfold bt_remove in *. destruct (Z.eqb_spec h k) as [->|Hne].
  - rewrite filter_cons_False by (cbn; lia). simplify_eq. cbn. f_equiv.
    rewrite filter_all; [done|]. eapply Forall_impl; [exact Hf|]. cbn. intros. lia.
  - rewrite filter_cons_True by (cbn; lia). cbn. rewrite (IH Hs Hget). apply Permutation_swap.
Qed.

Lemma bt_get_filter {V} (P : Z * V -> Prop) `{forall x, Decision (P x)} h (m : btree V) :
  (forall v, P (h, v)) -> bt_get h (filter P m) = bt_get h m.
Proof.
  intros HP. induction m as [|[k v] m IH]; [done|]. rewrite filter_cons. cbn [bt_get].
  destruct (Z.eqb_spec h k) as [->|Hne].
  - rewrite decide_True by done. cbn. by rewrite Z.eqb_refl.
  - case_decide; cbn [bt_get]; [|done]. by rewrite (proj2 (Z.eqb_neq h k)).
Qed.

Lemma bt_get_remove {V} h k (m : btree V) : k <> h -> bt_get k (bt_remove h m) = bt_get k m.
Proof. intros Hne. apply bt_get_filter. by intros v. Qed.

Section TreeRepr.
Context {T : Type} `{NoteTree T} `{BuildProfile}.
Implicit Types (ix : TreeIndex T) (hs : list Z).

(** The maps are ordered, and the multiset counts the anchors of all heights. *)
Record tree_maps ix : Prop := {
  tm_trees : bt_sorted (trees_by_height ix);
  tm_anchors : bt_sorted (anchors_by_height ix);
  tm_multiset : anchors ix = list_to_set_disj (anchors_by_height ix).*2
}.

Lemma tree_at_Some ix h e : e ∈ trees_by_height ix -> e.1 <= h -> is_Some (tree_at ix h).
Proof.
  intros He Hh. unfold tree_at. apply fmap_is_Some. apply last_is_Some. intros Hn.
  assert (e ∈ filter (fun e => e.1 <= h) (trees_by_height ix)) as Hin by (by apply list_elem_of_filter).
  rewrite Hn in Hin. by apply not_elem_of_nil in Hin.
Qed.

(** Removing the anchor of one height. *)
Lemma remove_anchor_repr ix h a :
  tree_maps ix -> bt_get h (anchors_by_height ix) = Some a ->
  exists ix', remove_anchor ix h = Ok (a, ix') /\ tree_maps ix'
    /\ anchors ix = {[+ a +]} ⊎ anchors ix'
    /\ anchors_by_height ix' = bt_remove h (anchors_by_height ix)
    /\ trees_by_height ix' = bt_remove h (trees_by_height ix).
Proof.
  intros [Ht Ha Hm] Hget.
  assert (anchors ix = {[+ a +]} ⊎ list_to_set_disj (bt_remove h (anchors_by_height ix)).*2) as Hm'.
  { rewrite Hm. by rewrite (bt_remove_perm h a). }
  unfold remove_anchor. rewrite Hget. cbn [unwrap mbind res_bind].
  rewrite bool_decide_eq_true_2 by multiset_solver. cbn [assert_ mbind res_bind].
  eexists. split; [done|]. cbn. assert (anchors ix ∖ {[+ a +]} = list_to_set_disj (bt_remove h (anchors_by_height ix)).*2)
    as Hd by multiset_solver. rewrite Hd. split; [|done].
  split; cbn; [by apply bt_filter_sorted..|done].
Qed.

(** Removing the anchors of a list of heights, for the sprout pool with the
    map from anchors to trees. *)
Lemma remove_anchors_repr hs ix :
  tree_maps ix -> NoDup hs -> (forall h, h ∈ hs -> is_Some (bt_get h (anchors_by_height ix))) ->
  exists ix', foldM (fun ix h => snd <$> remove_anchor ix h) ix hs = Ok ix' /\ tree_maps ix'
    /\ anchors_by_height ix' = filter (fun e => e.1 ∉ hs) (anchors_by_height ix)
    /\ trees_by_height ix' = filter (fun e => e.1 ∉ hs) (trees_by_height ix).
Proof.
  revert ix. induction hs as [|h hs IH]; intros ix Hix Hnd Hin; cbn [foldM].
  { exists ix. split_and!; try done; symmetry; apply filter_all, Forall_forall; intros ? _ ?%not_elem_of_nil; done. }
  apply NoDup_cons in Hnd as [Hni Hnd]. destruct (Hin h) as [a Ha]; [left|].
  destruct (remove_anchor_repr _ _ _ Hix Ha) as (ix1 & -> & Hix1 & _ & Ea & Et). cbn [fmap res_fmap snd mbind res_bind].
  destruct (IH ix1 Hix1 Hnd) as (ix2 & -> & Hix2 & Ea2 & Et2).
  { intros k Hk. rewrite Ea, bt_get_remove; [apply Hin; by right|]. by intros ->. }
  exists ix2. split; [done|]. split; [done|]. rewrite Ea2, Et2, Ea, Et. unfold bt_remove. rewrite !list_filter_filter.
  split; apply list_filter_iff', Forall_forall; intros e _; rewrite not_elem_of_cons; tauto.
Qed.

Definition remove_sprout_anchor '(ix, by_anchor) (h : Z) : outcome (TreeIndex T * gmap bytes T) :=
  '(anchor, ix) ← remove_anchor ix h;
  Ok (ix, if bool_decide (anchor ∈ anchors ix) then by_anchor else delete anchor by_anchor).

Lemma remove_sprout_anchors_repr hs ix by_anchor :
  tree_maps ix -> anchors_indexed ix by_anchor -> NoDup hs ->
  (forall h, h ∈ hs -> is_Some (bt_get h (anchors_by_height ix))) ->
  exists ix' by_anchor', foldM remove_sprout_anchor (ix, by_anchor) hs = Ok (ix', by_anchor')
    /\ foldM (fun ix h => snd <$> remove_anchor ix h) ix hs = Ok ix' /\ anchors_indexed ix' by_anchor'.
Proof.
  revert ix by_anchor. induction hs as [|h hs IH]; intros ix by_anchor Hix Hidx Hnd Hin; cbn [foldM]; [by eauto|].
  apply NoDup_cons in Hnd as [Hni Hnd]. destruct (Hin h) as [a Ha]; [left|].
  destruct (remove_anchor_repr _ _ _ Hix Ha) as (ix1 & Hr & Hix1 & Em & Ea & Et).
  unfold remove_sprout_anchor at 2. rewrite Hr. cbn [fmap res_fmap snd mbind res_bind].
  apply IH; [done| |done|].
  - destruct Hidx as [H1 H2]. split.
    + intros b. destruct (decide (b = a)) as [->|Hne].
      * case_bool_decide as Hb; [|rewrite lookup_delete_eq; split; [done|by intros []]].
        split; [|done]. intros _. apply H1. multiset_solver.
      * assert (b ∈ anchors ix1 <-> b ∈ anchors ix) as -> by multiset_solver. rewrite H1.
        case_bool_decide; [done|]. by rewrite lookup_delete_ne.
    + intros b t. case_bool_decide; [apply H2|]. intros [_ Hb]%lookup_delete_Some. by apply H2.
  - intros k Hk. rewrite Ea, bt_get_remove; [apply Hin; by right|]. by intros ->.
Qed.

(** The trees and anchors of a chain with blocks at the heights [hs]: every
    block has its anchor, and the first block has its tree. *)
Record tree_repr ix hs : Prop := {
  tr_maps : tree_maps ix;
  tr_heights : forall h, h ∈ hs -> is_Some (bt_get h (anchors_by_height ix));
  tr_first : forall h, head hs = Some h -> exists e, e ∈ trees_by_height ix /\ e.1 <= h
}.

Lemma bt_insert_perm {V} h (v : V) (m : btree V) : bt_sorted m -> bt_get h m = None -> (bt_insert h v m).*2 ≡ₚ v :: m.*2.
Proof.
  intros Hs Hn. rewrite (bt_remove_perm h v) by (by apply bt_insert_sorted || by rewrite bt_get_insert, Z.eqb_refl).
  by rewrite bt_remove_insert.
Qed.

Lemma add_tree_maps ix h t ix' :
  tree_maps ix -> add_tree_and_anchor ix h t = Ok ix' ->
  tree_maps ix' /\ (forall e, e ∈ trees_by_height ix -> e ∈ trees_by_height ix')
  /\ bt_get h (anchors_by_height ix') = Some (tree_root t)
  /\ (forall k, is_Some (bt_get k (anchors_by_height ix)) -> is_Some (bt_get k (anchors_by_height ix'))).
Proof.
  intros [Ht Ha Hm] (Et & Em & Hn & Ea)%add_tree_and_anchor_inv. split_and!; [split|..].
  - destruct Et as [->|[_ ->]]; [done|]. by apply bt_insert_sorted.
  - rewrite Ea. by apply bt_insert_sorted.
  - rewrite Em, Hm, Ea, (bt_insert_perm h (tree_root t) _ Ha Hn), list_to_set_disj_cons. apply (comm_L (⊎)).
  - intros e He. destruct Et as [->|[Hfresh ->]]; [done|]. apply bt_insert_elem; [done|].
    right. split; [done|]. rewrite bt_get_None in Hfresh. auto.
  - by rewrite Ea, bt_get_insert, Z.eqb_refl.
  - intros k Hk. rewrite Ea, bt_get_insert. by case_match.
Qed.

Lemma add_tree_repr ix h t ix' hs :
  tree_repr ix hs -> (hs = [] -> exists e, e ∈ trees_by_height ix /\ e.1 <= h) ->
  add_tree_and_anchor ix h t = Ok ix' -> tree_repr ix' (hs ++ [h]).
Proof.
  intros [Hix Hh Hf] Hne Hadd. destruct (add_tree_maps _ _ _ _ Hix Hadd) as (Hix' & Hsub & Hnew & Hold).
  split; [done|..].
  - intros k [Hk|Hk%list_elem_of_singleton]%elem_of_app; [auto|subst k]. by rewrite Hnew.
  - intros k Hk. destruct hs as [|h0 hs]; cbn in Hk; simplify_eq.
    + destruct (Hne eq_refl) as (e & ? & ?). eauto.
    + destruct (Hf _ eq_refl) as (e & ? & ?). eauto.
Qed.

(** The tree of a new chain is stored at the finalized tip. *)
Lemma add_first_tree h t :
  valid_height h ->
  exists ix', add_tree_and_anchor empty_tree_index h t = Ok ix' /\ tree_repr ix' [] /\ (h, t) ∈ trees_by_height ix'.
Proof.
  intros Hv. assert (tree_changed empty_tree_index h t = Ok true) as Hc.
  { unfold tree_changed, height_is_min. destruct (Z.eqb_spec h Height_MIN) as [|Hne]; [done|].
    rewrite height_previous_spec by done. unfold valid_height, Height_MIN in *.
    rewrite (proj2 (Z.ltb_lt 0 h)) by lia. done. }
  unfold add_tree_and_anchor. rewrite Hc. cbn [mbind res_bind insert_once bt_get is_none assert_ empty_tree_index
    trees_by_height anchors anchors_by_height]. eexists. split; [done|]. split; [|by left].
  split; [split|..]; cbn [trees_by_height anchors anchors_by_height].
  - apply bt_sorted_cons. split; constructor.
  - apply bt_sorted_cons. split; constructor.
  - rewrite (left_id_L ∅ (⊎)). cbn [bt_insert fmap list_fmap snd]. by rewrite list_to_set_disj_cons, list_to_set_disj_nil, (right_id_L ∅ (⊎)).
  - by intros k ?%not_elem_of_nil.
  - by intros k [=].
Qed.

(** Popping the root: the heights up to the root go, and the tree of the root
    moves to the next block. *)
Lemma root_heights_NoDup ix h : tree_maps ix -> NoDup (removed_heights ix Root h).
Proof.
  intros [_ Ha _]. cbn. apply NoDup_filter. unfold bt_sorted in Ha.
  induction Ha as [|e m Hs IH Hf]; [constructor|]. cbn. constructor; [|done].
  intros (x & Hx & Hin)%list_elem_of_fmap. rewrite Forall_forall in Hf. specialize (Hf x Hin). lia.
Qed.
Lemma root_heights_elem ix h k :
  k ∈ removed_heights ix Root h <-> k <= h /\ is_Some (bt_get k (anchors_by_height ix)).
Proof.
  cbn. rewrite list_elem_of_filter, list_elem_of_fmap. split.
  - intros [Hle (e & -> & He)]. split; [done|]. destruct (bt_get e.1 _) eqn:Eg; [by eexists|].
    rewrite bt_get_None in Eg. exfalso. by apply (Eg e).
  - intros [Hle [a Ha%bt_get_Some_elem]]. split; [done|]. by exists (k, a).
Qed.

Lemma move_tree_up_repr ix highest h hs :
  tree_maps ix -> (forall k, k ∈ hs -> is_Some (bt_get k (anchors_by_height ix))) ->
  is_Some highest -> valid_height h -> (forall k, k ∈ hs -> h < k <= Height_MAX) ->
  (hs <> [] -> head hs = Some (h + 1)) ->
  exists ix', move_tree_up ix highest h (last hs) = Ok ix' /\ tree_repr ix' hs
    /\ anchors ix' = anchors ix.
Proof.
  intros Hix Hh [t ->] Hv Hall Hhead. unfold move_tree_up. destruct (last hs) as [tip|] eqn:Etip; cycle 1.
  { apply last_None in Etip as ->. exists ix. split; [done|]. split; [|done]. split; [done..|]. by intros ? [=]. }
  assert (hs <> []) as Hne by (by intros ->). specialize (Hhead Hne). apply last_Some_elem_of in Etip as Htip%Hall.
  rewrite (proj2 (Z.ltb_lt h tip)) by lia. unfold valid_height in Hv. rewrite Height_MAX_value in *. unfold Height_MIN in Hv.
  rewrite height_next_spec by width_lia. rewrite Height_MAX_value.
  rewrite (proj2 (Z.ltb_lt _ _)) by lia. cbn [expect mbind res_bind].
  destruct (bt_get (h + 1) (trees_by_height ix)) as [u|] eqn:Eu; cbn [unwrap mbind res_bind].
  - exists ix. split; [done|]. split; [|done]. split; [done..|]. intros k. rewrite Hhead. intros [= <-].
    exists (h + 1, u). split; [by apply bt_get_Some_elem|]. cbn. lia.
  - eexists. split; [done|]. split; [|done]. destruct Hix as [Ht Ha Hm]. split; [split|..]; cbn; [|done..|].
    + by apply bt_insert_sorted.
    + intros k. rewrite Hhead. intros [= <-]. exists (h + 1, t). split; [|cbn; lia].
      apply bt_get_Some_elem. by rewrite bt_get_insert, Z.eqb_refl.
Qed.

Definition heights_from (h : Z) hs : Prop :=
  valid_height h /\ (forall k, k ∈ hs -> h < k <= Height_MAX) /\ (hs <> [] -> head hs = Some (h + 1)).

Lemma remove_root_repr ix h hs :
  tree_repr ix (h :: hs) -> heights_from h hs ->
  exists ix', remove_tree_and_anchor ix Root h (last hs) = Ok ix' /\ tree_repr ix' hs.
Proof.
  intros [Hix Hh Hf] (Hv & Hall & Hhead). unfold remove_tree_and_anchor.
  destruct (remove_anchors_repr (removed_heights ix Root h) ix Hix) as (ix1 & -> & Hix1 & Ea & Et).
  { by apply root_heights_NoDup. }
  { intros k [_ ?]%root_heights_elem. done. }
  cbn [mbind res_bind highest_removed_tree]. destruct (Hf h eq_refl) as (e & He & Hle).
  destruct (move_tree_up_repr ix1 (tree_at ix h) h hs Hix1) as (ix2 & Hmove & Hrep & _); [| |done..|eauto].
  - intros k Hk. rewrite Ea, bt_get_filter; [apply Hh; by right|].
    intros v. cbn [fst]. rewrite root_heights_elem. intros [Hle' _]. specialize (Hall k Hk). lia.
  - by eapply tree_at_Some.
Qed.

Lemma remove_sprout_root_repr ix by_anchor h hs :
  tree_repr ix (h :: hs) -> anchors_indexed ix by_anchor -> heights_from h hs ->
  exists ix' by_anchor', remove_sprout_tree_and_anchor ix by_anchor Root h (last hs) = Ok (ix', by_anchor')
    /\ tree_repr ix' hs /\ anchors_indexed ix' by_anchor'.
Proof.
  intros Hrep Hidx (Hv & Hall & Hhead). pose proof Hrep as [Hix Hh Hf]. unfold remove_sprout_tree_and_anchor.
  destruct (remove_sprout_anchors_repr (removed_heights ix Root h) ix by_anchor Hix Hidx)
    as (ix1 & ba1 & Hfold & Hfold' & Hidx1).
  { by apply root_heights_NoDup. }
  { intros k [_ ?]%root_heights_elem. done. }
  change (foldM _ (ix, by_anchor) ?l) with (foldM remove_sprout_anchor (ix, by_anchor) l). rewrite Hfold.
  cbn [mbind res_bind highest_removed_tree]. destruct (Hf h eq_refl) as (e & He & Hle).
  destruct (remove_anchors_repr (removed_heights ix Root h) ix Hix) as (ix1' & Hfold'' & Hix1 & Ea & Et).
  { by apply root_heights_NoDup. }
  { intros k [_ ?]%root_heights_elem. done. }
  rewrite Hfold' in Hfold''. injection Hfold'' as <-.
  destruct (move_tree_up_repr ix1 (tree_at ix h) h hs Hix1) as (ix2 & Hmove & Hrep2 & Em); [| |done..|].
  - intros k Hk. rewrite Ea, bt_get_filter; [apply Hh; by right|].
    intros v. cbn [fst]. rewrite root_heights_elem. intros [Hle' _]. specialize (Hall k Hk). lia.
  - by eapply tree_at_Some.
  - rewrite Hmove. cbn [mbind res_bind]. exists ix2, ba1. split; [done|]. split; [done|].
    unfold anchors_indexed in *. by rewrite Em.
Qed.

(** Popping the tip. *)
Lemma remove_tip_anchors ix h hs :
  tree_repr ix (hs ++ [h]) -> hs <> [] -> (forall k, k ∈ hs -> k < h) ->
  exists ix', foldM (fun ix h => snd <$> remove_anchor ix h) ix [h] = Ok ix' /\ tree_repr ix' hs.
Proof.
  intros [Hix Hh Hf] Hne Hlt.
  destruct (remove_anchors_repr [h] ix Hix) as (ix1 & Hfold & Hix1 & Ea & Et).
  { apply NoDup_singleton. }
  { intros k ->%list_elem_of_singleton. apply Hh, elem_of_app. right. by apply list_elem_of_singleton. }
  exists ix1. split; [exact Hfold|]. split; [done|..].
  - intros k Hk. rewrite Ea, bt_get_filter; [apply Hh, elem_of_app; by left|].
    intros v Hv%list_elem_of_singleton. cbn in Hv. specialize (Hlt k Hk). lia.
  - intros k Hk. destruct hs as [|h0 hs]; [done|]. cbn in Hk. simplify_eq.
    destruct (Hf k eq_refl) as (e & He & Hle). exists e. split; [|done]. rewrite Et. apply list_elem_of_filter.
    split; [|done]. intros Hv%list_elem_of_singleton. specialize (Hlt k ltac:(left)). lia.
Qed.

Lemma remove_tip_repr ix h hs tip :
  tree_repr ix (hs ++ [h]) -> hs <> [] -> (forall k, k ∈ hs -> k < h) -> (forall t, tip = Some t -> t <= h) ->
  exists ix', remove_tree_and_anchor ix Tip h tip = Ok ix' /\ tree_repr ix' hs.
Proof.
  intros Hrep Hne Hlt Htip. destruct (remove_tip_anchors ix h hs Hrep Hne Hlt) as (ix' & Hfold & Hrep').
  exists ix'. split; [|done]. unfold remove_tree_and_anchor. cbn [removed_heights]. rewrite Hfold.
  cbn [mbind res_bind highest_removed_tree]. by apply move_tree_up_tip.
Qed.

Lemma remove_sprout_tip_repr ix by_anchor h hs tip :
  tree_repr ix (hs ++ [h]) -> anchors_indexed ix by_anchor -> hs <> [] -> (forall k, k ∈ hs -> k < h) ->
  (forall t, tip = Some t -> t <= h) ->
  exists ix' by_anchor', remove_sprout_tree_and_anchor ix by_anchor Tip h tip = Ok (ix', by_anchor')
    /\ tree_repr ix' hs /\ anchors_indexed ix' by_anchor'.
Proof.
  intros Hrep Hidx Hne Hlt Htip. destruct (remove_tip_anchors ix h hs Hrep Hne Hlt) as (ix' & Hfold & Hrep').
  destruct (remove_sprout_anchors_repr [h] ix by_anchor (tr_maps _ _ Hrep) Hidx) as (ix1 & ba1 & Hs & Hfold' & Hidx1).
  { apply NoDup_singleton. }
  { intros k ->%list_elem_of_singleton. apply (tr_heights _ _ Hrep), elem_of_app. right. by apply list_elem_of_singleton. }
  rewrite Hfold in Hfold'. injection Hfold' as <-. exists ix', ba1. split; [|done].
  unfold remove_sprout_tree_and_anchor. cbn [removed_heights].
  change (foldM _ (ix, by_anchor) ?l) with (foldM remove_sprout_anchor (ix, by_anchor) l). rewrite Hs.
  cbn [mbind res_bind highest_removed_tree]. by rewrite move_tree_up_tip.
Qed.
End TreeRepr.

(** ** Chains *)

Section ChainRepr.
Context {SproutT SaplingT OrchardT HistoryT : Type}
  `{!NoteTree SproutT} `{!NoteTree SaplingT} `{!SubtreeTree SaplingT} `{!NoteTree OrchardT} `{!SubtreeTree OrchardT}
  `{!HistoryTreeOps HistoryT} `{!ChainContext} `{BuildProfile} `{!NoteTreeLaws SproutT}.
Abbreviation chain_inner := (ChainInner SproutT SaplingT OrchardT HistoryT).
Abbreviation chain := (Chain SproutT SaplingT OrchardT HistoryT).
Implicit Types (c : chain) (i : chain_inner) (b : ContextuallyVerifiedBlock) (bs : list ContextuallyVerifiedBlock).

Definition ops_of (network : Network) b : list index_op :=
  block_ops output_address network (cv_height b) (cv_new_outputs b) (cv_spent_outputs b) (cv_block b)
    (cv_transaction_hashes b).

(** What a chain needs of a block to be able to take it back. *)
Definition block_ok (network : Network) b : Prop :=
  block_transactions_ok output_address network (cv_new_outputs b) (cv_spent_outputs b) (cv_block b) (cv_transaction_hashes b)
  /\ (exists work, block_work b = Ok work /\ 0 <= work)
  /\ pools_in NegativeAllowed (cv_chain_value_pool_change b).
Definition work_of b : Z := match block_work b with Ok work => work | _ => 0 end.

(** Consecutive heights. *)
Fixpoint heights_chain (hs : list Z) : Prop :=
  match hs with
  | [] => True
  | h :: hs' => heights_from h hs' /\ heights_chain hs'
  end.

(** The blocks [bs] are valid as a chain, whatever the indexes. *)
Record blocks_ok (network : Network) bs : Prop := {
  bo_heights : heights_chain (cv_height <$> bs);
  bo_hashes : NoDup (cv_hash <$> bs);
  bo_blocks : Forall (block_ok network) bs;
  bo_volume : forall a, sum_Z (fun op => Z.abs (op_delta a op)) (mbind (ops_of network) bs) <= MAX_MONEY
}.

(** The indexes are those of the blocks [bs]. *)
Record inner_repr (network : Network) i bs : Prop := {
  ir_blocks : blocks i = (fun b => (cv_height b, b)) <$> bs;
  ir_hashes : height_by_hash i = list_to_map ((fun b => (cv_hash b, cv_height b)) <$> bs);
  ir_indexes : foldO apply_op empty_indexes (mbind (ops_of network) bs) = Some (tx_indexes i);
  ir_sprout : tree_repr (sprout_index i) (cv_height <$> bs);
  ir_sprout_anchors : anchors_indexed (sprout_index i) (sprout_trees_by_anchor i);
  ir_sapling : tree_repr (sapling_index i) (cv_height <$> bs);
  ir_orchard : tree_repr (orchard_index i) (cv_height <$> bs);
  ir_history : forall b, b ∈ bs -> is_Some (bt_get (cv_height b) (history_trees_by_height i));
  ir_work : partial_cumulative_work i = sum_Z work_of bs /\ sum_Z work_of bs <= u128_MAX;
  ir_pools : exists base, pools_in NonNegative base
    /\ foldM add_chain_value_pool_change base (cv_chain_value_pool_change <$> bs) = Ok (chain_value_pools i)
}.

Record chain_repr c bs : Prop := {
  cr_ok : blocks_ok (chain_network c) bs;
  cr_inner : inner_repr (chain_network c) (inner c) bs
}.

Lemma blocks_ok_tail network b bs : blocks_ok network (b :: bs) -> blocks_ok network bs.
Proof.
  intros [Hh Hn Hb Hv]. split.
  - apply Hh.
  - by apply NoDup_cons in Hn as [_ ?].
  - by apply Forall_cons in Hb as [_ ?].
  - intros a. specialize (Hv a). cbn [mbind list_bind] in Hv. rewrite sum_Z_app in Hv.
    assert (0 <= sum_Z (fun op => Z.abs (op_delta a op)) (ops_of network b)); [|lia].
    apply sum_Z_nonneg, Forall_forall. intros. lia.
Qed.

Lemma empty_no_transfers : no_empty_transfers empty_indexes.
Proof. apply map_Forall_empty. Qed.
Lemma empty_balance a : address_balance empty_indexes a = 0.
Proof. unfold address_balance, transfers_of, empty_indexes. cbn. by rewrite lookup_empty. Qed.

(** Taking a block out of the transaction indexes, wherever it is. *)
Lemma revert_transactions_repr network i b before after :
  blocks_ok network (before ++ b :: after) ->
  foldO apply_op empty_indexes (mbind (ops_of network) (before ++ b :: after)) = Some (tx_indexes i) ->
  exists t, revert_transactions output_address network (cv_new_outputs b) (cv_spent_outputs b) (tx_indexes i)
              (cv_block b) (cv_transaction_hashes b) = Ok t
    /\ foldO apply_op empty_indexes (mbind (ops_of network) (before ++ after)) = Some t.
Proof.
  intros [_ _ Hb Hv] Hf. apply Forall_app in Hb as [_ Hb]. apply Forall_cons in Hb as [(Hok & _) _].
  eapply (revert_transactions_prefix output_address network (cv_height b)); [apply empty_no_transfers|done| | |exact Hf].
  - fold (ops_of network b). rewrite !bind_app. cbn [mbind list_bind]. apply Permutation_app_swap_app.
  - intros a. rewrite empty_balance. cbn. apply Hv.
Qed.

Lemma work_sub_repr network b bs w :
  block_ok network b -> Forall (block_ok network) bs -> w = work_of b + sum_Z work_of bs -> w <= u128_MAX ->
  exists work, block_work b = Ok work /\ cumulative_work_sub w work = Ok (sum_Z work_of bs)
    /\ sum_Z work_of bs <= u128_MAX.
Proof.
  intros (_ & (work & Hw & Hpos) & _) Hbs -> Hmax. exists work.
  assert (work_of b = work) as Hwb by (unfold work_of; by rewrite Hw). rewrite Hwb in *.
  assert (0 <= sum_Z work_of bs).
  { apply sum_Z_nonneg. eapply Forall_impl; [exact Hbs|]. cbn. intros x (_ & (wx & Hx & ?) & _).
    unfold work_of. by rewrite Hx. }
  split; [done|]. split; [|lia]. unfold cumulative_work_sub.
  replace (work + sum_Z work_of bs - work) with (sum_Z work_of bs) by lia. by rewrite checked_in by lia.
Qed.

Lemma max_block_height_repr bs :
  fst <$> last ((fun b => (cv_height b, b)) <$> bs) = last (cv_height <$> bs).
Proof. rewrite !fmap_last. by destruct (last bs). Qed.

(** ** Popping the root *)

Lemma revert_root_repr network i b bs sapling orchard :
  blocks_ok network (b :: bs) -> inner_repr network i (b :: bs) ->
  exists i', revert_chain_with network
      (set_blocks ((fun b => (cv_height b, b)) <$> bs) (set_subtrees sapling orchard i)) b Root = Ok i'
    /\ inner_repr network i' bs.
Proof.
  intros Hok Hrep. destruct Hrep as [Ebl Ehash Hidx Hspr Hanch Hsap Horc Hhist [Ework Hmax] (base & Hbase & Hpools)].
  pose proof Hok as [[Hfrom Hhs] Hnd Hb _]. cbn [fmap list_fmap] in *.
  apply NoDup_cons in Hnd as [Hni Hnd]. apply Forall_cons in Hb as [Hbok Hb].
  assert ((list_to_map ((fun b => (cv_hash b, cv_height b)) <$> bs) : gmap bytes Z) !! cv_hash b = None) as Hfresh.
  { apply not_elem_of_list_to_map_1. by rewrite <- list_fmap_compose. }
  unfold revert_chain_with. cbn [set_blocks set_subtrees blocks height_by_hash partial_cumulative_work tx_indexes
    sprout_index sprout_trees_by_anchor sapling_index orchard_index history_trees_by_height sapling_subtrees
    orchard_subtrees chain_value_pools block_info_by_height].
  rewrite Ehash. cbn [list_to_map foldr]. rewrite bool_decide_eq_true_2 by (rewrite lookup_insert_eq; eauto).
  cbn [assert_ mbind res_bind]. rewrite delete_insert_id by done.
  destruct (work_sub_repr network b bs _ Hbok Hb Ework) as (work & -> & Hsub & Hmax'); [rewrite Ework; done|].
  cbn [mbind res_bind]. rewrite Hsub. cbn [mbind res_bind].
  destruct (revert_transactions_repr network i b [] bs Hok Hidx) as (t & -> & Ht). cbn [mbind res_bind].
  unfold max_block_height. cbn [blocks set_blocks]. rewrite max_block_height_repr.
  destruct (remove_sprout_root_repr _ _ _ _ Hspr Hanch Hfrom) as (six & sba & -> & Hspr' & Hanch'). cbn [mbind res_bind].
  destruct (remove_root_repr _ _ _ Hsap Hfrom) as (sapx & -> & Hsap'). cbn [mbind res_bind].
  destruct (remove_root_repr _ _ _ Horc Hfrom) as (orcx & -> & Horc'). cbn [mbind res_bind remove_history_tree].
  cbn [revert_value_pools mbind res_bind]. eexists. split; [done|]. split; cbn; try done.
  - intros b' Hb'. rewrite bt_get_filter; [apply Hhist; by right|]. intros v. cbn.
    apply Hfrom. by apply list_elem_of_fmap_2.
  - apply bind_Ok_inv in Hpools as (base' & Hadd & Hpools). exists base'. split; [|done].
    destruct Hbok as (_ & _ & Hchange).
    by apply add_chain_value_pool_change_Ok in Hadd as [-> ?].
Qed.

Lemma history_tree_repr network i bs b :
  inner_repr network i bs -> b ∈ bs -> is_Some (history_tree i (Height (cv_height b))).
Proof. intros Hrep Hb. cbn. by apply (ir_history _ _ _ Hrep). Qed.

Lemma tree_repr_first {T} `{NoteTree T} (ix : TreeIndex T) h hs : tree_repr ix (h :: hs) -> is_Some (tree_at ix h).
Proof. intros [_ _ Hf]. destruct (Hf h eq_refl) as (e & ? & ?). by eapply tree_at_Some. Qed.

Lemma treestate_repr network i b bs :
  inner_repr network i (b :: bs) -> is_Some (treestate i (Height (cv_height b))).
Proof.
  intros Hrep. pose proof Hrep as [_ _ _ Hspr _ Hsap Horc _ _ _]. cbn [fmap list_fmap] in *.
  destruct (tree_repr_first _ _ _ Hspr) as [t1 E1], (tree_repr_first _ _ _ Hsap) as [t2 E2],
    (tree_repr_first _ _ _ Horc) as [t3 E3].
  destruct (history_tree_repr _ _ _ b Hrep) as [t4 E4]; [left|].
  unfold treestate. cbn [height_or_else mbind option_bind]. rewrite E1, E2, E3. cbn [mbind option_bind].
  rewrite E4. cbn. eauto.
Qed.

Lemma blocks_map_get bs b :
  NoDup (cv_height <$> bs) -> b ∈ bs -> bt_get (cv_height b) ((fun b => (cv_height b, b)) <$> bs) = Some b.
Proof.
  intros Hnd Hb. induction bs as [|x bs IH]; [by apply not_elem_of_nil in Hb|]. cbn in *.
  apply NoDup_cons in Hnd as [Hni Hnd]. apply elem_of_cons in Hb as [->|Hb]; [by rewrite Z.eqb_refl|].
  rewrite (proj2 (Z.eqb_neq (cv_height b) (cv_height x))); [auto|].
  intros Heq. apply Hni. rewrite <- Heq. by apply list_elem_of_fmap_2.
Qed.

Lemma blocks_map_remove bs h :
  bt_remove h ((fun b => (cv_height b, b)) <$> bs) = (fun b => (cv_height b, b)) <$> filter (fun b => cv_height b <> h) bs.
Proof.
  unfold bt_remove. induction bs as [|x bs IH]; [done|]. cbn [fmap list_fmap]. rewrite !filter_cons. cbn [fst].
  repeat case_decide; cbn [fmap list_fmap]; by rewrite ?IH.
Qed.

Lemma heights_chain_NoDup hs : heights_chain hs -> NoDup hs.
Proof.
  induction hs as [|h hs IH]; [constructor|]. intros [(_ & Hall & _) Hhs]. constructor; [|auto].
  intros Hin%Hall. lia.
Qed.

Lemma pop_root_repr c b bs :
  chain_repr c (b :: bs) ->
  exists ts c', treestate (inner c) (Height (cv_height b)) = Some ts
    /\ pop_root c = Ok (b, ts, c') /\ chain_repr c' bs /\ chain_network c' = chain_network c.
Proof.
  intros [Hok Hrep]. pose proof Hok as [[Hfrom Hhs] _ _ _]. pose proof (ir_blocks _ _ _ Hrep) as Ebl.
  destruct (treestate_repr _ _ _ _ Hrep) as [ts Ets]. exists ts. unfold pop_root, non_finalized_root_height.
  rewrite Ebl. cbn [fmap list_fmap head option_fmap option_map fst unwrap mbind res_bind]. rewrite Ets.
  cbn [unwrap mbind res_bind blocks set_subtrees]. rewrite Ebl.
  change ((cv_height b, b) :: ((fun b => (cv_height b, b)) <$> bs)) with ((fun b => (cv_height b, b)) <$> (b :: bs)).
  rewrite (blocks_map_get (b :: bs) b); [|by apply heights_chain_NoDup|by left]. cbn [unwrap mbind res_bind].
  rewrite blocks_map_remove, filter_cons_False by (intros Hn; by apply Hn).
  rewrite filter_all; [|apply Forall_forall; intros x Hx; apply (list_elem_of_fmap_2 cv_height) in Hx;
    destruct Hfrom as (_ & Hall & _); specialize (Hall _ Hx); lia].
  destruct (revert_root_repr (chain_network c) (inner c) b bs
    (match nct_sapling_subtree (treestate_trees ts) with Some _ => tail (sapling_subtrees (inner c)) | None => sapling_subtrees (inner c) end)
    (match nct_orchard_subtree (treestate_trees ts) with Some _ => tail (orchard_subtrees (inner c)) | None => orchard_subtrees (inner c) end)
    Hok Hrep) as (i' & Hrev & Hrep').
  rewrite Hrev. cbn [mbind res_bind]. exists (with_inner c i'). split_and!; try done.
  split; [|done]. by eapply blocks_ok_tail.
Qed.

(** ** Popping the tip *)

Lemma heights_chain_snoc hs h :
  heights_chain (hs ++ [h]) <->
  heights_chain hs /\ valid_height h /\ (forall k, k ∈ hs -> k < h) /\ (forall t, last hs = Some t -> h = t + 1).
Proof.
  induction hs as [|k hs IH]; cbn [app heights_chain].
  - unfold heights_from. split.
    + intros [(Hv & _) _]. split_and!; try done. by intros k ?%not_elem_of_nil.
    + intros (_ & Hv & _). split_and!; try done. by intros k ?%not_elem_of_nil.
  - rewrite IH. unfold heights_from. clear IH. split.
    + intros [(Hv & Hall & Hhead) (Hhs & Hvh & Hlt & Hlast)]. split_and!; try done.
      * intros x Hx. apply Hall, elem_of_app. by left.
      * intros Hne. specialize (Hhead ltac:(by destruct hs)). by destruct hs.
      * intros x [->|Hx]%elem_of_cons; [|auto]. assert (k < h <= Height_MAX); [|lia]. apply Hall, elem_of_app. right. left.
      * intros t. rewrite last_cons. destruct (last hs) as [t'|] eqn:El.
        -- intros [= ->]. auto.
        -- apply last_None in El as ->. intros [= ->]. specialize (Hhead ltac:(done)). cbn in Hhead. congruence.
    + intros [[(Hv & Hall & Hhead) Hhs] (Hvh & Hlt & Hlast)]. split_and!; try done.
      * intros x [Hx|Hx%list_elem_of_singleton]%elem_of_app; [auto|subst x]. split; [apply Hlt; left|apply Hvh].
      * intros _. destruct hs as [|k' hs]; [|exact (Hhead ltac:(done))]. cbn. f_equal. apply Hlast. done.
      * intros x Hx. apply Hlt. by right.
      * intros t Ht. apply Hlast. rewrite last_cons. by rewrite Ht.
Qed.

Lemma blocks_ok_init network bs b : blocks_ok network (bs ++ [b]) -> blocks_ok network bs.
Proof.
  intros [Hh Hn Hb Hv]. rewrite fmap_app in Hh. rewrite fmap_app in Hn. split.
  - by apply heights_chain_snoc in Hh as [? _].
  - by apply NoDup_app in Hn as [? _].
  - by apply Forall_app in Hb as [? _].
  - intros a. specialize (Hv a). rewrite bind_app, sum_Z_app in Hv.
    assert (0 <= sum_Z (fun op => Z.abs (op_delta a op)) (mbind (ops_of network) [b])); [|lia].
    apply sum_Z_nonneg, Forall_forall. intros. lia.
Qed.

Lemma hash_map_snoc bs b :
  cv_hash b ∉ cv_hash <$> bs ->
  list_to_map ((fun b => (cv_hash b, cv_height b)) <$> (bs ++ [b]))
  = (<[cv_hash b := cv_height b]> (list_to_map ((fun b => (cv_hash b, cv_height b)) <$> bs)) : gmap bytes Z)
  /\ (list_to_map ((fun b => (cv_hash b, cv_height b)) <$> bs) : gmap bytes Z) !! cv_hash b = None.
Proof.
  intros Hni. rewrite fmap_app. cbn. assert (cv_hash b ∉ ((fun b => (cv_hash b, cv_height b)) <$> bs).*1) as Hni'.
  { by rewrite <- list_fmap_compose. }
  split; [by apply list_to_map_snoc|by apply not_elem_of_list_to_map_1].
Qed.

Lemma revert_tip_repr network i b bs :
  bs <> [] -> blocks_ok network (bs ++ [b]) -> inner_repr network i (bs ++ [b]) ->
  exists i', revert_chain_with network (set_blocks ((fun b => (cv_height b, b)) <$> bs) i) b Tip = Ok i'
    /\ inner_repr network i' bs.
Proof.
  intros Hne Hok [Ebl Ehash Hidx Hspr Hanch Hsap Horc Hhist [Ework Hmax] (base & Hbase & Hpools)].
  pose proof Hok as [Hhs Hnd Hb _]. rewrite fmap_app in Hhs, Hspr, Hsap, Horc.
  rewrite fmap_app in Hnd. rewrite fmap_app in Hpools. cbn [fmap list_fmap] in *.
  apply NoDup_app in Hnd as (_ & Hni & _). apply Forall_app in Hb as [Hb [Hbok _]%Forall_cons].
  apply heights_chain_snoc in Hhs as (_ & _ & Hlt & _).
  destruct (hash_map_snoc bs b) as [Esnoc Hfresh]; [intros Hin; by apply (Hni _ Hin), list_elem_of_singleton|].
  assert (cv_height <$> bs <> []) as Hne' by (by destruct bs).
  unfold revert_chain_with. cbn [set_blocks blocks height_by_hash partial_cumulative_work tx_indexes
    sprout_index sprout_trees_by_anchor sapling_index orchard_index history_trees_by_height sapling_subtrees
    orchard_subtrees chain_value_pools block_info_by_height].
  rewrite Ehash, Esnoc, bool_decide_eq_true_2 by (rewrite lookup_insert_eq; eauto).
  cbn [assert_ mbind res_bind]. rewrite delete_insert_id by done. rewrite sum_Z_app in Ework, Hmax. cbn in Ework, Hmax.
  destruct (work_sub_repr network b bs (partial_cumulative_work i) Hbok Hb) as (work & -> & Hsub & Hmax'); [lia..|].
  cbn [mbind res_bind]. rewrite Hsub. cbn [mbind res_bind].
  destruct (revert_transactions_repr network i b bs [] Hok Hidx) as (t & -> & Ht). rewrite app_nil_r in Ht. cbn [mbind res_bind].
  unfold max_block_height. cbn [blocks set_blocks]. rewrite max_block_height_repr.
  assert (forall t, last (cv_height <$> bs) = Some t -> t <= cv_height b) as Htip.
  { intros k Hk%last_Some_elem_of%Hlt. lia. }
  destruct (remove_sprout_tip_repr _ _ _ _ _ Hspr Hanch Hne' Hlt Htip) as (six & sba & -> & Hspr' & Hanch').
  cbn [mbind res_bind].
  destruct (remove_tip_repr _ _ _ _ Hsap Hne' Hlt Htip) as (sapx & -> & Hsap'). cbn [mbind res_bind].
  destruct (remove_tip_repr _ _ _ _ Horc Hne' Hlt Htip) as (orcx & -> & Horc'). cbn [mbind res_bind remove_history_tree].
  destruct (Hhist b) as [ht Eht]; [apply elem_of_app; right; left|]. rewrite Eht. cbn [unwrap mbind res_bind].
  rewrite foldM_app in Hpools. apply bind_Ok_inv in Hpools as (p1 & Hpools & (p2 & Hadd & Hp2)%bind_Ok_inv).
  cbn in Hp2. inv_res. destruct Hbok as (_ & _ & Hchange).
  assert (pools_in NonNegative p1) as Hp1.
  { eapply (foldM_inv _ (pools_in NonNegative)); [exact Hbase| |exact Hpools].
    intros x a x' Ha Hx Hx'. apply list_elem_of_fmap in Ha as (b' & -> & Hb').
    rewrite Forall_forall in Hb. destruct (Hb b' Hb') as (_ & _ & Hc).
    by apply add_chain_value_pool_change_Ok in Hx' as [-> ?]. }
  unfold revert_value_pools. rewrite (value_balance_neg_eq NegativeAllowed) by done. cbn [mbind res_bind].
  apply add_chain_value_pool_change_Ok in Hadd as [Hp2 Hin]; [|done..].
  rewrite (proj2 (add_chain_value_pool_change_Ok (chain_value_pools i) _ p1 ltac:(by rewrite Hp2) (pools_neg_in _ _ Hchange))).
  - cbn. eexists. split; [done|]. split; cbn; try done; [|eauto].
    intros b' Hb'. rewrite bt_get_remove; [apply Hhist, elem_of_app; by left|].
    apply (list_elem_of_fmap_2 cv_height), Hlt in Hb'. lia.
  - rewrite Hp2. by rewrite pools_op_assoc_neg.
Qed.

Lemma pop_tip_repr c bs b :
  chain_repr c (bs ++ [b]) -> bs <> [] ->
  exists c', pop_tip c = Ok c' /\ chain_repr c' bs /\ chain_network c' = chain_network c
    /\ last_fork_height c' = last_fork_height c.
Proof.
  intros [Hok Hrep] Hne. pose proof Hok as [Hhs _ _ _]. pose proof (ir_blocks _ _ _ Hrep) as Ebl.
  rewrite fmap_app in Hhs. apply heights_chain_snoc in Hhs as Hlt. destruct Hlt as (_ & _ & Hlt & _).
  unfold pop_tip, non_finalized_tip_height, max_block_height. rewrite Ebl, max_block_height_repr.
  assert (last (cv_height <$> bs ++ [b]) = Some (cv_height b)) as -> by (by rewrite fmap_last, last_snoc).
  cbn [unwrap mbind res_bind]. rewrite blocks_map_get; [|rewrite fmap_app; by apply heights_chain_NoDup|apply elem_of_app; right; left].
  cbn [unwrap mbind res_bind]. rewrite blocks_map_remove, filter_app, filter_all, filter_cons_False, filter_nil, app_nil_r;
    [|intros Hn; by apply Hn|apply Forall_forall; intros x Hx; apply (list_elem_of_fmap_2 cv_height), Hlt in Hx; lia].
  unfold chain_is_empty. cbn [blocks set_blocks].
  destruct (revert_tip_repr _ _ _ _ Hne Hok Hrep) as (i' & Hrev & Hrep').
  destruct bs as [|b0 bs]; [done|]. cbn [fmap list_fmap negb assert_ mbind res_bind] in *. rewrite Hrev. cbn [mbind res_bind].
  exists (with_inner c i'). split_and!; try done. split; [|done]. by eapply blocks_ok_init.
Qed.

(** ** Pushing a block *)

Lemma to_work_nonneg compact w : to_work compact = Ok (Some w) -> 0 <= w.
Proof.
  unfold to_work. intros ([t|] & _ & Hw)%bind_Ok_inv; [|done]. unfold work_try_from in Hw.
  apply bind_Ok_inv in Hw as (d & _ & (r & [-> Hr]%unwrap_Ok%checked_Some & Hw)%bind_Ok_inv).
  case_match; inv_res. lia.
Qed.
Lemma block_work_nonneg b w : block_work b = Ok w -> 0 <= w.
Proof. unfold block_work. intros (o & Ho & ->%unwrap_Ok)%bind_Ok_inv. by eapply to_work_nonneg. Qed.

(** A chain without blocks has the trees of a tip below [h]. *)
Definition starts_below (h : Z) i : Prop :=
  (exists e, e ∈ trees_by_height (sprout_index i) /\ e.1 <= h)
  /\ (exists e, e ∈ trees_by_height (sapling_index i) /\ e.1 <= h)
  /\ (exists e, e ∈ trees_by_height (orchard_index i) /\ e.1 <= h).

(** What the callers know of a block they push. *)
Record follows c bs b : Prop := {
  fo_height : heights_chain (cv_height <$> (bs ++ [b]));
  fo_start : bs = [] -> starts_below (cv_height b) (inner c);
  fo_pools : pools_in NegativeAllowed (cv_chain_value_pool_change b);
  fo_volume : forall a, sum_Z (fun op => Z.abs (op_delta a op)) (mbind (ops_of (chain_network c)) (bs ++ [b])) <= MAX_MONEY
}.

Lemma push_repr c bs b c' :
  chain_repr c bs -> follows c bs b -> push c b = Ok c' -> chain_repr c' (bs ++ [b]) /\ chain_network c' = chain_network c.
Proof.
  intros [[Hhs Hnd Hb Hv] [Ebl Ehash Hidx Hspr Hanch Hsap Horc Hhist [Ework Hmax] (base & Hbase & Hpools)]]
    [Hheight Hstart Hchange Hvol] Hpush.
  apply push_inv in Hpush as (i1 & ts & tsa & tor & Hu & Hs & Hsa & Hor & (hist & Hhn & Ehist) & Eb & Eh & Et & Ew & Ep & _ & En & _).
  apply update_except_trees_inv in Hu as (work & Hhash & Eh1 & Hwork & Hadd & Htx & Hpool & _).
  apply update_transactions_apply in Htx as [Htok Htx].
  assert (cv_hash b ∉ cv_hash <$> bs) as Hni.
  { rewrite Ehash in Hhash. apply not_elem_of_list_to_map in Hhash. by rewrite <- list_fmap_compose in Hhash. }
  destruct (hash_map_snoc bs b Hni) as [Esnoc _]. pose proof Hheight as Hlt. rewrite fmap_app in Hlt.
  apply heights_chain_snoc in Hlt as (_ & Hvh & Hlt & _). apply block_work_nonneg in Hwork as Hpos.
  split; [|done]. split; rewrite En; split.
  - done.
  - rewrite fmap_app. apply NoDup_app. split; [done|]. split; [|apply NoDup_singleton].
    intros x Hx Hx'%list_elem_of_singleton. by subst x.
  - apply Forall_app. split; [done|]. apply Forall_singleton. split_and!; [done|by eauto|done].
  - done.
  - rewrite Eb, Ebl, fmap_app. cbn. apply bt_below_insert_last. apply Forall_fmap, Forall_forall.
    intros x Hx. cbn. by apply Hlt, list_elem_of_fmap_2.
  - by rewrite Eh, Eh1, Ehash, Esnoc.
  - rewrite bind_app, foldO_app, Hidx, Et. cbn [mbind list_bind]. by rewrite app_nil_r.
  - apply bind_Ok_inv in Hs as (ix & Hix & Hs). injection Hs as <- _. rewrite fmap_app. cbn.
    eapply add_tree_repr; [done| |done]. intros Hn. apply fmap_nil_inv in Hn. by apply Hstart.
  - by eapply anchors_indexed_add.
  - rewrite fmap_app. cbn. eapply add_tree_repr; [done| |done]. intros Hn. apply fmap_nil_inv in Hn. by apply Hstart.
  - rewrite fmap_app. cbn. eapply add_tree_repr; [done| |done]. intros Hn. apply fmap_nil_inv in Hn. by apply Hstart.
  - intros x Hx. rewrite Ehist, bt_get_insert. case_match; [done|].
    apply elem_of_app in Hx as [Hx|Hx%list_elem_of_singleton]; [auto|]. subst x. bool_to_prop. done.
  - assert (work_of b = work) as Ewb by (unfold work_of; by rewrite Hwork).
    rewrite Ew, sum_Z_app. cbn. rewrite Ewb. unfold cumulative_work_add in Hadd.
    apply unwrap_Ok, checked_Some in Hadd as [-> Hr]. lia.
  - exists base. split; [done|]. rewrite fmap_app, foldM_app, Hpools. cbn. rewrite Ep, Hpool. done.
Qed.

(** A new chain at the finalized tip. *)
Lemma Chain_new_repr network h sprout sapling orchard history pools :
  valid_height h -> pools_in NonNegative pools ->
  exists c, Chain_new (SproutT := SproutT) (SaplingT := SaplingT) (OrchardT := OrchardT) (HistoryT := HistoryT)
      network h sprout sapling orchard history pools = Ok c
    /\ chain_repr c [] /\ chain_network c = network /\ (forall k, h <= k -> starts_below k (inner c)).
Proof.
  intros Hv Hp. unfold Chain_new, add_sprout_tree_and_anchor.
  destruct (add_first_tree h sprout Hv) as (six & Hsix & Hs & Hs'). rewrite Hsix. cbn [mbind res_bind].
  destruct (add_first_tree h sapling Hv) as (saix & -> & Hsa & Hsa'). cbn [mbind res_bind].
  destruct (add_first_tree h orchard Hv) as (orix & -> & Ho & Ho'). cbn [mbind res_bind].
  cbn. eexists. split; [done|]. split; [split|split]; [split|split|done|]; cbn; try done.
  - constructor.
  - eapply (anchors_indexed_add empty_tree_index ∅ h sprout).
    + split; [|by intros a t ?%lookup_empty_Some]. intros a. cbn. rewrite lookup_empty. split; [multiset_solver|by intros []].
    + unfold add_sprout_tree_and_anchor. rewrite Hsix. done.
  - by intros b ?%not_elem_of_nil.
  - eauto.
  - intros k Hk. split_and!; eexists; (split; [eassumption|done]).
Qed.

(** ** Reading a represented chain *)

Lemma height_by_hash_repr c bs hash h :
  chain_repr c bs -> height_by_hash (inner c) !! hash = Some h <-> exists b, b ∈ bs /\ cv_hash b = hash /\ cv_height b = h.
Proof.
  intros [[_ Hnd _ _] Hrep]. rewrite (ir_hashes _ _ _ Hrep). rewrite <- elem_of_list_to_map.
  - rewrite list_elem_of_fmap. split; [intros (b & [= -> ->] & ?); eauto|intros (b & ? & <- & <-); eauto].
  - by rewrite <- list_fmap_compose.
Qed.

Lemma contains_repr c bs hash : chain_repr c bs -> contains_block_hash (inner c) hash = true <-> hash ∈ cv_hash <$> bs.
Proof.
  intros Hrep. unfold contains_block_hash. rewrite bool_decide_eq_true, list_elem_of_fmap. split.
  - intros [h (b & ? & ? & _)%(height_by_hash_repr _ _ _ _ Hrep)]. eauto.
  - intros (b & -> & Hb). exists (cv_height b). apply (height_by_hash_repr _ _ _ _ Hrep). eauto.
Qed.

Lemma tip_hash_repr c bs b : chain_repr c (bs ++ [b]) -> non_finalized_tip_hash (inner c) = Ok (cv_hash b).
Proof.
  intros [_ Hrep]. unfold non_finalized_tip_hash. by rewrite (ir_blocks _ _ _ Hrep), fmap_last, last_snoc.
Qed.
Lemma tip_height_repr c bs b : chain_repr c (bs ++ [b]) -> non_finalized_tip_height (inner c) = Ok (cv_height b).
Proof.
  intros [_ Hrep]. unfold non_finalized_tip_height, max_block_height.
  by rewrite (ir_blocks _ _ _ Hrep), fmap_last, last_snoc.
Qed.
Lemma root_hash_repr c b bs : chain_repr c (b :: bs) -> non_finalized_root_hash (inner c) = Ok (cv_hash b).
Proof. intros [_ Hrep]. unfold non_finalized_root_hash. by rewrite (ir_blocks _ _ _ Hrep). Qed.
Lemma root_height_repr c b bs : chain_repr c (b :: bs) -> non_finalized_root_height (inner c) = Ok (cv_height b).
Proof. intros [_ Hrep]. unfold non_finalized_root_height. by rewrite (ir_blocks _ _ _ Hrep). Qed.
Lemma chain_len_repr c bs : chain_repr c bs -> chain_len (inner c) = length bs.
Proof. intros [_ Hrep]. unfold chain_len. by rewrite (ir_blocks _ _ _ Hrep), length_fmap. Qed.
Lemma chain_is_empty_repr c bs : chain_repr c bs -> chain_is_empty (inner c) = bool_decide (bs = []).
Proof. intros [_ Hrep]. unfold chain_is_empty. rewrite (ir_blocks _ _ _ Hrep). by destruct bs. Qed.

Lemma chain_repr_fork_height c bs f : chain_repr c bs -> chain_repr (with_fork_height c f) bs.
Proof. intros [? ?]. by split. Qed.

(** ** Forking *)

Lemma fork_loop_repr rounds c before x after :
  chain_repr c (before ++ x :: after) -> (length after <= rounds)%nat ->
  exists c', fork_loop rounds (cv_hash x) c = Ok c' /\ chain_repr c' (before ++ [x])
    /\ chain_network c' = chain_network c.
Proof.
  revert c rounds. induction after as [|b after IH] using rev_ind; intros c rounds Hrep Hlen.
  - exists c. split; [|done]. destruct rounds; cbn [fork_loop];
      rewrite (tip_hash_repr _ _ _ Hrep); cbn [mbind res_bind]; by rewrite bool_decide_eq_true_2.
  - rewrite length_app in Hlen. cbn in Hlen. destruct rounds as [|rounds]; [lia|].
    rewrite app_comm_cons, app_assoc in Hrep. cbn [fork_loop]. rewrite (tip_hash_repr _ _ _ Hrep). cbn [mbind res_bind].
    rewrite bool_decide_eq_false_2; cycle 1.
    { intros Heq. destruct Hrep as [[_ Hnd _ _] _]. rewrite fmap_app in Hnd. apply NoDup_app in Hnd as (_ & Hni & _).
      apply (Hni (cv_hash x)).
      - apply list_elem_of_fmap_2, elem_of_app. right. left.
      - rewrite <- Heq. by left. }
    destruct (pop_tip_repr _ _ _ Hrep) as (c1 & -> & Hrep1 & En & _); [by destruct before|]. cbn [mbind res_bind].
    assert (exists h, non_finalized_tip_height (inner c1) = Ok h) as [h Hh].
    { destruct (exists_last (l := before ++ x :: after)) as (l & y & Hl); [by destruct before|].
      rewrite Hl in Hrep1. eexists. by eapply tip_height_repr. }
    rewrite Hh. cbn [mbind res_bind].
    destruct (IH (with_fork_height c1 (Some h)) rounds) as (c' & Hloop & Hrep' & En').
    + by apply chain_repr_fork_height.
    + lia.
    + exists c'. split; [done|]. split; [done|]. by rewrite En', <- En.
Qed.

Lemma fork_repr c before x after :
  chain_repr c (before ++ x :: after) ->
  exists c', fork c (cv_hash x) = Ok (Some c') /\ chain_repr c' (before ++ [x]) /\ chain_network c' = chain_network c.
Proof.
  intros Hrep. unfold fork. rewrite (proj2 (contains_repr _ _ (cv_hash x) Hrep)); cycle 1.
  { apply list_elem_of_fmap_2, elem_of_app. right. left. }
  destruct (fork_loop_repr (chain_len (inner c)) c before x after Hrep) as (c' & -> & ?).
  - rewrite (chain_len_repr _ _ Hrep), length_app. cbn. lia.
  - exists c'. done.
Qed.
Lemma fork_missing c bs hash : chain_repr c bs -> hash ∉ cv_hash <$> bs -> fork c hash = Ok None.
Proof.
  intros Hrep Hni. unfold fork. destruct (contains_block_hash _ _) eqn:E; [|done].
  by apply (contains_repr _ _ _ Hrep) in E.
Qed.

Lemma child_blocks_repr c before x after :
  chain_repr c (before ++ x :: after) -> child_blocks (inner c) (cv_height x) = x :: after.
Proof.
  intros [[Hhs _ _ _] Hrep]. unfold child_blocks. rewrite (ir_blocks _ _ _ Hrep). clear Hrep.
  induction before as [|b before IH]; cbn [app fmap list_fmap] in *.
  - destruct Hhs as [(_ & Hall & _) _]. rewrite filter_cons_True by (cbn; lia). cbn. f_equal. rewrite filter_all.
    + rewrite <- list_fmap_compose. apply list_fmap_id.
    + apply Forall_fmap, Forall_forall. intros y Hy. cbn. apply (list_elem_of_fmap_2 cv_height), Hall in Hy. lia.
  - destruct Hhs as [(_ & Hall & _) Hhs]. rewrite filter_cons_False; [by apply IH|]. cbn.
    assert (cv_height b < cv_height x <= Height_MAX); [|lia]. apply Hall, list_elem_of_fmap_2, elem_of_app. right. left.
Qed.

Lemma invalidate_repr c before x after :
  chain_repr c (before ++ x :: after) -> before <> [] ->
  exists c', chain_invalidate_block c (cv_hash x) = Ok (Some (c', x :: after)) /\ chain_repr c' before
    /\ chain_network c' = chain_network c.
Proof.
  intros Hrep Hne. unfold chain_invalidate_block.
  rewrite (proj2 (height_by_hash_repr _ _ (cv_hash x) (cv_height x) Hrep)); cycle 1.
  { exists x. split; [|done]. apply elem_of_app. right. left. }
  destruct (fork_repr _ _ _ _ Hrep) as (c1 & -> & Hrep1 & En1). cbn [mbind res_bind].
  destruct (pop_tip_repr _ _ _ Hrep1 Hne) as (c2 & -> & Hrep2 & En2 & _). cbn [mbind res_bind].
  rewrite (child_blocks_repr _ _ _ _ Hrep). eexists. split; [done|]. split.
  - by apply chain_repr_fork_height.
  - cbn. by rewrite En2, En1.
Qed.

(** *** Where the list is too short *)

Lemma pop_tip_single c b : chain_repr c [b] -> pop_tip c = Panic.
Proof.
  intros [_ Hrep]. unfold pop_tip, non_finalized_tip_height, max_block_height. rewrite (ir_blocks _ _ _ Hrep).
  cbn [fmap list_fmap last option_fmap option_map fst unwrap mbind res_bind bt_get]. rewrite Z.eqb_refl. cbn [unwrap mbind res_bind].
  unfold bt_remove, chain_is_empty. cbn [blocks set_blocks]. rewrite filter_cons_False, filter_nil by (intros Hn; by apply Hn). done.
Qed.
Lemma invalidate_root c b bs : chain_repr c (b :: bs) -> chain_invalidate_block c (cv_hash b) = Panic.
Proof.
  intros Hrep. unfold chain_invalidate_block. rewrite (proj2 (height_by_hash_repr _ _ (cv_hash b) (cv_height b) Hrep)) by (exists b; split; [left|done]).
  destruct (fork_repr c [] b bs Hrep) as (c1 & -> & Hrep1 & _). cbn [mbind res_bind]. by rewrite (pop_tip_single _ _ Hrep1).
Qed.

(** *** Blocks by hash and by height *)

Lemma chain_block_repr c bs b : chain_repr c bs -> b ∈ bs ->
  chain_block (inner c) (Hash (cv_hash b)) = Some b /\ chain_block (inner c) (Height (cv_height b)) = Some b.
Proof.
  intros Hrep Hin. pose proof Hrep as [[Hhs _ _ _] Hi].
  assert (E : bt_get (cv_height b) (blocks (inner c)) = Some b).
  { rewrite (ir_blocks _ _ _ Hi). apply blocks_map_get; [by apply heights_chain_NoDup|done]. }
  split; [|done]. unfold chain_block. cbn [height_or_else].
  by rewrite (proj2 (height_by_hash_repr _ _ (cv_hash b) (cv_height b) Hrep)) by eauto.
Qed.
Lemma chain_block_missing c bs : chain_repr c bs ->
  (forall hash, hash ∉ cv_hash <$> bs -> chain_block (inner c) (Hash hash) = None)
  /\ (forall h, h ∉ cv_height <$> bs -> chain_block (inner c) (Height h) = None).
Proof.
  intros Hrep. pose proof Hrep as [_ Hi]. split.
  - intros hash Hn. unfold chain_block. cbn [height_or_else].
    destruct (height_by_hash (inner c) !! hash) as [h|] eqn:E; [|done].
    apply (height_by_hash_repr _ _ _ _ Hrep) in E as (b & Hb & <- & _). destruct Hn. by apply list_elem_of_fmap_2.
  - intros h Hn. unfold chain_block. cbn. rewrite (ir_blocks _ _ _ Hi). apply bt_get_None.
    intros e (b & -> & Hb)%list_elem_of_fmap <-. cbn in Hn. destruct Hn. by apply list_elem_of_fmap_2.
Qed.

(** C9. A chain is its list of blocks. On a chain that represents a list,
    popping the root returns the first block with its treestate and leaves the
    rest; popping the tip leaves all but the last block of two or more; forking at
    a block keeps the list up to it, and a missing hash is not forked;
    invalidating a block other than the root keeps what is below it and returns
    it with all its descendants. Every index of the result is the index of the
    remaining blocks. None of these panics; popping the only block as the tip and
    invalidating the root do. The number of blocks, the hashes and heights of
    root and tip, and the blocks found by hash and by height are those of the
    list. *)
Theorem chain_refines_blocks c bs :
  chain_repr c bs ->
  (forall b rest, bs = b :: rest ->
     exists ts c', treestate (inner c) (Height (cv_height b)) = Some ts
       /\ pop_root c = Ok (b, ts, c') /\ chain_repr c' rest)
  /\ (forall rest b, bs = rest ++ [b] -> rest <> [] -> exists c', pop_tip c = Ok c' /\ chain_repr c' rest)
  /\ (forall before x after, bs = before ++ x :: after ->
     exists c', fork c (cv_hash x) = Ok (Some c') /\ chain_repr c' (before ++ [x]))
  /\ (forall hash, hash ∉ cv_hash <$> bs -> fork c hash = Ok None)
  /\ (forall before x after, bs = before ++ x :: after -> before <> [] ->
     exists c', chain_invalidate_block c (cv_hash x) = Ok (Some (c', x :: after)) /\ chain_repr c' before)
  /\ (forall b, bs = [b] -> pop_tip c = Panic)
  /\ (forall b rest, bs = b :: rest -> chain_invalidate_block c (cv_hash b) = Panic)
  /\ chain_len (inner c) = length bs
  /\ (forall b, head bs = Some b -> non_finalized_root_hash (inner c) = Ok (cv_hash b) /\ non_finalized_root_height (inner c) = Ok (cv_height b))
  /\ (forall b, last bs = Some b -> non_finalized_tip_hash (inner c) = Ok (cv_hash b) /\ non_finalized_tip_height (inner c) = Ok (cv_height b))
  /\ (forall b, b ∈ bs -> chain_block (inner c) (Hash (cv_hash b)) = Some b /\ chain_block (inner c) (Height (cv_height b)) = Some b)
  /\ (forall hash, hash ∉ cv_hash <$> bs -> chain_block (inner c) (Hash hash) = None)
  /\ (forall h, h ∉ cv_height <$> bs -> chain_block (inner c) (Height h) = None).
Proof.
  intros Hrep. destruct (chain_block_missing _ _ Hrep) as [Hmiss Hmiss']. split_and!; try done.
  - intros b rest ->. destruct (pop_root_repr _ _ _ Hrep) as (ts & c' & ? & ? & ? & _). eauto.
  - intros rest b -> Hne. destruct (pop_tip_repr _ _ _ Hrep Hne) as (c' & ? & ? & _). eauto.
  - intros before x after ->. destruct (fork_repr _ _ _ _ Hrep) as (c' & ? & ? & _). eauto.
  - intros hash Hni. by eapply fork_missing.
  - intros before x after -> Hne. destruct (invalidate_repr _ _ _ _ Hrep Hne) as (c' & ? & ? & _). eauto.
  - intros b ->. by eapply pop_tip_single.
  - intros b rest ->. by eapply invalidate_root.
  - by apply chain_len_repr.
  - intros b Hb. destruct bs as [|x bs]; [done|]. injection Hb as ->. split; [by eapply root_hash_repr|by eapply root_height_repr].
  - intros b (l & ->)%last_Some. split; [by eapply tip_hash_repr|by eapply tip_height_repr].
  - intros b Hb. by eapply chain_block_repr.
Qed.

(** A new chain at the finalized tip is built without panic and
    represents the empty list, and every successful push of a block that
    follows a represented chain appends exactly that block to the list. *)
Theorem push_refines_blocks :
  (forall network h sprout sapling orchard history pools, valid_height h -> pools_in NonNegative pools ->
     exists c, Chain_new (SproutT := SproutT) (SaplingT := SaplingT) (OrchardT := OrchardT) (HistoryT := HistoryT)
       network h sprout sapling orchard history pools = Ok c
       /\ chain_repr c [] /\ starts_below (h + 1) (inner c))
  /\ (forall c bs b c', chain_repr c bs -> follows c bs b -> push c b = Ok c' -> chain_repr c' (bs ++ [b])).
Proof.
  split.
  - intros network h sprout sapling orchard history pools Hv Hp.
    destruct (Chain_new_repr network h sprout sapling orchard history pools Hv Hp) as (c & Hc & Hrep & _ & Hs).
    exists c. split_and!; [done..|]. apply Hs. lia.
  - intros c bs b c' Hrep Hf Hpush. by apply (push_repr _ _ _ _ Hrep Hf Hpush).
Qed.
End ChainRepr.

(** The example chains represent their blocks. *)
Module ReprExample.
#[local] Existing Instance Example.tree.
#[local] Existing Instance Example.subtree.
#[local] Existing Instance Example.tree_laws.
#[local] Existing Instance Example.history.
#[local] Existing Instance Example.context.
#[local] Existing Instance release_build.
Import Example.

Lemma small_volume (bs : list ContextuallyVerifiedBlock) a :
  Forall (fun b => small_ops (example_ops b)) bs -> Z.of_nat (length bs) <= 1000 ->
  sum_Z (fun op => Z.abs (op_delta a op)) (mbind (ops_of Mainnet) bs) <= MAX_MONEY.
Proof.
  intros Hbs Hlen. assert (sum_Z (fun op => Z.abs (op_delta a op)) (mbind (ops_of Mainnet) bs) <= 5 * Z.of_nat (length bs)).
  { clear Hlen. induction Hbs as [|b bs Hb Hbs IH]; [done|]. cbn [mbind list_bind length]. rewrite sum_Z_app.
    destruct (Hb a) as [_ Hs]. unfold example_ops, ops_of in *. lia. }
  unfold MAX_MONEY, COIN. lia.
Qed.

Lemma heights_chain_seq n h :
  0 <= h -> h + Z.of_nat n <= Height_MAX -> heights_chain ((fun k => h + Z.of_nat k) <$> seq 0 n).
Proof.
  induction n as [|n IH]; intros H0 Hmax; [done|]. rewrite seq_S, fmap_app. cbn [fmap list_fmap].
  apply heights_chain_snoc. split_and!.
  - apply IH; lia.
  - unfold valid_height, Height_MIN. lia.
  - intros k (j & -> & Hj)%list_elem_of_fmap. apply elem_of_seq in Hj. lia.
  - intros t. destruct n as [|n]; [done|]. rewrite fmap_last, seq_S, last_snoc. cbn. intros [= <-]. lia.
Qed.

Lemma repr0 : chain_repr chain0 [] /\ chain_network chain0 = Mainnet /\ starts_below 10 (inner chain0).
Proof.
  destruct (Chain_new_repr Mainnet 9 [] [] [] 0%nat value_balance_zero) as (c & Hc & Hrep & Hn & Hs).
  - split; vm_compute; discriminate.
  - repeat split; vm_compute; discriminate.
  - assert (chain0 = c) as -> by (unfold chain0; rewrite Hc; reflexivity).
    split; [exact Hrep|]. split; [exact Hn|]. apply Hs. lia.
Qed.

Ltac follow_example :=
  split;
    [ match goal with |- heights_chain (_ <$> ?l) => apply (heights_chain_seq (length l) 10) end; vm_compute; discriminate
    | try done
    | repeat split; vm_compute; discriminate
    | intros a; apply small_volume; [|cbn; lia] ].

Lemma follows1 : follows chain0 [] block1.
Proof. destruct repr0 as (Hrep & Hn & Hs). follow_example. repeat constructor; apply small_block1. Qed.
Lemma repr1 : chain_repr chain1 [block1].
Proof. apply (push_repr chain0 [] block1 chain1 (proj1 repr0) follows1), push1. Qed.
Lemma repr2 : chain_repr chain2 [block1; block2].
Proof.
  apply (push_repr chain1 [block1] block2 chain2 repr1); [|apply push2].
  follow_example. repeat constructor; apply small_block1 || apply small_block2.
Qed.

Lemma chain_refines_blocks_witness :
  exists ts c', pop_root chain2 = Ok (block1, ts, c') /\ chain_repr c' [block2].
Proof.
  destruct (chain_refines_blocks chain2 [block1; block2] repr2) as [Hroot _].
  destruct (Hroot block1 [block2] eq_refl) as (ts & c' & _ & Hpop & Hrep). exists ts, c'. split; assumption.
Defined.

Lemma push_refines_blocks_witness : chain_repr chain2 [block1; block2].
Proof.
  apply (proj2 push_refines_blocks chain1 [block1] block2 chain2 repr1); [|apply push2].
  follow_example. repeat constructor; apply small_block1 || apply small_block2.
Defined.
End ReprExample.
