(* ===== verification/ContextChecks.v ===== *)
(** The contextual checks of a block against the chain it extends
    ([zebra-state/src/service/check.rs], [check/utxo.rs],
    [check/nullifier.rs], [check/anchors.rs]).

    The finalized state is a record of what the checks read from the
    database. The difficulty and time checks are in [AdjustedDifficulty.v]. *)
From S2P Require Import Prelude BTreeMap Height Amount ValueBalance NetworkUpgrade BlockHeader Transaction BlockCommitment TransparentIndex ChainIndexes Chain.
From stdpp Require Import strings gmap gmultiset prelude.
From Stdlib Require Import ZArith Lia.
#[local] Open Scope Z_scope.

Record SemanticallyVerifiedBlock := mkSemanticallyVerifiedBlock {
  sv_block : Block;
  sv_hash : bytes;
  sv_height : Z;
  sv_new_outputs : gmap OutPoint OrderedUtxo;
  sv_transaction_hashes : list bytes;
  sv_deferred_pool_balance_change : option Z
}.

(** What the checks read of the database: the methods of [ZebraDb] that they
    call. The finalized state implements them ([FinalizedState.v]). *)
Record ZebraDb (SproutT SaplingT OrchardT HistoryT : Type) := mkZebraDb {
  db_network : Network;
  db_tip : option (Z * bytes);
  db_height : bytes -> option Z;
  db_block : Z -> option Block;
  db_utxo : OutPoint -> option OrderedUtxo;
  contains_nullifier : Pool -> bytes -> bool;
  contains_sapling_anchor : bytes -> bool;
  contains_orchard_anchor : bytes -> bool;
  sprout_tree_by_anchor : bytes -> option SproutT;
  sprout_tree_for_tip : outcome SproutT;
  sapling_tree_for_tip : outcome SaplingT;
  orchard_tree_for_tip : outcome OrchardT;
  db_history_tree : HistoryT;
  finalized_value_pool : ValueBalance
}.
Arguments mkZebraDb {_ _ _ _} _ _ _ _ _ _ _ _ _ _ _ _ _ _.
Arguments db_network {_ _ _ _} _.
Arguments db_tip {_ _ _ _} _.
Arguments db_height {_ _ _ _} _ _.
Arguments db_block {_ _ _ _} _ _.
Arguments db_utxo {_ _ _ _} _ _.
Arguments contains_nullifier {_ _ _ _} _ _ _.
Arguments contains_sapling_anchor {_ _ _ _} _ _.
Arguments contains_orchard_anchor {_ _ _ _} _ _.
Arguments sprout_tree_by_anchor {_ _ _ _} _ _.
Arguments sprout_tree_for_tip {_ _ _ _} _.
Arguments sapling_tree_for_tip {_ _ _ _} _.
Arguments orchard_tree_for_tip {_ _ _ _} _.
Arguments db_history_tree {_ _ _ _} _.
Arguments finalized_value_pool {_ _ _ _} _.

Definition GENESIS_PREVIOUS_BLOCK_HASH : bytes := zero_bytes 32.
Definition MIN_TRANSPARENT_COINBASE_MATURITY : Z := 100.

(** What the block commitments read from a history tree. *)
Class HistoryTreeHash (H : Type) := history_hash : H -> option bytes.

Definition enumerate {A} (l : list A) : list (Z * A) := imap (fun i x => (Z.of_nat i, x)) l.

Section Checks.
Context {SproutT SaplingT OrchardT HistoryT : Type}
  `{!NoteTree SproutT} `{!NoteTree SaplingT} `{!SubtreeTree SaplingT} `{!NoteTree OrchardT} `{!SubtreeTree OrchardT}
  `{!HistoryTreeOps HistoryT} `{!HistoryTreeHash HistoryT} `{!ChainContext} `{!CommitmentOps} `{BuildProfile}.
Abbreviation zebra_db := (ZebraDb SproutT SaplingT OrchardT HistoryT).
Abbreviation chain_inner := (ChainInner SproutT SaplingT OrchardT HistoryT).
Implicit Types (db : zebra_db).

Definition finalized_tip_height db : option Z := fst <$> db_tip db.
Definition finalized_tip_hash db : bytes := default GENESIS_PREVIOUS_BLOCK_HASH (snd <$> db_tip db).

(** ** Transparent spends *)

Definition transparent_spend_chain_order (spend : OutPoint) (spend_tx_index_in_block : Z)
    (block_new_outputs unspent : gmap OutPoint OrderedUtxo) (spent : gmap OutPoint unit) db
    : res ValidateContextError OrderedUtxo :=
  match block_new_outputs !! spend with
  | Some output =>
      if spend_tx_index_in_block <=? tx_index_in_block output
      then Err (EarlyTransparentSpend spend) else Ok output
  | None =>
      if bool_decide (is_Some (spent !! spend))
      then Err (DuplicateTransparentSpend spend "the non-finalized chain")
      else ok_or (match unspent !! spend with Some u => Some u | None => db_utxo db spend end)
             (MissingTransparentOutput spend "the non-finalized and finalized chain")
  end.

Definition transparent_coinbase_spend (outpoint : OutPoint) (restriction : CoinbaseSpendRestriction) (utxo : Utxo)
    : res ValidateContextError unit :=
  if negb (from_coinbase utxo) then Ok tt
  else match restriction with
       | CheckCoinbaseMaturity spend_height =>
           min_spend_height ← lift (height_add_diff (utxo_height utxo) MIN_TRANSPARENT_COINBASE_MATURITY);
           min_spend_height ← unwrap min_spend_height;
           if min_spend_height <=? spend_height then Ok tt
           else Err (ImmatureTransparentCoinbaseSpend outpoint spend_height min_spend_height (utxo_height utxo))
       | DisallowCoinbaseSpend => Err (UnshieldedTransparentCoinbaseSpend outpoint)
       end.

(** One transaction of the loop of [remaining_transaction_value]. *)
Definition check_transaction_value (sv : SemanticallyVerifiedBlock) (utxos : gmap OutPoint OrderedUtxo)
    (tx_index : Z) (tx : Transaction) : res ValidateContextError unit :=
  if is_coinbase tx then Ok tt
  else
    let height := sv_height sv in
    match value_balance tx (utxos_from_ordered_utxos utxos) with
    | Ok vb =>
        match remaining_transaction_value vb with
        | Ok _ => Ok tt
        | Err e =>
            hash ← unwrap (sv_transaction_hashes sv !! Z.to_nat tx_index);
            match e with
            | ConstraintError value _ =>
                if value <? 0 then Err (NegativeRemainingTransactionValue e height tx_index hash)
                else Err (CalculateRemainingTransactionValue e height tx_index hash)
            | _ => Err (CalculateRemainingTransactionValue e height tx_index hash)
            end
        | Panic => Panic
        end
    | Err e =>
        hash ← unwrap (sv_transaction_hashes sv !! Z.to_nat tx_index);
        Err (CalculateTransactionValueBalances e height tx_index hash)
    | Panic => Panic
    end.

Definition check_remaining_transaction_value (sv : SemanticallyVerifiedBlock) (utxos : gmap OutPoint OrderedUtxo)
    : res ValidateContextError unit :=
  foldM (fun _ e => check_transaction_value sv utxos e.1 e.2) tt (enumerate (transactions (sv_block sv))).

(** One spend of the loop of [transparent_spend]. *)
Definition check_spend (sv : SemanticallyVerifiedBlock) (unspent : gmap OutPoint OrderedUtxo)
    (spent : gmap OutPoint unit) db (tx_index : Z) (tx : Transaction)
    (block_spends : gmap OutPoint OrderedUtxo) (spend : OutPoint)
    : res ValidateContextError (gmap OutPoint OrderedUtxo) :=
  utxo ← transparent_spend_chain_order spend tx_index (sv_new_outputs sv) unspent spent db;
  _ ← transparent_coinbase_spend spend (coinbase_spend_restriction tx (db_network db) (sv_height sv)) (ordered_utxo utxo);
  match block_spends !! spend with
  | Some _ => Err (DuplicateTransparentSpend spend "the same block")
  | None => Ok (<[spend := utxo]> block_spends)
  end.

Definition transparent_spend (sv : SemanticallyVerifiedBlock) (unspent : gmap OutPoint OrderedUtxo)
    (spent : gmap OutPoint unit) db : res ValidateContextError (gmap OutPoint OrderedUtxo) :=
  block_spends ← foldM (fun block_spends '(tx_index, tx) =>
                          foldM (check_spend sv unspent spent db tx_index tx) block_spends (spent_outpoints tx))
                   ∅ (enumerate (transactions (sv_block sv)));
  _ ← check_remaining_transaction_value sv block_spends;
  Ok block_spends.

(** ** Nullifiers *)

Definition pool_nullifiers (pool : Pool) (tx : Transaction) : list bytes :=
  match pool with
  | SproutPool => sprout_nullifiers tx | SaplingPool => sapling_nullifiers tx | OrchardPool => orchard_nullifiers tx
  end.
Definition block_nullifiers (pool : Pool) (b : Block) : list bytes := mbind (pool_nullifiers pool) (transactions b).

Definition no_duplicates_in_finalized_chain (sv : SemanticallyVerifiedBlock) db : res ValidateContextError unit :=
  foldM (fun _ pool =>
    foldM (fun _ nullifier =>
             if contains_nullifier db pool nullifier
             then Err (duplicate_nullifier_error pool nullifier true) else Ok tt)
      tt (block_nullifiers pool (sv_block sv)))
    tt [SproutPool; SaplingPool; OrchardPool].

Definition find_duplicate_nullifier (pool : Pool) (revealed_nullifiers : list bytes)
    (finalized_chain_contains : bytes -> bool) (non_finalized_chain_contains : option (bytes -> bool))
    : res ValidateContextError unit :=
  foldM (fun _ nullifier =>
           if default false ((fun f => f nullifier) <$> non_finalized_chain_contains)
           then Err (duplicate_nullifier_error pool nullifier false)
           else if finalized_chain_contains nullifier
           then Err (duplicate_nullifier_error pool nullifier true) else Ok tt)
    tt revealed_nullifiers.

Definition tx_no_duplicates_in_chain db (chain : option chain_inner) (tx : Transaction)
    : res ValidateContextError unit :=
  foldM (fun _ pool =>
    find_duplicate_nullifier pool (pool_nullifiers pool tx) (contains_nullifier db pool)
      ((fun (i : chain_inner) nullifier => bool_decide (is_Some (nullifier_map pool (tx_indexes i) !! nullifier))) <$> chain))
    tt [SproutPool; SaplingPool; OrchardPool].

(** ** Anchors *)

Definition sapling_orchard_anchors_refer_to_final_treestates db (parent_chain : option chain_inner)
    (tx : Transaction) (transaction_hash : bytes) (tx_index_in_block height : option Z)
    : res ValidateContextError unit :=
  sapling ← lift (sapling_anchors tx);
  _ ← foldM (fun _ anchor =>
        if negb (default false ((fun i : chain_inner => bool_decide (anchor ∈ anchors (sapling_index i))) <$> parent_chain))
           && negb (contains_sapling_anchor db anchor)
        then Err (UnknownSaplingAnchor anchor height tx_index_in_block transaction_hash) else Ok tt) tt sapling;
  match transaction_orchard_data tx with
  | Some d =>
      let anchor := orchard_shared_anchor d in
      if negb (default false ((fun i : chain_inner => bool_decide (anchor ∈ anchors (orchard_index i))) <$> parent_chain))
         && negb (contains_orchard_anchor db anchor)
      then Err (UnknownOrchardAnchor anchor height tx_index_in_block transaction_hash) else Ok tt
  | None => Ok tt
  end.

Definition block_sapling_orchard_anchors_refer_to_final_treestates db (parent_chain : chain_inner)
    (sv : SemanticallyVerifiedBlock) : res ValidateContextError unit :=
  foldM (fun _ '(tx_index, tx) =>
           hash ← unwrap (sv_transaction_hashes sv !! Z.to_nat tx_index);
           sapling_orchard_anchors_refer_to_final_treestates db (Some parent_chain) tx hash
             (Some tx_index) (Some (sv_height sv)))
    tt (enumerate (transactions (sv_block sv))).

Definition sprout_groth16_joinsplits (tx : Transaction) : list JoinSplit :=
  match tx with V4 _ _ _ _ (Some d) _ => joinsplits d | _ => [] end.

Definition fetch_sprout_final_treestates (treestates : gmap bytes SproutT) db (parent_chain : option chain_inner)
    (tx : Transaction) : gmap bytes SproutT :=
  foldl (fun treestates joinsplit =>
           let anchor := joinsplit_anchor joinsplit in
           if bool_decide (is_Some (treestates !! anchor)) then treestates
           else
             match (match (i ← parent_chain; sprout_trees_by_anchor i !! anchor) with
                    | Some t => Some t | None => sprout_tree_by_anchor db anchor end) with
             | Some input_tree => <[anchor := input_tree]> treestates
             | None => treestates
             end) treestates (sprout_groth16_joinsplits tx).

Definition block_fetch_sprout_final_treestates db (parent_chain : chain_inner) (sv : SemanticallyVerifiedBlock)
    : gmap bytes SproutT :=
  foldl (fun treestates tx => fetch_sprout_final_treestates treestates db (Some parent_chain) tx)
    ∅ (transactions (sv_block sv)).

(** The loop over the JoinSplits; the trees of the last one are not needed. *)
Fixpoint check_joinsplits (final : gmap bytes SproutT) (interstitial : gmap bytes SproutT)
    (transaction_hash : bytes) (tx_index_in_block height : option Z) (js : list JoinSplit)
    : res ValidateContextError unit :=
  match js with
  | [] => Ok tt
  | j :: js' =>
      let anchor := joinsplit_anchor j in
      match (match interstitial !! anchor with Some t => Some t | None => final !! anchor end) with
      | None => Err (UnknownSproutAnchor anchor height tx_index_in_block transaction_hash)
      | Some input_tree =>
          match js' with
          | [] => Ok tt
          | _ =>
              let '(cm1, cm2) := joinsplit_commitments j in
              t1 ← expect (tree_append input_tree cm1);
              t2 ← expect (tree_append t1 cm2);
              check_joinsplits final (<[tree_root t2 := t2]> interstitial) transaction_hash tx_index_in_block height js'
          end
      end
  end.
Definition sprout_anchors_refer_to_treestates (sprout_final_treestates : gmap bytes SproutT) (tx : Transaction)
    (transaction_hash : bytes) (tx_index_in_block height : option Z) : res ValidateContextError unit :=
  check_joinsplits sprout_final_treestates ∅ transaction_hash tx_index_in_block height (sprout_groth16_joinsplits tx).

(** The transactions are checked in parallel: any of the errors may be
    returned, here the first. *)
Definition block_sprout_anchors_refer_to_treestates (sprout_final_treestates : gmap bytes SproutT) (b : Block)
    (transaction_hashes : list bytes) (height : Z) : res ValidateContextError unit :=
  foldM (fun _ '(tx_index, tx) =>
           hash ← unwrap (transaction_hashes !! Z.to_nat tx_index);
           sprout_anchors_refer_to_treestates sprout_final_treestates tx hash (Some tx_index) (Some height))
    tt (enumerate (transactions b)).

Definition tx_anchors_refer_to_final_treestates db (parent_chain : option chain_inner) (tx : Transaction)
    (mined_id : bytes) : res ValidateContextError unit :=
  _ ← sapling_orchard_anchors_refer_to_final_treestates db parent_chain tx mined_id None None;
  if has_sprout_joinsplit_data tx
  then sprout_anchors_refer_to_treestates (fetch_sprout_final_treestates ∅ db parent_chain tx) tx mined_id None None
  else Ok tt.

(** ** Heights and commitments *)

Definition block_is_not_orphaned (finalized_tip_height candidate_height : Z) : res ValidateContextError unit :=
  if candidate_height <=? finalized_tip_height
  then Err (OrphanedBlock candidate_height finalized_tip_height) else Ok tt.

Definition height_one_more_than_parent_height (parent_height candidate_height : Z) : res ValidateContextError unit :=
  next ← lift (height_add_diff parent_height 1);
  if bool_decide (next = Some candidate_height) then Ok tt
  else Err (NonSequentialBlock candidate_height parent_height).

Definition block_commitment_is_valid_for_chain_history (b : Block) (network : Network) (history_tree : HistoryT)
    : res ValidateContextError unit :=
  commitment ← map_err InvalidBlockCommitment (block_commitment b network);
  match commitment with
  | PreSaplingReserved _ | FinalSaplingRoot _ | ChainHistoryActivationReserved => Ok tt
  | ChainHistoryRoot actual =>
      history_tree_root ← unwrap (history_hash history_tree);
      if bool_decide (actual = history_tree_root) then Ok tt
      else Err (InvalidBlockCommitment (InvalidChainHistoryRoot history_tree_root actual))
  | ChainHistoryBlockTxAuthCommitment actual =>
      history_tree_root ← unwrap (history_hash history_tree);
      let expected := from_commitments history_tree_root (auth_data_root b) in
      if bool_decide (actual = expected) then Ok tt
      else Err (InvalidBlockCommitment (InvalidChainHistoryBlockTxAuthCommitment expected actual))
  end.

(** ** Contextually verified blocks *)

Definition with_block_and_spent_utxos (sv : SemanticallyVerifiedBlock) (spent_outputs : gmap OutPoint OrderedUtxo)
    : res ValueBalanceError ContextuallyVerifiedBlock :=
  let spent_outputs := sv_new_outputs sv ∪ spent_outputs in
  change ← chain_value_pool_change (sv_block sv) (utxos_from_ordered_utxos spent_outputs)
             (sv_deferred_pool_balance_change sv);
  Ok (mkContextuallyVerifiedBlock (sv_block sv) (sv_hash sv) (sv_height sv) (sv_new_outputs sv) spent_outputs
        (sv_transaction_hashes sv) change).
End Checks.

(** * Transparent spends are checked exactly *)

(** A loop that computes a value per element and inserts it under a key that
    must be new. *)
Lemma foldM_insert_unique {E K V X} `{Countable K} (f : X -> res E V) (key : X -> K) (dup : X -> E)
    (l : list X) (m m' : gmap K V) :
  foldM (fun m x => v ← f x; match m !! key x with Some _ => Err (dup x) | None => Ok (<[key x := v]> m) end) m l
    = Ok m' <->
  NoDup (key <$> l) /\ (forall x, x ∈ l -> m !! key x = None /\ exists v, f x = Ok v)
  /\ (forall k v, m' !! k = Some v <-> m !! k = Some v \/ exists x, x ∈ l /\ key x = k /\ f x = Ok v).
Proof.
  revert m. induction l as [|x l IH]; intros m; cbn [foldM fmap list_fmap].
  { split.
    - intros Hm. inv_res. split; [constructor|]. split; [by intros x ?%not_elem_of_nil|].
      intros k v. split; [by left|]. intros [?|(x & ?%not_elem_of_nil & _)]; done.
    - intros (_ & _ & Hm). f_equal. apply map_eq. intros k. apply option_eq. intros v. rewrite Hm.
      split; [by left|]. intros [?|(x & ?%not_elem_of_nil & _)]; done. }
  rewrite NoDup_cons. destruct (f x) as [v|e|] eqn:Ef; cbn [mbind res_bind].
  2,3: split; [done|]; intros (_ & Hall & _); destruct (Hall x) as [_ [? ?]]; [by left|congruence].
  destruct (m !! key x) as [w|] eqn:Em; cbn [mbind res_bind].
  { split; [done|]. intros (_ & Hall & _). destruct (Hall x) as [? _]; [by left|congruence]. }
  rewrite IH. clear IH. split.
  - intros (Hnd & Hall & Hm). assert (key x ∉ key <$> l) as Hni.
    { intros (y & Hk & Hy)%list_elem_of_fmap. destruct (Hall y Hy) as [Hn _].
      by rewrite <- Hk, lookup_insert_eq in Hn. }
    split; [done|]. split.
    + intros y [->|Hy]%elem_of_cons; [eauto|]. destruct (Hall y Hy) as [Hn ?]. split; [|done].
      by apply lookup_insert_None in Hn as [? _].
    + intros k u. rewrite Hm, lookup_insert_Some. setoid_rewrite elem_of_cons. split.
      * intros [[[? ?]|[? ?]]|(y & ? & ? & ?)]; simplify_eq; eauto 10.
      * intros [Hk|(y & [->|?] & ? & ?)]; [left; right; split; [congruence|done]|left; left; split; congruence|eauto 10].
  - intros ([Hni Hnd] & Hall & Hm). split; [done|]. split.
    + intros y Hy. destruct (Hall y) as [Hn ?]; [by right|]. split; [|done].
      apply lookup_insert_None. split; [done|]. intros Hk. apply Hni. rewrite Hk. by apply list_elem_of_fmap_2.
    + intros k u. rewrite Hm, lookup_insert_Some. setoid_rewrite elem_of_cons. split.
      * intros [Hk|(y & [->|?] & ? & ?)]; [left; right; split; [congruence|done]|left; left; split; congruence|eauto 10].
      * intros [[[? ?]|[? ?]]|(y & ? & ? & ?)]; simplify_eq; eauto 10.
Qed.

Section SpendLemmas.
Context {SproutT SaplingT OrchardT HistoryT : Type} `{BuildProfile}.
Abbreviation zebra_db := (ZebraDb SproutT SaplingT OrchardT HistoryT).
Context (sv : SemanticallyVerifiedBlock) (unspent : gmap OutPoint OrderedUtxo) (spent : gmap OutPoint unit)
  (db : zebra_db).

(** The output an input of transaction [i] may spend: one that an earlier
    transaction of the block creates, or else one that is not spent in the
    chain and is unspent there or in the finalized state. *)
Definition available (i : Z) (op : OutPoint) (u : OrderedUtxo) : Prop :=
  match sv_new_outputs sv !! op with
  | Some u' => u = u' /\ tx_index_in_block u' < i
  | None => spent !! op = None /\ option_or (unspent !! op) (db_utxo db op) = Some u
  end.
(** Coinbase outputs are 100 blocks old and only spent to shielded outputs,
    unless the network allows otherwise. *)
Definition coinbase_rule (tx : Transaction) (u : OrderedUtxo) : Prop :=
  from_coinbase (ordered_utxo u) = true ->
  (outputs tx = [] \/ should_allow_unshielded_coinbase_spends (db_network db) = true)
  /\ utxo_height (ordered_utxo u) + MIN_TRANSPARENT_COINBASE_MATURITY <= sv_height sv.
Definition value_covered (spends : gmap OutPoint OrderedUtxo) (tx : Transaction) : Prop :=
  is_coinbase tx = true \/
  exists vb r, value_balance tx (utxos_from_ordered_utxos spends) = Ok vb
    /\ remaining_transaction_value vb = Ok r /\ 0 <= r.

Definition block_inputs : list (Z * Transaction * OutPoint) :=
  mbind (fun '(i, tx) => (fun op => (i, tx, op)) <$> spent_outpoints tx) (enumerate (transactions (sv_block sv))).

Lemma elem_of_block_inputs i tx op :
  (i, tx, op) ∈ block_inputs <->
  exists n, i = Z.of_nat n /\ transactions (sv_block sv) !! n = Some tx /\ op ∈ spent_outpoints tx.
Proof.
  unfold block_inputs, enumerate. rewrite list_elem_of_bind. split.
  - intros ([j tx'] & Hin & Hj). apply list_elem_of_fmap in Hin as (op' & ? & ?). simplify_eq.
    apply elem_of_lookup_imap in Hj as (n & y & ? & Hn). simplify_eq. eauto.
  - intros (n & -> & Hn & Hop). exists (Z.of_nat n, tx). split; [by apply list_elem_of_fmap_2|].
    apply elem_of_lookup_imap. eauto.
Qed.

Lemma block_inputs_outpoints : snd <$> block_inputs = mbind spent_outpoints (transactions (sv_block sv)).
Proof.
  unfold block_inputs, enumerate. generalize 0%nat as k.
  assert (forall k l, snd <$> mbind (fun '(i, tx) => (fun op => (i, tx, op)) <$> spent_outpoints tx)
            (imap (fun i x => (Z.of_nat (k + i), x)) l) = mbind spent_outpoints l) as Hgen.
  { intros k l. revert k. induction l as [|tx l IH]; intros k; [done|]. cbn [imap mbind list_bind].
    rewrite fmap_app, <- list_fmap_compose. f_equal; [apply list_fmap_id|].
    rewrite <- (IH (S k)). f_equal. f_equal. apply imap_ext. intros. cbn. do 2 f_equal. lia. }
  intros _. apply (Hgen 0%nat).
Qed.

(** The checks of one input. *)
Definition input_utxo (e : Z * Transaction * OutPoint) : res ValidateContextError OrderedUtxo :=
  let '(i, tx, op) := e in
  u ← transparent_spend_chain_order op i (sv_new_outputs sv) unspent spent db;
  _ ← transparent_coinbase_spend op (coinbase_spend_restriction tx (db_network db) (sv_height sv)) (ordered_utxo u);
  Ok u.

Lemma check_spend_eq i tx m op :
  check_spend sv unspent spent db i tx m op =
  (u ← input_utxo (i, tx, op);
   match m !! op with
   | Some _ => Err (DuplicateTransparentSpend op "the same block")
   | None => Ok (<[op := u]> m)
   end).
Proof.
  unfold check_spend, input_utxo. destruct (transparent_spend_chain_order op i _ unspent spent db); [|done..].
  cbn [mbind res_bind]. by destruct (transparent_coinbase_spend _ _ _).
Qed.

Lemma transparent_spend_flat spends :
  transparent_spend sv unspent spent db = Ok spends <->
  foldM (fun m e => u ← input_utxo e;
           match m !! e.2 with
           | Some _ => Err (DuplicateTransparentSpend e.2 "the same block")
           | None => Ok (<[e.2 := u]> m)
           end) ∅ block_inputs = Ok spends
  /\ check_remaining_transaction_value sv spends = Ok tt.
Proof.
  unfold transparent_spend. rewrite bind_Ok_inv.
  assert (forall m l, foldM (fun block_spends '(tx_index, tx) =>
            foldM (check_spend sv unspent spent db tx_index tx) block_spends (spent_outpoints tx)) m l
    = foldM (fun m e => u ← input_utxo e;
           match m !! e.2 with
           | Some _ => Err (DuplicateTransparentSpend e.2 "the same block")
           | None => Ok (<[e.2 := u]> m)
           end) m (mbind (fun '(i, tx) => (fun op => (i, tx, op)) <$> spent_outpoints tx) l)) as Hflat.
  { intros m l. rewrite <- foldM_mbind. revert m. induction l as [|[i tx] l IH]; intros m; [done|].
    cbn [foldM]. rewrite foldM_fmap. cbn [fst snd].
    assert (forall m, foldM (check_spend sv unspent spent db i tx) m (spent_outpoints tx)
      = foldM (fun m op => u ← input_utxo (i, tx, op);
           match m !! op with
           | Some _ => Err (DuplicateTransparentSpend op "the same block")
           | None => Ok (<[op := u]> m)
           end) m (spent_outpoints tx)) as Hin.
    { induction (spent_outpoints tx) as [|op ops IHops]; intros m'; [done|]. cbn [foldM]. rewrite check_spend_eq.
      destruct (input_utxo (i, tx, op)); cbn [mbind res_bind]; [|done..].
      destruct (m' !! op); cbn [mbind res_bind]; [done|apply IHops]. }
    rewrite Hin. destruct (foldM _ m (spent_outpoints tx)); cbn [mbind res_bind]; [apply IH|done..]. }
  rewrite Hflat. fold block_inputs. split.
  - intros (m & Hm & (u & Hu & Hs)%bind_Ok_inv). destruct u. by inv_res.
  - intros [Hm Hu]. exists spends. split; [done|]. by rewrite Hu.
Qed.

Hypothesis heights_valid :
  forall u, (exists op, sv_new_outputs sv !! op = Some u \/ unspent !! op = Some u \/ db_utxo db op = Some u) ->
  valid_height (utxo_height (ordered_utxo u)).
Hypothesis block_height_valid : valid_height (sv_height sv).

Lemma chain_order_Ok i op u :
  transparent_spend_chain_order op i (sv_new_outputs sv) unspent spent db = Ok u <-> available i op u.
Proof.
  unfold transparent_spend_chain_order, available. destruct (sv_new_outputs sv !! op) as [u'|].
  - destruct (Z.leb_spec i (tx_index_in_block u')); split; intros Hu; inv_res; try done; [lia|by destruct Hu as [-> _]].
  - case_bool_decide as Hs.
    + split; [done|]. intros [Hn _]. rewrite Hn in Hs. by destruct Hs.
    + rewrite ok_or_Ok, eq_None_not_Some. unfold option_or.
      destruct (unspent !! op), (db_utxo db op); cbn; naive_solver.
Qed.

Lemma coinbase_spend_Ok op tx u :
  valid_height (utxo_height (ordered_utxo u)) ->
  transparent_coinbase_spend op (coinbase_spend_restriction tx (db_network db) (sv_height sv)) (ordered_utxo u) = Ok tt
  <-> coinbase_rule tx u.
Proof.
  intros Hh. unfold transparent_coinbase_spend, coinbase_rule, coinbase_spend_restriction, valid_height in *.
  rewrite Height_MAX_value in *. unfold Height_MIN in *.
  destruct (from_coinbase (ordered_utxo u)); cbn [negb]; [|naive_solver].
  destruct (negb (nonempty (outputs tx)) || _) eqn:Eo.
  - rewrite height_add_diff_spec by (unfold MIN_TRANSPARENT_COINBASE_MATURITY; width_lia). cbn [lift mbind res_bind].
    assert (outputs tx = [] \/ should_allow_unshielded_coinbase_spends (db_network db) = true) as Ho.
    { apply orb_true_iff in Eo as [Eo|?]; [|by right]. left. by destruct (outputs tx). }
    destruct (in_range _ _ _) eqn:Er; cbn [unwrap mbind res_bind].
    + destruct (Z.leb_spec (utxo_height (ordered_utxo u) + MIN_TRANSPARENT_COINBASE_MATURITY) (sv_height sv));
        split; try done. intros Hr. destruct (Hr eq_refl). lia.
    + split; [done|]. intros Hr. destruct (Hr eq_refl) as [_ Hm].
      assert (in_range Height_MIN Height_MAX (utxo_height (ordered_utxo u) + MIN_TRANSPARENT_COINBASE_MATURITY) = true)
        as Hc; [|congruence].
      apply in_range_spec. rewrite Height_MAX_value. unfold Height_MIN, MIN_TRANSPARENT_COINBASE_MATURITY in *. lia.
  - apply orb_false_iff in Eo as [Eo Ea]. split; [done|]. intros Hr. destruct (Hr eq_refl) as [[Ho|Ho] _].
    + by rewrite Ho in Eo.
    + congruence.
Qed.

Lemma available_height i op u : available i op u -> valid_height (utxo_height (ordered_utxo u)).
Proof.
  intros Ha. apply heights_valid. exists op. unfold available in Ha.
  destruct (sv_new_outputs sv !! op); [left; by destruct Ha as [-> _]|].
  destruct Ha as [_ Hl]. unfold option_or in Hl. destruct (unspent !! op); auto.
Qed.

Lemma input_utxo_Ok i tx op u : input_utxo (i, tx, op) = Ok u <-> available i op u /\ coinbase_rule tx u.
Proof.
  unfold input_utxo. rewrite bind_Ok_inv. split.
  - intros (u' & Hu%chain_order_Ok & ([] & Hc & He)%bind_Ok_inv). inv_res. split; [done|].
    apply (coinbase_spend_Ok op); [|done]. by eapply available_height.
  - intros [Ha Hc]. exists u. split; [by apply chain_order_Ok|].
    by rewrite (proj2 (coinbase_spend_Ok op tx u (available_height _ _ _ Ha)) Hc).
Qed.

Lemma remaining_nonneg vb r : remaining_transaction_value vb = Ok r -> 0 <= r.
Proof.
  unfold remaining_transaction_value. intros (? & _ & (? & _ & (? & _ & Hr)%bind_Ok_inv)%bind_Ok_inv)%bind_Ok_inv.
  apply amount_try_from_Ok in Hr as [-> Hr]. apply Hr.
Qed.

Lemma check_transaction_value_Ok spends i tx :
  check_transaction_value sv spends i tx = Ok tt <-> value_covered spends tx.
Proof.
  unfold check_transaction_value, value_covered. destruct (is_coinbase tx); [naive_solver|].
  destruct (value_balance tx _) as [vb|e|].
  - destruct (remaining_transaction_value vb) as [r|e|] eqn:Er.
    + apply remaining_nonneg in Er as Hr. split; [|done]. intros _. right. by exists vb, r.
    + split; [intros (? & _ & Hc)%bind_Ok_inv; by repeat case_match|]. intros [?|(? & ? & ? & ? & _)]; simplify_eq; congruence.
    + split; [done|]. intros [?|(? & ? & ? & ? & _)]; simplify_eq; congruence.
  - split; [by intros (? & _ & Hc)%bind_Ok_inv|]. intros [?|(? & ? & ? & _)]; simplify_eq.
  - split; [done|]. intros [?|(? & ? & ? & _)]; simplify_eq.
Qed.

Lemma check_remaining_Ok spends :
  check_remaining_transaction_value sv spends = Ok tt <-> Forall (value_covered spends) (transactions (sv_block sv)).
Proof.
  unfold check_remaining_transaction_value, enumerate.
  rewrite (foldM_unit_Ok (fun e => check_transaction_value sv spends e.1 e.2)), !Forall_lookup. split.
  - intros Hall n tx Hn. apply (check_transaction_value_Ok _ (Z.of_nat n)), (Hall n (Z.of_nat n, tx)).
    by rewrite list_lookup_imap, Hn.
  - intros Hall n e (tx & Hn & ->)%list_lookup_imap_Some. by eapply check_transaction_value_Ok, Hall.
Qed.

(** C31. [transparent_spend] accepts a block exactly when no output is spent
    twice in it, every input spends an output that an earlier transaction of
    the block created or that is unspent in the parent chain and the finalized
    state, coinbase outputs are mature and spent to shielded outputs only, and
    every transaction's inputs cover its outputs; the map it returns holds
    exactly the spent outputs. *)
Theorem transparent_spend_exact (spends : gmap OutPoint OrderedUtxo) :
  transparent_spend sv unspent spent db = Ok spends <->
  NoDup (mbind spent_outpoints (transactions (sv_block sv)))
  /\ (forall i tx op, transactions (sv_block sv) !! i = Some tx -> op ∈ spent_outpoints tx ->
        exists u, available (Z.of_nat i) op u /\ coinbase_rule tx u)
  /\ (forall op u, spends !! op = Some u <->
        exists i tx, transactions (sv_block sv) !! i = Some tx /\ op ∈ spent_outpoints tx
          /\ available (Z.of_nat i) op u /\ coinbase_rule tx u)
  /\ Forall (value_covered spends) (transactions (sv_block sv)).
Proof.
  rewrite transparent_spend_flat, check_remaining_Ok, <- block_inputs_outpoints.
  rewrite (foldM_insert_unique input_utxo snd (fun e => DuplicateTransparentSpend e.2 "the same block")).
  split.
  - intros [(Hnd & Hall & Hm) Hv]. split; [done|]. split; [|split; [|done]].
    + intros i tx op Hi Hop. destruct (Hall (Z.of_nat i, tx, op)) as [_ [u Hu%input_utxo_Ok]]; [|eauto].
      apply elem_of_block_inputs. eauto.
    + intros op u. rewrite Hm, lookup_empty. split.
      * intros [?|([[i tx] op'] & (n & -> & ? & ?)%elem_of_block_inputs & <- & ?%input_utxo_Ok)]; [done|eauto 10].
      * intros (i & tx & Hi & Hop & Hu). right. exists (Z.of_nat i, tx, op).
        rewrite elem_of_block_inputs, input_utxo_Ok. eauto 10.
  - intros (Hnd & Hall & Hm & Hv). split; [|done]. split; [done|]. split.
    + intros [[i tx] op] (n & -> & Hn & Hop)%elem_of_block_inputs. split; [apply lookup_empty|].
      destruct (Hall n tx op Hn Hop) as [u Hu]. exists u. by apply input_utxo_Ok.
    + intros op u. rewrite Hm, lookup_empty. split.
      * intros (i & tx & Hi & Hop & Hu). right. exists (Z.of_nat i, tx, op).
        rewrite elem_of_block_inputs, input_utxo_Ok. eauto 10.
      * intros [?|([[i tx] op'] & (n & -> & ? & ?)%elem_of_block_inputs & <- & ?%input_utxo_Ok)]; [done|eauto 10].
Qed.
End SpendLemmas.

(** A block that spends one finalized output. *)
Module SpendExample.
#[local] Existing Instance release_build.
Definition example_coinbase : Transaction := V4 [Coinbase 200 [] 0] [] (LockHeight 0) 0 None None.
Definition example_sv : SemanticallyVerifiedBlock :=
  mkSemanticallyVerifiedBlock (mkBlock example_header [example_coinbase; example_tx]) [Byte.x20] 200 ∅
    [[Byte.x21]; [Byte.x22]] None.
Definition example_spends : gmap OutPoint OrderedUtxo := {[ example_outpoint := OrderedUtxo_new (mkOutput 10 []) 5 1 ]}.
Definition example_db : ZebraDb unit unit unit unit :=
  mkZebraDb Mainnet (Some (199, [Byte.x23])) (fun _ => None) (fun _ => None) (fun op => example_spends !! op)
    (fun _ _ => false) (fun _ => false) (fun _ => false) (fun _ => None) (Ok tt) (Ok tt) (Ok tt) tt value_balance_zero.

Definition spent_outputs : gmap OutPoint OrderedUtxo :=
  Example.get ∅ (transparent_spend example_sv ∅ ∅ example_db).

Lemma transparent_spend_exact_witness :
  transparent_spend example_sv ∅ ∅ example_db = Ok spent_outputs
  /\ exists i tx, transactions (sv_block example_sv) !! i = Some tx /\ example_outpoint ∈ spent_outpoints tx.
Proof.
  assert (transparent_spend example_sv ∅ ∅ example_db = Ok spent_outputs) as Hs
    by (apply Example.get_ok; vm_compute; reflexivity).
  split; [exact Hs|]. apply (transparent_spend_exact example_sv ∅ ∅ example_db) in Hs as (_ & _ & Hm & _).
  - destruct (proj1 (Hm example_outpoint (OrderedUtxo_new (mkOutput 10 []) 5 1))) as (i & tx & Hi & Hop & _);
      [vm_compute; reflexivity|]. exists i, tx. split; assumption.
  - intros u [op Hu]. change (sv_new_outputs example_sv) with (∅ : gmap OutPoint OrderedUtxo) in Hu.
    change (db_utxo example_db op) with (example_spends !! op) in Hu. unfold example_spends in Hu.
    rewrite !lookup_empty in Hu. destruct Hu as [Hu|[Hu|Hu]]; [done..|].
    apply lookup_singleton_Some in Hu as [_ <-]. vm_compute. split; discriminate.
  - vm_compute. split; discriminate.
Defined.
End SpendExample.

(** * Sprout anchors *)

Section SproutAnchors.
Context {SproutT : Type} `{!NoteTree SproutT} `{!NoteTreeLaws SproutT}.
Context (final : gmap bytes SproutT) (transaction_hash : bytes) (tx_index_in_block height : option Z).
Abbreviation check := (fun interstitial => check_joinsplits final interstitial transaction_hash tx_index_in_block height).

(** The treestates a JoinSplit may name, given the ones before it in the
    transaction: the final treestate of a block, or the treestate after an
    earlier JoinSplit, which appends its two notes to its own treestate. *)
Inductive treestate_of : list JoinSplit -> bytes -> SproutT -> Prop :=
| treestate_final earlier t anchor : final !! anchor = Some t -> treestate_of earlier anchor t
| treestate_interstitial before j after t t1 t2 :
    treestate_of before (joinsplit_anchor j) t ->
    tree_append t (joinsplit_commitments j).1 = Ok t1 ->
    tree_append t1 (joinsplit_commitments j).2 = Ok t2 ->
    treestate_of (before ++ j :: after) (tree_root t2) t2.

Hypothesis final_roots : forall anchor t, final !! anchor = Some t -> tree_root t = anchor.

Lemma treestate_root earlier a t : treestate_of earlier a t -> tree_root t = a.
Proof. destruct 1; auto. Qed.
Lemma treestate_unique earlier earlier' a t t' : treestate_of earlier a t -> treestate_of earlier' a t' -> t = t'.
Proof. intros H1%treestate_root H2%treestate_root. apply tree_root_inj. congruence. Qed.
Lemma treestate_snoc earlier j a t : treestate_of earlier a t -> treestate_of (earlier ++ [j]) a t.
Proof.
  destruct 1; [by constructor|]. rewrite <- app_assoc. cbn. by eapply treestate_interstitial.
Qed.

Lemma app_snoc_cons {A} (l : list A) x before y after :
  before ++ y :: after = l ++ [x] ->
  (before = l /\ y = x /\ after = []) \/ (exists after', after = after' ++ [x] /\ l = before ++ y :: after').
Proof.
  destruct (list_eq_nil_dec after) as [->|Hne].
  - intros [-> [= ->]]%app_inj_tail. by left.
  - destruct (last after) as [z|] eqn:Ez; [|by apply last_None in Ez].
    apply last_Some in Ez as [after' ->]. rewrite app_comm_cons, app_assoc.
    intros [<- ->]%app_inj_tail. right. eauto.
Qed.

(** The treestates after one more JoinSplit. *)
Lemma treestate_snoc_inv earlier j t t1 t2 a t' :
  treestate_of earlier (joinsplit_anchor j) t ->
  tree_append t (joinsplit_commitments j).1 = Ok t1 -> tree_append t1 (joinsplit_commitments j).2 = Ok t2 ->
  treestate_of (earlier ++ [j]) a t' <-> treestate_of earlier a t' \/ (a = tree_root t2 /\ t' = t2).
Proof.
  intros Ht H1 H2. split.
  - remember (earlier ++ [j]) as l eqn:El.
    destruct 1 as [? ? ? Hf|before j' after u u1 u2 Hu Hu1 Hu2]; [left; by constructor|].
    apply app_snoc_cons in El as [(-> & -> & ->)|(after' & -> & ->)].
    + right. pose proof (treestate_unique _ _ _ _ _ Hu Ht) as ->. rewrite H1 in Hu1. apply Ok_inj in Hu1 as <-. rewrite H2 in Hu2. apply Ok_inj in Hu2 as <-. done.
    + left. by eapply treestate_interstitial.
  - intros [?|[-> ->]]; [by apply treestate_snoc|]. by eapply treestate_interstitial.
Qed.

Lemma check_joinsplits_spec js earlier interstitial :
  (forall a t, (match interstitial !! a with Some t => Some t | None => final !! a end) = Some t
               <-> treestate_of earlier a t) ->
  check interstitial js <> Panic ->
  (check interstitial js = Ok tt <->
   forall before j after, js = before ++ j :: after -> exists t, treestate_of (earlier ++ before) (joinsplit_anchor j) t).
Proof.
  revert earlier interstitial. induction js as [|j js IH]; intros earlier interstitial Hinv Hp.
  { cbn. split; [|done]. intros _ before j after Hl. by destruct before. }
  cbn [check_joinsplits] in *. specialize (Hinv (joinsplit_anchor j)) as Hj.
  destruct (match interstitial !! joinsplit_anchor j with Some t => Some t | None => _ end) as [t|] eqn:Et; cycle 1.
  { split; [done|]. intros Hall. destruct (Hall [] j js eq_refl) as [t Ht]. rewrite app_nil_r in Ht.
    by apply Hj in Ht. }
  pose proof (proj1 (Hj t) eq_refl) as Ht. destruct js as [|j' js'].
  { split; [|done]. intros _ before k after Hl. destruct before as [|? [|]]; [|done..]. injection Hl as <- <-.
    rewrite app_nil_r. eauto. }
  destruct (joinsplit_commitments j) as [cm1 cm2] eqn:Ecm.
  destruct (tree_append t cm1) as [t1|e|] eqn:E1; cbn [expect mbind res_bind] in *; [|done..].
  destruct (tree_append t1 cm2) as [t2|e|] eqn:E2; cbn [expect mbind res_bind] in *; [|done..].
  assert (forall a t', treestate_of (earlier ++ [j]) a t' <-> treestate_of earlier a t' \/ (a = tree_root t2 /\ t' = t2))
    as Hsnoc by (intros; apply (treestate_snoc_inv _ _ t t1 t2); rewrite ?Ecm; done).
  rewrite (IH (earlier ++ [j]) (<[tree_root t2 := t2]> interstitial)); [|clear IH|done].
  - split.
    + intros Hall before k after Hl. destruct before as [|j0 before]; injection Hl as <- Hl.
      * rewrite app_nil_r. eauto.
      * rewrite cons_middle, app_assoc. by eapply Hall.
    + intros Hall before k after Hl. destruct (Hall (j :: before) k after) as [u Hu]; [by rewrite Hl|].
      exists u. by rewrite <- app_assoc.
  - intros a u. rewrite Hsnoc, <- Hinv. destruct (decide (a = tree_root t2)) as [->|Hne].
    + rewrite lookup_insert_eq. split; [naive_solver|]. intros [Hl|[_ ->]]; [|done].
      f_equal. apply tree_root_inj. apply Hinv, treestate_root in Hl. congruence.
    + rewrite lookup_insert_ne by done. naive_solver.
Qed.

(** The sprout anchors of a transaction are accepted exactly when every
    JoinSplit refers to a final treestate or to the treestate after an
    earlier JoinSplit of the same transaction, which appended its two notes
    to its own anchor's tree; the check only panics when a tree is full. *)
Theorem sprout_anchors_exact (tx : Transaction) :
  sprout_anchors_refer_to_treestates final tx transaction_hash tx_index_in_block height <> Panic ->
  sprout_anchors_refer_to_treestates final tx transaction_hash tx_index_in_block height = Ok tt <->
  forall before j after, sprout_groth16_joinsplits tx = before ++ j :: after ->
    exists t, treestate_of before (joinsplit_anchor j) t.
Proof.
  intros Hp. apply (check_joinsplits_spec _ [] ∅); [|done].
  intros a t. rewrite lookup_empty. split; [by constructor|].
  remember [] as earlier eqn:El. destruct 1 as [|before]; [done|]. by destruct before.
Qed.
End SproutAnchors.

Module SproutExample.
#[local] Existing Instance Example.tree.
#[local] Existing Instance Example.tree_laws.

(** The second JoinSplit uses the notes of the first. *)
Definition final_trees : gmap bytes bytes := {[ [Byte.x01] := [Byte.x01] ]}.
Definition joinsplit1 : JoinSplit := mkJoinSplit 0 0 [Byte.x01] ([], []) ([Byte.x02], [Byte.x03]) [].
Definition joinsplit2 : JoinSplit := mkJoinSplit 0 0 [Byte.x01; Byte.x02; Byte.x03] ([], []) ([], []) [].
Definition two_joinsplits : Transaction :=
  V4 [] [] (LockHeight 0) 0 (Some (mkJoinSplitData joinsplit1 [joinsplit2] [] [])) None.

Lemma sprout_anchors_exact_witness :
  sprout_anchors_refer_to_treestates final_trees two_joinsplits [] None None = Ok tt
  /\ exists t, treestate_of final_trees [joinsplit1] [Byte.x01; Byte.x02; Byte.x03] t.
Proof.
  assert (sprout_anchors_refer_to_treestates final_trees two_joinsplits [] None None = Ok tt) as Hs
    by (vm_compute; reflexivity).
  split; [exact Hs|].
  assert (forall a t, final_trees !! a = Some t -> tree_root t = a) as Hroots
    by (unfold final_trees; intros a t [<- <-]%lookup_singleton_Some; reflexivity).
  assert (sprout_anchors_refer_to_treestates final_trees two_joinsplits [] None None <> Panic) as Hp
    by (rewrite Hs; discriminate).
  apply (proj1 (sprout_anchors_exact final_trees [] None None Hroots two_joinsplits Hp) Hs [joinsplit1] joinsplit2 []).
  reflexivity.
Defined.
End SproutExample.
