(* ===== verification/AdjustedDifficulty.v ===== *)
(** The difficulty adjustment and the block time rules
    ([zebra-state/src/service/check/difficulty.rs], and
    [difficulty_threshold_and_time_are_valid], [block_is_valid_for_recent_chain]
    and [legacy_chain] of [check.rs]).

    Times and durations are whole seconds: header times have no fraction. *)
From S2P Require Import Prelude Height Amount Difficulty NetworkUpgrade BlockHeader Transaction ChainIndexes Chain ContextChecks.
From stdpp Require Import strings gmap sorting prelude.
From Stdlib Require Import ZArith Lia.
#[local] Open Scope Z_scope.

Definition POW_MEDIAN_BLOCK_SPAN : nat := 11.
Definition POW_ADJUSTMENT_BLOCK_SPAN : nat := Z.to_nat POW_AVERAGING_WINDOW + POW_MEDIAN_BLOCK_SPAN.
Definition POW_DAMPING_FACTOR : Z := 4.
Definition POW_MAX_ADJUST_UP_PERCENT : Z := 16.
Definition POW_MAX_ADJUST_DOWN_PERCENT : Z := 32.
Definition BLOCK_MAX_TIME_SINCE_MEDIAN : Z := 90 * 60.

Record AdjustedDifficulty := mkAdjustedDifficulty {
  candidate_time : Z;
  candidate_height : Z;
  ad_network : Network;
  relevant_difficulty_thresholds : list Z;
  relevant_times : list Z
}.

Section AdjustedDifficulty.
Context `{BuildProfile}.

Definition new_from_header_time (candidate_header_time previous_block_height : Z) (network : Network) (context : list (Z * Z))
    : outcome AdjustedDifficulty :=
  next ← height_add_diff previous_block_height 1;
  candidate_height ← unwrap next;
  let context := take POW_ADJUSTMENT_BLOCK_SPAN context in
  Ok (mkAdjustedDifficulty candidate_header_time candidate_height network context.*1 context.*2).

Definition new_from_block (candidate_block : Block) (network : Network) (context : list (Z * Z)) : outcome AdjustedDifficulty :=
  candidate_block_height ← unwrap (coinbase_height candidate_block);
  previous ← height_sub_diff candidate_block_height 1;
  previous_block_height ← unwrap previous;
  new_from_header_time (time (block_header candidate_block)) previous_block_height network context.

(** [sorted(S)] at its middle index. *)
Definition median_time (times : list Z) : outcome Z := unwrap (stable_sort Z.leb times !! (length times / 2)%nat).

Definition median_time_past (a : AdjustedDifficulty) : outcome Z :=
  median_time (take POW_MEDIAN_BLOCK_SPAN (relevant_times a)).

Definition median_timespan (a : AdjustedDifficulty) : outcome Z :=
  newer_median ← median_time_past a;
  older_median ←
    (if (Z.to_nat POW_AVERAGING_WINDOW <? length (relevant_times a))%nat
     then median_time (take POW_MEDIAN_BLOCK_SPAN (drop (Z.to_nat POW_AVERAGING_WINDOW) (relevant_times a)))
     else unwrap (last (relevant_times a)));
  Ok (newer_median - older_median).

Definition median_timespan_bounded (a : AdjustedDifficulty) : outcome Z :=
  averaging_window_timespan ← averaging_window_timespan_for_height (ad_network a) (candidate_height a);
  median_timespan ← median_timespan a;
  let damped_variance := Z.quot (median_timespan - averaging_window_timespan) POW_DAMPING_FACTOR in
  let median_timespan_damped := averaging_window_timespan + damped_variance in
  let min_median_timespan := Z.quot (averaging_window_timespan * (100 - POW_MAX_ADJUST_UP_PERCENT)) 100 in
  let max_median_timespan := Z.quot (averaging_window_timespan * (100 + POW_MAX_ADJUST_DOWN_PERCENT)) 100 in
  Ok (Z.max min_median_timespan (Z.min max_median_timespan median_timespan_damped)).

Definition network_limit (network : Network) : PowLimit :=
  match network with Mainnet => MainnetLimit | Testnet params => TestnetLimit (target_difficulty_limit_ params) end.

Definition mean_target_difficulty (a : AdjustedDifficulty) : outcome Z :=
  if (Z.to_nat POW_AVERAGING_WINDOW <=? length (relevant_difficulty_thresholds a))%nat then
    expanded ← map_res (fun compact => e ← to_expanded compact; unwrap e)
                 (take (Z.to_nat POW_AVERAGING_WINDOW) (relevant_difficulty_thresholds a));
    total ← expanded_sum expanded;
    expanded_div total POW_AVERAGING_WINDOW
  else target_difficulty_limit (network_limit (ad_network a)).

Definition threshold_bits (a : AdjustedDifficulty) : outcome Z :=
  averaging_window_timespan ← averaging_window_timespan_for_height (ad_network a) (candidate_height a);
  mean ← mean_target_difficulty a;
  quotient ← expanded_div mean averaging_window_timespan;
  timespan ← median_timespan_bounded a;
  threshold ← expanded_mul quotient timespan;
  limit ← target_difficulty_limit (network_limit (ad_network a));
  to_compact (Z.min limit threshold).

Definition expected_difficulty_threshold (a : AdjustedDifficulty) : outcome Z :=
  previous_time ← unwrap (head (relevant_times a));
  min_difficulty ← is_testnet_min_difficulty_block (ad_network a) (candidate_height a) (candidate_time a) previous_time;
  if (min_difficulty : bool) then
    _ ← assert_ (is_a_test_network (ad_network a));
    limit ← target_difficulty_limit (network_limit (ad_network a));
    to_compact limit
  else threshold_bits a.

Definition difficulty_threshold_and_time_are_valid (difficulty_threshold : Z) (a : AdjustedDifficulty)
    : res ValidateContextError unit :=
  median_time_past ← lift (median_time_past a);
  let block_time_max := median_time_past + BLOCK_MAX_TIME_SINCE_MEDIAN in
  genesis_height ← unwrap (activation_height Genesis (ad_network a));
  if (candidate_time a <=? median_time_past) && negb (candidate_height a =? genesis_height)
  then Err (TimeTooEarly (candidate_time a) median_time_past)
  else if is_max_block_time_enforced (ad_network a) (candidate_height a) && (block_time_max <? candidate_time a)
  then Err (TimeTooLate (candidate_time a) block_time_max)
  else
    expected_difficulty ← lift (expected_difficulty_threshold a);
    if difficulty_threshold =? expected_difficulty then Ok tt
    else Err (InvalidDifficultyThreshold difficulty_threshold expected_difficulty).

(** The checks of a block against the blocks before it, from its parent back. *)
Definition block_is_valid_for_recent_chain (prepared : SemanticallyVerifiedBlock) (network : Network)
    (finalized_tip_height : option Z) (relevant_chain : list Block) : res ValidateContextError unit :=
  finalized_tip_height ← unwrap finalized_tip_height;
  _ ← block_is_not_orphaned finalized_tip_height (sv_height prepared);
  let relevant_chain := take POW_ADJUSTMENT_BLOCK_SPAN relevant_chain in
  match relevant_chain with
  | [] => Err NotReadyToBeCommitted
  | parent_block :: _ =>
      parent_height ← unwrap (coinbase_height parent_block);
      _ ← height_one_more_than_parent_height parent_height (sv_height prepared);
      let relevant_data := (fun b => (difficulty_threshold (block_header b), time (block_header b))) <$> relevant_chain in
      difficulty_adjustment ← lift (new_from_block (sv_block prepared) network relevant_data);
      difficulty_threshold_and_time_are_valid (difficulty_threshold (block_header (sv_block prepared))) difficulty_adjustment
  end.

Inductive LegacyChainError : Type :=
| NoRecentTransactions (index : Z) (tip_height : Z)
| InconsistentNetworkUpgrade (error : string).

Fixpoint legacy_chain_from (index : Z) (nu5_activation_height : Z) (tip_height : option Z) (ancestors : list Block)
    (network : Network) (max_legacy_chain_blocks : Z) : res LegacyChainError unit :=
  match ancestors with
  | [] => Ok tt
  | b :: ancestors =>
      height ← unwrap (coinbase_height b);
      if height <? nu5_activation_height then Ok tt
      else if max_legacy_chain_blocks <=? index then
        tip_height ← unwrap tip_height; Err (NoRecentTransactions index tip_height)
      else
        _ ← map_err InconsistentNetworkUpgrade (check_transaction_network_upgrade_consistency b network);
        if existsb (fun tx => negb (is_none (network_upgrade tx))) (transactions b) then Ok tt
        else legacy_chain_from (index + 1) nu5_activation_height tip_height ancestors network max_legacy_chain_blocks
  end.
Definition legacy_chain (nu5_activation_height : Z) (ancestors : list Block) (network : Network) (max_legacy_chain_blocks : Z)
    : res LegacyChainError unit :=
  legacy_chain_from 0 nu5_activation_height (head ancestors ≫= coinbase_height) ancestors network max_legacy_chain_blocks.

(** ** The median *)

(** The median splits the times: the earlier half is before it. *)
Lemma median_split times :
  times <> [] -> exists before m after, median_time times = Ok m /\ times ≡ₚ before ++ m :: after
    /\ length before = (length times / 2)%nat /\ Forall (fun t => t <= m) before /\ Forall (fun t => m <= t) after.
Proof.
  intros Hne. unfold median_time. set (l := stable_sort Z.leb times). set (n := (length times / 2)%nat).
  assert (l ≡ₚ times) as Hp by apply stable_sort_perm. assert (length l = length times) as Hlen by (by rewrite Hp).
  assert (n < length times)%nat as Hn by (apply Nat.div_lt; [destruct times; [done|cbn; lia]|lia]).
  destruct (lookup_lt_is_Some_2 l n) as [m Hm]; [lia|]. exists (take n l), m, (drop (S n) l). rewrite Hm.
  assert (StronglySorted Z.le l) as Hs.
  { eapply StronglySorted_weaken; [|apply stable_sort_sorted].
    - intros a b Hab. by apply Z.leb_le.
    - intros a b. destruct (Z.leb_spec a b), (Z.leb_spec b a); auto; lia.
    - intros a b c. rewrite !Z.leb_le. lia. }
  pose proof (take_drop_middle l n m Hm) as El. rewrite <- El in Hs. apply StronglySorted_app_inv in Hs as (_ & Hs2 & Hlt).
  split; [done|]. split; [by rewrite El, Hp|]. split; [rewrite length_take; lia|]. split; [|by inversion Hs2].
  apply Forall_forall. intros x Hx. apply Hlt; [done|left].
Qed.

Lemma median_spec times :
  times <> [] -> exists m, median_time times = Ok m /\ m ∈ times
    /\ (length times <= 2 * length (filter (fun t => (t <= m)%Z) times))%nat
    /\ (length times <= 2 * length (filter (fun t => (m <= t)%Z) times))%nat.
Proof.
  intros Hne. destruct (median_split times Hne) as (before & m & after & Hm & Hp & Hn & Hb & Ha). exists m. split; [done|].
  pose proof (Nat.div_mod_eq (length times) 2). pose proof (Nat.mod_upper_bound (length times) 2 ltac:(lia)).
  assert (length times = (length before + S (length after))%nat) as Hl by (rewrite Hp, length_app; done).
  split; [rewrite Hp; set_solver|]. rewrite Hp at 2 4. rewrite !filter_app, !length_app, !filter_cons_True by lia. cbn [length]. split.
  - rewrite (filter_all _ before) by done. lia.
  - rewrite (filter_all _ after) by done. lia.
Qed.

(** The time at the middle index of the sorted times, by counting. *)
Definition is_median (times : list Z) (m : Z) : Prop :=
  m ∈ times /\ (length (filter (fun t => (t < m)%Z) times) <= length times / 2 < length (filter (fun t => (t <= m)%Z) times))%nat.

Lemma median_is_median times : times <> [] -> exists m, median_time times = Ok m /\ is_median times m.
Proof.
  intros Hne. destruct (median_split times Hne) as (before & m & after & Hm & Hp & Hn & Hb & Ha). exists m. split; [done|].
  split; [rewrite Hp; set_solver|]. rewrite <- Hn, Hp, !filter_app, !length_app. split.
  - rewrite filter_cons_False by lia. rewrite (filter_none _ after); [pose proof (length_filter (fun t => (t < m)%Z) before); cbn; lia|].
    eapply Forall_impl; [exact Ha|]. intros t. cbn. lia.
  - rewrite filter_cons_True, (filter_all _ before) by (done || lia). cbn [length]. lia.
Qed.

(** ** The bounds of the adjustment *)

(** Valid thresholds and a known time before the candidate, on a network with a
    limit whose sum over the averaging window is a 256-bit integer: Mainnet, the
    default test network and Regtest are such networks. *)
Record relevant_ok (a : AdjustedDifficulty) (limit window : Z) : Prop := {
  ro_limit : target_difficulty_limit (network_limit (ad_network a)) = Ok limit;
  ro_limit_bound : 0 < limit /\ POW_AVERAGING_WINDOW * limit < 2 ^ 256;
  ro_window : averaging_window_timespan_for_height (ad_network a) (candidate_height a) = Ok window;
  ro_times : relevant_times a <> [];
  ro_thresholds : Forall (fun c => exists e, to_expanded c = Ok (Some e) /\ 0 <= e <= limit) (relevant_difficulty_thresholds a)
}.

Lemma window_values network h w : averaging_window_timespan_for_height network h = Ok w -> w = 2550 \/ w = 1275.
Proof. intros (nu & _ & [= <-])%bind_Ok_inv. destruct nu; cbv; auto. Qed.

(** The expanded thresholds of the averaging window. *)
Definition window_targets (a : AdjustedDifficulty) (targets : list Z) : Prop :=
  Forall2 (fun c e => to_expanded c = Ok (Some e)) (take 17 (relevant_difficulty_thresholds a)) targets /\ length targets = 17%nat.
(** The mean target: the limit, for as long as the window is not full. *)
Definition is_mean (a : AdjustedDifficulty) (limit mean : Z) : Prop :=
  ((length (relevant_difficulty_thresholds a) < 17)%nat /\ mean = limit)
  \/ exists targets, window_targets a targets /\ mean = sum_Z id targets / 17.
(** The time between two medians, damped and bounded. *)
Definition is_timespan (a : AdjustedDifficulty) (window span : Z) : Prop :=
  exists newer older, is_median (take 11 (relevant_times a)) newer
    /\ (if (17 <? length (relevant_times a))%nat then is_median (take 11 (drop 17 (relevant_times a))) older
        else last (relevant_times a) = Some older)
    /\ span = Z.max (Z.quot (window * 84) 100) (Z.min (Z.quot (window * 132) 100) (window + Z.quot (newer - older - window) 4)).

Lemma to_expanded_nonneg c e : to_expanded c = Ok (Some e) -> 0 <= e.
Proof.
  unfold to_expanded. destruct (_ =? SIGN_BIT); [done|]. cbv zeta. destruct (if 32 <=? _ then _ else _) as [[m x]|]; [|done].
  intros (pow & _ & (r & [-> Hr]%unwrap_Ok%checked_Some & He)%bind_Ok_inv)%bind_Ok_inv. destruct (_ =? 0); [done|]. injection He as <-. lia.
Qed.
Lemma expanded_sum_eq acc l :
  Forall (fun e => 0 <= e) l -> 0 <= acc ->
  foldM (fun acc d => u256 (acc + d)) acc l = if acc + sum_Z id l <? 2 ^ 256 then Ok (E := Empty_set) (acc + sum_Z id l) else
    match l with [] => Ok acc | _ => Panic end.
Proof.
  intros Hl. revert acc. induction Hl as [|e l He Hl IH]; intros acc Hacc; cbn [foldM sum_Z].
  { rewrite Z.add_0_r. by destruct (_ <? _). }
  assert (0 <= sum_Z id l) by (by apply sum_Z_nonneg). unfold id at 1 3. rewrite Z.add_assoc.
  destruct (Z.ltb_spec (acc + e) (2 ^ 256)).
  - rewrite u256_in by lia. cbn [mbind res_bind]. rewrite IH by lia. destruct (Z.ltb_spec (acc + e + sum_Z id l) (2 ^ 256)); [done|].
    destruct l; [cbn in *; lia|done].
  - rewrite (proj2 (Z.ltb_ge _ _)) by lia. unfold u256. rewrite (proj2 (checked_None _ _ _)) by (unfold U256_MAX; lia). done.
Qed.

Lemma window_targets_sum a targets : window_targets a targets ->
  mean_target_difficulty a = if sum_Z id targets <? 2 ^ 256 then Ok (sum_Z id targets / 17) else Panic.
Proof.
  intros [Hf Hlen]. pose proof (Forall2_length _ _ _ Hf) as Hl. rewrite length_take in Hl. unfold mean_target_difficulty.
  change (Z.to_nat POW_AVERAGING_WINDOW) with 17%nat. rewrite (proj2 (Nat.leb_le _ _)) by lia.
  assert (map_res (fun c => e ← to_expanded c; unwrap e) (take 17 (relevant_difficulty_thresholds a)) = Ok (E := Empty_set) targets) as ->.
  { clear -Hf. induction Hf as [|c e l es He Hf IH]; cbn [map_res]; [done|]. rewrite He. cbn. by rewrite IH. }
  cbn [mbind res_bind]. unfold expanded_sum. rewrite expanded_sum_eq; [|clear -Hf|done].
  - rewrite Z.add_0_l. destruct (_ <? _); [done|]. by destruct targets.
  - induction Hf; constructor; [by eapply to_expanded_nonneg|done].
Qed.

Lemma mean_bounds a limit w :
  relevant_ok a limit w -> exists mean, mean_target_difficulty a = Ok mean /\ is_mean a limit mean /\ 0 <= mean <= limit.
Proof.
  intros [Hl Hb _ _ Ht]. change POW_AVERAGING_WINDOW with 17 in Hb.
  destruct (Nat.le_gt_cases 17 (length (relevant_difficulty_thresholds a))) as [Hn|Hn].
  2: { exists limit. unfold mean_target_difficulty. change (Z.to_nat POW_AVERAGING_WINDOW) with 17%nat.
       rewrite (proj2 (Nat.leb_gt _ _)) by lia. split; [done|]. split; [by left|lia]. }
  assert (exists targets, window_targets a targets /\ Forall (fun e => 0 <= e <= limit) targets) as (targets & Hw & Hr).
  { apply (Forall_take _ 17) in Ht. unfold window_targets. pose proof (length_take (relevant_difficulty_thresholds a) 17) as Hlt.
    rewrite Nat.min_l in Hlt by lia. generalize dependent (take 17 (relevant_difficulty_thresholds a)). intros l Ht <-. clear -Ht.
    induction Ht as [|c l (e & He & Hr) Ht (es & [Hf Hlen] & Hes)]; [by exists []|].
    exists (e :: es). split; [split|]; [by constructor|cbn; lia|by constructor]. }
  pose proof Hw as [_ Hlen]. assert (0 <= sum_Z id targets <= 17 * limit) as Hs.
  { split; [apply sum_Z_nonneg; eapply Forall_impl; [exact Hr|]; unfold id; intros; lia|]. change 17 with (Z.of_nat 17). rewrite <- Hlen.
    clear -Hr. induction Hr as [|e l He Hr IH]; cbn [sum_Z length]; [lia|]. unfold id at 1. lia. }
  exists (sum_Z id targets / 17). rewrite (window_targets_sum a targets Hw), (proj2 (Z.ltb_lt _ _)) by lia.
  split; [done|]. split; [right; by exists targets|]. split; [apply Z.div_pos; lia|]. apply Z.div_le_upper_bound; lia.
Qed.

Lemma timespan_eq a limit w : relevant_ok a limit w -> exists span, median_timespan_bounded a = Ok span /\ is_timespan a w span.
Proof.
  intros [_ _ Hw Ht _]. unfold median_timespan_bounded. rewrite Hw. cbn [mbind res_bind]. unfold median_timespan, median_time_past.
  change POW_MEDIAN_BLOCK_SPAN with 11%nat. change (Z.to_nat POW_AVERAGING_WINDOW) with 17%nat.
  destruct (median_is_median (take 11 (relevant_times a))) as (newer & -> & Hnewer).
  { intros Hn. apply Ht. by destruct (relevant_times a). }
  cbn [mbind res_bind]. unfold is_timespan. destruct (Nat.ltb_spec 17 (length (relevant_times a))) as [Hn|Hn].
  - assert (0 < length (drop 17 (relevant_times a)))%nat as Hpos by (rewrite length_drop; lia).
    destruct (median_is_median (take 11 (drop 17 (relevant_times a)))) as (older & -> & Holder);
      [by destruct (drop 17 (relevant_times a)); [cbn in Hpos; lia|]|]. cbn [mbind res_bind]. eauto 10.
  - destruct (last (relevant_times a)) as [older|] eqn:El; [|by apply last_None in El]. cbn [unwrap mbind res_bind]. eauto 10.
Qed.
Lemma timespan_bounds a w span : w = 2550 \/ w = 1275 -> is_timespan a w span -> 84 * w <= 100 * span <= 132 * w.
Proof.
  intros Hw (newer & older & _ & _ & ->). destruct Hw as [-> | ->].
  - change (Z.quot (2550 * 84) 100) with 2142. change (Z.quot (2550 * 132) 100) with 3366. lia.
  - change (Z.quot (1275 * 84) 100) with 1071. change (Z.quot (1275 * 132) 100) with 1683. lia.
Qed.

(** The threshold in terms of the mean target and the bounded timespan. *)
Lemma threshold_bits_eq a limit window : relevant_ok a limit window ->
  exists mean span, mean_target_difficulty a = Ok mean /\ is_mean a limit mean /\ 0 <= mean <= limit /\ is_timespan a window span
    /\ 84 * window <= 100 * span <= 132 * window
    /\ 0 < window /\ threshold_bits a = to_compact (Z.min limit (mean / window * span)).
Proof.
  intros Hok. pose proof Hok as [Hl Hb Hw _ _]. change POW_AVERAGING_WINDOW with 17 in Hb.
  destruct (mean_bounds a limit window Hok) as (mean & Hm & Him & Hmb). destruct (timespan_eq a limit window Hok) as (span & Hs & His).
  pose proof (timespan_bounds a window span (window_values _ _ _ Hw) His) as Hsb.
  assert (0 < window) as Hwp by (destruct (window_values _ _ _ Hw); lia). exists mean, span. split_and!; try (done || lia).
  set (q := mean / window). pose proof (Z.div_mod mean window ltac:(lia)) as Hq. fold q in Hq.
  pose proof (Z.mod_pos_bound mean window Hwp) as Hr. assert (0 <= q) as Hq0 by (apply Z.div_pos; lia).
  assert (100 * (q * span) <= 132 * (window * q)) as Hqs by nia.
  unfold threshold_bits. rewrite Hw. cbn [mbind res_bind]. rewrite Hm. cbn [mbind res_bind]. unfold expanded_div.
  rewrite (proj2 (Z.eqb_neq window 0)) by lia. cbn [mbind res_bind]. rewrite Hs. cbn [mbind res_bind]. unfold expanded_mul.
  fold q. rewrite u256_in by (split; [apply Z.mul_nonneg_nonneg; lia|lia]). cbn [mbind res_bind]. rewrite Hl. done.
Qed.

(** C35. The difficulty adjustment is exact and bounded. On a network whose limit
    is below a 17th of 2^256 (Mainnet, the default test network and Regtest), with
    a time and valid thresholds at most the limit before the candidate: the mean is
    that of the last 17 targets, or the limit while there are fewer; the timespan
    is the difference of the medians of the last 11 times and of the 11 times 17
    blocks before (or the oldest time, when there are none), damped by 4 and kept
    within 84% and 132% of the window; and the new target is the mean divided by
    the window and multiplied by the timespan, or the limit when that is lower. So
    the target is at most 132% of the mean and, unless it is the limit, more than
    84% of the mean less one window. It is encoded with a precision of one part in
    2^15, and the only panic is for a mean below the length of the window in
    seconds. On any network, 17 targets whose sum is not below 2^256 make the code
    panic, which configured limits above 2^252 allow. *)
Theorem difficulty_adjustment_bounded a limit window :
  (relevant_ok a limit window ->
   exists mean span threshold, mean_target_difficulty a = Ok mean /\ is_mean a limit mean /\ 0 <= mean <= limit
     /\ is_timespan a window span /\ 84 * window <= 100 * span <= 132 * window
     /\ threshold = Z.min limit (mean / window * span)
     /\ 0 <= threshold <= limit /\ 100 * threshold <= 132 * mean
     /\ (threshold = limit \/ 84 * (mean - window) < 100 * threshold)
     /\ (mean < window -> threshold_bits a = Panic)
     /\ (window <= mean -> exists compact t, threshold_bits a = Ok compact /\ to_expanded compact = Ok (Some t)
           /\ 0 < t <= threshold /\ (threshold - t) * 2 ^ 15 < threshold))
  /\ (forall targets, window_targets a targets -> 2 ^ 256 <= sum_Z id targets -> threshold_bits a = Panic).
Proof.
  split; [intros Hok|].
  - pose proof (ro_limit_bound _ _ _ Hok) as Hb. change POW_AVERAGING_WINDOW with 17 in Hb.
    destruct (threshold_bits_eq a limit window Hok) as (mean & span & Hm & Him & Hmb & His & Hsb & Hwp & ->).
    set (q := mean / window). pose proof (Z.div_mod mean window ltac:(lia)) as Hq. fold q in Hq.
    pose proof (Z.mod_pos_bound mean window Hwp) as Hr. assert (0 <= q) as Hq0 by (apply Z.div_pos; lia).
    assert (84 * (window * q) <= 100 * (q * span) <= 132 * (window * q)) as Hqs by nia.
    exists mean, span, (Z.min limit (q * span)).
    split; [done|]. split; [done|]. split; [lia|]. split; [done|]. split; [done|]. split; [done|]. split; [lia|]. split; [lia|]. split; [lia|]. split.
    + intros Hlt. assert (q = 0) as -> by (apply Z.div_small; lia). rewrite Z.mul_0_l, Z.min_r by lia. done.
    + intros Hle. assert (0 < q) as Hqp by (apply Z.div_str_pos; lia). assert (0 < span) by lia.
      assert (0 < Z.min limit (q * span) < 2 ^ 256) as Ht by nia.
      destruct (truncated_bounds _ Ht) as (Ht1 & Ht0 & Hp). eexists _, (truncated _).
      rewrite to_compact_spec, expanded_of_compact by done. split_and!; [done|done|done|lia|done].
  - intros targets Hw Hs. unfold threshold_bits. rewrite (window_targets_sum a targets Hw), (proj2 (Z.ltb_ge _ _) Hs).
    by destruct (averaging_window_timespan_for_height _ _) as [|[]|].
Qed.

Lemma compact_within x limit : 0 < x <= limit -> limit < 2 ^ 256 ->
  exists compact t, to_compact x = Ok compact /\ to_expanded compact = Ok (Some t) /\ 0 < t <= limit.
Proof.
  intros Hx Hl. assert (0 < x < 2 ^ 256) as Ht by lia. destruct (truncated_bounds _ Ht) as (Ht1 & Ht0 & Hp).
  eexists _, (truncated _). rewrite to_compact_spec, expanded_of_compact by done. split; [done|]. split; [done|]. lia.
Qed.

(** With a mean target of at least the window, the expected difficulty is a
    valid one within the limit. *)
Lemma expected_difficulty_ok a limit window mean : relevant_ok a limit window ->
  mean_target_difficulty a = Ok mean -> window <= mean ->
  exists compact t, expected_difficulty_threshold a = Ok compact /\ to_expanded compact = Ok (Some t) /\ 0 < t <= limit.
Proof.
  intros Hok Hm Hle. pose proof Hok as [Hl Hb Hw Ht _]. change POW_AVERAGING_WINDOW with 17 in Hb.
  destruct (threshold_bits_eq a limit window Hok) as (mean' & span & Hm' & _ & Hmb & _ & Hsb & Hwp & He).
  rewrite Hm in Hm'. apply Ok_inj in Hm' as <-. assert (0 < mean / window) by (apply Z.div_str_pos; lia).
  unfold expected_difficulty_threshold. destruct (relevant_times a) as [|t ts]; [done|]. cbn [head unwrap mbind res_bind].
  assert (exists b, is_testnet_min_difficulty_block (ad_network a) (candidate_height a) (candidate_time a) t = Ok b
            /\ (b = true -> is_a_test_network (ad_network a) = true)) as (b & -> & Hb').
  { apply bind_Ok_inv in Hw as (nu & Hnu & _). unfold is_testnet_min_difficulty_block, minimum_difficulty_spacing_for_height.
    destruct (ad_network a); [exists false; split; [reflexivity|discriminate]|].
    destruct (candidate_height a <? _); [exists false; split; [reflexivity|discriminate]|].
    rewrite Hnu. cbn [mbind res_bind]. eexists. split; reflexivity. }
  cbn [mbind res_bind]. destruct b.
  - rewrite Hb' by done. cbn [assert_ mbind res_bind]. rewrite Hl. cbn [mbind res_bind]. apply compact_within; lia.
  - rewrite He. apply compact_within; [|lia]. split; [|apply Z.le_min_l]. apply Z.min_glb_lt; [lia|]. apply Z.mul_pos_pos; lia.
Qed.

(** A block's time and threshold are accepted exactly when the time is
    after the median of the last eleven times (except at genesis), at most
    ninety minutes after it where that is enforced, and the threshold is the
    expected one; the median is one of those times, with at least half of them
    on either side. *)
Theorem difficulty_and_time_exact d a :
  difficulty_threshold_and_time_are_valid d a = Ok tt <->
  exists median genesis,
    (let times := take POW_MEDIAN_BLOCK_SPAN (relevant_times a) in
     median_time_past a = Ok median /\ median ∈ times
     /\ (length times <= 2 * length (filter (fun t => (t <= median)%Z) times))%nat
     /\ (length times <= 2 * length (filter (fun t => (median <= t)%Z) times))%nat)
    /\ activation_height Genesis (ad_network a) = Some genesis
    /\ (median < candidate_time a \/ candidate_height a = genesis)
    /\ (is_max_block_time_enforced (ad_network a) (candidate_height a) = true -> candidate_time a <= median + 90 * 60)
    /\ expected_difficulty_threshold a = Ok d.
Proof.
  unfold difficulty_threshold_and_time_are_valid. cbv zeta. split.
  - intros (m & Em%lift_Ok & (g & Eg%unwrap_Ok & Hc)%bind_Ok_inv)%bind_Ok_inv. exists m, g.
    destruct (median_spec (take POW_MEDIAN_BLOCK_SPAN (relevant_times a))) as (m' & Em' & Hmed).
    { unfold median_time_past in Em. by intros E; rewrite E in Em. }
    assert (m' = m) as -> by (unfold median_time_past in Em; congruence). clear Em'.
    destruct ((candidate_time a <=? m) && negb (candidate_height a =? g)) eqn:E1; [done|].
    destruct (is_max_block_time_enforced _ _ && (m + BLOCK_MAX_TIME_SINCE_MEDIAN <? candidate_time a)) eqn:E2; [done|].
    apply bind_Ok_inv in Hc as (e & He%lift_Ok & Hc). destruct (Z.eqb_spec d e) as [->|]; [|done].
    split_and!; try done; try apply Hmed.
    + apply andb_false_iff in E1 as [E1|E1]; [left|right]; [by apply Z.leb_gt in E1|].
      apply negb_false_iff in E1. by apply Z.eqb_eq in E1.
    + intros Hen. rewrite Hen in E2. by apply Z.ltb_ge in E2.
  - intros (m & g & (-> & _) & -> & Hor & Hmax & ->). cbn [lift unwrap mbind res_bind].
    replace ((candidate_time a <=? m) && negb (candidate_height a =? g)) with false; cycle 1.
    { symmetry. apply andb_false_iff. destruct Hor as [Hlt| ->]; [left; by apply Z.leb_gt|right; by rewrite Z.eqb_refl]. }
    destruct (is_max_block_time_enforced _ _); cbn [andb].
    + rewrite (proj2 (Z.ltb_ge _ _)) by (by apply Hmax). by rewrite Z.eqb_refl.
    + by rewrite Z.eqb_refl.
Qed.
End AdjustedDifficulty.

Module DifficultyExample.
#[local] Existing Instance release_build.

(** Seventeen blocks every 75 seconds at the Mainnet limit. *)
Definition steady : AdjustedDifficulty :=
  mkAdjustedDifficulty (1600000000 + 28 * 75) 2000000 Mainnet (replicate 28 0x1f07ffff)
    ((fun i => 1600000000 + 75 * (27 - Z.of_nat i)) <$> seq 0 28).
Definition mainnet_limit : Z := Eval vm_compute in match target_difficulty_limit MainnetLimit with Ok l => l | _ => 0 end.

Lemma steady_ok : relevant_ok steady mainnet_limit 1275.
Proof.
  split; [vm_compute; reflexivity|vm_compute; done|vm_compute; reflexivity|done|].
  change (relevant_difficulty_thresholds steady) with (replicate 28 0x1f07ffff). apply Forall_replicate.
  exists mainnet_limit. split; vm_compute; [reflexivity|split; discriminate].
Qed.
(** A test network with the limit [limit], and blocks at that limit: Regtest's
    limit is the bytes [0x0f], in its compact precision. *)
Definition at_limit (limit compact : Z) : AdjustedDifficulty :=
  mkAdjustedDifficulty (1600000000 + 28 * 75) 2000000
    (Testnet (mkParameters "Example" [] [] [(0, Genesis); (1, Nu6)] 0 0 [] limit true true 1000 2000 [])) (replicate 28 compact)
    ((fun i => 1600000000 + 75 * (27 - Z.of_nat i)) <$> seq 0 28).
Definition regtest : AdjustedDifficulty := at_limit (0x0f0f0f * 256 ^ 29) 0x200f0f0f.
Lemma regtest_ok : relevant_ok regtest (0x0f0f0f * 256 ^ 29) 1275.
Proof.
  split; [reflexivity|vm_compute; done|vm_compute; reflexivity|done|].
  change (relevant_difficulty_thresholds regtest) with (replicate 28 0x200f0f0f). apply Forall_replicate.
  exists (0x0f0f0f * 256 ^ 29). split; vm_compute; [reflexivity|split; discriminate].
Qed.

Lemma difficulty_adjustment_bounded_witness :
  (exists compact t, threshold_bits steady = Ok compact /\ to_expanded compact = Ok (Some t) /\ 0 < t <= mainnet_limit)
  /\ (exists mean, mean_target_difficulty regtest = Ok mean /\ 0 <= mean <= 0x0f0f0f * 256 ^ 29)
  /\ threshold_bits (at_limit (0x7fffff * 256 ^ 29) 0x207fffff) = Panic.
Proof.
  split_and!.
  - destruct (proj1 (difficulty_adjustment_bounded steady mainnet_limit 1275) steady_ok)
      as (mean & span & threshold & Hm & _ & _ & _ & _ & _ & Ht & _ & _ & _ & Hok).
    assert (mean_target_difficulty steady = Ok mainnet_limit) as Em by (vm_compute; reflexivity).
    rewrite Em in Hm. injection Hm as <-.
    destruct Hok as (c & t & Hc & He & Hr & _); [vm_compute; discriminate|].
    exists c, t. split; [exact Hc|]. split; [exact He|]. lia.
  - destruct (proj1 (difficulty_adjustment_bounded regtest _ 1275) regtest_ok) as (mean & span & threshold & Hm & _ & Hr & _).
    exists mean. exact (conj Hm Hr).
  - apply (proj2 (difficulty_adjustment_bounded (at_limit (0x7fffff * 256 ^ 29) 0x207fffff) 0 0) (replicate 17 (0x7fffff * 256 ^ 29))).
    + split; [|reflexivity]. change (take 17 _) with (replicate 17 0x207fffff). repeat (constructor; [vm_compute; reflexivity|]). constructor.
    + vm_compute. discriminate.
Defined.
End DifficultyExample.
