(* ===== verification/FinalizedState.v ===== *)
(** The finalized state: the database of finalized blocks
    ([zebra-state/src/service/finalized_state.rs] and
    [finalized_state/zebra_db/{block,transparent,shielded,chain}.rs]).

    A column family is a map of its typed keys and values; [DiskFormat.v] shows
    that the encodings of the keys that fit on disk are one to one and keep
    their order (a height above the largest on-disk height, far above any
    chain, would be looked up as that height). A write batch is prepared
    from the database before the batch, and its insertions, deletions and
    merges are applied in order: the batch is represented by the database it
    produces. The model is of the default build, without the [indexer] and
    [elasticsearch] features, for a database written by this version of the
    format (older formats keep the tip trees under height keys), and without
    the debug setting that stops the process at a height. Note commitment
    trees are compared by their roots (the source compares cached roots, and
    the tree contents when a root is not cached). *)
From S2P Require Import Prelude BTreeMap Height Amount ValueBalance NetworkUpgrade BlockHeader Transaction BlockCommitment TransparentIndex DiskFormat ChainIndexes Chain ContextChecks.
From stdpp Require Import strings gmap gmultiset prelude.
From Stdlib Require Import ZArith Lia.
#[local] Open Scope Z_scope.

(** The empty tree, and the empty history tree, which is never stored. *)
Class DefaultTree (T : Type) := default_tree : T.
Class StoredHistory (H : Type) := { history_default : H; history_is_stored : H -> bool }.

(** ** Column families *)

Record BlockCf := mkBlockCf {
  cf_hash_by_height : btree bytes;
  cf_height_by_hash : gmap bytes Z;
  cf_block_header_by_height : gmap Z Header;
  cf_tx_by_loc : gmap TransactionLocation Transaction;
  cf_hash_by_tx_loc : gmap TransactionLocation bytes;
  cf_tx_loc_by_hash : gmap bytes TransactionLocation
}.
Record TransparentCf := mkTransparentCf {
  cf_balance_by_transparent_addr : gmap bytes AddressBalanceLocationInner;
  cf_utxo_by_out_loc : gmap OutputLocation Output;
  cf_utxo_loc_by_transparent_addr_loc : gset AddressUnspentOutput;
  cf_tx_loc_by_transparent_addr_loc : gset AddressTransaction
}.
Record PoolCf (T : Type) := mkPoolCf {
  cf_anchors : gset bytes;
  cf_note_commitment_tree : btree T;
  cf_note_commitment_subtree : btree (Z * bytes)
}.
Arguments mkPoolCf {_} _ _ _.
Arguments cf_anchors {_} _.
Arguments cf_note_commitment_tree {_} _.
Arguments cf_note_commitment_subtree {_} _.
Record SproutCf (T : Type) := mkSproutCf { cf_sprout_anchors : gmap bytes T; cf_sprout_tree : option T }.
Arguments mkSproutCf {_} _ _.
Arguments cf_sprout_anchors {_} _.
Arguments cf_sprout_tree {_} _.
Record NullifierCf := mkNullifierCf {
  cf_sprout_nullifiers : gset bytes;
  cf_sapling_nullifiers : gset bytes;
  cf_orchard_nullifiers : gset bytes
}.
Record ChainCf (H : Type) := mkChainCf {
  cf_history_tree : option H;
  cf_tip_chain_value_pool : option ValueBalance;
  cf_block_info : gmap Z (ValueBalance * Z)
}.
Arguments mkChainCf {_} _ _ _.
Arguments cf_history_tree {_} _.
Arguments cf_tip_chain_value_pool {_} _.
Arguments cf_block_info {_} _.

Inductive CommitError : Type :=
| ContextError (error : ValidateContextError)
| HistoryError (error : string)
| ValuePoolError (error : ValueBalanceError).

Section FinalizedState.
Context {SproutT SaplingT OrchardT HistoryT : Type}
  `{!NoteTree SproutT} `{!NoteTree SaplingT} `{!SubtreeTree SaplingT} `{!NoteTree OrchardT} `{!SubtreeTree OrchardT}
  `{!DefaultTree SproutT} `{!DefaultTree SaplingT} `{!DefaultTree OrchardT}
  `{!HistoryTreeOps HistoryT} `{!HistoryTreeHash HistoryT} `{!StoredHistory HistoryT}
  `{!ChainContext} `{!CommitmentOps} `{BuildProfile}.
Abbreviation tree_state := (Treestate SproutT SaplingT OrchardT HistoryT).
Abbreviation trees := (NoteCommitmentTrees SproutT SaplingT OrchardT).

Record FinalizedDb := mkFinalizedDb {
  fdb_network : Network;
  block_cf : BlockCf;
  transparent_cf : TransparentCf;
  nullifier_cf : NullifierCf;
  sprout_cf : SproutCf SproutT;
  sapling_cf : PoolCf SaplingT;
  orchard_cf : PoolCf OrchardT;
  chain_cf : ChainCf HistoryT
}.
Implicit Types (db batch : FinalizedDb).

Definition empty_db (network : Network) : FinalizedDb :=
  mkFinalizedDb network (mkBlockCf [] ∅ ∅ ∅ ∅ ∅) (mkTransparentCf ∅ ∅ ∅ ∅) (mkNullifierCf ∅ ∅ ∅) (mkSproutCf ∅ None)
    (mkPoolCf ∅ [] []) (mkPoolCf ∅ [] []) (mkChainCf None None ∅).

Definition set_block_cf db cf : FinalizedDb :=
  mkFinalizedDb (fdb_network db) cf (transparent_cf db) (nullifier_cf db) (sprout_cf db) (sapling_cf db) (orchard_cf db)
    (chain_cf db).
Definition set_transparent_cf db cf : FinalizedDb :=
  mkFinalizedDb (fdb_network db) (block_cf db) cf (nullifier_cf db) (sprout_cf db) (sapling_cf db) (orchard_cf db)
    (chain_cf db).
Definition set_nullifier_cf db cf : FinalizedDb :=
  mkFinalizedDb (fdb_network db) (block_cf db) (transparent_cf db) cf (sprout_cf db) (sapling_cf db) (orchard_cf db)
    (chain_cf db).
Definition set_tree_cfs db sprout sapling orchard : FinalizedDb :=
  mkFinalizedDb (fdb_network db) (block_cf db) (transparent_cf db) (nullifier_cf db) sprout sapling orchard (chain_cf db).
Definition set_chain_cf db cf : FinalizedDb :=
  mkFinalizedDb (fdb_network db) (block_cf db) (transparent_cf db) (nullifier_cf db) (sprout_cf db) (sapling_cf db)
    (orchard_cf db) cf.

(** ** Reading blocks *)

Definition fdb_is_empty db : bool := match cf_hash_by_height (block_cf db) with [] => true | _ => false end.
Definition fdb_tip db : option (Z * bytes) := last (cf_hash_by_height (block_cf db)).
Definition fdb_contains_height db (height : Z) : bool := negb (is_none (bt_get height (cf_hash_by_height (block_cf db)))).
Definition fdb_hash db (height : Z) : option bytes := bt_get height (cf_hash_by_height (block_cf db)).
Definition fdb_contains_hash db (hash : bytes) : bool := bool_decide (is_Some (cf_height_by_hash (block_cf db) !! hash)).
Definition fdb_height db (hash : bytes) : option Z := cf_height_by_hash (block_cf db) !! hash.
Definition ok_option {E A} (r : res E A) : option A := match r with Ok a => Some a | _ => None end.
Definition prev_block_height_for_hash db (hash : bytes) : option Z :=
  height ← fdb_height db hash; ok_option (height_previous height).
Definition prev_block_hash_for_hash db (hash : bytes) : option bytes :=
  prev_height ← prev_block_height_for_hash db hash; fdb_hash db prev_height.
Definition fdb_height_or_else db (hh : HashOrHeight) : option Z :=
  match hh with Hash hash => fdb_height db hash | Height height => Some height end.
Definition fdb_block_header db (hh : HashOrHeight) : option Header :=
  height ← fdb_height_or_else db hh; cf_block_header_by_height (block_cf db) !! height.

(** The keys of one height, in key order. *)
Definition transactions_by_height db (height : Z) : list (TransactionLocation * Transaction) :=
  omap (fun i => let loc := mkTransactionLocation height i in
                 (fun tx => (loc, tx)) <$> cf_tx_by_loc (block_cf db) !! loc) (seqZ 0 (u16_MAX + 1)).
Definition fdb_block db (hh : HashOrHeight) : option Block :=
  height ← fdb_height_or_else db hh;
  header ← fdb_block_header db (Height height);
  Some (mkBlock header (transactions_by_height db height).*2).
Definition fdb_tip_height db : option Z := fst <$> fdb_tip db.
Definition fdb_tip_hash db : bytes := default GENESIS_PREVIOUS_BLOCK_HASH (snd <$> fdb_tip db).
Definition fdb_tip_block db : option Block := '(height, _) ← fdb_tip db; fdb_block db (Height height).
Definition fdb_transaction_location db (hash : bytes) : option TransactionLocation := cf_tx_loc_by_hash (block_cf db) !! hash.
Definition fdb_transaction_hash db (loc : TransactionLocation) : option bytes := cf_hash_by_tx_loc (block_cf db) !! loc.
Definition fdb_transaction db (hash : bytes) : option (Transaction * Z * Z) :=
  loc ← fdb_transaction_location db hash;
  tx ← cf_tx_by_loc (block_cf db) !! loc;
  header ← fdb_block_header db (Height (loc_height loc));
  Some (tx, loc_height loc, time header).

(** ** Reading transparent data *)

(** A stored balance is read as a non-negative amount. *)
Definition address_balance_location db (address : bytes) : outcome (option AddressBalanceLocationInner) :=
  match cf_balance_by_transparent_addr (transparent_cf db) !! address with
  | None => Ok None
  | Some abl => _ ← expect (amount_constrain NonNegative (abl_balance abl)); Ok (Some abl)
  end.
Definition address_balance db (address : bytes) : outcome (option (Z * Z)) :=
  abl ← address_balance_location db address; Ok (option_map (fun a => (abl_balance a, abl_received a)) abl).
Definition address_location db (address : bytes) : outcome (option OutputLocation) :=
  abl ← address_balance_location db address; Ok (option_map abl_location abl).
Definition output_location db (outpoint : OutPoint) : option OutputLocation :=
  (fun loc => from_outpoint loc outpoint) <$> fdb_transaction_location db (outpoint_hash outpoint).
Definition utxo_by_location db (loc : OutputLocation) : option OrderedUtxo :=
  output ← cf_utxo_by_out_loc (transparent_cf db) !! loc;
  Some (OrderedUtxo_new output (loc_height (transaction_loc loc)) (loc_index (transaction_loc loc))).
Definition fdb_utxo db (outpoint : OutPoint) : option OrderedUtxo :=
  loc ← output_location db outpoint; utxo_by_location db loc.

(** The keys that start with an address location. *)
Definition address_utxo_locations db (address_location : OutputLocation) : gset AddressUnspentOutput :=
  filter (fun k => auo_address k = address_location) (cf_utxo_loc_by_transparent_addr_loc (transparent_cf db)).
Definition address_utxos db (address : bytes) : outcome (gmap OutputLocation Output) :=
  location ← address_location db address;
  Ok match location : option OutputLocation with
     | None => ∅
     | Some location =>
         list_to_map (omap (fun k => (fun u => (auo_output k, utxo_output (ordered_utxo u))) <$> utxo_by_location db (auo_output k))
                        (elements (address_utxo_locations db location)))
     end.

Definition tx_loc_le (a b : TransactionLocation) : bool := match tx_loc_cmp a b with Gt => false | _ => true end.
Definition tx_loc_max (a b : TransactionLocation) : TransactionLocation := if tx_loc_le a b then b else a.
Definition address_transaction_locations db (address_location : OutputLocation) (lo hi : Z) : gset AddressTransaction :=
  let first := tx_loc_max (transaction_loc address_location) (mkTransactionLocation lo 0) in
  let last := mkTransactionLocation hi u16_MAX in
  filter (fun k => at_address k = address_location /\ tx_loc_le first (at_transaction k) = true
                   /\ tx_loc_le (at_transaction k) last = true) (cf_tx_loc_by_transparent_addr_loc (transparent_cf db)).
Definition address_tx_ids db (address : bytes) (lo hi : Z) : outcome (gmap TransactionLocation bytes) :=
  location ← address_location db address;
  match location with
  | None => Ok ∅
  | Some location =>
      if hi <? loc_height (transaction_loc location) then Ok ∅
      else foldM (fun m k => hash ← unwrap (fdb_transaction_hash db (at_transaction k)); Ok (<[at_transaction k := hash]> m))
             ∅ (elements (address_transaction_locations db location lo hi))
  end.

(** Totals over a set of addresses. *)
Definition partial_finalized_transparent_balance db (addresses : gset bytes) : outcome (Z * Z) :=
  foldM (fun '(a_balance, a_received) address =>
           b ← address_balance db address;
           match b with
           | None => Ok (a_balance, a_received)
           | Some (b_balance, b_received) =>
               sum ← expect (amount_add NonNegative a_balance b_balance);
               Ok (sum, u64_saturate (a_received + b_received))
           end) (0, 0) (elements addresses).
Definition partial_finalized_address_utxos db (addresses : gset bytes) : outcome (gmap OutputLocation Output) :=
  foldM (fun m address => utxos ← address_utxos db address; Ok (utxos ∪ m)) ∅ (elements addresses).
Definition partial_finalized_transparent_tx_ids db (addresses : gset bytes) (lo hi : Z)
    : outcome (gmap TransactionLocation bytes) :=
  foldM (fun m address => ids ← address_tx_ids db address lo hi; Ok (ids ∪ m)) ∅ (elements addresses).

(** ** Reading shielded data and pools *)

Definition fdb_contains_nullifier db (pool : Pool) (nullifier : bytes) : bool :=
  bool_decide (nullifier ∈ match pool with
                           | SproutPool => cf_sprout_nullifiers (nullifier_cf db)
                           | SaplingPool => cf_sapling_nullifiers (nullifier_cf db)
                           | OrchardPool => cf_orchard_nullifiers (nullifier_cf db)
                           end).
Definition fdb_contains_anchor {T} (cf : PoolCf T) (anchor : bytes) : bool := bool_decide (anchor ∈ cf_anchors cf).
Definition fdb_sprout_tree_for_tip db : outcome SproutT :=
  if fdb_is_empty db then Ok default_tree else unwrap (cf_sprout_tree (sprout_cf db)).
Definition fdb_sprout_tree_by_anchor db (anchor : bytes) : option SproutT := cf_sprout_anchors (sprout_cf db) !! anchor.

(** [sapling_tree_by_height] and [orchard_tree_by_height]. *)
Definition tree_by_height {T} db (cf : PoolCf T) (height : Z) : outcome (option T) :=
  match fdb_tip_height db with
  | None => Ok None
  | Some tip_height =>
      if tip_height <? height then Ok None
      else tree ← unwrap (last (filter (fun e => e.1 <= height) (cf_note_commitment_tree cf))); Ok (Some tree.2)
  end.
Definition fdb_tree_for_tip {T} `{!DefaultTree T} db (cf : PoolCf T) : outcome T :=
  match fdb_tip_height db with
  | None => Ok default_tree
  | Some height => tree ← tree_by_height db cf height; unwrap tree
  end.
Definition fdb_subtree_for_tip {T} db (cf : PoolCf T) : option (Z * (Z * bytes)) :=
  '(index, subtree_data) ← last (cf_note_commitment_subtree cf);
  tip_height ← fdb_tip_height db;
  if subtree_data.1 =? tip_height then Some (index, subtree_data) else None.
Definition note_commitment_trees_for_tip db : outcome trees :=
  sprout ← fdb_sprout_tree_for_tip db;
  sapling ← fdb_tree_for_tip db (sapling_cf db);
  orchard ← fdb_tree_for_tip db (orchard_cf db);
  Ok (mkNoteCommitmentTrees sprout sapling (fdb_subtree_for_tip db (sapling_cf db)) orchard
        (fdb_subtree_for_tip db (orchard_cf db))).
Definition fdb_history_tree db : HistoryT := default history_default (cf_history_tree (chain_cf db)).
Definition fdb_value_pool db : ValueBalance := default value_balance_zero (cf_tip_chain_value_pool (chain_cf db)).
Definition fdb_block_info db (hh : HashOrHeight) : option (ValueBalance * Z) :=
  height ← fdb_height_or_else db hh; cf_block_info (chain_cf db) !! height.

(** The database as the contextual checks see it. *)
Definition zebra_db db : ZebraDb SproutT SaplingT OrchardT HistoryT :=
  mkZebraDb (fdb_network db) (fdb_tip db) (fdb_height db) (fun height => fdb_block db (Height height)) (fdb_utxo db)
    (fdb_contains_nullifier db) (fdb_contains_anchor (sapling_cf db)) (fdb_contains_anchor (orchard_cf db))
    (fdb_sprout_tree_by_anchor db) (fdb_sprout_tree_for_tip db) (fdb_tree_for_tip db (sapling_cf db))
    (fdb_tree_for_tip db (orchard_cf db)) (fdb_history_tree db) (fdb_value_pool db).

(** ** Blocks to be committed *)

Inductive FinalizableBlock : Type :=
| Checkpoint (checkpoint_verified : SemanticallyVerifiedBlock)
| Contextual (contextually_verified : ContextuallyVerifiedBlock) (treestate : tree_state).

Record FinalizedBlock := mkFinalizedBlock {
  fb_block : Block;
  fb_hash : bytes;
  fb_height : Z;
  fb_new_outputs : gmap OutPoint OrderedUtxo;
  fb_transaction_hashes : list bytes;
  fb_treestate : tree_state;
  fb_deferred_pool_balance_change : option Z
}.

Definition semantically_from_contextually_verified (valid : ContextuallyVerifiedBlock) : SemanticallyVerifiedBlock :=
  mkSemanticallyVerifiedBlock (cv_block valid) (cv_hash valid) (cv_height valid) (cv_new_outputs valid)
    (cv_transaction_hashes valid) (Some (deferred (cv_chain_value_pool_change valid))).
Definition from_semantically_verified (b : SemanticallyVerifiedBlock) (treestate : tree_state) : FinalizedBlock :=
  mkFinalizedBlock (sv_block b) (sv_hash b) (sv_height b) (sv_new_outputs b) (sv_transaction_hashes b) treestate
    (sv_deferred_pool_balance_change b).
Definition from_contextually_verified (b : ContextuallyVerifiedBlock) (treestate : tree_state) : FinalizedBlock :=
  from_semantically_verified (semantically_from_contextually_verified b) treestate.

(** ** The batch of a block *)

Definition prepare_block_header_and_transaction_data_batch batch (fb : FinalizedBlock) : outcome FinalizedDb :=
  let cf := block_cf batch in
  let height := fb_height fb in
  let cf := mkBlockCf (bt_insert height (fb_hash fb) (cf_hash_by_height cf)) (<[fb_hash fb := height]> (cf_height_by_hash cf))
              (<[height := block_header (fb_block fb)]> (cf_block_header_by_height cf)) (cf_tx_by_loc cf)
              (cf_hash_by_tx_loc cf) (cf_tx_loc_by_hash cf) in
  cf ← foldM (fun cf '(transaction_index, (transaction, transaction_hash)) =>
                loc ← TransactionLocation_from_usize height transaction_index;
                Ok (mkBlockCf (cf_hash_by_height cf) (cf_height_by_hash cf) (cf_block_header_by_height cf)
                      (<[loc := transaction]> (cf_tx_by_loc cf)) (<[loc := transaction_hash]> (cf_hash_by_tx_loc cf))
                      (<[transaction_hash := loc]> (cf_tx_loc_by_hash cf))))
         cf (enumerate (zip (transactions (fb_block fb)) (fb_transaction_hashes fb)));
  Ok (set_block_cf batch cf).

Definition prepare_nullifier_batch (cf : NullifierCf) (tx : Transaction) : NullifierCf :=
  mkNullifierCf (list_to_set (sprout_nullifiers tx) ∪ cf_sprout_nullifiers cf)
    (list_to_set (sapling_nullifiers tx) ∪ cf_sapling_nullifiers cf)
    (list_to_set (orchard_nullifiers tx) ∪ cf_orchard_nullifiers cf).
Definition prepare_shielded_transaction_batch batch (fb : FinalizedBlock) : FinalizedDb :=
  set_nullifier_cf batch (foldl prepare_nullifier_batch (nullifier_cf batch) (transactions (fb_block fb))).

Definition update_sprout_tree (tree : SproutT) (cf : SproutCf SproutT) : SproutCf SproutT :=
  mkSproutCf (<[tree_root tree := tree]> (cf_sprout_anchors cf)) (Some tree).
Definition create_tree {T} `{!NoteTree T} (height : Z) (tree : T) (cf : PoolCf T) : PoolCf T :=
  mkPoolCf ({[tree_root tree]} ∪ cf_anchors cf) (bt_insert height tree (cf_note_commitment_tree cf))
    (cf_note_commitment_subtree cf).
Definition insert_subtree {T} (subtree : Z * (Z * bytes)) (cf : PoolCf T) : PoolCf T :=
  mkPoolCf (cf_anchors cf) (cf_note_commitment_tree cf) (bt_insert subtree.1 subtree.2 (cf_note_commitment_subtree cf)).
Definition update_history_tree (tree : HistoryT) (cf : ChainCf HistoryT) : ChainCf HistoryT :=
  if history_is_stored tree then mkChainCf (Some tree) (cf_tip_chain_value_pool cf) (cf_block_info cf) else cf.

(** A tree, its anchor and its completed subtree are stored when the tree
    differs from the previous tip's. *)
Definition update_pool_cf {T} `{!NoteTree T} (height : Z) (prev_tree tree : T) (subtree : option (Z * (Z * bytes)))
    (cf : PoolCf T) : PoolCf T :=
  if height_is_min height || negb (bool_decide (tree_root prev_tree = tree_root tree)) then
    let cf := create_tree height tree cf in
    match subtree with Some subtree => insert_subtree subtree cf | None => cf end
  else cf.

Definition prepare_trees_batch db batch (fb : FinalizedBlock) (prev : option trees) : outcome FinalizedDb :=
  let height := fb_height fb in
  let nct := treestate_trees (fb_treestate fb) in
  prev_sprout_tree ← match prev with Some p => Ok (nct_sprout p) | None => fdb_sprout_tree_for_tip db end;
  prev_sapling_tree ← match prev with Some p => Ok (nct_sapling p) | None => fdb_tree_for_tip db (sapling_cf db) end;
  prev_orchard_tree ← match prev with Some p => Ok (nct_orchard p) | None => fdb_tree_for_tip db (orchard_cf db) end;
  let sprout := if height_is_min height || negb (bool_decide (tree_root prev_sprout_tree = tree_root (nct_sprout nct)))
                then update_sprout_tree (nct_sprout nct) (sprout_cf batch) else sprout_cf batch in
  let sapling := update_pool_cf height prev_sapling_tree (nct_sapling nct) (nct_sapling_subtree nct) (sapling_cf batch) in
  let orchard := update_pool_cf height prev_orchard_tree (nct_orchard nct) (nct_orchard_subtree nct) (orchard_cf batch) in
  let batch := set_tree_cfs batch sprout sapling orchard in
  Ok (set_chain_cf batch (update_history_tree (treestate_history (fb_treestate fb)) (chain_cf batch))).

(** *** Transparent outputs *)

Abbreviation balances := (gmap bytes AddressBalanceLocationInner).

Definition out_loc_le (a b : OutputLocation) : bool := match out_loc_cmp a b with Gt => false | _ => true end.
(** The entries of a [BTreeMap] of outputs, in order of location. *)
Definition by_location {V} (m : gmap OutputLocation V) : list (OutputLocation * V) :=
  stable_sort (fun a b => out_loc_le a.1 b.1) (map_to_list m).

Definition prepare_new_transparent_output (network : Network) (st : TransparentCf * balances)
    (e : OutputLocation * Utxo) : outcome (TransparentCf * balances) :=
  let '(cf, address_balances) := st in
  let '(new_output_location, utxo) := e in
  let unspent_output := utxo_output utxo in
  '(cf, address_balances) ←
    match output_address network unspent_output with
    | Some receiving_address =>
        let abl := default (abl_new new_output_location) (address_balances !! receiving_address) in
        let location := abl_location abl in
        abl ← expect (receive_output abl unspent_output);
        Ok (mkTransparentCf (cf_balance_by_transparent_addr cf) (cf_utxo_by_out_loc cf)
              ({[mkAddressUnspentOutput location new_output_location]} ∪ cf_utxo_loc_by_transparent_addr_loc cf)
              ({[mkAddressTransaction location (transaction_loc new_output_location)]} ∪ cf_tx_loc_by_transparent_addr_loc cf),
            <[receiving_address := abl]> address_balances)
    | None => Ok (cf, address_balances)
    end;
  Ok (mkTransparentCf (cf_balance_by_transparent_addr cf) (<[new_output_location := unspent_output]> (cf_utxo_by_out_loc cf))
        (cf_utxo_loc_by_transparent_addr_loc cf) (cf_tx_loc_by_transparent_addr_loc cf), address_balances).
Definition prepare_new_transparent_outputs_batch (network : Network) (new_outputs : gmap OutputLocation Utxo)
    (st : TransparentCf * balances) : outcome (TransparentCf * balances) :=
  foldM (prepare_new_transparent_output network) st (by_location new_outputs).

Definition prepare_spent_transparent_output (network : Network) (st : TransparentCf * balances)
    (e : OutputLocation * Utxo) : outcome (TransparentCf * balances) :=
  let '(cf, address_balances) := st in
  let '(spent_output_location, utxo) := e in
  let spent_output := utxo_output utxo in
  '(cf, address_balances) ←
    match output_address network spent_output with
    | Some sending_address =>
        abl ← unwrap (address_balances !! sending_address);
        abl ← expect (spend_output abl spent_output);
        Ok (mkTransparentCf (cf_balance_by_transparent_addr cf) (cf_utxo_by_out_loc cf)
              (cf_utxo_loc_by_transparent_addr_loc cf ∖ {[mkAddressUnspentOutput (abl_location abl) spent_output_location]})
              (cf_tx_loc_by_transparent_addr_loc cf),
            <[sending_address := abl]> address_balances)
    | None => Ok (cf, address_balances)
    end;
  Ok (mkTransparentCf (cf_balance_by_transparent_addr cf) (delete spent_output_location (cf_utxo_by_out_loc cf))
        (cf_utxo_loc_by_transparent_addr_loc cf) (cf_tx_loc_by_transparent_addr_loc cf), address_balances).
Definition prepare_spent_transparent_outputs_batch (network : Network) (spent_outputs : gmap OutputLocation Utxo)
    (st : TransparentCf * balances) : outcome (TransparentCf * balances) :=
  foldM (prepare_spent_transparent_output network) st (by_location spent_outputs).

Definition prepare_spending_transparent_tx_ids_batch (network : Network) (spending_tx_location : TransactionLocation)
    (tx : Transaction) (spent_utxos_by_outpoint : gmap OutPoint Utxo) (address_balances : balances) (cf : TransparentCf)
    : outcome TransparentCf :=
  foldM (fun cf spent_outpoint =>
           spent_utxo ← unwrap (spent_utxos_by_outpoint !! spent_outpoint);
           match output_address network (utxo_output spent_utxo) with
           | Some sending_address =>
               abl ← unwrap (address_balances !! sending_address);
               Ok (mkTransparentCf (cf_balance_by_transparent_addr cf) (cf_utxo_by_out_loc cf)
                     (cf_utxo_loc_by_transparent_addr_loc cf)
                     ({[mkAddressTransaction (abl_location abl) spending_tx_location]} ∪ cf_tx_loc_by_transparent_addr_loc cf))
           | None => Ok cf
           end) cf (spent_outpoints tx).

(** The merge operator adds the change to the stored balance. *)
Definition fetch_add_balance_and_received (existing : option AddressBalanceLocationInner) (change : AddressBalanceLocationInner)
    : outcome AddressBalanceLocationInner :=
  match existing with
  | Some a => expect (abl_add NegativeAllowed a change)
  | None => Ok change
  end.
Definition prepare_transparent_balances_batch (address_balances : balances) (cf : TransparentCf) : outcome TransparentCf :=
  stored ← foldM (fun (m : balances) '(address, change) =>
                    abl ← fetch_add_balance_and_received (m !! address) change; Ok (<[address := abl]> m))
             (cf_balance_by_transparent_addr cf) (map_to_list address_balances);
  Ok (mkTransparentCf stored (cf_utxo_by_out_loc cf) (cf_utxo_loc_by_transparent_addr_loc cf)
        (cf_tx_loc_by_transparent_addr_loc cf)).

Definition prepare_transparent_transaction_batch batch (network : Network) (fb : FinalizedBlock)
    (new_outputs_by_out_loc : gmap OutputLocation Utxo) (spent_utxos_by_outpoint : gmap OutPoint Utxo)
    (spent_utxos_by_out_loc : gmap OutputLocation Utxo) (address_balances : balances) : outcome FinalizedDb :=
  st ← prepare_new_transparent_outputs_batch network new_outputs_by_out_loc (transparent_cf batch, address_balances);
  '(cf, address_balances) ← prepare_spent_transparent_outputs_batch network spent_utxos_by_out_loc st;
  cf ← foldM (fun cf '(tx_index, tx) =>
                loc ← TransactionLocation_from_usize (fb_height fb) tx_index;
                prepare_spending_transparent_tx_ids_batch network loc tx spent_utxos_by_outpoint address_balances cf)
         cf (enumerate (transactions (fb_block fb)));
  cf ← prepare_transparent_balances_batch address_balances cf;
  Ok (set_transparent_cf batch cf).

Definition prepare_chain_value_pools_batch batch (fb : FinalizedBlock) (utxos_spent_by_block : gmap OutPoint Utxo)
    (value_pool : ValueBalance) : res ValueBalanceError FinalizedDb :=
  change ← chain_value_pool_change (fb_block fb) utxos_spent_by_block (fb_deferred_pool_balance_change fb);
  new_value_pool ← add_chain_value_pool_change value_pool change;
  let block_size := block_serialized_size (fb_block fb) in
  Ok (set_chain_cf batch
        (mkChainCf (cf_history_tree (chain_cf batch)) (Some new_value_pool)
           (<[fb_height fb := (new_value_pool, as_unsigned 32 block_size)]> (cf_block_info (chain_cf batch))))).

Definition prepare_block_batch db (network : Network) (fb : FinalizedBlock)
    (new_outputs_by_out_loc : gmap OutputLocation Utxo) (spent_utxos_by_outpoint : gmap OutPoint Utxo)
    (spent_utxos_by_out_loc : gmap OutputLocation Utxo) (address_balances : balances) (value_pool : ValueBalance)
    (prev_note_commitment_trees : option trees) : res CommitError FinalizedDb :=
  batch ← lift (prepare_block_header_and_transaction_data_batch db fb);
  let batch := prepare_shielded_transaction_batch batch fb in
  batch ← lift (prepare_trees_batch db batch fb prev_note_commitment_trees);
  batch ← (if height_is_min (fb_height fb) then Ok batch
           else lift (prepare_transparent_transaction_batch batch network fb new_outputs_by_out_loc
                        spent_utxos_by_outpoint spent_utxos_by_out_loc address_balances));
  map_err ValuePoolError (prepare_chain_value_pools_batch batch fb spent_utxos_by_outpoint value_pool).

(** *** Writing a block *)

Definition lookup_out_loc (height : Z) (outpoint : OutPoint) (tx_hash_indexes : gmap bytes Z) : outcome OutputLocation :=
  tx_index ← unwrap (tx_hash_indexes !! outpoint_hash outpoint);
  tx_loc ← TransactionLocation_from_usize height tx_index;
  Ok (from_outpoint tx_loc outpoint).

(** A spent output, with its location, in the database or in the block. *)
Definition spent_utxo db (fb : FinalizedBlock) (tx_hash_indexes : gmap bytes Z) (outpoint : OutPoint)
    : outcome (OutPoint * OutputLocation * Utxo) :=
  loc ← match output_location db outpoint with
        | Some loc => Ok loc
        | None => lookup_out_loc (fb_height fb) outpoint tx_hash_indexes
        end;
  utxo ← unwrap match fdb_utxo db outpoint with
                | Some u => Some (ordered_utxo u)
                | None => ordered_utxo <$> fb_new_outputs fb !! outpoint
                end;
  Ok (outpoint, loc, utxo).

Definition changed_addresses (network : Network) (spent : list Utxo) (new_outputs : list Utxo) : gset bytes :=
  list_to_set (omap (fun u => output_address network (utxo_output u)) (spent ++ new_outputs)).

Definition write_block db (fb : FinalizedBlock) (prev_note_commitment_trees : option trees) (network : Network)
    : res CommitError FinalizedDb :=
  let tx_hash_indexes : gmap bytes Z :=
    foldl (fun m '(index, hash) => <[hash := index]> m) ∅ (enumerate (fb_transaction_hashes fb)) in
  new_outputs_by_out_loc ←
    lift (foldM (fun (m : gmap OutputLocation Utxo) '(outpoint, u) =>
                   loc ← lookup_out_loc (fb_height fb) outpoint tx_hash_indexes; Ok (<[loc := ordered_utxo u]> m))
            ∅ (map_to_list (fb_new_outputs fb)));
  spent_utxos ← lift (map_res (spent_utxo db fb tx_hash_indexes) (mbind spent_outpoints (transactions (fb_block fb))));
  let spent_utxos_by_outpoint : gmap OutPoint Utxo := foldl (fun m '(outpoint, _, u) => <[outpoint := u]> m) ∅ spent_utxos in
  let spent_utxos_by_out_loc : gmap OutputLocation Utxo := foldl (fun m '(_, loc, u) => <[loc := u]> m) ∅ spent_utxos in
  let addresses := changed_addresses network (map_to_list spent_utxos_by_out_loc).*2
                     (ordered_utxo <$> (map_to_list (fb_new_outputs fb)).*2) in
  address_balances ←
    lift (foldM (fun (m : balances) address =>
                   abl ← address_balance_location db address;
                   Ok match abl : option AddressBalanceLocationInner with
                      | Some abl => <[address := into_new_change abl]> m
                      | None => m
                      end) ∅ (elements addresses));
  prepare_block_batch db network fb new_outputs_by_out_loc spent_utxos_by_outpoint spent_utxos_by_out_loc address_balances
    (fdb_value_pool db) prev_note_commitment_trees.

(** ** Committing a block *)

(** The treestate of a checkpoint-verified block, from the tip's. *)
Definition checkpoint_treestate db (block : Block) (prev : trees) : res CommitError tree_state :=
  let history_tree := fdb_history_tree db in
  note_commitment_trees ← map_err ContextError (update_trees_parallel prev block);
  _ ← map_err ContextError (block_commitment_is_valid_for_chain_history block (fdb_network db) history_tree);
  history_tree ← map_err HistoryError
                   (history_push history_tree (fdb_network db) block (tree_root (nct_sapling note_commitment_trees))
                      (tree_root (nct_orchard note_commitment_trees)));
  Ok (mkTreestate note_commitment_trees history_tree).

(** [assert_eq!]s on the order of committed blocks. *)
Definition assert_follows_tip db (fb : FinalizedBlock) : outcome unit :=
  let previous_hash := previous_block_hash (block_header (fb_block fb)) in
  if fdb_is_empty db then
    _ ← assert_ (bool_decide (fdb_tip_hash db = previous_hash));
    assert_ (0 =? fb_height fb)
  else
    tip_height ← unwrap (fdb_tip_height db);
    next ← height_add_diff tip_height 1;
    _ ← assert_ (bool_decide (next = Some (fb_height fb)));
    assert_ (bool_decide (fdb_tip_hash db = previous_hash)).

(** The finalized block, and the trees of the tip before it when they are known. *)
Definition to_finalized db (finalizable_block : FinalizableBlock) (prev_note_commitment_trees : option trees)
    : res CommitError (FinalizedBlock * option trees) :=
  match finalizable_block with
  | Checkpoint checkpoint_verified =>
      prev ← match prev_note_commitment_trees with
             | Some prev => Ok prev
             | None => lift (note_commitment_trees_for_tip db)
             end;
      treestate ← checkpoint_treestate db (sv_block checkpoint_verified) prev;
      Ok (from_semantically_verified checkpoint_verified treestate, Some prev)
  | Contextual contextually_verified treestate =>
      Ok (from_contextually_verified contextually_verified treestate, prev_note_commitment_trees)
  end.

Definition commit_finalized_direct db (finalizable_block : FinalizableBlock) (prev_note_commitment_trees : option trees)
    : res CommitError (bytes * trees * FinalizedDb) :=
  '(finalized, prev_note_commitment_trees) ← to_finalized db finalizable_block prev_note_commitment_trees;
  _ ← lift (assert_follows_tip db finalized);
  db' ← write_block db finalized prev_note_commitment_trees (fdb_network db);
  Ok (fb_hash finalized, treestate_trees (fb_treestate finalized), db').

Definition commit_finalized db (checkpoint_verified : SemanticallyVerifiedBlock) (prev_note_commitment_trees : option trees)
    : res CommitError (SemanticallyVerifiedBlock * trees * FinalizedDb) :=
  '(_, note_commitment_trees, db') ← commit_finalized_direct db (Checkpoint checkpoint_verified) prev_note_commitment_trees;
  Ok (checkpoint_verified, note_commitment_trees, db').
End FinalizedState.
