(* ===== verification/ChainSafety.v ===== *)
(** What the operations of a chain guarantee of its blocks: no output is spent
    twice and no nullifier is revealed twice along a chain that is made by pushes,
    pops, forks and invalidations. *)
From S2P Require Import Prelude BTreeMap Height Amount ValueBalance NetworkUpgrade BlockHeader Transaction TransparentIndex ChainIndexes Chain ChainRepr ContextChecks.
From stdpp Require Import strings gmap gmultiset prelude.
From Stdlib Require Import ZArith Lia.
#[local] Open Scope Z_scope.

(** ** Keys of the operations *)

Section Keys.
Context {K V : Type} `{Countable K} (index : TxIndexes -> gmap K V) (key : index_op -> option K).
Hypothesis index_step : forall s op s', apply_op s op = Some s' ->
  match key op with
  | Some k => index s !! k = None /\ exists v, index s' = <[k := v]> (index s)
  | None => index s' = index s
  end.

(** Operations that succeed have distinct keys, and the index holds exactly
    the keys. *)
Lemma foldO_keys s ops s' :
  foldO apply_op s ops = Some s' ->
  NoDup (omap key ops)
  /\ (forall k, k ∈ omap key ops -> index s !! k = None)
  /\ (forall k, is_Some (index s' !! k) <-> is_Some (index s !! k) \/ k ∈ omap key ops).
Proof.
  revert s. induction ops as [|op ops IH]; intros s; cbn [foldO omap list_omap].
  { intros [= ->]. split; [constructor|]. split; [by intros k ?%not_elem_of_nil|].
    intros k. split; [by left|]. by intros [?|?%not_elem_of_nil]. }
  destruct (apply_op s op) as [s1|] eqn:Eop; [|done]. intros (Hnd & Hfresh & Hkeys)%IH.
  specialize (index_step _ _ _ Eop). destruct (key op) as [k0|].
  - destruct index_step as [Hn (v & Ev)]. rewrite Ev in *.
    assert (k0 ∉ omap key ops) as Hni by (intros Hin%Hfresh; by rewrite lookup_insert_eq in Hin).
    split; [by constructor|]. split.
    + intros k [->|Hk]%elem_of_cons; [done|]. apply Hfresh in Hk. by apply lookup_insert_None in Hk as [? _].
    + intros k. rewrite Hkeys, elem_of_cons, lookup_insert_is_Some'. naive_solver.
  - rewrite index_step in *. done.
Qed.
End Keys.

Definition spend_key (op : index_op) : option OutPoint := match op with OpSpend o => Some o | _ => None end.
Definition nullifier_key (pool : Pool) (op : index_op) : option bytes :=
  match op with OpNullifier p nf => if decide (p = pool) then Some nf else None | _ => None end.

Lemma spend_step s op s' : apply_op s op = Some s' ->
  match spend_key op with
  | Some k => spent_utxos s !! k = None /\ exists v, spent_utxos s' = <[k := v]> (spent_utxos s)
  | None => spent_utxos s' = spent_utxos s
  end.
Proof.
  destruct op as [| | |p nf|]; cbn; intros (m & Hm & ->)%fmap_Some; try done; [|by destruct p].
  apply insert_new_Some in Hm as [? ->]. eauto.
Qed.
Lemma nullifier_step pool s op s' : apply_op s op = Some s' ->
  match nullifier_key pool op with
  | Some k => nullifier_map pool s !! k = None /\ exists v, nullifier_map pool s' = <[k := v]> (nullifier_map pool s)
  | None => nullifier_map pool s' = nullifier_map pool s
  end.
Proof.
  destruct op as [| | |p nf|]; cbn; intros (m & Hm & ->)%fmap_Some; try by destruct pool.
  apply insert_new_Some in Hm as [? ->]. destruct (decide (p = pool)) as [->|Hne].
  - split; [done|]. exists tt. by destruct pool.
  - by destruct p, pool.
Qed.

(** ** The keys of a block *)

Lemma omap_mbind {A B C} (f : B -> option C) (g : A -> list B) (l : list A) :
  omap f (mbind g l) = mbind (fun a => omap f (g a)) l.
Proof. induction l as [|a l IH]; [done|]. cbn [mbind list_bind]. by rewrite omap_app, IH. Qed.

Lemma mbind_ext_Forall {A B} (f g : A -> list B) (l : list A) :
  Forall (fun a => f a = g a) l -> mbind f l = mbind g l.
Proof. induction 1 as [|a l Ha Hl IH]; [done|]. cbn. by rewrite Ha, IH. Qed.

Lemma mbind_nil {A B} (f : A -> list B) (l : list A) : (forall a, f a = []) -> mbind f l = [].
Proof. intros Hf. induction l as [|a l IH]; [done|]. cbn. by rewrite Hf, IH. Qed.

Section BlockKeys.
Context (output_address : Network -> Output -> option bytes) (network : Network).
Context (height : Z) (new spent : gmap OutPoint OrderedUtxo).

Lemma output_ops_keys {K} (key : index_op -> option K) tx_hash j :
  (forall o u, key (OpCreate o u) = None) -> (forall a x, key (OpTransfer a x) = None) ->
  omap key (output_ops output_address network new tx_hash j) = [].
Proof.
  intros Hc Ht. unfold output_ops, created_ops. destruct (new !! _); [|done]. cbn. rewrite Hc.
  destruct (utxo_address _ _ _); cbn; by rewrite ?Ht.
Qed.
Lemma input_ops_keys {K} (key : index_op -> option K) tx_hash i :
  (forall o, key (OpSpend o) = None) -> (forall a x, key (OpTransfer a x) = None) ->
  omap key (input_ops output_address network spent tx_hash i) = [].
Proof.
  intros Hc Ht. unfold input_ops, spent_ops. destruct (input_outpoint i); [|done]. destruct (spent !! _); [|done].
  cbn. rewrite Hc. destruct (utxo_address _ _ _); cbn; by rewrite ?Ht.
Qed.

Lemma shielded_no_keys {K} (key : index_op -> option K) tx :
  (forall p nf, key (OpNullifier p nf) = None) -> omap key (shielded_ops tx) = [].
Proof.
  intros Hk. assert (forall p nfs, omap key (nullifier_ops p nfs) = []) as Hn.
  { intros p nfs. unfold nullifier_ops. induction nfs as [|nf nfs IH]; [done|]. cbn. by rewrite Hk. }
  unfold shielded_ops. destruct (transaction_parts tx) as [[[[[[? ?] ?] ?] ?] ?]|?|]; [|done..].
  by rewrite !omap_app, !Hn.
Qed.

Lemma spend_keys e :
  transaction_ok output_address network new spent e.2 ->
  omap spend_key (update_ops output_address network height new spent e) = spent_outpoints e.2.1.
Proof.
  intros (_ & Hi & _). unfold update_ops, transparent_ops, location_op, spent_outpoints. cbn [omap list_omap spend_key].
  rewrite !omap_app, shielded_no_keys, !omap_mbind, app_nil_r by done.
  rewrite (mbind_nil (fun a => omap _ _)) by (intros; by apply output_ops_keys). cbn [app].
  induction Hi as [|i ins Hi His IH]; [done|]. cbn [mbind list_bind omap list_omap]. rewrite IH.
  unfold input_ok in Hi. unfold input_ops. destruct (input_outpoint i) as [o|]; [|done].
  destruct (Hi o eq_refl) as (u & Hu & _). rewrite Hu. unfold spent_ops. cbn.
  by destruct (utxo_address _ _ _).
Qed.

Lemma nullifier_keys pool e :
  transaction_ok output_address network new spent e.2 ->
  omap (nullifier_key pool) (update_ops output_address network height new spent e) = pool_nullifiers pool e.2.1.
Proof.
  intros (_ & _ & Hp). unfold update_ops, transparent_ops, location_op. cbn [omap list_omap nullifier_key].
  rewrite !omap_app, !omap_mbind.
  rewrite !(mbind_nil (fun a => omap _ _)); [|intros; by apply input_ops_keys|intros; by apply output_ops_keys].
  assert (forall p nfs, omap (nullifier_key pool) (nullifier_ops p nfs) = if decide (p = pool) then nfs else []) as Hn.
  { intros p nfs. unfold nullifier_ops. induction nfs as [|nf nfs IH]; cbn; [by case_decide|].
    rewrite IH. by case_decide. }
  unfold shielded_ops. destruct (e.2.1) as [| | |? ? ? ? js sp|? ? ? ? ? sh od|? ? ? ? ? sh od ?]; cbn [transaction_parts] in *;
    [done..| | |]; rewrite !omap_app, !Hn; destruct pool; cbn;
    unfold sprout_nullifiers, sapling_nullifiers, orchard_nullifiers; cbn;
    repeat match goal with |- context [opt_nullifiers _ ?o] => destruct o; cbn end; by rewrite ?app_nil_r.
Qed.
End BlockKeys.

(** ** Along a chain *)

Section Safety.
Context {SproutT SaplingT OrchardT HistoryT : Type}
  `{!NoteTree SproutT} `{!NoteTree SaplingT} `{!SubtreeTree SaplingT} `{!NoteTree OrchardT} `{!SubtreeTree OrchardT}
  `{!HistoryTreeOps HistoryT} `{!ChainContext} `{BuildProfile} `{!NoteTreeLaws SproutT}.
Abbreviation chain := (Chain SproutT SaplingT OrchardT HistoryT).

(** Every transaction has its hash. *)
Definition hashes_complete (b : ContextuallyVerifiedBlock) : Prop :=
  length (cv_transaction_hashes b) = length (transactions (cv_block b)).

Lemma enumerated_fst b : hashes_complete b ->
  (fun e => e.2.1) <$> enumerated_transactions (cv_block b) (cv_transaction_hashes b) = transactions (cv_block b).
Proof.
  intros Hlen. change (fun e : Z * (Transaction * bytes) => e.2.1) with (fst ∘ snd : Z * (Transaction * bytes) -> Transaction).
  rewrite list_fmap_compose, <- enumerated_zip. apply fst_zip. unfold hashes_complete in Hlen. lia.
Qed.

Lemma block_keys {K} (key : index_op -> option K) (keys : Transaction -> list K) network b :
  hashes_complete b ->
  (forall e, transaction_ok output_address network (cv_new_outputs b) (cv_spent_outputs b) e.2 ->
     omap key (update_ops output_address network (cv_height b) (cv_new_outputs b) (cv_spent_outputs b) e) = keys e.2.1) ->
  block_transactions_ok output_address network (cv_new_outputs b) (cv_spent_outputs b) (cv_block b) (cv_transaction_hashes b) ->
  omap key (ops_of network b) = mbind keys (transactions (cv_block b)).
Proof.
  intros Hlen Hkeys Hok. unfold ops_of, block_ops. rewrite omap_mbind.
  rewrite (mbind_ext_Forall _ (fun e => keys e.2.1)).
  - rewrite <- (enumerated_fst b Hlen). generalize (enumerated_transactions (cv_block b) (cv_transaction_hashes b)).
    intros l. induction l as [|e l IH]; [done|]. cbn. by rewrite IH.
  - eapply Forall_impl; [exact Hok|]. exact Hkeys.
Qed.

(** All keys of a chain, for one kind of key. *)
Lemma chain_keys {K V} `{Countable K} (index : TxIndexes -> gmap K V) (key : index_op -> option K)
    (keys : Transaction -> list K) (c : chain) bs :
  (forall s op s', apply_op s op = Some s' ->
     match key op with
     | Some k => index s !! k = None /\ exists v, index s' = <[k := v]> (index s)
     | None => index s' = index s
     end) ->
  (forall b e, b ∈ bs -> transaction_ok output_address (chain_network c) (cv_new_outputs b) (cv_spent_outputs b) e.2 ->
     omap key (update_ops output_address (chain_network c) (cv_height b) (cv_new_outputs b) (cv_spent_outputs b) e) = keys e.2.1) ->
  index empty_indexes = ∅ ->
  chain_repr c bs -> Forall hashes_complete bs ->
  let all := mbind (fun b => mbind keys (transactions (cv_block b))) bs in
  NoDup all /\ forall k, is_Some (index (tx_indexes (inner c)) !! k) <-> k ∈ all.
Proof.
  intros Hstep Hkeys Hempty [[_ _ Hb _] Hrep] Hlen all.
  destruct (foldO_keys index key Hstep _ _ _ (ir_indexes _ _ _ Hrep)) as (Hnd & _ & Hdom).
  assert (omap key (mbind (ops_of (chain_network c)) bs) = all) as Hall.
  { rewrite omap_mbind. apply mbind_ext_Forall, Forall_forall. intros b Hin.
    rewrite Forall_forall in Hb. rewrite Forall_forall in Hlen. destruct (Hb b Hin) as [Hok _].
    apply block_keys; auto. }
  rewrite Hall in Hnd, Hdom. split; [done|]. intros k. rewrite Hdom, Hempty, lookup_empty.
  split; [by intros [[]|]|by right].
Qed.

(** What a represented chain spends and reveals. *)
Definition chain_spends (bs : list ContextuallyVerifiedBlock) : list OutPoint :=
  mbind (fun b => mbind spent_outpoints (transactions (cv_block b))) bs.
Definition chain_nullifiers (pool : Pool) (bs : list ContextuallyVerifiedBlock) : list bytes :=
  mbind (fun b => block_nullifiers pool (cv_block b)) bs.

Lemma repr_no_double_spend (c : chain) bs : chain_repr c bs -> Forall hashes_complete bs ->
  NoDup (chain_spends bs) /\ (forall o, is_Some (spent_utxos (tx_indexes (inner c)) !! o) <-> o ∈ chain_spends bs)
  /\ forall pool, NoDup (chain_nullifiers pool bs)
     /\ forall nf, is_Some (nullifier_map pool (tx_indexes (inner c)) !! nf) <-> nf ∈ chain_nullifiers pool bs.
Proof.
  intros Hrep Hlen.
  destruct (chain_keys spent_utxos spend_key spent_outpoints c bs spend_step) as [H1 H2]; try done.
  { intros b e _. apply spend_keys. }
  split; [done|]. split; [done|]. intros pool.
  apply (chain_keys (nullifier_map pool) (nullifier_key pool) (pool_nullifiers pool) c bs (nullifier_step pool)); try done.
  - intros b e _. apply nullifier_keys.
  - by destruct pool.
Qed.

(** ** Runs of a chain *)

(** The blocks that a chain holds, in the order of their heights. *)
Definition chain_blocks (c : chain) : list ContextuallyVerifiedBlock := snd <$> blocks (inner c).

(** The operations of a chain that return a chain. A pushed block continues the
    heights and has a transaction id for each transaction ([follows] has what
    else the callers know). *)
Inductive chain_op : chain -> chain -> Prop :=
| op_push c b c' : follows c (chain_blocks c) b -> hashes_complete b -> push c b = Ok c' -> chain_op c c'
| op_pop_root c b ts c' : pop_root c = Ok (b, ts, c') -> chain_op c c'
| op_pop_tip c c' : pop_tip c = Ok c' -> chain_op c c'
| op_fork c hash c' : fork c hash = Ok (Some c') -> chain_op c c'
| op_invalidate c hash c' l : chain_invalidate_block c hash = Ok (Some (c', l)) -> chain_op c c'.

Definition run_inv (c : chain) : Prop := exists bs, chain_repr c bs /\ Forall hashes_complete bs.

Lemma repr_chain_blocks (c : chain) bs : chain_repr c bs -> chain_blocks c = bs.
Proof. intros [_ Hi]. unfold chain_blocks. rewrite (ir_blocks _ _ _ Hi), <- list_fmap_compose. apply list_fmap_id. Qed.

Lemma pop_tip_inv (c c' : chain) bs : chain_repr c bs -> pop_tip c = Ok c' -> exists rest b, bs = rest ++ [b] /\ chain_repr c' rest.
Proof.
  intros Hrep Hp. destruct bs as [|b rest _] using rev_ind.
  { destruct Hrep as [_ Hi]. unfold pop_tip, non_finalized_tip_height, max_block_height in Hp. by rewrite (ir_blocks _ _ _ Hi) in Hp. }
  exists rest, b. split; [done|]. destruct rest as [|x rest]; [by rewrite (pop_tip_single _ _ Hrep) in Hp|].
  destruct (pop_tip_repr _ _ _ Hrep ltac:(done)) as (c1 & E & Hrep1 & _). congruence.
Qed.
Lemma fork_inv (c c' : chain) bs hash : chain_repr c bs -> fork c hash = Ok (Some c') ->
  exists before x after, bs = before ++ x :: after /\ cv_hash x = hash /\ chain_repr c' (before ++ [x]).
Proof.
  intros Hrep Hf. destruct (decide (hash ∈ cv_hash <$> bs)) as [(x & -> & Hx)%list_elem_of_fmap|Hn].
  - apply list_elem_of_split in Hx as (before & after & ->). destruct (fork_repr _ _ _ _ Hrep) as (c1 & E & Hrep1 & _).
    exists before, x, after. split_and!; [done|done|]. congruence.
  - by rewrite (fork_missing _ _ _ Hrep Hn) in Hf.
Qed.

Lemma chain_op_inv c c' : run_inv c -> chain_op c c' -> run_inv c'.
Proof.
  intros (bs & Hrep & Hlen) Hop. destruct Hop as [c b c' Hfo Hb Hp|c b ts c' Hp|c c' Hp|c hash c' Hf|c hash c' l Hi].
  - rewrite (repr_chain_blocks _ _ Hrep) in Hfo. destruct (push_repr _ _ _ _ Hrep Hfo Hp) as [Hrep' _].
    exists (bs ++ [b]). split; [done|]. by apply Forall_app_2; [|constructor].
  - destruct bs as [|x rest].
    { destruct Hrep as [_ Hi]. unfold pop_root, non_finalized_root_height in Hp. by rewrite (ir_blocks _ _ _ Hi) in Hp. }
    destruct (pop_root_repr _ _ _ Hrep) as (ts' & c1 & _ & E & Hrep1 & _). apply Forall_cons in Hlen as [_ Hlen]. exists rest. split; [congruence|done].
  - destruct (pop_tip_inv _ _ _ Hrep Hp) as (rest & b & -> & Hrep'). apply Forall_app in Hlen as [Hlen _]. by exists rest.
  - destruct (fork_inv _ _ _ _ Hrep Hf) as (before & x & after & -> & _ & Hrep'). exists (before ++ [x]). split; [done|].
    apply Forall_app in Hlen as [H1 H2]. apply Forall_app_2; [done|]. apply Forall_cons in H2 as [H2 _]. by constructor.
  - unfold chain_invalidate_block in Hi. destruct (height_by_hash (inner c) !! hash); [|done].
    apply bind_Ok_inv in Hi as ([c1|] & Hf & Hi); [|done]. apply bind_Ok_inv in Hi as (c2 & Hp & [= <- _]).
    destruct (fork_inv _ _ _ _ Hrep Hf) as (before & x & after & -> & _ & Hrep1).
    destruct (pop_tip_inv _ _ _ Hrep1 Hp) as (rest & b & E & Hrep2). apply app_inj_tail in E as [-> ->].
    exists rest. split; [by apply chain_repr_fork_height|]. by apply Forall_app in Hlen as [? _].
Qed.

(** C10. No double spends. Take a new chain at a finalized tip, and any sequence
    of successful pushes, pops of the root and of the tip, forks and
    invalidations. The pushed blocks continue the heights (the first one is not
    below the trees that the chain starts with), have an id for each transaction
    and a pool change in the range of amounts, and all blocks together move at
    most [MAX_MONEY] at each address; nothing is assumed of what they spend or
    reveal. Then among the blocks in the chain no
    transparent output is spent twice and, in each of the three shielded pools, no
    nullifier is revealed twice, whether in one transaction, one block or
    different blocks; the indexes of the chain hold exactly the spends and
    nullifiers of its blocks; and a block that would spend an output or reveal a
    nullifier again is not pushed. *)
Theorem chain_no_double_spend network h sprout sapling orchard history pools c0 (c : chain) :
  valid_height h -> pools_in NonNegative pools ->
  Chain_new network h sprout sapling orchard history pools = Ok c0 -> rtc chain_op c0 c ->
  let bs := chain_blocks c in
  NoDup (chain_spends bs) /\ (forall o, is_Some (spent_utxos (tx_indexes (inner c)) !! o) <-> o ∈ chain_spends bs)
  /\ (forall pool, NoDup (chain_nullifiers pool bs)
     /\ forall nf, is_Some (nullifier_map pool (tx_indexes (inner c)) !! nf) <-> nf ∈ chain_nullifiers pool bs)
  /\ forall b c', follows c bs b -> hashes_complete b ->
       ~ NoDup (chain_spends (bs ++ [b])) \/ (exists pool, ~ NoDup (chain_nullifiers pool (bs ++ [b]))) -> push c b <> Ok c'.
Proof.
  intros Hv Hp Hnew Hrun bs.
  assert (I : run_inv c).
  { destruct (Chain_new_repr network h sprout sapling orchard history pools Hv Hp) as (c1 & E & Hrep & _).
    assert (c1 = c0) as -> by congruence. assert (I0 : run_inv c0) by (exists []; split; [done|constructor]). clear -Hrun I0.
    induction Hrun as [|x y z Hxy _ IH]; [done|]. apply IH. by eapply chain_op_inv. }
  destruct I as (bs' & Hrep & Hlen). pose proof (repr_chain_blocks _ _ Hrep) as Eb. fold bs in Eb. subst bs'. clear Hrun.
  destruct (repr_no_double_spend _ _ Hrep Hlen) as (Hs & Hspent & Hnf). split_and!; [done|done|done|].
  intros b c' Hfo Hb Hdup Hpush. destruct (push_repr _ _ _ _ Hrep Hfo Hpush) as [Hrep' _].
  destruct (repr_no_double_spend c' (bs ++ [b]) Hrep') as (Hs' & _ & Hnf'); [by apply Forall_app_2; [|constructor]|].
  destruct Hdup as [Hd|[pool Hd]]; [done|]. by apply Hd, Hnf'.
Qed.
End Safety.

Module SafetyExample.
#[local] Existing Instance Example.tree.
#[local] Existing Instance Example.context.

#[local] Existing Instance Example.subtree.
#[local] Existing Instance Example.tree_laws.
#[local] Existing Instance Example.history.
#[local] Existing Instance release_build.
Import Example.

(** A block on [block1] that spends its output. *)
Definition spent_outpoint : OutPoint := mkOutPoint [Byte.x11] 0.
Definition payment : Transaction :=
  V4 [PrevOut spent_outpoint [] 0] [mkOutput 3 [Byte.x2b]] (LockHeight 0) 0 None None.
Definition spending_block : ContextuallyVerifiedBlock :=
  mkContextuallyVerifiedBlock (mkBlock example_header [coinbase 11 []; payment]) [Byte.x04] 11
    (<[mkOutPoint [Byte.x15] 0 := OrderedUtxo_new (mkOutput 3 [Byte.x2b]) 11 1]>
       {[ mkOutPoint [Byte.x14] 0 := OrderedUtxo_new (mkOutput 5 [Byte.x2a]) 11 0 ]})
    {[ spent_outpoint := OrderedUtxo_new (mkOutput 5 [Byte.x2a]) 10 0 ]} [[Byte.x14]; [Byte.x15]]
    (from_transparent_amount 3).
Definition spending_chain : chain := get empty_chain (push chain1 spending_block).

Lemma spending_follows : follows chain1 [block1] spending_block.
Proof.
  split.
  - apply (ReprExample.heights_chain_seq 2 10); vm_compute; discriminate.
  - done.
  - repeat split; vm_compute; discriminate.
  - intros a. assert (chain_network chain1 = Mainnet) as -> by (vm_compute; reflexivity).
    match goal with |- context [mbind ?f ?l] => let ops := eval vm_compute in (mbind f l) in
      replace (mbind f l) with ops by (vm_compute; reflexivity) end.
    cbn. repeat case_decide; cbn; unfold MAX_MONEY, COIN; lia.
Qed.

(** The output of [block1] is spent. *)
Lemma chain_no_double_spend_witness :
  is_Some (spent_utxos (tx_indexes (inner spending_chain)) !! spent_outpoint).
Proof.
  destruct (chain_no_double_spend Mainnet 9 [] [] [] 0%nat value_balance_zero chain0 spending_chain) as (_ & Hspent & _).
  - vm_compute. split; discriminate.
  - repeat split; vm_compute; discriminate.
  - apply get_ok. vm_compute. reflexivity.
  - eapply rtc_l; [apply (op_push chain0 block1 chain1)|eapply rtc_l; [apply (op_push chain1 spending_block spending_chain)|apply rtc_refl]].
    + exact ReprExample.follows1.
    + reflexivity.
    + apply push1.
    + rewrite (repr_chain_blocks _ _ ReprExample.repr1). exact spending_follows.
    + reflexivity.
    + apply get_ok. vm_compute. reflexivity.
  - apply Hspent. vm_compute. left.
Defined.
End SafetyExample.
