(* ===== verification/FinalizedRepr.v ===== *)
(** The database of the finalized state is a list of blocks: after every
    commit each read of the database is a function of the committed blocks,
    and the commits append blocks ([FinalizedState.v]). *)
From S2P Require Import Prelude BTreeMap Height Amount ValueBalance NetworkUpgrade BlockHeader Transaction BlockCommitment TransparentIndex DiskFormat ChainIndexes Chain ContextChecks FinalizedState.
From stdpp Require Import strings gmap gmultiset sorting prelude.
From Stdlib Require Import ZArith Lia.
#[local] Open Scope Z_scope.

(** ** Generic lemmas *)

Definition lookupZ {A} (l : list A) (i : Z) : option A := if i <? 0 then None else l !! Z.to_nat i.

Lemma lookupZ_nat {A} (l : list A) (i : nat) : lookupZ l (Z.of_nat i) = l !! i.
Proof. unfold lookupZ. by rewrite (proj2 (Z.ltb_ge _ _)), Nat2Z.id by lia. Qed.
Lemma lookupZ_Some {A} (l : list A) i x :
  lookupZ l i = Some x <-> exists n : nat, i = Z.of_nat n /\ l !! n = Some x.
Proof.
  unfold lookupZ. destruct (Z.ltb_spec i 0).
  - split; [done|]. intros (n & -> & _). lia.
  - split.
    + intros Hx. exists (Z.to_nat i). split; [lia|done].
    + intros (n & -> & Hn). by rewrite Nat2Z.id.
Qed.
Lemma lookupZ_bounds {A} (l : list A) i x : lookupZ l i = Some x -> 0 <= i < Z.of_nat (length l).
Proof. intros (n & -> & Hn%lookup_lt_Some)%lookupZ_Some. lia. Qed.
Lemma lookupZ_None {A} (l : list A) i : ~ (0 <= i < Z.of_nat (length l)) -> lookupZ l i = None.
Proof. destruct (lookupZ l i) eqn:E; [|done]. by apply lookupZ_bounds in E. Qed.
Lemma lookupZ_app_l {A} (l1 l2 : list A) i : i < Z.of_nat (length l1) -> lookupZ (l1 ++ l2) i = lookupZ l1 i.
Proof. intros. unfold lookupZ. destruct (Z.ltb_spec i 0); [done|]. apply lookup_app_l. lia. Qed.
Lemma lookupZ_snoc {A} (l : list A) x i :
  lookupZ (l ++ [x]) i = if i =? Z.of_nat (length l) then Some x else lookupZ l i.
Proof.
  destruct (Z.eqb_spec i (Z.of_nat (length l))) as [->|Hne].
  - rewrite lookupZ_nat. by apply list_lookup_middle.
  - destruct (Z.lt_ge_cases i (Z.of_nat (length l))); [by apply lookupZ_app_l|].
    rewrite !lookupZ_None; [done| |]; rewrite ?length_app; cbn; lia.
Qed.
Lemma lookupZ_fmap {A B} (f : A -> B) (l : list A) i : lookupZ (f <$> l) i = f <$> lookupZ l i.
Proof. unfold lookupZ. destruct (i <? 0); [done|]. apply list_lookup_fmap. Qed.

Lemma enumerate_snoc {A} (l : list A) x : enumerate (l ++ [x]) = enumerate l ++ [(Z.of_nat (length l), x)].
Proof. unfold enumerate. rewrite imap_app. cbn. by rewrite Nat.add_0_r. Qed.

Lemma foldM_Ok_step {E T A} (f : T -> A -> res E T) t l t' a :
  foldM f t l = Ok t' -> a ∈ l -> exists s s', f s a = Ok s'.
Proof.
  revert t. induction l as [|b l IH]; intros t; cbn [foldM]; [by intros _ ?%not_elem_of_nil|].
  intros (t1 & H1 & H2)%bind_Ok_inv [->|Ha]%elem_of_cons; [by eauto|]. by eapply IH.
Qed.

Lemma omap_pointwise {A B} (f g : A -> option B) (l : list A) : (forall a, a ∈ l -> f a = g a) -> omap f l = omap g l.
Proof.
  induction l as [|a l IH]; intros Hfg; cbn; [done|]. rewrite Hfg by left. rewrite IH; [done|]. intros. apply Hfg. by right.
Qed.
Lemma omap_pair_snd {A B C} (g : A -> C) (f : A -> option B) (l : list A) : (omap (fun a => (fun b => (g a, b)) <$> f a) l).*2 = omap f l.
Proof. induction l as [|a l IH]; cbn; [done|]. destruct (f a); cbn; by rewrite IH. Qed.
Lemma omap_lookupZ {A} (l : list A) n k :
  Z.of_nat (length l) <= n -> omap (fun i => lookupZ l (i - k)) (seqZ k n) = l.
Proof.
  revert n k. induction l as [|x l IH]; intros n k Hn.
  - generalize (seqZ k n) as js. intros js. induction js as [|j js IH]; cbn; [done|].
    rewrite lookupZ_None by (cbn; lia). done.
  - cbn [length] in Hn. rewrite seqZ_cons by lia. cbn. rewrite Z.sub_diag. cbn. f_equal.
    etrans; [|apply (IH (Z.pred n) (Z.succ k)); lia]. apply omap_pointwise. intros i Hi%elem_of_seqZ.
    unfold lookupZ. rewrite !(proj2 (Z.ltb_ge _ _)) by lia. by replace (Z.to_nat (i - k)) with (S (Z.to_nat (i - Z.succ k))) by lia.
Qed.

(** ** The blocks and transactions of a batch *)

(** The entries of one height, over the entries of a map. *)
Definition at_height {A} (h : Z) (l : list A) (loc : TransactionLocation) : option A :=
  if loc_height loc =? h then lookupZ l (loc_index loc) else None.

Lemma at_height_snoc {A} h (l : list A) x loc :
  at_height h (l ++ [x]) loc
  = if bool_decide (loc = mkTransactionLocation h (Z.of_nat (length l))) then Some x else at_height h l loc.
Proof.
  unfold at_height. destruct loc as [h' i]; cbn. destruct (Z.eqb_spec h' h) as [->|Hne].
  - rewrite lookupZ_snoc. destruct (Z.eqb_spec i (Z.of_nat (length l))) as [->|Hi].
    + by rewrite bool_decide_eq_true_2.
    + rewrite bool_decide_eq_false_2; [done|congruence].
  - rewrite bool_decide_eq_false_2; [done|congruence].
Qed.

Definition transaction_batch_step (h : Z) (cf : BlockCf) (e : Z * (Transaction * bytes)) : outcome BlockCf :=
  let '(transaction_index, (transaction, transaction_hash)) := e in
  loc ← TransactionLocation_from_usize h transaction_index;
  Ok (mkBlockCf (cf_hash_by_height cf) (cf_height_by_hash cf) (cf_block_header_by_height cf)
        (<[loc := transaction]> (cf_tx_by_loc cf)) (<[loc := transaction_hash]> (cf_hash_by_tx_loc cf))
        (<[transaction_hash := loc]> (cf_tx_loc_by_hash cf))).

Lemma transaction_batch_spec h l cf cf' :
  foldM (transaction_batch_step h) cf (enumerate l) = Ok cf' -> NoDup l.*2 ->
  cf_hash_by_height cf' = cf_hash_by_height cf /\ cf_height_by_hash cf' = cf_height_by_hash cf
  /\ cf_block_header_by_height cf' = cf_block_header_by_height cf
  /\ (forall loc, cf_tx_by_loc cf' !! loc = option_or (at_height h l.*1 loc) (cf_tx_by_loc cf !! loc))
  /\ (forall loc, cf_hash_by_tx_loc cf' !! loc = option_or (at_height h l.*2 loc) (cf_hash_by_tx_loc cf !! loc))
  /\ (forall i hash, l.*2 !! i = Some hash -> cf_tx_loc_by_hash cf' !! hash = Some (mkTransactionLocation h (Z.of_nat i)))
  /\ (forall hash, hash ∉ l.*2 -> cf_tx_loc_by_hash cf' !! hash = cf_tx_loc_by_hash cf !! hash)
  /\ Z.of_nat (length l) <= u16_MAX + 1.
Proof.
  revert cf'. induction l as [|[tx hash] l IH] using rev_ind; intros cf'.
  { cbn. intros [= <-] _. split_and!; try done.
    - intros loc. unfold at_height. rewrite lookupZ_None by (cbn; lia). by destruct (_ =? _).
    - intros loc. unfold at_height. rewrite lookupZ_None by (cbn; lia). by destruct (_ =? _). }
  rewrite enumerate_snoc, foldM_app, !fmap_app. intros (cf1 & Hcf1 & Hstep)%bind_Ok_inv Hnd.
  apply NoDup_app in Hnd as (Hnd & Hni & _).
  destruct (IH cf1 Hcf1 Hnd) as (E1 & E2 & E3 & E4 & E5 & E6 & E7 & E8). clear IH Hcf1.
  cbn [foldM transaction_batch_step] in Hstep. unfold TransactionLocation_from_usize in Hstep.
  destruct (checked 0 u16_MAX (Z.of_nat (length l))) as [i|] eqn:Ei; [|done].
  apply checked_Some in Ei as [-> Hi]. cbn in Hstep. injection Hstep as <-.
  cbn [cf_hash_by_height cf_height_by_hash cf_block_header_by_height cf_tx_by_loc cf_hash_by_tx_loc cf_tx_loc_by_hash].
  split_and!; try done.
  - intros loc. cbn [fmap list_fmap fst]. rewrite at_height_snoc, length_fmap. case_bool_decide as Hl; subst.
    + by rewrite lookup_insert_eq.
    + by rewrite lookup_insert_ne.
  - intros loc. cbn [fmap list_fmap snd]. rewrite at_height_snoc, length_fmap. case_bool_decide as Hl; subst.
    + by rewrite lookup_insert_eq.
    + by rewrite lookup_insert_ne.
  - intros j x Hj. cbn [fmap list_fmap snd] in Hj. apply lookup_snoc_Some in Hj as [[Hlt Hj]|[-> <-]].
    + rewrite lookup_insert_ne; [by apply E6|]. intros <-. apply (Hni hash); [by eapply list_elem_of_lookup_2|].
      cbn. by left.
    + by rewrite length_fmap, lookup_insert_eq.
  - intros x Hx. cbn [fmap list_fmap snd] in Hx. rewrite not_elem_of_app, list_elem_of_singleton in Hx.
    destruct Hx as [Hx Hne]. rewrite lookup_insert_ne; [by apply E7|congruence].
  - rewrite length_app. cbn. lia.
Qed.

(** ** The outputs of a batch *)

Lemma foldl_pointwise {A T} (f g : T -> A -> T) t l : (forall t a, f t a = g t a) -> foldl f t l = foldl g t l.
Proof. intros Hfg. revert t. induction l as [|a l IH]; intros t; cbn; [done|]. by rewrite Hfg. Qed.

Section MapFolds.
Context {K : Type} `{Countable K} {V W : Type}.

Lemma foldl_insert_lookup (f : V -> W) (l : list (K * V)) (m : gmap K W) k :
  NoDup l.*1 ->
  foldl (fun m e => <[e.1 := f e.2]> m) m l !! k = option_or (f <$> (list_to_map l : gmap K V) !! k) (m !! k).
Proof.
  revert m. induction l as [|[k' v] l IH]; intros m; cbn [fmap list_fmap fst]; [done|].
  intros [Hni Hnd]%NoDup_cons. cbn [foldl fst snd list_to_map foldr uncurry]. rewrite IH by done. clear IH.
  destruct (decide (k = k')) as [->|Hne].
  - rewrite lookup_insert_eq, not_elem_of_list_to_map_1 by done. cbn. by rewrite lookup_insert_eq.
  - rewrite !lookup_insert_ne by done. done.
Qed.

Lemma foldl_delete_lookup (l : list (K * V)) (m : gmap K W) k :
  foldl (fun m e => delete e.1 m) m l !! k = if bool_decide (k ∈ l.*1) then None else m !! k.
Proof.
  revert m. induction l as [|[k' v] l IH]; intros m; cbn [foldl fmap list_fmap fst].
  { by rewrite bool_decide_eq_false_2 by apply not_elem_of_nil. }
  rewrite IH. case_bool_decide as Hk.
  - rewrite bool_decide_eq_true_2; [done|]. by right.
  - destruct (decide (k = k')) as [->|Hne].
    + rewrite lookup_delete_eq, bool_decide_eq_true_2; [done|]. by left.
    + rewrite lookup_delete_ne by done. rewrite bool_decide_eq_false_2; [done|].
      by rewrite not_elem_of_cons.
Qed.

(** Entries inserted in the order of a list, at keys that are computed. *)
Lemma foldM_insert_lookup {J E} (f : J -> res E K) (g : V -> W) (l : list (J * V)) (m : gmap K W) k w :
  (forall i j k, i ∈ l.*1 -> j ∈ l.*1 -> f i = Ok k -> f j = Ok k -> i = j) -> NoDup l.*1 ->
  foldM (fun m '(j, v) => k ← f j; Ok (<[k := g v]> m)) ∅ l = Ok m ->
  m !! k = Some w <-> exists j v, (j, v) ∈ l /\ f j = Ok k /\ w = g v.
Proof.
  revert m. induction l as [|[j v] l IH] using rev_ind; intros m Hinj Hnd.
  { cbn. intros [= <-]. rewrite lookup_empty. split; [done|]. by intros (j & v & ?%not_elem_of_nil & _). }
  rewrite foldM_app. intros (m1 & H1 & H2)%bind_Ok_inv. cbn [foldM] in H2.
  apply bind_Ok_inv in H2 as (m2 & (k1 & Hk1 & [= <-])%bind_Ok_inv & [= <-]).
  rewrite fmap_app in Hnd. apply NoDup_app in Hnd as (Hnd & Hni & _).
  assert (m1 !! k = Some w <-> exists j v, (j, v) ∈ l /\ f j = Ok k /\ w = g v) as IH'.
  { apply IH; [|done..]. intros i1 i2 k2 ? ?. apply Hinj; rewrite fmap_app; by apply elem_of_app; left. }
  setoid_rewrite elem_of_app. setoid_rewrite list_elem_of_singleton. destruct (decide (k1 = k)) as [->|Hne].
  - rewrite lookup_insert_eq. split; [intros [= <-]; by exists j, v; auto|].
    intros (j' & v' & [Hin|[= -> ->]] & Hf & ->); [|done]. exfalso.
    assert (j' ∈ l.*1) as Hin' by (by apply (list_elem_of_fmap_2 fst) in Hin).
    apply (Hni j' Hin'). rewrite (Hinj j' j k); [by left|..|done|done]; rewrite fmap_app; apply elem_of_app; [by left|right; by left].
  - rewrite lookup_insert_ne, IH' by done. split; intros (j' & v' & Hin & Hf & ->); exists j', v'; [by auto|].
    destruct Hin as [|[= -> ->]]; [done|congruence].
Qed.

(** Later entries replace earlier ones, so entries that agree can be looked up. *)
Lemma foldl_insert_agree {A} (key : A -> K) (val : A -> W) (l : list A) k w :
  (forall a b, a ∈ l -> b ∈ l -> key a = key b -> val a = val b) ->
  (foldl (fun m a => <[key a := val a]> m) ∅ l : gmap K W) !! k = Some w <-> exists a, a ∈ l /\ key a = k /\ val a = w.
Proof.
  induction l as [|a l IH] using rev_ind; intros Hag.
  { cbn. rewrite lookup_empty. split; [done|]. by intros (a & ?%not_elem_of_nil & _). }
  rewrite foldl_app. cbn [foldl]. setoid_rewrite elem_of_app. setoid_rewrite list_elem_of_singleton.
  destruct (decide (key a = k)) as [<-|Hne].
  - rewrite lookup_insert_eq. split; [intros [= <-]; by exists a; auto|].
    intros (a' & Hin & Hk & <-). f_equal. apply Hag; [apply elem_of_app..|done]; [right; by left|].
    destruct Hin as [| ->]; [by left|right; by left].
  - rewrite lookup_insert_ne, IH by (done || (intros; apply Hag; auto using elem_of_app; by apply elem_of_app; left)).
    split; intros (a' & Hin & Hk & <-); exists a'; [by auto|]. destruct Hin as [| ->]; [done|congruence].
Qed.
End MapFolds.

Lemma hash_indexes_lookup (hashes : list bytes) hash z :
  NoDup hashes ->
  (foldl (fun m '(index, hash) => <[hash := index]> m) ∅ (enumerate hashes) : gmap bytes Z) !! hash = Some z
  <-> exists i : nat, z = Z.of_nat i /\ hashes !! i = Some hash.
Proof.
  intros Hnd. induction hashes as [|x l IH] using rev_ind.
  { cbn. rewrite lookup_empty. split; [done|]. by intros (i & _ & ?). }
  apply NoDup_app in Hnd as (Hnd & Hni & _). rewrite enumerate_snoc, foldl_app. cbn [foldl].
  setoid_rewrite lookup_snoc_Some. destruct (decide (x = hash)) as [->|Hne].
  - rewrite lookup_insert_eq. split; [intros [= <-]; exists (length l); by auto|].
    intros (i & -> & [[_ Hi%list_elem_of_lookup_2]|[-> _]]); [|done]. exfalso. apply (Hni hash Hi). by left.
  - rewrite lookup_insert_ne, IH by done. split; intros (i & -> & Hi); exists i; split; try done.
    + left. split; [by eapply lookup_lt_Some|done].
    + by destruct Hi as [[_ ?]|[_ ?]].
Qed.

Lemma by_location_map {V} (m : gmap OutputLocation V) :
  NoDup (by_location m).*1 /\ (list_to_map (by_location m) : gmap OutputLocation V) = m.
Proof.
  assert (by_location m ≡ₚ map_to_list m) as Hp by apply stable_sort_perm.
  assert (NoDup (by_location m).*1) as Hnd by (rewrite Hp; apply NoDup_fst_map_to_list).
  split; [done|]. etrans; [|apply list_to_map_to_list]. by apply list_to_map_proper.
Qed.
Lemma by_location_keys {V} (m : gmap OutputLocation V) k : k ∈ (by_location m).*1 <-> is_Some (m !! k).
Proof.
  assert (by_location m ≡ₚ map_to_list m) as -> by apply stable_sort_perm. rewrite list_elem_of_fmap. split.
  - intros ([k' v] & -> & Hv%elem_of_map_to_list). by exists v.
  - intros [v Hv]. exists (k, v). split; [done|]. by apply elem_of_map_to_list.
Qed.

Section Batch.
Context `{!ChainContext} `{BuildProfile}.

Lemma new_outputs_batch_utxos network m st st' loc :
  prepare_new_transparent_outputs_batch network m st = Ok st' ->
  cf_utxo_by_out_loc st'.1 !! loc = option_or (utxo_output <$> m !! loc) (cf_utxo_by_out_loc st.1 !! loc).
Proof.
  intros Hb. rewrite (foldM_proj _ (fun st => cf_utxo_by_out_loc st.1)
    (fun u e => <[e.1 := utxo_output e.2]> u) _ _ _) with (2 := Hb).
  - destruct (by_location_map m) as [Hnd Hm]. rewrite foldl_insert_lookup by done. by rewrite Hm.
  - intros [cf bal] [l u] s' _. cbn. intros ([cf1 bal1] & H1 & [= <-])%bind_Ok_inv. cbn. f_equal.
    destruct (output_address network (utxo_output u)); [|by injection H1 as <- <-].
    apply bind_Ok_inv in H1 as (abl & _ & [= <- <-]). done.
Qed.

Lemma spent_outputs_batch_utxos network m st st' loc :
  prepare_spent_transparent_outputs_batch network m st = Ok st' ->
  cf_utxo_by_out_loc st'.1 !! loc = if bool_decide (is_Some (m !! loc)) then None else cf_utxo_by_out_loc st.1 !! loc.
Proof.
  intros Hb. rewrite (foldM_proj _ (fun st => cf_utxo_by_out_loc st.1) (fun u e => delete e.1 u) _ _ _) with (2 := Hb).
  - rewrite foldl_delete_lookup. by rewrite (bool_decide_ext _ _ (by_location_keys m loc)).
  - intros [cf bal] [l u] s' _. cbn. intros ([cf1 bal1] & H1 & [= <-])%bind_Ok_inv. cbn. f_equal.
    destruct (output_address network (utxo_output u)); [|by injection H1 as <- <-].
    apply bind_Ok_inv in H1 as (abl & _ & (abl1 & _ & [= <- <-])%bind_Ok_inv). done.
Qed.

Lemma spending_tx_ids_batch_utxos network loc tx spent bal cf cf' :
  prepare_spending_transparent_tx_ids_batch network loc tx spent bal cf = Ok cf' ->
  cf_utxo_by_out_loc cf' = cf_utxo_by_out_loc cf.
Proof.
  intros Hb. rewrite (foldM_proj _ cf_utxo_by_out_loc (fun u _ => u) _ _ _) with (2 := Hb).
  - apply foldl_const.
  - intros s op s' _ (u & _ & H1)%bind_Ok_inv. destruct (output_address _ _); [|by injection H1 as <-].
    apply bind_Ok_inv in H1 as (abl & _ & [= <-]). done.
Qed.
End Batch.

(** ** Note commitment trees *)

(** The trees of one pool after each block: a tree is stored at the first
    height that has it. *)
Section PoolRepr.
Context {T : Type} `{!NoteTree T}.
Implicit Types (cf : PoolCf T) (ts : list T).

Definition stored_tree cf (height : Z) : option (Z * T) :=
  last (filter (fun e => e.1 <= height) (cf_note_commitment_tree cf)).

Record pool_repr cf ts : Prop := {
  pr_keys : forall e, e ∈ cf_note_commitment_tree cf -> 0 <= e.1 < Z.of_nat (length ts);
  pr_tree : forall h t, lookupZ ts h = Some t -> exists e, stored_tree cf h = Some e /\ tree_root e.2 = tree_root t;
  pr_anchors : forall a, a ∈ cf_anchors cf <-> exists t, t ∈ ts /\ a = tree_root t
}.

Lemma pool_repr_empty : pool_repr (mkPoolCf ∅ [] []) [].
Proof.
  split; cbn.
  - by intros e ?%not_elem_of_nil.
  - intros h t Ht%lookupZ_bounds. cbn in Ht. lia.
  - intros a. split; [set_solver|]. by intros (t & ?%not_elem_of_nil & _).
Qed.

Lemma filter_le_snoc (m : btree T) h h' t :
  (forall e, e ∈ m -> e.1 < h) ->
  last (filter (fun e => e.1 <= h') (m ++ [(h, t)]))
  = if h <=? h' then Some (h, t) else last (filter (fun e => e.1 <= h') m).
Proof.
  intros Hm. rewrite filter_app. destruct (Z.leb_spec h h').
  - rewrite (filter_cons_True _ (h, t)) by done. cbn. apply last_snoc.
  - rewrite (filter_cons_False _ (h, t)) by (cbn; lia). cbn. by rewrite app_nil_r.
Qed.

Lemma pool_repr_snoc cf ts prev t subtree :
  pool_repr cf ts -> (forall tip, last ts = Some tip -> tree_root prev = tree_root tip) ->
  pool_repr (update_pool_cf (Z.of_nat (length ts)) prev t subtree cf) (ts ++ [t]).
Proof.
  intros [K R A] Hprev. unfold update_pool_cf. set (h := Z.of_nat (length ts)) in *.
  destruct (height_is_min h || negb (bool_decide (tree_root prev = tree_root t))) eqn:Echg.
  - assert (pool_repr (create_tree h t cf) (ts ++ [t])) as Hrep; [|destruct subtree; [destruct Hrep; by split|done]].
    assert (bt_insert h t (cf_note_commitment_tree cf) = cf_note_commitment_tree cf ++ [(h, t)]) as Ei.
    { apply bt_insert_last. intros e He. specialize (K e He). lia. }
    split; cbn [create_tree cf_anchors cf_note_commitment_tree].
    + rewrite Ei, length_app. cbn. intros e [He| ->%list_elem_of_singleton]%elem_of_app; [specialize (K e He)|cbn]; lia.
    + intros h' t'. rewrite lookupZ_snoc. unfold stored_tree. cbn [cf_note_commitment_tree create_tree]. rewrite Ei, filter_le_snoc.
      2: { intros e He. specialize (K e He). lia. }
      destruct (Z.eqb_spec h' (Z.of_nat (length ts))) as [->|Hne].
      * intros [= <-]. unfold h. rewrite Z.leb_refl. by eexists.
      * intros Ht. pose proof (lookupZ_bounds _ _ _ Ht). rewrite (proj2 (Z.leb_gt _ _)) by lia. by apply R.
    + intros a. rewrite elem_of_union, elem_of_singleton, A. setoid_rewrite elem_of_app. setoid_rewrite list_elem_of_singleton.
      naive_solver.
  - apply orb_false_iff in Echg as [Hmin Heq]. apply negb_false_iff, bool_decide_eq_true in Heq.
    assert (exists tip, last ts = Some tip) as [tip Htip].
    { apply last_is_Some. intros ->. done. }
    split.
    + intros e He. specialize (K e He). rewrite length_app. lia.
    + intros h' t'. rewrite lookupZ_snoc. destruct (Z.eqb_spec h' (Z.of_nat (length ts))) as [->|Hne]; [|by apply R].
      intros [= <-]. pose proof Htip as Hlast. rewrite last_lookup in Hlast. rewrite <- lookupZ_nat in Hlast.
      destruct (R _ _ Hlast) as (e & He & Hr). exists e. split; [|rewrite Hr, <- Heq; symmetry; by apply Hprev].
      rewrite <- He. unfold stored_tree. f_equal. apply list_filter_iff', Forall_forall. intros e' He'. specialize (K e' He'). lia.
    + intros a. rewrite A. setoid_rewrite elem_of_app. setoid_rewrite list_elem_of_singleton. split; [naive_solver|].
      intros (t' & [Ht| ->] & ->); [by exists t'|]. exists tip. split; [by apply last_Some_elem_of|].
      rewrite <- Heq. by apply Hprev.
Qed.

Record sprout_repr (cf : SproutCf T) ts : Prop := {
  sr_tip : forall tip, last ts = Some tip -> exists t, cf_sprout_tree cf = Some t /\ tree_root t = tree_root tip;
  sr_anchors : forall a, is_Some (cf_sprout_anchors cf !! a) <-> exists t, t ∈ ts /\ a = tree_root t;
  sr_root : forall a t, cf_sprout_anchors cf !! a = Some t -> tree_root t = a
}.

Lemma sprout_repr_empty : sprout_repr (mkSproutCf ∅ None) [].
Proof.
  split; cbn; [done| |by intros].
  intros a. rewrite lookup_empty. split; [by intros []|]. by intros (t & ?%not_elem_of_nil & _).
Qed.

Lemma sprout_repr_snoc (cf : SproutCf T) ts prev t :
  sprout_repr cf ts -> (forall tip, last ts = Some tip -> tree_root prev = tree_root tip) ->
  sprout_repr (if height_is_min (Z.of_nat (length ts)) || negb (bool_decide (tree_root prev = tree_root t))
               then update_sprout_tree t cf else cf) (ts ++ [t]).
Proof.
  intros [S A R] Hprev. destruct (_ || _) eqn:Echg.
  - split; cbn.
    + intros tip. rewrite last_snoc. intros [= <-]. by exists t.
    + intros a. setoid_rewrite elem_of_app. setoid_rewrite list_elem_of_singleton.
      destruct (decide (a = tree_root t)) as [->|Hne].
      * rewrite lookup_insert_eq. split; [intros _; by exists t; auto|done].
      * rewrite lookup_insert_ne, A by done. naive_solver.
    + intros a t'. destruct (decide (a = tree_root t)) as [->|Hne].
      * rewrite lookup_insert_eq. by intros [= <-].
      * rewrite lookup_insert_ne by done. apply R.
  - apply orb_false_iff in Echg as [Hmin Heq]. apply negb_false_iff, bool_decide_eq_true in Heq.
    assert (exists tip, last ts = Some tip) as [tip Htip].
    { apply last_is_Some. intros ->. done. }
    specialize (Hprev tip Htip). split; [|..|done].
    + intros tip'. rewrite last_snoc. intros [= <-]. destruct (S tip Htip) as (t' & ? & ?). exists t'. split; [done|congruence].
    + intros a. rewrite A. setoid_rewrite elem_of_app. setoid_rewrite list_elem_of_singleton. split; [naive_solver|].
      intros (t' & [Ht| ->] & ->); [by exists t'|]. exists tip. split; [by apply last_Some_elem_of|congruence].
Qed.
End PoolRepr.

(** ** Blocks *)

Section Repr.
Context {SproutT SaplingT OrchardT HistoryT : Type}
  `{!NoteTree SproutT} `{!NoteTree SaplingT} `{!SubtreeTree SaplingT} `{!NoteTree OrchardT} `{!SubtreeTree OrchardT}
  `{!DefaultTree SproutT} `{!DefaultTree SaplingT} `{!DefaultTree OrchardT}
  `{!HistoryTreeOps HistoryT} `{!HistoryTreeHash HistoryT} `{!StoredHistory HistoryT}
  `{!ChainContext} `{!CommitmentOps} `{BuildProfile}.
Abbreviation tree_state := (Treestate SproutT SaplingT OrchardT HistoryT).
Abbreviation trees := (NoteCommitmentTrees SproutT SaplingT OrchardT).
Abbreviation finalized_db := (@FinalizedDb SproutT SaplingT OrchardT HistoryT).
Abbreviation finalized_block := (@FinalizedBlock SproutT SaplingT OrchardT HistoryT).
Implicit Types (db : finalized_db) (b : finalized_block) (bs : list finalized_block).

(** The transaction, and its hash, at a location. *)
Definition tx_at bs (loc : TransactionLocation) : option Transaction :=
  b ← lookupZ bs (loc_height loc); lookupZ (transactions (fb_block b)) (loc_index loc).
Definition hash_at bs (loc : TransactionLocation) : option bytes :=
  b ← lookupZ bs (loc_height loc); lookupZ (fb_transaction_hashes b) (loc_index loc).

(** What the database needs of a block that follows the blocks [bs]: hashes
    that are new and distinct, one for each transaction, and its outputs. *)
Record new_block bs b : Prop := {
  nb_length : length (fb_transaction_hashes b) = length (transactions (fb_block b));
  nb_distinct : NoDup (fb_transaction_hashes b);
  nb_fresh : forall b' hash, b' ∈ bs -> hash ∈ fb_transaction_hashes b -> hash ∉ fb_transaction_hashes b';
  nb_hash : forall b', b' ∈ bs -> fb_hash b' <> fb_hash b;
  nb_outputs : forall op u, fb_new_outputs b !! op = Some u ->
    exists (i : nat) o, fb_transaction_hashes b !! i = Some (outpoint_hash op)
      /\ u = OrderedUtxo_new o (fb_height b) (Z.of_nat i)
}.

Record blocks_repr (cf : BlockCf) bs : Prop := {
  br_heights : forall i b, lookupZ bs i = Some b -> fb_height b = i;
  br_hashes : cf_hash_by_height cf = imap (fun i b => (Z.of_nat i, fb_hash b)) bs;
  br_height : forall hash h, cf_height_by_hash cf !! hash = Some h <-> exists b, lookupZ bs h = Some b /\ fb_hash b = hash;
  br_header : forall h, cf_block_header_by_height cf !! h = (fun b => block_header (fb_block b)) <$> lookupZ bs h;
  br_tx : forall loc, cf_tx_by_loc cf !! loc = tx_at bs loc;
  br_tx_hash : forall loc, cf_hash_by_tx_loc cf !! loc = hash_at bs loc;
  br_tx_loc : forall hash loc, cf_tx_loc_by_hash cf !! hash = Some loc <-> hash_at bs loc = Some hash;
  br_size : forall b, b ∈ bs -> Z.of_nat (length (transactions (fb_block b))) <= u16_MAX + 1
}.

Lemma blocks_repr_empty : blocks_repr (mkBlockCf [] ∅ ∅ ∅ ∅ ∅) [].
Proof.
  assert (forall (A : Type) h, lookupZ (@nil A) h = None) as Hn by (intros; apply lookupZ_None; cbn; lia).
  split; cbn; intros; unfold tx_at, hash_at in *; rewrite ?Hn in *; try done.
  - rewrite lookup_empty. split; [done|]. by intros (b & Hb & _).
  - match goal with Hb : _ ∈ [] |- _ => by apply not_elem_of_nil in Hb end.
Qed.

Lemma tx_at_snoc bs b loc :
  tx_at (bs ++ [b]) loc = option_or (at_height (Z.of_nat (length bs)) (transactions (fb_block b)) loc) (tx_at bs loc).
Proof.
  unfold tx_at, at_height. rewrite lookupZ_snoc. destruct (Z.eqb_spec (loc_height loc) (Z.of_nat (length bs))) as [->|]; [|done].
  rewrite (lookupZ_None bs) by lia. cbn. by destruct (lookupZ _ _).
Qed.
Lemma hash_at_snoc bs b loc :
  hash_at (bs ++ [b]) loc = option_or (at_height (Z.of_nat (length bs)) (fb_transaction_hashes b) loc) (hash_at bs loc).
Proof.
  unfold hash_at, at_height. rewrite lookupZ_snoc. destruct (Z.eqb_spec (loc_height loc) (Z.of_nat (length bs))) as [->|]; [|done].
  rewrite (lookupZ_None bs) by lia. cbn. by destruct (lookupZ _ _).
Qed.
Lemma hash_at_elem bs loc hash :
  hash_at bs loc = Some hash -> exists b, b ∈ bs /\ hash ∈ fb_transaction_hashes b /\ loc_height loc < Z.of_nat (length bs).
Proof.
  unfold hash_at. intros (b & Hb & Hh)%bind_Some. pose proof (lookupZ_bounds _ _ _ Hb).
  apply lookupZ_Some in Hb as (i & _ & Hb%list_elem_of_lookup_2), Hh as (j & _ & Hh%list_elem_of_lookup_2).
  exists b. split_and!; [done..|lia].
Qed.

(** A new transaction hash has one location. *)
Lemma hash_at_new bs b hash loc :
  new_block bs b ->
  hash_at (bs ++ [b]) loc = Some hash <->
  (exists i : nat, fb_transaction_hashes b !! i = Some hash /\ loc = mkTransactionLocation (Z.of_nat (length bs)) (Z.of_nat i))
  \/ hash ∉ fb_transaction_hashes b /\ hash_at bs loc = Some hash.
Proof.
  intros Hnb. rewrite hash_at_snoc. unfold at_height. destruct loc as [h j]; cbn [loc_height loc_index].
  destruct (Z.eqb_spec h (Z.of_nat (length bs))) as [->|Hne].
  - assert (hash_at bs (mkTransactionLocation (Z.of_nat (length bs)) j) = None) as ->.
    { unfold hash_at. cbn. by rewrite lookupZ_None by lia. }
    destruct (lookupZ (fb_transaction_hashes b) j) as [x|] eqn:Ej; cbn [option_or]; split.
    + intros [= ->]. apply lookupZ_Some in Ej as (i & -> & Hi). left. by exists i.
    + intros [(i & Hi & [= ->])|[_ [=]]]. rewrite lookupZ_nat in Ej. congruence.
    + done.
    + intros [(i & Hi & [= ->])|[_ [=]]]. rewrite lookupZ_nat in Ej. congruence.
  - cbn [option_or]. split.
    + intros Hh. right. split; [|done]. intros Hin. destruct (hash_at_elem _ _ _ Hh) as (b' & Hb' & Hh' & _).
      by apply (nb_fresh _ _ Hnb b' hash).
    + intros [(i & _ & [= -> _])|[_ Hh]]; done.
Qed.

Lemma blocks_repr_snoc db db1 bs b :
  blocks_repr (block_cf db) bs -> new_block bs b -> fb_height b = Z.of_nat (length bs) ->
  prepare_block_header_and_transaction_data_batch db b = Ok db1 ->
  db1 = set_block_cf db (block_cf db1) /\ blocks_repr (block_cf db1) (bs ++ [b]).
Proof.
  intros [R1 R2 R3 R4 R5 R6 R7 R8] Hnb Hh. unfold prepare_block_header_and_transaction_data_batch.
  intros (cf & Hcf & [= <-])%bind_Ok_inv. split; [done|]. cbn [block_cf set_block_cf].
  pose proof (nb_length _ _ Hnb) as Hlen.
  apply (transaction_batch_spec (fb_height b)) in Hcf; [|rewrite snd_zip by lia; apply Hnb].
  cbn [cf_hash_by_height cf_height_by_hash cf_block_header_by_height cf_tx_by_loc cf_hash_by_tx_loc cf_tx_loc_by_hash] in Hcf.
  rewrite snd_zip, fst_zip, Hh in Hcf by lia. destruct Hcf as (E1 & E2 & E3 & E4 & E5 & E6 & E7 & E8). split.
  - intros i b'. rewrite lookupZ_snoc. destruct (Z.eqb_spec i (Z.of_nat (length bs))) as [->|]; [by intros [= <-]|apply R1].
  - rewrite E1, R2, imap_app. cbn. rewrite Nat.add_0_r. apply bt_below_insert_last, Forall_forall.
    intros e (i & b' & -> & Hi%lookup_lt_Some)%elem_of_lookup_imap_1. cbn. lia.
  - intros hash h. rewrite E2. destruct (decide (hash = fb_hash b)) as [->|Hne].
    + rewrite lookup_insert_eq. setoid_rewrite lookupZ_snoc. split.
      * intros [= <-]. exists b. by rewrite Z.eqb_refl.
      * destruct (Z.eqb_spec h (Z.of_nat (length bs))) as [->|]; [done|]. intros (b' & Hb' & Heq).
        apply lookupZ_Some in Hb' as (i & _ & Hb'%list_elem_of_lookup_2). by apply (nb_hash _ _ Hnb) in Hb'.
    + rewrite lookup_insert_ne, R3 by done. setoid_rewrite lookupZ_snoc.
      destruct (Z.eqb_spec h (Z.of_nat (length bs))) as [->|]; [|done].
      rewrite lookupZ_None by lia. split; intros (b' & Hb' & Heq); [done|]. congruence.
  - intros h. rewrite E3, lookupZ_snoc. destruct (Z.eqb_spec h (Z.of_nat (length bs))) as [->|Hne].
    + by rewrite lookup_insert_eq.
    + by rewrite lookup_insert_ne.
  - intros loc. by rewrite E4, R5, tx_at_snoc.
  - intros loc. by rewrite E5, R6, hash_at_snoc.
  - intros hash loc. rewrite hash_at_new by done. destruct (decide (hash ∈ fb_transaction_hashes b)) as [Hin|Hni].
    + apply list_elem_of_lookup in Hin as [i Hi]. rewrite (E6 i) by done. split.
      * intros [= <-]. left. by exists i.
      * intros [(j & Hj & ->)|[Hni _]]; [|by apply list_elem_of_lookup_2 in Hi].
        do 3 f_equal. by eapply (NoDup_lookup _ _ _ _ (nb_distinct _ _ Hnb)).
    + rewrite E7, R7 by done. split; [by right|]. intros [(j & Hj%list_elem_of_lookup_2 & _)|[_ ?]]; done.
  - intros b' [Hb'| ->%list_elem_of_singleton]%elem_of_app; [by apply R8|].
    rewrite length_zip in E8. lia.
Qed.

(** ** Outputs *)

(** The location of an output. *)
Definition out_loc_at bs (op : OutPoint) (loc : OutputLocation) : Prop :=
  hash_at bs (transaction_loc loc) = Some (outpoint_hash op) /\ output_index loc = outpoint_index op.

Lemma out_loc_at_inj bs op1 op2 loc : out_loc_at bs op1 loc -> out_loc_at bs op2 loc -> op1 = op2.
Proof. destruct op1, op2. unfold out_loc_at. cbn. intros [? ?] [? ?]. f_equal; congruence. Qed.

Lemma output_location_spec db bs op loc :
  blocks_repr (block_cf db) bs -> output_location db op = Some loc <-> out_loc_at bs op loc.
Proof.
  intros R. unfold output_location, fdb_transaction_location, out_loc_at. rewrite fmap_Some.
  setoid_rewrite (br_tx_loc _ _ R). unfold from_outpoint. destruct loc as [l i]; cbn. split.
  - by intros (l' & Hl & [= -> ->]).
  - intros [Hl ->]. by exists l.
Qed.

Definition block_indexes b : gmap bytes Z :=
  foldl (fun m '(index, hash) => <[hash := index]> m) ∅ (enumerate (fb_transaction_hashes b)).

Lemma lookup_out_loc_Ok bs b op loc :
  new_block bs b -> fb_height b = Z.of_nat (length bs) ->
  lookup_out_loc (fb_height b) op (block_indexes b) = Ok loc ->
  out_loc_at (bs ++ [b]) op loc /\ loc_height (transaction_loc loc) = Z.of_nat (length bs).
Proof.
  intros Hnb Hh. unfold lookup_out_loc, TransactionLocation_from_usize.
  intros (z & Hz%unwrap_Ok & (l & (i & Hi%unwrap_Ok & [= <-])%bind_Ok_inv & [= <-])%bind_Ok_inv)%bind_Ok_inv.
  apply checked_Some in Hi as [-> _]. apply hash_indexes_lookup in Hz as (n & -> & Hn); [|apply Hnb].
  unfold out_loc_at, from_outpoint. cbn. rewrite hash_at_new by done. rewrite Hh. split; [|done]. split; [|done].
  left. by exists n.
Qed.

Definition block_spends b : list OutPoint := mbind spent_outpoints (transactions (fb_block b)).

(** The output spent by an input, before or in the block. *)
Definition spent_output_of db b (op : OutPoint) : option Utxo :=
  ordered_utxo <$> option_or (fdb_utxo db op) (fb_new_outputs b !! op).

Lemma spent_utxo_Ok db bs b op t :
  blocks_repr (block_cf db) bs -> new_block bs b -> fb_height b = Z.of_nat (length bs) ->
  spent_utxo db b (block_indexes b) op = Ok t ->
  t.1.1 = op /\ out_loc_at (bs ++ [b]) op t.1.2 /\ spent_output_of db b op = Some t.2.
Proof.
  intros R Hnb Hh. unfold spent_utxo. intros (loc & Hloc & (u & Hu%unwrap_Ok & [= <-])%bind_Ok_inv)%bind_Ok_inv. cbn.
  split_and!; [done| |].
  - destruct (output_location db op) as [loc'|] eqn:El.
    + injection Hloc as <-. apply (output_location_spec db bs) in El as [Hl Hi]; [|done]. split; [|done].
      apply hash_at_new; [done|]. right. split; [|done]. intros Hin.
      destruct (hash_at_elem _ _ _ Hl) as (b' & Hb' & Hh' & _). by apply (nb_fresh _ _ Hnb b' (outpoint_hash op)).
    + by eapply lookup_out_loc_Ok.
  - unfold spent_output_of. rewrite <- Hu. by destruct (fdb_utxo db op).
Qed.

Definition spends_by_outpoint (spent : list (OutPoint * OutputLocation * Utxo)) : gmap OutPoint Utxo :=
  foldl (fun m '(outpoint, _, u) => <[outpoint := u]> m) ∅ spent.
Definition spends_by_out_loc (spent : list (OutPoint * OutputLocation * Utxo)) : gmap OutputLocation Utxo :=
  foldl (fun m '(_, loc, u) => <[loc := u]> m) ∅ spent.

Lemma write_block_inv db b prev network db' :
  write_block db b prev network = Ok db' ->
  exists (new : gmap OutputLocation Utxo) spent bal db1 db2 db3,
    foldM (fun m '(op, u) => loc ← lookup_out_loc (fb_height b) op (block_indexes b); Ok (<[loc := ordered_utxo u]> m)) ∅
      (map_to_list (fb_new_outputs b)) = Ok new
    /\ map_res (spent_utxo db b (block_indexes b)) (block_spends b) = Ok spent
    /\ prepare_block_header_and_transaction_data_batch db b = Ok db1
    /\ prepare_trees_batch db (prepare_shielded_transaction_batch db1 b) b prev = Ok db2
    /\ (if height_is_min (fb_height b) then Ok db2
        else prepare_transparent_transaction_batch db2 network b new (spends_by_outpoint spent) (spends_by_out_loc spent) bal)
       = Ok db3
    /\ prepare_chain_value_pools_batch db3 b (spends_by_outpoint spent) (fdb_value_pool db) = Ok db'.
Proof.
  unfold write_block, prepare_block_batch.
  intros (new & Hnew%lift_Ok & (spent & Hsp%lift_Ok & (bal & _ & (db1 & B1%lift_Ok & (db2 & B2%lift_Ok &
    (db3 & B3 & B4)%bind_Ok_inv)%bind_Ok_inv)%bind_Ok_inv)%bind_Ok_inv)%bind_Ok_inv)%bind_Ok_inv.
  apply map_err_Ok in B4. exists new, spent, bal, db1, db2, db3. split_and!; try done.
  destruct (height_is_min _); [by injection B3 as ->|]. by apply lift_Ok in B3.
Qed.

(** What each batch changes. *)
Lemma trees_batch_frame db batch b prev db2 :
  prepare_trees_batch db batch b prev = Ok db2 ->
  block_cf db2 = block_cf batch /\ transparent_cf db2 = transparent_cf batch /\ nullifier_cf db2 = nullifier_cf batch
  /\ fdb_network db2 = fdb_network batch.
Proof. unfold prepare_trees_batch. intros (? & _ & (? & _ & (? & _ & [= <-])%bind_Ok_inv)%bind_Ok_inv)%bind_Ok_inv. done. Qed.

Lemma transparent_batch_spec batch network b new by_outpoint by_out_loc bal db3 :
  prepare_transparent_transaction_batch batch network b new by_outpoint by_out_loc bal = Ok db3 ->
  db3 = set_transparent_cf batch (transparent_cf db3)
  /\ forall loc, cf_utxo_by_out_loc (transparent_cf db3) !! loc
       = if bool_decide (is_Some (by_out_loc !! loc)) then None
         else option_or (utxo_output <$> new !! loc) (cf_utxo_by_out_loc (transparent_cf batch) !! loc).
Proof.
  unfold prepare_transparent_transaction_batch.
  intros (st & B1 & ([cf bal'] & B2 & (cf1 & B3 & (cf2 & B4 & [= <-])%bind_Ok_inv)%bind_Ok_inv)%bind_Ok_inv)%bind_Ok_inv.
  split; [done|]. intros loc. cbn [transparent_cf set_transparent_cf].
  apply bind_Ok_inv in B4 as (stored & _ & [= <-]). cbn [cf_utxo_by_out_loc].
  rewrite (foldM_proj _ cf_utxo_by_out_loc (fun u _ => u) _ _ _) with (2 := B3).
  - rewrite foldl_const. apply (spent_outputs_batch_utxos _ _ _ _ loc) in B2. cbn [fst] in B2. rewrite B2.
    apply (new_outputs_batch_utxos _ _ _ _ loc) in B1. cbn [fst] in B1. by rewrite B1.
  - intros s [i tx] s' _ (l & _ & Hs)%bind_Ok_inv. by apply spending_tx_ids_batch_utxos in Hs.
Qed.

Lemma value_pools_batch_frame batch b spent pool db' :
  prepare_chain_value_pools_batch batch b spent pool = Ok db' -> db' = set_chain_cf batch (chain_cf db').
Proof.
  unfold prepare_chain_value_pools_batch.
  intros (change & _ & (pool' & _ & [= <-])%bind_Ok_inv)%bind_Ok_inv. done.
Qed.

(** The unspent outputs of a list of blocks. The genesis block has none. *)
Definition utxo_step (m : gmap OutPoint OrderedUtxo) b : gmap OutPoint OrderedUtxo :=
  if height_is_min (fb_height b) then m else filter (fun e => e.1 ∉ block_spends b) (fb_new_outputs b ∪ m).
Definition utxo_set bs : gmap OutPoint OrderedUtxo := foldl utxo_step ∅ bs.

Lemma utxo_set_snoc bs b : utxo_set (bs ++ [b]) = utxo_step (utxo_set bs) b.
Proof. unfold utxo_set. by rewrite foldl_app. Qed.
Lemma utxo_step_lookup (m : gmap OutPoint OrderedUtxo) b op :
  height_is_min (fb_height b) = false ->
  utxo_step m b !! op = if bool_decide (op ∈ block_spends b) then None else option_or (fb_new_outputs b !! op) (m !! op).
Proof.
  intros Hmin. unfold utxo_step. rewrite Hmin. case_bool_decide as Hs.
  - apply map_lookup_filter_None_2. right. intros u _ Hn. by apply Hn.
  - rewrite map_lookup_filter, lookup_union. destruct (fb_new_outputs b !! op), (m !! op); cbn; by rewrite ?option_guard_True.
Qed.

Record outputs_repr db bs : Prop := {
  or_utxo : forall op, fdb_utxo db op = utxo_set bs !! op;
  or_loc : forall loc, is_Some (cf_utxo_by_out_loc (transparent_cf db) !! loc) -> is_Some (hash_at bs (transaction_loc loc))
}.

(** The outputs created by a block, by location. *)
Lemma new_by_out_loc bs b (new : gmap OutputLocation Utxo) loc u :
  new_block bs b -> fb_height b = Z.of_nat (length bs) ->
  foldM (fun m '(op, u) => loc ← lookup_out_loc (fb_height b) op (block_indexes b); Ok (<[loc := ordered_utxo u]> m)) ∅
      (map_to_list (fb_new_outputs b)) = Ok (E := Empty_set) new ->
  new !! loc = Some u <-> exists op ou, fb_new_outputs b !! op = Some ou /\
    lookup_out_loc (fb_height b) op (block_indexes b) = Ok loc /\ u = ordered_utxo ou.
Proof.
  intros Hnb Hh Hnew.
  rewrite (foldM_insert_lookup (fun op => lookup_out_loc (fb_height b) op (block_indexes b)) ordered_utxo) with (3 := Hnew).
  - by setoid_rewrite elem_of_map_to_list.
  - intros op1 op2 l _ _ [L1 _]%(lookup_out_loc_Ok bs) [L2 _]%(lookup_out_loc_Ok bs); [|done..]. by eapply out_loc_at_inj.
  - apply NoDup_fst_map_to_list.
Qed.

(** The outputs spent by a block. *)
Lemma spends_spec db bs b spent :
  blocks_repr (block_cf db) bs -> new_block bs b -> fb_height b = Z.of_nat (length bs) ->
  map_res (spent_utxo db b (block_indexes b)) (block_spends b) = Ok spent ->
  (forall t, t ∈ spent -> t.1.1 ∈ block_spends b /\ out_loc_at (bs ++ [b]) t.1.1 t.1.2 /\ spent_output_of db b t.1.1 = Some t.2)
  /\ (forall op, op ∈ block_spends b -> exists t, t ∈ spent /\ t.1.1 = op).
Proof.
  intros R Hnb Hh Hsp%map_res_Ok. split.
  - intros t [i Hi]%list_elem_of_lookup. destruct (Forall2_lookup_r _ _ _ _ _ Hsp Hi) as (op & Hop & Ht).
    apply (spent_utxo_Ok db bs) in Ht as (-> & ? & ?); [|done..]. split; [by eapply list_elem_of_lookup_2|done].
  - intros op [i Hi]%list_elem_of_lookup. destruct (Forall2_lookup_l _ _ _ _ _ Hsp Hi) as (t & Ht & Heq).
    apply (spent_utxo_Ok db bs) in Heq as (? & _); [|done..]. exists t. split; [by eapply list_elem_of_lookup_2|done].
Qed.

Lemma spends_by_outpoint_lookup db bs b spent op :
  blocks_repr (block_cf db) bs -> new_block bs b -> fb_height b = Z.of_nat (length bs) ->
  map_res (spent_utxo db b (block_indexes b)) (block_spends b) = Ok spent ->
  spends_by_outpoint spent !! op = if bool_decide (op ∈ block_spends b) then spent_output_of db b op else None.
Proof.
  intros R Hnb Hh Hsp. destruct (spends_spec db bs b spent R Hnb Hh Hsp) as [S1 S2].
  assert (forall u, spends_by_outpoint spent !! op = Some u <-> exists t, t ∈ spent /\ t.1.1 = op /\ t.2 = u) as L.
  { intros u. unfold spends_by_outpoint. rewrite (foldl_pointwise _ (fun m t => <[t.1.1 := t.2]> m)) by (by intros ? [[]]).
    apply foldl_insert_agree.
    intros t1 t2 (_ & _ & E1)%S1 (_ & _ & E2)%S1 Heq. congruence. }
  case_bool_decide as Hop.
  - destruct (S2 op Hop) as (t & Ht & <-). destruct (S1 t Ht) as (_ & _ & ->). apply L. by exists t.
  - apply eq_None_not_Some. intros [u (t & Ht & <- & _)%L]. by destruct (S1 t Ht).
Qed.

Lemma out_loc_at_unique (cf : BlockCf) bs op l1 l2 : blocks_repr cf bs -> out_loc_at bs op l1 -> out_loc_at bs op l2 -> l1 = l2.
Proof.
  intros R [L1%(br_tx_loc _ _ R) I1] [L2%(br_tx_loc _ _ R) I2]. destruct l1, l2; cbn in *. f_equal; congruence.
Qed.

Lemma spends_by_out_loc_lookup (cf' : BlockCf) db bs b spent loc :
  blocks_repr (block_cf db) bs -> blocks_repr cf' (bs ++ [b]) -> new_block bs b -> fb_height b = Z.of_nat (length bs) ->
  map_res (spent_utxo db b (block_indexes b)) (block_spends b) = Ok spent ->
  is_Some (spends_by_out_loc spent !! loc) <-> exists op, op ∈ block_spends b /\ out_loc_at (bs ++ [b]) op loc.
Proof.
  intros R R' Hnb Hh Hsp. destruct (spends_spec db bs b spent R Hnb Hh Hsp) as [S1 S2].
  assert (forall u, spends_by_out_loc spent !! loc = Some u <-> exists t, t ∈ spent /\ t.1.2 = loc /\ t.2 = u) as L.
  { intros u. unfold spends_by_out_loc. rewrite (foldl_pointwise _ (fun m t => <[t.1.2 := t.2]> m)) by (by intros ? [[]]).
    apply foldl_insert_agree.
    intros t1 t2 (_ & L1 & E1)%S1 (_ & L2 & E2)%S1 Heq. rewrite Heq in L1. rewrite (out_loc_at_inj _ _ _ _ L1 L2) in E1.
      congruence. }
  split.
  - intros [u (t & Ht & <- & _)%L]. destruct (S1 t Ht) as (? & ? & _). by exists t.1.1.
  - intros (op & (t & Ht & <-)%S2 & Hl). destruct (S1 t Ht) as (_ & Hl' & _). exists t.2. apply L. exists t. split_and!; [done| |done].
    by eapply out_loc_at_unique.
Qed.

Lemma fdb_utxo_spec db bs op loc :
  blocks_repr (block_cf db) bs -> out_loc_at bs op loc ->
  fdb_utxo db op = (fun o => OrderedUtxo_new o (loc_height (transaction_loc loc)) (loc_index (transaction_loc loc)))
                     <$> cf_utxo_by_out_loc (transparent_cf db) !! loc.
Proof. intros R Hl%(output_location_spec db); [|done]. unfold fdb_utxo, utxo_by_location. rewrite Hl. cbn. by destruct (_ !! _). Qed.
Lemma fdb_utxo_none db bs op :
  blocks_repr (block_cf db) bs -> (forall loc, ~ out_loc_at bs op loc) -> fdb_utxo db op = None.
Proof.
  intros R Hn. unfold fdb_utxo. destruct (output_location db op) as [loc|] eqn:El; [|done].
  apply (output_location_spec db bs) in El; [|done]. by apply Hn in El.
Qed.

(** The outputs after a block, given the outputs in the batch. *)
Lemma outputs_after db db' bs b (new : gmap OutputLocation Utxo) (by_out_loc : gmap OutputLocation Utxo) op :
  blocks_repr (block_cf db) bs -> blocks_repr (block_cf db') (bs ++ [b]) -> outputs_repr db bs -> new_block bs b ->
  fb_height b = Z.of_nat (length bs) ->
  (forall loc u, new !! loc = Some u <-> exists op ou, fb_new_outputs b !! op = Some ou /\
    lookup_out_loc (fb_height b) op (block_indexes b) = Ok loc /\ u = ordered_utxo ou) ->
  (forall op, is_Some (fb_new_outputs b !! op) -> exists loc, lookup_out_loc (fb_height b) op (block_indexes b) = Ok loc) ->
  (forall loc, is_Some (by_out_loc !! loc) <-> exists op, op ∈ block_spends b /\ out_loc_at (bs ++ [b]) op loc) ->
  (forall loc, cf_utxo_by_out_loc (transparent_cf db') !! loc
     = if bool_decide (is_Some (by_out_loc !! loc)) then None
       else option_or (utxo_output <$> new !! loc) (cf_utxo_by_out_loc (transparent_cf db) !! loc)) ->
  fdb_utxo db' op = if bool_decide (op ∈ block_spends b) then None else option_or (fb_new_outputs b !! op) (fdb_utxo db op).
Proof.
  intros R R' O Hnb Hh Hnew Htot Hsp Hcf. destruct (output_location db' op) as [loc|] eqn:El; cycle 1.
  { assert (forall loc, ~ out_loc_at (bs ++ [b]) op loc) as Hno.
    { intros l Hl%(output_location_spec db'); [congruence|done]. }
    rewrite (fdb_utxo_none db' (bs ++ [b])) by done. case_bool_decide; [done|].
    destruct (fb_new_outputs b !! op) eqn:En.
    { destruct (Htot op) as [l Hl]; [by eexists|]. apply (lookup_out_loc_Ok bs) in Hl as [Hl _]; [by apply Hno in Hl|done..]. }
    rewrite (fdb_utxo_none db bs); [done..|]. intros l [Hl Hi]. apply (Hno l). split; [|done]. apply hash_at_new; [done|].
    right. split; [|done]. intros Hin. destruct (hash_at_elem _ _ _ Hl) as (b' & Hb' & Hh' & _).
    by apply (nb_fresh _ _ Hnb b' (outpoint_hash op)). }
  apply (output_location_spec db' (bs ++ [b])) in El; [|done]. rewrite (fdb_utxo_spec db' (bs ++ [b]) op loc), Hcf by done.
  case_bool_decide as Hs.
  { apply Hsp in Hs as (op' & Hop & Hl). rewrite (out_loc_at_inj _ _ _ _ Hl El) in Hop. by rewrite bool_decide_eq_true_2. }
  rewrite bool_decide_eq_false_2 by (intros Hop; apply Hs, Hsp; by exists op).
  destruct El as [Hl Hi]. apply hash_at_new in Hl as [(i & Hi' & El)|[Hni Hl]]; [| |done].
  - assert (fdb_utxo db op = None) as ->.
    { apply (fdb_utxo_none db bs); [done|]. intros l [Hl _]. destruct (hash_at_elem _ _ _ Hl) as (b' & Hb' & Hh' & _).
      apply (nb_fresh _ _ Hnb b' (outpoint_hash op)); [done| |done]. by eapply list_elem_of_lookup_2. }
    assert (cf_utxo_by_out_loc (transparent_cf db) !! loc = None) as ->.
    { apply eq_None_not_Some. intros [x Hx]%(or_loc _ _ O). destruct (hash_at_elem _ _ _ Hx) as (_ & _ & _ & Hlt).
      rewrite El in Hlt. cbn in Hlt. lia. }
    assert (out_loc_at (bs ++ [b]) op loc) as Hat by (split; [apply hash_at_new; [done|]; left; by exists i|done]).
    destruct (fb_new_outputs b !! op) as [ou|] eqn:En.
    + destruct (Htot op) as [l Hl]; [by eexists|]. pose proof (lookup_out_loc_Ok bs b op l Hnb Hh Hl) as [Hl' _].
      rewrite (out_loc_at_unique _ _ _ _ _ R' Hl' Hat) in Hl.
      rewrite (proj2 (Hnew loc (ordered_utxo ou))) by (by exists op, ou). cbn. rewrite El. cbn.
      destruct (nb_outputs _ _ Hnb op ou En) as (j & o & Hj & ->). rewrite (NoDup_lookup _ _ _ _ (nb_distinct _ _ Hnb) Hj Hi').
      by rewrite Hh.
    + destruct (new !! loc) as [u|] eqn:Eu; [|done]. apply Hnew in Eu as (op' & ou & En' & Hl & _).
      apply (lookup_out_loc_Ok bs) in Hl as [Hl _]; [|done..]. rewrite (out_loc_at_inj _ _ _ _ Hl Hat) in En'. congruence.
  - assert (fb_new_outputs b !! op = None) as ->.
    { apply eq_None_not_Some. intros [ou En]. destruct (nb_outputs _ _ Hnb op ou En) as (j & o & Hj & _).
      by apply list_elem_of_lookup_2 in Hj. }
    cbn [option_or]. rewrite (fdb_utxo_spec db bs op loc) by done. f_equal.
    destruct (new !! loc) as [u|] eqn:Eu; [|done]. apply Hnew in Eu as (op' & ou & _ & Hlk & _).
    apply (lookup_out_loc_Ok bs) in Hlk as [_ Hlk]; [|done..]. destruct (hash_at_elem _ _ _ Hl) as (_ & _ & _ & Hlt). lia.
Qed.

Lemma outputs_repr_snoc db bs b prev network db' :
  blocks_repr (block_cf db) bs -> outputs_repr db bs -> new_block bs b -> fb_height b = Z.of_nat (length bs) ->
  write_block db b prev network = Ok db' ->
  blocks_repr (block_cf db') (bs ++ [b]) /\ outputs_repr db' (bs ++ [b]).
Proof.
  intros R O Hnb Hh (new & spent & bal & db1 & db2 & db3 & Hnew & Hsp & B1 & B2 & B3 & B4)%write_block_inv.
  destruct (blocks_repr_snoc db db1 bs b R Hnb Hh B1) as [F1 R'].
  destruct (trees_batch_frame _ _ _ _ _ B2) as (F2 & F2' & _). cbn in F2, F2'.
  rewrite F1 in F2'. cbn in F2'. pose proof (value_pools_batch_frame _ _ _ _ _ B4) as F4.
  destruct (height_is_min (fb_height b)) eqn:Emin.
  - injection B3 as <-. rewrite F4. cbn [block_cf set_chain_cf]. rewrite F2. split; [done|].
    assert (bs = []) as -> by (destruct bs; [done|]; unfold height_is_min, Height_MIN in Emin; bool_to_prop; cbn in *; lia).
    assert (forall loc, cf_utxo_by_out_loc (transparent_cf db) !! loc = None) as Hno.
    { intros loc. apply eq_None_not_Some. intros Hl. apply (or_loc _ _ O) in Hl as [x Hx].
      destruct (hash_at_elem _ _ _ Hx) as (b' & Hb' & _). by apply not_elem_of_nil in Hb'. }
    split; cycle 1.
    { intros loc. cbn [transparent_cf set_chain_cf]. rewrite F2', Hno. by intros []. }
    intros op. rewrite utxo_set_snoc. unfold utxo_step. rewrite Emin. cbn. rewrite lookup_empty.
    unfold fdb_utxo, utxo_by_location. cbn [transparent_cf set_chain_cf]. rewrite F2'.
    destruct (output_location _ _); [|done]. cbn. by rewrite Hno.
  - destruct (transparent_batch_spec _ _ _ _ _ _ _ _ B3) as [F3 Hcf]. rewrite F3 in F4.
    assert (block_cf db' = block_cf db1) as Ecf by (rewrite F4; done). rewrite Ecf. split; [done|].
    assert (transparent_cf db' = transparent_cf db3) as Et by (rewrite F4; done). rewrite F2' in Hcf.
    pose proof (fun loc u => new_by_out_loc bs b new loc u Hnb Hh Hnew) as Hnew'.
    pose proof (fun loc => spends_by_out_loc_lookup _ db bs b spent loc R R' Hnb Hh Hsp) as Hsp'. split.
    + intros op. rewrite utxo_set_snoc, utxo_step_lookup, <- (or_utxo _ _ O) by done.
      apply (outputs_after db db' bs b new (spends_by_out_loc spent)); try done; [by rewrite Ecf| |by rewrite Et].
      intros op' [ou Hou%elem_of_map_to_list]. destruct (foldM_Ok_step _ _ _ _ _ Hnew Hou) as (m & m' & Hl).
      apply bind_Ok_inv in Hl as (l & Hl & _). by exists l.
    + intros loc. rewrite Et, Hcf. case_bool_decide; [by intros []|]. intros [x Hx].
      rewrite hash_at_snoc. destruct (new !! loc) as [u|] eqn:Eu; cbn in Hx.
      * apply Hnew' in Eu as (op & ou & _ & Hl & _). apply (lookup_out_loc_Ok bs) in Hl as [[Hl _] _]; [|done..].
        rewrite <- hash_at_snoc, Hl. done.
      * destruct (or_loc _ _ O loc) as [y Hy]; [by eexists|]. rewrite Hy. by destruct (at_height _ _ _).
Qed.

(** ** Nullifiers *)

Definition revealed bs (pool : Pool) (nullifier : bytes) : Prop :=
  exists b tx, b ∈ bs /\ tx ∈ transactions (fb_block b) /\ nullifier ∈ pool_nullifiers pool tx.

Definition pool_set (pool : Pool) (cf : NullifierCf) : gset bytes :=
  match pool with
  | SproutPool => cf_sprout_nullifiers cf
  | SaplingPool => cf_sapling_nullifiers cf
  | OrchardPool => cf_orchard_nullifiers cf
  end.
Lemma nullifier_batches pool (txs : list Transaction) cf n :
  n ∈ pool_set pool (foldl prepare_nullifier_batch cf txs)
  <-> n ∈ pool_set pool cf \/ exists tx, tx ∈ txs /\ n ∈ pool_nullifiers pool tx.
Proof.
  revert cf. induction txs as [|tx txs IH]; intros cf; cbn [foldl].
  { split; [by left|]. intros [|(tx & ?%not_elem_of_nil & _)]; done. }
  rewrite IH. setoid_rewrite elem_of_cons.
  assert (n ∈ pool_set pool (prepare_nullifier_batch cf tx) <-> n ∈ pool_nullifiers pool tx \/ n ∈ pool_set pool cf) as ->.
  { destruct pool; cbn; by rewrite elem_of_union, elem_of_list_to_set. }
  naive_solver.
Qed.

Lemma nullifiers_snoc db bs b prev network db' pool n :
  (forall n, fdb_contains_nullifier db pool n = true <-> revealed bs pool n) ->
  write_block db b prev network = Ok db' ->
  fdb_contains_nullifier db' pool n = true <-> revealed (bs ++ [b]) pool n.
Proof.
  intros Hn (new & spent & bal & db1 & db2 & db3 & _ & _ & B1 & B2 & B3 & B4)%write_block_inv.
  assert (nullifier_cf db' = foldl prepare_nullifier_batch (nullifier_cf db) (transactions (fb_block b))) as E.
  { rewrite (value_pools_batch_frame _ _ _ _ _ B4). cbn. destruct (trees_batch_frame _ _ _ _ _ B2) as (_ & _ & F2 & _).
    cbn in F2. unfold prepare_block_header_and_transaction_data_batch in B1. apply bind_Ok_inv in B1 as (cf & _ & [= <-]).
    cbn in F2. rewrite <- F2. destruct (height_is_min _); [by injection B3 as ->|].
    by destruct (transparent_batch_spec _ _ _ _ _ _ _ _ B3) as [-> _]. }
  assert (forall db, fdb_contains_nullifier db pool n = true <-> n ∈ pool_set pool (nullifier_cf db)) as C.
  { intros d. unfold fdb_contains_nullifier. rewrite bool_decide_eq_true. by destruct pool. }
  rewrite C, E, nullifier_batches, <- C, Hn. unfold revealed. setoid_rewrite elem_of_app. setoid_rewrite list_elem_of_singleton.
  naive_solver.
Qed.

(** ** The tip and its trees *)

Lemma fdb_tip_spec db bs :
  blocks_repr (block_cf db) bs -> fdb_tip db = (fun b => (Z.of_nat (length bs) - 1, fb_hash b)) <$> last bs.
Proof.
  intros R. unfold fdb_tip. rewrite (br_hashes _ _ R). destruct bs as [|b bs _] using rev_ind; [done|].
  rewrite imap_app, length_app. cbn. rewrite !last_snoc. cbn. do 2 f_equal. lia.
Qed.
Lemma fdb_is_empty_spec db bs : blocks_repr (block_cf db) bs -> fdb_is_empty db = bool_decide (bs = []).
Proof. intros R. unfold fdb_is_empty. rewrite (br_hashes _ _ R). by destruct bs. Qed.
Lemma fdb_tip_height_spec db bs :
  blocks_repr (block_cf db) bs -> fdb_tip_height db = if bool_decide (bs = []) then None else Some (Z.of_nat (length bs) - 1).
Proof.
  intros R. unfold fdb_tip_height. rewrite (fdb_tip_spec db bs) by done.
  destruct bs as [|b bs _] using rev_ind; [done|]. rewrite last_snoc. rewrite bool_decide_eq_false_2; [done|].
  by destruct bs.
Qed.

Lemma tree_by_height_spec {T} `{!NoteTree T} db bs (cf : PoolCf T) ts h t :
  blocks_repr (block_cf db) bs -> pool_repr cf ts -> length ts = length bs -> lookupZ ts h = Some t ->
  exists t', tree_by_height db cf h = Ok (Some t') /\ tree_root t' = tree_root t.
Proof.
  intros R P Hlen Ht. pose proof (lookupZ_bounds _ _ _ Ht) as Hb. unfold tree_by_height.
  rewrite (fdb_tip_height_spec db bs) by done. rewrite bool_decide_eq_false_2 by (intros ->; cbn in *; lia).
  rewrite (proj2 (Z.ltb_ge _ _)) by lia. destruct (pr_tree _ _ P h t Ht) as (e & He & Hr).
  unfold stored_tree in He. rewrite He. by exists e.2.
Qed.

Lemma tree_for_tip_spec {T} `{!NoteTree T} `{!DefaultTree T} db bs (cf : PoolCf T) ts t tip :
  blocks_repr (block_cf db) bs -> pool_repr cf ts -> length ts = length bs ->
  fdb_tree_for_tip db cf = Ok t -> last ts = Some tip -> tree_root t = tree_root tip.
Proof.
  intros R P Hlen Ht Htip. unfold fdb_tree_for_tip in Ht. rewrite (fdb_tip_height_spec db bs) in Ht by done.
  rewrite last_lookup in Htip. pose proof (lookup_lt_Some _ _ _ Htip). rewrite bool_decide_eq_false_2 in Ht by (intros ->; cbn in *; lia).
  destruct (tree_by_height_spec db bs cf ts (Z.of_nat (length bs) - 1) tip) as (t' & E & Hr); [done..| |].
  - replace (Z.of_nat (length bs) - 1) with (Z.of_nat (pred (length ts))) by lia. by rewrite lookupZ_nat.
  - rewrite E in Ht. cbn in Ht. by injection Ht as <-.
Qed.

Lemma sprout_tree_for_tip_spec db bs ts t tip :
  blocks_repr (block_cf db) bs -> sprout_repr (sprout_cf db) ts -> length ts = length bs ->
  fdb_sprout_tree_for_tip db = Ok t -> last ts = Some tip -> tree_root t = tree_root tip.
Proof.
  intros R S Hlen Ht Htip. unfold fdb_sprout_tree_for_tip in Ht. rewrite (fdb_is_empty_spec db bs) in Ht by done.
  destruct (sr_tip _ _ S tip Htip) as (t' & E & Hr). rewrite bool_decide_eq_false_2 in Ht.
  - rewrite E in Ht. by injection Ht as <-.
  - intros ->. cbn in Hlen. apply nil_length_inv in Hlen as ->. done.
Qed.

Abbreviation sprout_of := (fun b => nct_sprout (treestate_trees (fb_treestate b))).
Abbreviation sapling_of := (fun b => nct_sapling (treestate_trees (fb_treestate b))).
Abbreviation orchard_of := (fun b => nct_orchard (treestate_trees (fb_treestate b))).

(** Trees that are those of the last block. *)
Definition trees_of_tip bs (t : trees) : Prop :=
  forall b, last bs = Some b ->
    tree_root (nct_sprout t) = tree_root (sprout_of b) /\ tree_root (nct_sapling t) = tree_root (sapling_of b)
    /\ tree_root (nct_orchard t) = tree_root (orchard_of b).
Definition prev_ok bs (prev : option trees) : Prop := forall t, prev = Some t -> trees_of_tip bs t.

Record trees_repr db bs : Prop := {
  tr_sprout : sprout_repr (sprout_cf db) (sprout_of <$> bs);
  tr_sapling : pool_repr (sapling_cf db) (sapling_of <$> bs);
  tr_orchard : pool_repr (orchard_cf db) (orchard_of <$> bs)
}.

Lemma trees_repr_snoc db batch bs b prev db2 :
  blocks_repr (block_cf db) bs -> trees_repr db bs -> prev_ok bs prev -> fb_height b = Z.of_nat (length bs) ->
  sprout_cf batch = sprout_cf db -> sapling_cf batch = sapling_cf db -> orchard_cf batch = orchard_cf db ->
  prepare_trees_batch db batch b prev = Ok db2 -> trees_repr db2 (bs ++ [b]).
Proof.
  intros R [S1 S2 S3] Hprev Hh F1 F2 F3. unfold prepare_trees_batch.
  intros (p1 & E1 & (p2 & E2 & (p3 & E3 & [= <-])%bind_Ok_inv)%bind_Ok_inv)%bind_Ok_inv.
  assert (forall b', last bs = Some b' -> tree_root p1 = tree_root (sprout_of b') /\ tree_root p2 = tree_root (sapling_of b')
            /\ tree_root p3 = tree_root (orchard_of b')) as Hp.
  { intros b' Hb'. destruct prev as [p|].
    - injection E1 as <-. injection E2 as <-. injection E3 as <-. by apply Hprev.
    - split_and!; [eapply sprout_tree_for_tip_spec|eapply (tree_for_tip_spec db bs)..]; eauto;
        by rewrite ?length_fmap, ?fmap_last, ?Hb'. }
  split; cbn [set_tree_cfs set_chain_cf sprout_cf sapling_cf orchard_cf]; rewrite fmap_app, ?F1, ?F2, ?F3, Hh;
    [rewrite <- (length_fmap sprout_of bs); apply sprout_repr_snoc
    |rewrite <- (length_fmap sapling_of bs); apply pool_repr_snoc
    |rewrite <- (length_fmap orchard_of bs); apply pool_repr_snoc]; try done;
    intros tip; rewrite fmap_last; intros (b' & Hb' & ->)%fmap_Some; by apply Hp.
Qed.

(** ** Value pools *)

(** The value pools after a list of blocks, from the outputs they spend. *)
Definition block_spent_outputs (utxos : gmap OutPoint OrderedUtxo) b : gmap OutPoint Utxo :=
  ordered_utxo <$> filter (fun e => e.1 ∈ block_spends b) (utxos ∪ fb_new_outputs b).
Definition replay_step (st : ValueBalance * gmap OutPoint OrderedUtxo) b
    : res ValueBalanceError (ValueBalance * gmap OutPoint OrderedUtxo) :=
  let '(pool, utxos) := st in
  change ← chain_value_pool_change (fb_block b) (block_spent_outputs utxos b) (fb_deferred_pool_balance_change b);
  pool ← add_chain_value_pool_change pool change;
  Ok (pool, utxo_step utxos b).
Definition replay bs : res ValueBalanceError (ValueBalance * gmap OutPoint OrderedUtxo) :=
  foldM replay_step (value_balance_zero, ∅) bs.

Lemma spent_outputs_eq db bs b spent :
  blocks_repr (block_cf db) bs -> outputs_repr db bs -> new_block bs b -> fb_height b = Z.of_nat (length bs) ->
  map_res (spent_utxo db b (block_indexes b)) (block_spends b) = Ok spent ->
  spends_by_outpoint spent = block_spent_outputs (utxo_set bs) b.
Proof.
  intros R O Hnb Hh Hsp. apply map_eq. intros op. rewrite (spends_by_outpoint_lookup db bs b) by done.
  unfold block_spent_outputs, spent_output_of. rewrite lookup_fmap, map_lookup_filter, lookup_union, (or_utxo _ _ O).
  case_bool_decide as Hop; destruct (utxo_set bs !! op), (fb_new_outputs b !! op); cbn; try done;
    first [by rewrite option_guard_True|by rewrite option_guard_False].
Qed.

Lemma value_pools_snoc db bs b prev network db' :
  blocks_repr (block_cf db) bs -> outputs_repr db bs -> new_block bs b -> fb_height b = Z.of_nat (length bs) ->
  replay bs = Ok (fdb_value_pool db, utxo_set bs) ->
  write_block db b prev network = Ok db' ->
  replay (bs ++ [b]) = Ok (fdb_value_pool db', utxo_set (bs ++ [b])).
Proof.
  intros R O Hnb Hh Hr (new & spent & bal & db1 & db2 & db3 & _ & Hsp & _ & _ & _ & B4)%write_block_inv.
  unfold replay in *. rewrite foldM_app, Hr. cbn [mbind res_bind foldM replay_step].
  rewrite <- (spent_outputs_eq db bs b spent) by done. unfold prepare_chain_value_pools_batch in B4.
  apply bind_Ok_inv in B4 as (change & -> & (pool & E & [= <-])%bind_Ok_inv). cbn [mbind res_bind]. rewrite E.
  cbn. by rewrite utxo_set_snoc.
Qed.

(** ** The database and the commits *)

Record db_repr db bs : Prop := {
  dr_blocks : blocks_repr (block_cf db) bs;
  dr_outputs : outputs_repr db bs;
  dr_nullifiers : forall pool n, fdb_contains_nullifier db pool n = true <-> revealed bs pool n;
  dr_trees : trees_repr db bs;
  dr_pools : replay bs = Ok (fdb_value_pool db, utxo_set bs)
}.

Lemma db_repr_empty network : db_repr (empty_db network) [].
Proof.
  split; [apply blocks_repr_empty|..].
  - split; cbn.
    + intros op. unfold fdb_utxo, output_location, fdb_transaction_location. cbn. by rewrite lookup_empty.
    + intros loc. rewrite lookup_empty. by intros [].
  - intros pool n. split; [by destruct pool|]. by intros (b & tx & ?%not_elem_of_nil & _).
  - split; [apply sprout_repr_empty|apply pool_repr_empty..].
  - done.
Qed.

(** All but the trees. *)
Record data_repr db bs : Prop := {
  da_blocks : blocks_repr (block_cf db) bs;
  da_outputs : outputs_repr db bs;
  da_nullifiers : forall pool n, fdb_contains_nullifier db pool n = true <-> revealed bs pool n;
  da_pools : replay bs = Ok (fdb_value_pool db, utxo_set bs)
}.
Lemma db_repr_data db bs : db_repr db bs <-> data_repr db bs /\ trees_repr db bs.
Proof. split; [intros [R O N T V]; by split; [split|]|intros [[R O N V] T]; by split]. Qed.

(** What is written next to the trees does not depend on the trees that the
    caller passes. *)
Lemma data_repr_write db bs b prev network db' :
  data_repr db bs -> new_block bs b -> fb_height b = Z.of_nat (length bs) ->
  write_block db b prev network = Ok db' -> data_repr db' (bs ++ [b]).
Proof.
  intros [R O N V] Hnb Hh Hw. destruct (outputs_repr_snoc db bs b prev network db' R O Hnb Hh Hw) as [R' O'].
  split; [done..| |by eapply value_pools_snoc]. intros pool n. by eapply nullifiers_snoc.
Qed.

Lemma db_repr_write db bs b prev network db' :
  db_repr db bs -> new_block bs b -> prev_ok bs prev -> fb_height b = Z.of_nat (length bs) ->
  write_block db b prev network = Ok db' -> db_repr db' (bs ++ [b]).
Proof.
  intros [D T]%db_repr_data Hnb Hprev Hh Hw. apply db_repr_data. split; [by eapply data_repr_write|]. destruct D as [R O N V].
  - apply write_block_inv in Hw as (new & spent & bal & db1 & db2 & db3 & _ & _ & B1 & B2 & B3 & B4).
    destruct (blocks_repr_snoc db db1 bs b R Hnb Hh B1) as [F1 _].
    assert (trees_repr db2 (bs ++ [b])) as T2.
    { eapply (trees_repr_snoc db (prepare_shielded_transaction_batch db1 b) bs b prev); try done; by rewrite F1. }
    assert (sprout_cf db' = sprout_cf db2 /\ sapling_cf db' = sapling_cf db2 /\ orchard_cf db' = orchard_cf db2) as (E1 & E2 & E3).
    { rewrite (value_pools_batch_frame _ _ _ _ _ B4). cbn. destruct (height_is_min _); [by injection B3 as <-|].
      by destruct (transparent_batch_spec _ _ _ _ _ _ _ _ B3) as [-> _]. }
    destruct T2 as [T1 T2 T3]. split; by rewrite ?E1, ?E2, ?E3.
Qed.

(** The block follows the tip. *)
Definition follows bs b : Prop :=
  fb_height b = Z.of_nat (length bs)
  /\ previous_block_hash (block_header (fb_block b)) = default GENESIS_PREVIOUS_BLOCK_HASH (fb_hash <$> last bs).

Lemma assert_follows_tip_spec db bs b :
  blocks_repr (block_cf db) bs -> Z.of_nat (length bs) <= Height_MAX + 1 ->
  assert_follows_tip db b = Ok tt <-> follows bs b /\ Z.of_nat (length bs) <= Height_MAX.
Proof.
  intros R Hmax. unfold assert_follows_tip, follows. rewrite (fdb_is_empty_spec db bs), (fdb_tip_height_spec db bs) by done.
  assert (fdb_tip_hash db = default GENESIS_PREVIOUS_BLOCK_HASH (fb_hash <$> last bs)) as ->.
  { unfold fdb_tip_hash. rewrite (fdb_tip_spec db bs) by done. by destruct (last bs). }
  destruct (bool_decide_reflect (bs = [])) as [->|Hne]; cbn [unwrap mbind res_bind].
  - cbn [last fmap option_fmap option_map default from_option length]. rewrite Height_MAX_value.
    case_bool_decide as Hp; cbn [assert_ mbind res_bind]; [|split; [done|]; intros [[_ Hp'] _]; congruence].
    destruct (Z.eqb_spec 0 (fb_height b)) as [Hz|Hz]; cbn [assert_].
    + split; [|done]. intros _. split; [split; [lia|congruence]|lia].
    + split; [done|]. intros [[? _] _]. lia.
  - assert (0 < Z.of_nat (length bs)) by (destruct bs; [done|cbn; lia]). pose proof Height_MAX_value as HM.
    rewrite height_add_diff_spec by width_lia. replace (Z.of_nat (length bs) - 1 + 1) with (Z.of_nat (length bs)) by lia.
    destruct (in_range _ _ _) eqn:Er; cbn [mbind res_bind]; cycle 1.
    { rewrite (bool_decide_eq_false_2 (None = _)) by done. split; [done|]. intros [_ Hle]. exfalso.
      rewrite (proj2 (in_range_spec _ _ _)) in Er; [done|]. unfold Height_MIN. lia. }
    apply in_range_spec in Er as [_ Er].
    destruct (bool_decide_reflect (Some (Z.of_nat (length bs)) = Some (fb_height b))) as [Hh|Hh]; cbn [assert_ mbind res_bind];
      [|split; [done|]; intros [[Hh' _] _]; congruence].
    case_bool_decide as Hp; cbn [assert_]; [|split; [done|]; intros [[_ Hp'] _]; congruence].
    split; [|done]. intros _. split; [|done]. split; [congruence|done].
Qed.

(** The databases made by commits of new blocks, with the blocks committed. A
    caller may pass trees, of which [passed] holds. *)
Inductive committed_with (passed : list finalized_block -> option trees -> Prop) : finalized_db -> list finalized_block -> Prop :=
| committed_empty network : committed_with passed (empty_db network) []
| committed_block db bs finalizable prev b prev' hash ts db' :
    committed_with passed db bs -> passed bs prev -> to_finalized db finalizable prev = Ok (b, prev') -> new_block bs b ->
    commit_finalized_direct db finalizable prev = Ok (hash, ts, db') -> committed_with passed db' (bs ++ [b]).
#[global] Arguments committed_empty {_} _.
#[global] Arguments committed_block {_} _ _ _ _ _ _ _ _ _ _ _ _ _ _.

(** Whatever trees are passed. *)
Definition commits : finalized_db -> list finalized_block -> Prop := committed_with (fun _ _ => True).
(** With the trees of the tip, or none. *)
Definition committed : finalized_db -> list finalized_block -> Prop := committed_with prev_ok.
Lemma committed_commits db bs : committed db bs -> commits db bs.
Proof. induction 1; [constructor|]. by eapply committed_block. Qed.

Lemma tip_trees_ok db bs t : db_repr db bs -> note_commitment_trees_for_tip db = Ok t -> trees_of_tip bs t.
Proof.
  intros [R _ _ [S1 S2 S3] _]. unfold note_commitment_trees_for_tip.
  intros (t1 & E1 & (t2 & E2 & (t3 & E3 & [= <-])%bind_Ok_inv)%bind_Ok_inv)%bind_Ok_inv b Hb.
  split_and!; [eapply sprout_tree_for_tip_spec|eapply (tree_for_tip_spec db bs)..]; eauto;
    by rewrite ?length_fmap, ?fmap_last, ?Hb.
Qed.
Lemma to_finalized_prev db bs finalizable prev b prev' :
  db_repr db bs -> prev_ok bs prev -> to_finalized db finalizable prev = Ok (b, prev') -> prev_ok bs prev'.
Proof.
  intros D Hprev. destruct finalizable as [sv|cv ts]; cbn [to_finalized]; [|by intros [= _ <-]].
  intros (p & Hp & (ts & _ & [= _ <-])%bind_Ok_inv)%bind_Ok_inv t [= <-].
  destruct prev as [q|]; [injection Hp as <-; by apply Hprev|]. apply lift_Ok in Hp. by eapply tip_trees_ok.
Qed.

Lemma commit_repr db bs finalizable prev b prev' :
  blocks_repr (block_cf db) bs -> Z.of_nat (length bs) <= Height_MAX + 1 -> to_finalized db finalizable prev = Ok (b, prev') ->
  (forall hash ts db', commit_finalized_direct db finalizable prev = Ok (hash, ts, db') ->
     follows bs b /\ Z.of_nat (length bs) <= Height_MAX /\ hash = fb_hash b /\ ts = treestate_trees (fb_treestate b)
     /\ write_block db b prev' (fdb_network db) = Ok db')
  /\ (~ follows bs b -> commit_finalized_direct db finalizable prev = Panic).
Proof.
  intros D Hlen Hf. unfold commit_finalized_direct. rewrite Hf. cbn [mbind res_bind].
  pose proof (assert_follows_tip_spec db bs b D Hlen) as Ha. split.
  - intros hash ts db' ([] & Hok%lift_Ok & (d & Hd & [= <- <- <-])%bind_Ok_inv)%bind_Ok_inv.
    apply Ha in Hok as [Hfo Hmax]. done.
  - intros Hnf. destruct (assert_follows_tip db b) as [[]|[]|]; [|done]. by destruct Hnf, Ha as [[? _] _].
Qed.

Lemma commits_repr db bs : commits db bs -> data_repr db bs /\ Z.of_nat (length bs) <= Height_MAX + 1.
Proof.
  induction 1 as [network|db bs f prev b prev' hash ts db' _ [IH Hlen] _ Hf Hnb Hc].
  { split; [by apply (proj1 (db_repr_data _ _) (db_repr_empty network))|]. rewrite Height_MAX_value. cbn. lia. }
  destruct (commit_repr db bs f prev b prev' (da_blocks _ _ IH) Hlen Hf) as [Hok _].
  destruct (Hok _ _ _ Hc) as ([Hh _] & Hmax & _ & _ & Hw). split; [|rewrite length_app; cbn; lia].
  by apply (data_repr_write db bs b prev' (fdb_network db) db').
Qed.
Lemma committed_repr db bs : committed db bs -> db_repr db bs /\ Z.of_nat (length bs) <= Height_MAX + 1.
Proof.
  induction 1 as [network|db bs f prev b prev' hash ts db' _ [IH Hlen] Hprev Hf Hnb Hc].
  { split; [apply db_repr_empty|]. rewrite Height_MAX_value. cbn. lia. }
  destruct (commit_repr db bs f prev b prev' (dr_blocks _ _ IH) Hlen Hf) as [Hok _].
  destruct (Hok _ _ _ Hc) as ([Hh _] & Hmax & _ & _ & Hw). split; [|rewrite length_app; cbn; lia].
  apply (db_repr_write db bs b prev' (fdb_network db) db'); try done. by eapply to_finalized_prev.
Qed.

(** Each block has the hash of the previous block. *)
Lemma commits_linked db bs :
  commits db bs ->
  forall i b, bs !! i = Some b -> previous_block_hash (block_header (fb_block b))
    = default GENESIS_PREVIOUS_BLOCK_HASH (fb_hash <$> last (take i bs)).
Proof.
  induction 1 as [network|db bs f prev b prev' hash ts db' Hcm IH Hprev Hf Hnb Hc]; intros i b' Hi; [done|].
  apply lookup_snoc_Some in Hi as [[Hlt Hi]|[-> <-]].
  - rewrite take_app_le by lia. by apply IH.
  - rewrite take_app_length. destruct (commits_repr _ _ Hcm) as [[D _ _ _] Hlen].
    destruct (commit_repr db bs f prev b prev' D Hlen Hf) as [Hok _]. by destruct (Hok _ _ _ Hc) as ([_ Hp] & _).
Qed.

(** ** Reads *)

Lemma transactions_by_height_spec db bs h b :
  blocks_repr (block_cf db) bs -> lookupZ bs h = Some b -> (transactions_by_height db h).*2 = transactions (fb_block b).
Proof.
  intros R Hb. unfold transactions_by_height. rewrite omap_pair_snd.
  assert (b ∈ bs) as Hin by (apply lookupZ_Some in Hb as (i & _ & Hi); by eapply list_elem_of_lookup_2).
  rewrite <- (omap_lookupZ (transactions (fb_block b)) (u16_MAX + 1) 0) by apply (br_size _ _ R b Hin).
  apply omap_pointwise. intros i _. rewrite (br_tx _ _ R). unfold tx_at. cbn. rewrite Hb. cbn. by rewrite Z.sub_0_r.
Qed.

Lemma fdb_block_spec db bs h : blocks_repr (block_cf db) bs -> fdb_block db (Height h) = fb_block <$> lookupZ bs h.
Proof.
  intros R. unfold fdb_block, fdb_block_header. cbn. rewrite (br_header _ _ R).
  destruct (lookupZ bs h) as [b|] eqn:Eb; [|done]. cbn. rewrite (transactions_by_height_spec db bs h b) by done.
  by destruct (fb_block b).
Qed.

Lemma fdb_transaction_spec db bs h b (i : nat) tx hash :
  blocks_repr (block_cf db) bs -> lookupZ bs h = Some b -> transactions (fb_block b) !! i = Some tx ->
  fb_transaction_hashes b !! i = Some hash ->
  fdb_transaction db hash = Some (tx, h, time (block_header (fb_block b))).
Proof.
  intros R Hb Htx Hhash. unfold fdb_transaction, fdb_transaction_location, fdb_block_header.
  rewrite (proj2 (br_tx_loc _ _ R hash (mkTransactionLocation h (Z.of_nat i)))).
  - cbn. rewrite (br_tx _ _ R), (br_header _ _ R). unfold tx_at. cbn. rewrite Hb. cbn. by rewrite lookupZ_nat, Htx.
  - unfold hash_at. cbn. rewrite Hb. cbn. by rewrite lookupZ_nat.
Qed.

(** C33. Whatever sequence of blocks is committed, with whatever trees passed by
    the caller, the database reads back the blocks. Each block is new
    ([new_block]): its hash and the ids of its transactions are distinct from those
    before, there is one id for each transaction, and its new outputs are outputs
    of its transactions. Then the tip is the last one, a block is found by its
    height and by its hash, and no other height has a block, a transaction is found
    by its hash with its height and time, and each block names the previous one. *)
Theorem finalized_blocks_roundtrip db bs :
  commits db bs ->
  fdb_tip db = (fun b => (Z.of_nat (length bs) - 1, fb_hash b)) <$> last bs
  /\ (forall h, fdb_block db (Height h) = fb_block <$> lookupZ bs h)
  /\ (forall h b, lookupZ bs h = Some b -> fb_height b = h /\ fdb_block db (Hash (fb_hash b)) = Some (fb_block b))
  /\ (forall h b (i : nat) tx hash, lookupZ bs h = Some b -> transactions (fb_block b) !! i = Some tx ->
        fb_transaction_hashes b !! i = Some hash ->
        fdb_transaction db hash = Some (tx, h, time (block_header (fb_block b))))
  /\ (forall (i : nat) b, bs !! i = Some b -> previous_block_hash (block_header (fb_block b))
        = default GENESIS_PREVIOUS_BLOCK_HASH (fb_hash <$> last (take i bs))).
Proof.
  intros Hc. destruct (commits_repr db bs Hc) as [[R _ _ _] _]. split_and!.
  - by apply fdb_tip_spec.
  - intros h. by apply fdb_block_spec.
  - intros h b Hb. split; [by apply (br_heights _ _ R)|].
    change (fdb_block db (Hash (fb_hash b))) with (fdb_height db (fb_hash b) ≫= fun h => fdb_block db (Height h)).
    unfold fdb_height. rewrite (proj2 (br_height _ _ R (fb_hash b) h)) by (by exists b). cbn [mbind option_bind].
    by rewrite (fdb_block_spec db bs), Hb.
  - intros h b i tx hash. by apply fdb_transaction_spec.
  - by eapply commits_linked.
Qed.

(** C8. The finalized state is the replay of the committed blocks. Take any
    sequence of commits of new blocks: the hash of each block and the ids of its
    transactions are distinct from those before, there is one id for each
    transaction, and its new outputs are outputs of its transactions
    ([new_block]). Then the unspent outputs are those created and not spent,
    without the genesis block's; the revealed nullifiers are those of the blocks;
    and the value pools are those of the replay, whatever trees the callers pass.
    If every caller passes the trees of the tip or none ([committed]), the anchors
    are those of the blocks and a tree is found for every height up to the tip,
    although trees are stored only when they change. The write task does not do
    that any more after a Crosslink finality message
    ([WriteBlock.crosslink_leaves_stale_trees]). *)
Theorem finalized_state_is_replay db bs :
  commits db bs ->
  (forall op, fdb_utxo db op = utxo_set bs !! op)
  /\ (forall pool n, fdb_contains_nullifier db pool n = true <-> revealed bs pool n)
  /\ replay bs = Ok (fdb_value_pool db, utxo_set bs)
  /\ (committed db bs -> (forall h b, lookupZ bs h = Some b ->
        (exists t, tree_by_height db (sapling_cf db) h = Ok (Some t) /\ tree_root t = tree_root (sapling_of b))
        /\ (exists t, tree_by_height db (orchard_cf db) h = Ok (Some t) /\ tree_root t = tree_root (orchard_of b)))
  /\ (forall a, fdb_contains_anchor (sapling_cf db) a = true <-> exists b, b ∈ bs /\ a = tree_root (sapling_of b))
  /\ (forall a, fdb_contains_anchor (orchard_cf db) a = true <-> exists b, b ∈ bs /\ a = tree_root (orchard_of b))
  /\ (forall a, is_Some (fdb_sprout_tree_by_anchor db a) <-> exists b, b ∈ bs /\ a = tree_root (sprout_of b))).
Proof.
  intros Hc. destruct (commits_repr db bs Hc) as [[_ O N V] _]. split_and!; [apply O|done|done|]. clear Hc O N V.
  intros Hc. destruct (committed_repr db bs Hc) as [[R _ _ [S1 S2 S3] _] _]. split_and!.
  - intros h b Hb. split; eapply tree_by_height_spec; try done; by rewrite ?length_fmap, ?lookupZ_fmap, ?Hb.
  - intros a. unfold fdb_contains_anchor. rewrite bool_decide_eq_true, (pr_anchors _ _ S2).
    setoid_rewrite list_elem_of_fmap. naive_solver.
  - intros a. unfold fdb_contains_anchor. rewrite bool_decide_eq_true, (pr_anchors _ _ S3).
    setoid_rewrite list_elem_of_fmap. naive_solver.
  - intros a. unfold fdb_sprout_tree_by_anchor. rewrite (sr_anchors _ _ S1). setoid_rewrite list_elem_of_fmap. naive_solver.
Qed.

(** Blocks are committed in chain order or not at all: a commit that
    succeeds committed the child of the tip at the next height and returns its
    hash and its trees, and any other block panics before the database is
    written. *)
Theorem finalized_commit_order db bs finalizable prev b prev' :
  commits db bs -> to_finalized db finalizable prev = Ok (b, prev') ->
  (forall hash ts db', commit_finalized_direct db finalizable prev = Ok (hash, ts, db') ->
     follows bs b /\ hash = fb_hash b /\ ts = treestate_trees (fb_treestate b))
  /\ (~ follows bs b -> commit_finalized_direct db finalizable prev = Panic).
Proof.
  intros Hc Hf. destruct (commits_repr db bs Hc) as [[D _ _ _] Hlen].
  destruct (commit_repr db bs finalizable prev b prev' D Hlen Hf) as [Hok Hbad]. split; [|done].
  intros hash ts db' H'. destruct (Hok _ _ _ H') as (? & _ & ? & ? & _). done.
Qed.
End Repr.

(** * Three blocks *)

Module FinExample.
#[local] Existing Instance Example.tree.
#[local] Existing Instance Example.subtree.
#[local] Existing Instance Example.history.
#[local] Existing Instance Example.context.
#[local] Existing Instance release_build.
Import Example.
#[local] Instance empty_tree : DefaultTree bytes := [].
#[local] Instance stored_history : StoredHistory nat := {| history_default := 0%nat; history_is_stored h := (0 <? h)%nat |}.
#[local] Instance history_root : HistoryTreeHash nat := fun _ => None.
#[local] Instance commitments : CommitmentOps :=
  {| sapling_root_canonical _ := true; block_header_hash _ := []; auth_data_root _ := []; from_commitments _ _ := [] |}.
Abbreviation db := (@FinalizedDb bytes bytes bytes nat).
Abbreviation finalizable := (@FinalizableBlock bytes bytes bytes nat).

Definition header_after (parent : bytes) : Header :=
  mkHeader 4 parent (zero_bytes 32) (zero_bytes 32) 1477641360 0x1f07ffff (zero_bytes 32)
    Solution_for_proposal FatPointerToBftBlock_null.
Definition payment (from : OutPoint) : Transaction :=
  V4 [PrevOut from [] 0] [mkOutput 3 [Byte.x2b]] (LockHeight 0) 0 None None.

(** A block with the given transactions, hashes and outputs, and the sapling tree after it. *)
Definition fin_block (height : Z) (parent hash : bytes) (txs : list Transaction) (hashes : list bytes)
    (outputs : gmap OutPoint OrderedUtxo) (sapling : bytes) : finalizable :=
  Contextual
    (mkContextuallyVerifiedBlock (mkBlock (header_after parent) txs) hash height outputs ∅ hashes (from_transparent_amount 0))
    (mkTreestate (mkNoteCommitmentTrees [] sapling None [] None) (Z.to_nat height)).

Definition miner_output (height : Z) : OrderedUtxo := OrderedUtxo_new (mkOutput 5 [Byte.x2a]) height 0.
Definition genesis : finalizable :=
  fin_block 0 (zero_bytes 32) [Byte.xb0] [coinbase 0 []] [[Byte.xc0]] {[ mkOutPoint [Byte.xc0] 0 := miner_output 0 ]} [].
Definition first : finalizable :=
  fin_block 1 [Byte.xb0] [Byte.xb1] [coinbase 1 []] [[Byte.xc1]] {[ mkOutPoint [Byte.xc1] 0 := miner_output 1 ]}
    [Byte.xa1].
Definition second : finalizable :=
  fin_block 2 [Byte.xb1] [Byte.xb2] [coinbase 2 []; payment (mkOutPoint [Byte.xc1] 0)] [[Byte.xc2]; [Byte.xc3]]
    (<[mkOutPoint [Byte.xc3] 0 := OrderedUtxo_new (mkOutput 3 [Byte.x2b]) 2 1]>
       {[ mkOutPoint [Byte.xc2] 0 := miner_output 2 ]}) [Byte.xa1].

Definition commit (d : db) (f : finalizable) : db :=
  match commit_finalized_direct d f None with Ok (_, _, d') => d' | _ => d end.
Definition block_of (f : finalizable) : @FinalizedBlock bytes bytes bytes nat :=
  match f with
  | Contextual b ts => from_contextually_verified b ts
  | Checkpoint b => from_semantically_verified b (mkTreestate (mkNoteCommitmentTrees [] [] None [] None) 0%nat)
  end.
Definition db0 : db := empty_db Mainnet.
Definition db1 : db := commit db0 genesis.
Definition db2 : db := commit db1 first.
Definition db3 : db := commit db2 second.

Lemma commit_step d bs f :
  committed d bs -> match f with Contextual _ _ => True | Checkpoint _ => False end -> new_block bs (block_of f) ->
  is_ok (commit_finalized_direct d f None) = true -> committed (commit d f) (bs ++ [block_of f]).
Proof.
  intros Hc Hf Hnb Hok. destruct (get_third d _ Hok) as (hash & ts & E).
  eapply (committed_block d bs f None _ None hash ts); [done|done| |done|exact E]. by destruct f.
Qed.

(** [new_block], decided. *)
Definition located (b : @FinalizedBlock bytes bytes bytes nat) (op : OutPoint) (u : OrderedUtxo) : bool :=
  bool_decide (fb_transaction_hashes b !! Z.to_nat (tx_index_in_block u) = Some (outpoint_hash op))
  && (0 <=? tx_index_in_block u) && (utxo_height (ordered_utxo u) =? fb_height b)
  && Bool.eqb (from_coinbase (ordered_utxo u)) (tx_index_in_block u =? 0).
Definition is_new (bs : list (@FinalizedBlock bytes bytes bytes nat)) (b : @FinalizedBlock bytes bytes bytes nat) : bool :=
  bool_decide (length (fb_transaction_hashes b) = length (transactions (fb_block b)))
  && bool_decide (NoDup (fb_transaction_hashes b))
  && forallb (fun b' => forallb (fun h => bool_decide (h ∉ fb_transaction_hashes b')) (fb_transaction_hashes b)
                        && negb (bool_decide (fb_hash b' = fb_hash b))) bs
  && forallb (fun e => located b e.1 e.2) (map_to_list (fb_new_outputs b)).
Lemma is_new_sound bs b : is_new bs b = true -> new_block bs b.
Proof.
  unfold is_new. intros [[[H1 H2]%andb_true_iff H3]%andb_true_iff H4]%andb_true_iff.
  apply bool_decide_eq_true in H1, H2. rewrite forallb_forall in H3, H4. split; [done..| | |].
  - intros b' hash Hb' Hh. apply list_elem_of_In, H3, andb_true_iff in Hb' as [Hb' _]. rewrite forallb_forall in Hb'.
    by apply list_elem_of_In, Hb', bool_decide_eq_true in Hh.
  - intros b' Hb'. apply list_elem_of_In, H3, andb_true_iff in Hb' as [_ Hb']. by apply negb_true_iff, bool_decide_eq_false in Hb'.
  - intros op u Hu%elem_of_map_to_list%list_elem_of_In%H4. cbn in Hu. unfold located in Hu. bool_to_prop.
    exists (Z.to_nat (tx_index_in_block u)), (utxo_output (ordered_utxo u)).
    destruct u as [[o h c] i]; cbn in *. unfold OrderedUtxo_new. split; [done|]. rewrite Z2Nat.id by done.
    match goal with Hc : Bool.eqb _ _ = true |- _ => apply Bool.eqb_prop in Hc as -> end. congruence.
Qed.

Lemma committed2 : committed db2 [block_of genesis; block_of first].
Proof.
  apply (commit_step db1 [block_of genesis] first); [|done|by apply is_new_sound; vm_compute|vm_compute; reflexivity].
  apply (commit_step db0 [] genesis); [constructor|done|by apply is_new_sound; vm_compute|vm_compute; reflexivity].
Qed.
Lemma committed3 : committed db3 [block_of genesis; block_of first; block_of second].
Proof.
  apply (commit_step db2 [block_of genesis; block_of first] second);
    [apply committed2|done|by apply is_new_sound; vm_compute|vm_compute; reflexivity].
Qed.

Lemma finalized_blocks_roundtrip_witness :
  fdb_tip db3 = Some (2, [Byte.xb2])
  /\ fdb_block db3 (Hash [Byte.xb1]) = Some (mkBlock (header_after [Byte.xb0]) [coinbase 1 []]).
Proof.
  destruct (finalized_blocks_roundtrip _ _ (committed_commits _ _ committed3)) as (Ht & _ & Hb & _). split; [exact Ht|].
  apply (Hb 1 (block_of first)). reflexivity.
Defined.

(** The output of [first] is spent by [second], whose outputs are unspent, and
    the Sapling tree of the tip is found. *)
Lemma finalized_state_is_replay_witness :
  fdb_utxo db3 (mkOutPoint [Byte.xc1] 0) = None
  /\ fdb_utxo db3 (mkOutPoint [Byte.xc3] 0) = Some (OrderedUtxo_new (mkOutput 3 [Byte.x2b]) 2 1)
  /\ exists t, tree_by_height db3 (sapling_cf db3) 2 = Ok (Some t).
Proof.
  destruct (finalized_state_is_replay _ _ (committed_commits _ _ committed3)) as (Hu & _ & _ & Ht). rewrite !Hu.
  split; [vm_compute; reflexivity|]. split; [vm_compute; reflexivity|].
  destruct (Ht committed3) as (Htree & _). destruct (Htree 2 (block_of second)) as [(t & Et & _) _]; [reflexivity|]. by exists t.
Defined.

(** Committing [second] on the genesis block panics. *)
Lemma finalized_commit_order_witness : commit_finalized_direct db1 second None = Panic.
Proof.
  apply (finalized_commit_order db1 [block_of genesis] second None (block_of second) None).
  - apply committed_commits, (commit_step db0 [] genesis); [constructor|done|by apply is_new_sound; vm_compute|vm_compute; reflexivity].
  - reflexivity.
  - intros [Hh _]. discriminate Hh.
Defined.
End FinExample.
