(* ===== verification/NonFinalizedState.v ===== *)
(** The non-finalized state
    ([zebra-state/src/service/non_finalized_state.rs]). The block write task that
    changes it is in [WriteBlock.v].

    The chain set is a list in ascending order of work. It holds at most
    eleven chains, which is one node of a [BTreeSet]: a search compares with
    the elements in ascending order. *)
From S2P Require Import Prelude BTreeMap Height Amount ValueBalance Difficulty NetworkUpgrade BlockHeader Transaction BlockCommitment TransparentIndex ChainIndexes Chain ChainRepr ContextChecks.
From coqutil Require Import Byte.
From stdpp Require Import strings gmap gmultiset sorting prelude.
From Stdlib Require Import ZArith Lia.
#[local] Open Scope Z_scope.

Definition MAX_NON_FINALIZED_CHAIN_FORKS : nat := 10.
Definition MAX_INVALIDATED_BLOCKS : nat := 100.
Definition MAX_BLOCK_REORG_HEIGHT : Z := MIN_TRANSPARENT_COINBASE_MATURITY - 1.

Inductive ReconsiderError : Type :=
| MissingInvalidatedBlock (block_hash : bytes)
| ParentChainNotFound (block_hash : bytes)
| InvalidatedBlocksEmpty
| ValidationError (error : ValidateContextError).

(** [find] and [find_map] with a predicate that may panic. *)
Fixpoint findM {E A} (p : A -> res E bool) (l : list A) : res E (option A) :=
  match l with
  | [] => Ok None
  | a :: l' => found ← p a; if (found : bool) then Ok (Some a) else findM p l'
  end.
Fixpoint find_mapM {E A B} (f : A -> res E (option B)) (l : list A) : res E (option B) :=
  match l with
  | [] => Ok None
  | a :: l' => found ← f a; match found with Some b => Ok (Some b) | None => find_mapM f l' end
  end.
(** [retain]. *)
Fixpoint retainM {E A} (p : A -> res E bool) (l : list A) : res E (list A) :=
  match l with
  | [] => Ok []
  | a :: l' => keep ← p a; l'' ← retainM p l'; Ok (if (keep : bool) then a :: l'' else l'')
  end.

Section NonFinalizedState.
Context {SproutT SaplingT OrchardT HistoryT : Type}
  `{!NoteTree SproutT} `{!NoteTree SaplingT} `{!SubtreeTree SaplingT} `{!NoteTree OrchardT} `{!SubtreeTree OrchardT}
  `{!HistoryTreeOps HistoryT} `{!HistoryTreeHash HistoryT} `{!ChainContext} `{!CommitmentOps} `{BuildProfile}.
Abbreviation chain := (Chain SproutT SaplingT OrchardT HistoryT).
Abbreviation zebra_db := (ZebraDb SproutT SaplingT OrchardT HistoryT).
Abbreviation tree_state := (Treestate SproutT SaplingT OrchardT HistoryT).

(** ** The ordered set of chains *)

Fixpoint set_insert (c : chain) (l : list chain) : outcome (list chain) :=
  match l with
  | [] => Ok [c]
  | x :: l' =>
      order ← chain_cmp c x;
      match order with
      | Lt => Ok (c :: l)
      | Eq => Ok l
      | Gt => l'' ← set_insert c l'; Ok (x :: l'')
      end
  end.
Fixpoint set_remove (c : chain) (l : list chain) : outcome (list chain) :=
  match l with
  | [] => Ok []
  | x :: l' =>
      order ← chain_cmp c x;
      match order with
      | Lt => Ok l
      | Eq => Ok l'
      | Gt => l'' ← set_remove c l'; Ok (x :: l'')
      end
  end.

Record NonFinalizedState := mkNonFinalizedState {
  chain_set : list chain;
  invalidated_blocks : list (Z * list ContextuallyVerifiedBlock);
  nfs_network : Network;
  should_count_metrics : bool
}.
Implicit Types (s : NonFinalizedState) (db : zebra_db).

Definition NonFinalizedState_new (network : Network) : NonFinalizedState := mkNonFinalizedState [] [] network true.
Definition with_chain_set s (l : list chain) : NonFinalizedState :=
  mkNonFinalizedState l (invalidated_blocks s) (nfs_network s) (should_count_metrics s).
Definition with_invalidated s m : NonFinalizedState :=
  mkNonFinalizedState (chain_set s) m (nfs_network s) (should_count_metrics s).

Definition chain_iter s : list chain := reverse (chain_set s).

(** [pop_first] while there are more chains than the limit. *)
Definition limit_chains (l : list chain) : list chain := drop (length l - MAX_NON_FINALIZED_CHAIN_FORKS) l.

Definition insert_with s (c : chain) (chain_filter : list chain -> outcome (list chain)) : outcome NonFinalizedState :=
  l ← set_insert c (chain_set s);
  l ← chain_filter l;
  Ok (with_chain_set s (limit_chains l)).
Definition nfs_insert s (c : chain) : outcome NonFinalizedState := insert_with s c Ok.

(** ** Reading *)

Definition best_chain s : option chain := head (chain_iter s).
Definition chain_count s : nat := length (chain_set s).
Definition best_chain_len s : option Z := (fun c => as_unsigned 32 (Z.of_nat (chain_len (inner c)))) <$> best_chain s.
Definition root_height s : outcome (option Z) :=
  match best_chain s with None => Ok None | Some c => Some <$> non_finalized_root_height (inner c) end.
Definition any_chain_contains s (hash : bytes) : bool :=
  existsb (fun c => contains_block_hash (inner c) hash) (chain_iter s).
Definition find_chain s (p : chain -> outcome bool) : outcome (option chain) := findM p (chain_iter s).
Definition any_utxo s (outpoint : OutPoint) : option Utxo :=
  head (omap (fun c => created_utxo (inner c) outpoint) (chain_iter s)).
Definition any_block_by_hash s (hash : bytes) : option Block :=
  cv_block <$> head (omap (fun c => height ← height_by_hash (inner c) !! hash; bt_get height (blocks (inner c))) (chain_iter s)).
Definition any_prev_block_hash_for_hash s (hash : bytes) : option bytes :=
  (fun b => previous_block_hash (block_header b)) <$> any_block_by_hash s hash.
Definition best_hash s (height : Z) : option bytes :=
  c ← best_chain s; cv_hash <$> bt_get height (blocks (inner c)).
Definition best_tip s : outcome (option (Z * bytes)) :=
  match best_chain s with
  | None => Ok None
  | Some c => height ← non_finalized_tip_height (inner c); hash ← non_finalized_tip_hash (inner c); Ok (Some (height, hash))
  end.
Definition best_tip_block s : option ContextuallyVerifiedBlock := c ← best_chain s; tip_block (inner c).
Definition best_height_by_hash s (hash : bytes) : option Z := c ← best_chain s; height_by_hash (inner c) !! hash.
Definition any_height_by_hash s (hash : bytes) : option Z :=
  head (omap (fun c => height_by_hash (inner c) !! hash) (chain_iter s)).

(** After a block is committed, the metrics read the tip of the best chain. *)
Definition update_metrics_for_committed_block s : outcome unit :=
  if should_count_metrics s then
    best ← unwrap (best_chain s);
    _ ← non_finalized_tip_hash (inner best); Ok tt
  else Ok tt.

(** ** Finalizing *)

(** [Arc::make_mut] gives each chain its own copy. *)
Definition finalize_side_chain (root_hash : bytes) s (side : chain) : outcome NonFinalizedState :=
  side_root ← non_finalized_root_hash (inner side);
  if negb (bool_decide (side_root = root_hash)) then Ok s
  else
    '(side_chain_root, _, side) ← pop_root side;
    _ ← assert_ (bool_decide (cv_hash side_chain_root = root_hash));
    nfs_insert s side.

Definition finalize s : outcome (ContextuallyVerifiedBlock * tree_state * NonFinalizedState) :=
  match chain_iter s with
  | [] => Panic
  | best :: side_chains =>
      '(root, treestate, best) ← pop_root best;
      let s0 := with_chain_set s [] in
      s1 ← (if chain_is_empty (inner best) then Ok s0 else nfs_insert s0 best);
      s2 ← foldM (finalize_side_chain (cv_hash root)) s1 side_chains;
      Ok (root, treestate,
          with_invalidated s2 (filter (fun e => cv_height root <= e.1) (invalidated_blocks s2)))
  end.

Definition remove_chains_invalidated_by_crosslink_finalized s (hash : bytes) : outcome NonFinalizedState :=
  l ← foldM (fun l c =>
        if contains_block_hash (inner c) hash then Ok l
        else _ ← non_finalized_root_height (inner c); set_remove c l) (chain_set s) (chain_iter s);
  Ok (with_chain_set s l).

Definition crosslink_finalize s (hash : bytes) : outcome (option (list ContextuallyVerifiedBlock) * NonFinalizedState) :=
  found ← find_chain s (fun c => Ok (bool_decide (is_Some (height_by_hash (inner c) !! hash))));
  match found with
  | None => Ok (None, s)
  | Some c =>
      height ← unwrap (height_by_hash (inner c) !! hash);
      Ok (Some (snd <$> filter (fun e => e.1 <= height) (blocks (inner c))),
          with_chain_set s (filter (fun c => contains_block_hash (inner c) hash = true) (chain_set s)))
  end.

(** ** Committing *)

Definition parent_chain s (parent_hash : bytes) : res ValidateContextError chain :=
  found ← lift (find_chain s (fun c => tip ← non_finalized_tip_hash (inner c); Ok (bool_decide (tip = parent_hash))));
  match found with
  | Some c => Ok c
  | None =>
      forked ← lift (find_mapM (fun c => fork c parent_hash) (chain_iter s));
      ok_or forked NotReadyToBeCommitted
  end.

(** The three results are computed in parallel: a panic of any is a panic,
    then the errors are returned in this order. *)
Definition validate_and_update_parallel (new_chain : chain) (contextual : ContextuallyVerifiedBlock)
    (sprout_final_treestates : gmap bytes SproutT) : res ValidateContextError chain :=
  history_tree ← lift (history_block_commitment_tree (inner new_chain));
  let block_commitment_result :=
    block_commitment_is_valid_for_chain_history (cv_block contextual) (chain_network new_chain) history_tree in
  let sprout_anchor_result :=
    block_sprout_anchors_refer_to_treestates sprout_final_treestates (cv_block contextual)
      (cv_transaction_hashes contextual) (cv_height contextual) in
  r ← join_results block_commitment_result (join_results sprout_anchor_result (push new_chain contextual));
  Ok r.2.2.

Definition validate_and_commit s (new_chain : chain) (prepared : SemanticallyVerifiedBlock) db
    : res ValidateContextError chain :=
  if existsb (fun e => e.1 =? sv_height prepared) (invalidated_blocks s)
  then Err (BlockPreviouslyInvalidated (sv_hash prepared))
  else
    spent_utxos ← transparent_spend prepared (unspent_utxos (inner new_chain))
                    (spent_utxos (tx_indexes (inner new_chain))) db;
    _ ← block_sapling_orchard_anchors_refer_to_final_treestates db (inner new_chain) prepared;
    let sprout_final_treestates := block_fetch_sprout_final_treestates db (inner new_chain) prepared in
    contextual ← map_err (fun e => CalculateBlockChainValueChange e (sv_height prepared) (sv_hash prepared)
                            (Z.of_nat (length (transactions (sv_block prepared)))) (Z.of_nat (size spent_utxos)))
                   (with_block_and_spent_utxos prepared spent_utxos);
    validate_and_update_parallel new_chain contextual sprout_final_treestates.

Definition not_ending_at (hash : bytes) (l : list chain) : outcome (list chain) :=
  retainM (fun c => tip ← non_finalized_tip_hash (inner c); Ok (negb (bool_decide (tip = hash)))) l.

Definition commit_block s (prepared : SemanticallyVerifiedBlock) db : res ValidateContextError NonFinalizedState :=
  let parent_hash := previous_block_hash (block_header (sv_block prepared)) in
  parent_chain ← parent_chain s parent_hash;
  modified_chain ← validate_and_commit s parent_chain prepared db;
  s ← lift (insert_with s modified_chain (not_ending_at parent_hash));
  _ ← lift (update_metrics_for_committed_block s);
  Ok s.

Definition finalized_chain (network : Network) db (finalized_tip_height : Z) : outcome chain :=
  sprout_tree ← sprout_tree_for_tip db;
  sapling_tree ← sapling_tree_for_tip db;
  orchard_tree ← orchard_tree_for_tip db;
  Chain_new network finalized_tip_height sprout_tree sapling_tree orchard_tree (db_history_tree db)
    (finalized_value_pool db).

Definition commit_new_chain s (prepared : SemanticallyVerifiedBlock) db : res ValidateContextError NonFinalizedState :=
  finalized_tip_height ← unwrap (finalized_tip_height db);
  chain ← lift (finalized_chain (nfs_network s) db finalized_tip_height);
  chain ← validate_and_commit s chain prepared db;
  s ← lift (nfs_insert s chain);
  _ ← lift (update_metrics_for_committed_block s);
  Ok s.

(** ** Invalidating and reconsidering *)

(** [IndexMap::insert]: an existing key keeps its place. *)
Fixpoint index_insert {V} (k : Z) (v : V) (m : list (Z * V)) : list (Z * V) :=
  match m with
  | [] => [(k, v)]
  | (k', v') :: m' => if k =? k' then (k, v) :: m' else (k', v') :: index_insert k v m'
  end.

Definition invalidate_block s (block_hash : bytes) : res string (bytes * NonFinalizedState) :=
  found ← lift (find_chain s (fun c => Ok (contains_block_hash (inner c) block_hash)));
  match found with
  | None => Err "block hash not found in any non-finalized chain"%string
  | Some c =>
      root_hash ← lift (non_finalized_root_hash (inner c));
      '(s, invalidated) ←
        (if bool_decide (root_hash = block_hash) then
           l ← lift (set_remove c (chain_set s));
           Ok (with_chain_set s l, (blocks (inner c)).*2)
         else
           r ← lift (chain_invalidate_block c block_hash);
           '(new_chain, invalidated) ← unwrap r;
           s ← lift (insert_with s new_chain
                       (fun l => Ok (filter (fun c => contains_block_hash (inner c) block_hash = false) l)));
           Ok (s, invalidated));
      first ← unwrap (head invalidated);
      let m := index_insert (cv_height first) invalidated (invalidated_blocks s) in
      Ok (block_hash, with_invalidated s (drop (length m - MAX_INVALIDATED_BLOCKS) m))
  end.

Definition reconsider_block s (block_hash : bytes) db : res ReconsiderError (list bytes * NonFinalizedState) :=
  e ← ok_or (head (filter (fun e : Z * list ContextuallyVerifiedBlock =>
                              (cv_hash <$> head e.2) = Some block_hash) (invalidated_blocks s)))
        (MissingInvalidatedBlock block_hash);
  let invalidated := e.2 in
  let invalidated_block_hashes := cv_hash <$> invalidated in
  invalidated_root ← ok_or (head invalidated) InvalidatedBlocksEmpty;
  let root_parent_hash := previous_block_hash (block_header (cv_block invalidated_root)) in
  chain_result ←
    (if bool_decide (root_parent_hash = finalized_tip_hash db) then
       height ← ok_or (finalized_tip_height db) (ParentChainNotFound block_hash);
       lift (finalized_chain (nfs_network s) db height)
     else map_err (fun _ => ParentChainNotFound block_hash) (parent_chain s root_parent_hash));
  modified_chain ← map_err ValidationError (foldM push chain_result invalidated);
  _ ← lift (non_finalized_tip_height (inner modified_chain));
  let s := match finalized_tip_height db with
           | Some root => with_invalidated s (filter (fun e => root <= e.1) (invalidated_blocks s))
           | None => s
           end in
  s ← lift (insert_with s modified_chain (not_ending_at root_parent_hash));
  _ ← lift (update_metrics_for_committed_block s);
  Ok (invalidated_block_hashes, s).
End NonFinalizedState.

Arguments NonFinalizedState : clear implicits.

(** * The order of chains *)

Section OrderLemmas.
Context {SproutT SaplingT OrchardT HistoryT : Type}.
Abbreviation chain := (Chain SproutT SaplingT OrchardT HistoryT).
Implicit Types (a b c : chain) (l : list chain).

Definition chain_lt a b : Prop := chain_cmp a b = Ok Lt.

Lemma chain_lt_iff a b :
  chain_lt a b <->
  partial_cumulative_work (inner a) < partial_cumulative_work (inner b)
  \/ (partial_cumulative_work (inner a) = partial_cumulative_work (inner b) /\
      exists ha hb, non_finalized_tip_hash (inner a) = Ok ha /\ non_finalized_tip_hash (inner b) = Ok hb
        /\ bytes_compare ha hb = Lt).
Proof.
  unfold chain_lt, chain_cmp. destruct (Z.eqb_spec (partial_cumulative_work (inner a)) (partial_cumulative_work (inner b))) as [E|E].
  - split.
    + intros (ha & Ha & (hb & Hb & Hc)%bind_Ok_inv)%bind_Ok_inv. right. split; [done|]. exists ha, hb.
      destruct (bytes_compare ha hb) eqn:Ec; by simplify_eq.
    + intros [?|(_ & ha & hb & -> & -> & Hc)]; [lia|]. cbn. by rewrite Hc.
  - split.
    + intros Hc%Ok_inj. left. by apply Z.compare_lt_iff.
    + intros [?|[? _]]; [|done]. f_equal. by apply Z.compare_lt_iff.
Qed.

Lemma chain_lt_gt a b : chain_lt a b -> chain_cmp b a = Ok Gt.
Proof.
  intros [Hw|(Hw & ha & hb & Ha & Hb & Hc)]%chain_lt_iff; unfold chain_cmp.
  - rewrite (proj2 (Z.eqb_neq _ _)) by lia. f_equal. apply Z.compare_gt_iff. lia.
  - rewrite Hw, Z.eqb_refl, Ha, Hb. cbn. by rewrite bytes_compare_antisym, Hc.
Qed.
Lemma chain_gt_lt a b : chain_cmp a b = Ok Gt -> chain_lt b a.
Proof.
  unfold chain_cmp. intros Hc. apply chain_lt_iff.
  destruct (Z.eqb_spec (partial_cumulative_work (inner a)) (partial_cumulative_work (inner b))) as [E|E].
  - apply bind_Ok_inv in Hc as (ha & Ha & (hb & Hb & Hc)%bind_Ok_inv). right. split; [done|]. exists hb, ha.
    rewrite bytes_compare_antisym. destruct (bytes_compare ha hb) eqn:Ec; by simplify_eq.
  - apply Ok_inj in Hc. left. apply Z.compare_gt_iff in Hc. lia.
Qed.
Lemma chain_cmp_self c : chain_cmp c c = Panic.
Proof.
  unfold chain_cmp. rewrite Z.eqb_refl. destruct (non_finalized_tip_hash (inner c)) as [h|[]|] eqn:E; [|done].
  cbn. by rewrite bytes_compare_refl.
Qed.
Lemma chain_cmp_not_Eq a b : chain_cmp a b <> Ok Eq.
Proof.
  unfold chain_cmp. destruct (Z.eqb_spec (partial_cumulative_work (inner a)) (partial_cumulative_work (inner b))) as [E|E].
  - intros (ha & _ & (hb & _ & Hc)%bind_Ok_inv)%bind_Ok_inv. destruct (bytes_compare ha hb); by simplify_eq.
  - intros Hc%Ok_inj%Z.compare_eq_iff. done.
Qed.
#[export] Instance chain_lt_trans : Transitive chain_lt.
Proof.
  intros a b c. rewrite !chain_lt_iff.
  intros [H1|(H1 & ha & hb & Ha & Hb & Hab)] [H2|(H2 & hb' & hc & Hb' & Hc & Hbc)]; [left; lia..|].
  right. split; [lia|]. exists ha, hc. assert (hb' = hb) as -> by congruence. eauto using bytes_compare_trans.
Qed.

Abbreviation sorted := (StronglySorted chain_lt).

(** Inserting keeps the order and adds the chain. *)
Lemma set_insert_sorted c l l' : sorted l -> set_insert c l = Ok l' -> sorted l' /\ l' ≡ₚ c :: l.
Proof.
  intros Hs. revert l'. induction Hs as [|x l Hs IH Hf]; intros l'; cbn [set_insert].
  { intros [= <-]. split; [repeat constructor|done]. }
  destruct (chain_cmp c x) as [[]|[]|] eqn:Ec; cbn [mbind res_bind]; [by apply chain_cmp_not_Eq in Ec| | |done].
  - intros [= <-]. split; [|done]. constructor; [by constructor|]. constructor; [done|].
    eapply Forall_impl; [exact Hf|]. cbn. intros y Hy. by etransitivity.
  - intros (l'' & Hi & [= <-])%bind_Ok_inv. destruct (IH _ Hi) as [Hs' Hp]. split.
    + constructor; [done|]. rewrite Hp. constructor; [by apply chain_gt_lt|done].
    + rewrite Hp. apply Permutation_swap.
Qed.

(** A chain below all others goes first. *)
Lemma set_insert_first c l : Forall (chain_lt c) l -> set_insert c l = Ok (c :: l).
Proof. intros Hf. destruct Hf as [|x l Hx Hf]; [done|]. cbn. unfold chain_lt in Hx. by rewrite Hx. Qed.

(** Removing a chain that is in the set always compares it with itself. *)
Lemma set_remove_panics c l : sorted l -> c ∈ l -> set_remove c l = Panic.
Proof.
  intros Hs. induction Hs as [|x l Hs IH Hf]; [by intros ?%not_elem_of_nil|].
  intros [->|Hin]%elem_of_cons; cbn [set_remove]; [by rewrite chain_cmp_self|].
  rewrite Forall_forall in Hf. rewrite (chain_lt_gt _ _ (Hf c Hin)). cbn. by rewrite IH.
Qed.
End OrderLemmas.

(** * The invariant of the chain set *)

Lemma StronglySorted_sublist {A} (R : A -> A -> Prop) l l' : l' `sublist_of` l -> StronglySorted R l -> StronglySorted R l'.
Proof.
  induction 1 as [|x l1 l2 Hsub IH|x l1 l2 Hsub IH]; intros Hs; [done|..]; inversion Hs as [|? ? Hs' Hf]; subst.
  - constructor; [auto|]. rewrite Forall_forall in Hf. apply Forall_forall. intros y Hy. apply Hf.
    eapply elem_of_submseteq; [exact Hy|by apply sublist_submseteq].
  - auto.
Qed.

Lemma retainM_sublist {E A} (p : A -> res E bool) l l' : retainM p l = Ok l' -> l' `sublist_of` l.
Proof.
  revert l'. induction l as [|a l IH]; intros l'; cbn; [intros Hl; inv_res; constructor|].
  intros ([] & _ & (l'' & Hl & Hr)%bind_Ok_inv)%bind_Ok_inv; inv_res; constructor; auto.
Qed.

Lemma findM_elem {E A} (p : A -> res E bool) l a : findM p l = Ok (Some a) -> a ∈ l /\ p a = Ok true.
Proof.
  induction l as [|x l IH]; cbn; [done|]. intros ([] & Hp & Hr)%bind_Ok_inv.
  - inv_res. split; [left|done].
  - destruct (IH Hr). split; [by right|done].
Qed.

Section Invariant.
Context {SproutT SaplingT OrchardT HistoryT : Type}
  `{!NoteTree SproutT} `{!NoteTree SaplingT} `{!SubtreeTree SaplingT} `{!NoteTree OrchardT} `{!SubtreeTree OrchardT}
  `{!HistoryTreeOps HistoryT} `{!HistoryTreeHash HistoryT} `{!ChainContext} `{!CommitmentOps} `{BuildProfile}.
Abbreviation chain := (Chain SproutT SaplingT OrchardT HistoryT).
Abbreviation nfs := (NonFinalizedState SproutT SaplingT OrchardT HistoryT).
Abbreviation zebra_db := (ZebraDb SproutT SaplingT OrchardT HistoryT).
Implicit Types (s : nfs) (db : zebra_db).

(** Strictly ascending work (then tip hash), and the limits. *)
Record nfs_ok s : Prop := {
  ok_sorted : StronglySorted chain_lt (chain_set s);
  ok_chains : (length (chain_set s) <= MAX_NON_FINALIZED_CHAIN_FORKS)%nat;
  ok_invalidated : (length (invalidated_blocks s) <= MAX_INVALIDATED_BLOCKS)%nat
}.

Lemma nfs_ok_sublist s l : nfs_ok s -> l `sublist_of` chain_set s -> nfs_ok (with_chain_set s l).
Proof.
  intros [Hs Hl Hi] Hsub. split; cbn; [by eapply StronglySorted_sublist| |done].
  apply sublist_length in Hsub. lia.
Qed.
Lemma nfs_ok_invalidated s m : nfs_ok s -> (length m <= MAX_INVALIDATED_BLOCKS)%nat -> nfs_ok (with_invalidated s m).
Proof. intros [? ? ?] ?. by split. Qed.

Lemma insert_with_ok s c f s' :
  nfs_ok s -> (forall l l', f l = Ok l' -> l' `sublist_of` l) -> insert_with s c f = Ok s' -> nfs_ok s'.
Proof.
  intros [Hs Hl Hi] Hf (l & Hins & (l' & Hl'%Hf & He)%bind_Ok_inv)%bind_Ok_inv. inv_res.
  apply set_insert_sorted in Hins as [Hs' _]; [|done]. split; cbn; [| |done].
  - eapply StronglySorted_sublist; [apply sublist_drop|]. by eapply StronglySorted_sublist.
  - unfold limit_chains. rewrite length_drop. lia.
Qed.
Lemma insert_ok s c s' : nfs_ok s -> nfs_insert s c = Ok s' -> nfs_ok s'.
Proof. intros Hok. apply insert_with_ok; [done|]. by intros l l' [= <-]. Qed.

Lemma index_insert_length {V} k (v : V) m : (length (index_insert k v m) <= S (length m))%nat.
Proof. induction m as [|[k' v'] m IH]; cbn; [lia|]. destruct (k =? k'); cbn; lia. Qed.

Lemma commit_ok s p db s' :
  nfs_ok s -> commit_block s p db = Ok s' \/ commit_new_chain s p db = Ok s' -> nfs_ok s'.
Proof.
  intros Hok [Hc|Hc].
  - apply bind_Ok_inv in Hc as (pc & _ & (mc & _ & (s1 & Hins & (? & _ & He)%bind_Ok_inv)%bind_Ok_inv)%bind_Ok_inv).
    inv_res. apply (proj1 (lift_Ok _ _)) in Hins. eapply insert_with_ok; [done| |done].
    intros l l'. apply retainM_sublist.
  - apply bind_Ok_inv in Hc as (h & _ & (c0 & _ & (c1 & _ & (s1 & Hins & (? & _ & He)%bind_Ok_inv)%bind_Ok_inv)%bind_Ok_inv)%bind_Ok_inv).
    inv_res. apply (proj1 (lift_Ok _ _)) in Hins. by eapply insert_ok.
Qed.

Lemma finalize_ok s root ts s' : nfs_ok s -> finalize s = Ok (root, ts, s') -> nfs_ok s'.
Proof.
  intros Hok. unfold finalize. destruct (chain_iter s) as [|best side]; [done|].
  intros ([[r t] best'] & _ & (s1 & Hs1 & (s2 & Hs2 & He)%bind_Ok_inv)%bind_Ok_inv)%bind_Ok_inv. inv_res.
  assert (nfs_ok (with_chain_set s [])) as Hok0 by (apply nfs_ok_sublist; [done|apply sublist_nil_l]).
  assert (nfs_ok s1) as Hok1 by (destruct (chain_is_empty (inner best')); [by inv_res|by eapply insert_ok]).
  assert (nfs_ok s2) as Hok2.
  { eapply (foldM_inv _ nfs_ok); [exact Hok1| |exact Hs2]. intros x c x' _ Hx.
    unfold finalize_side_chain. intros (rh & _ & Hr)%bind_Ok_inv. case_match; [by inv_res|].
    apply bind_Ok_inv in Hr as ([[sr st] c'] & _ & (? & _ & Hins)%bind_Ok_inv). by eapply insert_ok. }
  apply nfs_ok_invalidated; [done|]. etransitivity; [apply length_filter|apply Hok2].
Qed.

Lemma crosslink_finalize_ok s hash r s' : nfs_ok s -> crosslink_finalize s hash = Ok (r, s') -> nfs_ok s'.
Proof.
  intros Hok (found & _ & Hr)%bind_Ok_inv. destruct found as [c|]; [|by inv_res].
  apply bind_Ok_inv in Hr as (h & _ & He). inv_res. apply nfs_ok_sublist; [done|]. apply sublist_filter.
Qed.

Lemma set_remove_sublist c l l' : set_remove (SproutT := SproutT) (SaplingT := SaplingT) (OrchardT := OrchardT)
  (HistoryT := HistoryT) c l = Ok l' -> l' `sublist_of` l.
Proof.
  revert l'. induction l as [|x l IH]; intros l'; cbn [set_remove]; [intros [= <-]; constructor|].
  intros ([] & _ & Hr)%bind_Ok_inv; [inv_res; by constructor|by inv_res|].
  apply bind_Ok_inv in Hr as (l'' & Hl & He). inv_res. constructor. auto.
Qed.

Lemma invalidate_ok s hash r s' : nfs_ok s -> invalidate_block s hash = Ok (r, s') -> nfs_ok s'.
Proof.
  intros Hok (found & _ & Hr)%bind_Ok_inv. destruct found as [c|]; [|done].
  apply bind_Ok_inv in Hr as (rh & _ & ([s1 inv] & Hs1 & (first & _ & He)%bind_Ok_inv)%bind_Ok_inv).
  cbn zeta in He. inv_res. assert (nfs_ok s1) as Hok1.
  { case_bool_decide.
    - apply bind_Ok_inv in Hs1 as (l & Hl%lift_Ok%set_remove_sublist & He2). inv_res. by apply nfs_ok_sublist.
    - apply bind_Ok_inv in Hs1 as (o & _ & ([nc inv'] & _ & (s2 & Hins%lift_Ok & He2)%bind_Ok_inv)%bind_Ok_inv). inv_res.
      eapply insert_with_ok; [done| |done]. intros l l' [= <-]. apply sublist_filter. }
  apply nfs_ok_invalidated; [done|]. rewrite length_drop. lia.
Qed.

Lemma reconsider_ok s hash db r s' : nfs_ok s -> reconsider_block s hash db = Ok (r, s') -> nfs_ok s'.
Proof.
  intros Hok. unfold reconsider_block.
  intros (e & _ & (root & _ & (c & _ & (mc & _ & (? & _ & (s1 & Hins%lift_Ok & (? & _ & He)%bind_Ok_inv)%bind_Ok_inv)%bind_Ok_inv)%bind_Ok_inv)%bind_Ok_inv)%bind_Ok_inv)%bind_Ok_inv.
  inv_res. eapply insert_with_ok; [|intros l l'; apply retainM_sublist|exact Hins].
  destruct (finalized_tip_height db); [|done]. apply nfs_ok_invalidated; [done|].
  etransitivity; [apply length_filter|apply Hok].
Qed.

(** C11. Every operation of the non-finalized state keeps its chains in strictly
    ascending order of work, with the tip hash breaking ties, at most ten of
    them, and at most a hundred entries of invalidated blocks. *)
Theorem nfs_invariant s :
  nfs_ok s ->
  (forall prepared db s', commit_block s prepared db = Ok s' -> nfs_ok s')
  /\ (forall prepared db s', commit_new_chain s prepared db = Ok s' -> nfs_ok s')
  /\ (forall root ts s', finalize s = Ok (root, ts, s') -> nfs_ok s')
  /\ (forall hash r s', crosslink_finalize s hash = Ok (r, s') -> nfs_ok s')
  /\ (forall hash r s', invalidate_block s hash = Ok (r, s') -> nfs_ok s')
  /\ (forall hash db r s', reconsider_block s hash db = Ok (r, s') -> nfs_ok s').
Proof.
  intros Hok. split_and!.
  - intros p db s' Hc. eapply (commit_ok s p db); [done|by left].
  - intros p db s' Hc. eapply (commit_ok s p db); [done|by right].
  - intros root ts s'. by apply finalize_ok.
  - intros hash r s'. by apply crosslink_finalize_ok.
  - intros hash r s'. by apply invalidate_ok.
  - intros hash db r s'. by apply reconsider_ok.
Qed.

(** Invalidating the root block of a non-finalized chain always panics:
    the chain is removed from the ordered set by comparing it with itself, and
    comparing equal chains is an [unreachable!]. *)
Theorem invalidate_root_panics s c hash :
  nfs_ok s -> find_chain s (fun c => Ok (contains_block_hash (inner c) hash)) = Ok (Some c) ->
  non_finalized_root_hash (inner c) = Ok hash ->
  invalidate_block s hash = Panic.
Proof.
  intros [Hs _ _] Hfind Hroot. unfold invalidate_block. rewrite Hfind. cbn [lift mbind res_bind]. rewrite Hroot.
  cbn [lift mbind res_bind]. rewrite bool_decide_eq_true_2 by done.
  apply findM_elem in Hfind as [Hin _]. unfold chain_iter in Hin. rewrite elem_of_reverse in Hin.
  rewrite set_remove_panics by done. done.
Qed.
End Invariant.

(** * Finalizing *)

Section Finalize.
Context {SproutT SaplingT OrchardT HistoryT : Type}
  `{!NoteTree SproutT} `{!NoteTree SaplingT} `{!SubtreeTree SaplingT} `{!NoteTree OrchardT} `{!SubtreeTree OrchardT}
  `{!HistoryTreeOps HistoryT} `{!HistoryTreeHash HistoryT} `{!ChainContext} `{!CommitmentOps} `{BuildProfile}
  `{!NoteTreeLaws SproutT}.
Abbreviation chain := (Chain SproutT SaplingT OrchardT HistoryT).
Abbreviation nfs := (NonFinalizedState SproutT SaplingT OrchardT HistoryT).
Implicit Types (s : nfs) (c : chain) (b : ContextuallyVerifiedBlock) (bs : list ContextuallyVerifiedBlock)
  (bss : list (list ContextuallyVerifiedBlock)).

(** The chains of a state are lists of blocks. *)
Definition state_repr s bss : Prop := nfs_ok s /\ Forall2 chain_repr (chain_set s) bss /\ Forall (fun bs => bs <> []) bss.

(** Popping a common root keeps the order of two chains. *)
Lemma work_repr c bs : chain_repr c bs -> partial_cumulative_work (inner c) = sum_Z work_of bs.
Proof. intros [_ Hrep]. apply (ir_work _ _ _ Hrep). Qed.
Lemma tip_hash_last c bs b : chain_repr c bs -> last bs = Some b -> non_finalized_tip_hash (inner c) = Ok (cv_hash b).
Proof. intros Hrep [bs' ->]%last_Some. by eapply tip_hash_repr. Qed.

Lemma chain_lt_tail c1 c2 c1' c2' b bs1 bs2 :
  chain_repr c1 (b :: bs1) -> chain_repr c2 (b :: bs2) -> chain_repr c1' bs1 -> chain_repr c2' bs2 ->
  bs1 <> [] -> bs2 <> [] -> chain_lt c1 c2 -> chain_lt c1' c2'.
Proof.
  intros Hc1 Hc2 Hc1' Hc2' Hn1 Hn2. rewrite !chain_lt_iff. rewrite (work_repr _ _ Hc1), (work_repr _ _ Hc2),
    (work_repr _ _ Hc1'), (work_repr _ _ Hc2'). cbn [sum_Z].
  destruct (last bs1) as [b1|] eqn:E1; [|by apply last_None in E1].
  destruct (last bs2) as [b2|] eqn:E2; [|by apply last_None in E2].
  assert (last (b :: bs1) = Some b1) as E1' by (rewrite last_cons, E1; done).
  assert (last (b :: bs2) = Some b2) as E2' by (rewrite last_cons, E2; done).
  rewrite (tip_hash_last _ _ _ Hc1 E1'), (tip_hash_last _ _ _ Hc2 E2'), (tip_hash_last _ _ _ Hc1' E1),
    (tip_hash_last _ _ _ Hc2' E2).
  intros [?|[? ?]]; [left; lia|right; split; [lia|done]].
Qed.

(** The lists that start with [b], without it. *)
Definition keep_root b bss : list (list ContextuallyVerifiedBlock) :=
  omap (fun bs => match bs with
                  | x :: rest => if decide (cv_hash x = cv_hash b) then Some rest else None
                  | [] => None
                  end) bss.

(** [b] is determined by its hash, and is not the only block of a side chain. *)
Definition side_chain_ok b bs : Prop := forall x rest, bs = x :: rest -> cv_hash x = cv_hash b -> x = b /\ rest <> [].

(** A popped chain and the chain it comes from. *)
Definition popped_from b (l : list chain) (c' : chain) : Prop :=
  exists c bs, c ∈ l /\ chain_repr c (b :: bs) /\ chain_repr c' bs /\ bs <> [].

Lemma nfs_insert_first s c :
  Forall (chain_lt c) (chain_set s) -> (length (chain_set s) < MAX_NON_FINALIZED_CHAIN_FORKS)%nat ->
  nfs_insert s c = Ok (with_chain_set s (c :: chain_set s)).
Proof.
  intros Hlt Hlen. unfold nfs_insert, insert_with. rewrite set_insert_first by done. cbn [mbind res_bind].
  unfold limit_chains. replace (length (c :: chain_set s) - MAX_NON_FINALIZED_CHAIN_FORKS)%nat with 0%nat by (cbn [length]; lia).
  done.
Qed.

Lemma finalize_sides b all sides bss s1 :
  Forall2 chain_repr sides bss -> Forall (fun bs => bs <> []) bss -> Forall (side_chain_ok b) bss ->
  StronglySorted chain_lt (sides ++ all) -> Forall (popped_from b all) (chain_set s1) ->
  (length sides + length (chain_set s1) <= MAX_NON_FINALIZED_CHAIN_FORKS)%nat ->
  exists kept, foldM (finalize_side_chain (cv_hash b)) s1 (reverse sides) = Ok (with_chain_set s1 (kept ++ chain_set s1))
    /\ Forall2 chain_repr kept (keep_root b bss) /\ Forall (popped_from b (sides ++ all)) kept
    /\ (length kept <= length sides)%nat.
Proof.
  intros Hrep. induction Hrep as [|c bs sides bss Hc Hrep IH]; intros Hne Hok Hs Hall Hlen.
  { exists []. cbn. split; [by destruct s1|]. split_and!; constructor. }
  apply Forall_cons in Hne as [Hne1 Hne]. apply Forall_cons in Hok as [Hok1 Hok].
  cbn [app] in Hs. inversion Hs as [|? ? Hs' Hlt]; subst. cbn [length] in Hlen.
  destruct IH as (kept & Hfold & Hkept & Hfrom & Hlk); [done..|lia|].
  rewrite reverse_cons, foldM_app, Hfold. cbn [foldM mbind res_bind]. unfold finalize_side_chain.
  destruct bs as [|x rest]; [done|]. rewrite (root_hash_repr _ _ _ Hc). cbn [mbind res_bind keep_root omap list_omap].
  destruct (decide (cv_hash x = cv_hash b)) as [Heq|Hneq]; cycle 1.
  { rewrite bool_decide_eq_false_2 by done. cbn [negb mbind res_bind]. exists kept. split; [done|]. split; [done|].
    split; [|cbn; lia]. eapply Forall_impl; [exact Hfrom|]. intros y (y0 & ys & Hin & ?). exists y0, ys.
    split; [by right|done]. }
  rewrite bool_decide_eq_true_2 by done. cbn [negb]. destruct (Hok1 x rest eq_refl Heq) as [-> Hrest].
  destruct (pop_root_repr _ _ _ Hc) as (ts & c' & _ & -> & Hc' & _). cbn [mbind res_bind].
  rewrite bool_decide_eq_true_2 by done. cbn [assert_ mbind res_bind].
  assert (Forall (popped_from b (sides ++ all)) (kept ++ chain_set s1)) as Hfrom'.
  { apply Forall_app. split; [done|]. eapply Forall_impl; [exact Hall|]. intros y (y0 & ys & Hin & ?).
    exists y0, ys. split; [apply elem_of_app; by right|done]. }
  rewrite nfs_insert_first.
  - cbn [mbind res_bind]. exists (c' :: kept). split; [done|]. split; [by constructor|]. split; [|cbn; lia].
    constructor.
    + exists c, rest. split; [left|done].
    + apply Forall_app in Hfrom' as [Hfrom' _]. eapply Forall_impl; [exact Hfrom'|].
      intros y (y0 & ys & Hin & ?). exists y0, ys. split; [by right|done].
  - cbn. rewrite Forall_forall in Hlt. eapply Forall_impl; [exact Hfrom'|]. intros y (y0 & ys & Hin & Hy0 & Hy & Hys).
    eapply (chain_lt_tail c y0); eauto.
  - cbn. rewrite length_app. lia.
Qed.

Lemma finalize_repr s bss b rest :
  state_repr s (bss ++ [b :: rest]) -> Forall (side_chain_ok b) bss ->
  exists ts s', finalize s = Ok (b, ts, s')
    /\ state_repr s' (keep_root b bss ++ (if decide (rest = []) then [] else [rest]))
    /\ invalidated_blocks s' = filter (fun e => cv_height b <= e.1) (invalidated_blocks s).
Proof.
  intros (Hok & Hrep & Hne) Hside. pose proof Hok as [Hs Hlen _].
  apply Forall2_app_inv_r in Hrep as (sides & bests & Hsides & Hbest & Eset).
  apply Forall2_cons_inv_r in Hbest as (best & ? & Hbest & ->%Forall2_nil_inv_r & ->).
  apply Forall_app in Hne as [Hne _]. rewrite Eset in Hs, Hlen. rewrite length_app in Hlen. cbn in Hlen.
  destruct (pop_root_repr _ _ _ Hbest) as (ts & best' & _ & Hpop & Hbest' & _). exists ts.
  assert (exists acc, (if chain_is_empty (inner best') then Ok (with_chain_set s []) else nfs_insert (with_chain_set s []) best')
            = Ok (with_chain_set s acc) /\ Forall (popped_from b [best]) acc /\ (length acc <= 1)%nat
            /\ Forall2 chain_repr acc (if decide (rest = []) then [] else [rest])) as (acc & Hacc & Hpopped & Hlacc & Hracc).
  { rewrite (chain_is_empty_repr _ _ Hbest'). destruct (decide (rest = [])) as [->|Hrest].
    - exists []. split_and!; try constructor. cbn. lia.
    - rewrite bool_decide_eq_false_2 by done. exists [best']. rewrite nfs_insert_first; [|by apply Forall_nil|cbn; lia].
      split_and!; [done| |done|by apply Forall2_cons]. apply Forall_singleton.
      exists best, rest. split; [left|done]. }
  destruct (finalize_sides b [best] sides bss (with_chain_set s acc)) as (kept & Hfold & Hkept & _ & _); try done.
  { cbn. lia. }
  assert (exists s', finalize s = Ok (b, ts, s') /\ chain_set s' = kept ++ acc
            /\ invalidated_blocks s' = filter (fun e => cv_height b <= e.1) (invalidated_blocks s)) as (s' & Hfin & Eset' & Einv).
  { unfold finalize, chain_iter. rewrite Eset, reverse_app. cbn [reverse rev_append app]. rewrite Hpop. cbn [mbind res_bind].
    rewrite Hacc. cbn [mbind res_bind]. change (rev_append sides []) with (reverse sides). rewrite Hfold.
    cbn [mbind res_bind]. eexists. split; [done|]. done. }
  exists s'. split; [done|]. split; [|done]. split; [by eapply finalize_ok|]. rewrite Eset'. split.
  - by apply Forall2_app.
  - apply Forall_app. split; [|case_decide; by repeat constructor].
    unfold keep_root. clear -Hside. induction Hside as [|bs bss Hok Hside IH]; [constructor|].
    cbn [omap list_omap]. destruct bs as [|x r]; [done|]. case_decide as Hx; [|done]. constructor; [|done].
    by apply (Hok x r).
Qed.

(** ** Crosslink finality *)

Lemma blocks_up_to_repr c before x after :
  chain_repr c (before ++ x :: after) ->
  snd <$> filter (fun e => e.1 <= cv_height x) (blocks (inner c)) = before ++ [x].
Proof.
  intros [[Hhs _ _ _] Hrep]. rewrite (ir_blocks _ _ _ Hrep). clear Hrep.
  induction before as [|b before IH]; cbn [app fmap list_fmap] in *.
  - destruct Hhs as [(_ & Hall & _) _]. rewrite filter_cons_True by (cbn; lia). cbn. f_equal. rewrite filter_none; [done|].
    apply Forall_fmap, Forall_forall. intros y Hy. cbn. apply (list_elem_of_fmap_2 cv_height), Hall in Hy. lia.
  - destruct Hhs as [(_ & Hall & _) Hhs]. rewrite filter_cons_True; [cbn; f_equal; by apply IH|]. cbn.
    assert (cv_height b < cv_height x <= Height_MAX); [|lia]. apply Hall, list_elem_of_fmap_2, elem_of_app. right. left.
Qed.

Definition contains_hash (hash : bytes) bs : Prop := hash ∈ cv_hash <$> bs.
#[export] Instance contains_hash_dec hash bs : Decision (contains_hash hash bs).
Proof. unfold contains_hash. apply _. Defined.

Lemma filter_contains hash (l : list chain) bss :
  Forall2 chain_repr l bss ->
  Forall2 chain_repr (filter (fun c => contains_block_hash (inner c) hash = true) l) (filter (contains_hash hash) bss).
Proof.
  induction 1 as [|c bs l bss Hc Hrep IH]; [constructor|]. rewrite !filter_cons.
  pose proof (contains_repr _ _ hash Hc) as Hiff. unfold contains_hash at 1. repeat case_decide; try tauto. by constructor.
Qed.

Lemma findM_contains hash (l : list chain) bss :
  Forall2 chain_repr l bss ->
  (findM (fun c => Ok (bool_decide (is_Some (height_by_hash (inner c) !! hash)))) l : outcome (option chain)) =
    Ok (head (filter (fun c => contains_block_hash (inner c) hash = true) l)).
Proof.
  induction 1 as [|c bs l bss Hc Hrep IH]; [done|]. cbn [findM mbind res_bind]. rewrite filter_cons.
  change (bool_decide (is_Some (height_by_hash (inner c) !! hash))) with (contains_block_hash (inner c) hash).
  destruct (contains_block_hash (inner c) hash); [by rewrite decide_True|]. by rewrite decide_False.
Qed.

Lemma crosslink_finalize_repr s bss hash :
  state_repr s bss ->
  (filter (contains_hash hash) bss = [] -> crosslink_finalize s hash = Ok (None, s))
  /\ (forall best, last (filter (contains_hash hash) bss) = Some best ->
      exists before x after s', best = before ++ x :: after /\ cv_hash x = hash
        /\ crosslink_finalize s hash = Ok (Some (before ++ [x]), s')
        /\ state_repr s' (filter (contains_hash hash) bss)).
Proof.
  intros (Hok & Hrep & Hne). pose proof (filter_contains hash _ _ Hrep) as Hfil.
  assert (find_chain s (fun c => Ok (bool_decide (is_Some (height_by_hash (inner c) !! hash))))
          = Ok (last (filter (fun c => contains_block_hash (inner c) hash = true) (chain_set s)))) as Hfind.
  { unfold find_chain, chain_iter. rewrite (findM_contains hash _ (reverse bss)) by (by apply Forall2_reverse).
    rewrite filter_reverse, head_reverse. done. }
  unfold crosslink_finalize. rewrite Hfind. cbn [mbind res_bind]. split.
  - intros Hn. rewrite Hn in Hfil. apply Forall2_nil_inv_r in Hfil. rewrite Hfil. done.
  - intros best Hbest. apply last_Some in Hbest as [bss' Hbest]. pose proof Hfil as Hfil'. rewrite Hbest in Hfil'.
    apply Forall2_app_inv_r in Hfil' as (l1 & l2 & _ & Hl2 & El).
    apply Forall2_cons_inv_r in Hl2 as (c & ? & Hc & ->%Forall2_nil_inv_r & ->).
    assert (contains_hash hash best) as (x & -> & Hx)%list_elem_of_fmap.
    { assert (best ∈ filter (contains_hash hash) bss) as Hin by (rewrite Hbest; apply elem_of_app; right; left).
      by apply list_elem_of_filter in Hin as [? _]. }
    apply list_elem_of_split in Hx as (before & after & ->).
    rewrite El, last_snoc. rewrite (proj2 (height_by_hash_repr _ _ (cv_hash x) (cv_height x) Hc)); cycle 1.
    { exists x. split; [apply elem_of_app; right; left|done]. }
    cbn [unwrap mbind res_bind]. exists before, x, after. eexists. split; [done|]. split; [done|]. split.
    + f_equal. f_equal. f_equal. by eapply blocks_up_to_repr.
    + rewrite <- El. split; [apply nfs_ok_sublist; [done|apply sublist_filter]|]. split; [exact Hfil|].
      apply Forall_forall. intros bs [_ Hbs]%list_elem_of_filter. rewrite Forall_forall in Hne. auto.
Qed.
End Finalize.

(** * Empty chains *)

Section EmptyChain.
Context {SproutT SaplingT OrchardT HistoryT : Type}
  `{!NoteTree SproutT} `{!NoteTree SaplingT} `{!SubtreeTree SaplingT} `{!NoteTree OrchardT} `{!SubtreeTree OrchardT}
  `{!HistoryTreeOps HistoryT} `{!HistoryTreeHash HistoryT} `{!ChainContext} `{!CommitmentOps} `{BuildProfile}.
Abbreviation chain := (Chain SproutT SaplingT OrchardT HistoryT).
Implicit Types (s : NonFinalizedState SproutT SaplingT OrchardT HistoryT).

Lemma retainM_Ok_elem {E A} (p : A -> res E bool) l l' a : retainM p l = Ok l' -> a ∈ l -> exists b, p a = Ok b.
Proof.
  revert l'. induction l as [|x l IH]; intros l'; [by intros _ ?%not_elem_of_nil|].
  intros (b & Hb & (l'' & Hl & _)%bind_Ok_inv)%bind_Ok_inv [->|Ha]%elem_of_cons; [by exists b|by eapply IH].
Qed.

Lemma empty_tip_hash (c : chain) : chain_is_empty (inner c) = true -> non_finalized_tip_hash (inner c) = Panic.
Proof. unfold chain_is_empty, non_finalized_tip_hash. by destruct (blocks (inner c)). Qed.

(** While the set holds a chain without blocks, no block can be added to
    another chain: removing the chain that was extended reads every tip. *)
Lemma empty_chain_blocks_commits s c p db s' :
  StronglySorted chain_lt (chain_set s) -> c ∈ chain_set s -> chain_is_empty (inner c) = true -> commit_block s p db <> Ok s'.
Proof.
  intros Hs Hin Hc Hr.
  apply bind_Ok_inv in Hr as (pc & _ & (mc & _ & (s1 & Hins%lift_Ok & _)%bind_Ok_inv)%bind_Ok_inv).
  apply bind_Ok_inv in Hins as (l & Hl & (l' & Hret & _)%bind_Ok_inv).
  apply set_insert_sorted in Hl as [_ Hperm]; [|done].
  destruct (retainM_Ok_elem _ _ _ c Hret) as (b & Hb); [rewrite Hperm; by right|].
  cbn beta in Hb. rewrite empty_tip_hash in Hb by done. done.
Qed.
End EmptyChain.

(** * Examples *)

Module NfsExample.
#[local] Existing Instance Example.tree.
#[local] Existing Instance Example.subtree.
#[local] Existing Instance Example.tree_laws.
#[local] Existing Instance Example.history.
#[local] Existing Instance Example.context.
#[local] Existing Instance release_build.
Import Example.
Abbreviation state := (NonFinalizedState bytes bytes bytes nat).

(** Two blocks on top of [block1]. *)
Definition chain2b : chain := get empty_chain (push chain1 block2').
Definition empty_state : state := NonFinalizedState_new Mainnet.
Definition one_chain : state := get empty_state (nfs_insert empty_state chain2).
Definition two_forks : state := get empty_state (nfs_insert one_chain chain2b).

Lemma empty_state_ok : nfs_ok empty_state.
Proof. split; cbn; [constructor|lia..]. Qed.
Lemma one_chain_ok : nfs_ok one_chain.
Proof. apply (insert_ok empty_state chain2); [apply empty_state_ok|]. apply get_ok. vm_compute. reflexivity. Qed.
Lemma two_forks_ok : nfs_ok two_forks.
Proof. apply (insert_ok one_chain chain2b); [apply one_chain_ok|]. apply get_ok. vm_compute. reflexivity. Qed.

Definition invalidated : state := (get ([], empty_state) (invalidate_block two_forks [Byte.x02])).2.
Definition finalized : state := match finalize invalidated with Ok (_, _, s) => s | _ => empty_state end.


Lemma get_pair {E A B} (d : A * B) (m : res E (A * B)) a :
  is_ok m = true -> (get d m).1 = a -> m = Ok (a, (get d m).2).
Proof. destruct m as [[? ?]| |]; cbn; congruence. Qed.
Lemma invalidate_eq : invalidate_block two_forks [Byte.x02] = Ok ([Byte.x02], invalidated).
Proof. apply get_pair; vm_compute; reflexivity. Qed.
Lemma get_Some {E A} (d : A) (m : res E (option A)) :
  match m with Ok (Some _) => true | _ => false end = true -> m = Ok (Some (default d (get None m))).
Proof. by destruct m as [[?|]| |]. Qed.
Lemma fmap_first {A B} (f : A -> B) l y ys : f <$> l = y :: ys -> exists x, x ∈ l /\ f x = y.
Proof. destruct l as [|x l]; [done|]. cbn. intros [= <- _]. exists x. split; [left|done]. Qed.
Lemma finalize_eq : exists root ts, finalize invalidated = Ok (root, ts, finalized).
Proof. apply get_third. vm_compute. reflexivity. Qed.

(** Invalidating one of two forks and finalizing their common root leaves a
    chain without blocks in the chain set, and from then on no block extends
    any chain. *)
Theorem invalidated_fork_stops_commits `{!HistoryTreeHash nat} `{!CommitmentOps} :
  invalidate_block two_forks [Byte.x02] = Ok ([Byte.x02], invalidated)
  /\ (exists root ts, finalize invalidated = Ok (root, ts, finalized))
  /\ (fun c => cv_hash <$> (blocks (inner c)).*2) <$> chain_set finalized = [[]; [[Byte.x03]]]
  /\ forall prepared db s', commit_block finalized prepared db <> Ok s'.
Proof.
  split; [exact invalidate_eq|]. split; [exact finalize_eq|].
  assert ((fun c => cv_hash <$> (blocks (inner c)).*2) <$> chain_set finalized = [[]; [[Byte.x03]]]) as Hc
    by (vm_compute; reflexivity).
  split; [exact Hc|]. destruct finalize_eq as (root & ts & Hfin).
  apply finalize_ok in Hfin as [Hs _ _]; [|eapply invalidate_ok; [apply two_forks_ok|apply invalidate_eq]].
  destruct (fmap_first _ _ _ _ Hc) as (c & Hin & Hempty).
  intros p db s'. apply (empty_chain_blocks_commits _ c); [exact Hs|exact Hin|].
  clear -Hempty. unfold chain_is_empty. by destruct (blocks (inner c)).
Qed.

#[local] Instance nat_history_hash : HistoryTreeHash nat := fun _ => None.
#[local] Instance commitments : CommitmentOps :=
  {| sapling_root_canonical _ := true; block_header_hash _ := []; auth_data_root _ := []; from_commitments _ _ := [] |}.

Lemma nfs_invariant_witness : nfs_ok invalidated.
Proof.
  destruct (nfs_invariant two_forks two_forks_ok) as (_ & _ & _ & _ & Hinv & _).
  apply (Hinv [Byte.x02] [Byte.x02]), invalidate_eq.
Defined.

Lemma invalidate_root_panics_witness : invalidate_block one_chain [Byte.x01] = Panic.
Proof.
  set (p := fun c : chain => Ok (contains_block_hash (inner c) [Byte.x01]) : outcome bool).
  apply (invalidate_root_panics one_chain (default empty_chain (get None (find_chain one_chain p))));
    [apply one_chain_ok| |vm_compute; reflexivity].
  apply get_Some. vm_compute. reflexivity.
Defined.
End NfsExample.
