(* ===== verification/StateRead.v ===== *)
(** Queries that combine a non-finalized chain with the finalized state
    ([zebra-state/src/service/read/find.rs], [read/block.rs] and
    [service/block_iter.rs]).

    A query reads a snapshot of a chain and the live database: the database
    can have blocks that the snapshot still holds, and blocks above its tip.
    Queries are modelled on one database state. *)
From S2P Require Import Prelude BTreeMap Height Amount ValueBalance NetworkUpgrade BlockHeader Transaction BlockCommitment TransparentIndex DiskFormat ChainIndexes Chain ChainRepr ContextChecks AdjustedDifficulty FinalizedState FinalizedRepr NonFinalizedState.
From stdpp Require Import strings gmap gmultiset sorting prelude.
From Stdlib Require Import ZArith Lia.
#[local] Open Scope Z_scope.

Inductive KnownBlockLocation : Type := BestChain | SideChain.
Record KnownBlock := mkKnownBlock { kb_location : KnownBlockLocation; kb_height : Z }.

Section StateRead.
Context {SproutT SaplingT OrchardT HistoryT : Type}
  `{!NoteTree SproutT} `{!NoteTree SaplingT} `{!SubtreeTree SaplingT} `{!NoteTree OrchardT} `{!SubtreeTree OrchardT}
  `{!DefaultTree SproutT} `{!DefaultTree SaplingT} `{!DefaultTree OrchardT}
  `{!HistoryTreeOps HistoryT} `{!HistoryTreeHash HistoryT} `{!StoredHistory HistoryT}
  `{!ChainContext} `{!CommitmentOps} `{BuildProfile}.
Abbreviation chain := (Chain SproutT SaplingT OrchardT HistoryT).
Abbreviation nfs := (NonFinalizedState SproutT SaplingT OrchardT HistoryT).
Abbreviation finalized_db := (@FinalizedDb SproutT SaplingT OrchardT HistoryT).
Implicit Types (c : option chain) (db : finalized_db) (s : nfs).

(** ** Tips, hashes and heights *)

Definition read_tip c db : outcome (option (Z * bytes)) :=
  match c with
  | Some c =>
      height ← non_finalized_tip_height (inner c);
      hash ← non_finalized_tip_hash (inner c);
      Ok (Some (height, hash))
  | None => Ok (fdb_tip db)
  end.
Definition read_best_tip s db : outcome (option (Z * bytes)) := read_tip (best_chain s) db.
Definition read_tip_height c db : outcome (option Z) := tip ← read_tip c db; Ok (option_map fst tip).
Definition read_tip_hash c db : outcome (option bytes) := tip ← read_tip c db; Ok (option_map snd tip).

Definition read_height_by_hash c db (hash : bytes) : option Z :=
  option_or (c ← c; height_by_hash (inner c) !! hash) (fdb_height db hash).
Definition read_hash_by_height c db (height : Z) : option bytes :=
  option_or (c ← c; hash_by_height (inner c) height) (fdb_hash db height).
Definition chain_contains_hash c db (hash : bytes) : bool :=
  match c with Some c => contains_block_hash (inner c) hash | None => false end || fdb_contains_hash db hash.

Definition depth c db (hash : bytes) : outcome (option Z) :=
  tip ← read_tip_height c db;
  match tip : option Z, read_height_by_hash c db hash with
  | Some tip, Some height => d ← arith_u 32 (tip - height); Ok (Some d)
  | _, _ => Ok None
  end.

Definition non_finalized_state_contains_block_hash s (hash : bytes) : option KnownBlock :=
  match chain_iter s with
  | [] => None
  | best_chain :: side_chains =>
      match height_by_hash (inner best_chain) !! hash with
      | Some height => Some (mkKnownBlock BestChain height)
      | None => mkKnownBlock SideChain <$> head (omap (fun side_chain : chain => height_by_hash (inner side_chain) !! hash) side_chains)
      end
  end.
Definition finalized_state_contains_block_hash db (hash : bytes) : option KnownBlock :=
  mkKnownBlock BestChain <$> fdb_height db hash.

(** ** Blocks, transactions and outputs *)

Definition read_block c db (hh : HashOrHeight) : option Block :=
  option_or (c ← c; cv_block <$> chain_block (inner c) hh) (fdb_block db hh).
Definition read_block_header c db (hh : HashOrHeight) : option Header :=
  option_or (c ← c; (fun b => block_header (cv_block b)) <$> chain_block (inner c) hh) (fdb_block_header db hh).
Definition read_block_info c db (hh : HashOrHeight) : option (ValueBalance * Z) :=
  option_or (c ← c; chain_block_info (inner c) hh) (fdb_block_info db hh).
Definition read_transaction c db (hash : bytes) : outcome (option (Transaction * Z * Z)) :=
  tx ← match c with Some c => chain_transaction (inner c) hash | None => Ok None end;
  Ok (option_or tx (fdb_transaction db hash)).
Definition mined_transaction c db (hash : bytes) : outcome (option (Transaction * Z * Z * Z)) :=
  found ← read_transaction c db hash;
  match found : option (Transaction * Z * Z) with
  | None => Ok None
  | Some (tx, height, time) =>
      tip ← read_tip_height c db;
      match tip : option Z with
      | None => Ok None
      | Some tip =>
          next ← arith_u 32 (1 + tip);
          confirmations ← arith_u 32 (next - height);
          Ok (Some (tx, height, confirmations, time))
      end
  end.
Definition read_utxo c db (outpoint : OutPoint) : option Utxo :=
  option_or (c ← c; created_utxo (inner c) outpoint) (ordered_utxo <$> fdb_utxo db outpoint).
Definition unspent_utxo c db (outpoint : OutPoint) : option Utxo :=
  if match c with Some c => bool_decide (is_Some (spent_utxos (tx_indexes (inner c)) !! outpoint)) | None => false end
  then None else read_utxo c db outpoint.
Definition read_any_utxo s db (outpoint : OutPoint) : option Utxo :=
  option_or (any_utxo s outpoint) (ordered_utxo <$> fdb_utxo db outpoint).

(** ** Block locators *)

(** [iter::successors(Some(1u32), |h| h.checked_mul(2))]. *)
Fixpoint successors (fuel : nat) (h : Z) : list Z :=
  match fuel with
  | O => []
  | S fuel => h :: match u32_checked (h * 2) with Some h => successors fuel h | None => [] end
  end.
Fixpoint take_while {A} (p : A -> bool) (l : list A) : list A :=
  match l with
  | [] => []
  | a :: l' => if p a then a :: take_while p l' else []
  end.
Definition block_locator_heights (tip_height : Z) : list Z :=
  let min_locator_height := u32_saturate (tip_height - MAX_BLOCK_REORG_HEIGHT) in
  let exponential_locators := omap (fun step => u32_checked (tip_height - step)) (successors 33 1) in
  take_while (fun height => min_locator_height <? height) (tip_height :: exponential_locators) ++ [min_locator_height].
Definition block_locator c db : outcome (option (list bytes)) :=
  tip ← read_tip_height c db;
  match tip : option Z with
  | None => Ok None
  | Some tip_height => Ok (Some (omap (read_hash_by_height c db) (block_locator_heights tip_height)))
  end.

(** ** The Find protocol *)

Definition find_chain_intersection c db (known_blocks : list bytes) : option bytes :=
  if is_none c && fdb_is_empty db then None else List.find (chain_contains_hash c db) known_blocks.

(** The first and the last height. *)
Definition EMPTY_RANGE : Z * Z := (1, 0).
Definition range_count (r : Z * Z) : Z := Z.max 0 (r.2 - r.1 + 1).
Definition find_chain_height_range c db (intersection stop : option bytes) (max_len : Z) : outcome (Z * Z) :=
  _ ← assert_ (0 <? max_len);
  tip ← read_tip_height c db;
  match tip : option Z with
  | None => Ok EMPTY_RANGE
  | Some chain_tip_height =>
      match intersection, intersection ≫= read_height_by_hash c db with
      | Some _, None => Ok EMPTY_RANGE
      | _, intersection_height =>
          '(start_height, max_height) ←
            match intersection_height with
            | Some h => start ← arith_u 32 (h + 1); max ← arith_u 32 (h + max_len); Ok (start, max)
            | None => max ← arith_u 32 (max_len - 1); Ok (0, max)
            end;
          let final_height := Z.min max_height chain_tip_height in
          let final_height := match stop ≫= read_height_by_hash c db with
                              | Some stop_height => Z.min final_height stop_height
                              | None => final_height
                              end in
          let height_range := (start_height, final_height) in
          _ ← assert_ (range_count height_range <=? max_len);
          Ok height_range
      end
  end.

Definition range_heights (r : Z * Z) : list Z := seqZ r.1 (range_count r).
Definition collect_chain_hashes c db (intersection stop : option bytes) (max_len : Z) : outcome (list bytes) :=
  height_range ← find_chain_height_range c db intersection stop max_len;
  let hashes := map_while (read_hash_by_height c db) (range_heights height_range) in
  _ ← assert_ match intersection with Some hash => negb (bool_decide (hash ∈ hashes)) | None => true end;
  _ ← assert_ match stop with Some stop => negb (bool_decide (stop ∈ removelast hashes)) | None => true end;
  Ok hashes.
Definition collect_chain_headers c db (intersection stop : option bytes) (max_len : Z) : outcome (list Header) :=
  height_range ← find_chain_height_range c db intersection stop max_len;
  Ok (map_while (fun height => read_block_header c db (Height height)) (range_heights height_range)).
Definition find_chain_hashes c db (known_blocks : list bytes) (stop : option bytes) (max_len : Z) : outcome (list bytes) :=
  collect_chain_hashes c db (find_chain_intersection c db known_blocks) stop max_len.
Definition find_chain_headers c db (known_blocks : list bytes) (stop : option bytes) (max_len : Z) : outcome (list Header) :=
  collect_chain_headers c db (find_chain_intersection c db known_blocks) stop max_len.

(** ** Ancestors *)

Record Iter := mkIter { iter_chain : option chain; iter_height : option Z }.

Definition yield_by_height db (it : Iter) : option Block * Iter :=
  match iter_height it with
  | None => (None, it)
  | Some current_height =>
      let item := read_block (iter_chain it) db (Height current_height) in
      let height := ok_option (height_previous current_height) in
      let keep := match iter_chain it, height with
                  | Some c, Some height => if contains_block_height (inner c) height then Some c else None
                  | _, _ => None
                  end in
      (item, mkIter keep height)
  end.
Definition iter_len (it : Iter) : Z := match iter_height it with Some height => height + 1 | None => 0 end.

(** [take(n)] and [collect()]: until the iterator returns nothing. *)
Fixpoint iter_take (n : nat) db (it : Iter) : list Block :=
  match n with
  | O => []
  | S n => match yield_by_height db it with
           | (Some b, it) => b :: iter_take n db it
           | (None, _) => []
           end
  end.

Definition any_ancestor_blocks s db (hash : bytes) : outcome Iter :=
  c ← find_chain s (fun chain => Ok (contains_block_hash (inner chain) hash));
  Ok (mkIter c (read_height_by_hash c db hash)).
Definition known_chain_ancestor_iter c db (hh : HashOrHeight) : Iter :=
  mkIter c match hh with Hash hash => read_height_by_hash c db hash | Height height => Some height end.

(** ** The median time of the next block *)

Definition calculate_median_time_past (relevant_chain : list Block) : outcome Z :=
  m ← median_time ((fun b => time (block_header b)) <$> relevant_chain);
  unwrap (u32_checked m).
Definition best_relevant_chain s db : res string (list Block) :=
  tip ← lift (read_best_tip s db);
  match tip : option (Z * bytes) with
  | None => Err "Zebra's state is empty, wait until it syncs to the chain tip"%string
  | Some (_, tip_hash) =>
      it ← lift (any_ancestor_blocks s db tip_hash);
      match iter_take POW_MEDIAN_BLOCK_SPAN db it with
      | [] => Err "missing genesis block, wait until it is committed"%string
      | chain => Ok chain
      end
  end.
Definition next_median_time_past s db : res string Z :=
  chain ← best_relevant_chain s db; lift (calculate_median_time_past chain).

(** * One chain of blocks *)

(** The hashes and blocks of one chain, of which the database has the first
    [n] and the snapshot those from [first] up to [top]. *)
Implicit Types (F : list (bytes * Block)).

Record db_view F (n : nat) db : Prop := {
  dv_length : (n <= length F)%nat;
  dv_hash : forall h, fdb_hash db h = fst <$> lookupZ (take n F) h;
  dv_height : forall hash h, fdb_height db hash = Some h <-> fst <$> lookupZ (take n F) h = Some hash;
  dv_block : forall h, fdb_block db (Height h) = snd <$> lookupZ (take n F) h;
  dv_header : forall h, fdb_block_header db (Height h) = (fun e => block_header e.2) <$> lookupZ (take n F) h;
  dv_tip : fdb_tip db = (fun e => (Z.of_nat n - 1, e.1)) <$> last (take n F)
}.
Record chain_view F (first top : nat) (c : chain) : Prop := {
  cv_bounds : (first < top <= length F)%nat;
  cv_get : forall h, (fun b => (cv_hash b, cv_block b)) <$> bt_get h (blocks (inner c))
                     = if (Z.of_nat first <=? h) && (h <? Z.of_nat top) then lookupZ F h else None;
  cv_by_hash : forall hash h, height_by_hash (inner c) !! hash = Some h
    <-> Z.of_nat first <= h < Z.of_nat top /\ fst <$> lookupZ F h = Some hash;
  cv_tip_height : non_finalized_tip_height (inner c) = Ok (Z.of_nat top - 1);
  cv_tip_hash : Ok (E := Empty_set) <$> (fst <$> F !! pred top) = Some (non_finalized_tip_hash (inner c))
}.
(** The chain connects to the database. *)
Definition view F (n first top : nat) c db : Prop :=
  NoDup F.*1 /\ Z.of_nat (length F) <= Height_MAX + 1 /\ db_view F n db
  /\ match c with
     | Some c => chain_view F first top c /\ (first <= n)%nat
     | None => top = n
     end.

(** What a query can find. *)
Definition known F (n top : nat) : list (bytes * Block) := take (top `max` n) F.

Lemma lookupZ_take {A} (l : list A) n h : lookupZ (take n l) h = if h <? Z.of_nat n then lookupZ l h else None.
Proof.
  unfold lookupZ. destruct (Z.ltb_spec h 0); [by destruct (h <? Z.of_nat n)|]. destruct (Z.ltb_spec h (Z.of_nat n)).
  - apply lookup_take_lt. lia.
  - apply lookup_take_ge. lia.
Qed.

Lemma view_bounds F n first top c db : view F n first top c db -> (top <= length F)%nat.
Proof. intros (_ & _ & D & Hc). destruct c; [destruct Hc as [C _]; apply C|]. rewrite Hc. apply D. Qed.

Lemma lookupZ_is_Some {A} (l : list A) h : is_Some (lookupZ l h) <-> 0 <= h < Z.of_nat (length l).
Proof.
  unfold lookupZ. destruct (Z.ltb_spec h 0).
  - split; [by intros []|lia].
  - rewrite lookup_lt_is_Some. lia.
Qed.

(** The chain first, then the database: the same entry wherever both have one. *)
Lemma view_read {X} (g : bytes * Block -> X) F n first top c db h :
  view F n first top c db ->
  option_or (c ← c; (fun b => g (cv_hash b, cv_block b)) <$> bt_get h (blocks (inner c))) (g <$> lookupZ (take n F) h)
  = g <$> lookupZ (known F n top) h.
Proof.
  intros (_ & _ & D & Hc). unfold known. rewrite !lookupZ_take.
  destruct c as [c|]; cbn [mbind option_bind]; cycle 1.
  { subst top. cbn [option_or]. by rewrite Nat.max_id. }
  destruct Hc as [C Hn].
  assert ((fun b => g (cv_hash b, cv_block b)) <$> bt_get h (blocks (inner c))
          = g <$> ((fun b => (cv_hash b, cv_block b)) <$> bt_get h (blocks (inner c)))) as ->
    by by rewrite <- option_fmap_compose.
  rewrite (cv_get _ _ _ _ C). pose proof (cv_bounds _ _ _ _ C).
  destruct (Z.leb_spec (Z.of_nat first) h), (Z.ltb_spec h (Z.of_nat top)), (Z.ltb_spec h (Z.of_nat n)),
    (Z.ltb_spec h (Z.of_nat (top `max` n))); cbn [andb fmap option_fmap option_map option_or]; try lia; try done.
  - by destruct (proj2 (lookupZ_is_Some F h)) as [e ->]; [lia|].
  - by destruct (lookupZ F h).
Qed.
Lemma view_hash F n first top c db h :
  view F n first top c db -> read_hash_by_height c db h = fst <$> lookupZ (known F n top) h.
Proof.
  intros V. rewrite <- (view_read fst _ _ _ _ _ _ _ V). unfold read_hash_by_height.
  by rewrite (dv_hash _ _ _ (proj1 (proj2 (proj2 V)))).
Qed.
Lemma view_block F n first top c db h :
  view F n first top c db -> read_block c db (Height h) = snd <$> lookupZ (known F n top) h.
Proof.
  intros V. rewrite <- (view_read snd _ _ _ _ _ _ _ V). unfold read_block.
  by rewrite (dv_block _ _ _ (proj1 (proj2 (proj2 V)))).
Qed.
Lemma view_header F n first top c db h :
  view F n first top c db -> read_block_header c db (Height h) = (fun e => block_header e.2) <$> lookupZ (known F n top) h.
Proof.
  intros V. rewrite <- (view_read (fun e => block_header e.2) _ _ _ _ _ _ _ V). unfold read_block_header.
  by rewrite (dv_header _ _ _ (proj1 (proj2 (proj2 V)))).
Qed.

(** The position of a hash in a list of hashes. *)
Definition index_of (hash : bytes) (l : list bytes) : option nat := fst <$> list_find (eq hash) l.
Lemma index_of_Some hash l i : NoDup l -> index_of hash l = Some i <-> l !! i = Some hash.
Proof.
  intros Hl. unfold index_of. split.
  - intros ([j x] & (Hj & <- & _)%list_find_Some & ->)%fmap_Some. done.
  - intros Hi. apply fmap_Some. exists (i, hash). split; [|done]. apply list_find_Some. split_and!; [done|done|].
    intros j y Hj Hlt ->. pose proof (NoDup_lookup _ _ _ _ Hl Hi Hj). lia.
Qed.

Lemma view_nodup F n first top c db : view F n first top c db -> NoDup (known F n top).*1.
Proof. intros (Hnd & _). unfold known. rewrite fmap_take. apply (sublist_NoDup _ F.*1); [done|apply sublist_take]. Qed.

Lemma view_height F n first top c db hash :
  view F n first top c db -> read_height_by_hash c db hash = Z.of_nat <$> index_of hash (known F n top).*1.
Proof.
  intros V. apply option_eq. intros h. transitivity (fst <$> lookupZ (known F n top) h = Some hash).
  2: { rewrite (fmap_Some Z.of_nat). unfold lookupZ. split.
       - intros E. destruct (Z.ltb_spec h 0); [done|]. exists (Z.to_nat h). split; [|lia].
         apply index_of_Some; [by eapply view_nodup|]. by rewrite list_lookup_fmap.
       - intros (i & E%index_of_Some & ->); [|by eapply view_nodup]. destruct (Z.ltb_spec (Z.of_nat i) 0); [lia|].
         by rewrite Nat2Z.id, <- list_lookup_fmap. }
  pose proof V as (Hnd & _ & D & Hc). unfold read_height_by_hash, known. rewrite lookupZ_take.
  destruct c as [c|]; cbn [mbind option_bind]; cycle 1.
  { subst top. cbn [option_or]. rewrite Nat.max_id, (dv_height _ _ _ D), lookupZ_take. done. }
  destruct Hc as [C Hn].
  assert (Hu : forall h h', fst <$> lookupZ F h = Some hash -> fst <$> lookupZ F h' = Some hash -> h = h').
  { intros h1 h2 E1 E2. unfold lookupZ in *. destruct (Z.ltb_spec h1 0); [done|]. destruct (Z.ltb_spec h2 0); [done|].
    rewrite <- list_lookup_fmap in E1, E2. pose proof (NoDup_lookup _ _ _ _ Hnd E1 E2). lia. }
  destruct (height_by_hash (inner c) !! hash) as [h'|] eqn:E; cbn [option_or].
  - apply (cv_by_hash _ _ _ _ C) in E as [Hb E]. split.
    + intros [= <-]. destruct (Z.ltb_spec h' (Z.of_nat (top `max` n))); [done|lia].
    + case_match; [|done]. intros E'. f_equal. eauto.
  - rewrite (dv_height _ _ _ D), lookupZ_take. destruct (Z.ltb_spec h (Z.of_nat n)), (Z.ltb_spec h (Z.of_nat (top `max` n))); try done; try lia.
    split; [done|]. intros Hh. exfalso. rewrite (proj2 (cv_by_hash _ _ _ _ C hash h)) in E; [done|]. split; [lia|done].
Qed.
Lemma view_contains F n first top c db hash :
  view F n first top c db -> chain_contains_hash c db hash = bool_decide (is_Some (index_of hash (known F n top).*1)).
Proof.
  intros V. transitivity (bool_decide (is_Some (read_height_by_hash c db hash))).
  - unfold chain_contains_hash, read_height_by_hash, contains_block_hash, fdb_contains_hash, fdb_height.
    destruct c as [c|]; cbn [mbind option_bind option_or]; [|done].
    by destruct (height_by_hash (inner c) !! hash).
  - rewrite (view_height _ _ _ _ _ _ _ V). apply bool_decide_ext. by rewrite fmap_is_Some.
Qed.
Lemma view_tip_height F n first top c db :
  view F n first top c db -> read_tip_height c db = Ok (if decide (top = 0%nat) then None else Some (Z.of_nat top - 1)).
Proof.
  intros V. pose proof V as (_ & _ & D & Hc). unfold read_tip_height, read_tip. destruct c as [c|].
  - destruct Hc as [C _]. rewrite (cv_tip_height _ _ _ _ C). cbn [mbind res_bind].
    pose proof (cv_tip_hash _ _ _ _ C) as E. apply fmap_Some in E as (hash & _ & ->). cbn [mbind res_bind option_map fst].
    destruct (decide (top = 0%nat)) as [->|]; [|done]. pose proof (cv_bounds _ _ _ _ C). lia.
  - subst top. cbn [mbind res_bind]. rewrite (dv_tip _ _ _ D). pose proof (dv_length _ _ _ D). destruct (decide (n = 0%nat)) as [->|Hn].
    + done.
    + destruct (last (take n F)) eqn:E; [done|]. apply last_None in E. apply (f_equal length) in E.
      rewrite length_take in E. cbn in E. lia.
Qed.

(** ** The Find protocol, on lists *)

(** The heights sent: from after the first known block of the locator, up to
    the stop hash, the tip and the limit, whichever comes first. *)
Definition find_start (hashes locator : list bytes) : nat :=
  match List.find (fun hash => bool_decide (is_Some (index_of hash hashes))) locator ≫= (fun hash => index_of hash hashes) with
  | Some i => S i
  | None => 0
  end.
Definition find_end (hashes : list bytes) (top : nat) (stop : option bytes) : nat :=
  match stop ≫= (fun hash => index_of hash hashes) with Some i => top `min` S i | None => top end.
Definition find_spec {X} (hashes : list bytes) (items : list X) (top : nat) (locator : list bytes) (stop : option bytes) (max_len : Z) : list X :=
  take (Z.to_nat max_len) (drop (find_start hashes locator) (take (find_end hashes top stop) items)).

Lemma index_of_lt hash l i : index_of hash l = Some i -> (i < length l)%nat.
Proof. intros ([j x] & (Hj & _ & _)%list_find_Some & ->)%fmap_Some. by apply lookup_lt_Some in Hj. Qed.
Lemma find_start_le hashes locator : (find_start hashes locator <= length hashes)%nat.
Proof.
  unfold find_start. destruct (List.find _ _) as [hash|]; cbn [mbind option_bind]; [|lia].
  destruct (index_of hash hashes) eqn:E; [|lia]. apply index_of_lt in E. lia.
Qed.
Lemma find_end_le hashes top stop : (find_end hashes top stop <= top)%nat.
Proof. unfold find_end. case_match; lia. Qed.

Lemma find_intersection_view F n first top c db locator :
  view F n first top c db ->
  find_chain_intersection c db locator
  = List.find (fun hash => bool_decide (is_Some (index_of hash (known F n top).*1))) locator.
Proof.
  intros V. unfold find_chain_intersection.
  assert (forall p q : bytes -> bool, (forall x, p x = q x) -> List.find p locator = List.find q locator) as Hext.
  { intros p q Hpq. induction locator as [|x l IH]; [done|]. cbn [List.find]. rewrite Hpq. by destruct (q x). }
  rewrite (Hext _ _ (fun hash => view_contains _ _ _ _ _ _ hash V)).
  destruct (is_none c && fdb_is_empty db) eqn:E; [|done]. apply andb_true_iff in E as [Hc He].
  destruct c; [done|]. pose proof V as (_ & _ & D & ->).
  assert (n = 0%nat) as ->.
  { pose proof (dv_tip _ _ _ D) as Ht. pose proof (dv_length _ _ _ D). unfold fdb_tip, fdb_is_empty in *.
    destruct (cf_hash_by_height (block_cf db)); [|done]. cbn in Ht. destruct (last (take n F)) eqn:El; [done|].
    apply last_None, (f_equal length) in El. rewrite length_take in El. cbn in El. lia. }
  clear. induction locator as [|x l IH]; [done|]. exact IH.
Qed.

(** The end of a range: the limit, the tip and the stop hash. *)
Lemma height_range_end F n first top c db (start : nat) stop max_len :
  view F n first top c db -> 1 <= max_len -> top <> 0%nat ->
  let hashes := (known F n top).*1 in
  let final_height := Z.min (Z.of_nat start + max_len - 1) (Z.of_nat top - 1) in
  let final_height := match stop ≫= read_height_by_hash c db with
                      | Some stop_height => Z.min final_height stop_height
                      | None => final_height
                      end in
  range_count (Z.of_nat start, final_height) = Z.of_nat (Z.to_nat max_len `min` (find_end hashes top stop - start)).
Proof.
  intros V Hm Htop hashes. unfold range_count, find_end. cbn [fst snd].
  destruct stop as [stop|]; cbn [mbind option_bind]; [|lia]. rewrite (view_height _ _ _ _ _ _ _ V). fold hashes.
  destruct (index_of stop hashes); cbn [fmap option_fmap option_map]; lia.
Qed.
Lemma height_range_view F n first top c db locator stop max_len :
  view F n first top c db -> 1 <= max_len <= 2 ^ 31 ->
  let hashes := (known F n top).*1 in
  let start := find_start hashes locator in
  exists r, find_chain_height_range c db (find_chain_intersection c db locator) stop max_len = Ok r
    /\ range_heights r = seqZ (Z.of_nat start) (Z.of_nat (Z.to_nat max_len `min` (find_end hashes top stop - start))).
Proof.
  intros V Hm hashes start. unfold find_chain_height_range. rewrite (proj2 (Z.ltb_lt 0 max_len)) by lia.
  cbn [assert_ mbind res_bind]. rewrite (view_tip_height _ _ _ _ _ _ V), (find_intersection_view _ _ _ _ _ _ _ V).
  cbn [mbind res_bind]. fold hashes. pose proof (find_end_le hashes top stop).
  assert (Hl : (length hashes <= length F)%nat). { unfold hashes, known. rewrite length_fmap, length_take. lia. }
  assert (Z.of_nat (length F) <= 2 ^ 31) by apply V.
  destruct (decide (top = 0%nat)) as [Htop|Htop].
  { eexists. split; [done|]. by replace (_ `min` _)%nat with 0%nat by lia. }
  pose proof (height_range_end _ _ _ _ _ _ start stop _ V (proj1 Hm) Htop) as Hr. cbn zeta in Hr. fold hashes in Hr.
  assert (Hc : range_count (Z.of_nat start, match stop ≫= read_height_by_hash c db with
      | Some stop_height => Z.min (Z.min (Z.of_nat start + max_len - 1) (Z.of_nat top - 1)) stop_height
      | None => Z.min (Z.of_nat start + max_len - 1) (Z.of_nat top - 1) end) <= max_len) by (rewrite Hr; lia).
  apply Z.leb_le in Hc. unfold start, find_start in *.
  destruct (List.find _ locator) as [hash|] eqn:E; cbn [mbind option_bind] in *.
  - apply find_some in E as [_ [i Hi]%bool_decide_eq_true]. rewrite (view_height _ _ _ _ _ _ _ V). fold hashes.
    rewrite Hi in *. cbn [fmap option_fmap option_map]. apply index_of_lt in Hi.
    assert (i < length F)%nat by (eapply Nat.lt_le_trans; eassumption). rewrite !arith_u_in by lia. cbn [mbind res_bind].
    replace (Z.of_nat i + 1) with (Z.of_nat (S i)) by lia. replace (Z.of_nat i + max_len) with (Z.of_nat (S i) + max_len - 1) by lia.
    rewrite Hc. eexists. split; [done|]. unfold range_heights. by rewrite Hr.
  - rewrite arith_u_in by lia. cbn [mbind res_bind].
    change (Z.of_nat 0) with 0 in *. rewrite Z.add_0_l in Hc, Hr. rewrite Hc.
    eexists. split; [done|]. unfold range_heights. by rewrite Hr.
Qed.

Lemma map_while_lookupZ {A X} (g : A -> X) (l : list A) (start count : nat) :
  (start + count <= length l)%nat ->
  map_while (fun h => g <$> lookupZ l h) (seqZ (Z.of_nat start) (Z.of_nat count)) = g <$> take count (drop start l).
Proof.
  revert start. induction count as [|k IH]; intros start Hl.
  { by rewrite take_0. }
  rewrite seqZ_cons by lia. cbn [map_while]. replace (Z.succ _) with (Z.of_nat (S start)) by lia.
  replace (Z.pred _) with (Z.of_nat k) by lia. rewrite IH by lia.
  destruct (lookup_lt_is_Some_2 l start) as [x Hx]; [lia|]. rewrite (drop_S _ _ _ Hx).
  unfold lookupZ. rewrite (proj2 (Z.ltb_ge _ 0)), Nat2Z.id, Hx by lia. done.
Qed.
Lemma map_while_ext {A X} (f g : A -> option X) l : (forall a, f a = g a) -> map_while f l = map_while g l.
Proof. intros E. induction l as [|a l IH]; [done|]. cbn [map_while]. by rewrite E, IH. Qed.
Lemma elem_of_removelast {A} (x : A) l : x ∈ removelast l -> exists j, (S j < length l)%nat /\ l !! j = Some x.
Proof.
  induction l as [|a l IH] using rev_ind; [by intros ?%not_elem_of_nil|]. rewrite removelast_last.
  intros [j Hj]%list_elem_of_lookup. exists j. pose proof (lookup_lt_Some _ _ _ Hj). rewrite length_app. cbn.
  split; [lia|]. by apply lookup_app_l_Some.
Qed.

(** The items of the heights that are sent. *)
Lemma find_spec_range {X} (g : bytes * Block -> X) F n top locator stop max_len :
  let hashes := (known F n top).*1 in
  let start := find_start hashes locator in
  (top <= length F)%nat ->
  map_while (fun h => g <$> lookupZ (known F n top) h)
    (seqZ (Z.of_nat start) (Z.of_nat (Z.to_nat max_len `min` (find_end hashes top stop - start))))
  = find_spec hashes (g <$> known F n top) top locator stop max_len.
Proof.
  intros hashes start Htop. pose proof (find_end_le hashes top stop). pose proof (find_start_le hashes locator) as Hs.
  fold start in Hs. unfold hashes in Hs. rewrite length_fmap in Hs.
  assert (Hk : (top <= length (known F n top))%nat) by (unfold known; rewrite length_take; lia).
  rewrite map_while_lookupZ by lia. unfold find_spec. fold start.
  rewrite <- fmap_take, <- fmap_drop, <- fmap_take. f_equal. rewrite <- take_take. f_equal. by rewrite skipn_firstn_comm.
Qed.
Lemma find_spec_lookup {X} hashes (items : list X) top locator stop max_len j x :
  find_spec hashes items top locator stop max_len !! j = Some x ->
  items !! (find_start hashes locator + j)%nat = Some x /\ (find_start hashes locator + j < find_end hashes top stop)%nat
  /\ (length (find_spec hashes items top locator stop max_len) <= find_end hashes top stop - find_start hashes locator)%nat.
Proof.
  unfold find_spec. intros [Hj Hlt]%lookup_take_Some. rewrite lookup_drop in Hj. apply lookup_take_Some in Hj as [Hj ?].
  split_and!; [done|done|]. rewrite length_take, length_drop, length_take. lia.
Qed.
(** The assertions of [collect_chain_hashes]. *)
Lemma find_spec_asserts hashes top locator stop max_len :
  NoDup hashes ->
  match List.find (fun hash => bool_decide (is_Some (index_of hash hashes))) locator with
  | Some hash => negb (bool_decide (hash ∈ find_spec hashes hashes top locator stop max_len)) | None => true end = true
  /\ match stop with
     | Some stop' => negb (bool_decide (stop' ∈ removelast (find_spec hashes hashes top locator stop max_len)))
     | None => true end = true.
Proof.
  intros Hnd. split.
  - destruct (List.find _ locator) as [hash|] eqn:E; [|done]. apply negb_true_iff, bool_decide_eq_false.
    intros [j Hj]%list_elem_of_lookup. apply find_spec_lookup in Hj as (Hj & _).
    unfold find_start in Hj. rewrite E in Hj. cbn [mbind option_bind] in Hj.
    apply find_some in E as [_ [i Hi]%bool_decide_eq_true]. rewrite Hi in Hj. apply index_of_Some in Hi; [|done].
    pose proof (NoDup_lookup _ _ _ _ Hnd Hi Hj). lia.
  - destruct stop as [stop|]; [|done]. apply negb_true_iff, bool_decide_eq_false.
    intros (j & Hlt & Hj)%elem_of_removelast. apply find_spec_lookup in Hj as (Hj & _ & Hlen).
    unfold find_end in Hlen. cbn [mbind option_bind] in Hlen.
    apply (index_of_Some _ _ _ Hnd) in Hj. rewrite Hj in Hlen. lia.
Qed.

(** The answers to the [getblocks] and [getheaders] queries, for a chain
    snapshot and a database that agree on one chain of blocks: the hashes and
    the headers of consecutive blocks from after the first locator hash that
    is known (from genesis, when none is), up to and including the stop hash
    when it is known, up to the tip, and at most [max_len] of them. The
    assertions on the answer never fail and the height arithmetic stays in
    range. *)
Lemma find_chain_view F n first top c db locator stop max_len :
  view F n first top c db -> 1 <= max_len <= 2 ^ 31 ->
  let hashes := (known F n top).*1 in
  let headers := (fun e => block_header e.2) <$> known F n top in
  find_chain_hashes c db locator stop max_len = Ok (find_spec hashes hashes top locator stop max_len)
  /\ find_chain_headers c db locator stop max_len = Ok (find_spec hashes headers top locator stop max_len).
Proof.
  intros V Hm hashes headers. destruct (height_range_view _ _ _ _ _ _ locator stop _ V Hm) as (r & Hr & Hrange).
  pose proof (view_bounds _ _ _ _ _ _ V) as Htop. unfold find_chain_hashes, find_chain_headers, collect_chain_hashes, collect_chain_headers.
  rewrite Hr. cbn [mbind res_bind]. rewrite Hrange.
  rewrite (map_while_ext _ _ _ (fun h => view_hash _ _ _ _ _ _ h V)), (map_while_ext _ _ _ (fun h => view_header _ _ _ _ _ _ h V)).
  rewrite !find_spec_range by done. split; [|done]. rewrite (find_intersection_view _ _ _ _ _ _ _ V).
  destruct (find_spec_asserts hashes top locator stop max_len (view_nodup _ _ _ _ _ _ V)) as [H1' H2'].
  fold hashes. rewrite H1', H2'. done.
Qed.

(** ** Ancestors *)

Lemma view_drop_chain F n first top (c : chain) db (h : nat) :
  view F n first top (Some c) db -> (h < top `max` n)%nat -> contains_block_height (inner c) (Z.of_nat h) = false ->
  view F n first n None db /\ (h < n)%nat.
Proof.
  intros (Hnd & Hmax & D & C & Hn) Hh Hc. split; [done|]. unfold contains_block_height in Hc.
  pose proof (cv_get _ _ _ _ C (Z.of_nat h)) as G. destruct (bt_get _ _); [done|]. cbn in G. pose proof (cv_bounds _ _ _ _ C).
  destruct (Z.leb_spec (Z.of_nat first) (Z.of_nat h)), (Z.ltb_spec (Z.of_nat h) (Z.of_nat top)); cbn [andb] in G; try lia.
  symmetry in G. apply eq_None_not_Some in G. destruct G. apply lookupZ_is_Some. lia.
Qed.
Lemma known_lookup F n first top c db (h : nat) :
  view F n first top c db -> (h < top `max` n)%nat -> lookupZ (known F n top) (Z.of_nat h) = F !! h.
Proof.
  intros V Hh. unfold known. rewrite lookupZ_take, (proj2 (Z.ltb_lt _ _)) by lia. unfold lookupZ.
  by rewrite (proj2 (Z.ltb_ge _ 0)), Nat2Z.id by lia.
Qed.
(** One step of the iterator. *)
Lemma iter_step F n first top c db (h : nat) :
  view F n first top c db -> (h < top `max` n)%nat ->
  exists c' top', yield_by_height db (mkIter c (Some (Z.of_nat h)))
    = (snd <$> F !! h, mkIter c' (match h with O => None | S h => Some (Z.of_nat h) end))
    /\ (h <> 0%nat -> view F n first top' c' db /\ (pred h < top' `max` n)%nat).
Proof.
  intros V Hh. pose proof (view_bounds _ _ _ _ _ _ V) as Htop. unfold yield_by_height. cbn [iter_height iter_chain].
  rewrite (view_block _ _ _ _ _ _ _ V), (known_lookup _ _ _ _ _ _ _ V Hh). destruct h as [|h].
  { exists None, top. split; [by destruct c|done]. }
  assert (ok_option (height_previous (Z.of_nat (S h))) = Some (Z.of_nat h)) as ->.
  { rewrite height_previous_spec.
    - rewrite (proj2 (Z.ltb_lt _ _)) by lia. cbn [ok_option]. f_equal. lia.
    - destruct V as (_ & Hmax & D & _). pose proof Htop. pose proof (dv_length _ _ _ D). unfold valid_height, Height_MIN. lia. }
  destruct c as [c|].
  - destruct (contains_block_height (inner c) (Z.of_nat h)) eqn:E.
    + do 2 eexists. split; [done|]. intros _. split; [done|]. cbn. lia.
    + destruct (view_drop_chain _ _ _ _ _ _ h V) as [V' ?]; [lia|done|]. do 2 eexists. split; [done|]. intros _. split; [done|]. cbn. lia.
  - do 2 eexists. split; [done|]. intros _. split; [done|]. cbn. lia.
Qed.
Lemma iter_take_None k db c : iter_take k db (mkIter c None) = [].
Proof. by destruct k. Qed.
Lemma iter_take_view k F n first top c db (h : nat) :
  view F n first top c db -> (h < top `max` n)%nat ->
  iter_take k db (mkIter c (Some (Z.of_nat h))) = take k (reverse (take (S h) F.*2)).
Proof.
  revert top c h. induction k as [|k IH]; intros top c h V Hh; [done|]. cbn [iter_take].
  destruct (iter_step _ _ _ _ _ _ _ V Hh) as (c' & top' & -> & Hnext).
  pose proof (view_bounds _ _ _ _ _ _ V). pose proof (dv_length _ _ _ (proj1 (proj2 (proj2 V)))).
  destruct (lookup_lt_is_Some_2 F h) as [e He]; [lia|]. rewrite He. cbn [fmap option_fmap option_map].
  rewrite (take_S_r F.*2 h e.2) by by rewrite list_lookup_fmap, He. rewrite reverse_snoc. cbn [take]. f_equal.
  destruct h as [|h].
  - rewrite iter_take_None. by destruct k.
  - destruct Hnext as [V' Hh']; [done|]. exact (IH _ _ _ V' Hh').
Qed.

(** The ancestors of a known block end at genesis: from a hash at height
    [h] the iterator returns the [h + 1] blocks of the heights [h], [h - 1],
    ..., 0, in that order and nothing after them, whatever part of them has
    moved from the snapshot to the database, and the length it announces is
    their number. *)
Theorem ancestors_reach_genesis F n first top c db hash (h : nat) b :
  view F n first top c db -> known F n top !! h = Some (hash, b) ->
  let it := known_chain_ancestor_iter c db (Hash hash) in
  iter_len it = Z.of_nat (S h)
  /\ forall m, iter_take m db it = take m (reverse (take (S h) F.*2)).
Proof.
  intros V Hh it. assert (it = mkIter c (Some (Z.of_nat h))) as ->.
  { unfold it, known_chain_ancestor_iter. rewrite (view_height _ _ _ _ _ _ _ V).
    rewrite (proj2 (index_of_Some hash _ h (view_nodup _ _ _ _ _ _ V))); [done|]. by rewrite list_lookup_fmap, Hh. }
  split; [unfold iter_len; cbn [iter_height]; lia|]. intros m. eapply iter_take_view; [exact V|].
  apply lookup_lt_Some in Hh. unfold known in Hh. rewrite length_take in Hh. lia.
Qed.

(** The depth of a known block is its distance from the tip of the
    snapshot when it is not above that tip. When the database has a block
    above the tip, which concurrent commits allow, the subtraction underflows:
    a build with overflow checks panics, and one without answers a depth
    close to 2^32. *)
Theorem depth_exact F n first top c db hash (h : nat) b :
  view F n first top c db -> top <> 0%nat -> known F n top !! h = Some (hash, b) ->
  depth c db hash
  = if decide (h < top)%nat then Ok (Some (Z.of_nat top - 1 - Z.of_nat h))
    else if overflow_checks then Panic
    else Ok (Some (2 ^ 32 + Z.of_nat top - 1 - Z.of_nat h)).
Proof.
  intros V Htop Hh. unfold depth. rewrite (view_tip_height _ _ _ _ _ _ V). cbn [mbind res_bind].
  destruct (decide (top = 0%nat)); [done|]. rewrite (view_height _ _ _ _ _ _ _ V).
  rewrite (proj2 (index_of_Some hash _ h (view_nodup _ _ _ _ _ _ V))) by by rewrite list_lookup_fmap, Hh.
  cbn [fmap option_fmap option_map]. pose proof (view_bounds _ _ _ _ _ _ V).
  assert (Z.of_nat (length F) <= 2 ^ 31) by apply V.
  apply lookup_lt_Some in Hh. unfold known in Hh. rewrite length_take in Hh.
  destruct (decide (h < top)%nat).
  - by rewrite arith_u_in by lia.
  - unfold arith_u, in_range. rewrite (proj2 (Z.leb_gt _ _)) by lia. cbn [andb].
    destruct overflow_checks; [done|]. cbn [mbind res_bind]. do 2 f_equal. unfold as_unsigned.
    rewrite <- (Z.mod_add _ 1) by lia. rewrite Z.mod_small by lia. lia.
Qed.

(** ** Represented states *)

Definition db_entry (b : @FinalizedBlock SproutT SaplingT OrchardT HistoryT) : bytes * Block := (fb_hash b, fb_block b).
Definition chain_entry (b : ContextuallyVerifiedBlock) : bytes * Block := (cv_hash b, cv_block b).

Lemma bt_get_consecutive {A V} (f : A -> V) (l : list A) (start h : Z) :
  bt_get h (imap (fun i a => (start + Z.of_nat i, f a)) l) = f <$> lookupZ l (h - start).
Proof.
  revert start. induction l as [|a l IH]; intros start.
  { cbn. by rewrite lookupZ_None by (cbn; lia). }
  cbn [imap bt_get]. rewrite Z.add_0_r. destruct (Z.eqb_spec h start) as [->|Hne].
  { by rewrite Z.sub_diag. }
  rewrite (imap_ext _ (fun i b => (start + 1 + Z.of_nat i, f b))) by (intros; unfold compose; f_equal; lia).
  rewrite IH. unfold lookupZ. destruct (Z.ltb_spec (h - (start + 1)) 0), (Z.ltb_spec (h - start) 0); try lia; try done.
  by replace (Z.to_nat (h - start)) with (S (Z.to_nat (h - (start + 1)))) by lia.
Qed.
Lemma db_view_repr F db bs : blocks_repr (block_cf db) bs -> take (length bs) F = db_entry <$> bs -> db_view F (length bs) db.
Proof.
  intros R E. split.
  - apply (f_equal length) in E. rewrite length_take, length_fmap in E. lia.
  - intros h. rewrite E, lookupZ_fmap. unfold fdb_hash. rewrite (br_hashes _ _ R).
    change (imap _ bs) with (imap (fun i b => (0 + Z.of_nat i, fb_hash b)) bs). rewrite bt_get_consecutive, Z.sub_0_r.
    by destruct (lookupZ bs h).
  - intros hash h. rewrite E, lookupZ_fmap. unfold fdb_height. rewrite (br_height _ _ R).
    destruct (lookupZ bs h); cbn; naive_solver.
  - intros h. rewrite E, lookupZ_fmap, (fdb_block_spec _ _ _ R). by destruct (lookupZ bs h).
  - intros h. rewrite E, lookupZ_fmap. unfold fdb_block_header. cbn. rewrite (br_header _ _ R). by destruct (lookupZ bs h).
  - rewrite E, (fdb_tip_spec _ _ R), fmap_last. by destruct (last bs).
Qed.

(** The blocks of the chain, at the heights from [first] on. *)
Lemma chain_view_repr `{!NoteTreeLaws SproutT} F first (c : chain) cbs :
  chain_repr c cbs -> cbs <> [] -> take (length cbs) (drop first F) = chain_entry <$> cbs ->
  (forall i b, cbs !! i = Some b -> cv_height b = Z.of_nat first + Z.of_nat i) -> NoDup F.*1 ->
  chain_view F first (first + length cbs) c.
Proof.
  intros R Hne E Hh Hnd.
  assert (HF : forall h, Z.of_nat first <= h < Z.of_nat (first + length cbs) -> lookupZ F h = chain_entry <$> lookupZ cbs (h - Z.of_nat first)).
  { intros h Hb. unfold lookupZ. rewrite !(proj2 (Z.ltb_ge _ 0)) by lia.
    rewrite <- list_lookup_fmap, <- E, lookup_take_lt, lookup_drop by lia. f_equal. lia. }
  assert (Hlen : (first + length cbs <= length F)%nat).
  { apply (f_equal length) in E. rewrite length_take, length_drop, length_fmap in E. destruct cbs; [done|]. cbn [length] in *. lia. }
  assert (Hb : blocks (inner c) = imap (fun i b => (Z.of_nat first + Z.of_nat i, b)) cbs).
  { rewrite (ir_blocks _ _ _ (cr_inner _ _ R)). apply list_eq. intros i. rewrite list_lookup_fmap, list_lookup_imap.
    destruct (cbs !! i) eqn:Ei; [|done]. cbn. by rewrite (Hh _ _ Ei). }
  split.
  - destruct cbs; [done|]. cbn [length] in *. lia.
  - intros h. rewrite Hb, (bt_get_consecutive (fun b => b)). destruct (Z.leb_spec (Z.of_nat first) h), (Z.ltb_spec h (Z.of_nat (first + length cbs)));
      cbn [andb]; try (rewrite lookupZ_None by lia; done). rewrite HF by lia. by destruct (lookupZ cbs _).
  - intros hash h. rewrite (height_by_hash_repr c cbs) by done. split.
    + intros (b & [i Hi]%list_elem_of_lookup & <- & <-). rewrite (Hh _ _ Hi). pose proof (lookup_lt_Some _ _ _ Hi). split; [lia|].
      rewrite HF by lia. replace (_ - _) with (Z.of_nat i) by lia. by rewrite lookupZ_nat, Hi.
    + intros [Hhb Hx]. rewrite HF in Hx by lia. destruct (lookupZ cbs (h - Z.of_nat first)) as [b|] eqn:Eb; [|done].
      apply lookupZ_Some in Eb as (i & Hi & Eb). exists b. split_and!; [by eapply list_elem_of_lookup_2|by injection Hx|].
      rewrite (Hh _ _ Eb). lia.
  - destruct cbs as [|b cbs _] using rev_ind; [done|]. rewrite (tip_height_repr _ _ _ R). f_equal.
    rewrite (Hh (length cbs) b) by by rewrite lookup_app_r, Nat.sub_diag. rewrite length_app. cbn. lia.
  - destruct cbs as [|b cbs _] using rev_ind; [done|]. rewrite (tip_hash_repr _ _ _ R).
    rewrite length_app in *. cbn [length] in *. pose proof (HF (Z.of_nat (first + length cbs)%nat)) as Hx.
    rewrite lookupZ_nat in Hx. replace (pred _) with (first + length cbs)%nat by lia. rewrite Hx by lia.
    replace (_ - _) with (Z.of_nat (length cbs)) by lia. by rewrite lookupZ_nat, lookup_app_r, Nat.sub_diag.
Qed.
End StateRead.

(** ** Examples *)

(** A database with two blocks, and a chain with the second of them and one
    more. *)
Module ReadExample.
#[local] Existing Instance Example.tree.
#[local] Existing Instance Example.subtree.
#[local] Existing Instance Example.tree_laws.
#[local] Existing Instance Example.history.
#[local] Existing Instance Example.context.
#[local] Existing Instance FinExample.empty_tree.
#[local] Existing Instance FinExample.stored_history.
#[local] Existing Instance FinExample.history_root.
#[local] Existing Instance FinExample.commitments.
#[local] Existing Instance release_build.
Import Example FinExample.

Definition block_at_1 : ContextuallyVerifiedBlock :=
  match FinExample.first with Contextual b _ => b | Checkpoint _ => block1 end.
Definition block_at_2 : ContextuallyVerifiedBlock :=
  mkContextuallyVerifiedBlock (mkBlock (header_after [Byte.xb1]) [coinbase 2 []]) [Byte.xd2] 2
    {[ mkOutPoint [Byte.xc4] 0 := miner_output 2 ]} ∅ [[Byte.xc4]] (from_transparent_amount 5).
Definition start : chain := get empty_chain (Chain_new Mainnet 0 [] [] [] 0%nat value_balance_zero).
Definition chain_at_1 : chain := get empty_chain (push start block_at_1).
Definition chain_at_2 : chain := get empty_chain (push chain_at_1 block_at_2).

Ltac follow_read_example :=
  split;
    [ match goal with |- heights_chain (_ <$> ?l) => apply (ReprExample.heights_chain_seq (length l) 1) end; vm_compute; discriminate
    | try done
    | repeat split; vm_compute; discriminate
    | intros a; apply ReprExample.small_volume; [|cbn; lia] ].
Lemma small_at_1 : small_ops (example_ops block_at_1).
Proof. vm_compute example_ops. intros a. cbn. case_decide; cbn; lia. Qed.
Lemma small_at_2 : small_ops (example_ops block_at_2).
Proof. vm_compute example_ops. intros a. cbn. case_decide; cbn; lia. Qed.

Lemma start_repr : chain_repr start [] /\ chain_network start = Mainnet /\ starts_below 1 (inner start).
Proof.
  destruct (Chain_new_repr Mainnet 0 [] [] [] 0%nat value_balance_zero) as (c & Hc & Hrep & Hn & Hs).
  - split; vm_compute; discriminate.
  - repeat split; vm_compute; discriminate.
  - assert (start = c) as -> by (unfold start; rewrite Hc; reflexivity).
    split; [exact Hrep|]. split; [exact Hn|]. apply Hs. lia.
Qed.
Lemma at_1_repr : chain_repr chain_at_1 [block_at_1] /\ chain_network chain_at_1 = Mainnet.
Proof.
  destruct start_repr as (Hrep & Hn & Hs). rewrite <- Hn. apply (push_repr start [] block_at_1 chain_at_1 Hrep).
  - follow_read_example. repeat constructor; apply small_at_1.
  - apply (get_ok empty_chain (push start block_at_1)). vm_compute. reflexivity.
Qed.
Lemma at_2_repr : chain_repr chain_at_2 [block_at_1; block_at_2].
Proof.
  destruct at_1_repr as [Hrep Hn]. apply (push_repr chain_at_1 [block_at_1] block_at_2 chain_at_2 Hrep).
  - follow_read_example. repeat constructor; apply small_at_1 || apply small_at_2.
  - apply (get_ok empty_chain (push chain_at_1 block_at_2)). vm_compute. reflexivity.
Qed.

Definition entries : list (bytes * Block) :=
  [db_entry (block_of genesis); chain_entry block_at_1; chain_entry block_at_2].
Lemma overlapping_view : view entries 2 1 3 (Some chain_at_2) db2.
Proof.
  split; [by apply (bool_decide_unpack (NoDup entries.*1)); vm_compute|]. split; [vm_compute; discriminate|]. split.
  - destruct (committed_repr _ _ committed2) as [[R _ _ _ _] _]. apply (db_view_repr entries db2 _ R). reflexivity.
  - split; [|lia]. apply (chain_view_repr entries 1 chain_at_2 [block_at_1; block_at_2] at_2_repr); try done.
    + intros [|[|i]] b; [intros [= <-]; reflexivity..|done].
    + by apply (bool_decide_unpack (NoDup entries.*1)); vm_compute.
Qed.

(** The database has a block above the tip of the chain. *)
Definition entries_ahead : list (bytes * Block) := db_entry <$> [block_of genesis; block_of FinExample.first; block_of second].
Lemma ahead_view : view entries_ahead 3 1 2 (Some chain_at_1) db3.
Proof.
  split; [by apply (bool_decide_unpack (NoDup entries_ahead.*1)); vm_compute|]. split; [vm_compute; discriminate|]. split.
  - destruct (committed_repr _ _ committed3) as [[R _ _ _ _] _]. apply (db_view_repr entries_ahead db3 _ R). reflexivity.
  - split; [|lia]. apply (chain_view_repr entries_ahead 1 chain_at_1 [block_at_1] (proj1 at_1_repr)); try done.
    + intros [|i] b; [intros [= <-]; reflexivity|done].
    + by apply (bool_decide_unpack (NoDup entries_ahead.*1)); vm_compute.
Qed.

Lemma ancestors_reach_genesis_witness :
  iter_take 11 db2 (known_chain_ancestor_iter (Some chain_at_2) db2 (Hash [Byte.xd2]))
  = [cv_block block_at_2; cv_block block_at_1; fb_block (block_of genesis)].
Proof.
  destruct (ancestors_reach_genesis _ _ _ _ _ _ [Byte.xd2] 2 (cv_block block_at_2) overlapping_view) as [_ E]; [reflexivity|].
  exact (E 11%nat).
Defined.

Lemma depth_exact_witness : depth (Some chain_at_1) db3 [Byte.xb2] = Ok (Some (2 ^ 32 - 1)).
Proof. exact (depth_exact _ _ _ _ _ _ [Byte.xb2] 2 _ ahead_view ltac:(lia) ltac:(reflexivity)). Defined.
End ReadExample.
