(* ===== verification/ChainTip.v ===== *)
(** The best chain tip and its observers
    ([zebra-state/src/service/chain_tip.rs] and
    [zebra-state/src/service/watch_receiver.rs]).

    A [watch] channel keeps the last value that was sent and a version, which
    a receiver compares with the version it has seen. *)
From S2P Require Import Prelude NetworkUpgrade BlockHeader Transaction ChainIndexes Chain ContextChecks.
From stdpp Require Import strings gmap prelude.
From Stdlib Require Import ZArith Lia.
#[local] Open Scope Z_scope.

(** ** Watch channels *)

Record watch (A : Type) := mkWatch { watch_value : A; watch_version : nat; has_receivers : bool; is_closed : bool }.
Arguments mkWatch {A} _ _ _ _.
Arguments watch_value {A} _.
Arguments watch_version {A} _.
Arguments has_receivers {A} _.
Arguments is_closed {A} _.

(** Without a receiver the value is not stored, and the error is ignored. *)
Definition watch_send {A} (w : watch A) (a : A) : watch A :=
  if has_receivers w then mkWatch a (S (watch_version w)) (has_receivers w) (is_closed w) else w.

(** ** The sender *)

Record ChainTipBlock := mkChainTipBlock {
  ctb_hash : bytes;
  ctb_height : Z;
  ctb_time : Z;
  ctb_transactions : list Transaction;
  ctb_transaction_hashes : list bytes;
  ctb_previous_block_hash : bytes
}.
Definition tip_of_contextual (b : ContextuallyVerifiedBlock) : ChainTipBlock :=
  mkChainTipBlock (cv_hash b) (cv_height b) (time (block_header (cv_block b))) (transactions (cv_block b))
    (cv_transaction_hashes b) (previous_block_hash (block_header (cv_block b))).
Definition tip_of_semantic (b : SemanticallyVerifiedBlock) : ChainTipBlock :=
  mkChainTipBlock (sv_hash b) (sv_height b) (time (block_header (sv_block b))) (transactions (sv_block b))
    (sv_transaction_hashes b) (previous_block_hash (block_header (sv_block b))).

Record ChainTipSender := mkChainTipSender { use_non_finalized_tip : bool; sender : watch (option ChainTipBlock) }.

Definition sender_update (s : ChainTipSender) (new_tip : option ChainTipBlock) : ChainTipSender :=
  let active_hash := ctb_hash <$> watch_value (sender s) in
  let needs_update := match new_tip, active_hash with
                      | Some new_tip, Some active_hash => negb (bool_decide (ctb_hash new_tip = active_hash))
                      | Some _, None => true
                      | None, _ => false
                      end in
  if needs_update then mkChainTipSender (use_non_finalized_tip s) (watch_send (sender s) new_tip) else s.
Definition set_finalized_tip (s : ChainTipSender) (new_tip : option ChainTipBlock) : ChainTipSender :=
  if use_non_finalized_tip s then s else sender_update s new_tip.
Definition set_best_non_finalized_tip (s : ChainTipSender) (new_tip : option ChainTipBlock) : ChainTipSender :=
  match new_tip with
  | Some _ => sender_update (mkChainTipSender true (sender s)) new_tip
  | None => s
  end.
Definition finalized_sender (s : ChainTipSender) : ChainTipSender := mkChainTipSender false (sender s).
Definition ChainTipSender_new (initial_tip : option ChainTipBlock) : ChainTipSender :=
  sender_update (mkChainTipSender false (mkWatch None 0 true false)) initial_tip.

(** ** The observer *)

Inductive TipAction : Type :=
| Grow (block : ChainTipBlock)
| Reset_to (height : Z) (hash : bytes).
Definition best_tip_hash (a : TipAction) : bytes := match a with Grow block => ctb_hash block | Reset_to _ hash => hash end.
Definition best_tip_height (a : TipAction) : Z := match a with Grow block => ctb_height block | Reset_to height _ => height end.
Definition is_reset (a : TipAction) : bool := match a with Reset_to _ _ => true | Grow _ => false end.

Record ChainTipChange := mkChainTipChange {
  seen_version : nat;
  last_change_hash : option bytes;
  tip_network : Network
}.
Implicit Types (w : watch (option ChainTipBlock)) (c : ChainTipChange).
Definition ChainTipChange_new (network : Network) : ChainTipChange := mkChainTipChange 0 None network.
Definition clone_change c : ChainTipChange := mkChainTipChange (seen_version c) None (tip_network c).

(** The tip, when it is not the one that was last returned. *)
Definition changed_tip w c : option ChainTipBlock :=
  block ← watch_value w;
  if bool_decide (Some (ctb_hash block) = last_change_hash c) then None else Some block.

Definition action c (block : ChainTipBlock) : outcome TipAction :=
  _ ← assert_ (negb (bool_decide (Some (ctb_hash block) = last_change_hash c)));
  Ok (if negb (bool_decide (Some (ctb_previous_block_hash block) = last_change_hash c))
         || is_activation_height (tip_network c) (ctb_height block)
      then Reset_to (ctb_height block) (ctb_hash block)
      else Grow block).
Definition returned c (block : ChainTipBlock) : ChainTipChange :=
  mkChainTipChange (seen_version c) (Some (ctb_hash block)) (tip_network c).

Definition last_tip_change w c : outcome (option TipAction * ChainTipChange) :=
  match changed_tip w c with
  | None => Ok (None, c)
  | Some block => a ← action c block; Ok (Some a, returned c block)
  end.

(** [wait_for_tip_change], polled: the channel is pending until its version
    differs from the one that was seen, which happens at most once while the
    channel does not change. *)
Inductive Poll (A : Type) : Type := Pending | RecvError | Ready (a : A).
Arguments Pending {A}.
Arguments RecvError {A}.
Arguments Ready {A} _.
Definition changed_mark w c : Poll ChainTipChange :=
  if (watch_version w =? seen_version c)%nat then (if is_closed w then RecvError else Pending)
  else Ready (mkChainTipChange (watch_version w) (last_change_hash c) (tip_network c)).
Fixpoint tip_block_change (fuel : nat) w c : Poll ChainTipBlock * ChainTipChange :=
  match fuel with
  | O => (Pending, c)
  | S fuel =>
      match changed_mark w c with
      | Pending => (Pending, c)
      | RecvError => (RecvError, c)
      | Ready c => match changed_tip w c with
                   | Some block => (Ready block, c)
                   | None => tip_block_change fuel w c
                   end
      end
  end.
Definition wait_for_tip_change w c : outcome (Poll TipAction * ChainTipChange) :=
  match tip_block_change 2 w c with
  | (Ready block, c) => a ← action c block; Ok (Ready a, returned c block)
  | (Pending, c) => Ok (Pending, c)
  | (RecvError, c) => Ok (RecvError, c)
  end.

(** ** Traces *)

(** What happens on the two sides of the channel. *)
Inductive event : Type :=
| FinalizedTip (tip : option ChainTipBlock)
| NonFinalizedTip (tip : option ChainTipBlock)
| PollLast
| PollWait.
Definition step (st : ChainTipSender * ChainTipChange) (e : event)
    : outcome (option TipAction * (ChainTipSender * ChainTipChange)) :=
  let '(s, c) := st in
  match e with
  | FinalizedTip tip => Ok (None, (set_finalized_tip s tip, c))
  | NonFinalizedTip tip => Ok (None, (set_best_non_finalized_tip s tip, c))
  | PollLast => '(a, c) ← last_tip_change (sender s) c; Ok (a, (s, c))
  | PollWait =>
      '(r, c) ← wait_for_tip_change (sender s) c;
      Ok (match r with Ready a => Some a | _ => None end, (s, c))
  end.
Fixpoint run (st : ChainTipSender * ChainTipChange) (es : list event)
    : outcome (list (option ChainTipBlock * TipAction) * (ChainTipSender * ChainTipChange)) :=
  match es with
  | [] => Ok ([], st)
  | e :: es =>
      '(a, st) ← step st e;
      let tip := watch_value (sender st.1) in
      '(l, st) ← run st es;
      Ok (match a with Some a => (tip, a) :: l | None => l end, st)
  end.

(** The actions of one observer, with the tips: the tip changes with every
    action, a child of the tip before grows the chain, except at a network
    upgrade, and every other block resets it. *)
Fixpoint chained (network : Network) (last : option bytes) (l : list (option ChainTipBlock * TipAction)) : Prop :=
  match l with
  | [] => True
  | (None, _) :: _ => False
  | (Some block, a) :: l =>
      Some (ctb_hash block) <> last
      /\ (a = if decide (last = Some (ctb_previous_block_hash block)
                         /\ is_activation_height network (ctb_height block) = false)
              then Grow block else Reset_to (ctb_height block) (ctb_hash block))
      /\ chained network (Some (ctb_hash block)) l
  end.

(** One more iteration never finds another change. *)
Lemma tip_block_change_fuel n w c : tip_block_change (S (S n)) w c = tip_block_change 2 w c.
Proof.
  cbn [tip_block_change]. destruct (changed_mark w c) as [| |c1] eqn:E; [done..|].
  unfold changed_mark in E. case_match; [by case_match|]. injection E as <-.
  case_match; [done|]. unfold changed_mark. cbn [seen_version]. rewrite Nat.eqb_refl. by destruct (is_closed w).
Qed.

Lemma changed_tip_Some w c block :
  changed_tip w c = Some block -> watch_value w = Some block /\ Some (ctb_hash block) <> last_change_hash c.
Proof. unfold changed_tip. intros (b & ? & Hb)%bind_Some. case_bool_decide; [done|]. by simplify_eq. Qed.
Lemma tip_block_change_Ready n w c block c' :
  tip_block_change n w c = (Ready block, c') ->
  watch_value w = Some block /\ Some (ctb_hash block) <> last_change_hash c /\ last_change_hash c' = last_change_hash c
  /\ tip_network c' = tip_network c.
Proof.
  revert c. induction n as [|n IH]; intros c; [done|]. cbn [tip_block_change].
  destruct (changed_mark w c) as [| |c1] eqn:E; [done..|]. unfold changed_mark in E. case_match; [by case_match|]. injection E as <-.
  destruct (changed_tip w _) as [b|] eqn:Eb.
  - intros [= -> <-]. apply changed_tip_Some in Eb as [? ?]. done.
  - intros Hr. by apply IH in Hr.
Qed.
Lemma tip_block_change_last n w c r c' :
  tip_block_change n w c = (r, c') -> last_change_hash c' = last_change_hash c /\ tip_network c' = tip_network c.
Proof.
  revert c. induction n as [|n IH]; intros c; [by intros [= _ <-]|]. cbn [tip_block_change].
  destruct (changed_mark w c) as [| |c1] eqn:E; [by intros [= _ <-]..|]. unfold changed_mark in E. case_match; [by case_match|].
  injection E as <-. destruct (changed_tip w _) as [b|]; [by intros [= _ <-]|]. intros Hr. by apply IH in Hr.
Qed.
Lemma action_Ok c block :
  Some (ctb_hash block) <> last_change_hash c ->
  action c block = Ok (if decide (last_change_hash c = Some (ctb_previous_block_hash block)
                                  /\ is_activation_height (tip_network c) (ctb_height block) = false)
                       then Grow block else Reset_to (ctb_height block) (ctb_hash block)).
Proof.
  intros Hne. unfold action. rewrite (bool_decide_eq_false_2 (Some (ctb_hash block) = _)) by done.
  cbn [negb assert_ mbind res_bind]. f_equal.
  destruct (bool_decide_reflect (Some (ctb_previous_block_hash block) = last_change_hash c)) as [Hp|Hp]; cbn [negb orb].
  - rewrite <- Hp. destruct (is_activation_height _ _) eqn:Ea; [by rewrite decide_False by naive_solver|by rewrite decide_True].
  - rewrite decide_False; [done|]. intros [Hl _]. congruence.
Qed.

(** What one event gives: no panic, and the right action. *)
Lemma step_ok st e :
  exists a st', step st e = Ok (a, st') /\ tip_network st'.2 = tip_network st.2
    /\ match a with
       | Some a => exists block, watch_value (sender st'.1) = Some block
           /\ last_change_hash st'.2 = Some (ctb_hash block) /\ chained (tip_network st.2) (last_change_hash st.2) [(Some block, a)]
       | None => last_change_hash st'.2 = last_change_hash st.2
       end.
Proof.
  destruct st as [s c]. destruct e as [tip|tip| |]; cbn [step snd fst].
  1,2: by do 2 eexists.
  - unfold last_tip_change. destruct (changed_tip (sender s) c) as [block|] eqn:E; [|by do 2 eexists].
    apply changed_tip_Some in E as [Hw Hne]. rewrite (action_Ok c block Hne). cbn [mbind res_bind].
    do 2 eexists. split; [done|]. split; [done|]. by exists block.
  - unfold wait_for_tip_change. destruct (tip_block_change 2 (sender s) c) as [[| |block] c1] eqn:E.
    1,2: apply tip_block_change_last in E as [? ?]; cbn [mbind res_bind]; by do 2 eexists.
    apply tip_block_change_Ready in E as (Hw & Hne & El & En). rewrite <- El in Hne.
    rewrite (action_Ok c1 block Hne). cbn [mbind res_bind]. rewrite El, En in *.
    do 2 eexists. split; [done|]. split; [done|]. by exists block.
Qed.
Lemma run_ok es st :
  exists actions st', run st es = Ok (actions, st') /\ chained (tip_network st.2) (last_change_hash st.2) actions.
Proof.
  revert st. induction es as [|e es IH]; intros st; [by do 2 eexists|]. cbn [run].
  destruct (step_ok st e) as (a & st1 & -> & En & Ha). cbn [mbind res_bind].
  destruct (IH st1) as (l & st' & -> & Hl). cbn [mbind res_bind]. rewrite En in Hl.
  destruct a as [a|]; do 2 eexists; (split; [done|]).
  - destruct Ha as (block & -> & Elast & Hne & Ea & _). rewrite Elast in Hl. done.
  - by rewrite <- Ha.
Qed.

(** C34. Whatever the order of tip updates and of the two kinds of polls, an
    observer never panics on an unchanged tip, and the actions it gets are
    exact: every action has another tip than the one before, a [Grow] is the
    child of the tip of the action before outside of a network upgrade
    activation, and every other tip, the first one included, is a reset. One
    more poll brings the observer to the tip that was last sent. *)
Theorem tip_actions_chain network initial es :
  exists actions st', run (ChainTipSender_new initial, ChainTipChange_new network) es = Ok (actions, st')
    /\ chained network None actions
    /\ exists a st'', step st' PollLast = Ok (a, st'') /\ sender st''.1 = sender st'.1
       /\ forall tip, watch_value (sender st'.1) = Some tip -> last_change_hash st''.2 = Some (ctb_hash tip).
Proof.
  destruct (run_ok es (ChainTipSender_new initial, ChainTipChange_new network)) as (actions & [s c] & Hrun & Hch).
  exists actions, (s, c). split; [done|]. split; [done|]. cbn [step fst snd]. unfold last_tip_change.
  destruct (changed_tip (sender s) c) as [block|] eqn:E.
  - apply changed_tip_Some in E as [Hw Hne]. rewrite (action_Ok c block Hne). cbn [mbind res_bind].
    do 2 eexists. split; [done|]. split; [done|]. intros tip Ht. by simplify_eq.
  - do 2 eexists. split; [done|]. split; [done|]. intros tip Ht. unfold changed_tip in E. rewrite Ht in E. cbn in E.
    case_bool_decide; [done|discriminate E].
Qed.
