(* ===== verification/WriteBlock.v ===== *)
(** The block write task ([zebra-state/src/service/write.rs]), with the
    initial contextual checks ([zebra-state/src/service/check.rs]).

    The task owns the finalized and the non-finalized state. It first commits
    the checkpoint verified blocks that it receives, then handles the messages
    of the non-finalized state one at a time. A step takes the state of the
    task and a received message, and returns the response and the next state;
    a panic ends the task. *)
From S2P Require Import Prelude BTreeMap Height Amount ValueBalance NetworkUpgrade BlockHeader Transaction BlockCommitment TransparentIndex DiskFormat ChainIndexes Chain ChainRepr ContextChecks AdjustedDifficulty FinalizedState FinalizedRepr NonFinalizedState StateRead ChainTip.
From coqutil Require Import Byte.
From stdpp Require Import strings gmap gmultiset sorting prelude.
From Stdlib Require Import ZArith Lia.
#[local] Open Scope Z_scope.

Definition PARENT_ERROR_MAP_LIMIT : nat := Z.to_nat MAX_BLOCK_REORG_HEIGHT * 2.
Definition LOG_RATE_LIMIT : Z := 1000.
(** A letter and the four bytes of one more character. *)
Definition EXTRA_ZEBRA_COINBASE_DATA : bytes := [Byte.x7a; Byte.xf0; Byte.x9f; Byte.xa6; Byte.x93].

Inductive CommitSemanticallyVerifiedError : Type := NotContextuallyValid (error : ValidateContextError).

(** A response, when there is no panic. *)
Definition try_res {E A} (r : res E A) : outcome (A + E) :=
  match r with Ok a => Ok (inl a) | Err e => Ok (inr e) | Panic => Panic end.

Definition extra_coinbase_data (i : Input) : option bytes :=
  match i with PrevOut _ _ _ => None | Coinbase _ data _ => Some data end.
Definition starts_with (l prefix : bytes) : bool := bool_decide (take (length prefix) l = prefix).

Definition log_if_mined_by_zebra `{BuildProfile} (tip_block : ChainTipBlock) (last_height : option Z) : outcome (option Z) :=
  let height := ctb_height tip_block in
  recent ← match last_height with
           | Some last_height => limit ← arith_u 32 (last_height + LOG_RATE_LIMIT); Ok (height <? limit)
           | None => Ok false
           end;
  if (recent : bool) then Ok last_height
  else
    tx ← unwrap (head (ctb_transactions tip_block));
    input ← unwrap (head (inputs tx));
    coinbase_data ← unwrap (extra_coinbase_data input);
    Ok (if starts_with coinbase_data EXTRA_ZEBRA_COINBASE_DATA then Some height else last_height).

(** [IndexMap::insert]. *)
Fixpoint error_insert {V} (k : bytes) (v : V) (m : list (bytes * V)) : list (bytes * V) :=
  match m with
  | [] => [(k, v)]
  | (k', v') :: m' => if decide (k = k') then (k, v) :: m' else (k', v') :: error_insert k v m'
  end.
Fixpoint error_get {V} (k : bytes) (m : list (bytes * V)) : option V :=
  match m with
  | [] => None
  | (k', v) :: m' => if decide (k = k') then Some v else error_get k m'
  end.

Section WriteBlock.
Context {SproutT SaplingT OrchardT HistoryT : Type}
  `{!NoteTree SproutT} `{!NoteTree SaplingT} `{!SubtreeTree SaplingT} `{!NoteTree OrchardT} `{!SubtreeTree OrchardT}
  `{!DefaultTree SproutT} `{!DefaultTree SaplingT} `{!DefaultTree OrchardT}
  `{!HistoryTreeOps HistoryT} `{!HistoryTreeHash HistoryT} `{!StoredHistory HistoryT}
  `{!ChainContext} `{!CommitmentOps} `{BuildProfile}.
Abbreviation nfs := (NonFinalizedState SproutT SaplingT OrchardT HistoryT).
Abbreviation finalized_db := (@FinalizedDb SproutT SaplingT OrchardT HistoryT).
Abbreviation trees := (NoteCommitmentTrees SproutT SaplingT OrchardT).

(** ** Committing a block to the non-finalized state *)

Definition initial_contextual_validity (finalized_state : finalized_db) (non_finalized_state : nfs)
    (sv : SemanticallyVerifiedBlock) : res ValidateContextError unit :=
  relevant_chain ← lift (any_ancestor_blocks non_finalized_state finalized_state
                           (previous_block_hash (block_header (sv_block sv))));
  _ ← block_is_valid_for_recent_chain sv (nfs_network non_finalized_state) (fdb_tip_height finalized_state)
        (iter_take POW_ADJUSTMENT_BLOCK_SPAN finalized_state relevant_chain);
  no_duplicates_in_finalized_chain sv (zebra_db finalized_state).

Definition validate_and_commit_non_finalized (finalized_state : finalized_db) (non_finalized_state : nfs)
    (prepared : SemanticallyVerifiedBlock) : res CommitSemanticallyVerifiedError nfs :=
  _ ← map_err NotContextuallyValid (initial_contextual_validity finalized_state non_finalized_state prepared);
  let parent_hash := previous_block_hash (block_header (sv_block prepared)) in
  map_err NotContextuallyValid
    (if bool_decide (fdb_tip_hash finalized_state = parent_hash)
     then commit_new_chain non_finalized_state prepared (zebra_db finalized_state)
     else commit_block non_finalized_state prepared (zebra_db finalized_state)).

(** ** The state of the task *)

Record WriteBlockWorkerTask := mkWriteBlockWorkerTask {
  finalized_state : finalized_db;
  non_finalized_state : nfs;
  invalid_block_resets : list bytes;
  reset_sender_closed : bool;
  chain_tip_sender : ChainTipSender;
  non_finalized_state_sender : watch nfs;
  last_zebra_mined_log_height : option Z;
  prev_finalized_note_commitment_trees : option trees;
  parent_error_map : list (bytes * CommitSemanticallyVerifiedError)
}.
Implicit Types (t : WriteBlockWorkerTask).

Definition with_states t (db : finalized_db) (s : nfs) (prev : option trees) : WriteBlockWorkerTask :=
  mkWriteBlockWorkerTask db s (invalid_block_resets t) (reset_sender_closed t) (chain_tip_sender t)
    (non_finalized_state_sender t) (last_zebra_mined_log_height t) prev (parent_error_map t).
Definition with_channels t (tip : ChainTipSender) (w : watch nfs) (last : option Z) : WriteBlockWorkerTask :=
  mkWriteBlockWorkerTask (finalized_state t) (non_finalized_state t) (invalid_block_resets t) (reset_sender_closed t) tip w
    last (prev_finalized_note_commitment_trees t) (parent_error_map t).
Definition with_resets t (resets : list bytes) : WriteBlockWorkerTask :=
  mkWriteBlockWorkerTask (finalized_state t) (non_finalized_state t) resets (reset_sender_closed t) (chain_tip_sender t)
    (non_finalized_state_sender t) (last_zebra_mined_log_height t) (prev_finalized_note_commitment_trees t) (parent_error_map t).
Definition with_errors t m : WriteBlockWorkerTask :=
  mkWriteBlockWorkerTask (finalized_state t) (non_finalized_state t) (invalid_block_resets t) (reset_sender_closed t)
    (chain_tip_sender t) (non_finalized_state_sender t) (last_zebra_mined_log_height t)
    (prev_finalized_note_commitment_trees t) m.

Definition update_latest_chain_channels t : outcome (Z * WriteBlockWorkerTask) :=
  best_chain ← unwrap (best_chain (non_finalized_state t));
  tip_block ← unwrap (tip_block (inner best_chain));
  let tip_block := tip_of_contextual tip_block in
  last ← log_if_mined_by_zebra tip_block (last_zebra_mined_log_height t);
  Ok (ctb_height tip_block,
      with_channels t (set_best_non_finalized_tip (chain_tip_sender t) (Some tip_block))
        (watch_send (non_finalized_state_sender t) (non_finalized_state t)) last).

(** ** The finalized blocks *)

Definition write_finalized t (ordered_block : SemanticallyVerifiedBlock) : outcome WriteBlockWorkerTask :=
  next_valid_height ←
    match fdb_tip_height (finalized_state t) with
    | Some height => next ← height_add_diff height 1; unwrap next
    | None => Ok 0
    end;
  if negb (sv_height ordered_block =? next_valid_height) then Ok t
  else
    r ← try_res (commit_finalized (finalized_state t) ordered_block (prev_finalized_note_commitment_trees t));
    match r : _ + CommitError with
    | inl (finalized, note_commitment_trees, db) =>
        let tip_block := tip_of_semantic finalized in
        last ← log_if_mined_by_zebra tip_block (last_zebra_mined_log_height t);
        let t := with_states t db (non_finalized_state t) (Some note_commitment_trees) in
        Ok (with_channels t (set_finalized_tip (chain_tip_sender t) (Some tip_block)) (non_finalized_state_sender t) last)
    | inr _ =>
        let t := with_states t (finalized_state t) (non_finalized_state t) None in
        Ok (with_resets t (invalid_block_resets t ++ [fdb_tip_hash (finalized_state t)]))
    end.
(** Until the channel ends, when the state service still listens for resets. *)
Fixpoint write_finalized_loop t (received : list SemanticallyVerifiedBlock) : outcome (WriteBlockWorkerTask * bool) :=
  if reset_sender_closed t then Ok (t, false)
  else
    match received with
    | [] => Ok (t, true)
    | b :: received => t ← write_finalized t b; write_finalized_loop t received
    end.

(** ** The messages of the non-finalized state *)

Inductive NonFinalizedWriteMessage : Type :=
| Commit (queued_child : SemanticallyVerifiedBlock)
| CrosslinkFinalized (hash : bytes)
| Invalidate (hash : bytes)
| Reconsider (hash : bytes).
Inductive Response : Type :=
| Committed (result : bytes + CommitSemanticallyVerifiedError)
| Finalized (result : bytes + string)
| Invalidated (result : bytes + string)
| Reconsidered (result : list bytes + ReconsiderError).

(** Move the root of the best chain to the finalized state. *)
Definition finalize_root t (prev : option trees) : outcome (trees * WriteBlockWorkerTask) :=
  '(root, treestate, s) ← finalize (non_finalized_state t);
  '(_, note_commitment_trees, db) ← expect (commit_finalized_direct (finalized_state t) (Contextual root treestate) prev);
  Ok (note_commitment_trees, with_states t db s (prev_finalized_note_commitment_trees t)).

Fixpoint crosslink_finalize_roots (n : nat) t : outcome WriteBlockWorkerTask :=
  match n with
  | O => Ok t
  | S n => '(_, t) ← finalize_root t None; crosslink_finalize_roots n t
  end.
Definition crosslink_finalized t (hash : bytes) : outcome (Response * WriteBlockWorkerTask) :=
  '(newly_finalized_blocks, s) ← crosslink_finalize (non_finalized_state t) hash;
  match newly_finalized_blocks : option (list ContextuallyVerifiedBlock) with
  | Some newly_finalized_blocks =>
      let t := with_states t (finalized_state t) s (prev_finalized_note_commitment_trees t) in
      '(_, t) ← update_latest_chain_channels t;
      t ← crosslink_finalize_roots (length newly_finalized_blocks) t;
      Ok (Finalized (inl hash), t)
  | None =>
      if fdb_contains_hash (finalized_state t) hash then Ok (Finalized (inl hash), t)
      else Ok (Finalized (inr "Couldn't find finalized block"%string), t)
  end.

(** While the best chain is longer than the reorg limit: at most once for each
    of its blocks. *)
Definition past_reorg_limit t : outcome bool :=
  len ← unwrap (best_chain_len (non_finalized_state t)); Ok (MAX_BLOCK_REORG_HEIGHT <? len).
Fixpoint finalize_past_reorg_limit (fuel : nat) t : outcome WriteBlockWorkerTask :=
  past ← past_reorg_limit t;
  if negb past then Ok t
  else
    match fuel with
    | O => Ok t
    | S fuel =>
        '(note_commitment_trees, t) ← finalize_root t (prev_finalized_note_commitment_trees t);
        finalize_past_reorg_limit fuel
          (with_states t (finalized_state t) (non_finalized_state t) (Some note_commitment_trees))
    end.
Definition best_chain_blocks t : nat :=
  match best_chain (non_finalized_state t) with Some c => chain_len (inner c) | None => 0 end.

Definition record_error t (child_hash : bytes) (error : CommitSemanticallyVerifiedError) : WriteBlockWorkerTask :=
  let m := error_insert child_hash error (parent_error_map t) in
  with_errors t (if (PARENT_ERROR_MAP_LIMIT <? length m)%nat then tail m else m).
Definition commit_child t (queued_child : SemanticallyVerifiedBlock) : outcome (Response * WriteBlockWorkerTask) :=
  let child_hash := sv_hash queued_child in
  let parent_hash := previous_block_hash (block_header (sv_block queued_child)) in
  result ← match error_get parent_hash (parent_error_map t) with
           | Some parent_error => Ok (inr parent_error)
           | None => try_res (validate_and_commit_non_finalized (finalized_state t) (non_finalized_state t) queued_child)
           end;
  match result : nfs + CommitSemanticallyVerifiedError with
  | inr error => Ok (Committed (inr error), record_error t child_hash error)
  | inl s =>
      let t := with_states t (finalized_state t) s (prev_finalized_note_commitment_trees t) in
      '(_, t) ← update_latest_chain_channels t;
      t ← finalize_past_reorg_limit (best_chain_blocks t) t;
      Ok (Committed (inl child_hash), t)
  end.

Definition write_message t (msg : NonFinalizedWriteMessage) : outcome (Response * WriteBlockWorkerTask) :=
  match msg with
  | Commit queued_child => commit_child t queued_child
  | CrosslinkFinalized hash => crosslink_finalized t hash
  | Invalidate hash =>
      r ← try_res (invalidate_block (non_finalized_state t) hash);
      let '(rsp, s) := match r with inl (hash, s) => (inl hash, s) | inr e => (inr e, non_finalized_state t) end in
      '(_, t) ← update_latest_chain_channels (with_states t (finalized_state t) s (prev_finalized_note_commitment_trees t));
      Ok (Invalidated rsp, t)
  | Reconsider hash =>
      r ← try_res (reconsider_block (non_finalized_state t) hash (zebra_db (finalized_state t)));
      let '(rsp, s) := match r with inl (hashes, s) => (inl hashes, s) | inr e => (inr e, non_finalized_state t) end in
      '(_, t) ← update_latest_chain_channels (with_states t (finalized_state t) s (prev_finalized_note_commitment_trees t));
      Ok (Reconsidered rsp, t)
  end.
Fixpoint write_messages t (msgs : list NonFinalizedWriteMessage) : outcome (list Response * WriteBlockWorkerTask) :=
  match msgs with
  | [] => Ok ([], t)
  | msg :: msgs =>
      '(rsp, t) ← write_message t msg;
      '(rsps, t) ← write_messages t msgs;
      Ok (rsp :: rsps, t)
  end.
(** The whole task: the finalized blocks, then the messages. *)
Definition run_task t (received : list SemanticallyVerifiedBlock) (msgs : list NonFinalizedWriteMessage)
    : outcome (list Response * WriteBlockWorkerTask) :=
  let t := with_errors (with_channels (with_states t (finalized_state t) (non_finalized_state t) None)
                          (chain_tip_sender t) (non_finalized_state_sender t) None) [] in
  '(t, open) ← write_finalized_loop t received;
  if (open : bool) then write_messages t msgs else Ok ([], t).

(** * Theorems *)

(** ** Rejected parents *)

Lemma error_insert_length {V} k (v : V) m : (length (error_insert k v m) <= S (length m))%nat.
Proof. induction m as [|[k' v'] m IH]; cbn; [lia|]. case_decide; cbn; lia. Qed.
Lemma error_insert_get {V} k (v : V) m k' :
  error_get k' (error_insert k v m) = if decide (k' = k) then Some v else error_get k' m.
Proof.
  induction m as [|[k0 v0] m IH]; cbn [error_insert error_get]; [by case_decide|].
  destruct (decide (k = k0)) as [->|Hk]; cbn [error_get].
  - by repeat case_decide.
  - rewrite IH. repeat case_decide; congruence.
Qed.

Definition errors_bounded t : Prop := (length (parent_error_map t) <= PARENT_ERROR_MAP_LIMIT)%nat.

Lemma record_error_bounded t hash e : errors_bounded t -> errors_bounded (record_error t hash e).
Proof.
  unfold errors_bounded, record_error. cbn [parent_error_map with_errors]. intros Hb.
  pose proof (error_insert_length hash e (parent_error_map t)). destruct (Nat.ltb_spec PARENT_ERROR_MAP_LIMIT
    (length (error_insert hash e (parent_error_map t)))); [|lia]. destruct (error_insert _ _ _); cbn in *; lia.
Qed.
Lemma update_channels_inv t h t' :
  update_latest_chain_channels t = Ok (h, t') ->
  finalized_state t' = finalized_state t /\ non_finalized_state t' = non_finalized_state t
  /\ prev_finalized_note_commitment_trees t' = prev_finalized_note_commitment_trees t
  /\ parent_error_map t' = parent_error_map t.
Proof.
  unfold update_latest_chain_channels. intros (c & _ & (b & _ & (l & _ & [= _ <-])%bind_Ok_inv)%bind_Ok_inv)%bind_Ok_inv. done.
Qed.
Lemma update_channels_empty t : chain_set (non_finalized_state t) = [] -> update_latest_chain_channels t = Panic.
Proof. intros E. unfold update_latest_chain_channels, best_chain, chain_iter. by rewrite E. Qed.
Lemma finalize_root_inv t prev ts t' :
  finalize_root t prev = Ok (ts, t') ->
  exists root treestate s hash db, finalize (non_finalized_state t) = Ok (root, treestate, s)
    /\ commit_finalized_direct (finalized_state t) (Contextual root treestate) prev = Ok (hash, ts, db)
    /\ t' = with_states t db s (prev_finalized_note_commitment_trees t).
Proof.
  unfold finalize_root. intros ([[root treestate] s] & E1 & ([[hash ts'] db] & E2 & [= <- <-])%bind_Ok_inv)%bind_Ok_inv.
  exists root, treestate, s, hash, db. split; [done|]. split; [|done]. destruct (commit_finalized_direct _ _ _); by inversion E2.
Qed.
Lemma update_channels_publish t h t' :
  update_latest_chain_channels t = Ok (h, t') ->
  non_finalized_state_sender t' = watch_send (non_finalized_state_sender t) (non_finalized_state t).
Proof.
  unfold update_latest_chain_channels. intros (c & _ & (b & _ & (l & _ & [= _ <-])%bind_Ok_inv)%bind_Ok_inv)%bind_Ok_inv. done.
Qed.
Lemma crosslink_roots_published n t t' :
  crosslink_finalize_roots n t = Ok t' -> non_finalized_state_sender t' = non_finalized_state_sender t.
Proof.
  revert t. induction n as [|n IH]; intros t; cbn [crosslink_finalize_roots]; [by intros [= <-]|].
  intros ([ts t1] & (root & trs & s & hash & db & _ & _ & ->)%finalize_root_inv & Hr)%bind_Ok_inv. by apply IH in Hr.
Qed.
Lemma crosslink_roots_inv n t t' :
  crosslink_finalize_roots n t = Ok t' ->
  parent_error_map t' = parent_error_map t
  /\ prev_finalized_note_commitment_trees t' = prev_finalized_note_commitment_trees t.
Proof.
  revert t. induction n as [|n IH]; intros t; cbn [crosslink_finalize_roots]; [by intros [= <-]|].
  intros ([ts t1] & (root & trs & s & hash & db & _ & _ & ->)%finalize_root_inv & Hr)%bind_Ok_inv. by apply IH in Hr.
Qed.
Lemma reorg_loop_errors n t t' : finalize_past_reorg_limit n t = Ok t' -> parent_error_map t' = parent_error_map t.
Proof.
  revert t. induction n as [|n IH]; intros t; cbn [finalize_past_reorg_limit];
    intros (past & _ & Hr)%bind_Ok_inv; destruct past; cbn [negb] in Hr; try by injection Hr as <-.
  apply bind_Ok_inv in Hr as ([ts t1] & (root & trs & s & hash & db & _ & _ & ->)%finalize_root_inv & Hr). by apply IH in Hr.
Qed.

Lemma record_error_get t hash e : errors_bounded t -> error_get hash (parent_error_map (record_error t hash e)) = Some e.
Proof.
  unfold errors_bounded, record_error. cbn [parent_error_map with_errors]. intros Hb.
  destruct (Nat.ltb_spec PARENT_ERROR_MAP_LIMIT (length (error_insert hash e (parent_error_map t)))) as [Hl|];
    [|by rewrite error_insert_get, decide_True].
  destruct (parent_error_map t) as [|[k v] m]; cbn [error_insert] in *.
  { cbn [length] in Hl. assert (1 <= PARENT_ERROR_MAP_LIMIT)%nat by (apply Nat.leb_le; reflexivity). lia. }
  case_decide; cbn [length tail] in *; [lia|]. by rewrite error_insert_get, decide_True.
Qed.
(** A commit is rejected, or it changes the non-finalized state. *)
Lemma commit_child_inv t child rsp t' :
  commit_child t child = Ok (rsp, t') ->
  (exists e, rsp = Committed (inr e) /\ t' = record_error t (sv_hash child) e)
  \/ (rsp = Committed (inl (sv_hash child))
      /\ exists s h t1, validate_and_commit_non_finalized (finalized_state t) (non_finalized_state t) child = Ok s
         /\ update_latest_chain_channels (with_states t (finalized_state t) s (prev_finalized_note_commitment_trees t)) = Ok (h, t1)
         /\ finalize_past_reorg_limit (best_chain_blocks t1) t1 = Ok t').
Proof.
  unfold commit_child. intros ([s|e] & Hr & Hc)%bind_Ok_inv; [right|left].
  - apply bind_Ok_inv in Hc as ([h t1] & Hu & (t2 & Hf & [= <- <-])%bind_Ok_inv). split; [done|]. exists s, h, t1.
    split; [|done]. destruct (error_get _ _); [done|]. destruct (validate_and_commit_non_finalized _ _ _); by inversion Hr.
  - injection Hc as <- <-. by exists e.
Qed.
Lemma write_message_errors t msg rsp t' : errors_bounded t -> write_message t msg = Ok (rsp, t') -> errors_bounded t'.
Proof.
  intros Hb. assert (Hkeep : forall t1, parent_error_map t1 = parent_error_map t -> errors_bounded t1).
  { unfold errors_bounded. by intros t1 ->. }
  destruct msg as [child|hash|hash|hash]; cbn [write_message].
  - intros [(e & -> & ->)|(-> & s & h & t1 & _ & (_ & _ & _ & Eu)%update_channels_inv & Ef%reorg_loop_errors)]%commit_child_inv.
    + by apply record_error_bounded.
    + apply Hkeep. by rewrite Ef, Eu.
  - unfold crosslink_finalized. intros ([[l|] s] & _ & Hc)%bind_Ok_inv.
    + apply bind_Ok_inv in Hc as ([h t1] & (_ & _ & _ & Eu)%update_channels_inv & (t2 & [Er _]%crosslink_roots_inv & [= _ <-])%bind_Ok_inv).
      apply Hkeep. by rewrite Er, Eu.
    + case_match; by simplify_eq.
  - intros (r & _ & Hc)%bind_Ok_inv. destruct (match r with inl _ => _ | inr _ => _ end) as [x s].
    apply bind_Ok_inv in Hc as ([h t1] & (_ & _ & _ & Eu)%update_channels_inv & [= _ <-]). by apply Hkeep.
  - intros (r & _ & Hc)%bind_Ok_inv. destruct (match r with inl _ => _ | inr _ => _ end) as [x s].
    apply bind_Ok_inv in Hc as ([h t1] & (_ & _ & _ & Eu)%update_channels_inv & [= _ <-]). by apply Hkeep.
Qed.

(** The error map of the write task: no message makes it longer than its
    limit, a block that is rejected is in it, and a child of a block that is in
    it is rejected with the error of its parent, without any other change to
    the states. *)
Theorem rejected_parents t :
  errors_bounded t ->
  (forall msg rsp t', write_message t msg = Ok (rsp, t') -> errors_bounded t')
  /\ (forall child e t', write_message t (Commit child) = Ok (Committed (inr e), t') ->
        error_get (sv_hash child) (parent_error_map t') = Some e
        /\ finalized_state t' = finalized_state t /\ non_finalized_state t' = non_finalized_state t)
  /\ (forall child e, error_get (previous_block_hash (block_header (sv_block child))) (parent_error_map t) = Some e ->
        exists t', write_message t (Commit child) = Ok (Committed (inr e), t')).
Proof.
  intros Hb. split_and!.
  - intros msg rsp t'. by apply write_message_errors.
  - intros child e t' [(e' & [= <-] & ->)|[? _]]%commit_child_inv; [|done]. split; [by apply record_error_get|done].
  - intros child e He. cbn [write_message]. unfold commit_child. rewrite He. cbn [mbind res_bind]. by eexists.
Qed.

(** The write task stops when it is asked to invalidate or to reconsider
    a block while it has no non-finalized chain: the response is an error, and
    then the channels are updated with the tip of the best chain, which does
    not exist. *)
Theorem invalidate_without_chains_panics t hash :
  chain_set (non_finalized_state t) = [] ->
  invalidate_block (non_finalized_state t) hash = Err "block hash not found in any non-finalized chain"%string
  /\ write_message t (Invalidate hash) = Panic
  /\ (forall e, reconsider_block (non_finalized_state t) hash (zebra_db (finalized_state t)) = Err e ->
        write_message t (Reconsider hash) = Panic).
Proof.
  intros E. assert (Hi : invalidate_block (non_finalized_state t) hash = Err "block hash not found in any non-finalized chain"%string).
  { unfold invalidate_block, find_chain, chain_iter. by rewrite E. }
  split_and!; [done| |].
  - cbn [write_message]. rewrite Hi. cbn [try_res mbind res_bind]. by rewrite update_channels_empty.
  - intros e He. cbn [write_message]. rewrite He. cbn [try_res mbind res_bind]. by rewrite update_channels_empty.
Qed.
End WriteBlock.

(** ** Finality *)

Section Finality.
Context {SproutT SaplingT OrchardT HistoryT : Type}
  `{!NoteTree SproutT} `{!NoteTree SaplingT} `{!SubtreeTree SaplingT} `{!NoteTree OrchardT} `{!SubtreeTree OrchardT}
  `{!DefaultTree SproutT} `{!DefaultTree SaplingT} `{!DefaultTree OrchardT}
  `{!HistoryTreeOps HistoryT} `{!HistoryTreeHash HistoryT} `{!StoredHistory HistoryT}
  `{!ChainContext} `{!CommitmentOps} `{BuildProfile}.
Abbreviation finalized_db := (@FinalizedDb SproutT SaplingT OrchardT HistoryT).
Abbreviation task := (@WriteBlockWorkerTask SproutT SaplingT OrchardT HistoryT).
Implicit Types (t : task) (db : finalized_db) (hs : list bytes).

(** The hashes of the finalized blocks, from height 0. *)
Definition finalized_hashes db hs : Prop :=
  cf_hash_by_height (block_cf db) = imap (fun i hash => (Z.of_nat i, hash)) hs /\ Z.of_nat (length hs) <= Height_MAX + 1.

Lemma finalized_hashes_get db hs h : finalized_hashes db hs -> fdb_hash db h = lookupZ hs h.
Proof.
  intros [E _]. unfold fdb_hash. rewrite E. change (imap _ hs) with (imap (fun i hash => (0 + Z.of_nat i, id hash)) hs).
  rewrite bt_get_consecutive, Z.sub_0_r. by destruct (lookupZ hs h).
Qed.
Lemma finalized_hashes_next db hs b :
  finalized_hashes db hs -> assert_follows_tip db b = Ok tt ->
  fb_height b = Z.of_nat (length hs) /\ Z.of_nat (length hs) <= Height_MAX.
Proof.
  intros [E Hlen]. unfold assert_follows_tip, fdb_is_empty, fdb_tip_height, fdb_tip. rewrite E.
  destruct hs as [|hash hs _] using rev_ind.
  - cbn [imap]. intros ([] & _ & Hz%assert_Ok%Z.eqb_eq)%bind_Ok_inv. rewrite Height_MAX_value. cbn [length]. lia.
  - rewrite imap_app, last_app. cbn -[Z.of_nat]. rewrite Nat.add_0_r.
    destruct (imap _ hs ++ _) eqn:Ei; [by destruct (imap (fun i hash => (Z.of_nat i, hash)) hs)|]. clear Ei.
    rewrite length_app in *. cbn [length] in *. rewrite Height_MAX_value in *.
    rewrite height_add_diff_spec by width_lia. cbn [mbind res_bind].
    intros ([] & Hn%assert_Ok%bool_decide_eq_true & _)%bind_Ok_inv. destruct (in_range _ _ _) eqn:Er; [|done].
    injection Hn as <-. apply in_range_spec in Er. rewrite Height_MAX_value in Er. lia.
Qed.

(** A commit appends one hash. *)
Lemma write_block_hashes db b prev network db' :
  write_block db b prev network = Ok db' ->
  cf_hash_by_height (block_cf db') = bt_insert (fb_height b) (fb_hash b) (cf_hash_by_height (block_cf db)).
Proof.
  intros (new & spent & bal & db1 & db2 & db3 & _ & _ & B1 & (E2 & _)%trees_batch_frame & B3 & ->%value_pools_batch_frame)%write_block_inv.
  cbn [block_cf set_chain_cf]. assert (block_cf db3 = block_cf db2) as ->.
  { destruct (height_is_min _); [by injection B3 as ->|]. by apply transparent_batch_spec in B3 as [-> _]. }
  rewrite E2. unfold prepare_block_header_and_transaction_data_batch in B1. apply bind_Ok_inv in B1 as (cf & Hcf & [= <-]).
  cbn [block_cf prepare_shielded_transaction_batch set_nullifier_cf set_block_cf].
  rewrite (foldM_proj _ cf_hash_by_height (fun x _ => x) _ _ _) with (2 := Hcf); [by rewrite foldl_const|].
  intros st [i [tx hash]] st' _ (loc & _ & [= <-])%bind_Ok_inv. done.
Qed.
Lemma commit_appends db hs f prev hash ts db' :
  finalized_hashes db hs -> commit_finalized_direct db f prev = Ok (hash, ts, db') -> finalized_hashes db' (hs ++ [hash]).
Proof.
  intros Hh. unfold commit_finalized_direct. intros ([fb prev'] & _ & ([] & Ha%lift_Ok & (d & Hw%write_block_hashes & [= <- _ <-])%bind_Ok_inv)%bind_Ok_inv)%bind_Ok_inv.
  destruct (finalized_hashes_next _ _ _ Hh Ha) as [Hht Hmax]. destruct Hh as [E _]. split.
  - rewrite Hw, E, Hht, imap_app. cbn. rewrite Nat.add_0_r. apply bt_below_insert_last, Forall_forall.
    intros e (i & x & -> & Hi%lookup_lt_Some)%elem_of_lookup_imap_1. cbn. lia.
  - rewrite length_app. cbn. lia.
Qed.

(** The finalized state of [t'] extends that of [t]. *)
Definition extends t t' : Prop :=
  forall hs, finalized_hashes (finalized_state t) hs -> exists new, finalized_hashes (finalized_state t') (hs ++ new).
Lemma extends_same t t' : finalized_state t' = finalized_state t -> extends t t'.
Proof. intros E hs Hh. exists []. by rewrite app_nil_r, E. Qed.
Lemma extends_trans t1 t2 t3 : extends t1 t2 -> extends t2 t3 -> extends t1 t3.
Proof. intros H1' H2' hs [n1 [n2 Hn]%H2']%H1'. exists (n1 ++ n2). by rewrite app_assoc. Qed.

Lemma finalize_root_extends t prev ts t' : finalize_root t prev = Ok (ts, t') -> extends t t'.
Proof.
  intros (root & trs & s & hash & db & _ & Hc & ->)%finalize_root_inv hs Hh. exists [hash]. by eapply commit_appends.
Qed.
Lemma crosslink_roots_extend n t t' : crosslink_finalize_roots n t = Ok t' -> extends t t'.
Proof.
  revert t. induction n as [|n IH]; intros t; cbn [crosslink_finalize_roots]; [intros [= <-]; by apply extends_same|].
  intros ([ts t1] & H1'%finalize_root_extends & H2'%IH)%bind_Ok_inv. by eapply extends_trans.
Qed.
Lemma reorg_loop_extends n t t' : finalize_past_reorg_limit n t = Ok t' -> extends t t'.
Proof.
  revert t. induction n as [|n IH]; intros t; cbn [finalize_past_reorg_limit];
    intros (past & _ & Hr)%bind_Ok_inv; destruct past; cbn [negb] in Hr; try (injection Hr as <-; by apply extends_same).
  apply bind_Ok_inv in Hr as ([ts t1] & H1'%finalize_root_extends & H2'%IH). by eapply extends_trans.
Qed.
Lemma write_message_extends t msg rsp t' : write_message t msg = Ok (rsp, t') -> extends t t'.
Proof.
  destruct msg as [child|hash|hash|hash]; cbn [write_message].
  - intros [(e & -> & ->)|(-> & s & h & t1 & _ & (Ef & _)%update_channels_inv & Hr%reorg_loop_extends)]%commit_child_inv;
      [by apply extends_same|]. eapply extends_trans; [by apply extends_same|done].
  - unfold crosslink_finalized. intros ([[l|] s] & _ & Hc)%bind_Ok_inv; [|case_match; simplify_eq; by apply extends_same].
    apply bind_Ok_inv in Hc as ([h t1] & (Ef & _)%update_channels_inv & (t2 & Hr%crosslink_roots_extend & [= _ <-])%bind_Ok_inv).
    eapply extends_trans; [by apply extends_same|done].
  - intros (r & _ & Hc)%bind_Ok_inv. destruct (match r with inl _ => _ | inr _ => _ end) as [x s].
    apply bind_Ok_inv in Hc as ([h t1] & (Ef & _)%update_channels_inv & [= _ <-]). by apply extends_same.
  - intros (r & _ & Hc)%bind_Ok_inv. destruct (match r with inl _ => _ | inr _ => _ end) as [x s].
    apply bind_Ok_inv in Hc as ([h t1] & (Ef & _)%update_channels_inv & [= _ <-]). by apply extends_same.
Qed.
Lemma write_finalized_extends t b t' : write_finalized t b = Ok t' -> extends t t'.
Proof.
  unfold write_finalized. intros (next & _ & Hw)%bind_Ok_inv. case_match; [injection Hw as <-; by apply extends_same|].
  apply bind_Ok_inv in Hw as ([[[f trs] db]|e] & Hr & Hw).
  - apply bind_Ok_inv in Hw as (l & _ & [= <-]). intros hs Hh.
    destruct (commit_finalized _ _ _) as [x|x|] eqn:Hc; inversion Hr; subst. unfold commit_finalized in Hc.
    apply bind_Ok_inv in Hc as ([[hash ts] db'] & Hc & [= _ _ <-]). exists [hash]. by eapply commit_appends.
  - injection Hw as <-. by apply extends_same.
Qed.
Lemma write_finalized_loop_extends received t t' open : write_finalized_loop t received = Ok (t', open) -> extends t t'.
Proof.
  revert t. induction received as [|b received IH]; intros t; cbn [write_finalized_loop];
    (destruct (reset_sender_closed t); [intros [= <- _]; by apply extends_same|]).
  - intros [= <- _]. by apply extends_same.
  - intros (t1 & H1'%write_finalized_extends & H2'%IH)%bind_Ok_inv. by eapply extends_trans.
Qed.
Lemma write_messages_extend msgs t rsps t' : write_messages t msgs = Ok (rsps, t') -> extends t t'.
Proof.
  revert t rsps t'. induction msgs as [|msg msgs IH]; intros t rsps t'; cbn [write_messages]; [intros [= _ <-]; by apply extends_same|].
  intros ([rsp t1] & H1'%write_message_extends & ([rsps' t2] & H2'%IH & [= _ <-])%bind_Ok_inv)%bind_Ok_inv. by eapply extends_trans.
Qed.

(** C1. Finality is irrevocable: whatever checkpoint blocks and whatever
    messages the write task handles, in whatever order, the finalized blocks
    stay where they are, and the database only gets blocks at the next
    heights: every hash that is at a height before a run is at that height
    after it, invalidations and reorgs included. *)
Theorem finality_irrevocable t hs received msgs rsps t' :
  finalized_hashes (finalized_state t) hs -> run_task t received msgs = Ok (rsps, t') ->
  (exists new, finalized_hashes (finalized_state t') (hs ++ new))
  /\ forall h hash, fdb_hash (finalized_state t) h = Some hash -> fdb_hash (finalized_state t') h = Some hash.
Proof.
  intros Hh Hr. assert (Hx : extends t t').
  { unfold run_task in Hr. apply bind_Ok_inv in Hr as ([t1 open] & H1'%write_finalized_loop_extends & Hm).
    eapply extends_trans; [by apply extends_same|]. eapply extends_trans; [exact H1'|].
    destruct open; [by eapply write_messages_extend|]. injection Hm as _ <-. by apply extends_same. }
  destruct (Hx hs Hh) as [new Hnew]. split; [by exists new|]. intros h hash.
  rewrite (finalized_hashes_get _ _ _ Hh), (finalized_hashes_get _ _ _ Hnew). intros (i & -> & Hi)%lookupZ_Some.
  rewrite lookupZ_nat. by apply lookup_app_l_Some.
Qed.
End Finality.

(** ** Crosslink finality *)

Section CrosslinkFinality.
Context {SproutT SaplingT OrchardT HistoryT : Type}
  `{!NoteTree SproutT} `{!NoteTree SaplingT} `{!SubtreeTree SaplingT} `{!NoteTree OrchardT} `{!SubtreeTree OrchardT}
  `{!DefaultTree SproutT} `{!DefaultTree SaplingT} `{!DefaultTree OrchardT}
  `{!HistoryTreeOps HistoryT} `{!HistoryTreeHash HistoryT} `{!StoredHistory HistoryT}
  `{!ChainContext} `{!CommitmentOps} `{BuildProfile} `{!NoteTreeLaws SproutT}.
Abbreviation finalized_block := (@FinalizedBlock SproutT SaplingT OrchardT HistoryT).
Abbreviation task := (@WriteBlockWorkerTask SproutT SaplingT OrchardT HistoryT).
Implicit Types (t : task) (fbs : list finalized_block) (b x : ContextuallyVerifiedBlock)
  (bs : list ContextuallyVerifiedBlock) (bss : list (list ContextuallyVerifiedBlock)).

(** A finalized block comes from a block of a chain. *)
Definition finalized_from b (f : finalized_block) : Prop := exists ts, f = from_contextually_verified b ts.
(** The chain continues the finalized blocks: heights and parents. *)
Definition linked fbs bs : Prop :=
  forall i b, bs !! i = Some b ->
    cv_height b = Z.of_nat (length fbs + i)
    /\ previous_block_hash (block_header (cv_block b))
       = default GENESIS_PREVIOUS_BLOCK_HASH (last ((fb_hash <$> fbs) ++ (cv_hash <$> take i bs))).
(** Its blocks and transactions are new. *)
Definition fresh fbs bs : Prop :=
  forall done b rest fdone ts, bs = done ++ b :: rest -> Forall2 finalized_from done fdone ->
    new_block (fbs ++ fdone) (from_contextually_verified b ts).
(** Hashes determine blocks. *)
Definition same_hash_same_block bss : Prop :=
  forall bs1 bs2 b1 b2, bs1 ∈ bss -> bs2 ∈ bss -> b1 ∈ bs1 -> b2 ∈ bs2 -> cv_hash b1 = cv_hash b2 -> b1 = b2.
(** The chains are different forks. *)
Definition prefix_free bss : Prop :=
  NoDup bss /\ forall bs1 bs2, bs1 ∈ bss -> bs2 ∈ bss -> bs1 `prefix_of` bs2 -> bs1 = bs2.

(** The states of the task: the committed blocks, and the chains that continue them. *)
Record task_repr t fbs bss : Prop := {
  tr_db : committed (finalized_state t) fbs;
  tr_chains : state_repr (non_finalized_state t) bss;
  tr_linked : Forall (linked fbs) bss;
  tr_fresh : Forall (fresh fbs) bss;
  tr_hashes : same_hash_same_block bss;
  tr_forks : prefix_free bss
}.

Lemma linked_step fbs b bs f : linked fbs (b :: bs) -> finalized_from b f -> linked (fbs ++ [f]) bs.
Proof.
  intros Hl [ts ->] i x Hx. destruct (Hl (S i) x Hx) as [Hh Hp]. rewrite length_app. cbn [length]. split; [lia|].
  rewrite Hp. cbn [take fmap list_fmap]. by rewrite fmap_app, <- app_assoc.
Qed.
Lemma fresh_step fbs b bs f : fresh fbs (b :: bs) -> finalized_from b f -> fresh (fbs ++ [f]) bs.
Proof.
  intros Hf Hbf done x rest fdone ts -> Hd. rewrite <- app_assoc. cbn [app].
  apply (Hf (b :: done) x rest (f :: fdone) ts); [done|by constructor].
Qed.

(** Two chains with a common block agree up to it. *)
Lemma shared_prefix fbs bs1 bs2 bss p x a1 :
  linked fbs bs1 -> linked fbs bs2 -> same_hash_same_block bss -> bs1 ∈ bss -> bs2 ∈ bss ->
  bs1 = p ++ x :: a1 -> x ∈ bs2 -> exists a2, bs2 = p ++ x :: a2.
Proof.
  intros L1 L2 Hu I1 I2 E1 [j Hj]%list_elem_of_lookup.
  assert (Hx : bs1 !! length p = Some x) by (by rewrite E1, lookup_app_r, Nat.sub_diag).
  assert (j = length p) as ->. { destruct (L1 _ _ Hx) as [H1' _]. destruct (L2 _ _ Hj) as [H2' _]. lia. }
  assert (Hag : forall k i, (i + k = length p)%nat -> bs1 !! i = bs2 !! i).
  { induction k as [|k IH]; intros i Hi; [by replace i with (length p) by lia; congruence|].
    specialize (IH (S i) ltac:(lia)). pose proof (lookup_lt_Some _ _ _ Hx). pose proof (lookup_lt_Some _ _ _ Hj).
    destruct (lookup_lt_is_Some_2 bs1 (S i)) as [b Hb]; [lia|]. rewrite Hb in IH. symmetry in IH.
    destruct (L1 _ _ Hb) as [_ P1]. destruct (L2 _ _ IH) as [_ P2]. rewrite P1 in P2. clear P1.
    destruct (lookup_lt_is_Some_2 bs1 i) as [b1 Hb1]; [lia|]. destruct (lookup_lt_is_Some_2 bs2 i) as [b2 Hb2]; [lia|].
    rewrite (take_S_r _ _ _ Hb1), (take_S_r _ _ _ Hb2), !fmap_app, !app_assoc in P2. cbn [fmap list_fmap] in P2.
    rewrite !last_snoc in P2. cbn in P2. rewrite Hb1, Hb2. f_equal.
    apply (Hu bs1 bs2); [done|done|by eapply list_elem_of_lookup_2|by eapply list_elem_of_lookup_2|done]. }
  exists (drop (S (length p)) bs2). rewrite <- (take_drop (S (length p)) bs2) at 1.
  rewrite (take_S_r _ _ _ Hj), <- app_assoc. cbn [app]. f_equal.
  apply list_eq. intros i. destruct (decide (i < length p)%nat).
  - rewrite lookup_take_lt by lia. rewrite <- (Hag (length p - i)%nat i) by lia. rewrite E1. by rewrite lookup_app_l by lia.
  - rewrite !lookup_ge_None_2; [done|lia|]. rewrite length_take. lia.
Qed.

Lemma commit_root t fbs b ts prev hash trs db :
  committed (finalized_state t) fbs -> fresh fbs [b] -> prev_ok fbs prev ->
  commit_finalized_direct (finalized_state t) (Contextual b ts) prev = Ok (hash, trs, db) ->
  committed db (fbs ++ [from_contextually_verified b ts]) /\ trs = treestate_trees ts.
Proof.
  intros Hc Hf Hp Hd. split.
  - eapply (committed_block (finalized_state t) fbs (Contextual b ts) prev _ prev hash trs); [done|done|done| |exact Hd].
    specialize (Hf [] b [] [] ts eq_refl (List.Forall2_nil _)). by rewrite app_nil_r in Hf.
  - unfold commit_finalized_direct in Hd. cbn [to_finalized mbind res_bind] in Hd.
    by apply bind_Ok_inv in Hd as ([] & _ & (db' & _ & [= _ <- _])%bind_Ok_inv).
Qed.

(** ** Moving the root of the best chain *)

Lemma keep_root_sublist b bss :
  (forall x rest, x :: rest ∈ bss -> cv_hash x = cv_hash b -> x = b) -> cons b <$> keep_root b bss `sublist_of` bss.
Proof.
  intros Hu. induction bss as [|bs bss IH]; [constructor|]. unfold keep_root in *. cbn [omap list_omap].
  assert (IH' : cons b <$> omap (fun bs => match bs with x :: rest => if decide (cv_hash x = cv_hash b) then Some rest else None | [] => None end) bss
                `sublist_of` bss). { apply IH. intros x rest Hin. apply (Hu x rest). by right. }
  destruct bs as [|x rest]; [by constructor|]. case_decide as Hx; cbn [fmap list_fmap]; [|by constructor].
  rewrite (Hu x rest) by (done || left). by constructor.
Qed.
Definition chains_after b bss rest : list (list ContextuallyVerifiedBlock) :=
  keep_root b bss ++ (if decide (rest = []) then [] else [rest]).

Lemma chains_after_sublist b bss rest :
  same_hash_same_block (bss ++ [b :: rest]) -> cons b <$> chains_after b bss rest `sublist_of` bss ++ [b :: rest].
Proof.
  intros Hu. unfold chains_after. rewrite fmap_app. apply sublist_app.
  - apply keep_root_sublist. intros x r Hin Hx. apply (Hu (x :: r) (b :: rest)); [| |left..|done].
    + apply elem_of_app. by left.
    + apply elem_of_app. right. left.
  - case_decide; [apply sublist_nil_l|done].
Qed.

Lemma roots_side_chain_ok b bss rest :
  same_hash_same_block (bss ++ [b :: rest]) -> prefix_free (bss ++ [b :: rest]) -> Forall (side_chain_ok b) bss.
Proof.
  intros Hu [Hnd Hp]. apply Forall_forall. intros bs Hbs x r -> Hx.
  assert (Hin : x :: r ∈ bss ++ [b :: rest]) by (apply elem_of_app; by left).
  assert (Hlast : b :: rest ∈ bss ++ [b :: rest]) by (apply elem_of_app; right; left).
  assert (x = b) as -> by (apply (Hu (x :: r) (b :: rest)); [done|done|left|left|done]). split; [done|]. intros ->.
  assert (Heq : [b] = b :: rest). { apply Hp; [done|done|]. apply prefix_cons, prefix_nil. }
  apply NoDup_app in Hnd as (_ & Hdis & _). apply (Hdis _ Hbs). rewrite Heq. left.
Qed.

Lemma task_repr_after t t' fbs b bss rest f :
  task_repr t fbs (bss ++ [b :: rest]) -> finalized_from b f -> committed (finalized_state t') (fbs ++ [f]) ->
  state_repr (non_finalized_state t') (chains_after b bss rest) ->
  task_repr t' (fbs ++ [f]) (chains_after b bss rest).
Proof.
  intros [_ _ Hl Hf Hu [Hnd Hp]] Hb Hc Hs. pose proof (chains_after_sublist _ _ _ Hu) as Hsub.
  assert (Hin : forall c, c ∈ chains_after b bss rest -> b :: c ∈ bss ++ [b :: rest]).
  { intros c Hin. eapply elem_of_sublist; [by apply (list_elem_of_fmap_2 (cons b))|done]. }
  rewrite Forall_forall in Hl, Hf. split; [done|done|..].
  - apply Forall_forall. intros c Hcin. eapply linked_step; [by apply Hl, Hin|done].
  - apply Forall_forall. intros c Hcin. eapply fresh_step; [by apply Hf, Hin|done].
  - intros c1 c2 b1 b2 I1 I2 J1 J2. apply (Hu (b :: c1) (b :: c2)); [by apply Hin|by apply Hin|by right|by right].
  - split.
    + apply (NoDup_fmap_1 (cons b)). by eapply sublist_NoDup.
    + intros c1 c2 I1 I2 Hpre. assert (b :: c1 = b :: c2) as [= ->]; [|done]. apply Hp; [by apply Hin|by apply Hin|]. by apply prefix_cons.
Qed.

Lemma finalize_root_repr t fbs b bss rest prev trs t' :
  task_repr t fbs (bss ++ [b :: rest]) -> prev_ok fbs prev -> finalize_root t prev = Ok (trs, t') ->
  exists f, finalized_from b f /\ trs = treestate_trees (fb_treestate f)
    /\ task_repr t' (fbs ++ [f]) (chains_after b bss rest).
Proof.
  intros R Hprev (root & ts & s & hash & db & Hfin & Hcommit & ->)%finalize_root_inv.
  pose proof R as [Hc Hs _ Hf Hu Hpf].
  destruct (finalize_repr _ _ _ _ Hs (roots_side_chain_ok _ _ _ Hu Hpf)) as (ts' & s' & Hfin' & Hs' & _).
  rewrite Hfin in Hfin'. injection Hfin' as -> <- <-.
  assert (Hfb : fresh fbs [b]).
  { apply Forall_app in Hf as [_ Hf]. apply Forall_cons in Hf as [Hf _]. intros done x r fdone ts0 E Hd.
    destruct done as [|y done]; [|by destruct done]. injection E as <- <-. eapply (Hf []); [done|exact Hd]. }
  destruct (commit_root _ _ _ _ _ _ _ _ Hc Hfb Hprev Hcommit) as [Hdb ->].
  exists (from_contextually_verified b ts). split; [by exists ts|]. split; [done|].
  eapply task_repr_after; [exact R|by exists ts|done|done].
Qed.

(** ** Finalizing a common prefix *)

Definition nonempty bs : Prop := bs <> [].
#[local] Instance nonempty_dec bs : Decision (nonempty bs).
Proof. unfold nonempty. apply _. Defined.

Lemma chains_after_shared b cs best :
  Forall nonempty (chains_after b (cons b <$> cs) best) -> chains_after b (cons b <$> cs) best = filter nonempty (cs ++ [best]).
Proof.
  unfold chains_after. assert (keep_root b (cons b <$> cs) = cs) as ->.
  { unfold keep_root. induction cs as [|c cs IH]; [done|]. cbn [fmap list_fmap omap list_omap]. rewrite decide_True by done. by f_equal. }
  intros [Hcs _]%Forall_app. rewrite filter_app. f_equal.
  - symmetry. by apply filter_all.
  - rewrite filter_cons, filter_nil. unfold nonempty. by destruct best; repeat case_decide.
Qed.
Lemma crosslink_roots_repr q tails t fbs t' :
  tails <> [] -> task_repr t fbs (filter nonempty (app q <$> tails)) -> crosslink_finalize_roots (length q) t = Ok t' ->
  exists new, Forall2 finalized_from q new /\ task_repr t' (fbs ++ new) (filter nonempty tails).
Proof.
  intros Hne. revert t fbs. induction q as [|b q IH]; intros t fbs R Hr.
  { injection Hr as <-. exists []. split; [constructor|]. rewrite app_nil_r. by rewrite list_fmap_id in R. }
  cbn [length crosslink_finalize_roots] in Hr. apply bind_Ok_inv in Hr as ([trs t1] & Hroot & Hr).
  destruct tails as [|best tails _] using rev_ind; [done|]. clear Hne.
  assert (E : filter nonempty (app (b :: q) <$> tails ++ [best]) = (cons b <$> (app q <$> tails)) ++ [b :: q ++ best]).
  { rewrite filter_all; [by rewrite fmap_app, <- list_fmap_compose|]. apply Forall_fmap, Forall_true. done. }
  rewrite E in R. destruct (finalize_root_repr _ _ _ _ _ None trs t1 R) as (f & Hf & _ & R1); [done|exact Hroot|].
  rewrite chains_after_shared in R1 by apply R1.
  replace ((app q <$> tails) ++ [q ++ best]) with (app q <$> tails ++ [best]) in R1 by by rewrite fmap_app.
  destruct (IH t1 (fbs ++ [f]) R1 Hr) as (new & Hnew & R2). exists (f :: new). split; [by constructor|].
  by rewrite <- app_assoc in R2.
Qed.

(** The chains that contain a block, after the part of them up to it. *)
Lemma chains_share fbs bss hash best before x after :
  Forall (linked fbs) bss -> same_hash_same_block bss -> last (filter (contains_hash hash) bss) = Some best ->
  best = before ++ x :: after -> cv_hash x = hash ->
  filter (contains_hash hash) bss = app (before ++ [x]) <$> (drop (S (length before)) <$> filter (contains_hash hash) bss).
Proof.
  intros Hl Hu Hlast E Hx. rewrite <- list_fmap_compose. rewrite <- (list_fmap_id (filter _ _)) at 1.
  apply list_fmap_ext. intros i bs Hi. cbn. rewrite Forall_forall in Hl.
  apply list_elem_of_lookup_2, list_elem_of_filter in Hi as [(y & Hy & Hin)%list_elem_of_fmap Hbs].
  assert (Hbest : best ∈ bss).
  { apply last_Some in Hlast as [l' Hlast]. assert (best ∈ filter (contains_hash hash) bss) as Hb%list_elem_of_filter; [|by apply Hb].
    rewrite Hlast. apply elem_of_app. right. left. }
  assert (y = x) as ->. { apply (Hu bs best); [done..| |congruence]. rewrite E. apply elem_of_app. right. left. }
  destruct (shared_prefix fbs best bs bss before x after) as [a2 ->]; [by apply Hl|by apply Hl|done..|].
  replace (before ++ x :: a2) with ((before ++ [x]) ++ a2) by by rewrite <- app_assoc.
  f_equal. rewrite drop_app_length'; [done|]. rewrite length_app. cbn. lia.
Qed.

Lemma task_repr_sublist t t' fbs bss bss' :
  task_repr t fbs bss -> bss' `sublist_of` bss -> finalized_state t' = finalized_state t ->
  state_repr (non_finalized_state t') bss' -> task_repr t' fbs bss'.
Proof.
  intros [Hc _ Hl Hf Hu [Hnd Hp]] Hsub E Hs.
  assert (Hin : forall c, c ∈ bss' -> c ∈ bss) by (intros c Hc'; by eapply elem_of_sublist).
  split; [by rewrite E|done|..].
  - rewrite Forall_forall in Hl |- *. auto.
  - rewrite Forall_forall in Hf |- *. auto.
  - intros c1 c2 b1 b2 I1 I2. apply (Hu c1 c2); by apply Hin.
  - split; [by eapply sublist_NoDup|]. intros c1 c2 I1 I2. apply Hp; by apply Hin.
Qed.

(** The message of a hash of a chain, with the state that is published. *)
Lemma crosslink_message_repr t fbs bss hash best rsp t' :
  task_repr t fbs bss -> last (filter (contains_hash hash) bss) = Some best -> crosslink_finalized t hash = Ok (rsp, t') ->
  exists before x after new s', best = before ++ x :: after /\ cv_hash x = hash /\ rsp = Finalized (inl hash)
    /\ Forall2 finalized_from (before ++ [x]) new
    /\ task_repr t' (fbs ++ new) (filter nonempty (drop (length new) <$> filter (contains_hash hash) bss))
    /\ state_repr s' (filter (contains_hash hash) bss)
    /\ non_finalized_state_sender t' = watch_send (non_finalized_state_sender t) s'.
Proof.
  intros R Hbest Hw. pose proof R as [Hc Hs Hl Hf Hu Hp]. unfold crosslink_finalized in Hw.
  destruct (proj2 (crosslink_finalize_repr _ _ hash Hs) best Hbest) as (before & x & after & s' & E & Hx & Hcf & Hs').
  rewrite Hcf in Hw. cbn [mbind res_bind] in Hw.
  apply bind_Ok_inv in Hw as ([h t1] & Hch & (t2 & Hr & [= <- <-])%bind_Ok_inv).
  pose proof Hch as (Ef & En & _)%update_channels_inv. pose proof Hch as Ep%update_channels_publish.
  cbn [with_states finalized_state non_finalized_state non_finalized_state_sender] in Ef, En, Ep.
  pose proof (chains_share _ _ _ _ _ _ _ Hl Hu Hbest E Hx) as Hshare.
  destruct (crosslink_roots_repr (before ++ [x]) (drop (S (length before)) <$> filter (contains_hash hash) bss) t1 fbs t2)
    as (new & Hnew & R2); [| |exact Hr|].
  - intros Hnil%fmap_nil_inv. by rewrite Hnil in Hbest.
  - rewrite <- Hshare, filter_all by apply Hs'.
    eapply task_repr_sublist; [exact R|apply sublist_filter|done|by rewrite En].
  - exists before, x, after, new, s'. split_and!; try done.
    + replace (length new) with (S (length before)); [done|]. apply Forall2_length in Hnew. rewrite length_app in Hnew. cbn in Hnew. lia.
    + by rewrite (crosslink_roots_published _ _ _ Hr).
Qed.

(** C2. Crosslink finality reaches the finalized state: when the message of a
    finalized hash is handled and the hash is in a non-finalized chain, the
    blocks of the best such chain up to that hash are committed to the
    database, in order and after the blocks it had, and exactly the chains that
    contain the hash remain, without those blocks. When no chain contains the
    hash nothing changes, and the answer tells whether the database has it. *)
Theorem crosslink_finality t fbs bss hash rsp t' :
  task_repr t fbs bss -> write_message t (CrosslinkFinalized hash) = Ok (rsp, t') ->
  (forall best, last (filter (contains_hash hash) bss) = Some best ->
     exists before x after new, best = before ++ x :: after /\ cv_hash x = hash /\ rsp = Finalized (inl hash)
       /\ Forall2 finalized_from (before ++ [x]) new
       /\ task_repr t' (fbs ++ new) (filter nonempty (drop (length new) <$> filter (contains_hash hash) bss)))
  /\ (filter (contains_hash hash) bss = [] -> t' = t /\ (rsp = Finalized (inl hash) <-> hash ∈ fb_hash <$> fbs)).
Proof.
  intros R Hw. cbn [write_message] in Hw. split.
  - intros best Hbest. destruct (crosslink_message_repr _ _ _ _ _ _ _ R Hbest Hw) as (before & x & after & new & s' & ? & ? & ? & ? & ? & _).
    by exists before, x, after, new.
  - intros Hn. pose proof R as [Hc Hs _ _ _ _]. unfold crosslink_finalized in Hw.
    rewrite (proj1 (crosslink_finalize_repr _ _ hash Hs) Hn) in Hw. cbn [mbind res_bind] in Hw.
    destruct (committed_repr _ _ Hc) as [[Rb _ _ _ _] _].
    assert (fdb_contains_hash (finalized_state t) hash = bool_decide (hash ∈ fb_hash <$> fbs)) as Hh.
    { unfold fdb_contains_hash. apply bool_decide_ext. rewrite list_elem_of_fmap. split.
      - intros [h (b & [i [_ Hb]]%lookupZ_Some & <-)%(br_height _ _ Rb)]. exists b. split; [done|]. by eapply list_elem_of_lookup_2.
      - intros (b & -> & [i Hb]%list_elem_of_lookup). exists (Z.of_nat i). apply (br_height _ _ Rb). exists b. by rewrite lookupZ_nat. }
    rewrite Hh in Hw. case_bool_decide as Hd; injection Hw as <- <-; done.
Qed.

(** The blocks that Crosslink finalizes are committed without the note
    commitment trees that the task keeps for the next commit, and those trees
    are not replaced: when a tree has changed since, they are not the trees of
    the finalized tip any more, which the next commit past the reorg limit
    takes them for. *)
Theorem crosslink_leaves_stale_trees t hash rsp t' prev :
  write_message t (CrosslinkFinalized hash) = Ok (rsp, t') -> prev_finalized_note_commitment_trees t = Some prev ->
  prev_finalized_note_commitment_trees t' = Some prev
  /\ forall fbs (f : finalized_block), committed (finalized_state t') (fbs ++ [f]) ->
       tree_root (nct_sapling prev) <> tree_root (nct_sapling (treestate_trees (fb_treestate f))) ->
       ~ prev_ok (fbs ++ [f]) (prev_finalized_note_commitment_trees t').
Proof.
  intros Hw Hprev. assert (E : prev_finalized_note_commitment_trees t' = Some prev).
  { rewrite <- Hprev. cbn [write_message] in Hw. unfold crosslink_finalized in Hw. apply bind_Ok_inv in Hw as ([[l|] s] & _ & Hc).
    - apply bind_Ok_inv in Hc as ([h t1] & (_ & _ & Ep & _)%update_channels_inv & (t2 & [_ Er]%crosslink_roots_inv & [= _ <-])%bind_Ok_inv).
      by rewrite Er, Ep.
    - case_match; by simplify_eq. }
  split; [done|]. intros fbs f _ Hne Hok. destruct (Hok prev E f) as (_ & Hs & _); [apply last_snoc|done].
Qed.

(** ** The reorg limit *)

Lemma best_chain_repr (s : NonFinalizedState SproutT SaplingT OrchardT HistoryT) bss bs : state_repr s (bss ++ [bs]) -> exists c, best_chain s = Some c /\ chain_repr c bs.
Proof.
  intros (_ & Hrep & _). apply Forall2_app_inv_r in Hrep as (l & l2 & _ & Hbest & E).
  apply Forall2_cons_inv_r in Hbest as (c & ? & Hc & ->%Forall2_nil_inv_r & ->). exists c. split; [|done].
  unfold best_chain, chain_iter. by rewrite E, reverse_snoc.
Qed.
Lemma linked_length (c : Chain SproutT SaplingT OrchardT HistoryT) fbs bs : chain_repr c bs -> linked fbs bs -> Z.of_nat (length bs) <= Height_MAX + 1.
Proof.
  intros [[Hhs _ _ _] _] Hl. rewrite Height_MAX_value. destruct bs as [|b bs]; [cbn; lia|].
  destruct bs as [|b' bs _] using rev_ind; [cbn; lia|]. destruct Hhs as [(_ & Hall & _) _].
  destruct (Hl (S (length bs)) b') as [Hh _]; [by apply (list_lookup_middle (b :: bs) [] b')|].
  assert (cv_height b < cv_height b' <= Height_MAX) as [_ Hmax].
  { apply Hall, list_elem_of_fmap_2, elem_of_app. right. left. }
  rewrite Height_MAX_value in Hmax. cbn [length]. rewrite length_app. cbn. lia.
Qed.
Lemma past_reorg_limit_repr t fbs bss best :
  task_repr t fbs (bss ++ [best]) -> past_reorg_limit t = Ok (MAX_BLOCK_REORG_HEIGHT <? Z.of_nat (length best)).
Proof.
  intros [_ Hs Hl _ _ _]. destruct (best_chain_repr _ _ _ Hs) as (c & Hb & Hc). unfold past_reorg_limit, best_chain_len.
  rewrite Hb. cbn [fmap option_fmap option_map unwrap mbind res_bind]. rewrite (chain_len_repr _ _ Hc).
  apply Forall_app in Hl as [_ Hl]. apply Forall_cons in Hl as [Hl _]. pose proof (linked_length _ _ _ Hc Hl) as Hlen.
  rewrite Height_MAX_value in Hlen. unfold as_unsigned. rewrite Z.mod_small by lia. done.
Qed.
Lemma prev_ok_snoc fbs (f : finalized_block) : prev_ok (fbs ++ [f]) (Some (treestate_trees (fb_treestate f))).
Proof. intros t [= <-] b Hb. rewrite last_snoc in Hb. injection Hb as <-. done. Qed.

Lemma reorg_loop_repr fuel t fbs bss best t' :
  let k := (length best - Z.to_nat MAX_BLOCK_REORG_HEIGHT)%nat in
  task_repr t fbs (bss ++ [best]) -> prev_ok fbs (prev_finalized_note_commitment_trees t) -> (k <= fuel)%nat ->
  finalize_past_reorg_limit fuel t = Ok t' ->
  exists new bss', Forall2 finalized_from (take k best) new
    /\ task_repr t' (fbs ++ new) (bss' ++ [drop k best]) /\ prev_ok (fbs ++ new) (prev_finalized_note_commitment_trees t').
Proof.
  revert t fbs bss best. induction fuel as [|fuel IH]; intros t fbs bss best k R Hprev Hk Hr.
  all: assert (HM : MAX_BLOCK_REORG_HEIGHT = 99) by reflexivity.
  all: cbn [finalize_past_reorg_limit] in Hr; rewrite (past_reorg_limit_repr _ _ _ _ R) in Hr; cbn [mbind res_bind] in Hr.
  all: destruct (Z.ltb_spec MAX_BLOCK_REORG_HEIGHT (Z.of_nat (length best))) as [Hlt|Hge]; cbn [negb] in Hr.
  1: lia.
  1,3: injection Hr as <-; exists [], bss; replace k with 0%nat by lia; rewrite app_nil_r; split_and!; [constructor|done|done].
  destruct best as [|b best]; [cbn in Hlt; lia|]. cbn [length] in *.
  apply bind_Ok_inv in Hr as ([trs t1] & Hroot & Hr).
  destruct (finalize_root_repr _ _ _ _ _ _ trs t1 R Hprev Hroot) as (f & Hf & -> & R1).
  unfold chains_after in R1. rewrite decide_False in R1 by (intros ->; cbn in Hlt; lia).
  match type of Hr with finalize_past_reorg_limit _ ?t2 = _ =>
    destruct (IH t2 (fbs ++ [f]) (keep_root b bss) best) as (new & bss' & Hnew & R2 & Hp2); [| | |exact Hr|] end.
  - eapply task_repr_sublist; [exact R1|done|done|apply R1].
  - apply prev_ok_snoc.
  - lia.
  - exists (f :: new), bss'. replace k with (S (length best - Z.to_nat MAX_BLOCK_REORG_HEIGHT)) by lia.
    rewrite <- app_assoc in R2, Hp2. split_and!; [by constructor|done|done].
Qed.

(** C24. The reorg limit: after a block is committed, the loop that finalizes
    the blocks past the limit ends because the best chain has at most as many
    blocks as the limit, and not earlier: the blocks that it moved to the
    database are exactly those of the best chain before its last ninety-nine,
    in order, provided that the trees kept from the last commit are those of
    the finalized tip. *)
Theorem reorg_limit_finalizes t fbs bss best t' :
  let k := (length best - Z.to_nat MAX_BLOCK_REORG_HEIGHT)%nat in
  task_repr t fbs (bss ++ [best]) -> prev_ok fbs (prev_finalized_note_commitment_trees t) ->
  finalize_past_reorg_limit (best_chain_blocks t) t = Ok t' ->
  past_reorg_limit t' = Ok false
  /\ exists new bss', Forall2 finalized_from (take k best) new
    /\ task_repr t' (fbs ++ new) (bss' ++ [drop k best]) /\ prev_ok (fbs ++ new) (prev_finalized_note_commitment_trees t').
Proof.
  intros k R Hprev Hr. assert (best_chain_blocks t = length best) as Hb.
  { destruct (best_chain_repr _ _ _ (tr_chains _ _ _ R)) as (c & Hb & Hc). unfold best_chain_blocks. rewrite Hb.
    by apply chain_len_repr. }
  rewrite Hb in Hr. edestruct (reorg_loop_repr (length best)) as (new & bss' & Hnew & R' & Hp); [exact R|done| |exact Hr|]; [lia|].
  split; [|by exists new, bss']. rewrite (past_reorg_limit_repr _ _ _ _ R'). f_equal. apply Z.ltb_ge. rewrite length_drop.
  assert (MAX_BLOCK_REORG_HEIGHT = 99) by reflexivity. lia.
Qed.
End CrosslinkFinality.

(** ** Examples *)

(** The database has the genesis block; two forks follow it with a common
    block, which adds a note to the sapling tree. *)
Module WriteExample.
#[local] Existing Instance Example.tree.
#[local] Existing Instance Example.subtree.
#[local] Existing Instance Example.tree_laws.
#[local] Existing Instance Example.history.
#[local] Existing Instance Example.context.
#[local] Existing Instance FinExample.empty_tree.
#[local] Existing Instance FinExample.stored_history.
#[local] Existing Instance FinExample.history_root.
#[local] Existing Instance FinExample.commitments.
#[local] Existing Instance release_build.
Import Example FinExample.
Abbreviation state := (NonFinalizedState bytes bytes bytes nat).
Abbreviation task := (@WriteBlockWorkerTask bytes bytes bytes nat).

Definition child (height : Z) (parent hash tx_hash : bytes) (notes : list bytes) : ContextuallyVerifiedBlock :=
  mkContextuallyVerifiedBlock (mkBlock (header_after parent) [coinbase height notes]) hash height
    {[ mkOutPoint tx_hash 0 := miner_output height ]} ∅ [tx_hash] (from_transparent_amount 5).
Definition common := child 1 [Byte.xb0] [Byte.xe1] [Byte.xf1] [[Byte.xa1]].
Definition left_fork := child 2 [Byte.xe1] [Byte.xe2] [Byte.xf2] [].
Definition right_fork := child 2 [Byte.xe1] [Byte.xe3] [Byte.xf3] [].
Definition chain_common : chain := get empty_chain (push ReadExample.start common).
Definition chain_left : chain := get empty_chain (push chain_common left_fork).
Definition chain_right : chain := get empty_chain (push chain_common right_fork).

Lemma small_child : Forall (fun b => small_ops (example_ops b)) [common; left_fork; right_fork].
Proof. repeat constructor; vm_compute example_ops; cbn; case_decide; cbn; lia. Qed.

Lemma common_repr : chain_repr chain_common [common] /\ chain_network chain_common = Mainnet.
Proof.
  destruct ReadExample.start_repr as (Hrep & Hn & Hs). rewrite <- Hn. apply (push_repr ReadExample.start [] common chain_common Hrep).
  - ReadExample.follow_read_example. pose proof small_child as Hc. inversion Hc; subst. by constructor.
  - apply (get_ok empty_chain (push ReadExample.start common)). vm_compute. reflexivity.
Qed.
Lemma forks_repr : chain_repr chain_left [common; left_fork] /\ chain_repr chain_right [common; right_fork].
Proof.
  destruct common_repr as [Hrep Hn]. pose proof small_child as Hc. rewrite !Forall_cons in Hc. destruct Hc as (H1 & H2 & H3 & _). split.
  - apply (push_repr chain_common [common] left_fork chain_left Hrep).
    + ReadExample.follow_read_example. by repeat (apply List.Forall_cons; [assumption|]).
    + apply (get_ok empty_chain (push chain_common left_fork)). vm_compute. reflexivity.
  - apply (push_repr chain_common [common] right_fork chain_right Hrep).
    + ReadExample.follow_read_example. by repeat (apply List.Forall_cons; [assumption|]).
    + apply (get_ok empty_chain (push chain_common right_fork)). vm_compute. reflexivity.
Qed.

(** The tip hash of the right fork is higher. *)
Definition forks : state := mkNonFinalizedState [chain_left; chain_right] [] Mainnet false.
Definition fork_blocks : list (list ContextuallyVerifiedBlock) := [[common; left_fork]; [common; right_fork]].
Lemma forks_state : state_repr forks fork_blocks.
Proof.
  destruct forks_repr as [Hl Hr]. split; [split|split].
  - constructor; [by repeat constructor|]. constructor; [|constructor]. vm_compute. reflexivity.
  - cbn. unfold MAX_NON_FINALIZED_CHAIN_FORKS. lia.
  - cbn. lia.
  - exact (List.Forall2_cons _ _ Hl (List.Forall2_cons _ _ Hr (List.Forall2_nil _))).
  - by apply Forall_forall; intros bs [->|[->|?%not_elem_of_nil]%elem_of_cons]%elem_of_cons.
Qed.

(** The task after the genesis block was committed as a checkpoint. *)
Definition genesis_trees : NoteCommitmentTrees bytes bytes bytes := mkNoteCommitmentTrees [] [] None [] None.
Definition writer : task :=
  mkWriteBlockWorkerTask db1 forks [] false (ChainTipSender_new None) (mkWatch forks 0 true false) None (Some genesis_trees) [].

Lemma fork_cases (P : list ContextuallyVerifiedBlock -> Prop) bs :
  bs ∈ fork_blocks -> P [common; left_fork] -> P [common; right_fork] -> P bs.
Proof. intros [->|[->|?%not_elem_of_nil]%elem_of_cons]%elem_of_cons; done. Qed.
Lemma fork_block_cases bs b : bs ∈ fork_blocks -> b ∈ bs -> b = common \/ b = left_fork \/ b = right_fork.
Proof.
  intros Hbs. apply (fork_cases (fun bs => b ∈ bs -> _) bs Hbs);
    intros [->|[->|?%not_elem_of_nil]%elem_of_cons]%elem_of_cons; tauto.
Qed.
Lemma fork_new bs : bs ∈ fork_blocks -> fresh [block_of genesis] bs.
Proof.
  intros Hbs. apply (fork_cases _ bs Hbs); intros done b rest fdone ts E Hd.
  all: destruct done as [|b1 [|b2 done]]; [| |by destruct done].
  all: injection E; intros; subst; inversion Hd; subst; clear Hd E.
  all: repeat match goal with Hf : Forall2 _ [] _ |- _ => inversion Hf; subst; clear Hf | Hf : finalized_from _ _ |- _ => destruct Hf as [? ->] end.
  all: apply is_new_sound; vm_compute; reflexivity.
Qed.
Lemma writer_repr : task_repr writer [block_of genesis] fork_blocks.
Proof.
  split.
  - apply (commit_step db0 [] genesis); [constructor|done|by apply is_new_sound; vm_compute|vm_compute; reflexivity].
  - exact forks_state.
  - apply Forall_forall. intros bs Hbs. apply (fork_cases _ bs Hbs); intros [|[|i]] b; try done; intros [= <-]; split; reflexivity.
  - apply Forall_forall. exact fork_new.
  - intros bs1 bs2 b1 b2 I1 I2 J1 J2 Hh.
    destruct (fork_block_cases _ _ I1 J1) as [->|[->| ->]], (fork_block_cases _ _ I2 J2) as [->|[->| ->]]; done.
  - assert (Hne : [common; left_fork] <> [common; right_fork]) by (intros E%(f_equal (fmap cv_hash)); done).
    split; [apply NoDup_cons; split; [by rewrite list_elem_of_singleton|apply NoDup_singleton]|].
    intros bs1 bs2 I1 I2 [k Hk]. revert Hk. pattern bs1. apply (fork_cases _ bs1 I1); pattern bs2; apply (fork_cases _ bs2 I2).
    all: intros E; destruct k; [|apply (f_equal length) in E; discriminate E]; by rewrite app_nil_r in E.
Qed.

(** The common block of the forks is finalized. *)
Definition finalize_common : Response * task := get (Finalized (inl []), writer) (write_message writer (CrosslinkFinalized [Byte.xe1])).
Lemma finalize_common_ok : write_message writer (CrosslinkFinalized [Byte.xe1]) = Ok (finalize_common.1, finalize_common.2).
Proof. rewrite <- surjective_pairing. apply get_ok. vm_compute. reflexivity. Qed.

Lemma crosslink_finality_witness :
  exists new, task_repr finalize_common.2 (block_of genesis :: new) [[left_fork]; [right_fork]] /\ Forall2 finalized_from [common] new.
Proof.
  destruct (crosslink_finality _ _ _ _ _ _ writer_repr finalize_common_ok) as [Hsome _].
  destruct (Hsome [common; right_fork]) as (before & x & after & new & E & Hx & _ & Hnew & R); [reflexivity|].
  assert (before = [] /\ x = common) as [-> ->].
  { destruct before as [|y [|z before]]; [by injection E as -> _| |by destruct before].
    injection E as _ <- _. discriminate Hx. }
  exists new. split; [|done]. inversion Hnew as [|? f ? new' ? Hn']; subst. inversion Hn'; subst. exact R.
Defined.

(** The sapling tree of the common block is stored again with the next block. *)
Definition sapling_heights (t : task) : list Z := (cf_note_commitment_tree (sapling_cf (finalized_state t))).*1.
Lemma crosslink_leaves_stale_trees_witness :
  prev_finalized_note_commitment_trees finalize_common.2 = Some genesis_trees
  /\ sapling_heights finalize_common.2 = [0; 1]
  /\ (sapling_heights ∘ snd <$> finalize_root finalize_common.2 (prev_finalized_note_commitment_trees finalize_common.2)) = Ok [0; 1; 2]
  /\ (sapling_heights ∘ snd <$> finalize_root finalize_common.2 None) = Ok [0; 1].
Proof.
  split; [apply (crosslink_leaves_stale_trees _ _ _ _ genesis_trees finalize_common_ok); reflexivity|].
  split_and!; vm_compute; reflexivity.
Defined.

Definition without_chains : task := with_states writer db1 (NonFinalizedState_new Mainnet) None.
Lemma invalidate_without_chains_panics_witness : write_message without_chains (Invalidate [Byte.xe1]) = Panic.
Proof. apply (invalidate_without_chains_panics without_chains [Byte.xe1]). reflexivity. Defined.

(** A child of a rejected block. *)
Definition rejected : CommitSemanticallyVerifiedError := NotContextuallyValid NotReadyToBeCommitted.
Definition orphan : SemanticallyVerifiedBlock := semantically_from_contextually_verified left_fork.
Lemma rejected_parents_witness :
  exists t', write_message (with_errors writer [([Byte.xe1], rejected)]) (Commit orphan) = Ok (Committed (inr rejected), t').
Proof.
  destruct (rejected_parents (with_errors writer [([Byte.xe1], rejected)])) as (_ & _ & Hc).
  - apply Nat.leb_le. reflexivity.
  - apply Hc. reflexivity.
Defined.

(** The left fork is finalized, which ends the right one. *)
Definition both_messages : list NonFinalizedWriteMessage := [CrosslinkFinalized [Byte.xe1]; CrosslinkFinalized [Byte.xe2]].
Definition finalize_left : list Response * task := get ([], writer) (run_task writer [] both_messages).
Lemma finality_irrevocable_witness :
  fdb_hash (finalized_state finalize_left.2) 0 = Some [Byte.xb0] /\ fdb_hash (finalized_state finalize_left.2) 2 = Some [Byte.xe2].
Proof.
  split; [|vm_compute; reflexivity].
  assert (Hr : run_task writer [] both_messages = Ok (finalize_left.1, finalize_left.2)).
  { rewrite <- surjective_pairing. apply (get_ok ([], writer) (run_task writer [] both_messages)). vm_compute. reflexivity. }
  destruct (finality_irrevocable writer [[Byte.xb0]] [] both_messages finalize_left.1 finalize_left.2) as [_ Hk].
  - split; vm_compute; [reflexivity|discriminate].
  - exact Hr.
  - apply Hk. vm_compute. reflexivity.
Defined.

(** A chain of a hundred blocks on the genesis block: one more than the limit. *)
Definition long_hash (i : nat) : bytes :=
  match i with O => [Byte.xb0] | _ => [Byte.xcc; byte.of_Z (Z.of_nat i)] end.
Definition long_block (i : nat) : ContextuallyVerifiedBlock :=
  child (Z.of_nat i) (long_hash (pred i)) (long_hash i) (Byte.xdd :: long_hash i) [].
Definition long_blocks : list ContextuallyVerifiedBlock := long_block <$> seq 1 100.
Definition long_chain : chain := get empty_chain (foldM push ReadExample.start long_blocks).
Lemma long_chain_ok : foldM push ReadExample.start long_blocks = Ok long_chain.
Proof.
  assert (Hok : is_ok (foldM push ReadExample.start long_blocks) = true) by (vm_compute; reflexivity). unfold long_chain.
  by destruct (foldM push ReadExample.start long_blocks).
Qed.
Lemma small_long : Forall (fun b => small_ops (example_ops b)) long_blocks.
Proof.
  change (Forall (small_ops ∘ example_ops) long_blocks). rewrite <- Forall_fmap.
  let ops := eval vm_compute in (example_ops <$> long_blocks) in replace (example_ops <$> long_blocks) with ops by (vm_compute; reflexivity).
  repeat (apply List.Forall_cons; [intros a; cbn; case_decide; cbn; lia|]). apply List.Forall_nil.
Qed.

Lemma push_all_repr bs done c c' :
  chain_repr c done -> chain_network c = Mainnet -> (done = [] -> starts_below 1 (inner c)) ->
  cv_height <$> (done ++ bs) = (fun k => 1 + Z.of_nat k) <$> seq 0 (length (done ++ bs)) ->
  Forall (fun b => small_ops (example_ops b)) (done ++ bs) ->
  Forall (fun b => pools_in NegativeAllowed (cv_chain_value_pool_change b)) bs -> (length (done ++ bs) <= 1000)%nat ->
  foldM push c bs = Ok c' -> chain_repr c' (done ++ bs).
Proof.
  revert done c. induction bs as [|b bs IH]; intros done c Hrep Hn Hstart Hh Hsmall Hpools Hlen Hpush.
  { injection Hpush as <-. by rewrite app_nil_r. }
  cbn [foldM] in Hpush. apply bind_Ok_inv in Hpush as (c1 & Hb & Hpush). apply Forall_cons in Hpools as [Hpool Hpools].
  replace (done ++ b :: bs) with ((done ++ [b]) ++ bs) in * by by rewrite <- app_assoc.
  assert (Hpre : cv_height <$> (done ++ [b]) = (fun k => 1 + Z.of_nat k) <$> seq 0 (length (done ++ [b]))).
  { apply (f_equal (take (length (done ++ [b])))) in Hh. rewrite <- !fmap_take, take_app_length, take_seq in Hh.
    rewrite Hh. do 2 f_equal. rewrite (length_app (done ++ [b])). lia. }
  rewrite length_app in Hlen.
  destruct (push_repr c done b c1 Hrep) as [Hrep1 Hn1]; [split|done|].
  - rewrite Hpre. apply ReprExample.heights_chain_seq; [lia|]. rewrite Height_MAX_value. lia.
  - intros ->. injection Hpre as Hb1. rewrite Hb1. by apply Hstart.
  - done.
  - intros a. rewrite Hn. apply ReprExample.small_volume; [by apply Forall_app in Hsmall as [? _]|lia].
  - apply (IH (done ++ [b]) c1); try done; [congruence|by destruct done|rewrite length_app; lia].
Qed.
Lemma long_repr : chain_repr long_chain long_blocks.
Proof.
  destruct ReadExample.start_repr as (Hrep & Hn & Hs). apply (push_all_repr long_blocks [] ReadExample.start).
  - exact Hrep.
  - exact Hn.
  - intros _. exact Hs.
  - vm_compute. reflexivity.
  - exact small_long.
  - apply Forall_fmap, Forall_true. intros i. repeat split; vm_compute; discriminate.
  - apply Nat.leb_le. reflexivity.
  - exact long_chain_ok.
Qed.

Lemma long_hash_inj i j : (i <= 100)%nat -> (j <= 100)%nat -> long_hash i = long_hash j -> i = j.
Proof.
  intros Hi Hj E. assert (Hnd : NoDup (long_hash <$> seq 0 101)) by (apply (bool_decide_unpack _); vm_compute; exact I).
  apply (NoDup_lookup _ _ _ (long_hash i) Hnd); rewrite list_lookup_fmap, lookup_seq_lt by lia; cbn; by rewrite ?E.
Qed.
Lemma long_lookup i b : long_blocks !! i = Some b -> (i < 100)%nat /\ b = long_block (S i).
Proof. unfold long_blocks. rewrite list_lookup_fmap. intros (j & [-> Hj]%lookup_seq & ->)%fmap_Some. done. Qed.

Lemma long_linked : linked [block_of genesis] long_blocks.
Proof.
  intros i b [Hi ->]%long_lookup. split; [done|]. unfold long_blocks. rewrite <- fmap_take, take_seq, <- list_fmap_compose.
  cbn [long_block child cv_block block_header header_after previous_block_hash Nat.pred]. destruct i as [|i]; [done|].
  replace (S i `min` 100)%nat with (S i) by lia. rewrite seq_S, fmap_app. cbn [fmap list_fmap]. rewrite app_assoc, last_snoc. done.
Qed.
Lemma long_fresh : fresh [block_of genesis] long_blocks.
Proof.
  intros done b rest fdone ts E Hd. destruct (long_lookup (length done) b) as [Hlen ->].
  { rewrite E. by apply list_lookup_middle. }
  assert (Hdone : forall f, f ∈ fdone -> exists j ts', (0 < j <= length done)%nat /\ f = from_contextually_verified (long_block j) ts').
  { intros f [i Hf]%list_elem_of_lookup. destruct (Forall2_lookup_r _ _ _ _ _ Hd Hf) as (x & Hx & ts' & ->).
    pose proof (lookup_lt_Some _ _ _ Hx). exists (S i), ts'. split; [lia|].
    destruct (long_lookup i x) as [_ ->]; [|done]. rewrite E. by apply lookup_app_l_Some. }
  split; cbn -[long_hash].
  - done.
  - apply NoDup_singleton.
  - intros f hash [->|(j & ts' & Hj & ->)%Hdone]%elem_of_cons ->%list_elem_of_singleton; cbn -[long_hash];
      rewrite list_elem_of_singleton; [done|].
    intros [= Heq]. apply (long_hash_inj (S (length done)) j) in Heq; lia.
  - intros f [->|(j & ts' & Hj & ->)%Hdone]%elem_of_cons; cbn -[long_hash]; [done|].
    intros Heq. apply (long_hash_inj j (S (length done))) in Heq; lia.
  - intros op u [<- <-]%lookup_singleton_Some. by exists 0%nat, (mkOutput 5 [Byte.x2a]).
Qed.

Definition long_writer : task :=
  mkWriteBlockWorkerTask db1 (mkNonFinalizedState [long_chain] [] Mainnet false) [] false (ChainTipSender_new None)
    (mkWatch forks 0 true false) None (Some genesis_trees) [].
Lemma long_writer_repr : task_repr long_writer [block_of genesis] [long_blocks].
Proof.
  split.
  - apply (commit_step db0 [] genesis); [constructor|done|by apply is_new_sound; vm_compute|vm_compute; reflexivity].
  - split; [split; cbn; [repeat constructor|unfold MAX_NON_FINALIZED_CHAIN_FORKS; lia|lia]|]. split.
    + exact (List.Forall2_cons _ _ long_repr (List.Forall2_nil _)).
    + by apply Forall_singleton.
  - apply Forall_singleton, long_linked.
  - apply Forall_singleton, long_fresh.
  - intros bs1 bs2 b1 b2 ->%list_elem_of_singleton ->%list_elem_of_singleton [i [Hi ->]%long_lookup]%list_elem_of_lookup
      [j [Hj ->]%long_lookup]%list_elem_of_lookup Heq. f_equal. apply long_hash_inj; [lia..|exact Heq].
  - split; [apply NoDup_singleton|]. by intros bs1 bs2 ->%list_elem_of_singleton ->%list_elem_of_singleton.
Qed.

Definition long_after : task := get writer (finalize_past_reorg_limit (best_chain_blocks long_writer) long_writer).
Lemma long_after_ok : finalize_past_reorg_limit (best_chain_blocks long_writer) long_writer = Ok long_after.
Proof.
  assert (Hok : is_ok (finalize_past_reorg_limit (best_chain_blocks long_writer) long_writer) = true) by (vm_compute; reflexivity).
  unfold long_after. by destruct (finalize_past_reorg_limit (best_chain_blocks long_writer) long_writer).
Qed.
Lemma reorg_limit_finalizes_witness :
  past_reorg_limit long_after = Ok false
  /\ exists new bss', Forall2 finalized_from [long_block 1] new
     /\ task_repr long_after (block_of genesis :: new) (bss' ++ [long_block <$> seq 2 99]).
Proof.
  assert (Hp : prev_ok [block_of genesis] (Some genesis_trees)) by (intros t [= <-] f [= <-]; repeat split; reflexivity).
  destruct (reorg_limit_finalizes long_writer [block_of genesis] [] long_blocks long_after long_writer_repr Hp long_after_ok)
    as (Hpast & new & bss' & Hnew & R & _).
  split; [exact Hpast|]. exists new, bss'. split; [exact Hnew|exact R].
Defined.
End WriteExample.
