(* ===== verification/StateService.v ===== *)
(** The requests that the Crosslink service sends to the state service
    ([zebra-state/src/service.rs]), as an interface and with the handlers that
    implement it.

    A request reads the non-finalized state that the write task published last
    and the live database. A panic of a handler, or of the write task, is a
    panic of the request. *)
From S2P Require Import Prelude BTreeMap Height Amount ValueBalance NetworkUpgrade BlockHeader Transaction BlockCommitment TransparentIndex DiskFormat ChainIndexes Chain ChainRepr ContextChecks FinalizedState FinalizedRepr NonFinalizedState StateRead ChainTip WriteBlock.
From stdpp Require Import strings gmap gmultiset sorting prelude.
From Stdlib Require Import ZArith Lia.
#[local] Open Scope Z_scope.

Definition MAX_FIND_BLOCK_HASHES_RESULTS : Z := 500.
Definition MAX_FIND_BLOCK_HEADERS_RESULTS : Z := 160.

(** ** The interface *)

(** The response to [BlockHeader]. *)
Record HeaderResponse := mkHeaderResponse {
  hr_header : Header;
  hr_hash : bytes;
  hr_height : Z;
  hr_next_block_hash : option bytes
}.

(** The calls on a state of the service; an [Err] is the boxed error. *)
Class StateCalls (W : Type) := {
  call_tip : W -> res string (option (Z * bytes));
  call_known_block : W -> bytes -> res string (option KnownBlock);
  call_block_header : W -> HashOrHeight -> res string HeaderResponse;
  call_block : W -> HashOrHeight -> res string (option Block);
  call_block_locator : W -> res string (list bytes);
  call_find_block_hashes : W -> list bytes -> option bytes -> res string (list bytes);
  call_find_block_headers : W -> list bytes -> option bytes -> res string (list Header);
  call_transaction : W -> bytes -> res string (option (Transaction * Z * Z * Z));
  call_crosslink_finalize : W -> bytes -> outcome ((bytes + string) * W)
}.

(** What the calls promise of the best chain of blocks, as pairs of hash and
    block from genesis on. *)
Definition not_found : string := "block hash or height not found".
Definition header_response (F : list (bytes * Block)) (k : nat) : res string HeaderResponse :=
  e ← ok_or (F !! k) not_found;
  Ok (mkHeaderResponse (block_header e.2) e.1 (Z.of_nat k) (fst <$> F !! S k)).

Record serves `{!StateCalls W} (w : W) (F : list (bytes * Block)) : Prop := {
  sv_nodup : NoDup F.*1;
  sv_length : Z.of_nat (length F) <= Height_MAX;
  sv_tip : call_tip w = Ok ((fun e => (Z.of_nat (length F) - 1, e.1)) <$> last F);
  sv_known : forall k e, F !! k = Some e ->
    exists loc, call_known_block w e.1 = Ok (Some (mkKnownBlock loc (Z.of_nat k)));
  sv_header_hash : forall hash, call_block_header w (Hash hash)
    = match index_of hash F.*1 with Some k => header_response F k | None => Err not_found end;
  sv_header_height : forall h, call_block_header w (Height h)
    = if h <? 0 then Err not_found else header_response F (Z.to_nat h);
  sv_block : forall hash, call_block w (Hash hash) = Ok (k ← index_of hash F.*1; snd <$> F !! k);
  sv_locator : exists l, call_block_locator w = Ok l /\ last l = fst <$> F !! (length F - 100)%nat;
  sv_hashes : forall known stop, call_find_block_hashes w known stop
    = Ok (find_spec F.*1 F.*1 (length F) known stop MAX_FIND_BLOCK_HASHES_RESULTS);
  sv_headers : forall known stop, call_find_block_headers w known stop
    = Ok (find_spec F.*1 ((fun e => block_header e.2) <$> F) (length F) known stop MAX_FIND_BLOCK_HEADERS_RESULTS)
}.

(** ** The handlers *)

Section Handlers.
Context {SproutT SaplingT OrchardT HistoryT : Type}
  `{!NoteTree SproutT} `{!NoteTree SaplingT} `{!SubtreeTree SaplingT} `{!NoteTree OrchardT} `{!SubtreeTree OrchardT}
  `{!DefaultTree SproutT} `{!DefaultTree SaplingT} `{!DefaultTree OrchardT}
  `{!HistoryTreeOps HistoryT} `{!HistoryTreeHash HistoryT} `{!StoredHistory HistoryT}
  `{!ChainContext} `{!CommitmentOps} `{BuildProfile}.
Abbreviation chain := (Chain SproutT SaplingT OrchardT HistoryT).
Abbreviation finalized_db := (@FinalizedDb SproutT SaplingT OrchardT HistoryT).
Abbreviation task := (@WriteBlockWorkerTask SproutT SaplingT OrchardT HistoryT).

(** The write task, and the senders that are still open: the one of finalized
    blocks is dropped after the last checkpoint. *)
Record StateService := mkStateService {
  write_task : task;
  sender_finalized : bool;
  sender_non_finalized : bool
}.
Implicit Types (w : StateService).

Definition latest_non_finalized_state w := watch_value (non_finalized_state_sender (write_task w)).
Definition latest_best_chain w : option chain := best_chain (latest_non_finalized_state w).
Definition service_db w : finalized_db := finalized_state (write_task w).

Definition request_known_block w (hash : bytes) : option KnownBlock :=
  option_or (non_finalized_state_contains_block_hash (latest_non_finalized_state w) hash)
    (finalized_state_contains_block_hash (service_db w) hash).

Definition height_error (e : HeightError) : string :=
  match e with
  | Underflow => "The resulting height would underflow Height::MIN."
  | Overflow => "The resulting height would overflow Height::MAX."
  end.
Definition request_block_header (c : option chain) (db : finalized_db) (hash_or_height : HashOrHeight)
    : res string HeaderResponse :=
  height ← ok_or (match hash_or_height with Hash hash => read_height_by_hash c db hash | Height height => Some height end)
             not_found;
  hash ← ok_or (match hash_or_height with Hash hash => Some hash | Height height => read_hash_by_height c db height end)
           not_found;
  next_height ← map_err height_error (height_next height);
  let next_block_hash := read_hash_by_height c db next_height in
  header ← ok_or (read_block_header c db (Height height)) not_found;
  Ok (mkHeaderResponse header hash height next_block_hash).

Definition send_crosslink_finalized w (hash : bytes) : outcome ((bytes + string) * StateService) :=
  if sender_finalized w || negb (sender_non_finalized w)
  then Ok (inr "not ready to crosslink-finalize blocks"%string, w)
  else
    '(rsp, t) ← write_message (write_task w) (CrosslinkFinalized hash);
    Ok (match rsp with Finalized r => r | _ => inr "block was dropped from the queue of finalized blocks"%string end,
        mkStateService t (sender_finalized w) (sender_non_finalized w)).

#[export] Instance zebra_state_calls : StateCalls StateService := {|
  call_tip w := lift (read_tip (latest_best_chain w) (service_db w));
  call_known_block w hash := Ok (request_known_block w hash);
  call_block_header w hh := request_block_header (latest_best_chain w) (service_db w) hh;
  call_block w hh := Ok (read_block (latest_best_chain w) (service_db w) hh);
  call_block_locator w := l ← lift (block_locator (latest_best_chain w) (service_db w)); Ok (default [] l);
  call_find_block_hashes w known stop :=
    lift (find_chain_hashes (latest_best_chain w) (service_db w) known stop MAX_FIND_BLOCK_HASHES_RESULTS);
  call_find_block_headers w known stop :=
    lift (find_chain_headers (latest_best_chain w) (service_db w) known stop MAX_FIND_BLOCK_HEADERS_RESULTS);
  call_transaction w hash := lift (mined_transaction (latest_best_chain w) (service_db w) hash);
  call_crosslink_finalize := send_crosslink_finalized
|}.

(** * The handlers serve the best chain *)

(** A block of the best chain that another chain also has is at the same
    height there. *)
Definition sides_agree w (F : list (bytes * Block)) : Prop :=
  forall (c : chain) hash h k, c ∈ chain_set (latest_non_finalized_state w) ->
    height_by_hash (inner c) !! hash = Some h -> F.*1 !! k = Some hash -> h = Z.of_nat k.

Lemma view_tip F n first top (c : option chain) (db : finalized_db) :
  view F n first top c db -> read_tip c db = Ok ((fun e => (Z.of_nat top - 1, e.1)) <$> last (take top F)).
Proof.
  intros (_ & _ & D & Hc). unfold read_tip. destruct c as [c|]; [|subst top; by rewrite (dv_tip _ _ _ D)].
  destruct Hc as [C _]. rewrite (cv_tip_height _ _ _ _ C). cbn [mbind res_bind].
  pose proof (cv_tip_hash _ _ _ _ C) as E. apply fmap_Some in E as (hash & E & ->). cbn [mbind res_bind].
  pose proof (cv_bounds _ _ _ _ C). apply fmap_Some in E as (e & E & ->).
  destruct top as [|top]; [lia|]. cbn [pred] in E. by rewrite (take_S_r _ _ _ E), last_snoc.
Qed.
Lemma view_block_hash F n first top (c : option chain) (db : finalized_db) hash :
  view F n first top c db ->
  read_block c db (Hash hash) = (k ← index_of hash (known F n top).*1; snd <$> known F n top !! k).
Proof.
  intros V. pose proof (view_height _ _ _ _ _ _ hash V) as Hh. pose proof (view_nodup _ _ _ _ _ _ V) as Hnd.
  transitivity (h ← read_height_by_hash c db hash; read_block c db (Height h)).
  - unfold read_block, read_height_by_hash. destruct c as [c|]; cbn [mbind option_bind].
    + unfold chain_block. cbn [height_or_else]. destruct (height_by_hash (inner c) !! hash) as [h|] eqn:E; cbn [mbind option_bind option_or].
      * pose proof V as (_ & _ & _ & C & _). pose proof E as [Hb Hx]%(cv_by_hash _ _ _ _ C).
        pose proof (cv_get _ _ _ _ C h) as G. rewrite (proj2 (Z.leb_le _ _)), (proj2 (Z.ltb_lt _ _)) in G by lia. cbn [andb] in G.
        destruct (lookupZ F h); [|done]. by destruct (bt_get h (blocks (inner c))).
      * cbn [fmap option_fmap option_map option_or]. unfold fdb_block. cbn [fdb_height_or_else].
        destruct (fdb_height db hash) as [h|] eqn:Ed; [|done]. cbn [mbind option_bind].
        destruct (bt_get h (blocks (inner c))) as [b|] eqn:Eb; [|done]. exfalso.
        pose proof V as (_ & _ & D & C & _). apply (dv_height _ _ _ D) in Ed. pose proof (cv_get _ _ _ _ C h) as G. rewrite Eb in G.
        destruct (_ && _) eqn:Er; [|done]. apply andb_true_iff in Er as [?%Z.leb_le ?%Z.ltb_lt]. rewrite lookupZ_take in Ed.
        rewrite (proj2 (cv_by_hash _ _ _ _ C hash h)) in E; [done|]. split; [lia|]. by case_match.
    + cbn [option_or]. unfold fdb_block. cbn [fdb_height_or_else]. by destruct (fdb_height db hash).
  - rewrite Hh. destruct (index_of hash _) as [k|] eqn:E; [|done]. cbn [fmap option_fmap option_map mbind option_bind].
    rewrite (view_block _ _ _ _ _ _ _ V). by rewrite lookupZ_nat.
Qed.
Lemma known_top F n top : (n <= top)%nat -> known F n top = take top F.
Proof. intros Hn. unfold known. by rewrite Nat.max_l. Qed.

Lemma header_by_height F n first top (c : option chain) (db : finalized_db) h :
  view F n first top c db -> (n <= top)%nat -> Z.of_nat top <= Height_MAX ->
  request_block_header c db (Height h) = if h <? 0 then Err not_found else header_response (take top F) (Z.to_nat h).
Proof.
  intros V Hn Hmax. rewrite Height_MAX_value in Hmax. unfold request_block_header. cbn [ok_or mbind res_bind].
  rewrite (view_hash _ _ _ _ _ _ _ V), (view_header _ _ _ _ _ _ _ V), known_top by done.
  unfold lookupZ, header_response at 1. destruct (Z.ltb_spec h 0); [done|].
  destruct (take top F !! Z.to_nat h) as [e|] eqn:E; [|done]. cbn [fmap option_fmap option_map ok_or mbind res_bind].
  apply lookup_lt_Some in E as Hlt. rewrite length_take in Hlt.
  rewrite height_next_spec by width_lia.
  rewrite (proj2 (Z.ltb_lt _ _)) by (rewrite Height_MAX_value; lia). cbn [map_err mbind res_bind].
  rewrite (view_hash _ _ _ _ _ _ _ V), known_top by done. unfold lookupZ. rewrite (proj2 (Z.ltb_ge _ _)) by lia.
  replace (Z.to_nat (h + 1)) with (S (Z.to_nat h)) by lia. by rewrite Z2Nat.id by lia.
Qed.
Lemma header_by_hash F n first top (c : option chain) (db : finalized_db) hash :
  view F n first top c db -> (n <= top)%nat -> Z.of_nat top <= Height_MAX ->
  request_block_header c db (Hash hash)
  = match index_of hash (take top F).*1 with Some k => header_response (take top F) k | None => Err not_found end.
Proof.
  intros V Hn Hmax. pose proof (view_nodup _ _ _ _ _ _ V) as Hnd. pose proof (view_height _ _ _ _ _ _ hash V) as Hh.
  rewrite known_top in Hnd, Hh by done. destruct (index_of hash _) as [k|] eqn:E; cbn in Hh.
  - pose proof (header_by_height _ _ _ _ _ _ (Z.of_nat k) V Hn Hmax) as Hk.
    rewrite (proj2 (Z.ltb_ge _ _)), Nat2Z.id in Hk by lia. rewrite <- Hk. unfold request_block_header.
    rewrite Hh. cbn [ok_or mbind res_bind]. rewrite (view_hash _ _ _ _ _ _ _ V), known_top, lookupZ_nat, <- list_lookup_fmap by done.
    by rewrite (proj1 (index_of_Some _ _ _ Hnd) E).
  - unfold request_block_header. by rewrite Hh.
Qed.
Lemma locator_last F n first top (c : option chain) (db : finalized_db) :
  view F n first top c db -> (n <= top)%nat ->
  exists l, block_locator c db = Ok l /\ last (default [] l) = fst <$> take top F !! (top - 100)%nat.
Proof.
  intros V Hn. pose proof (view_bounds _ _ _ _ _ _ V) as Htop. unfold block_locator. rewrite (view_tip_height _ _ _ _ _ _ V).
  cbn [mbind res_bind]. destruct (decide (top = 0%nat)) as [->|Hne]; [by exists None|].
  eexists. split; [done|]. cbn [from_option]. unfold id, block_locator_heights. rewrite omap_app, last_app.
  assert (Z.of_nat (length F) <= 2 ^ 31) as Hmax by apply V.
  assert (u32_saturate (Z.of_nat top - 1 - MAX_BLOCK_REORG_HEIGHT) = Z.of_nat (top - 100)) as ->.
  { change MAX_BLOCK_REORG_HEIGHT with 99. unfold saturate, u32_MAX. lia. }
  cbn [omap list_omap]. rewrite (view_hash _ _ _ _ _ _ _ V), known_top, lookupZ_nat by done.
  destruct (lookup_lt_is_Some_2 (take top F) (top - 100)%nat) as [e ->]; [rewrite length_take; lia|]. done.
Qed.

Lemma known_block_height w F n first top k hash :
  view F n first top (latest_best_chain w) (service_db w) -> (n <= top)%nat -> sides_agree w (take top F) ->
  (take top F).*1 !! k = Some hash ->
  exists loc, request_known_block w hash = Some (mkKnownBlock loc (Z.of_nat k)).
Proof.
  intros V Hn Hsides Hk. pose proof (view_height _ _ _ _ _ _ hash V) as Hh. pose proof (view_nodup _ _ _ _ _ _ V) as Hnd.
  rewrite known_top in Hh, Hnd by done. rewrite (proj2 (index_of_Some _ _ _ Hnd) Hk) in Hh. cbn in Hh.
  unfold request_known_block, non_finalized_state_contains_block_hash, finalized_state_contains_block_hash.
  unfold read_height_by_hash, latest_best_chain, best_chain in Hh.
  destruct (chain_iter (latest_non_finalized_state w)) as [|best sides] eqn:E; cbn [head mbind option_bind option_or] in *.
  { rewrite Hh. by eexists. }
  destruct (height_by_hash (inner best) !! hash) as [h|] eqn:Eb; cbn [option_or] in *.
  { injection Hh as ->. by eexists. }
  destruct (head (omap _ sides)) as [h|] eqn:Es; cbn [fmap option_fmap option_map option_or].
  - apply head_Some_elem_of, list_elem_of_omap in Es as (c & Hc & Hx). eexists. do 3 f_equal. eapply Hsides; [|exact Hx|exact Hk].
    rewrite <- elem_of_reverse. change (reverse _) with (chain_iter (latest_non_finalized_state w)). rewrite E. by right.
  - rewrite Hh. by eexists.
Qed.

(** When the chain it published and the database agree on the blocks of the
    best chain, and the database is not ahead, the service answers by that list
    of blocks. *)
Lemma state_service_serves_view w F n first top :
  view F n first top (latest_best_chain w) (service_db w) -> (n <= top)%nat -> Z.of_nat top <= Height_MAX ->
  sides_agree w (take top F) -> serves w (take top F).
Proof.
  intros V Hn Hmax Hsides. pose proof (view_nodup _ _ _ _ _ _ V) as Hnd. pose proof (view_bounds _ _ _ _ _ _ V) as Htop.
  assert (Hlen : length (take top F) = top) by (rewrite length_take; lia). rewrite known_top in Hnd by done.
  split; cbn [call_tip call_known_block call_block_header call_block call_block_locator call_find_block_hashes
              call_find_block_headers zebra_state_calls]; rewrite ?Hlen.
  - done.
  - done.
  - by rewrite (view_tip _ _ _ _ _ _ V).
  - intros k e Hk. destruct (known_block_height w F n first top k e.1) as [loc ->]; [done..| |by exists loc].
    by rewrite list_lookup_fmap, Hk.
  - intros hash. by eapply header_by_hash.
  - intros h. by eapply header_by_height.
  - intros hash. by rewrite (view_block_hash _ _ _ _ _ _ _ V), known_top.
  - destruct (locator_last _ _ _ _ _ _ V Hn) as (l & -> & Hl). by eexists.
  - intros known stop. destruct (find_chain_view _ _ _ _ _ _ known stop MAX_FIND_BLOCK_HASHES_RESULTS V) as [-> _]; [by split|].
    by rewrite known_top.
  - intros known stop. destruct (find_chain_view _ _ _ _ _ _ known stop MAX_FIND_BLOCK_HEADERS_RESULTS V) as [_ ->]; [by split|].
    by rewrite known_top.
Qed.
End Handlers.

(** * Finality keeps the best chain *)

Section Finality.
Context {SproutT SaplingT OrchardT HistoryT : Type}
  `{!NoteTree SproutT} `{!NoteTree SaplingT} `{!SubtreeTree SaplingT} `{!NoteTree OrchardT} `{!SubtreeTree OrchardT}
  `{!NoteTreeLaws SproutT} `{!NoteTreeLaws SaplingT} `{!NoteTreeLaws OrchardT}
  `{!DefaultTree SproutT} `{!DefaultTree SaplingT} `{!DefaultTree OrchardT}
  `{!HistoryTreeOps HistoryT} `{!HistoryTreeHash HistoryT} `{!StoredHistory HistoryT}
  `{!ChainContext} `{!CommitmentOps} `{BuildProfile}.
Abbreviation chain := (Chain SproutT SaplingT OrchardT HistoryT).
Abbreviation nfs := (NonFinalizedState SproutT SaplingT OrchardT HistoryT).
Abbreviation finalized_db := (@FinalizedDb SproutT SaplingT OrchardT HistoryT).
Abbreviation finalized_block := (@FinalizedBlock SproutT SaplingT OrchardT HistoryT).
Abbreviation task := (@WriteBlockWorkerTask SproutT SaplingT OrchardT HistoryT).
Abbreviation service := (@StateService SproutT SaplingT OrchardT HistoryT).
Implicit Types (w : service) (t : task) (db : finalized_db) (fbs : list finalized_block)
  (bs best : list ContextuallyVerifiedBlock) (bss : list (list ContextuallyVerifiedBlock)).

(** The finalized blocks, then those of a chain. *)
Definition entries fbs bs : list (bytes * Block) := (db_entry <$> fbs) ++ (chain_entry <$> bs).

Lemma entries_hashes fbs bs : (entries fbs bs).*1 = (fb_hash <$> fbs) ++ (cv_hash <$> bs).
Proof. unfold entries. by rewrite fmap_app, <- !list_fmap_compose. Qed.

Lemma committed_nodup db fbs : committed db fbs -> NoDup (fb_hash <$> fbs).
Proof.
  induction 1 as [network|db fbs f prev b prev' hash ts db' _ IH _ _ Hnb _]; [constructor|].
  rewrite fmap_app. apply NoDup_app. split_and!; [done| |apply NoDup_singleton].
  intros h (b' & -> & Hb')%list_elem_of_fmap ?%list_elem_of_singleton. by destruct (nb_hash _ _ Hnb b' Hb').
Qed.

Lemma fresh_hashes fbs bs : WriteBlock.fresh fbs bs -> forall b, b ∈ bs -> cv_hash b ∉ fb_hash <$> fbs.
Proof.
  intros Hf b (done & rest & ->)%list_elem_of_split (f & Hx & Hin)%list_elem_of_fmap.
  set (ts := mkTreestate (mkNoteCommitmentTrees (default_tree : SproutT) (default_tree : SaplingT) None
                            (default_tree : OrchardT) None) (history_default : HistoryT)).
  apply (nb_hash _ _ (Hf done b rest ((fun x => from_contextually_verified x ts) <$> done) ts eq_refl ltac:(
    apply Forall2_fmap_r, Forall_Forall2_diag, Forall_true; intros x; by exists ts)) f); [|done].
  apply elem_of_app. by left.
Qed.
Lemma entries_nodup t fbs bss bs : task_repr t fbs bss -> bs ∈ bss -> NoDup (entries fbs bs).*1.
Proof.
  intros R Hbs. rewrite entries_hashes. apply NoDup_app. split_and!.
  - eapply committed_nodup, tr_db, R.
  - intros h Hh (b & -> & Hb)%list_elem_of_fmap. pose proof (tr_fresh _ _ _ R) as Hf. rewrite Forall_forall in Hf.
    by apply (fresh_hashes _ _ (Hf bs Hbs) b Hb).
  - destruct (tr_chains _ _ _ R) as (_ & Hrep & _). apply list_elem_of_lookup in Hbs as [i Hi].
    destruct (Forall2_lookup_r _ _ _ _ _ Hrep Hi) as (c & _ & [[_ Hnd _ _] _]). exact Hnd.
Qed.

Lemma finalized_entries bs (fs : list finalized_block) : Forall2 finalized_from bs fs -> db_entry <$> fs = chain_entry <$> bs.
Proof. induction 1 as [|b f bs fs [ts ->] _ IH]; [done|]. cbn [fmap list_fmap]. by rewrite IH. Qed.

(** The view of a chain, of which the database may have the first blocks. *)
Lemma service_view db fbs (new : list finalized_block) best (c : chain) :
  committed db (fbs ++ new) -> chain_repr c best -> best <> [] -> linked fbs best ->
  Forall2 finalized_from (take (length new) best) new -> NoDup (entries fbs best).*1 ->
  Z.of_nat (length (entries fbs best)) <= Height_MAX + 1 ->
  view (entries fbs best) (length (fbs ++ new)) (length fbs) (length (entries fbs best)) (Some c) db.
Proof.
  intros Hc Hrep Hne Hl Hnew Hnd Hlen. split; [done|]. split; [done|]. destruct (committed_repr _ _ Hc) as [[Rb _ _ _ _] _]. split.
  - apply (db_view_repr _ _ _ Rb). unfold entries. rewrite fmap_app, (finalized_entries _ _ Hnew).
    rewrite length_app, take_app_ge by (rewrite length_fmap; lia). rewrite length_fmap. f_equal. rewrite fmap_take. f_equal. lia.
  - rewrite length_app. split; [|lia]. unfold entries at 2. rewrite length_app, !length_fmap.
    apply (chain_view_repr _ _ _ _ Hrep Hne); [| |done].
    + unfold entries. rewrite drop_app_length' by by rewrite length_fmap. apply take_ge. by rewrite length_fmap.
    + intros i b Hi. destruct (Hl i b Hi) as [-> _]. lia.
Qed.

(** Every chain of the task has a block of the best chain at the same height. *)
Lemma task_sides_agree t w fbs bss bss' best :
  task_repr t fbs bss -> best ∈ bss -> (forall bs, bs ∈ bss' -> bs ∈ bss) ->
  state_repr (latest_non_finalized_state w) bss' -> sides_agree w (entries fbs best).
Proof.
  intros R Hbest Hsub (_ & Hrep & _) c hash h k Hc Hh Hk. pose proof R as [_ _ Hl Hf Hu _]. rewrite Forall_forall in Hl, Hf.
  apply list_elem_of_lookup in Hc as [i Hi]. destruct (Forall2_lookup_l _ _ _ _ _ Hrep Hi) as (bs & Hbs%list_elem_of_lookup_2%Hsub & Hcr).
  apply (height_by_hash_repr _ _ _ _ Hcr) in Hh as (b & Hb & <- & <-). rewrite entries_hashes in Hk.
  apply lookup_app_Some in Hk as [Hk%list_elem_of_lookup_2|[Hlt Hk]].
  { by destruct (fresh_hashes _ _ (Hf bs Hbs) b Hb). }
  rewrite list_lookup_fmap in Hk. apply fmap_Some in Hk as (b' & Hb' & E).
  assert (b = b') as -> by (apply (Hu bs best); [done..|by eapply list_elem_of_lookup_2|done]).
  destruct (Hl best Hbest _ _ Hb') as [-> _]. rewrite length_fmap in *. lia.
Qed.

(** A published chain serves, also when some of its blocks have been committed. *)
Lemma published_serves t w fbs new bss bss' best :
  task_repr t fbs bss -> (forall bs, bs ∈ bss' ++ [best] -> bs ∈ bss) ->
  state_repr (latest_non_finalized_state w) (bss' ++ [best]) -> committed (service_db w) (fbs ++ new) ->
  Forall2 finalized_from (take (length new) best) new -> Z.of_nat (length (entries fbs best)) <= Height_MAX ->
  serves w (entries fbs best).
Proof.
  intros R Hsub Hs Hc Hnew Hlen. destruct (best_chain_repr _ _ _ Hs) as (c & Hb & Hcr).
  assert (Hbest : best ∈ bss) by (apply Hsub, elem_of_app; right; left).
  assert (Hne : best <> []). { destruct Hs as (_ & _ & Hne). apply Forall_app in Hne as [_ Hne]. by inversion Hne. }
  pose proof (tr_linked _ _ _ R) as Hl. rewrite Forall_forall in Hl.
  assert (V : view (entries fbs best) (length (fbs ++ new)) (length fbs) (length (entries fbs best)) (latest_best_chain w) (service_db w)).
  { unfold latest_best_chain. rewrite Hb. apply service_view; [done|done|done|by apply Hl|done|by eapply entries_nodup|lia]. }
  rewrite <- (take_ge (entries fbs best) (length (entries fbs best))) by done. eapply state_service_serves_view; [exact V| |done|].
  - unfold entries. rewrite !length_app, !length_fmap. apply Forall2_length in Hnew. rewrite length_take in Hnew. lia.
  - rewrite take_ge by done. by eapply task_sides_agree.
Qed.

(** The state of the service when it has published its last change, and the
    blocks are no longer checkpoints. *)
Record up_to_date w fbs bss best : Prop := {
  ud_task : task_repr (write_task w) fbs (bss ++ [best]);
  ud_published : latest_non_finalized_state w = non_finalized_state (write_task w);
  ud_receivers : has_receivers (non_finalized_state_sender (write_task w)) = true;
  ud_senders : sender_finalized w = false /\ sender_non_finalized w = true;
  ud_length : Z.of_nat (length (entries fbs best)) <= Height_MAX
}.

Lemma up_to_date_serves w fbs bss best : up_to_date w fbs bss best -> serves w (entries fbs best).
Proof.
  intros [R Hp _ _ Hlen]. apply (published_serves (write_task w) w fbs [] (bss ++ [best]) bss best R); [done| | |constructor|done].
  - rewrite Hp. apply R.
  - rewrite app_nil_r. apply R.
Qed.

Lemma same_split before before' (x x' : ContextuallyVerifiedBlock) after after' :
  NoDup (cv_hash <$> before ++ x :: after) -> before ++ x :: after = before' ++ x' :: after' -> cv_hash x' = cv_hash x ->
  before = before' /\ x = x'.
Proof.
  intros Hnd E Hx. assert (length before = length before') as Hl.
  { apply (NoDup_lookup _ _ _ (cv_hash x) Hnd).
    - by rewrite list_lookup_fmap, list_lookup_middle.
    - by rewrite E, list_lookup_fmap, list_lookup_middle, <- Hx. }
  apply app_inj_1 in E as [-> [= -> _]]; done.
Qed.

(** C7. What the state service serves does not change when Crosslink finalizes a
    block of the best chain: before and after the request, the answers are those
    of the same list of blocks, although the blocks up to the finalized one have
    moved to the database, the chains without it are gone, and the chain that is
    published still has the moved blocks. The response is the hash that was
    asked for. *)
Theorem finality_keeps_best_chain w fbs bss best before x after r w' :
  up_to_date w fbs bss best -> best = before ++ x :: after ->
  call_crosslink_finalize w (cv_hash x) = Ok (r, w') ->
  r = inl (cv_hash x) /\ serves w (entries fbs best) /\ serves w' (entries fbs best)
  /\ exists new, Forall2 finalized_from (before ++ [x]) new /\ committed (service_db w') (fbs ++ new).
Proof.
  intros U E Hcall. pose proof U as [R Hp Hrec [Hs1 Hs2] Hlen]. cbn [call_crosslink_finalize zebra_state_calls] in Hcall.
  unfold send_crosslink_finalized in Hcall. rewrite Hs1, Hs2 in Hcall. cbn [orb negb] in Hcall.
  apply bind_Ok_inv in Hcall as ([rsp t'] & Hm & [= <- <-]).
  assert (Hin : contains_hash (cv_hash x) best) by (rewrite E; apply list_elem_of_fmap_2, elem_of_app; right; left).
  assert (Hfil : filter (contains_hash (cv_hash x)) (bss ++ [best]) = filter (contains_hash (cv_hash x)) bss ++ [best]).
  { rewrite filter_app. f_equal. by rewrite filter_cons, decide_True, filter_nil by done. }
  destruct (crosslink_message_repr _ _ _ (cv_hash x) best _ _ R ltac:(rewrite Hfil; apply last_snoc) Hm)
    as (before' & x' & after' & new & s' & E' & Hx & -> & Hnew & R' & Hs' & Hpub).
  destruct (same_split before before' x x' after after') as [<- <-]; [|congruence|done|].
  { rewrite <- E. pose proof (entries_nodup _ _ _ best R ltac:(apply elem_of_app; right; left)) as Hnd.
    rewrite entries_hashes in Hnd. by apply NoDup_app in Hnd as (_ & _ & ?). }
  split; [done|]. split; [by eapply up_to_date_serves|]. split; [|exists new; split; [done|apply R']].
  rewrite Hfil in Hs'. apply (published_serves (write_task w) _ fbs new (bss ++ [best]) (filter (contains_hash (cv_hash x)) bss) best R).
  - intros bs [Hb%list_elem_of_filter|Hb]%elem_of_app; apply elem_of_app; [left; apply Hb|by right].
  - unfold latest_non_finalized_state. cbn [write_task]. rewrite Hpub. unfold watch_send. by rewrite Hrec.
  - apply R'.
  - apply Forall2_length in Hnew as Hl. rewrite <- Hl. replace (take _ best) with (before ++ [x]); [done|].
    rewrite E. replace (before ++ x :: after) with ((before ++ [x]) ++ after) by by rewrite <- app_assoc.
    by rewrite take_app_length.
  - done.
Qed.
End Finality.

(** ** Example *)

Module ServiceExample.
#[local] Existing Instance Example.tree.
#[local] Existing Instance Example.subtree.
#[local] Existing Instance Example.tree_laws.
#[local] Existing Instance Example.history.
#[local] Existing Instance Example.context.
#[local] Existing Instance FinExample.empty_tree.
#[local] Existing Instance FinExample.stored_history.
#[local] Existing Instance FinExample.history_root.
#[local] Existing Instance FinExample.commitments.
#[local] Existing Instance release_build.
Import Example FinExample WriteExample.

Definition service : StateService (SproutT := bytes) (SaplingT := bytes) (OrchardT := bytes) (HistoryT := nat) :=
  mkStateService writer false true.
Definition served : list (bytes * Block) := entries [block_of genesis] [common; right_fork].

Lemma service_up_to_date : up_to_date service [block_of genesis] [[common; left_fork]] [common; right_fork].
Proof. split; [exact writer_repr|done|done|done|vm_compute; discriminate]. Qed.

Definition service_after : StateService (SproutT := bytes) (SaplingT := bytes) (OrchardT := bytes) (HistoryT := nat) :=
  mkStateService finalize_common.2 false true.

(** The block that both forks share is finalized. *)
Lemma finality_keeps_best_chain_witness :
  serves service_after served /\ served.*1 = [[Byte.xb0]; [Byte.xe1]; [Byte.xe3]].
Proof.
  split; [|reflexivity].
  assert (Hcall : call_crosslink_finalize service (cv_hash common) = Ok (inl [Byte.xe1], service_after)).
  { cbn [call_crosslink_finalize zebra_state_calls]. unfold send_crosslink_finalized.
    change (write_message (write_task service) (CrosslinkFinalized (cv_hash common)))
      with (write_message writer (CrosslinkFinalized [Byte.xe1])). rewrite finalize_common_ok. cbn [mbind res_bind orb negb sender_finalized sender_non_finalized service].
    assert (Hr : finalize_common.1 = Finalized (inl [Byte.xe1])) by (vm_compute; reflexivity). by rewrite Hr. }
  destruct (finality_keeps_best_chain _ _ _ _ [] common [right_fork] _ _ service_up_to_date eq_refl Hcall) as (_ & _ & Hs & _).
  exact Hs.
Defined.
End ServiceExample.
