(* ===== verification/BlockQueue.v ===== *)
(** The queues of the state service in front of the block write task
    ([zebra-state/src/service/queued_blocks.rs], [pending_utxos.rs] and the
    methods of [StateService] in [service.rs] that queue and send blocks).

    A result channel is a number. The logs of the service are the messages that
    it sent to the write task, with their channels, and the answers that it sent
    itself. The answers of the database and whether the write task still
    receives are arguments ([DbView]). A [HashSet] of hashes is visited in the
    order of [elements]. *)
From S2P Require Import Prelude BTreeMap Height Amount NetworkUpgrade BlockHeader Transaction ChainIndexes ContextChecks WriteBlock.
From stdpp Require Import strings gmap prelude.
From Stdlib Require Import ZArith Lia.
#[local] Open Scope Z_scope.

Definition parent_of (b : SemanticallyVerifiedBlock) : bytes := previous_block_hash (block_header (sv_block b)).
Abbreviation QueuedSemanticallyVerified := (SemanticallyVerifiedBlock * nat)%type.
Abbreviation Answer := (nat * res CommitSemanticallyVerifiedError bytes)%type.

(** [known_utxos] after the insertions and after the removals of the outputs of
    a block. *)
Definition insert_utxos (new_outputs : gmap OutPoint OrderedUtxo) (known_utxos : gmap OutPoint Utxo) : gmap OutPoint Utxo :=
  foldl (fun m e => <[e.1 := ordered_utxo e.2]> m) known_utxos (map_to_list new_outputs).
Definition remove_utxos (outpoints : list OutPoint) (known_utxos : gmap OutPoint Utxo) : gmap OutPoint Utxo :=
  foldl (fun m o => delete o m) known_utxos outpoints.
Definition created_outpoints (b : SemanticallyVerifiedBlock) : list OutPoint := (map_to_list (sv_new_outputs b)).*1.

(** * Blocks that wait for their parents *)

Record QueuedBlocks := mkQueuedBlocks {
  qb_blocks : gmap bytes QueuedSemanticallyVerified;
  by_parent : gmap bytes (gset bytes);
  by_height : btree (gset bytes);
  qb_known_utxos : gmap OutPoint Utxo
}.
Definition QueuedBlocks_default : QueuedBlocks := mkQueuedBlocks ∅ ∅ [] ∅.

Section Queue.
Implicit Types (q : QueuedBlocks) (b : SemanticallyVerifiedBlock).

Definition queue q (new : QueuedSemanticallyVerified) : QueuedBlocks :=
  let '(b, _) := new in
  let new_hash := sv_hash b in
  if bool_decide (is_Some (qb_blocks q !! new_hash)) then q
  else
    mkQueuedBlocks (<[new_hash := new]> (qb_blocks q))
      (<[parent_of b := default ∅ (by_parent q !! parent_of b) ∪ {[new_hash]}]> (by_parent q))
      (bt_insert (sv_height b) (default ∅ (bt_get (sv_height b) (by_height q)) ∪ {[new_hash]}) (by_height q))
      (insert_utxos (sv_new_outputs b) (qb_known_utxos q)).

Definition has_queued_children q (parent_hash : bytes) : bool := bool_decide (is_Some (by_parent q !! parent_hash)).

(** Take the blocks with the hashes out of the map. *)
Definition take_blocks (blocks : gmap bytes QueuedSemanticallyVerified) (hashes : list bytes)
    : outcome (gmap bytes QueuedSemanticallyVerified * list QueuedSemanticallyVerified) :=
  foldM (fun '(blocks, taken) hash => queued ← unwrap (blocks !! hash); Ok (delete hash blocks, taken ++ [queued])) (blocks, []) hashes.
Definition dequeue_children q (parent_hash : bytes) : outcome (QueuedBlocks * list QueuedSemanticallyVerified) :=
  '(blocks, queued_children) ← take_blocks (qb_blocks q) (elements (default ∅ (by_parent q !! parent_hash)));
  let '(by_height, known_utxos) :=
    foldl (fun '(by_height, known_utxos) queued => (bt_remove (sv_height queued.1) by_height, remove_utxos (created_outpoints queued.1) known_utxos))
      (by_height q, qb_known_utxos q) queued_children in
  Ok (mkQueuedBlocks blocks (delete parent_hash (by_parent q)) by_height known_utxos, queued_children).

(** The loop of [prune_by_height] over the hashes. *)
Definition prune_hash (acc : QueuedBlocks * list Answer) (hash : bytes) : outcome (QueuedBlocks * list Answer) :=
  let '(q, sent) := acc in
  '(expired_block, expired_sender) ← unwrap (qb_blocks q !! hash);
  let parent_hash := parent_of expired_block in
  let answer : Answer := (expired_sender, Err (NotContextuallyValid (PrunedBelowFinalizedTip (sv_height expired_block)))) in
  parent_list ← unwrap (by_parent q !! parent_hash);
  _ ← assert_ (bool_decide (hash ∈ (parent_list : gset bytes)));
  let by_parent := if (size parent_list =? 1)%nat then delete parent_hash (by_parent q)
                   else <[parent_hash := parent_list ∖ {[hash]}]> (by_parent q) in
  Ok (mkQueuedBlocks (delete hash (qb_blocks q)) by_parent (by_height q)
        (remove_utxos (created_outpoints expired_block) (qb_known_utxos q)), sent ++ [answer]).
Definition prune_by_height `{BuildProfile} q (finalized_tip_height : Z) : outcome (QueuedBlocks * list Answer) :=
  split_height ← height_add_diff finalized_tip_height 1;
  split_height ← unwrap split_height;
  let keep := filter (fun e => split_height <= e.1) (by_height q) in
  let expired := filter (fun e => e.1 < split_height) (by_height q) in
  foldM prune_hash (mkQueuedBlocks (qb_blocks q) (by_parent q) keep (qb_known_utxos q), [])
    (concat ((fun e => elements e.2) <$> expired)).

(** [get_mut], with the sender that [queue_and_commit_to_non_finalized_state]
    puts in. *)
Definition replace_sender q (hash : bytes) (rsp_tx : nat) : option (QueuedBlocks * nat) :=
  '(b, old_rsp_tx) ← qb_blocks q !! hash;
  Some (mkQueuedBlocks (<[hash := (b, rsp_tx)]> (qb_blocks q)) (by_parent q) (by_height q) (qb_known_utxos q), old_rsp_tx).
Definition queued_utxo q (outpoint : OutPoint) : option Utxo := qb_known_utxos q !! outpoint.
(** The entries that [drain] returns; the queue is empty afterwards. *)
Definition drain q : list (bytes * QueuedSemanticallyVerified) := map_to_list (qb_blocks q).
End Queue.

(** * Hashes that were sent to the write task *)

Record SentHashes := mkSentHashes {
  bufs : list (list (bytes * Z));
  curr_buf : list (bytes * Z);
  sent : gmap bytes (list OutPoint);
  sent_known_utxos : gmap OutPoint Utxo;
  can_fork_chain_at_hashes : bool
}.
Definition SentHashes_default : SentHashes := mkSentHashes [] [] ∅ ∅ false.

Section SentHashes.
Implicit Types s : SentHashes.

(** [add] and [add_finalized]. *)
Definition add_sent s (b : SemanticallyVerifiedBlock) : SentHashes :=
  mkSentHashes (bufs s) (curr_buf s ++ [(sv_hash b, sv_height b)]) (<[sv_hash b := created_outpoints b]> (sent s))
    (insert_utxos (sv_new_outputs b) (sent_known_utxos s)) (can_fork_chain_at_hashes s).
Definition sent_utxo s (outpoint : OutPoint) : option Utxo := sent_known_utxos s !! outpoint.
Definition finish_batch s : SentHashes :=
  match curr_buf s with
  | [] => s
  | buf => mkSentHashes (bufs s ++ [buf]) [] (sent s) (sent_known_utxos s) (can_fork_chain_at_hashes s)
  end.
(** Pop blocks from the front of a batch until the first one above the bound. *)
Fixpoint prune_buf (height_bound : Z) (buf : list (bytes * Z)) (acc : gmap bytes (list OutPoint) * gmap OutPoint Utxo)
    : list (bytes * Z) * (gmap bytes (list OutPoint) * gmap OutPoint Utxo) :=
  match buf with
  | [] => ([], acc)
  | (hash, height) :: buf' =>
      if height_bound <? height then (buf, acc)
      else prune_buf height_bound buf'
             match acc.1 !! hash with
             | Some expired_outpoints => (delete hash acc.1, remove_utxos expired_outpoints acc.2)
             | None => acc
             end
  end.
(** [retain_mut]: the batches that are not emptied. *)
Fixpoint prune_bufs (height_bound : Z) (l : list (list (bytes * Z))) (acc : gmap bytes (list OutPoint) * gmap OutPoint Utxo)
    : list (list (bytes * Z)) * (gmap bytes (list OutPoint) * gmap OutPoint Utxo) :=
  match l with
  | [] => ([], acc)
  | buf :: l =>
      let '(buf, acc) := prune_buf height_bound buf acc in
      let '(l, acc) := prune_bufs height_bound l acc in
      (match buf with [] => l | _ => buf :: l end, acc)
  end.
Definition prune_sent s (height_bound : Z) : SentHashes :=
  let s := finish_batch s in
  let '(l, (sent, known_utxos)) := prune_bufs height_bound (bufs s) (sent s, sent_known_utxos s) in
  mkSentHashes l (curr_buf s) sent known_utxos (can_fork_chain_at_hashes s).
Definition sent_contains s (hash : bytes) : bool := bool_decide (is_Some (sent s !! hash)).
Definition sent_can_fork_chain_at s (hash : bytes) : bool := can_fork_chain_at_hashes s && sent_contains s hash.
End SentHashes.

(** * Requests that wait for an output *)

(** The pending outpoints with the channels that subscribed to them. *)
Abbreviation PendingUtxos := (gmap OutPoint (list nat)).
Definition pending_queue (p : PendingUtxos) (outpoint : OutPoint) (receiver : nat) : PendingUtxos :=
  <[outpoint := default [] (p !! outpoint) ++ [receiver]]> p.
Definition pending_respond (p : PendingUtxos) (outpoint : OutPoint) (utxo : Utxo) : PendingUtxos * list (nat * Utxo) :=
  match p !! outpoint with
  | Some receivers => (delete outpoint p, (fun r => (r, utxo)) <$> receivers)
  | None => (p, [])
  end.
Definition check_against_ordered (p : PendingUtxos) (ordered_utxos : gmap OutPoint OrderedUtxo) : PendingUtxos * list (nat * Utxo) :=
  foldl (fun '(p, l) e => let '(p, l') := pending_respond p e.1 (ordered_utxo e.2) in (p, l ++ l')) (p, []) (map_to_list ordered_utxos).
Definition pending_prune (p : PendingUtxos) (alive : nat -> bool) : PendingUtxos :=
  filter (fun e => existsb alive e.2 = true) p.

(** * The service *)

Record DbView := mkDbView { view_tip : option (Z * bytes); view_contains_height : Z -> bool; task_receives : bool }.
Definition view_tip_hash (d : DbView) : bytes := default GENESIS_PREVIOUS_BLOCK_HASH (snd <$> view_tip d).

Record QueueService := mkQueueService {
  qs_network : Network;
  full_verifier_utxo_lookahead : Z;
  non_finalized_state_queued_blocks : QueuedBlocks;
  finalized_state_queued_blocks : gmap bytes QueuedSemanticallyVerified;
  finalized_sender : bool;
  non_finalized_sender : bool;
  finalized_block_write_last_sent_hash : bytes;
  non_finalized_block_write_sent_hashes : SentHashes;
  invalid_block_write_resets : list bytes;
  pending_utxos : PendingUtxos;
  qs_next_channel : nat;
  finalized_messages : list QueuedSemanticallyVerified;
  messages : list (NonFinalizedWriteMessage * nat);
  checkpoint_errors : list (nat * string);
  qs_answers : list Answer;
  utxo_answers : list (nat * Utxo)
}.

Section Service.
Context `{BuildProfile}.
Implicit Types (w : QueueService) (d : DbView) (b : SemanticallyVerifiedBlock).

Definition new_service (network : Network) (max_checkpoint_height checkpoint_verify_concurrency_limit : Z) d : outcome QueueService :=
  _ ← assert_ (checkpoint_verify_concurrency_limit <=? i64_MAX);
  lookahead ← height_sub_diff max_checkpoint_height checkpoint_verify_concurrency_limit;
  Ok (mkQueueService network (default Height_MIN lookahead) QueuedBlocks_default ∅ true true (view_tip_hash d) SentHashes_default
        [] ∅ 0 [] [] [] [] []).

Definition with_queue w q : QueueService :=
  mkQueueService (qs_network w) (full_verifier_utxo_lookahead w) q (finalized_state_queued_blocks w) (finalized_sender w)
    (non_finalized_sender w) (finalized_block_write_last_sent_hash w) (non_finalized_block_write_sent_hashes w)
    (invalid_block_write_resets w) (pending_utxos w) (qs_next_channel w) (finalized_messages w) (messages w) (checkpoint_errors w)
    (qs_answers w) (utxo_answers w).
Definition with_finalized w fq last_sent resets : QueueService :=
  mkQueueService (qs_network w) (full_verifier_utxo_lookahead w) (non_finalized_state_queued_blocks w) fq (finalized_sender w)
    (non_finalized_sender w) last_sent (non_finalized_block_write_sent_hashes w)
    resets (pending_utxos w) (qs_next_channel w) (finalized_messages w) (messages w) (checkpoint_errors w) (qs_answers w) (utxo_answers w).
Definition with_sent w finalized_sender s : QueueService :=
  mkQueueService (qs_network w) (full_verifier_utxo_lookahead w) (non_finalized_state_queued_blocks w) (finalized_state_queued_blocks w)
    finalized_sender (non_finalized_sender w) (finalized_block_write_last_sent_hash w) s
    (invalid_block_write_resets w) (pending_utxos w) (qs_next_channel w) (finalized_messages w) (messages w) (checkpoint_errors w)
    (qs_answers w) (utxo_answers w).
Definition with_pending w p : QueueService :=
  mkQueueService (qs_network w) (full_verifier_utxo_lookahead w) (non_finalized_state_queued_blocks w) (finalized_state_queued_blocks w)
    (finalized_sender w) (non_finalized_sender w) (finalized_block_write_last_sent_hash w) (non_finalized_block_write_sent_hashes w)
    (invalid_block_write_resets w) p (qs_next_channel w) (finalized_messages w) (messages w) (checkpoint_errors w)
    (qs_answers w) (utxo_answers w).
(** [oneshot::channel()] and the logs. *)
Definition fresh_channel w : QueueService * nat :=
  (mkQueueService (qs_network w) (full_verifier_utxo_lookahead w) (non_finalized_state_queued_blocks w) (finalized_state_queued_blocks w)
     (finalized_sender w) (non_finalized_sender w) (finalized_block_write_last_sent_hash w) (non_finalized_block_write_sent_hashes w)
     (invalid_block_write_resets w) (pending_utxos w) (S (qs_next_channel w)) (finalized_messages w) (messages w) (checkpoint_errors w)
     (qs_answers w) (utxo_answers w), qs_next_channel w).
Definition log w fm m ce a u : QueueService :=
  mkQueueService (qs_network w) (full_verifier_utxo_lookahead w) (non_finalized_state_queued_blocks w) (finalized_state_queued_blocks w)
    (finalized_sender w) (non_finalized_sender w) (finalized_block_write_last_sent_hash w) (non_finalized_block_write_sent_hashes w)
    (invalid_block_write_resets w) (pending_utxos w) (qs_next_channel w) (finalized_messages w ++ fm) (messages w ++ m)
    (checkpoint_errors w ++ ce) (qs_answers w ++ a) (utxo_answers w ++ u).
Definition answer w (rsp_tx : nat) (r : res CommitSemanticallyVerifiedError bytes) : QueueService := log w [] [] [] [(rsp_tx, r)] [].
Definition context_error (e : ValidateContextError) : res CommitSemanticallyVerifiedError bytes := Err (NotContextuallyValid e).

(** ** Checkpoint verified blocks *)

Definition checkpoint_error w (rsp_tx : nat) (error : string) : QueueService := log w [] [] [(rsp_tx, error)] [] [].
Definition clear_finalized_block_queue w (error : string) : QueueService :=
  foldl (fun w e => checkpoint_error w e.2.2 error)
    (with_finalized w ∅ (finalized_block_write_last_sent_hash w) (invalid_block_write_resets w))
    (map_to_list (finalized_state_queued_blocks w)).
Definition is_close_to_final_checkpoint w (queued_height : Z) : bool := full_verifier_utxo_lookahead w <=? queued_height.

(** Each step takes a block out of the queue. *)
Fixpoint send_finalized (fuel : nat) d w : QueueService :=
  match fuel with
  | O => w
  | S fuel =>
      match finalized_state_queued_blocks w !! finalized_block_write_last_sent_hash w with
      | None => w
      | Some queued =>
          let w := with_finalized w (delete (finalized_block_write_last_sent_hash w) (finalized_state_queued_blocks w)) (sv_hash queued.1)
                     (invalid_block_write_resets w) in
          send_finalized fuel d
            (if finalized_sender w then
               if task_receives d then log w [queued] [] [] [] []
               else clear_finalized_block_queue (checkpoint_error w queued.2 "block commit task exited. Is Zebra shutting down?")
                      "block commit task exited. Is Zebra shutting down?"
             else w)
      end
  end.
(** A closed reset channel ends the drain. *)
Definition drain_finalized_queue_and_commit d w : QueueService :=
  let run w := send_finalized (S (size (finalized_state_queued_blocks w))) d w in
  match invalid_block_write_resets w with
  | reset_tip_hash :: resets => run (with_finalized w (finalized_state_queued_blocks w) reset_tip_hash resets)
  | [] => if task_receives d then run w else w
  end.

Definition already_committed : string := "already finished committing checkpoint verified blocks: dropped duplicate block, block is already committed to the state".
Definition queue_and_commit_to_finalized_state d w b : QueueService * nat :=
  let w := if is_close_to_final_checkpoint w (sv_height b)
           then with_sent w (finalized_sender w) (add_sent (non_finalized_block_write_sent_hashes w) b) else w in
  let '(w, rsp_tx) := fresh_channel w in
  (if finalized_sender w then
     let duplicate := finalized_state_queued_blocks w !! parent_of b in
     let w := with_finalized w (<[parent_of b := (b, rsp_tx)]> (finalized_state_queued_blocks w)) (finalized_block_write_last_sent_hash w)
                (invalid_block_write_resets w) in
     let w := match duplicate with
              | Some old => checkpoint_error w old.2 "dropping older checkpoint verified block: got newer duplicate block"
              | None => w
              end in
     drain_finalized_queue_and_commit d w
   else clear_finalized_block_queue (checkpoint_error w rsp_tx already_committed) already_committed, rsp_tx).

(** ** Semantically verified blocks *)

Definition clear_non_finalized_block_queue w (error : ValidateContextError) : QueueService :=
  foldl (fun w e => answer w e.2.2 (context_error error)) (with_queue w QueuedBlocks_default) (drain (non_finalized_state_queued_blocks w)).

(** The children of one parent; [None] if the write task does not receive. *)
Fixpoint send_children d w (queued_children : list QueuedSemanticallyVerified) (new_parents : list bytes)
    : QueueService * option (list bytes) :=
  match queued_children with
  | [] => (w, Some new_parents)
  | (b, rsp_tx) :: rest =>
      let w := with_sent w (finalized_sender w) (add_sent (non_finalized_block_write_sent_hashes w) b) in
      if task_receives d
      then send_children d (log w [] [(Commit b, rsp_tx)] [] [] []) rest (new_parents ++ [sv_hash b])
      else (clear_non_finalized_block_queue (answer w rsp_tx (context_error CommitTaskExited)) CommitTaskExited, None)
  end.
(** [new_parents] is a stack; each step removes a parent, and adds one for each
    block that it takes out of the queue. *)
Fixpoint send_ready (fuel : nat) d w (new_parents : list bytes) : outcome QueueService :=
  match last new_parents with
  | None => Ok (with_sent w (finalized_sender w) (finish_batch (non_finalized_block_write_sent_hashes w)))
  | Some parent_hash =>
      match fuel with
      | O => Panic
      | S fuel =>
          '(q, queued_children) ← dequeue_children (non_finalized_state_queued_blocks w) parent_hash;
          match send_children d (with_queue w q) queued_children (removelast new_parents) with
          | (w, Some new_parents) => send_ready fuel d w new_parents
          | (w, None) => Ok w
          end
      end
  end.
Definition send_ready_non_finalized_queued d w (new_parent : bytes) : outcome QueueService :=
  if non_finalized_sender w
  then send_ready (S (size (qb_blocks (non_finalized_state_queued_blocks w)))) d w [new_parent]
  else Ok w.

(** The answer of a request that is not sent; a request that the write task does
    not receive has none. *)
Definition send_crosslink_finalized_to_non_finalized_state d w (hash : bytes) : QueueService * nat * option string :=
  let '(w, rsp_tx) := fresh_channel w in
  if finalized_sender w || negb (non_finalized_sender w) then (w, rsp_tx, Some "not ready to crosslink-finalize blocks"%string)
  else if task_receives d then (log w [] [(CrosslinkFinalized hash, rsp_tx)] [] [] [], rsp_tx, None)
  else (w, rsp_tx, None).

Definition can_fork_chain_at d w (hash : bytes) : bool :=
  sent_can_fork_chain_at (non_finalized_block_write_sent_hashes w) hash || bool_decide (view_tip_hash d = hash).

(** What follows once a block is in the queue. *)
Definition commit_queued d w (parent_hash : bytes) : outcome QueueService :=
  if finalized_sender w
     && has_queued_children (non_finalized_state_queued_blocks w) (finalized_block_write_last_sent_hash w)
     && bool_decide (view_tip_hash d = finalized_block_write_last_sent_hash w)
  then
    let w := with_sent w false (mkSentHashes [] [] ∅ ∅ true) in
    w ← send_ready_non_finalized_queued d w (finalized_block_write_last_sent_hash w);
    Ok (clear_finalized_block_queue w already_committed)
  else if negb (can_fork_chain_at d w parent_hash) then Ok w
  else if negb (finalized_sender w) then
    w ← send_ready_non_finalized_queued d w parent_hash;
    '(finalized_tip_height, _) ← unwrap (view_tip d);
    '(q, sent) ← prune_by_height (non_finalized_state_queued_blocks w) finalized_tip_height;
    let w := log (with_queue w q) [] [] [] sent [] in
    Ok (with_sent w (finalized_sender w) (prune_sent (non_finalized_block_write_sent_hashes w) finalized_tip_height))
  else Ok w.

Definition queue_and_commit_to_non_finalized_state d w b : outcome (QueueService * nat) :=
  let '(w, rsp_tx) := fresh_channel w in
  if sent_contains (non_finalized_block_write_sent_hashes w) (sv_hash b)
  then Ok (answer w rsp_tx (context_error (DuplicateCommitRequest (sv_hash b))), rsp_tx)
  else if view_contains_height d (sv_height b)
  then Ok (answer w rsp_tx (context_error (AlreadyFinalized (sv_height b))), rsp_tx)
  else
    let w := match replace_sender (non_finalized_state_queued_blocks w) (sv_hash b) rsp_tx with
             | Some (q, old_rsp_tx) => answer (with_queue w q) old_rsp_tx (context_error (ReplacedByNewerRequest (sv_hash b)))
             | None => with_queue w (queue (non_finalized_state_queued_blocks w) (b, rsp_tx))
             end in
    w ← commit_queued d w (parent_of b);
    Ok (w, rsp_tx).

(** ** The requests *)

Definition assert_block_can_be_validated w b : outcome unit :=
  mandatory ← mandatory_checkpoint_height (qs_network w);
  assert_ (mandatory <? sv_height b).
Definition request_commit_semantically_verified d w b : outcome (QueueService * nat) :=
  _ ← assert_block_can_be_validated w b;
  let '(p, l) := check_against_ordered (pending_utxos w) (sv_new_outputs b) in
  queue_and_commit_to_non_finalized_state d (log (with_pending w p) [] [] [] [] l) b.
Definition request_commit_checkpoint_verified d w b : QueueService * nat :=
  let '(p, l) := check_against_ordered (pending_utxos w) (sv_new_outputs b) in
  queue_and_commit_to_finalized_state d (log (with_pending w p) [] [] [] [] l) b.
(** The immediate part of [AwaitUtxo]; [false] if the read service is asked
    next. *)
Definition request_await_utxo w (outpoint : OutPoint) : QueueService * nat * bool :=
  let '(w, rx) := fresh_channel w in
  let w := with_pending w (pending_queue (pending_utxos w) outpoint rx) in
  let respond utxo := let '(p, l) := pending_respond (pending_utxos w) outpoint utxo in log (with_pending w p) [] [] [] [] l in
  match queued_utxo (non_finalized_state_queued_blocks w) outpoint, sent_utxo (non_finalized_block_write_sent_hashes w) outpoint with
  | Some utxo, _ => (respond utxo, rx, true)
  | None, Some utxo => (respond utxo, rx, true)
  | None, None => (w, rx, false)
  end.
(** The result is the error of a request that is not sent. *)
Definition send_invalidate_block d w (hash : bytes) : QueueService * nat * option string :=
  let '(w, rsp_tx) := fresh_channel w in
  if negb (non_finalized_sender w) then (w, rsp_tx, Some "cannot invalidate blocks while still committing checkpointed blocks"%string)
  else if task_receives d then (log w [] [(Invalidate hash, rsp_tx)] [] [] [], rsp_tx, None)
  else (w, rsp_tx, Some "failed to send invalidate block request to block write task"%string).
Definition send_reconsider_block d w (hash : bytes) : QueueService * nat * option string :=
  let '(w, rsp_tx) := fresh_channel w in
  if negb (non_finalized_sender w) then (w, rsp_tx, Some "cannot reconsider blocks while still committing checkpointed blocks"%string)
  else if task_receives d then (log w [] [(Reconsider hash, rsp_tx)] [] [] [], rsp_tx, None)
  else (w, rsp_tx, Some "failed to send reconsider block request to block write task"%string).
(** [Drop for StateService]. *)
Definition drop_service w : QueueService :=
  let w := mkQueueService (qs_network w) (full_verifier_utxo_lookahead w) (non_finalized_state_queued_blocks w)
             (finalized_state_queued_blocks w) false false (finalized_block_write_last_sent_hash w)
             (non_finalized_block_write_sent_hashes w) (invalid_block_write_resets w) (pending_utxos w) (qs_next_channel w)
             (finalized_messages w) (messages w) (checkpoint_errors w) (qs_answers w) (utxo_answers w) in
  clear_non_finalized_block_queue (clear_finalized_block_queue w "dropping the state: dropped unused finalized state queue block")
    DroppedUnusedBlock.

(** ** Runs *)

(** A request with the view of the database at that time, or an event: the write
    task resets the checkpoint verified blocks, or receivers are dropped. *)
Inductive QueueEvent : Type :=
| CommitSemanticallyVerifiedBlock d b
| CommitCheckpointVerifiedBlock d b
| CrosslinkFinalizeBlock d (hash : bytes)
| InvalidateBlock d (hash : bytes)
| ReconsiderBlock d (hash : bytes)
| AwaitUtxo (outpoint : OutPoint)
| BlockWriteReset (hash : bytes)
| PruneUtxos (alive : nat -> bool).

(** The receiver of a commit request is kept. *)
Definition queue_step (acc : QueueService * list nat) (e : QueueEvent) : outcome (QueueService * list nat) :=
  let '(w, receivers) := acc in
  match e with
  | CommitSemanticallyVerifiedBlock d b =>
      '(w, rx) ← request_commit_semantically_verified d w b; Ok (w, receivers ++ [rx])
  | CommitCheckpointVerifiedBlock d b =>
      let '(w, rx) := request_commit_checkpoint_verified d w b in Ok (w, receivers ++ [rx])
  | CrosslinkFinalizeBlock d hash => Ok ((send_crosslink_finalized_to_non_finalized_state d w hash).1.1, receivers)
  | InvalidateBlock d hash => Ok ((send_invalidate_block d w hash).1.1, receivers)
  | ReconsiderBlock d hash => Ok ((send_reconsider_block d w hash).1.1, receivers)
  | AwaitUtxo outpoint => Ok ((request_await_utxo w outpoint).1.1, receivers)
  | BlockWriteReset hash =>
      Ok (with_finalized w (finalized_state_queued_blocks w) (finalized_block_write_last_sent_hash w)
            (invalid_block_write_resets w ++ [hash]), receivers)
  | PruneUtxos alive => Ok (with_pending w (pending_prune (pending_utxos w) alive), receivers)
  end.
Definition queue_run w (events : list QueueEvent) : outcome (QueueService * list nat) := foldM queue_step (w, []) events.
End Service.

(** * The indexes of the queue *)

(** The channels of the queued blocks. *)
Definition chans (m : gmap bytes QueuedSemanticallyVerified) : list nat := (fun e => e.2.2) <$> map_to_list m.

Lemma chans_insert m h e : m !! h = None -> chans (<[h := e]> m) ≡ₚ e.2 :: chans m.
Proof. intros E. unfold chans. by rewrite (map_to_list_insert _ _ _ E). Qed.
Lemma chans_delete m h e : m !! h = Some e -> chans m ≡ₚ e.2 :: chans (delete h m).
Proof. intros E. unfold chans. by rewrite <- (map_to_list_delete _ _ _ E). Qed.
Lemma chans_replace m h e e' : m !! h = Some e -> e.2 :: chans (<[h := e']> m) ≡ₚ e'.2 :: chans m.
Proof.
  intros E. rewrite <- insert_delete_eq, (chans_insert _ _ _ (lookup_delete_eq _ _)), (chans_delete _ _ _ E). apply perm_swap.
Qed.

(** Every queued block is in the list of its parent, the lists hold queued
    blocks only, and so do the sets of the heights: a queued block may be missing
    there. *)
Record queue_wf (q : QueuedBlocks) : Prop := {
  qw_hash : forall h e, qb_blocks q !! h = Some e -> sv_hash e.1 = h;
  qw_parent : forall h e, qb_blocks q !! h = Some e -> exists s, by_parent q !! parent_of e.1 = Some s /\ h ∈ s;
  qw_children : forall p s, by_parent q !! p = Some s ->
    s ≠ ∅ /\ forall h, h ∈ s -> exists e, qb_blocks q !! h = Some e /\ parent_of e.1 = p;
  qw_sorted : bt_sorted (by_height q);
  qw_height : forall k s h, (k, s) ∈ by_height q -> h ∈ s -> exists e, qb_blocks q !! h = Some e /\ sv_height e.1 = k
}.

Lemma queue_wf_default : queue_wf QueuedBlocks_default.
Proof.
  split; cbn; try (intros * E; by rewrite lookup_empty in E); [constructor|].
  intros * E. by apply not_elem_of_nil in E.
Qed.

Section QueueLemmas.
Implicit Types (q : QueuedBlocks) (b : SemanticallyVerifiedBlock).

Lemma queue_blocks q b tx : qb_blocks q !! sv_hash b = None -> qb_blocks (queue q (b, tx)) = <[sv_hash b := (b, tx)]> (qb_blocks q).
Proof. intros E. unfold queue. rewrite bool_decide_eq_false_2; [done|]. rewrite E. by intros [? [=]]. Qed.

Lemma queue_keeps_wf q new : queue_wf q -> queue_wf (queue q new).
Proof.
  destruct new as [b tx]. intros W. unfold queue. case_bool_decide as Hq; [done|].
  assert (Hn : qb_blocks q !! sv_hash b = None) by by apply eq_None_not_Some.
  split; cbn [qb_blocks by_parent by_height].
  - intros h e [[<- <-]|[_ E]]%lookup_insert_Some; [done|by apply (qw_hash _ W)].
  - intros h e [[<- <-]|[Hh E]]%lookup_insert_Some; cbn [fst].
    + eexists. rewrite lookup_insert_eq. split; [done|set_solver].
    + destruct (qw_parent _ W _ _ E) as (s & Es & Hs). destruct (decide (parent_of b = parent_of e.1)) as [Ep|Ep].
      * rewrite Ep, lookup_insert_eq, Es. eexists. split; [done|]. cbn. set_solver.
      * rewrite lookup_insert_ne by done. eauto.
  - intros p s [[<- <-]|[Hp E]]%lookup_insert_Some.
    + split; [set_solver|]. intros h [Hh|Hh%elem_of_singleton]%elem_of_union.
      * destruct (by_parent q !! parent_of b) as [s|] eqn:Es; cbn in Hh; [|set_solver].
        destruct (proj2 (qw_children _ W _ _ Es) _ Hh) as (e & Ee & Ep).
        exists e. rewrite lookup_insert_ne by congruence. done.
      * subst h. rewrite lookup_insert_eq. eauto.
    + destruct (qw_children _ W _ _ E) as [Hs Hc]. split; [done|]. intros h (e & Ee & Ep)%Hc.
      exists e. rewrite lookup_insert_ne by congruence. done.
  - apply bt_insert_sorted, W.
  - intros k s h Hin Hh. apply bt_insert_elem in Hin; [|apply W].
    assert (Hold : forall s, (k, s) ∈ by_height q -> h ∈ s ->
      exists e, <[sv_hash b := (b, tx)]> (qb_blocks q) !! h = Some e /\ sv_height e.1 = k).
    { intros s' Hin' Hh'. destruct (qw_height _ W _ _ _ Hin' Hh') as (e & Ee & Ek).
      exists e. rewrite lookup_insert_ne by congruence. done. }
    destruct Hin as [[= -> ->]|[Hin _]]; [|by eapply Hold].
    apply elem_of_union in Hh as [Hh| ->%elem_of_singleton].
    + destruct (bt_get (sv_height b) (by_height q)) as [s|] eqn:Es; cbn in Hh; [|set_solver].
      eapply Hold; [|done]. by apply bt_get_Some_elem.
    + rewrite lookup_insert_eq. eauto.
Qed.

Lemma replace_sender_wf q h tx q' old : queue_wf q -> replace_sender q h tx = Some (q', old) ->
  queue_wf q' /\ exists b, qb_blocks q !! h = Some (b, old) /\ qb_blocks q' = <[h := (b, tx)]> (qb_blocks q).
Proof.
  intros W E. unfold replace_sender in E. apply bind_Some in E as ([b old'] & Eb & [= <- <-]). split; [|by exists b].
  assert (Hkeep : forall k e, qb_blocks q !! k = Some e -> exists e', <[h := (b, tx)]> (qb_blocks q) !! k = Some e' /\ e'.1 = e.1).
  { intros k e Ee. destruct (decide (h = k)) as [<-|]; [|rewrite lookup_insert_ne by done; eauto].
    rewrite lookup_insert_eq. eexists; split; [done|]. by simplify_eq. }
  split; cbn [qb_blocks by_parent by_height].
  - intros k e [[<- <-]|[_ Ek]]%lookup_insert_Some; [apply (qw_hash _ W _ _ Eb)|by apply (qw_hash _ W)].
  - intros k e [[<- <-]|[_ Ek]]%lookup_insert_Some; [apply (qw_parent _ W _ _ Eb)|by apply (qw_parent _ W)].
  - intros p s Es. destruct (qw_children _ W _ _ Es) as [Hs Hc]. split; [done|]. intros k (e & Ee & Ep)%Hc.
    destruct (Hkeep _ _ Ee) as (e' & ? & Ee'). exists e'. by rewrite Ee'.
  - apply W.
  - intros k s h' Hin Hh. destruct (qw_height _ W _ _ _ Hin Hh) as (e & Ee & Ek).
    destruct (Hkeep _ _ Ee) as (e' & ? & Ee'). exists e'. by rewrite Ee'.
Qed.
Lemma take_blocks_ok (l : list bytes) : forall m acc, NoDup l -> (forall h, h ∈ l -> is_Some (m !! h)) ->
  exists m' cs, foldM (E := Empty_set) (fun '(blocks, taken) hash => queued ← unwrap (blocks !! hash); Ok (delete hash blocks, taken ++ [queued]))
                  (m, acc) l = Ok (m', acc ++ cs)
  /\ (forall h e, m' !! h = Some e <-> m !! h = Some e /\ h ∉ l)
  /\ Forall2 (fun h (c : QueuedSemanticallyVerified) => m !! h = Some c) l cs
  /\ chans m ≡ₚ cs.*2 ++ chans m' /\ size m = (length cs + size m')%nat.
Proof.
  induction l as [|h l IH]; intros m acc Hnd Hin; cbn [foldM].
  - exists m, []. rewrite app_nil_r. split_and!; [done| |done|done|done]. set_solver.
  - apply NoDup_cons in Hnd as [Hh Hnd]. destruct (Hin h) as [c Ec]; [left|].
    destruct (IH (delete h m) (acc ++ [c]) Hnd) as (m' & cs & E & Hm & HF & Hc & Hs).
    { intros k Hk. rewrite lookup_delete_ne by (intros ->; done). apply Hin. by right. }
    exists m', (c :: cs). rewrite Ec. cbn [unwrap mbind res_bind]. split_and!.
    + rewrite E. by rewrite <- app_assoc.
    + intros k e. rewrite Hm, lookup_delete_Some, not_elem_of_cons. naive_solver.
    + constructor; [done|]. eapply Forall2_impl; [exact HF|]. cbn. intros k d Hk. apply lookup_delete_Some in Hk. apply Hk.
    + rewrite (chans_delete _ _ _ Ec), Hc. done.
    + cbn [length]. rewrite map_size_delete_Some in Hs by eauto.
      assert (size m ≠ 0)%nat by (intros Z0%map_size_empty_inv; subst m; by rewrite lookup_empty in Ec). lia.
Qed.

Definition dequeued_heights (cs : list QueuedSemanticallyVerified) (m : btree (gset bytes)) (u : gmap OutPoint Utxo) :=
  foldl (fun '(by_height, known_utxos) (queued : QueuedSemanticallyVerified) =>
    (bt_remove (sv_height queued.1) by_height, remove_utxos (created_outpoints queued.1) known_utxos)) (m, u) cs.
Lemma dequeued_heights_elem cs : forall m u, bt_sorted m ->
  bt_sorted (dequeued_heights cs m u).1
  /\ forall e, e ∈ (dequeued_heights cs m u).1 <-> e ∈ m /\ forall c, c ∈ cs -> e.1 ≠ sv_height c.1.
Proof.
  induction cs as [|c cs IH]; intros m u Hs; cbn.
  - split; [done|]. intros e. split; [|tauto]. intros He. split; [done|]. intros c Hc. by apply not_elem_of_nil in Hc.
  - destruct (IH (bt_remove (sv_height c.1) m) (remove_utxos (created_outpoints c.1) u) (bt_filter_sorted _ _ Hs)) as [Hs' He].
    split; [done|]. intros e. unfold dequeued_heights in He. rewrite He, bt_remove_elem. split.
    + intros [[Hk Hm] Hc]. split; [done|]. intros d [->|Hd]%elem_of_cons; auto.
    + intros [Hm Hc]. split_and!; [apply Hc; left|done|]. intros d Hd. apply Hc. by right.
Qed.

(** Dequeueing does not panic, keeps the indexes, and takes out the children of
    the parent. *)
Lemma dequeue_ok q p : queue_wf q ->
  exists q' cs, dequeue_children q p = Ok (q', cs) /\ queue_wf q'
  /\ (forall h e, qb_blocks q' !! h = Some e <-> qb_blocks q !! h = Some e /\ parent_of e.1 ≠ p)
  /\ (forall c, c ∈ cs -> qb_blocks q !! sv_hash c.1 = Some c /\ parent_of c.1 = p)
  /\ (forall e, e ∈ by_height q' <-> e ∈ by_height q /\ forall c, c ∈ cs -> e.1 ≠ sv_height c.1)
  /\ chans (qb_blocks q) ≡ₚ cs.*2 ++ chans (qb_blocks q')
  /\ size (qb_blocks q) = (length cs + size (qb_blocks q'))%nat.
Proof.
  intros W. set (l := elements (default ∅ (by_parent q !! p))).
  assert (Hl : forall h, h ∈ l <-> exists e, qb_blocks q !! h = Some e /\ parent_of e.1 = p).
  { intros h. unfold l. rewrite elem_of_elements. split.
    - destruct (by_parent q !! p) as [s|] eqn:Es; cbn; [apply (qw_children _ W _ _ Es)|set_solver].
    - intros (e & Ee & <-). destruct (qw_parent _ W _ _ Ee) as (s & -> & Hs). done. }
  destruct (take_blocks_ok l (qb_blocks q) []) as (m' & cs & E & Hm & HF & Hc & Hs); [apply NoDup_elements| |].
  { intros h (e & Ee & _)%Hl. eauto. }
  destruct (dequeued_heights_elem cs (by_height q) (qb_known_utxos q) (qw_sorted _ W)) as [Hsort Hel].
  destruct (dequeued_heights cs (by_height q) (qb_known_utxos q)) as [bh ku] eqn:Ed.
  assert (Hq' : forall h e, m' !! h = Some e <-> qb_blocks q !! h = Some e /\ parent_of e.1 ≠ p).
  { intros h e. rewrite Hm, Hl. naive_solver. }
  assert (Hcs : forall c, c ∈ cs -> qb_blocks q !! sv_hash c.1 = Some c /\ parent_of c.1 = p).
  { intros c (i & Hi)%list_elem_of_lookup. destruct (Forall2_lookup_r _ _ _ _ _ HF Hi) as (h & Hh & Ec).
    rewrite (qw_hash _ W _ _ Ec). split; [done|]. apply list_elem_of_lookup_2, Hl in Hh as (e & Ee & Ep). by simplify_eq. }
  exists (mkQueuedBlocks m' (delete p (by_parent q)) bh ku), cs. split_and!; [| |done|done|done|done|done].
  { unfold dequeue_children, take_blocks. fold l. rewrite E. cbn [app mbind res_bind]. unfold dequeued_heights in Ed. by rewrite Ed. }
  split; cbn [qb_blocks by_parent by_height].
  - intros h e [Ee _]%Hq'. by apply (qw_hash _ W).
  - intros h e [Ee Hp]%Hq'. rewrite lookup_delete_ne by done. by apply (qw_parent _ W).
  - intros p' s [Hp Es]%lookup_delete_Some. destruct (qw_children _ W _ _ Es) as [Hne Hch]. split; [done|].
    intros h (e & Ee & Ep)%Hch. exists e. split; [|done]. apply Hq'. split; [done|congruence].
  - done.
  - intros k s h [Hin Hk]%Hel Hh. destruct (qw_height _ W _ _ _ Hin Hh) as (e & Ee & Ek). exists e. split; [|done].
    apply Hm. split; [done|]. intros (i & Hi)%list_elem_of_lookup. destruct (Forall2_lookup_l _ _ _ _ _ HF Hi) as (c & Hc' & Ec).
    simplify_eq. apply list_elem_of_lookup_2 in Hc'. by apply (Hk _ Hc').
Qed.
Lemma prune_hash_ok q l h e : queue_wf q -> qb_blocks q !! h = Some e -> (forall k s, (k, s) ∈ by_height q -> h ∉ s) ->
  exists q' a, prune_hash (q, l) h = Ok (q', l ++ [(e.2, a)]) /\ queue_wf q'
  /\ qb_blocks q' = delete h (qb_blocks q) /\ by_height q' = by_height q.
Proof.
  intros W Ee Hh. destruct (qw_parent _ W _ _ Ee) as (s & Es & Hs). destruct e as [b tx]; cbn [fst snd] in *.
  unfold prune_hash. rewrite Ee. cbn [unwrap mbind res_bind]. rewrite Es. cbn [unwrap mbind res_bind].
  rewrite bool_decide_eq_true_2 by done. cbn [assert_ mbind res_bind]. eexists _, _. split; [done|]. split; [|done].
  set (bp := if (size s =? 1)%nat then _ else _).
  assert (Hbp : forall p t, bp !! p = Some t ->
    (p ≠ parent_of b /\ by_parent q !! p = Some t) \/ (p = parent_of b /\ t = s ∖ {[h]} /\ t ≠ ∅)).
  { intros p t. unfold bp. destruct (Nat.eqb_spec (size s) 1) as [_|Hsz].
    - rewrite lookup_delete_Some. intros [? ?]. left. split; [congruence|done].
    - rewrite lookup_insert_Some. intros [[<- <-]|[? ?]]; [right|left; split; [congruence|done]].
      split_and!; [done|done|]. intros Hz. apply Hsz. rewrite <- (size_singleton (C := gset bytes) h).
      apply set_size_proper. intros k. rewrite elem_of_singleton. split; [|by intros ->]. intros Hk. destruct (decide (k = h)) as [|Hn]; [done|].
      exfalso. apply (not_elem_of_empty (C := gset bytes) k). rewrite <- Hz. by apply elem_of_difference; rewrite elem_of_singleton. }
  assert (Hbp' : forall k x, k ≠ h -> qb_blocks q !! k = Some x -> exists t, bp !! parent_of x.1 = Some t /\ k ∈ t).
  { intros k x Hk Ex. destruct (qw_parent _ W _ _ Ex) as (t & Et & Ht). unfold bp.
    destruct (decide (parent_of x.1 = parent_of b)) as [Ep|Ep].
    - rewrite Ep in *. simplify_eq. destruct (Nat.eqb_spec (size s) 1) as [Hsz|Hsz].
      + apply size_1_elem_of in Hsz as [y Hy]. set_solver.
      + rewrite lookup_insert_eq. eexists. split; [done|set_solver].
    - exists t. split; [|done]. destruct (size s =? 1)%nat; [by rewrite lookup_delete_ne|by rewrite lookup_insert_ne]. }
  split; cbn [qb_blocks by_parent by_height].
  - intros k x [_ Ex]%lookup_delete_Some. by apply (qw_hash _ W).
  - intros k x [Hk Ex]%lookup_delete_Some. by apply Hbp'.
  - intros p t [[Hp Et]|(-> & -> & Hne)]%Hbp.
    + destruct (qw_children _ W _ _ Et) as [Hne Hc]. split; [done|]. intros k (x & Ex & Ep)%Hc. exists x.
      rewrite lookup_delete_ne; [done|]. intros ->. by simplify_eq.
    + split; [done|]. intros k [Hk Hn]%elem_of_difference. destruct (proj2 (qw_children _ W _ _ Es) _ Hk) as (x & Ex & Ep).
      exists x. rewrite lookup_delete_ne by set_solver. done.
  - apply W.
  - intros k t h' Hin Ht. destruct (qw_height _ W _ _ _ Hin Ht) as (x & Ex & Ek). exists x. rewrite lookup_delete_ne; [done|].
    intros ->. by eapply Hh.
Qed.

Lemma prune_hashes_ok (hs : list bytes) : forall q l, queue_wf q -> NoDup hs ->
  (forall h, h ∈ hs -> is_Some (qb_blocks q !! h) /\ forall k s, (k, s) ∈ by_height q -> h ∉ s) ->
  exists q' a, foldM prune_hash (q, l) hs = Ok (q', l ++ a) /\ queue_wf q'
  /\ (forall h e, qb_blocks q' !! h = Some e <-> qb_blocks q !! h = Some e /\ h ∉ hs)
  /\ chans (qb_blocks q) ≡ₚ a.*1 ++ chans (qb_blocks q').
Proof.
  induction hs as [|h hs IH]; intros q l W Hnd Hin; cbn [foldM].
  - exists q, []. rewrite app_nil_r. split_and!; [done|done|set_solver|done].
  - apply NoDup_cons in Hnd as [Hh Hnd]. destruct (Hin h) as [[e Ee] Hbh]; [left|].
    destruct (prune_hash_ok q l h e W Ee Hbh) as (q1 & a1 & E1 & W1 & Eb & Ebh).
    destruct (IH q1 (l ++ [(e.2, a1)]) W1 Hnd) as (q2 & a2 & E2 & W2 & Hq & Hc).
    { intros k Hk. destruct (Hin k) as [Hs Hkb]; [by right|]. rewrite Ebh, Eb, lookup_delete_ne by (intros ->; done). done. }
    exists q2, ((e.2, a1) :: a2). rewrite E1. cbn [mbind res_bind]. split_and!; [|done| |].
    + rewrite E2. by rewrite <- app_assoc.
    + intros k x. rewrite Hq, Eb, lookup_delete_Some, not_elem_of_cons. naive_solver.
    + rewrite (chans_delete _ _ _ Ee), <- Eb, Hc. done.
Qed.

Lemma elem_of_concat (l : btree (gset bytes)) h : h ∈ concat ((fun e => elements e.2) <$> l) <-> exists e, e ∈ l /\ h ∈ elements e.2.
Proof.
  induction l as [|e l IH]; cbn; [set_solver|]. rewrite elem_of_app, IH. setoid_rewrite elem_of_cons. naive_solver.
Qed.
Lemma concat_heights_nodup q (l : btree (gset bytes)) : queue_wf q -> bt_sorted l -> (forall e, e ∈ l -> e ∈ by_height q) ->
  NoDup (concat ((fun e => elements e.2) <$> l)).
Proof.
  intros W. induction l as [|[k s] l IH]; intros Hs Hin; cbn; [constructor|].
  apply bt_sorted_cons in Hs as [Hs Hlt]. apply NoDup_app. split_and!; [apply NoDup_elements| |].
  - intros h Hh%elem_of_elements Hx'.
    apply elem_of_concat in Hx' as (e & He & Hx).
    rewrite Forall_forall in Hlt. specialize (Hlt _ He). destruct e as [k' s']. apply elem_of_elements in Hx.
    destruct (qw_height _ W k s h) as (x1 & E1 & K1); [apply Hin; left|done|].
    destruct (qw_height _ W k' s' h) as (x2 & E2 & K2); [apply Hin; by right|done|]. simplify_eq. cbn in Hlt. lia.
  - apply IH; [done|]. intros e He. apply Hin. by right.
Qed.
(** Pruning does not panic below the last height, keeps the indexes, and removes
    the blocks that the sets of the heights up to the tip hold. *)
Lemma prune_ok `{BuildProfile} q tip : queue_wf q -> 0 <= tip < Height_MAX ->
  exists q' a, prune_by_height q tip = Ok (q', a) /\ queue_wf q'
  /\ (forall h e, qb_blocks q' !! h = Some e <->
        qb_blocks q !! h = Some e /\ forall k s, (k, s) ∈ by_height q -> k <= tip -> h ∉ s)
  /\ chans (qb_blocks q) ≡ₚ a.*1 ++ chans (qb_blocks q').
Proof.
  intros W Ht. unfold prune_by_height. change Height_MAX with 2147483647 in Ht.
  rewrite height_add_diff_spec by (unfold is_u32, u32_MAX; lia). unfold in_range.
  change Height_MIN with 0. change Height_MAX with 2147483647.
  rewrite (proj2 (Z.leb_le 0 (tip + 1))), (proj2 (Z.leb_le (tip + 1) 2147483647)) by lia. cbn [andb mbind res_bind unwrap].
  set (keep := filter _ _). set (expired := filter _ _).
  set (q1 := mkQueuedBlocks _ _ _ _).
  assert (Hexp : forall h, h ∈ concat ((fun e => elements e.2) <$> expired) <-> exists k s, (k, s) ∈ by_height q /\ k <= tip /\ h ∈ s).
  { intros h. rewrite elem_of_concat. split.
    - intros ([k s] & [Hk Hin]%list_elem_of_filter & Hh%elem_of_elements). exists k, s. cbn in Hk. split_and!; [done|lia|done].
    - intros (k & s & Hin & Hk & Hh). exists (k, s). split; [|by apply elem_of_elements].
      apply list_elem_of_filter. cbn. split; [lia|done]. }
  destruct (prune_hashes_ok (concat ((fun e => elements e.2) <$> expired)) q1 []) as (q2 & a & E & W2 & Hq & Hc).
  - split; try apply W; cbn [by_height q1]; [by apply bt_filter_sorted, W|].
    intros k s h [_ Hin]%list_elem_of_filter. by apply (qw_height _ W).
  - apply (concat_heights_nodup q); [done|by apply bt_filter_sorted, W|]. intros e [_ He]%list_elem_of_filter. done.
  - intros h (k & s & Hin & Hk & Hh)%Hexp. destruct (qw_height _ W _ _ _ Hin Hh) as (e & Ee & Ek). split; [by exists e|].
    intros k' s' [Hk' Hin']%list_elem_of_filter Hh'. cbn in Hk'.
    destruct (qw_height _ W _ _ _ Hin' Hh') as (e' & Ee' & Ek'). simplify_eq. lia.
  - exists q2, a. split_and!; [done|done| |done]. intros h e. rewrite Hq, Hexp. cbn [qb_blocks q1]. naive_solver.
Qed.

(** C27. Pruning misses blocks. When a queued block is sent, every other queued
    block at its height with another parent drops out of the height index: no
    later pruning of that queue removes it, whatever the finalized tip, so it
    stays queued at or below the finalized tip. *)
Theorem dequeued_height_not_pruned `{BuildProfile} q p q' cs c h e tip :
  queue_wf q -> dequeue_children q p = Ok (q', cs) -> c ∈ cs ->
  qb_blocks q !! h = Some e -> sv_height e.1 = sv_height c.1 -> parent_of e.1 ≠ p -> 0 <= tip < Height_MAX ->
  exists q'' answers, prune_by_height q' tip = Ok (q'', answers) /\ qb_blocks q'' !! h = Some e.
Proof.
  intros W E Hc Ee Ek Hp Ht. destruct (dequeue_ok q p W) as (q1 & cs1 & E1 & W1 & Hq & _ & Hbh & _ & _).
  rewrite E1 in E. apply Ok_inj in E as [= -> ->]. destruct (prune_ok q' tip W1 Ht) as (q2 & a & E2 & _ & Hq2 & _).
  exists q2, a. split; [done|]. apply Hq2. split; [by apply Hq|]. intros k s [Hin Hne]%Hbh _ Hh.
  destruct (qw_height _ W _ _ _ Hin Hh) as (x & Ex & Ekx). simplify_eq. by apply (Hne _ Hc).
Qed.
End QueueLemmas.

(** * The invariant of the service *)

(** Each block that was sent to the write task follows its parent, or its parent
    is a root: a finalized tip, or a block of a checkpoint request. *)
Definition sent_hash (m : NonFinalizedWriteMessage * nat) : option bytes :=
  match m.1 with Commit b => Some (sv_hash b) | _ => None end.
Definition known_parent (roots : list bytes) (ms : list (NonFinalizedWriteMessage * nat)) (p : bytes) : Prop :=
  p ∈ roots \/ Some p ∈ sent_hash <$> ms.
Definition parents_first (roots : list bytes) (ms : list (NonFinalizedWriteMessage * nat)) : Prop :=
  forall i b tx, ms !! i = Some (Commit b, tx) -> known_parent roots (take i ms) (parent_of b).

(** The channels of the commit requests: queued, sent or answered. *)
Definition channels (w : QueueService) : list nat :=
  chans (finalized_state_queued_blocks w) ++ chans (qb_blocks (non_finalized_state_queued_blocks w))
  ++ (finalized_messages w).*2 ++ (messages w).*2 ++ (checkpoint_errors w).*1 ++ (qs_answers w).*1.

(** [cps] are the hashes of the checkpoint requests: [add_finalized] puts them
    into the sent hashes, also after the last checkpoint. The children of
    [waiting] are still to be sent. *)
Record queue_inv (tips cps waiting : list bytes) (w : QueueService) : Prop := {
  qi_wf : queue_wf (non_finalized_state_queued_blocks w);
  qi_sender : non_finalized_sender w = true;
  qi_fork : can_fork_chain_at_hashes (non_finalized_block_write_sent_hashes w) = negb (finalized_sender w);
  qi_wait : finalized_sender w = false -> forall h e, qb_blocks (non_finalized_state_queued_blocks w) !! h = Some e ->
    is_Some (sent (non_finalized_block_write_sent_hashes w) !! parent_of e.1) -> parent_of e.1 ∈ cps \/ parent_of e.1 ∈ waiting;
  qi_sent : finalized_sender w = false -> forall h, is_Some (sent (non_finalized_block_write_sent_hashes w) !! h) ->
    known_parent cps (messages w) h;
  qi_order : parents_first (tips ++ cps) (messages w);
  qi_finalized : finalized_sender w = false -> finalized_state_queued_blocks w = ∅;
  qi_fresh : forall c, c ∈ channels w -> (c < qs_next_channel w)%nat;
  qi_nodup : NoDup (channels w)
}.

Lemma known_parent_mono tips tips' ms ms' p : tips ⊆ tips' -> known_parent tips ms p -> known_parent tips' (ms ++ ms') p.
Proof. intros Ht [Hp|Hp]; [left; by apply Ht|right]. rewrite fmap_app, elem_of_app. by left. Qed.
Lemma parents_first_snoc tips ms m : parents_first tips ms ->
  (forall b, m.1 = Commit b -> known_parent tips ms (parent_of b)) -> parents_first tips (ms ++ [m]).
Proof.
  intros Ho Hm i b tx E. apply lookup_app_Some in E as [E|[Hl E]].
  - pose proof (lookup_lt_Some _ _ _ E). rewrite take_app_le by lia. by eapply Ho.
  - destruct (i - length ms)%nat eqn:Ei; [|done]. cbn in E. injection E as ->.
    rewrite take_app_ge by lia. rewrite Ei, app_nil_r. by apply Hm.
Qed.
Lemma parents_first_mono tips tips' ms : tips ⊆ tips' -> parents_first tips ms -> parents_first tips' ms.
Proof.
  intros Ht Ho i b tx E. rewrite <- (app_nil_r (take i ms)). eapply known_parent_mono; [done|]. by eapply Ho.
Qed.

Section ServiceLemmas.
Context `{BuildProfile}.
Implicit Types (w : QueueService) (d : DbView) (b : SemanticallyVerifiedBlock).

(** What sending queued blocks leaves alone. *)
Definition rest w :=
  (finalized_sender w, non_finalized_sender w, finalized_state_queued_blocks w, finalized_messages w, checkpoint_errors w,
   qs_answers w, qs_next_channel w, can_fork_chain_at_hashes (non_finalized_block_write_sent_hashes w), qs_network w).

(** The invariant of the send loop for the parents on the stack. *)
Record send_inv (tips cps : list bytes) w (parents : list bytes) : Prop := {
  si_wf : queue_wf (non_finalized_state_queued_blocks w);
  si_wait : forall h e, qb_blocks (non_finalized_state_queued_blocks w) !! h = Some e ->
    is_Some (sent (non_finalized_block_write_sent_hashes w) !! parent_of e.1) -> parent_of e.1 ∈ cps \/ parent_of e.1 ∈ parents;
  si_sent : forall h, is_Some (sent (non_finalized_block_write_sent_hashes w) !! h) -> known_parent cps (messages w) h;
  si_parents : forall p, p ∈ parents -> known_parent (tips ++ cps) (messages w) p;
  si_order : parents_first (tips ++ cps) (messages w)
}.

Lemma send_children_ok tips cps d (cs : list QueuedSemanticallyVerified) : task_receives d = true ->
  forall w parents, send_inv tips cps w parents -> (forall c, c ∈ cs -> known_parent (tips ++ cps) (messages w) (parent_of c.1)) ->
  exists w', send_children d w cs parents = (w', Some (parents ++ (sv_hash ∘ fst <$> cs)))
  /\ send_inv tips cps w' (parents ++ (sv_hash ∘ fst <$> cs)) /\ rest w' = rest w
  /\ non_finalized_state_queued_blocks w' = non_finalized_state_queued_blocks w
  /\ (messages w').*2 = (messages w).*2 ++ cs.*2.
Proof.
  intros Hd. induction cs as [|[b tx] cs IH]; intros w parents I Hcs; cbn [send_children].
  - exists w. cbn. by rewrite !app_nil_r.
  - rewrite Hd. set (w1 := log _ _ _ _ _ _).
    destruct (IH w1 (parents ++ [sv_hash b])) as (w' & E & I' & Hr & Hq & Hm).
    + destruct I as [W Hw Hs Hp Ho]. split.
      * done.
      * intros h e Ee. cbn. rewrite elem_of_app, list_elem_of_singleton, lookup_insert_is_Some.
        intros [<-|[_ Hin]]; [right; by right|]. destruct (Hw _ _ Ee Hin); tauto.
      * intros h. cbn. rewrite lookup_insert_is_Some. intros [<-|[_ Hin]]; [right; rewrite fmap_app, elem_of_app; right; left|].
        apply (known_parent_mono cps); [done|]. by apply Hs.
      * intros p [Hin| ->%list_elem_of_singleton]%elem_of_app; cbn.
        -- apply (known_parent_mono (tips ++ cps)); [done|]. by apply Hp.
        -- right. rewrite fmap_app, elem_of_app. right. left.
      * cbn. apply parents_first_snoc; [done|]. intros b' [= <-]. apply (Hcs (b, tx)). left.
    + intros c Hc. cbn. apply (known_parent_mono (tips ++ cps)); [done|]. apply Hcs. by right.
    + exists w'. rewrite E. cbn [fmap list_fmap]. rewrite <- app_assoc. cbn [app]. split_and!; [done| | |done|].
      * by rewrite <- app_assoc in I'.
      * rewrite Hr. unfold rest. cbn. by rewrite !app_nil_r.
      * rewrite Hm. cbn. by rewrite fmap_app, <- app_assoc.
Qed.
Lemma finish_batch_fields (s : SentHashes) :
  sent (finish_batch s) = sent s /\ can_fork_chain_at_hashes (finish_batch s) = can_fork_chain_at_hashes s.
Proof. unfold finish_batch. by destruct (curr_buf s). Qed.
Lemma finish_inv tips cps w : send_inv tips cps w [] ->
  send_inv tips cps (with_sent w (finalized_sender w) (finish_batch (non_finalized_block_write_sent_hashes w))) []
  /\ rest (with_sent w (finalized_sender w) (finish_batch (non_finalized_block_write_sent_hashes w))) = rest w.
Proof.
  destruct (finish_batch_fields (non_finalized_block_write_sent_hashes w)) as [Es Ef].
  intros [W Hw Hs Hp Ho]. split; [|unfold rest; cbn; by rewrite Ef]. split; cbn; [done| | |done|done]; by rewrite Es.
Qed.

(** The send loop ends without a panic: afterwards no queued block waits for a
    block that was sent or for a parent on the stack, and the channels of the
    blocks moved from the queue to the messages. *)
Lemma send_ready_ok tips cps d fuel : task_receives d = true -> forall w parents, send_inv tips cps w parents ->
  (length parents + size (qb_blocks (non_finalized_state_queued_blocks w)) <= fuel)%nat ->
  exists w', send_ready fuel d w parents = Ok w' /\ send_inv tips cps w' [] /\ rest w' = rest w
  /\ chans (qb_blocks (non_finalized_state_queued_blocks w)) ++ (messages w).*2
     ≡ₚ chans (qb_blocks (non_finalized_state_queued_blocks w')) ++ (messages w').*2
  /\ forall h e, qb_blocks (non_finalized_state_queued_blocks w') !! h = Some e ->
       qb_blocks (non_finalized_state_queued_blocks w) !! h = Some e /\ parent_of e.1 ∉ parents.
Proof.
  intros Hd. induction fuel as [|fuel IH]; intros w parents I Hf; destruct parents as [|p parents _] using rev_ind.
  1, 3: cbn; destruct (finish_inv _ _ _ I) as [I' Hr]; eexists; split_and!; [done|done|done|done|intros h e Ee; split; [done|apply not_elem_of_nil]].
  { rewrite length_app in Hf. cbn in Hf. lia. }
  cbn [send_ready]. rewrite last_snoc, removelast_last.
  destruct (dequeue_ok _ p (si_wf _ _ _ _ I)) as (q1 & cs & E & W1 & Hq & Hcs & _ & Hch & Hsz). rewrite E. cbn [mbind res_bind].
  destruct (send_children_ok tips cps d cs Hd (with_queue w q1) parents) as (w1 & E1 & I1 & Hr1 & Hq1 & Hm1).
  { destruct I as [W Hw Hs Hp Ho]. split; cbn; [done| |done| |done].
    - intros h e [Ee Hne]%Hq Hin. destruct (Hw _ _ Ee Hin) as [|[|Hx%list_elem_of_singleton]%elem_of_app]; tauto.
    - intros p' Hp'. apply Hp, elem_of_app. by left. }
  { intros c Hc. cbn. rewrite (proj2 (Hcs _ Hc)). apply (si_parents _ _ _ _ I), elem_of_app. right. left. }
  rewrite E1. destruct (IH w1 _ I1) as (w2 & E2 & I2 & Hr2 & Hc2 & Hnp).
  { rewrite Hq1. cbn. rewrite !length_app, length_fmap in *. cbn in *. lia. }
  exists w2. split_and!; [done|done| | |].
  - rewrite Hr2, Hr1. done.
  - rewrite <- Hc2, Hq1, Hm1, Hch. cbn. solve_Permutation.
  - intros h e [Ee Hn]%Hnp. rewrite Hq1 in Ee. apply Hq in Ee as [Ee Hne]. split; [done|].
    rewrite not_elem_of_app, list_elem_of_singleton in *. tauto.
Qed.

(** ** Checkpoint verified blocks *)

Lemma clear_finalized_fold w l error :
  exists ce, foldl (fun w (e : bytes * QueuedSemanticallyVerified) => checkpoint_error w e.2.2 error) w l = log w [] [] ce [] []
  /\ ce.*1 = (fun e => e.2.2) <$> l.
Proof.
  assert (Hlog : forall w ce ce', log (log w [] [] ce [] []) [] [] ce' [] [] = log w [] [] (ce ++ ce') [] []).
  { intros. unfold log. cbn. by rewrite !app_nil_r, app_assoc. }
  revert w. induction l as [|e l IH]; intros w; cbn.
  - exists []. split; [|done]. unfold log. rewrite !app_nil_r. by destruct w.
  - destruct (IH (checkpoint_error w e.2.2 error)) as (ce & -> & Hce). exists ((e.2.2, error) :: ce).
    unfold checkpoint_error. rewrite Hlog. split; [done|]. cbn. by rewrite Hce.
Qed.
Lemma inv_mono tips cps tips' cps' wt w : tips ⊆ tips' -> cps ⊆ cps' -> queue_inv tips cps wt w -> queue_inv tips' cps' wt w.
Proof.
  intros Ht Hc [W Hn Hf Hw Hs Ho Hq Hfr Hnd]. split; try done.
  - intros Ef h e Ee Hin. destruct (Hw Ef _ _ Ee Hin); [left; by apply Hc|by right].
  - intros Ef h Hh. rewrite <- (app_nil_r (messages w)). eapply known_parent_mono; [done|]. by apply Hs.
  - eapply parents_first_mono; [|done]. set_solver.
Qed.

Lemma parents_first_other roots ms ms' : parents_first roots ms -> Forall (fun m => sent_hash m = None) ms' -> parents_first roots (ms ++ ms').
Proof.
  revert ms. induction ms' as [|m ms' IH]; intros ms Ho HF; [by rewrite app_nil_r|].
  apply Forall_cons in HF as [Hm HF]. replace (ms ++ m :: ms') with ((ms ++ [m]) ++ ms') by by rewrite <- app_assoc.
  apply IH; [|done]. apply parents_first_snoc; [done|]. intros b Eb. unfold sent_hash in Hm. by rewrite Eb in Hm.
Qed.

(** A step that leaves the queue and the sent hashes alone, sends no block, and
    takes new channels. *)
Lemma inv_side tips cps wt w w' ms new : queue_inv tips cps wt w ->
  non_finalized_state_queued_blocks w' = non_finalized_state_queued_blocks w -> non_finalized_sender w' = non_finalized_sender w ->
  finalized_sender w' = finalized_sender w -> non_finalized_block_write_sent_hashes w' = non_finalized_block_write_sent_hashes w ->
  messages w' = messages w ++ ms -> Forall (fun m => sent_hash m = None) ms ->
  (finalized_sender w = false -> finalized_state_queued_blocks w' = ∅) ->
  channels w' ≡ₚ new ++ channels w -> NoDup new ->
  (forall c, c ∈ new -> (qs_next_channel w <= c < qs_next_channel w')%nat) -> (qs_next_channel w <= qs_next_channel w')%nat ->
  queue_inv tips cps wt w'.
Proof.
  intros [W Hn Hf Hw Hs Ho Hq Hfr Hnd] Eq En Ef Es Em HF Hfq Hc Hnew Hlt Hle.
  split; rewrite ?Eq, ?En, ?Ef, ?Es, ?Em; try done.
  - intros E h Hh. apply (known_parent_mono cps); [done|]. by apply Hs.
  - by apply parents_first_other.
  - intros c. rewrite Hc, elem_of_app. intros [Hin|Hin]; [by apply Hlt|]. specialize (Hfr _ Hin). lia.
  - rewrite Hc. apply NoDup_app. split_and!; [done| |done]. intros c Hin Hin'. specialize (Hfr _ Hin'). specialize (Hlt _ Hin). lia.
Qed.

Lemma send_finalized_ok d fuel : task_receives d = true -> forall w, finalized_sender w = true ->
  exists fq last fm, send_finalized fuel d w = log (with_finalized w fq last (invalid_block_write_resets w)) fm [] [] [] []
  /\ chans (finalized_state_queued_blocks w) ≡ₚ fm.*2 ++ chans fq.
Proof.
  intros Hd. assert (Hnil : forall w, w = log (with_finalized w (finalized_state_queued_blocks w) (finalized_block_write_last_sent_hash w)
    (invalid_block_write_resets w)) [] [] [] [] []) by (intros w; unfold log; cbn; rewrite !app_nil_r; by destruct w).
  induction fuel as [|fuel IH]; intros w Hw; cbn [send_finalized]; [by eexists _, _, []|].
  destruct (finalized_state_queued_blocks w !! _) as [c|] eqn:Ec; [|by eexists _, _, []]. cbn [finalized_sender with_finalized]. rewrite Hw, Hd.
  destruct (IH (log (with_finalized w (delete (finalized_block_write_last_sent_hash w) (finalized_state_queued_blocks w)) (sv_hash c.1)
    (invalid_block_write_resets w)) [c] [] [] [] [])) as (fq & l & fm & E & Hc); [done|].
  exists fq, l, (c :: fm). split.
  - rewrite E. unfold log. cbn. rewrite !app_nil_r, <- app_assoc. done.
  - cbn in Hc. rewrite (chans_delete _ _ _ Ec), Hc. done.
Qed.

Lemma clear_finalized_ok w error : exists ce,
  clear_finalized_block_queue w error
    = log (with_finalized w ∅ (finalized_block_write_last_sent_hash w) (invalid_block_write_resets w)) [] [] ce [] []
  /\ ce.*1 = chans (finalized_state_queued_blocks w).
Proof. apply clear_finalized_fold. Qed.
(** The fields that the checkpoint verified blocks do not touch. *)
Definition semantic_side w :=
  (non_finalized_state_queued_blocks w, non_finalized_sender w, finalized_sender w, non_finalized_block_write_sent_hashes w,
   messages w, qs_answers w, qs_next_channel w, qs_network w).

Lemma drain_finalized_ok d w : task_receives d = true -> finalized_sender w = true ->
  semantic_side (drain_finalized_queue_and_commit d w) = semantic_side w /\ channels (drain_finalized_queue_and_commit d w) ≡ₚ channels w.
Proof.
  intros Hd Hw. unfold drain_finalized_queue_and_commit. rewrite Hd.
  destruct (invalid_block_write_resets w) as [|r rs] eqn:Er; cbn [finalized_state_queued_blocks with_finalized].
  - destruct (send_finalized_ok d (S (size (finalized_state_queued_blocks w))) Hd w Hw) as (fq & l & fm & -> & Hc).
    split; [unfold semantic_side; cbn; by rewrite !app_nil_r|]. unfold channels. cbn. rewrite Hc, !app_nil_r, !fmap_app. solve_Permutation.
  - destruct (send_finalized_ok d (S (size (finalized_state_queued_blocks w))) Hd
      (with_finalized w (finalized_state_queued_blocks w) r rs) Hw) as (fq & l & fm & -> & Hc). cbn in Hc.
    split; [unfold semantic_side; cbn; by rewrite !app_nil_r|]. unfold channels. cbn. rewrite Hc, !app_nil_r, !fmap_app. solve_Permutation.
Qed.

Lemma add_finalized_inv tips cps wt w b : queue_inv tips cps wt w ->
  queue_inv tips (cps ++ [sv_hash b]) wt (with_sent w (finalized_sender w) (add_sent (non_finalized_block_write_sent_hashes w) b)).
Proof.
  intros I. eapply (inv_mono _ _ tips (cps ++ [sv_hash b]) wt) in I; [|done|set_solver].
  destruct I as [W Hn Hf Hw Hs Ho Hq Hfr Hnd]. split; cbn; try done.
  - intros Ef h e Ee. rewrite lookup_insert_is_Some. intros [<-|[_ Hin]]; [left|by eapply Hw]. apply elem_of_app. right. left.
  - intros Ef h. rewrite lookup_insert_is_Some. intros [<-|[_ Hin]]; [|by apply Hs]. left. apply elem_of_app. right. left.
Qed.

Lemma insert_finalized_ok w p (c : QueuedSemanticallyVerified) last resets error :
  let w1 := with_finalized w (<[p := c]> (finalized_state_queued_blocks w)) last resets in
  let w2 := match finalized_state_queued_blocks w !! p with Some old => checkpoint_error w1 old.2 error | None => w1 end in
  semantic_side w2 = semantic_side w /\ channels w2 ≡ₚ [c.2] ++ channels w.
Proof.
  cbn. destruct (finalized_state_queued_blocks w !! p) as [old|] eqn:Eo.
  - split; [unfold semantic_side; cbn; by rewrite !app_nil_r|]. unfold channels. cbn. rewrite !app_nil_r, fmap_app.
    pose proof (chans_replace _ _ _ c Eo) as Hr. cbn in Hr |- *.
    rewrite (app_comm_cons (chans _) _ c.2), <- Hr. cbn. solve_Permutation.
  - split; [done|]. unfold channels. cbn. by rewrite (chans_insert _ _ _ Eo).
Qed.

Lemma clear_error_ok w tx error : let r := clear_finalized_block_queue (checkpoint_error w tx error) error in
  semantic_side r = semantic_side w /\ channels r ≡ₚ [tx] ++ channels w /\ finalized_state_queued_blocks r = ∅.
Proof.
  destruct (clear_finalized_ok (checkpoint_error w tx error) error) as (ce & -> & Hce).
  split_and!; [unfold semantic_side; cbn; by rewrite !app_nil_r| |done]. unfold channels. cbn. rewrite !app_nil_r, !fmap_app, Hce. cbn.
  unfold chans at 1. rewrite map_to_list_empty. cbn. solve_Permutation.
Qed.

Lemma queue_finalized_inv tips cps wt d w b w' rx : task_receives d = true -> queue_inv tips cps wt w ->
  queue_and_commit_to_finalized_state d w b = (w', rx) ->
  queue_inv tips (cps ++ [sv_hash b]) wt w' /\ channels w' ≡ₚ [rx] ++ channels w /\ qs_network w' = qs_network w.
Proof.
  intros Hd I E. unfold queue_and_commit_to_finalized_state in E. set (w1 := if is_close_to_final_checkpoint _ _ then _ else _) in E.
  assert (I1 : queue_inv tips (cps ++ [sv_hash b]) wt w1 /\ channels w1 = channels w /\ qs_network w1 = qs_network w).
  { unfold w1. destruct (is_close_to_final_checkpoint _ _); split_and!; try done; [by apply add_finalized_inv|].
    eapply inv_mono; [| |done]; set_solver. }
  destruct I1 as (I1 & <- & <-). clearbody w1. unfold fresh_channel in E. cbv beta iota in E. set (w2 := mkQueueService _ _ _ _ _ _ _ _ _ _ _ _ _ _ _ _) in E.
  assert (Hside : semantic_side w' = semantic_side w2 /\ channels w' ≡ₚ [rx] ++ channels w2
                  /\ (finalized_sender w2 = false -> finalized_state_queued_blocks w' = ∅)).
  { destruct (finalized_sender w2) eqn:Ef; injection E as <- <-.
    - destruct (insert_finalized_ok w2 (parent_of b) (b, qs_next_channel w1) (finalized_block_write_last_sent_hash w2)
        (invalid_block_write_resets w2) "dropping older checkpoint verified block: got newer duplicate block") as [H3 Hc3].
      match type of H3 with semantic_side ?x = _ => set (w3 := x) in H3, Hc3 |- * end.
      assert (Hf3 : finalized_sender w3 = true) by (unfold semantic_side in H3; injection H3; congruence).
      destruct (drain_finalized_ok d w3 Hd Hf3) as [Hs Hc]. split_and!; [exact (eq_trans Hs H3)|exact (Permutation_trans Hc Hc3)|done].
    - destruct (clear_error_ok w2 (qs_next_channel w1) already_committed) as (? & ? & ?). done. }
  destruct Hside as (Hs & Hc & Hfq).
  assert (Hrx : rx = qs_next_channel w1) by by injection E. unfold semantic_side in Hs. injection Hs as S1 S2 S3 S4 S5 S6 S7 S8.
  cbn in S7, S8. split_and!; [|done|done]. eapply (inv_side _ _ _ w1 w' [] [rx]); try done; [by rewrite app_nil_r|apply NoDup_singleton| |lia].
  intros c ->%list_elem_of_singleton. lia.
Qed.
(** ** Semantically verified blocks *)

Lemma prune_buf_sent bound buf : forall acc, (prune_buf bound buf acc).2.1 ⊆ acc.1.
Proof.
  induction buf as [|[h k] buf IH]; intros acc; cbn; [done|]. destruct (bound <? k); [done|].
  etrans; [apply IH|]. destruct (acc.1 !! h); [|done]. apply delete_subseteq.
Qed.
Lemma prune_bufs_sent bound l : forall acc, (prune_bufs bound l acc).2.1 ⊆ acc.1.
Proof.
  induction l as [|buf l IH]; intros acc; cbn; [done|]. pose proof (prune_buf_sent bound buf acc) as Hb.
  destruct (prune_buf bound buf acc) as [buf' acc']. specialize (IH acc'). destruct (prune_bufs bound l acc') as [l' acc'']. by etrans.
Qed.
Lemma prune_sent_subseteq s bound :
  sent (prune_sent s bound) ⊆ sent s /\ can_fork_chain_at_hashes (prune_sent s bound) = can_fork_chain_at_hashes s.
Proof.
  unfold prune_sent. destruct (finish_batch_fields s) as [Es Ef]. rewrite <- Es, <- Ef.
  pose proof (prune_bufs_sent bound (bufs (finish_batch s)) (sent (finish_batch s), sent_known_utxos (finish_batch s))) as Hp.
  by destruct (prune_bufs _ _ _) as [l [st ku]].
Qed.

(** The invariant follows from that of the send loop, with the other fields as
    they were. *)
Lemma send_inv_queue tips cps w : send_inv tips cps w [] -> non_finalized_sender w = true ->
  can_fork_chain_at_hashes (non_finalized_block_write_sent_hashes w) = negb (finalized_sender w) ->
  (finalized_sender w = false -> finalized_state_queued_blocks w = ∅) ->
  (forall c, c ∈ channels w -> (c < qs_next_channel w)%nat) -> NoDup (channels w) -> queue_inv tips cps [] w.
Proof. intros [W Hw Hs Hp Ho] ? ? ? ? ?. by split. Qed.

Definition view_ok (d : DbView) : Prop :=
  task_receives d = true /\ match view_tip d with Some (height, _) => 0 <= height < Height_MAX | None => False end.

Lemma commit_ready_ok tips cps d w p : view_ok d -> queue_inv tips cps [p] w -> finalized_sender w = false ->
  known_parent (tips ++ cps) (messages w) p ->
  exists w', (w1 ← send_ready_non_finalized_queued d w p;
    '(finalized_tip_height, _) ← unwrap (view_tip d);
    '(q, sent) ← prune_by_height (non_finalized_state_queued_blocks w1) finalized_tip_height;
    let w2 := log (with_queue w1 q) [] [] [] sent [] in
    Ok (with_sent w2 (finalized_sender w2) (prune_sent (non_finalized_block_write_sent_hashes w2) finalized_tip_height))) = Ok w'
  /\ queue_inv tips cps [] w' /\ channels w' ≡ₚ channels w /\ qs_network w' = qs_network w.
Proof.
  intros [Hd Ht] I Ef Hp. destruct (view_tip d) as [[tip thash]|] eqn:Et; [|done].
  unfold send_ready_non_finalized_queued. rewrite (qi_sender _ _ _ _ I).
  destruct (send_ready_ok tips cps d (S (size (qb_blocks (non_finalized_state_queued_blocks w)))) Hd w [p]) as (w1 & -> & I1 & Hr & Hc & _).
  { destruct I as [W Hn Hf Hw Hs Ho Hq Hfr Hnd]. split; [done|by apply Hw|by apply Hs| |done]. by intros p' ->%list_elem_of_singleton. }
  { cbn. lia. }
  cbn [mbind res_bind unwrap]. destruct (prune_ok _ tip (si_wf _ _ _ _ I1) Ht) as (q & a & -> & Wq & Hq & Hcq). cbn [mbind res_bind].
  eexists. split; [done|]. unfold rest in Hr. injection Hr as R1 R2 R3 R4 R5 R6 R7 R8 R9.
  set (w2 := with_sent _ _ _).
  assert (Hch : channels w2 ≡ₚ channels w).
  { unfold channels. cbn. rewrite !app_nil_r, fmap_app, R3, R4, R5, R6. rewrite Hcq in Hc.
    transitivity (chans (finalized_state_queued_blocks w) ++ (finalized_messages w).*2 ++ (checkpoint_errors w).*1 ++ (qs_answers w).*1
      ++ (a.*1 ++ chans (qb_blocks q)) ++ (messages w1).*2); [solve_Permutation|]. rewrite <- Hc. solve_Permutation. }
  split_and!; [|done|done]. destruct (prune_sent_subseteq (non_finalized_block_write_sent_hashes w1) tip) as [Hsub Hfk].
  apply (send_inv_queue tips cps w2); cbn [non_finalized_sender finalized_sender w2 log with_sent with_queue finalized_state_queued_blocks
    non_finalized_block_write_sent_hashes qs_next_channel].
  - destruct I1 as [W1 Hw1 Hs1 Hp1 Ho1]. split; cbn; rewrite ?app_nil_r; try done.
    + intros h e [Ee _]%Hq [x Hx]. apply (Hw1 _ _ Ee). exists x. by eapply lookup_weaken.
    + intros h [x Hx]. apply Hs1. exists x. by eapply lookup_weaken.
  - by rewrite R2, (qi_sender _ _ _ _ I).
  - rewrite Hfk, R8, R1. apply I.
  - rewrite R1, R3. apply I.
  - intros c. rewrite Hch, R7. apply I.
  - rewrite Hch. apply I.
Qed.
(** The last checkpoint: the checkpoint sender is dropped and the children of the
    tip are sent. *)
Lemma commit_switch_ok tips cps wt d w p : view_ok d -> queue_inv tips cps wt w -> p ∈ tips ->
  exists w', (w1 ← send_ready_non_finalized_queued d (with_sent w false (mkSentHashes [] [] ∅ ∅ true)) p;
    Ok (clear_finalized_block_queue w1 already_committed)) = Ok w'
  /\ queue_inv tips cps [] w' /\ channels w' ≡ₚ channels w /\ qs_network w' = qs_network w.
Proof.
  intros [Hd _] I Hp. unfold send_ready_non_finalized_queued. cbn [non_finalized_sender with_sent]. rewrite (qi_sender _ _ _ _ I).
  cbn [non_finalized_state_queued_blocks with_sent].
  destruct (send_ready_ok tips cps d (S (size (qb_blocks (non_finalized_state_queued_blocks w)))) Hd
    (with_sent w false (mkSentHashes [] [] ∅ ∅ true)) [p]) as (w1 & -> & I1 & Hr & Hc & _).
  { destruct I as [W Hn Hf Hw Hs Ho Hq Hfr Hnd]. split; cbn; try done.
    - intros h e _. rewrite lookup_empty. by intros [? [=]].
    - intros h. rewrite lookup_empty. by intros [? [=]].
    - intros p' ->%list_elem_of_singleton. left. apply elem_of_app. by left. }
  { cbn. lia. }
  cbn [mbind res_bind]. destruct (clear_finalized_ok w1 already_committed) as (ce & -> & Hce).
  eexists. split; [done|]. unfold rest in Hr. injection Hr as R1 R2 R3 R4 R5 R6 R7 R8 R9. cbn in R1, R2, R3, R4, R5, R6, R7, R8, R9, Hc.
  set (w2 := log _ _ _ _ _ _).
  assert (Hch : channels w2 ≡ₚ channels w).
  { unfold channels. cbn. rewrite !app_nil_r, fmap_app, Hce, R3, R4, R5, R6. unfold chans at 1. rewrite map_to_list_empty. cbn.
    transitivity (chans (finalized_state_queued_blocks w) ++ (finalized_messages w).*2 ++ (checkpoint_errors w).*1 ++ (qs_answers w).*1
      ++ chans (qb_blocks (non_finalized_state_queued_blocks w1)) ++ (messages w1).*2); [solve_Permutation|].
    rewrite <- Hc. solve_Permutation. }
  split_and!; [|done|done]. apply (send_inv_queue tips cps w2); cbn [non_finalized_sender finalized_sender w2 log with_finalized
    finalized_state_queued_blocks non_finalized_block_write_sent_hashes qs_next_channel].
  - destruct I1 as [W1 Hw1 Hs1 Hp1 Ho1]. split; cbn; rewrite ?app_nil_r; done.
  - by rewrite R2, (qi_sender _ _ _ _ I).
  - by rewrite R8, R1.
  - done.
  - intros c. rewrite Hch, R7. apply I.
  - rewrite Hch. apply I.
Qed.

Lemma commit_queued_ok tips cps d w p : view_ok d -> view_tip_hash d ∈ tips -> queue_inv tips cps [p] w ->
  exists w', commit_queued d w p = Ok w' /\ queue_inv tips cps [] w' /\ channels w' ≡ₚ channels w /\ qs_network w' = qs_network w.
Proof.
  intros Hv Ht I. unfold commit_queued. destruct (_ && _ && _) eqn:Esw.
  { apply andb_true_iff in Esw as [_ Hlast%bool_decide_eq_true]. cbn [finalized_block_write_last_sent_hash with_sent].
    eapply commit_switch_ok; [done|done|]. by rewrite <- Hlast. }
  destruct (can_fork_chain_at d w p) eqn:Efk; cbn [negb].
  - destruct (finalized_sender w) eqn:Ef; cbn [negb].
    + exists w. split_and!; [done| |done|done]. destruct I. by split; try done; rewrite Ef.
    + apply commit_ready_ok; [done|done|done|]. unfold can_fork_chain_at, sent_can_fork_chain_at, sent_contains in Efk.
      apply orb_true_iff in Efk as [[_ Hs%bool_decide_eq_true]%andb_true_iff|Htip%bool_decide_eq_true].
      * rewrite <- (app_nil_r (messages w)). apply (known_parent_mono cps); [set_solver|]. by apply I.
      * left. apply elem_of_app. left. by rewrite <- Htip.
  - exists w. split_and!; [done| |done|done]. pose proof I as [W Hn Hf Hw Hs Ho Hq Hfr Hnd]. split; try done.
    intros Ef h e Ee Hin. destruct (Hw Ef _ _ Ee Hin) as [|Hx%list_elem_of_singleton]; [by left|].
    apply orb_false_iff in Efk as [Efk _]. unfold sent_can_fork_chain_at, sent_contains in Efk.
    rewrite Hf, Ef, bool_decide_eq_true_2 in Efk by (by rewrite <- Hx). done.
Qed.
Lemma inv_queued tips cps w b tx q' w' : queue_inv tips cps [] w -> queue_wf q' -> non_finalized_state_queued_blocks w' = q' ->
  (forall h e, qb_blocks q' !! h = Some e -> parent_of e.1 = parent_of b \/
     exists e', qb_blocks (non_finalized_state_queued_blocks w) !! h = Some e' /\ parent_of e.1 = parent_of e'.1) ->
  (non_finalized_sender w', finalized_sender w', non_finalized_block_write_sent_hashes w', messages w', finalized_state_queued_blocks w')
  = (non_finalized_sender w, finalized_sender w, non_finalized_block_write_sent_hashes w, messages w, finalized_state_queued_blocks w) ->
  tx = qs_next_channel w -> qs_next_channel w' = S tx -> channels w' ≡ₚ [tx] ++ channels w -> queue_inv tips cps [parent_of b] w'.
Proof.
  intros [W Hn Hf Hw Hs Ho Hq Hfr Hnd] W' Eq' Hb Es -> En Hc. injection Es as E1 E2 E3 E4 E5.
  split; rewrite ?E1, ?E2, ?E3, ?E4, ?E5, ?Eq'; try done.
  - intros Ef h e [Ep|(e' & Ee' & Ep)]%Hb Hin; rewrite Ep in *; [right; left|].
    destruct (Hw Ef _ _ Ee' Hin) as [|Hx]; [by left|by apply not_elem_of_nil in Hx].
  - intros c. rewrite Hc, elem_of_app. intros [->%list_elem_of_singleton|Hin]; [lia|]. specialize (Hfr _ Hin). lia.
  - rewrite Hc. cbn. apply NoDup_cons. split; [|done]. intros Hin. specialize (Hfr _ Hin). lia.
Qed.

Lemma queue_semantic_inv tips cps d w b : view_ok d -> view_tip_hash d ∈ tips -> queue_inv tips cps [] w ->
  exists w' rx, queue_and_commit_to_non_finalized_state d w b = Ok (w', rx)
  /\ queue_inv tips cps [] w' /\ channels w' ≡ₚ [rx] ++ channels w /\ qs_network w' = qs_network w.
Proof.
  intros Hv Ht I. unfold queue_and_commit_to_non_finalized_state. destruct (fresh_channel w) as [w1 rx] eqn:E1.
  unfold fresh_channel in E1. injection E1 as <- <-. set (w1 := mkQueueService _ _ _ _ _ _ _ _ _ _ _ _ _ _ _ _).
  assert (Hans : forall r, queue_inv tips cps [] (answer w1 (qs_next_channel w) r)
    /\ channels (answer w1 (qs_next_channel w) r) ≡ₚ [qs_next_channel w] ++ channels w).
  { intros r. assert (Hc : channels (answer w1 (qs_next_channel w) r) ≡ₚ [qs_next_channel w] ++ channels w).
    { unfold channels. cbn. rewrite !app_nil_r, fmap_app. solve_Permutation. }
    split; [|done]. eapply (inv_side _ _ _ w _ [] [qs_next_channel w]); try done; cbn; [apply I|apply NoDup_singleton| |lia].
    intros c ->%list_elem_of_singleton. lia. }
  destruct (sent_contains _ _); [eexists _, _; split; [done|]; destruct (Hans (context_error (DuplicateCommitRequest (sv_hash b)))); done|].
  destruct (view_contains_height _ _); [eexists _, _; split; [done|]; destruct (Hans (context_error (AlreadyFinalized (sv_height b)))); done|].
  clear Hans. set (w2 := match replace_sender _ _ _ with Some _ => _ | None => _ end).
  assert (H2 : queue_inv tips cps [parent_of b] w2 /\ channels w2 ≡ₚ [qs_next_channel w] ++ channels w /\ qs_network w2 = qs_network w).
  { unfold w2. destruct (replace_sender _ _ _) as [[q' old]|] eqn:Er.
    - destruct (replace_sender_wf _ _ _ _ _ (qi_wf _ _ _ _ I) Er) as (W' & b0 & Eb0 & Eq').
      match goal with |- _ /\ ?c /\ _ => assert (Hc : c) end.
      { unfold channels. cbn. rewrite !app_nil_r, fmap_app, Eq'. cbn.
        pose proof (chans_replace _ _ _ (b0, qs_next_channel w) Eb0) as Hr. cbn in Hr.
        transitivity (chans (finalized_state_queued_blocks w) ++ (old :: chans (<[sv_hash b:=(b0, qs_next_channel w)]> (qb_blocks (non_finalized_state_queued_blocks w))))
          ++ (finalized_messages w).*2 ++ (messages w).*2 ++ (checkpoint_errors w).*1 ++ (qs_answers w).*1); [solve_Permutation|].
        rewrite Hr. solve_Permutation. }
      split_and!; [|exact Hc|done]. eapply (inv_queued _ _ w b _ q'); try done; [|cbn; by rewrite app_nil_r].
      intros h e. rewrite Eq'. intros [[<- <-]|[_ Ee]]%lookup_insert_Some; right; [by exists (b0, old)|by exists e].
    - assert (Hnone : qb_blocks (non_finalized_state_queued_blocks w) !! sv_hash b = None).
      { unfold replace_sender in Er. cbn in Er. by destruct (qb_blocks _ !! _) as [[? ?]|]. }
      match goal with |- _ /\ ?c /\ _ => assert (Hc : c) end.
      { unfold channels. cbn [with_queue non_finalized_state_queued_blocks w1]. rewrite queue_blocks by done.
        cbn. rewrite (chans_insert _ _ _ Hnone). solve_Permutation. }
      split_and!; [|exact Hc|done]. eapply (inv_queued _ _ w b _ (queue _ _)); try done; [by apply queue_keeps_wf, I|].
      intros h e. rewrite queue_blocks by done. intros [[<- <-]|[_ Ee]]%lookup_insert_Some; [by left|right; by exists e]. }
  destruct H2 as (I2 & Hc2 & Hn2). destruct (commit_queued_ok tips cps d w2 (parent_of b) Hv Ht I2) as (w' & -> & I' & Hc' & Hn').
  cbn [mbind res_bind]. eexists _, _. split; [done|]. split_and!; [done|by rewrite Hc'|by rewrite Hn'].
Qed.
(** ** Runs *)

Definition event_tips (e : QueueEvent) : list bytes :=
  match e with CommitSemanticallyVerifiedBlock d _ => [view_tip_hash d] | _ => [] end.
Definition event_checkpoints (e : QueueEvent) : list bytes :=
  match e with CommitCheckpointVerifiedBlock _ b => [sv_hash b] | _ => [] end.
(** The write task receives, the finalized state has a block below the last
    height when a semantically verified block arrives, and that block is above the
    mandatory checkpoint. *)
Definition event_ok (network : Network) (e : QueueEvent) : Prop :=
  match e with
  | CommitSemanticallyVerifiedBlock d b =>
      view_ok d /\ match mandatory_checkpoint_height network with Ok m => m < sv_height b | _ => False end
  | CommitCheckpointVerifiedBlock d _ => task_receives d = true
  | _ => True
  end.

Lemma pending_side tips cps w p u : queue_inv tips cps [] w ->
  queue_inv tips cps [] (log (with_pending w p) [] [] [] [] u) /\ channels (log (with_pending w p) [] [] [] [] u) = channels w.
Proof.
  intros I. match goal with |- _ /\ ?c => assert (Hc : c) end. { unfold channels. cbn. by rewrite !app_nil_r. }
  split; [|done]. eapply (inv_side _ _ _ w _ [] []); try done; cbn; [apply I|by rewrite Hc|constructor|set_solver].
Qed.
Lemma message_side tips cps w m : queue_inv tips cps [] w -> sent_hash (m, qs_next_channel w) = None ->
  queue_inv tips cps [] (log (fresh_channel w).1 [] [(m, qs_next_channel w)] [] [] [])
  /\ channels (log (fresh_channel w).1 [] [(m, qs_next_channel w)] [] [] []) ≡ₚ [qs_next_channel w] ++ channels w.
Proof.
  intros I Hm. match goal with |- _ /\ ?c => assert (Hc : c) end.
  { unfold channels. cbn. rewrite !app_nil_r, fmap_app. solve_Permutation. }
  split; [|exact Hc]. eapply (inv_side _ _ _ w _ [(m, qs_next_channel w)] [qs_next_channel w]); try done; cbn;
    [by constructor|apply I|apply NoDup_singleton| |lia]. intros c ->%list_elem_of_singleton. lia.
Qed.
Lemma fresh_side tips cps w : queue_inv tips cps [] w -> queue_inv tips cps [] (fresh_channel w).1.
Proof. intros I. eapply (inv_side _ _ _ w _ [] []); try done; cbn; [by rewrite app_nil_r|apply I|constructor|set_solver|lia]. Qed.
Lemma other_requests_ok network tips cps w receivers w' : queue_inv tips cps [] w -> qs_network w = network -> receivers ⊆+ channels w ->
  w' = (fresh_channel w).1
  \/ (exists m, sent_hash (m, qs_next_channel w) = None /\ w' = log (fresh_channel w).1 [] [(m, qs_next_channel w)] [] [] []) ->
  exists w1 receivers', Ok (E := Empty_set) (w', receivers) = Ok (w1, receivers')
  /\ queue_inv tips cps [] w1 /\ qs_network w1 = network /\ receivers' ⊆+ channels w1.
Proof.
  intros I Hn Hr [->|(m & Hm & ->)]; eexists _, _; (split; [done|]); [split_and!; [by apply fresh_side|done|done]|].
  destruct (message_side _ _ _ _ I Hm) as [I' Hc]. split_and!; [done|done|]. rewrite Hc. by apply submseteq_inserts_l.
Qed.

Lemma queue_step_ok network tips cps w receivers e :
  queue_inv tips cps [] w -> qs_network w = network -> receivers ⊆+ channels w -> event_ok network e ->
  exists w' receivers', queue_step (w, receivers) e = Ok (w', receivers')
  /\ queue_inv (tips ++ event_tips e) (cps ++ event_checkpoints e) [] w' /\ qs_network w' = network /\ receivers' ⊆+ channels w'.
Proof.
  intros I Hn Hr He.
  destruct e as [d b|d b|d hash|d hash|d hash|o|hash|alive]; cbn [queue_step event_tips event_checkpoints]; rewrite ?app_nil_r.
  - destruct He as [Hv Hm]. unfold request_commit_semantically_verified, assert_block_can_be_validated. rewrite Hn.
    destruct (mandatory_checkpoint_height network) as [m| |]; [|done|done]. cbn [mbind res_bind]. rewrite (proj2 (Z.ltb_lt _ _) Hm).
    cbn [assert_ mbind res_bind]. destruct (check_against_ordered _ _) as [p u].
    destruct (pending_side _ _ _ p u I) as [I1 Hc1]. apply (inv_mono _ _ (tips ++ [view_tip_hash d]) cps) in I1; [|set_solver|done].
    destruct (queue_semantic_inv (tips ++ [view_tip_hash d]) cps d _ b Hv ltac:(set_solver) I1) as (w' & rx & -> & I' & Hc & Hn'). cbn [mbind res_bind].
    eexists _, _. split_and!; [done|done|by rewrite Hn'|]. rewrite Hc, Hc1, (Permutation_app_comm receivers). by apply submseteq_skips_l.
  - unfold request_commit_checkpoint_verified. destruct (check_against_ordered _ _) as [p u].
    destruct (pending_side _ _ _ p u I) as [I1 Hc1]. destruct (queue_and_commit_to_finalized_state _ _ _) as [w' rx] eqn:E.
    destruct (queue_finalized_inv _ _ _ _ _ _ _ _ He I1 E) as (I' & Hc & Hn').
    eexists _, _. split_and!; [done|done|by rewrite Hn'|]. rewrite Hc, Hc1, (Permutation_app_comm receivers). by apply submseteq_skips_l.
  - apply (other_requests_ok network tips cps w); [done|done|done|].
    unfold send_crosslink_finalized_to_non_finalized_state. cbn [fresh_channel]. destruct (_ || _), (task_receives d); first [by left|right; eexists; split; [|done]; done].
  - apply (other_requests_ok network tips cps w); [done|done|done|].
    unfold send_invalidate_block. cbn [fresh_channel]. destruct (negb _), (task_receives d); first [by left|right; eexists; split; [|done]; done].
  - apply (other_requests_ok network tips cps w); [done|done|done|].
    unfold send_reconsider_block. cbn [fresh_channel]. destruct (negb _), (task_receives d); first [by left|right; eexists; split; [|done]; done].
  - eexists _, _. split; [done|]. unfold request_await_utxo. destruct (fresh_channel w) as [w1 rx] eqn:Ew.
    assert (Hw1 : w1 = (fresh_channel w).1) by by rewrite Ew. pose proof (fresh_side _ _ _ I) as I1. rewrite <- Hw1 in I1.
    assert (Hc1 : channels w1 = channels w /\ qs_network w1 = network) by by rewrite Hw1. destruct Hc1 as [Hc1 Hn1].
    assert (Hp0 : forall p, queue_inv tips cps [] (with_pending w1 p)).
    { intros p. eapply (inv_side _ _ _ w1 _ [] []); try done; cbn; [by rewrite app_nil_r|apply I1|constructor|set_solver]. }
    destruct (queued_utxo _ _) as [u|]; [|destruct (sent_utxo _ _) as [u|]]; cbn [fst]; [| |split_and!; [done|done|by rewrite <- Hc1 in Hr]].
    all: destruct (pending_respond _ _ _) as [p l]; destruct (pending_side _ _ _ p l (Hp0 (pending_queue (pending_utxos w1) o rx))) as [I2 Hc2];
      split_and!; [exact I2|done|rewrite Hc2; by rewrite <- Hc1 in Hr].
  - eexists _, _. split; [done|]. split_and!; [|done|done].
    eapply (inv_side _ _ _ w _ [] []); try done; cbn; [by rewrite app_nil_r|apply I|constructor|set_solver].
  - eexists _, _. split; [done|]. split_and!; [|done|done].
    eapply (inv_side _ _ _ w _ [] []); try done; cbn; [by rewrite app_nil_r|apply I|constructor|set_solver].
Qed.

Lemma queue_run_ok network events : forall tips cps w receivers,
  queue_inv tips cps [] w -> qs_network w = network -> receivers ⊆+ channels w -> Forall (event_ok network) events ->
  exists w' receivers', foldM queue_step (w, receivers) events = Ok (w', receivers')
  /\ queue_inv (tips ++ concat (event_tips <$> events)) (cps ++ concat (event_checkpoints <$> events)) [] w'
  /\ receivers' ⊆+ channels w'.
Proof.
  induction events as [|e events IH]; intros tips cps w receivers I Hn Hr HF; cbn [foldM concat fmap list_fmap].
  - rewrite !app_nil_r. by eexists _, _.
  - apply Forall_cons in HF as [He HF]. destruct (queue_step_ok _ _ _ _ _ _ I Hn Hr He) as (w1 & r1 & -> & I1 & Hn1 & Hr1).
    cbn [mbind res_bind]. rewrite !app_assoc. by apply IH.
Qed.

(** C16. The queues of the state service. For every sequence of requests to a new
    service whose write task receives them, with semantically verified blocks above
    the mandatory checkpoint and a finalized tip below the last height when they
    arrive, no call panics. Each block sent to the write task comes after its
    parent, unless the parent was the finalized tip at a request or the block of a
    checkpoint request. After the last checkpoint no block waits in the queue for a
    parent among the sent hashes, again unless the parent came in a checkpoint
    request. The channel of each commit request is in exactly one place: with a
    queued block, with a message to the write task, or with an answer. *)
Theorem queue_run_safety network max_checkpoint_height limit d0 events w0 :
  new_service network max_checkpoint_height limit d0 = Ok w0 -> Forall (event_ok network) events ->
  exists w receivers, queue_run w0 events = Ok (w, receivers)
  /\ parents_first (concat (event_tips <$> events) ++ concat (event_checkpoints <$> events)) (messages w)
  /\ (finalized_sender w = false -> forall h e, qb_blocks (non_finalized_state_queued_blocks w) !! h = Some e ->
        sent_contains (non_finalized_block_write_sent_hashes w) (parent_of e.1) = true ->
        parent_of e.1 ∈ concat (event_checkpoints <$> events))
  /\ NoDup (channels w) /\ receivers ⊆+ channels w.
Proof.
  intros E HF. unfold new_service in E. apply bind_Ok_inv in E as ([] & _ & E). apply bind_Ok_inv in E as (l & _ & <-%Ok_inj).
  destruct (queue_run_ok network events [] [] (mkQueueService network (default Height_MIN l) QueuedBlocks_default ∅ true true
    (view_tip_hash d0) SentHashes_default [] ∅ 0 [] [] [] [] []) []) as (w & r & Er & I & Hr); [|done|apply submseteq_nil_l|done|].
  { assert (Hc0 : chans ∅ = []) by (unfold chans; by rewrite map_to_list_empty).
    split; try done; [apply queue_wf_default| |]; unfold channels; cbn; rewrite Hc0; cbn; [set_solver|constructor]. }
  exists w, r. destruct I as [W Hn Hf Hw Hs Ho Hq Hfr Hnd]. split_and!; try done.
  intros Ef h e Ee Hin%bool_decide_eq_true. destruct (Hw Ef _ _ Ee Hin) as [|Hx]; [done|by apply not_elem_of_nil in Hx].
Qed.
(** A block of a checkpoint request that comes after the last checkpoint is
    answered with an error, but from the lookahead height on its hash is then among
    the sent hashes: blocks fork the chain there, and a request to commit that block
    is a duplicate. *)
Lemma late_checkpoint_block_is_sent tips cps d w b :
  queue_inv tips cps [] w -> finalized_sender w = false -> full_verifier_utxo_lookahead w <= sv_height b ->
  let '(w', rx) := queue_and_commit_to_finalized_state d w b in
  (rx, already_committed) ∈ checkpoint_errors w' /\ messages w' = messages w /\ finalized_messages w' = finalized_messages w
  /\ can_fork_chain_at d w' (sv_hash b) = true /\ sent_contains (non_finalized_block_write_sent_hashes w') (sv_hash b) = true.
Proof.
  intros I Ef Hh. unfold queue_and_commit_to_finalized_state, is_close_to_final_checkpoint. rewrite (proj2 (Z.leb_le _ _) Hh).
  cbn [fresh_channel finalized_sender with_sent]. rewrite Ef. unfold clear_finalized_block_queue.
  cbn [checkpoint_error log finalized_state_queued_blocks with_sent]. rewrite (qi_finalized _ _ _ _ I Ef), map_to_list_empty. cbn [foldl].
  unfold can_fork_chain_at, sent_can_fork_chain_at, sent_contains. cbn. rewrite !app_nil_r, (qi_fork _ _ _ _ I), Ef.
  rewrite lookup_insert_eq, (bool_decide_eq_true_2 (is_Some (Some _))) by eauto. split_and!; try done. apply elem_of_app. right. left.
Qed.
End ServiceLemmas.

(** ** Examples *)

Module QueueExample.
#[local] Existing Instance release_build.
Definition block_with (hash parent : bytes) (height : Z) : SemanticallyVerifiedBlock :=
  mkSemanticallyVerifiedBlock
    (mkBlock (mkHeader 4 parent [Byte.x05] (zero_bytes 32) 1000 0x1f07ffff (zero_bytes 32) Solution_for_proposal FatPointerToBftBlock_null) [])
    hash height ∅ [] None.
Definition view (height : Z) (hash : bytes) : DbView := mkDbView (Some (height, hash)) (fun h => h <=? height) true.

(** Two blocks wait at the same height, for different parents. *)
Definition two_queued : QueuedBlocks :=
  queue (queue QueuedBlocks_default (block_with [Byte.x01] [Byte.x0a] 5, 0%nat)) (block_with [Byte.x02] [Byte.x0b] 5, 1%nat).

Lemma dequeued_height_not_pruned_witness : exists q' cs q'' answers,
  dequeue_children two_queued [Byte.x0a] = Ok (q', cs) /\ prune_by_height q' 100 = Ok (q'', answers)
  /\ qb_blocks q'' !! [Byte.x02] = Some (block_with [Byte.x02] [Byte.x0b] 5, 1%nat).
Proof.
  assert (W : queue_wf two_queued) by (apply queue_keeps_wf, queue_keeps_wf, queue_wf_default).
  assert (Hk : match dequeue_children two_queued [Byte.x0a] with Ok (_, cs) => (fun c => sv_height c.1) <$> cs | _ => [] end = [5])
    by (vm_compute; reflexivity).
  destruct (dequeue_ok two_queued [Byte.x0a] W) as (q' & cs & E & _). rewrite E in Hk. destruct cs as [|c cs]; [discriminate Hk|].
  injection Hk as Hk _. exists q', (c :: cs).
  destruct (dequeued_height_not_pruned two_queued [Byte.x0a] q' (c :: cs) c [Byte.x02] (block_with [Byte.x02] [Byte.x0b] 5, 1%nat) 100 W E)
    as (q'' & a & E1 & E2); [left|vm_compute; reflexivity|exact (eq_sym Hk)|discriminate|done|].
  exists q'', a. exact (conj E (conj E1 E2)).
Defined.

(** A checkpoint verified block, its grandchild, then its child. *)
Definition events : list QueueEvent :=
  [CommitCheckpointVerifiedBlock (view 1046400 [Byte.x01]) (block_with [Byte.x02] [Byte.x01] 1046401);
   CommitSemanticallyVerifiedBlock (view 1046401 [Byte.x02]) (block_with [Byte.x04] [Byte.x03] 1046403);
   CommitSemanticallyVerifiedBlock (view 1046401 [Byte.x02]) (block_with [Byte.x03] [Byte.x02] 1046402)].
Definition start : outcome QueueService := new_service Mainnet 1046401 400 (view 1046400 [Byte.x01]).

Lemma queue_run_sends : match w ← start; queue_run w events with
  | Ok (w, receivers) => bool_decide ((sent_hash <$> messages w, (messages w).*2, receivers, finalized_sender w)
                           = ([Some [Byte.x03]; Some [Byte.x04]], [2; 1]%nat, [0; 1; 2]%nat, false))
  | _ => false
  end = true.
Proof. vm_compute. reflexivity. Qed.

Lemma queue_run_safety_witness : exists w0 w receivers, start = Ok w0 /\ queue_run w0 events = Ok (w, receivers)
  /\ NoDup (channels w) /\ receivers ⊆+ channels w.
Proof.
  destruct start as [w0| |] eqn:E; [|by destruct e|vm_compute in E; discriminate E].
  destruct (queue_run_safety Mainnet 1046401 400 (view 1046400 [Byte.x01]) events w0 E) as (w & r & Er & _ & _ & Hn & Hr).
  - repeat constructor; try done; vm_compute; done.
  - by exists w0, w, r.
Defined.
End QueueExample.
