(* ===== verification/TransactionVerifier.v ===== *)
(** The semantic verification of transactions
    ([zebra-consensus/src/transaction.rs], [transaction/check.rs] and
    [error.rs]) and the fee rules of ZIP 317
    ([zebra-chain/src/transaction/unmined.rs], [unmined/zip317.rs]).

    Proof and signature verification, script execution, note decryption and
    transaction hashing are third-party code: they are the fields of the class
    [TxPrimitives]. The answers of the state and of the mempool to the queries
    of one request are the record [TxQueries]. Checks that the code runs
    concurrently are run in sequence: all of them have to succeed, and which
    error is reported when several fail is not determined by the code. The
    [f32] fee weight ratio is left out. *)
From S2P Require Import Prelude Serialization Height Amount ValueBalance FundingStreams NetworkUpgrade Subsidy Transaction TransparentWire BlockCommitment TransparentIndex ChainIndexes Chain ContextChecks.
From stdpp Require Import strings gmap prelude.
From Stdlib Require Import ZArith Lia.
#[local] Open Scope Z_scope.

(** * Errors *)

Inductive Zip317Error : Type := UnpaidActions | FeeBelowMinimumRate.

(** [zebra_script::Error]; the errors it wraps are third-party. *)
Inductive ScriptError : Type := ScriptInvalid | TxIndex | TxCoinbase | ScriptUnknown (msg : string) | TxInvalid (msg : string).

Module TxError.
Inductive TransactionError : Type :=
| CoinbasePosition
| CoinbaseAfterFirst
| CoinbaseHasJoinSplit
| CoinbaseHasSpend
| CoinbaseHasOutputPreHeartwood
| CoinbaseHasEnableSpendsOrchard
| CoinbaseOutputsNotDecryptable
| CoinbaseInMempool
| NonCoinbaseHasCoinbaseInput
| NotCoinbase
| LockedUntilAfterBlockHeight (height : Z)
| LockedUntilAfterBlockTime (time : Z)
| CoinbaseExpiryBlockHeight (expiry_height : option Z) (block_height : Z) (transaction_hash : bytes)
| MaximumExpiryHeight (expiry_height : Z) (is_coinbase : bool) (block_height : Z) (transaction_hash : bytes)
| ExpiredTransaction (expiry_height block_height : Z) (transaction_hash : bytes)
| TxSubsidy (e : SubsidyError)
| WrongVersion
| UnsupportedByNetworkUpgrade (version : Z) (nu : NetworkUpgrade)
| NoInputs
| NoOutputs
| BadBalance
| TxScript (e : ScriptError)
| SmallOrder
| Groth16 (msg : string)
| MalformedGroth16 (msg : string)
| Ed25519
| RedJubjub
| RedPallas
| InternalDowncastError (msg : string)
| BothVPubsNonZero
| DisabledAddToSproutPool
| IncorrectFee
| DuplicateTransparentSpend (outpoint : OutPoint)
| DuplicateSproutNullifier (nullifier : bytes)
| DuplicateSaplingNullifier (nullifier : bytes)
| DuplicateOrchardNullifier (nullifier : bytes)
| NotEnoughFlags
| TransparentInputNotFound
| TxContext (e : ValidateContextError)
| ValidateMempoolLockTimeError (msg : string)
| ImmatureTransparentCoinbaseSpend (outpoint : OutPoint) (spend_height min_spend_height created_height : Z)
| UnshieldedTransparentCoinbaseSpend (outpoint : OutPoint) (min_spend_height : Z)
| Zip317 (e : Zip317Error)
| WrongConsensusBranchId
| MissingConsensusBranchId.
End TxError.
Import TxError.
Abbreviation TransactionError := TxError.TransactionError.

(** [BoxError]: the concrete errors that [From<BoxError>] looks for, and the
    debug format of any other. *)
Inductive BoxError : Type :=
| BoxRedJubjub
| BoxContext (e : ValidateContextError)
| BoxTransaction (e : TransactionError)
| BoxOther (msg : string).
Definition from_box_error (err : BoxError) : TransactionError :=
  match err with
  | BoxRedJubjub => RedJubjub
  | BoxContext e => TxContext e
  | BoxTransaction e => e
  | BoxOther msg =>
      InternalDowncastError ("downcast to known transaction error type failed, original error: " +:+ msg)
  end.

Definition mempool_misbehavior_score (e : TransactionError) : Z :=
  match e with
  | ImmatureTransparentCoinbaseSpend _ _ _ _ | UnshieldedTransparentCoinbaseSpend _ _
  | CoinbasePosition | CoinbaseAfterFirst | CoinbaseHasJoinSplit | CoinbaseHasSpend | CoinbaseHasOutputPreHeartwood
  | CoinbaseHasEnableSpendsOrchard | CoinbaseOutputsNotDecryptable | CoinbaseInMempool
  | NonCoinbaseHasCoinbaseInput | CoinbaseExpiryBlockHeight _ _ _ | IncorrectFee | TxSubsidy _ | WrongVersion
  | NoInputs | NoOutputs | BadBalance | TxScript _ | SmallOrder | Groth16 _ | MalformedGroth16 _ | Ed25519
  | RedJubjub | RedPallas | BothVPubsNonZero | DisabledAddToSproutPool
  | NotEnoughFlags | WrongConsensusBranchId | MissingConsensusBranchId => 100
  | _ => 0
  end.

(** * Fees *)

Inductive UnminedTxId : Type := Legacy (hash : bytes) | Witnessed (id auth_digest : bytes).
Definition mined_id (id : UnminedTxId) : bytes := match id with Legacy hash => hash | Witnessed id _ => id end.

Record UnminedTx := mkUnminedTx {
  unmined_transaction : Transaction;
  unmined_id_ : UnminedTxId;
  unmined_size : Z;
  unmined_conventional_fee : Z
}.
Record VerifiedUnminedTx := mkVerifiedUnminedTx {
  vu_transaction : UnminedTx;
  vu_miner_fee : Z;
  vu_sigops : Z;
  vu_conventional_actions : Z;
  vu_unpaid_actions : Z
}.

Definition MARGINAL_FEE : Z := 5000.
Definition GRACE_ACTIONS : Z := 2.
Definition P2PKH_STANDARD_INPUT_SIZE : Z := 150.
Definition P2PKH_STANDARD_OUTPUT_SIZE : Z := 34.
Definition BLOCK_UNPAID_ACTION_LIMIT : Z := 0.
Definition MIN_MEMPOOL_TX_FEE_RATE : Z := 100.
Definition MEMPOOL_TX_FEE_REQUIREMENT_CAP : Z := 1000.
Definition MEMPOOL_TRANSACTION_COST_THRESHOLD : Z := 10000.
Definition MEMPOOL_TRANSACTION_LOW_FEE_PENALTY : Z := 40000.

(** [num_integer::div_ceil] of natural numbers. *)
Definition div_ceil (a b : Z) : Z := - ((- a) / b).

(** The sums of [usize]s cannot overflow: the items are in memory. *)
Definition serialized_sizes {A} `{ZcashSerialize A} (l : list A) : outcome Z :=
  sizes ← map_res zcash_serialized_size l; Ok (sum_Z id sizes).

Definition conventional_actions (tx : Transaction) : outcome Z :=
  match tx with
  | VCrosslink _ _ _ _ _ _ _ staking_action => Ok (match staking_action with None => 0 | Some _ => 1 end)
  | _ =>
      tx_in_total_size ← serialized_sizes (inputs tx);
      tx_out_total_size ← serialized_sizes (outputs tx);
      let n_join_split := Z.of_nat (joinsplit_count tx) in
      spends ← sapling_spends_per_anchor tx;
      let n_spends_sapling := Z.of_nat (length spends) in
      let n_outputs_sapling := Z.of_nat (length (sapling_outputs tx)) in
      let n_actions_orchard := Z.of_nat (length (orchard_actions tx)) in
      let tx_in_logical_actions := div_ceil tx_in_total_size P2PKH_STANDARD_INPUT_SIZE in
      let tx_out_logical_actions := div_ceil tx_out_total_size P2PKH_STANDARD_OUTPUT_SIZE in
      let logical_actions := Z.max tx_in_logical_actions tx_out_logical_actions
        + 2 * n_join_split + Z.max n_spends_sapling n_outputs_sapling + n_actions_orchard in
      logical_actions ← unwrap (u32_checked logical_actions);
      Ok (Z.max GRACE_ACTIONS logical_actions)
  end.

Definition conventional_fee (tx : Transaction) : outcome Z :=
  actions ← conventional_actions tx;
  expect (amount_mul NonNegative MARGINAL_FEE actions).

(** [unwrap_or_default] of a conversion that fails for negative values. *)
Definition unpaid_actions (tx : UnminedTx) (miner_fee : Z) : outcome Z :=
  conventional_actions ← conventional_actions (unmined_transaction tx);
  marginal_fee_weight_ratio ← expect (amount_div NonNegative miner_fee MARGINAL_FEE);
  Ok (default 0 (u32_checked (conventional_actions - marginal_fee_weight_ratio))).

(** The multiplication is of a size that is at most a block. *)
Definition mempool_checks (unpaid_actions miner_fee transaction_size : Z) : res Zip317Error unit :=
  if BLOCK_UNPAID_ACTION_LIMIT <? unpaid_actions then Err UnpaidActions
  else
    let min_fee := Z.max MIN_MEMPOOL_TX_FEE_RATE
      (Z.min MEMPOOL_TX_FEE_REQUIREMENT_CAP (MIN_MEMPOOL_TX_FEE_RATE * transaction_size / 1000)) in
    min_fee ← expect (amount_try_from_u64 NonNegative min_fee);
    if miner_fee <? min_fee then Err FeeBelowMinimumRate else Ok tt.

Definition VerifiedUnminedTx_new (tx : UnminedTx) (miner_fee legacy_sigop_count : Z)
    : res Zip317Error VerifiedUnminedTx :=
  actions ← lift (conventional_actions (unmined_transaction tx));
  unpaid ← lift (unpaid_actions tx miner_fee);
  _ ← mempool_checks unpaid miner_fee (unmined_size tx);
  Ok (mkVerifiedUnminedTx tx miner_fee legacy_sigop_count actions unpaid).

Definition pays_conventional_fee (v : VerifiedUnminedTx) : bool :=
  unmined_conventional_fee (vu_transaction v) <=? vu_miner_fee v.
Definition cost (v : VerifiedUnminedTx) : Z := Z.max (unmined_size (vu_transaction v)) MEMPOOL_TRANSACTION_COST_THRESHOLD.
Definition eviction_weight (v : VerifiedUnminedTx) : Z :=
  cost v + (if pays_conventional_fee v then 0 else MEMPOOL_TRANSACTION_LOW_FEE_PENALTY).

(** * The world of the verifier *)

Class TxPrimitives := {
  transaction_hash : Transaction -> bytes;
  transaction_auth_digest : Transaction -> bytes;
  (** The length of the serialized transaction. *)
  transaction_size : Transaction -> Z;
  decrypts_successfully : Transaction -> Network -> Z -> bool;
  (** [Transaction::sighasher] converts the transaction with the outputs it
      spends. *)
  sighasher_ok : Transaction -> list Output -> NetworkUpgrade -> bool;
  (** [verify_callback] of the script interpreter for an input: the locking
      and unlocking scripts, the lock time and whether the input is final. *)
  verify_callback : Transaction -> list Output -> NetworkUpgrade -> nat ->
    bytes -> bytes -> LockTime -> bool -> res ScriptError unit;
  (** The conversion of a JoinSplit to a proof item, its proof, and the
      signature over the transaction. *)
  joinsplit_item : JoinSplit -> bytes -> res TransactionError unit;
  verify_joinsplit_proof : JoinSplit -> bytes -> res BoxError unit;
  verify_joinsplit_sig : JoinSplitData -> Transaction -> list Output -> NetworkUpgrade -> res BoxError unit;
  (** The batch verification of a bundle; [None] when the converted
      transaction has none. *)
  sapling_bundle_check : Transaction -> list Output -> NetworkUpgrade -> option (res BoxError unit);
  orchard_bundle_check : Transaction -> list Output -> NetworkUpgrade -> option (res BoxError unit);
  legacy_sigop_count_script : bytes -> res ScriptError Z
}.

Inductive AwaitOutputError : Type := Elapsed | AwaitOther (e : BoxError).
Record MempoolQueries := mkMempoolQueries {
  transaction_with_deps : bytes -> option (VerifiedUnminedTx * list bytes);
  await_output : OutPoint -> res AwaitOutputError Output
}.
Record TxQueries := mkTxQueries {
  await_utxo : OutPoint -> res BoxError Utxo;
  unspent_best_chain_utxo : OutPoint -> res BoxError (option Utxo);
  best_chain_next_median_time_past : res string Z;
  check_best_chain_tip_nullifiers_and_anchors : UnminedTx -> res BoxError unit;
  mempool : option MempoolQueries
}.

Inductive TxRequest : Type :=
| BlockRequest (hash : bytes) (transaction : Transaction) (known_outpoint_hashes : list bytes)
    (known_utxos : gmap OutPoint OrderedUtxo) (height time : Z)
| MempoolRequest (transaction : UnminedTx) (height : Z).

Inductive TxResponse : Type :=
| BlockResponse (tx_id : UnminedTxId) (miner_fee : option Z) (sigops : Z)
| MempoolResponse (transaction : VerifiedUnminedTx) (spent_mempool_outpoints : list OutPoint).

Definition req_transaction (req : TxRequest) : Transaction :=
  match req with BlockRequest _ tx _ _ _ _ => tx | MempoolRequest tx _ => unmined_transaction tx end.
Definition mempool_transaction (req : TxRequest) : option UnminedTx :=
  match req with BlockRequest _ _ _ _ _ _ => None | MempoolRequest tx _ => Some tx end.
Definition tx_mined_id (req : TxRequest) : bytes :=
  match req with BlockRequest hash _ _ _ _ _ => hash | MempoolRequest tx _ => mined_id (unmined_id_ tx) end.
Definition req_known_utxos (req : TxRequest) : gmap OutPoint OrderedUtxo :=
  match req with BlockRequest _ _ _ utxos _ _ => utxos | MempoolRequest _ _ => ∅ end.
Definition req_known_outpoint_hashes (req : TxRequest) : list bytes :=
  match req with BlockRequest _ _ hashes _ _ _ => hashes | MempoolRequest _ _ => [] end.
Definition req_height (req : TxRequest) : Z :=
  match req with BlockRequest _ _ _ _ height _ => height | MempoolRequest _ height => height end.
Definition req_block_time (req : TxRequest) : option Z :=
  match req with BlockRequest _ _ _ _ _ time => Some time | MempoolRequest _ _ => None end.
Definition req_is_mempool (req : TxRequest) : bool :=
  match req with BlockRequest _ _ _ _ _ _ => false | MempoolRequest _ _ => true end.
Definition req_upgrade (req : TxRequest) (network : Network) : outcome NetworkUpgrade :=
  nu_current network (req_height req).

Definition response_miner_fee (r : TxResponse) : option Z :=
  match r with BlockResponse _ fee _ => fee | MempoolResponse tx _ => Some (vu_miner_fee tx) end.
Definition response_sigops (r : TxResponse) : Z :=
  match r with BlockResponse _ _ sigops => sigops | MempoolResponse tx _ => vu_sigops tx end.

Section Verifier.
Context `{!TxPrimitives} `{BuildProfile}.

Definition unmined_id (tx : Transaction) : UnminedTxId :=
  match tx with
  | V1 _ _ _ | V2 _ _ _ _ | V3 _ _ _ _ _ | V4 _ _ _ _ _ _ => Legacy (transaction_hash tx)
  | V5 _ _ _ _ _ _ _ | VCrosslink _ _ _ _ _ _ _ _ => Witnessed (transaction_hash tx) (transaction_auth_digest tx)
  end.
Definition UnminedTx_from (tx : Transaction) : outcome UnminedTx :=
  fee ← conventional_fee tx;
  Ok (mkUnminedTx tx (unmined_id tx) (transaction_size tx) fee).

Definition req_tx_id (req : TxRequest) : UnminedTxId :=
  match req with BlockRequest _ tx _ _ _ _ => unmined_id tx | MempoolRequest tx _ => unmined_id_ tx end.

(** ** Scripts ([zebra-script/src/lib.rs], [zebra-consensus/src/script.rs]) *)

(** Indexing the inputs panics out of range. *)
Definition is_valid_script (tx : Transaction) (all_previous_outputs : list Output) (nu : NetworkUpgrade)
    (input_index : nat) : res ScriptError unit :=
  previous_output ← ok_or (all_previous_outputs !! input_index) TxIndex;
  input ← unwrap (inputs tx !! input_index);
  let is_final := input_sequence input =? u32_MAX in
  match input with
  | PrevOut _ unlock_script _ =>
      verify_callback tx all_previous_outputs nu input_index (lock_script previous_output) unlock_script
        (raw_field_lock_time tx) is_final
  | Coinbase _ _ _ => Err TxCoinbase
  end.

(** A script error is none of the errors [From<BoxError>] looks for. *)
Definition box_script_error (e : ScriptError) : BoxError :=
  BoxOther
    match e with
    | ScriptInvalid => "ScriptInvalid"
    | TxIndex => "TxIndex"
    | TxCoinbase => "TxCoinbase"
    | ScriptUnknown msg => "Unknown(" +:+ msg +:+ ")"
    | TxInvalid msg => "TxInvalid(" +:+ msg +:+ ")"
    end.
Definition script_verifier_call (tx : Transaction) (all_previous_outputs : list Output) (nu : NetworkUpgrade)
    (input_index : nat) : res BoxError unit :=
  input ← unwrap (inputs tx !! input_index);
  match input with
  | PrevOut _ _ _ => map_err box_script_error (is_valid_script tx all_previous_outputs nu input_index)
  | Coinbase _ _ _ => Err (BoxOther "unexpected coinbase input")
  end.

Definition scripts (tx : Transaction) : list bytes :=
  omap (fun i => match i with PrevOut _ unlock_script _ => Some unlock_script | Coinbase _ _ _ => None end) (inputs tx)
  ++ (lock_script <$> outputs tx).
Definition sigops (tx : Transaction) : res ScriptError Z :=
  foldM (fun acc s => n ← legacy_sigop_count_script s; arith_u 32 (acc + n)) 0 (scripts tx).

(** ** The checks of [transaction/check.rs] *)

Definition lock_time_has_passed (tx : Transaction) (block_height : Z) (block_time : option Z)
    : res TransactionError unit :=
  match lock_time tx with
  | Some (LockHeight unlock_height) =>
      if unlock_height <? block_height then Ok tt else Err (LockedUntilAfterBlockHeight unlock_height)
  | Some (LockTimestamp unlock_time) =>
      block_time ← unwrap block_time;
      if unlock_time <? block_time then Ok tt else Err (LockedUntilAfterBlockTime unlock_time)
  | None => Ok tt
  end.

Definition has_inputs_and_outputs (tx : Transaction) : res TransactionError unit :=
  match tx with
  | VCrosslink _ _ _ _ _ _ _ (Some _) => Ok tt
  | _ =>
      has_inputs ← lift (has_transparent_or_shielded_inputs tx);
      if negb has_inputs then Err NoInputs
      else if negb (has_transparent_or_shielded_outputs tx) then Err NoOutputs else Ok tt
  end.

Definition check_orchard_flags (tx : Transaction) : res TransactionError unit :=
  if negb (has_enough_orchard_flags tx) then Err NotEnoughFlags else Ok tt.

Definition coinbase_tx_no_prevout_joinsplit_spend (tx : Transaction) : res TransactionError unit :=
  if is_coinbase tx then
    if (0 <? joinsplit_count tx)%nat then Err CoinbaseHasJoinSplit
    else
      spends ← lift (sapling_spends_per_anchor tx);
      if nonempty spends then Err CoinbaseHasSpend
      else match transaction_orchard_data tx with
           | Some d => if contains_flag (flags d) ENABLE_SPENDS then Err CoinbaseHasEnableSpendsOrchard else Ok tt
           | None => Ok tt
           end
  else Ok tt.

Definition joinsplit_has_vpub_zero (tx : Transaction) : res TransactionError unit :=
  foldM (fun _ '(vpub_old, vpub_new) =>
           if negb (vpub_old =? 0) && negb (vpub_new =? 0) then Err BothVPubsNonZero else Ok tt)
    tt (zip (output_values_to_sprout tx) (input_values_from_sprout tx)).

Definition disabled_add_to_sprout_pool (tx : Transaction) (height : Z) (network : Network)
    : res TransactionError unit :=
  canopy_activation_height ← unwrap (activation_height Canopy network);
  if canopy_activation_height <=? height then
    foldM (fun _ vpub_old => if negb (vpub_old =? 0) then Err DisabledAddToSproutPool else Ok tt)
      tt (output_values_to_sprout tx)
  else Ok tt.

Definition check_for_duplicates {T} `{Countable T} (items : list T) (error_wrapper : T -> TransactionError)
    : res TransactionError unit :=
  _ ← foldM (fun (hash_set : gset T) item =>
               if bool_decide (item ∈ hash_set) then Err (error_wrapper item) else Ok ({[item]} ∪ hash_set))
        ∅ items;
  Ok tt.

Definition spend_conflicts (tx : Transaction) : res TransactionError unit :=
  _ ← check_for_duplicates (spent_outpoints tx) DuplicateTransparentSpend;
  _ ← check_for_duplicates (sprout_nullifiers tx) DuplicateSproutNullifier;
  _ ← check_for_duplicates (sapling_nullifiers tx) DuplicateSaplingNullifier;
  check_for_duplicates (orchard_nullifiers tx) DuplicateOrchardNullifier.

Definition coinbase_outputs_are_decryptable (tx : Transaction) (network : Network) (height : Z)
    : res TransactionError unit :=
  if negb (has_shielded_outputs tx) then Ok tt
  else
    heartwood ← unwrap (activation_height Heartwood network);
    if height <? heartwood then Ok tt
    else if negb (is_coinbase tx) then Err NotCoinbase
    else if negb (decrypts_successfully tx network height) then Err CoinbaseOutputsNotDecryptable
    else Ok tt.

Definition validate_expiry_height_max (expiry_height : option Z) (is_coinbase : bool) (block_height : Z)
    (tx : Transaction) : res TransactionError unit :=
  match expiry_height with
  | Some expiry_height =>
      if MAX_EXPIRY_HEIGHT <? expiry_height
      then Err (MaximumExpiryHeight expiry_height is_coinbase block_height (transaction_hash tx)) else Ok tt
  | None => Ok tt
  end.
Definition validate_expiry_height_mined (expiry_height : option Z) (block_height : Z) (tx : Transaction)
    : res TransactionError unit :=
  match expiry_height with
  | Some expiry_height =>
      if expiry_height <? block_height
      then Err (ExpiredTransaction expiry_height block_height (transaction_hash tx)) else Ok tt
  | None => Ok tt
  end.

Definition coinbase_expiry_height (block_height : Z) (coinbase : Transaction) (network : Network)
    : res TransactionError unit :=
  let expiry := expiry_height coinbase in
  let check_max := validate_expiry_height_max expiry true block_height coinbase in
  match activation_height Nu5 network with
  | Some nu5_activation_height =>
      if nu5_activation_height <=? block_height then
        if bool_decide (expiry = Some block_height) then Ok tt
        else Err (CoinbaseExpiryBlockHeight expiry block_height (transaction_hash coinbase))
      else check_max
  | None => check_max
  end.
Definition non_coinbase_expiry_height (block_height : Z) (tx : Transaction) : res TransactionError unit :=
  if is_overwintered tx then
    _ ← validate_expiry_height_max (expiry_height tx) false block_height tx;
    validate_expiry_height_mined (expiry_height tx) block_height tx
  else Ok tt.

Definition tx_transparent_coinbase_spends_maturity (network : Network) (tx : Transaction) (height : Z)
    (block_new_outputs : gmap OutPoint OrderedUtxo) (spent_utxos : gmap OutPoint Utxo) : res TransactionError unit :=
  foldM (fun _ spend =>
    utxo ← unwrap (match ordered_utxo <$> block_new_outputs !! spend with
                   | Some utxo => Some utxo | None => spent_utxos !! spend
                   end);
    map_err TxContext (transparent_coinbase_spend spend (coinbase_spend_restriction tx network height) utxo))
    tt (spent_outpoints tx).

Definition consensus_branch_id (tx : Transaction) (height : Z) (network : Network) : res TransactionError unit :=
  current_nu ← lift (nu_current network height);
  if negb (bool_decide (nu_le Nu5 current_nu)) || (version tx <? 5) then Ok tt
  else match network_upgrade tx with
       | None => Err MissingConsensusBranchId
       | Some tx_nu => if bool_decide (tx_nu = current_nu) then Ok tt else Err WrongConsensusBranchId
       end.

(** ** The verifier of [transaction.rs] *)

Definition mempool_best_chain_next_median_time_past (q : TxQueries) : res TransactionError Z :=
  map_err ValidateMempoolLockTimeError (best_chain_next_median_time_past q).

(** The loop over the missing outpoints of [find_verified_unmined_tx]. *)
Definition await_missing_outpoints (q : TxQueries) (missing_outpoints : list OutPoint) : res TransactionError unit :=
  foldM (fun _ missing_outpoint =>
           match await_utxo q missing_outpoint with
           | Ok _ => Ok tt
           | Err _ => Err TransparentInputNotFound
           | Panic => Panic
           end) tt missing_outpoints.

Definition find_verified_unmined_tx (req : TxRequest) (q : TxQueries)
    : option (res TransactionError VerifiedUnminedTx) :=
  let tx := req_transaction req in
  if req_is_mempool req || is_coinbase tx then None
  else
    mempool ← mempool q;
    '(verified_tx, dependencies) ← transaction_with_deps mempool (tx_mined_id req);
    let missing_deps := filter (fun d => d ∉ req_known_outpoint_hashes req) dependencies in
    match missing_deps with
    | [] => Some (Ok verified_tx)
    | _ =>
        let missing_outpoints := filter (fun o => outpoint_hash o ∈ missing_deps) (spent_outpoints tx) in
        Some (_ ← await_missing_outpoints q missing_outpoints; Ok verified_tx)
    end.

Record SpentUtxos := mkSpentUtxos {
  spent_utxos_ : gmap OutPoint Utxo;
  spent_outputs_ : list Output;
  spent_mempool_outpoints_ : list OutPoint
}.
Definition add_spent (s : SpentUtxos) (outpoint : OutPoint) (utxo : Utxo) : SpentUtxos :=
  mkSpentUtxos (<[outpoint := utxo]> (spent_utxos_ s)) (spent_outputs_ s ++ [utxo_output utxo])
    (spent_mempool_outpoints_ s).

(** One input of the first loop of [spent_utxos]. *)
Definition load_input (req : TxRequest) (q : TxQueries) (s : SpentUtxos) (outpoint : OutPoint)
    : res TransactionError SpentUtxos :=
  match req_known_utxos req !! outpoint with
  | Some output => Ok (add_spent s outpoint (ordered_utxo output))
  | None =>
      if req_is_mempool req then
        utxo ← map_err (fun _ => TransparentInputNotFound) (unspent_best_chain_utxo q outpoint);
        match utxo with
        | None => Ok (mkSpentUtxos (spent_utxos_ s) (spent_outputs_ s) (spent_mempool_outpoints_ s ++ [outpoint]))
        | Some utxo => Ok (add_spent s outpoint utxo)
        end
      else
        utxo ← map_err from_box_error (await_utxo q outpoint);
        Ok (add_spent s outpoint utxo)
  end.

(** One outpoint of the second loop of [spent_utxos]. *)
Definition load_mempool_output (req : TxRequest) (mempool : MempoolQueries) (s : SpentUtxos) (outpoint : OutPoint)
    : res TransactionError SpentUtxos :=
  output ← map_err (fun e => match e with Elapsed => TransparentInputNotFound | AwaitOther e => from_box_error e end)
             (await_output mempool outpoint);
  Ok (add_spent s outpoint (mkUtxo output (req_height req) false)).

Definition spent_utxos (req : TxRequest) (q : TxQueries) : res TransactionError SpentUtxos :=
  s ← foldM (load_input req q) (mkSpentUtxos ∅ [] []) (spent_outpoints (req_transaction req));
  match mempool q with
  | Some mempool => foldM (load_mempool_output req mempool) s (spent_mempool_outpoints_ s)
  | None => if nonempty (spent_mempool_outpoints_ s) then Err TransparentInputNotFound else Ok s
  end.

Definition check_maturity_height (network : Network) (req : TxRequest) (spent_utxos : gmap OutPoint Utxo)
    : res TransactionError unit :=
  tx_transparent_coinbase_spends_maturity network (req_transaction req) (req_height req) (req_known_utxos req)
    spent_utxos.

Definition verify_v4_transaction_network_upgrade (tx : Transaction) (nu : NetworkUpgrade) : res TransactionError unit :=
  match nu with
  | Sapling | Blossom | Heartwood | Canopy | Nu5 | Nu6 | Nu6_1 => Ok tt
  | Genesis | BeforeOverwinter | Overwinter | Nu7 => Err (UnsupportedByNetworkUpgrade (version tx) nu)
  end.
Definition verify_v5_transaction_network_upgrade (tx : Transaction) (nu : NetworkUpgrade) : res TransactionError unit :=
  match nu with
  | Nu5 | Nu6 | Nu6_1 | Nu7 => Ok tt
  | Genesis | BeforeOverwinter | Overwinter | Sapling | Blossom | Heartwood | Canopy =>
      Err (UnsupportedByNetworkUpgrade (version tx) nu)
  end.

(** [AsyncChecks]: a set of checks that all have to succeed. *)
Definition AsyncChecks : Type := list (res BoxError unit).
Definition run_checks (checks : AsyncChecks) : res BoxError unit := foldM (fun _ check => check) tt checks.

Definition verify_transparent_inputs_and_outputs (tx : Transaction) (spent_outputs : list Output) (nu : NetworkUpgrade)
    : AsyncChecks :=
  if is_coinbase tx then []
  else script_verifier_call tx spent_outputs nu <$> seq 0 (length (inputs tx)).

Definition verify_sprout_shielded_data (joinsplit_data : option JoinSplitData) (tx : Transaction)
    (spent_outputs : list Output) (nu : NetworkUpgrade) : res TransactionError AsyncChecks :=
  match joinsplit_data with
  | Some d =>
      checks ← foldM (fun checks joinsplit =>
                        _ ← joinsplit_item joinsplit (joinsplit_data_pub_key d);
                        Ok (checks ++ [verify_joinsplit_proof joinsplit (joinsplit_data_pub_key d)]))
                 [] (joinsplits d);
      Ok (checks ++ [verify_joinsplit_sig d tx spent_outputs nu])
  | None => Ok []
  end.

(** [verify_sapling_bundle] and [verify_orchard_bundle]. *)
Definition verify_bundle (bundle_check : option (res BoxError unit)) : AsyncChecks := option_list bundle_check.

Definition verify_v4_transaction (tx : Transaction) (nu : NetworkUpgrade) (spent_outputs : list Output)
    (joinsplit_data : option JoinSplitData) : res TransactionError AsyncChecks :=
  _ ← verify_v4_transaction_network_upgrade tx nu;
  sprout ← verify_sprout_shielded_data joinsplit_data tx spent_outputs nu;
  Ok (verify_transparent_inputs_and_outputs tx spent_outputs nu ++ sprout
      ++ verify_bundle (sapling_bundle_check tx spent_outputs nu)).
Definition verify_v5_transaction (tx : Transaction) (nu : NetworkUpgrade) (spent_outputs : list Output)
    : res TransactionError AsyncChecks :=
  _ ← verify_v5_transaction_network_upgrade tx nu;
  Ok (verify_transparent_inputs_and_outputs tx spent_outputs nu
      ++ verify_bundle (sapling_bundle_check tx spent_outputs nu)
      ++ verify_bundle (orchard_bundle_check tx spent_outputs nu)).

Definition verify_version (tx : Transaction) (nu : NetworkUpgrade) (spent_outputs : list Output)
    : res TransactionError AsyncChecks :=
  match tx with
  | V1 _ _ _ | V2 _ _ _ _ | V3 _ _ _ _ _ => Err WrongVersion
  | V4 _ _ _ _ joinsplit_data _ => verify_v4_transaction tx nu spent_outputs joinsplit_data
  | V5 _ _ _ _ _ _ _ => verify_v5_transaction tx nu spent_outputs
  | VCrosslink _ _ _ _ _ _ _ _ => verify_v5_transaction tx nu spent_outputs
  end.

(** [Verifier::call] in the order of the code: the checks that need no
    lookup, then the lock time, then everything that needs the spent outputs. *)
Definition quick_checks (network : Network) (req : TxRequest) : res TransactionError unit :=
  let tx := req_transaction req in
  _ ← has_inputs_and_outputs tx;
  _ ← check_orchard_flags tx;
  _ ← consensus_branch_id tx (req_height req) network;
  if req_is_mempool req && is_coinbase tx then Err CoinbaseInMempool
  else
    _ ← (if is_coinbase tx then coinbase_tx_no_prevout_joinsplit_spend tx
         else if negb (is_valid_non_coinbase tx) then Err NonCoinbaseHasCoinbaseInput else Ok tt);
    _ ← (if is_coinbase tx then coinbase_expiry_height (req_height req) tx network
         else non_coinbase_expiry_height (req_height req) tx);
    _ ← joinsplit_has_vpub_zero tx;
    _ ← disabled_add_to_sprout_pool tx (req_height req) network;
    spend_conflicts tx.

Definition check_lock_time (req : TxRequest) (q : TxQueries) : res TransactionError unit :=
  let tx := req_transaction req in
  match req_block_time req with
  | Some block_time => lock_time_has_passed tx (req_height req) (Some block_time)
  | None =>
      next_median_time_past ← (if lock_time_is_time tx then
                                 Some <$> mempool_best_chain_next_median_time_past q
                               else Ok None);
      lock_time_has_passed tx (req_height req) next_median_time_past
  end.

Definition miner_fee_of (tx : Transaction) (spent_utxos : gmap OutPoint Utxo) : res TransactionError (option Z) :=
  if is_coinbase tx then Ok None
  else match value_balance tx spent_utxos with
       | Ok vb =>
           match remaining_transaction_value vb with
           | Ok tx_rtv =>
               match tx with
               | VCrosslink _ _ _ _ _ _ _ _ => Some <$> lift (amount_new_from_zec (MIN_MEMPOOL_TX_FEE_RATE * 1))
               | _ => Ok (Some tx_rtv)
               end
           | Err _ => Err IncorrectFee
           | Panic => Panic
           end
       | Err _ => Err IncorrectFee
       | Panic => Panic
       end.

Definition verify_spends (network : Network) (q : TxQueries) (req : TxRequest) : res TransactionError TxResponse :=
  let tx := req_transaction req in
  spent ← spent_utxos req q;
  _ ← (if req_is_mempool req then check_maturity_height network req (spent_utxos_ spent) else Ok tt);
  nu ← lift (req_upgrade req network);
  if negb (sighasher_ok tx (spent_outputs_ spent) nu) then Err (UnsupportedByNetworkUpgrade (version tx) nu)
  else
    async_checks ← verify_version tx nu (spent_outputs_ spent);
    let async_checks := match mempool_transaction req with
                        | Some unmined_tx => async_checks ++ [check_best_chain_tip_nullifiers_and_anchors q unmined_tx]
                        | None => async_checks
                        end in
    _ ← map_err from_box_error (run_checks async_checks);
    miner_fee ← miner_fee_of tx (spent_utxos_ spent);
    sigops ← map_err TxScript (sigops tx);
    match req with
    | BlockRequest _ _ _ _ _ _ => Ok (BlockResponse (req_tx_id req) miner_fee sigops)
    | MempoolRequest tx _ =>
        fee ← unwrap miner_fee;
        transaction ← map_err Zip317 (VerifiedUnminedTx_new tx fee sigops);
        Ok (MempoolResponse transaction (spent_mempool_outpoints_ spent))
    end.

Definition verify_transaction (network : Network) (q : TxQueries) (req : TxRequest) : res TransactionError TxResponse :=
  match find_verified_unmined_tx req q with
  | Some result =>
      verified_tx ← result;
      Ok (BlockResponse (req_tx_id req) (Some (vu_miner_fee verified_tx)) (vu_sigops verified_tx))
  | None =>
      _ ← quick_checks network req;
      _ ← check_lock_time req q;
      verify_spends network q req
  end.
End Verifier.

(** * What an accepted transaction satisfies *)

Section Rules.
Context `{!TxPrimitives} `{BuildProfile}.

Definition is_staking (tx : Transaction) : bool :=
  match tx with VCrosslink _ _ _ _ _ _ _ (Some _) => true | _ => false end.
Definition is_crosslink (tx : Transaction) : bool :=
  match tx with VCrosslink _ _ _ _ _ _ _ _ => true | _ => false end.

(** The consensus rules that need nothing but the transaction, the height and
    the network. *)
Record tx_rules (network : Network) (height : Z) (in_mempool : bool) (tx : Transaction) : Prop := {
  rule_inputs_outputs : is_staking tx = true
    \/ has_transparent_or_shielded_inputs tx = Ok true /\ has_transparent_or_shielded_outputs tx = true;
  rule_orchard_flags : has_enough_orchard_flags tx = true;
  rule_branch_id : exists nu, nu_current network height = Ok nu
    /\ (nu_le Nu5 nu -> 5 <= version tx -> network_upgrade tx = Some nu);
  rule_coinbase : is_coinbase tx = true ->
    in_mempool = false /\ joinsplit_count tx = 0%nat /\ sapling_spends_per_anchor tx = Ok []
    /\ (forall d, transaction_orchard_data tx = Some d -> contains_flag (flags d) ENABLE_SPENDS = false)
    /\ match activation_height Nu5 network with
       | Some nu5 => if nu5 <=? height then expiry_height tx = Some height
                     else forall e, expiry_height tx = Some e -> e <= MAX_EXPIRY_HEIGHT
       | None => forall e, expiry_height tx = Some e -> e <= MAX_EXPIRY_HEIGHT
       end;
  rule_non_coinbase : is_coinbase tx = false ->
    is_valid_non_coinbase tx = true
    /\ (is_overwintered tx = true -> forall e, expiry_height tx = Some e -> height <= e <= MAX_EXPIRY_HEIGHT);
  rule_vpub_zero : Forall (fun '(o, n) => o = 0 \/ n = 0)
    (zip (output_values_to_sprout tx) (input_values_from_sprout tx));
  rule_sprout_closed : exists canopy, activation_height Canopy network = Some canopy
    /\ (canopy <= height -> Forall (eq 0) (output_values_to_sprout tx));
  rule_no_conflicts : NoDup (spent_outpoints tx) /\ NoDup (sprout_nullifiers tx)
    /\ NoDup (sapling_nullifiers tx) /\ NoDup (orchard_nullifiers tx)
}.

Definition lock_time_rule (tx : Transaction) (height : Z) (block_time : option Z) : Prop :=
  match lock_time tx with
  | Some (LockHeight unlock_height) => unlock_height < height
  | Some (LockTimestamp unlock_time) => exists t, block_time = Some t /\ unlock_time < t
  | None => True
  end.

Lemma check_for_duplicates_Ok {T} `{Countable T} (items : list T) wrap :
  check_for_duplicates items wrap = Ok tt <-> NoDup items.
Proof.
  unfold check_for_duplicates. transitivity (NoDup items /\ forall x, x ∈ items -> x ∉ (∅ : gset T)); [|set_solver].
  generalize (∅ : gset T). induction items as [|x items IH]; intros s; cbn [foldM mbind res_bind].
  { split; [|done]. intros _. split; [constructor|set_solver]. }
  rewrite NoDup_cons. case_bool_decide as Hx; cbn [mbind res_bind].
  - split; [done|]. intros [_ Hs]. by destruct (Hs x); [left|].
  - rewrite IH. set_solver.
Qed.

Lemma spend_conflicts_Ok tx :
  spend_conflicts tx = Ok tt <-> NoDup (spent_outpoints tx) /\ NoDup (sprout_nullifiers tx)
    /\ NoDup (sapling_nullifiers tx) /\ NoDup (orchard_nullifiers tx).
Proof.
  unfold spend_conflicts. rewrite <- !(check_for_duplicates_Ok _ DuplicateTransparentSpend),
    <- (check_for_duplicates_Ok _ DuplicateSproutNullifier), <- (check_for_duplicates_Ok _ DuplicateSaplingNullifier),
    <- (check_for_duplicates_Ok _ DuplicateOrchardNullifier).
  repeat setoid_rewrite bind_Ok_inv. split.
  - by intros ([] & ? & [] & ? & [] & ? & ?).
  - intros (? & ? & ? & ?). eauto 10.
Qed.

(** [if b then Err e else Ok tt]: the form of most checks. *)
Lemma check_Ok {E} (b : bool) (e : E) : (if b then Err e else Ok tt) = Ok tt <-> b = false.
Proof. by destruct b. Qed.
Lemma check_Ok' {E} (b : bool) (e : E) : (if b then Ok tt else Err e) = Ok tt <-> b = true.
Proof. by destruct b. Qed.
Lemma bind_unit_Ok {E A} (m : res E unit) (k : unit -> res E A) a :
  m ≫= k = Ok a <-> m = Ok tt /\ k tt = Ok a.
Proof. rewrite bind_Ok_inv. split; [intros ([] & ? & ?); done|intros [? ?]; by exists tt]. Qed.

Lemma has_inputs_and_outputs_Ok tx :
  has_inputs_and_outputs tx = Ok tt <-> is_staking tx = true
    \/ has_transparent_or_shielded_inputs tx = Ok true /\ has_transparent_or_shielded_outputs tx = true.
Proof.
  destruct (is_staking tx) eqn:Hs.
  { destruct tx as [| | | | | ? ? ? ? ? ? ? []]; try discriminate. split; [by left|done]. }
  transitivity (has_transparent_or_shielded_inputs tx = Ok true /\ has_transparent_or_shielded_outputs tx = true);
    [|naive_solver].
  assert (has_inputs_and_outputs tx =
    (has_inputs ← lift (has_transparent_or_shielded_inputs tx);
     if negb has_inputs then Err NoInputs
     else if negb (has_transparent_or_shielded_outputs tx) then Err NoOutputs else Ok tt)) as ->.
  { by destruct tx as [| | | | | ? ? ? ? ? ? ? []]. }
  rewrite bind_Ok_inv. setoid_rewrite lift_Ok. split.
  - intros ([] & Hi & Ho); [|done]. cbn in Ho. by apply check_Ok, negb_false_iff in Ho.
  - intros [Hi Ho]. exists true. split; [done|]. cbn. by rewrite Ho.
Qed.

Lemma consensus_branch_id_Ok tx height network :
  consensus_branch_id tx height network = Ok tt <-> exists nu, nu_current network height = Ok nu
    /\ (nu_le Nu5 nu -> 5 <= version tx -> network_upgrade tx = Some nu).
Proof.
  unfold consensus_branch_id. rewrite bind_Ok_inv. setoid_rewrite lift_Ok. f_equiv. intros nu. f_equiv.
  case_bool_decide as Hn; cbn [negb orb]; [|naive_solver]. destruct (Z.ltb_spec (version tx) 5).
  { split; [lia|done]. }
  destruct (network_upgrade tx) as [tx_nu|]; [|split; [done|intros Hr; by specialize (Hr Hn ltac:(lia))]].
  rewrite check_Ok', bool_decide_eq_true. split; [naive_solver|]. intros Hr. by specialize (Hr Hn ltac:(lia)) as [= ->].
Qed.

Lemma coinbase_shape_Ok tx : is_coinbase tx = true ->
  coinbase_tx_no_prevout_joinsplit_spend tx = Ok tt <->
  joinsplit_count tx = 0%nat /\ sapling_spends_per_anchor tx = Ok []
  /\ (forall d, transaction_orchard_data tx = Some d -> contains_flag (flags d) ENABLE_SPENDS = false).
Proof.
  intros Hc. unfold coinbase_tx_no_prevout_joinsplit_spend. rewrite Hc.
  destruct (joinsplit_count tx) as [|n]; cbn [Nat.ltb Nat.leb]; [|naive_solver].
  rewrite bind_Ok_inv. setoid_rewrite lift_Ok. split.
  - intros ([|s l] & Hs & Ho); [|done]. cbn [nonempty] in Ho. repeat split; [done|].
    intros d Hd. rewrite Hd in Ho. by apply check_Ok in Ho.
  - intros (_ & Hs & Ho). exists []. split; [done|]. cbn [nonempty].
    destruct (transaction_orchard_data tx); [|done]. by rewrite Ho.
Qed.

Lemma validate_expiry_height_max_Ok e c h tx :
  validate_expiry_height_max e c h tx = Ok tt <-> forall x, e = Some x -> x <= MAX_EXPIRY_HEIGHT.
Proof.
  destruct e as [e|]; cbn; [|by split]. rewrite check_Ok, Z.ltb_ge. split; [by intros ? ? [= <-]|by intros Hx; apply Hx].
Qed.
Lemma validate_expiry_height_mined_Ok e h tx :
  validate_expiry_height_mined e h tx = Ok tt <-> forall x, e = Some x -> h <= x.
Proof.
  destruct e as [e|]; cbn; [|by split]. rewrite check_Ok, Z.ltb_ge. split; [by intros ? ? [= <-]|by intros Hx; apply Hx].
Qed.

Lemma coinbase_expiry_height_Ok height tx network :
  coinbase_expiry_height height tx network = Ok tt <->
  match activation_height Nu5 network with
  | Some nu5 => if nu5 <=? height then expiry_height tx = Some height
                else forall e, expiry_height tx = Some e -> e <= MAX_EXPIRY_HEIGHT
  | None => forall e, expiry_height tx = Some e -> e <= MAX_EXPIRY_HEIGHT
  end.
Proof.
  unfold coinbase_expiry_height. destruct (activation_height Nu5 network) as [nu5|];
    [|apply validate_expiry_height_max_Ok].
  destruct (nu5 <=? height); [|apply validate_expiry_height_max_Ok]. by rewrite check_Ok', bool_decide_eq_true.
Qed.

Lemma non_coinbase_expiry_height_Ok height tx :
  non_coinbase_expiry_height height tx = Ok tt <->
  (is_overwintered tx = true -> forall e, expiry_height tx = Some e -> height <= e <= MAX_EXPIRY_HEIGHT).
Proof.
  unfold non_coinbase_expiry_height. destruct (is_overwintered tx); [|naive_solver].
  rewrite bind_unit_Ok, validate_expiry_height_max_Ok, validate_expiry_height_mined_Ok.
  split; [|intros Hr; split; intros e He; by destruct (Hr eq_refl e He)]. intros [Hm Hl] _ e He. split; eauto.
Qed.

Lemma joinsplit_has_vpub_zero_Ok tx :
  joinsplit_has_vpub_zero tx = Ok tt <->
  Forall (fun '(o, n) => o = 0 \/ n = 0) (zip (output_values_to_sprout tx) (input_values_from_sprout tx)).
Proof.
  unfold joinsplit_has_vpub_zero. induction (zip _ _) as [|[o n] l IH]; cbn [foldM]; [by split|].
  rewrite bind_unit_Ok, check_Ok, IH, Forall_cons. f_equiv. destruct (Z.eqb_spec o 0), (Z.eqb_spec n 0); naive_solver.
Qed.

Lemma disabled_add_to_sprout_pool_Ok tx height network :
  disabled_add_to_sprout_pool tx height network = Ok tt <->
  exists canopy, activation_height Canopy network = Some canopy
    /\ (canopy <= height -> Forall (eq 0) (output_values_to_sprout tx)).
Proof.
  unfold disabled_add_to_sprout_pool. rewrite bind_Ok_inv. setoid_rewrite unwrap_Ok. f_equiv. intros canopy. f_equiv.
  destruct (Z.leb_spec canopy height); [|split; [lia|done]].
  rewrite (foldM_unit_Ok (fun v => if negb (v =? 0) then Err DisabledAddToSproutPool else Ok tt)).
  transitivity (Forall (eq 0) (output_values_to_sprout tx)); [|naive_solver].
  apply Forall_proper; [|done]. intros v. rewrite check_Ok, negb_false_iff, Z.eqb_eq. split; by symmetry.
Qed.

Lemma quick_checks_Ok network req :
  quick_checks network req = Ok tt <-> tx_rules network (req_height req) (req_is_mempool req) (req_transaction req).
Proof.
  unfold quick_checks. set (tx := req_transaction req).
  rewrite !bind_unit_Ok, has_inputs_and_outputs_Ok, consensus_branch_id_Ok. unfold check_orchard_flags.
  rewrite check_Ok, negb_false_iff. destruct (is_coinbase tx) eqn:Hc; rewrite ?andb_false_r, ?andb_true_r.
  - destruct (req_is_mempool req) eqn:Hm.
    { split; [naive_solver|]. intros []. by destruct rule_coinbase0. }
    rewrite !bind_unit_Ok, coinbase_shape_Ok, coinbase_expiry_height_Ok, joinsplit_has_vpub_zero_Ok,
      disabled_add_to_sprout_pool_Ok, spend_conflicts_Ok by done.
    split; [intros (? & ? & ? & (? & ? & ?) & ? & ? & ? & ?); constructor; try done; by rewrite Hc|].
    intros []. destruct rule_coinbase0 as (_ & ? & ? & ? & ?); done.
  - rewrite !bind_unit_Ok, check_Ok, negb_false_iff, non_coinbase_expiry_height_Ok, joinsplit_has_vpub_zero_Ok,
      disabled_add_to_sprout_pool_Ok, spend_conflicts_Ok.
    split; [intros (? & ? & ? & ? & ? & ? & ? & ?); constructor; try done; by rewrite Hc|].
    intros []. destruct rule_non_coinbase0; done.
Qed.

Lemma lock_time_has_passed_Ok tx height block_time :
  lock_time_has_passed tx height block_time = Ok tt <-> lock_time_rule tx height block_time.
Proof.
  unfold lock_time_has_passed, lock_time_rule. destruct (lock_time tx) as [[h|t]|]; [| |by split].
  - by rewrite check_Ok', Z.ltb_lt.
  - rewrite bind_Ok_inv. setoid_rewrite unwrap_Ok. f_equiv. intros t'. by rewrite check_Ok', Z.ltb_lt.
Qed.
End Rules.

(** * The outputs a transaction spends *)

Section Spends.
Context `{!TxPrimitives} `{BuildProfile}.

Definition block_utxo (known : gmap OutPoint OrderedUtxo) (q : TxQueries) (o : OutPoint) : res TransactionError Utxo :=
  match known !! o with
  | Some output => Ok (ordered_utxo output)
  | None => map_err from_box_error (await_utxo q o)
  end.

(** The result of the lookups, from the outputs that were found. *)
Definition add_all (s : SpentUtxos) (found : list (OutPoint * Utxo)) : SpentUtxos :=
  foldl (fun s p => add_spent s p.1 p.2) s found.

Lemma add_all_outputs s found : spent_outputs_ (add_all s found) = spent_outputs_ s ++ (utxo_output ∘ snd <$> found).
Proof.
  revert s. induction found as [|[o u] found IH]; intros s; cbn; [by rewrite app_nil_r|].
  change (foldl _ _ found) with (add_all (add_spent s o u) found). rewrite IH. cbn. by rewrite <- app_assoc.
Qed.
Lemma add_all_mempool s found : spent_mempool_outpoints_ (add_all s found) = spent_mempool_outpoints_ s.
Proof. revert s. by induction found as [|p found IH]; intros s; [|cbn; rewrite IH]. Qed.
Lemma add_all_lookup s found o u : NoDup (fst <$> found) -> (o, u) ∈ found -> spent_utxos_ (add_all s found) !! o = Some u.
Proof.
  revert s. induction found as [|[o' u'] found IH]; intros s; [set_solver|]. cbn [fmap list_fmap fst].
  rewrite NoDup_cons, elem_of_cons. intros [Hn Hd] [[= <- <-]|Hin]; [|by apply IH]. cbn. clear IH.
  assert (spent_utxos_ (add_spent s o u) !! o = Some u) as Hl by (cbn; by simplify_map_eq). revert Hl.
  generalize (add_spent s o u). revert Hn. clear. induction found as [|[o' u'] found IH]; intros Hn s Hs; [done|].
  cbn in *. apply IH; [set_solver|]. cbn. rewrite lookup_insert_ne by set_solver. done.
Qed.

(** Blocks: the outputs are in the order of the inputs. *)
Lemma block_spent_utxos hash tx hashes known height time q s :
  spent_utxos (BlockRequest hash tx hashes known height time) q = Ok s ->
  exists found, fst <$> found = spent_outpoints tx /\ Forall (fun p => block_utxo known q p.1 = Ok p.2) found
    /\ s = add_all (mkSpentUtxos ∅ [] []) found.
Proof.
  unfold spent_utxos. cbn [req_transaction]. intros (s1 & H1 & H2)%bind_Ok_inv.
  assert (forall l s0, foldM (load_input (BlockRequest hash tx hashes known height time) q) s0 l = Ok s1 ->
    exists found, fst <$> found = l /\ Forall (fun p => block_utxo known q p.1 = Ok p.2) found /\ s1 = add_all s0 found)
    as Hl.
  { induction l as [|o l IH]; intros s0; cbn [foldM]; [intros [= ->]; by exists []|].
    intros (s2 & Ho & (found & <- & Hf & ->)%IH)%bind_Ok_inv.
    assert (exists u, block_utxo known q o = Ok u /\ s2 = add_spent s0 o u) as (u & Hu & ->).
    { unfold load_input, block_utxo in *. cbn [req_known_utxos req_is_mempool] in Ho.
      destruct (known !! o) as [output|]; [injection Ho as <-; eauto|].
      apply bind_Ok_inv in Ho as (u & Hu & [= <-]). eauto. }
    exists ((o, u) :: found). split; [done|]. by split; [constructor|]. }
  apply Hl in H1 as (found & Hl1 & Hf & ->). exists found. split; [done|]. split; [done|]. clear Hl Hf.
  rewrite add_all_mempool in H2. cbn in H2. destruct (mempool q); by injection H2 as <-.
Qed.

Definition chain_misses (q : TxQueries) (o : OutPoint) : bool :=
  match unspent_best_chain_utxo q o with Ok None => true | _ => false end.

(** The first loop over the inputs of a mempool transaction. *)
Lemma mempool_load_inputs unmined height q l s0 s :
  foldM (load_input (MempoolRequest unmined height) q) s0 l = Ok s ->
  exists found, Forall (fun p => unspent_best_chain_utxo q p.1 = Ok (Some p.2)) found
    /\ fst <$> found = filter (fun o => chain_misses q o = false) l
    /\ spent_outputs_ s = spent_outputs_ s0 ++ (utxo_output ∘ snd <$> found)
    /\ spent_mempool_outpoints_ s = spent_mempool_outpoints_ s0 ++ filter (fun o => chain_misses q o = true) l.
Proof.
  revert s0. induction l as [|o l IH]; intros s0; cbn [foldM].
  { intros [= ->]. exists []. by rewrite !app_nil_r. }
  intros (s1 & Ho & (found & Hf & Hfst & Hs & Hm)%IH)%bind_Ok_inv. unfold load_input in Ho.
  cbn [req_known_utxos req_is_mempool] in Ho. rewrite lookup_empty in Ho.
  apply bind_Ok_inv in Ho as ([u|] & Hu%map_err_Ok & [= <-]).
  - assert (chain_misses q o = false) as Hc by (unfold chain_misses; by rewrite Hu).
    exists ((o, u) :: found). rewrite filter_cons_True, filter_cons_False by congruence. cbn in *.
    rewrite Hs, Hm, Hfst, <- app_assoc. by split; [constructor|].
  - assert (chain_misses q o = true) as Hc by (unfold chain_misses; by rewrite Hu).
    exists found. rewrite filter_cons_False, filter_cons_True by congruence. cbn in *.
    rewrite Hs, Hm, <- app_assoc. done.
Qed.

Lemma load_mempool_outputs req m l s0 s :
  foldM (load_mempool_output req m) s0 l = Ok s ->
  exists outs, Forall2 (fun o out => await_output m o = Ok out) l outs
    /\ spent_outputs_ s = spent_outputs_ s0 ++ outs /\ spent_mempool_outpoints_ s = spent_mempool_outpoints_ s0.
Proof.
  revert s0. induction l as [|o l IH]; intros s0; cbn [foldM].
  { intros [= ->]. exists []. by rewrite app_nil_r. }
  intros (s1 & Ho & (outs & Hf & Hs & Hm)%IH)%bind_Ok_inv.
  apply bind_Ok_inv in Ho as (out & Hout%map_err_Ok & [= <-]). exists (out :: outs). cbn in *.
  rewrite Hs, Hm, <- app_assoc. by split; [constructor|].
Qed.
End Spends.

(** * The verifier *)

Lemma foldl_snoc_fmap {A B} (f : A -> B) acc l : foldl (fun acc a => acc ++ [f a]) acc l = acc ++ (f <$> l).
Proof. revert acc. induction l as [|a l IH]; intros acc; cbn; [by rewrite app_nil_r|]. by rewrite IH, <- app_assoc. Qed.

Section Verified.
Context `{!TxPrimitives} `{BuildProfile}.

Lemma valid_inputs_outpoints tx i : is_valid_non_coinbase tx = true ->
  spent_outpoints tx !! i = inputs tx !! i ≫= input_outpoint.
Proof.
  unfold is_valid_non_coinbase, spent_outpoints. revert i. induction (inputs tx) as [|[o sc sq|] l IH]; intros i Hv;
    [by destruct i| |done]. destruct i; [done|]. cbn. by apply IH.
Qed.

Lemma run_checks_Ok checks : run_checks checks = Ok tt <-> Forall (fun c => c = Ok tt) checks.
Proof. apply (foldM_unit_Ok (fun c : res BoxError unit => c)). Qed.

(** The versions an upgrade supports. *)
Definition version_supported (nu : NetworkUpgrade) (tx : Transaction) : Prop :=
  match tx with
  | V1 _ _ _ | V2 _ _ _ _ | V3 _ _ _ _ _ => False
  | V4 _ _ _ _ _ _ => nu_le Sapling nu /\ nu <> Nu7
  | V5 _ _ _ _ _ _ _ | VCrosslink _ _ _ _ _ _ _ _ => nu_le Nu5 nu
  end.

(** The proofs and signatures that a version is verified with. *)
Definition proofs_valid (nu : NetworkUpgrade) (tx : Transaction) (outs : list Output) : Prop :=
  sapling_bundle_check tx outs nu ∈ [None; Some (Ok tt)]
  /\ (5 <= version tx -> orchard_bundle_check tx outs nu ∈ [None; Some (Ok tt)])
  /\ (forall d, transaction_joinsplit_data tx = Some d ->
      Forall (fun j => verify_joinsplit_proof j (joinsplit_data_pub_key d) = Ok tt) (joinsplits d)
      /\ verify_joinsplit_sig d tx outs nu = Ok tt).
Definition scripts_valid (nu : NetworkUpgrade) (tx : Transaction) (outs : list Output) : Prop :=
  Forall (fun i => script_verifier_call tx outs nu i = Ok tt) (seq 0 (length (inputs tx))).

Lemma verify_bundle_Ok c : Forall (fun c => c = Ok tt) (verify_bundle c) <-> c ∈ [None; Some (Ok tt)].
Proof. destruct c as [c|]; cbn; [rewrite Forall_singleton|]; set_solver. Qed.

Lemma sprout_checks_Ok d tx outs nu checks :
  verify_sprout_shielded_data d tx outs nu = Ok checks ->
  Forall (fun c => c = Ok tt) checks -> forall x, d = Some x ->
  Forall (fun j => verify_joinsplit_proof j (joinsplit_data_pub_key x) = Ok tt) (joinsplits x)
  /\ verify_joinsplit_sig x tx outs nu = Ok tt.
Proof.
  intros Hd Hc x ->. cbn [verify_sprout_shielded_data] in Hd. apply bind_Ok_inv in Hd as (cs & Hcs & [= <-]).
  rewrite Forall_app, Forall_singleton in Hc. destruct Hc as [Hp Hs]. split; [|done].
  assert (cs = (fun j => verify_joinsplit_proof j (joinsplit_data_pub_key x)) <$> joinsplits x) as ->.
  { apply (foldM_proj _ id (fun acc j => acc ++ [verify_joinsplit_proof j (joinsplit_data_pub_key x)])) in Hcs.
    - unfold id in Hcs. by rewrite Hcs, foldl_snoc_fmap.
    - intros s j s' _ ([] & _ & [= <-])%bind_Ok_inv. done. }
  by rewrite Forall_fmap in Hp.
Qed.

Lemma verify_version_Ok tx nu outs checks :
  verify_version tx nu outs = Ok checks -> Forall (fun c => c = Ok tt) checks ->
  version_supported nu tx /\ proofs_valid nu tx outs /\ (is_coinbase tx = false -> scripts_valid nu tx outs).
Proof.
  assert (Forall (fun c => c = Ok tt) (verify_transparent_inputs_and_outputs tx outs nu) ->
    is_coinbase tx = false -> scripts_valid nu tx outs) as Hscripts.
  { unfold verify_transparent_inputs_and_outputs, scripts_valid. intros Hf Hc. rewrite Hc, Forall_fmap in Hf. done. }
  destruct tx as [| | |ins os lt eh jd sd|pnu lt eh ins os sd od|pnu lt eh ins os sd od sa]; cbn [verify_version]; try done.
  - unfold verify_v4_transaction. intros ([] & Hnu & (sprout & Hsp & [= <-])%bind_Ok_inv)%bind_Ok_inv.
    rewrite !Forall_app, verify_bundle_Ok. intros (Ht & Hs & Hb). split.
    { cbn. destruct nu; try done; (split; [unfold nu_le; cbn; lia|done]). }
    split; [|by apply Hscripts]. split; [done|]. split; [cbn; lia|]. by apply (sprout_checks_Ok _ _ _ _ _ Hsp Hs).
  - unfold verify_v5_transaction. intros ([] & Hnu & [= <-])%bind_Ok_inv. rewrite !Forall_app, !verify_bundle_Ok.
    intros (Ht & Hs & Ho). split; [cbn; destruct nu; try done; unfold nu_le; cbn; lia|].
    split; [|by apply Hscripts]. by split.
  - unfold verify_v5_transaction. intros ([] & Hnu & [= <-])%bind_Ok_inv. rewrite !Forall_app, !verify_bundle_Ok.
    intros (Ht & Hs & Ho). split; [cbn; destruct nu; try done; unfold nu_le; cbn; lia|].
    split; [|by apply Hscripts]. by split.
Qed.

(** The fee that the verifier reports for a transaction with a remaining
    value. *)
Definition reported_fee (tx : Transaction) (remaining : Z) : Z := if is_crosslink tx then 100 * COIN else remaining.

Lemma miner_fee_of_Ok tx utxos fee : miner_fee_of tx utxos = Ok fee ->
  if is_coinbase tx then fee = None
  else exists vb rtv, value_balance tx utxos = Ok vb /\ remaining_transaction_value vb = Ok rtv
    /\ fee = Some (reported_fee tx rtv).
Proof.
  unfold miner_fee_of, reported_fee. destruct (is_coinbase tx); [by intros [= <-]|].
  destruct (value_balance tx utxos) as [vb| |]; try done.
  destruct (remaining_transaction_value vb) as [rtv| |] eqn:Hr; try done. intros Hf. exists vb, rtv.
  repeat split; [done|]. destruct tx; cbn in *; by injection Hf as <-.
Qed.

Lemma block_verify_spends network q hash tx hashes known height time rsp :
  verify_spends network q (BlockRequest hash tx hashes known height time) = Ok rsp ->
  exists s nu fee n, spent_utxos (BlockRequest hash tx hashes known height time) q = Ok s
    /\ nu_current network height = Ok nu
    /\ version_supported nu tx /\ proofs_valid nu tx (spent_outputs_ s)
    /\ (is_coinbase tx = false -> scripts_valid nu tx (spent_outputs_ s))
    /\ miner_fee_of tx (spent_utxos_ s) = Ok fee /\ sigops tx = Ok n /\ rsp = BlockResponse (unmined_id tx) fee n.
Proof.
  unfold verify_spends. cbn [req_transaction req_is_mempool mempool_transaction].
  intros (s & Hs & ([] & _ & (nu & Hnu%lift_Ok & Hv)%bind_Ok_inv)%bind_Ok_inv)%bind_Ok_inv.
  destruct (negb (sighasher_ok _ _ _)); [done|]. apply bind_Ok_inv in Hv as (checks & Hc & Hv).
  apply bind_unit_Ok in Hv as [Hr%map_err_Ok Hv]. apply bind_Ok_inv in Hv as (fee & Hfee & Hv).
  apply bind_Ok_inv in Hv as (n & Hn%map_err_Ok & [= <-]).
  destruct (verify_version_Ok _ _ _ _ Hc) as (? & ? & ?); [by apply run_checks_Ok|]. exists s, nu, fee, n. done.
Qed.

(** C12. A transaction of a block that the verifier accepts, and that it did
    not find in the mempool, keeps the rules: those of [tx_rules], its lock
    time has passed, its version is supported by the network upgrade, its
    shielded proofs and signatures are valid, and the unlocking script of
    every input of a transaction that is not a coinbase was run against the
    output which that input spends. The fee it reports is the remaining value
    of the transaction, except for a Crosslink transaction, for which it is
    always 100 ZEC. *)
Theorem verified_transaction_rules network q hash tx hashes known height time rsp :
  let req := BlockRequest hash tx hashes known height time in
  find_verified_unmined_tx req q = None ->
  verify_transaction network q req = Ok rsp ->
  tx_rules network height false tx /\ lock_time_rule tx height (Some time)
  /\ exists s nu, spent_utxos req q = Ok s /\ nu_current network height = Ok nu
     /\ version_supported nu tx /\ proofs_valid nu tx (spent_outputs_ s)
     /\ (if is_coinbase tx then response_miner_fee rsp = None
         else (forall i o script sequence, inputs tx !! i = Some (PrevOut o script sequence) ->
                exists u, block_utxo known q o = Ok u /\ spent_utxos_ s !! o = Some u
                  /\ verify_callback tx (spent_outputs_ s) nu i (lock_script (utxo_output u)) script
                       (raw_field_lock_time tx) (sequence =? u32_MAX) = Ok tt)
           /\ exists vb rtv, value_balance tx (spent_utxos_ s) = Ok vb /\ remaining_transaction_value vb = Ok rtv
                /\ response_miner_fee rsp = Some (if is_crosslink tx then 100 * COIN else rtv)).
Proof.
  cbn zeta. unfold verify_transaction. intros ->. rewrite !bind_unit_Ok, quick_checks_Ok.
  unfold check_lock_time. cbn [req_block_time]. rewrite lock_time_has_passed_Ok.
  intros (Hrules & Hlock & (s & nu & fee & n & Hs & Hnu & Hver & Hpr & Hsc & Hfee%miner_fee_of_Ok & _ & ->)%block_verify_spends).
  split; [done|]. split; [done|]. exists s, nu. do 4 (split; [done|]). cbn [response_miner_fee].
  destruct (is_coinbase tx) eqn:Hc; [done|]. split; [|done]. intros i o script sequence Hi.
  destruct Hrules as [_ _ _ _ [Hval _] _ _ (Hnd & _)]; [done|].
  apply block_spent_utxos in Hs as (found & Hfst & Hf & ->).
  assert (exists u, found !! i = Some (o, u)) as (u & Hu).
  { assert (spent_outpoints tx !! i = Some o) as Ho by (rewrite valid_inputs_outpoints; [by rewrite Hi|done]).
    rewrite <- Hfst, list_lookup_fmap in Ho. destruct (found !! i) as [[o' u]|]; [|done].
    injection Ho as <-. by exists u. }
  exists u. split; [by apply (Forall_lookup_1 _ _ _ _ Hf Hu)|]. split.
  { apply add_all_lookup; [by rewrite Hfst|]. by eapply list_elem_of_lookup_2. }
  specialize (Hsc eq_refl). unfold scripts_valid in Hsc. rewrite Forall_forall in Hsc.
  specialize (Hsc i). unfold script_verifier_call, is_valid_script in Hsc. rewrite Hi in Hsc. cbn in Hsc.
  rewrite map_err_Ok, bind_Ok_inv in Hsc. destruct Hsc as (out & Hout%ok_or_Ok & Hv).
  { apply elem_of_seq. apply lookup_lt_Some in Hi. lia. }
  rewrite add_all_outputs in Hout. cbn in Hout. rewrite list_lookup_fmap, Hu in Hout. injection Hout as <-. done.
Qed.

(** C19. A transaction of a block that is found in the mempool by the id it
    has when mined is accepted with the fee and the signature operations
    stored there, when its dependencies are among the transactions of the
    block: no rule is checked for the transaction that is in the block. The
    id does not cover signatures, proofs and unlocking scripts, so those of
    the block need not be the ones the mempool verified, nor does its height
    or time. *)
Theorem mempool_lookup_skips_checks network q m hash tx hashes known height time v deps :
  is_coinbase tx = false -> mempool q = Some m -> transaction_with_deps m hash = Some (v, deps) ->
  Forall (fun d => d ∈ hashes) deps ->
  verify_transaction network q (BlockRequest hash tx hashes known height time)
  = Ok (BlockResponse (unmined_id tx) (Some (vu_miner_fee v)) (vu_sigops v)).
Proof.
  intros Hc Hm Ht Hd. unfold verify_transaction, find_verified_unmined_tx.
  cbn [req_is_mempool req_transaction tx_mined_id req_known_outpoint_hashes]. rewrite Hc, Hm. cbn. rewrite Ht. cbn.
  replace (filter _ deps) with (@nil bytes); [done|]. symmetry. apply elem_of_nil_inv. intros d.
  rewrite list_elem_of_filter. intros [Hn Hin]. rewrite Forall_forall in Hd. auto.
Qed.

(** The outputs that the scripts of a mempool transaction are verified
    with are those found in the best chain, in the order of the inputs, and
    after them those created by other mempool transactions: not in the order
    of the inputs when an input spends from the mempool and a later one from
    the chain. *)
Theorem mempool_spent_outputs_order unmined height q m s :
  mempool q = Some m ->
  spent_utxos (MempoolRequest unmined height) q = Ok s ->
  let spends := spent_outpoints (unmined_transaction unmined) in
  exists found outs,
    fst <$> found = filter (fun o => chain_misses q o = false) spends
    /\ Forall (fun p => unspent_best_chain_utxo q p.1 = Ok (Some p.2)) found
    /\ Forall2 (fun o out => await_output m o = Ok out) (filter (fun o => chain_misses q o = true) spends) outs
    /\ spent_outputs_ s = (utxo_output ∘ snd <$> found) ++ outs.
Proof.
  cbn zeta. unfold spent_utxos. cbn [req_transaction]. intros ->.
  intros (s1 & (found & Hf & Hfst & Hs & Hm)%mempool_load_inputs & (outs & Ho & Hs' & _)%load_mempool_outputs)%bind_Ok_inv.
  cbn in Hs, Hm. exists found, outs. rewrite Hm in Ho. by rewrite Hs', Hs.
Qed.

(** ** Fees of mempool transactions *)

Lemma conventional_actions_min tx n : conventional_actions tx = Ok n -> is_crosslink tx = false -> GRACE_ACTIONS <= n.
Proof.
  destruct tx; try done; cbn [conventional_actions];
    intros (? & _ & (? & _ & (? & _ & (? & _ & Hn)%bind_Ok_inv)%bind_Ok_inv)%bind_Ok_inv)%bind_Ok_inv _;
    apply Ok_inj in Hn as <-; lia.
Qed.

Lemma amount_try_from_wide C v : amount_in C v ->
  amount_try_from_i128 C v = Ok v /\ amount_try_from_u64 C v = Ok v.
Proof.
  intros Hv. pose proof (amount_in_bound _ _ Hv). unfold amount_try_from_i128, amount_try_from_u64.
  rewrite checked_in by amount_lia. cbn [ok_or mbind res_bind]. split; by apply amount_try_from_in.
Qed.

Lemma amount_div_marginal fee : amount_in NonNegative fee ->
  amount_div NonNegative fee MARGINAL_FEE = Ok (fee / MARGINAL_FEE) /\ 0 <= fee / MARGINAL_FEE.
Proof.
  intros Hf. assert (amount_in NonNegative (fee / MARGINAL_FEE)) as Hq.
  { pose proof (Z.div_mod fee MARGINAL_FEE ltac:(done)). pose proof (Z.mod_pos_bound fee MARGINAL_FEE ltac:(done)).
    unfold MARGINAL_FEE in *. amount_lia. }
  split; [|apply Hq]. unfold amount_div. cbn [MARGINAL_FEE Z.eqb ok_or mbind res_bind].
  rewrite Z.quot_div_nonneg by (try done; apply Hf). by rewrite (proj1 (amount_try_from_wide _ _ Hq)).
Qed.

Lemma conventional_actions_max tx n : conventional_actions tx = Ok n -> n <= u32_MAX.
Proof.
  destruct tx as [| | | | |? ? ? ? ? ? ? []]; cbn [conventional_actions];
    try (intros Hn; apply Ok_inj in Hn as <-; width_lia);
    intros (? & _ & (? & _ & (? & _ & (? & Hu & Hn)%bind_Ok_inv)%bind_Ok_inv)%bind_Ok_inv)%bind_Ok_inv;
    apply Ok_inj in Hn as <-; apply unwrap_Ok, checked_Some in Hu as [-> Hu]; unfold GRACE_ACTIONS in *; width_lia.
Qed.

(** The fee that [mempool_checks] asks for. *)
Lemma mempool_checks_spec unpaid fee size : 0 <= unpaid -> 
  mempool_checks unpaid fee size =
    if 0 <? unpaid then Err UnpaidActions
    else if fee <? Z.max 100 (Z.min 1000 (100 * size / 1000)) then Err FeeBelowMinimumRate else Ok tt.
Proof.
  intros Hu. unfold mempool_checks, BLOCK_UNPAID_ACTION_LIMIT. destruct (0 <? unpaid); [done|].
  cbn zeta. edestruct (amount_try_from_wide NonNegative) as [_ ->]; [|done].
  unfold MIN_MEMPOOL_TX_FEE_RATE, MEMPOOL_TX_FEE_REQUIREMENT_CAP. amount_lia.
Qed.

(** A transaction other than a Crosslink transaction enters the mempool
    exactly when it pays the conventional fee: no other error is possible, so
    the legacy fee rate check never fails and no verified transaction carries
    the low fee penalty. *)
Theorem mempool_fee_exact tx unmined fee sigops :
  UnminedTx_from tx = Ok unmined -> is_crosslink tx = false -> amount_in NonNegative fee ->
  match VerifiedUnminedTx_new unmined fee sigops with
  | Ok v => unmined_conventional_fee unmined <= fee /\ vu_unpaid_actions v = 0
            /\ pays_conventional_fee v = true /\ eviction_weight v = cost v
  | Err e => e = UnpaidActions /\ fee < unmined_conventional_fee unmined
  | Panic => False
  end.
Proof.
  unfold UnminedTx_from, conventional_fee. intros (cf & (n & Hn & Hcf)%bind_Ok_inv & Hu)%bind_Ok_inv Hx Hfee.
  apply Ok_inj in Hu as <-. unfold VerifiedUnminedTx_new, unpaid_actions. cbn [unmined_transaction]. rewrite Hn.
  cbn [lift mbind res_bind]. destruct (amount_div_marginal fee Hfee) as [-> Hq]. cbn [expect mbind res_bind lift].
  pose proof (conventional_actions_min _ _ Hn Hx) as Hmin. pose proof (conventional_actions_max _ _ Hn) as Hmax.
  assert (cf = MARGINAL_FEE * n) as ->.
  { apply (proj1 (expect_Ok _ _)) in Hcf. unfold amount_mul in Hcf. apply bind_Ok_inv in Hcf as (x & Hx' & Hc).
    apply unwrap_Ok, checked_Some in Hx' as [-> _]. apply map_err_Ok in Hc. unfold amount_try_from_i128 in Hc.
    apply bind_Ok_inv in Hc as (y & Hy%ok_or_Ok%checked_Some & Hc%amount_try_from_Ok). destruct Hy, Hc. congruence. }
  unfold GRACE_ACTIONS, MARGINAL_FEE in *.
  pose proof (Z.div_mod fee 5000 ltac:(done)). pose proof (Z.mod_pos_bound fee 5000 ltac:(done)).
  assert (default 0 (u32_checked (n - fee / 5000)) = Z.max 0 (n - fee / 5000)) as ->.
  { destruct (u32_checked (n - fee / 5000)) as [d|] eqn:Hd; cbn.
    - apply checked_Some in Hd as [-> ?]. lia.
    - apply checked_None in Hd. unfold u32_MAX in *. lia. }
  rewrite mempool_checks_spec by lia. destruct (Z.ltb_spec 0 (Z.max 0 (n - fee / 5000))).
  { cbn. split; [done|]. lia. }
  destruct (Z.ltb_spec fee (Z.max 100 (Z.min 1000 (100 * unmined_size (mkUnminedTx tx (unmined_id tx)
    (transaction_size tx) (5000 * n)) / 1000)))); [lia|].
  unfold eviction_weight, pays_conventional_fee. cbn. rewrite (proj2 (Z.leb_le _ _)) by lia.
  repeat split; lia.
Qed.
End Verified.

(** * Examples

    In the examples a script is unlocked by the same bytes, and the id of a
    transaction depends on what it spends and not on how. *)
Module TxExample.
#[local] Instance example_profile : BuildProfile := release_build.
#[local] Instance example_primitives : TxPrimitives := {
  transaction_hash := fun tx => mbind outpoint_hash (spent_outpoints tx);
  transaction_auth_digest := fun tx => mbind id (scripts tx);
  transaction_size := fun _ => 300;
  decrypts_successfully := fun _ _ _ => true;
  sighasher_ok := fun _ _ _ => true;
  verify_callback := fun _ _ _ _ lock unlock _ _ => if bool_decide (lock = unlock) then Ok tt else Err ScriptInvalid;
  joinsplit_item := fun _ _ => Ok tt;
  verify_joinsplit_proof := fun _ _ => Ok tt;
  verify_joinsplit_sig := fun _ _ _ _ => Ok tt;
  sapling_bundle_check := fun _ _ _ => None;
  orchard_bundle_check := fun _ _ _ => None;
  legacy_sigop_count_script := fun _ => Ok 1
}.

Definition chain_outpoint : OutPoint := mkOutPoint [Byte.x11] 0.
Definition mempool_outpoint : OutPoint := mkOutPoint [Byte.x22] 0.
Definition chain_utxo : Utxo := mkUtxo (mkOutput 100000 [Byte.x01]) 10 false.
Definition spend_chain (unlock : Byte.byte) : Input := PrevOut chain_outpoint [unlock] u32_MAX.
Definition spend_mempool : Input := PrevOut mempool_outpoint [Byte.x02] u32_MAX.
Definition spending (l : list Input) : Transaction :=
  V5 Nu6 (LockHeight 0) 0 l [mkOutput 50000 [Byte.x03]] None None.
Definition height : Z := 3000000.

(** The answers without a mempool, and with a mempool that holds the
    transactions [l] and the output of another one. *)
Definition no_mempool : TxQueries :=
  mkTxQueries (fun o => if bool_decide (o = chain_outpoint) then Ok chain_utxo else Err (BoxOther "timeout"))
    (fun o => Ok (if bool_decide (o = chain_outpoint) then Some chain_utxo else None)) (Ok 1000) (fun _ => Ok tt) None.
Definition with_mempool (l : list VerifiedUnminedTx) : TxQueries :=
  mkTxQueries (await_utxo no_mempool) (unspent_best_chain_utxo no_mempool) (Ok 1000) (fun _ => Ok tt)
    (Some (mkMempoolQueries
      (fun h => (fun v => (v, [])) <$> head (filter (fun v => mined_id (unmined_id_ (vu_transaction v)) = h) l))
      (fun o => if bool_decide (o = mempool_outpoint) then Ok (mkOutput 70000 [Byte.x02]) else Err Elapsed))).

Definition signed_tx : Transaction := spending [spend_chain Byte.x01].
Definition unsigned_tx : Transaction := spending [spend_chain Byte.xff].
Definition unmined (tx : Transaction) : UnminedTx := mkUnminedTx tx (unmined_id tx) 300 10000.
Definition block_request (tx : Transaction) : TxRequest := BlockRequest (transaction_hash tx) tx [] ∅ height 2000.

Lemma verified_transaction_rules_witness :
  verify_transaction Mainnet no_mempool (block_request signed_tx) = Ok (BlockResponse (unmined_id signed_tx) (Some 50000) 2)
  /\ tx_rules Mainnet height false signed_tx.
Proof.
  assert (verify_transaction Mainnet no_mempool (block_request signed_tx)
    = Ok (BlockResponse (unmined_id signed_tx) (Some 50000) 2)) as Hv by (vm_compute; reflexivity).
  split; [exact Hv|].
  exact (proj1 (verified_transaction_rules Mainnet no_mempool _ signed_tx [] ∅ height 2000 _ eq_refl Hv)).
Defined.

(** The mempool verifies the signed transaction; after that the same
    transaction without a valid unlocking script is accepted in a block. *)
Lemma mempool_lookup_skips_checks_witness :
  let v := mkVerifiedUnminedTx (unmined signed_tx) 50000 2 2 0 in
  verify_transaction Mainnet no_mempool (MempoolRequest (unmined signed_tx) height) = Ok (MempoolResponse v [])
  /\ verify_transaction Mainnet no_mempool (block_request unsigned_tx)
     = Err (from_box_error (BoxOther "ScriptInvalid"))
  /\ verify_transaction Mainnet (with_mempool [v]) (block_request unsigned_tx)
     = Ok (BlockResponse (unmined_id unsigned_tx) (Some 50000) 2).
Proof.
  intros v. split; [vm_compute; reflexivity|]. split; [vm_compute; reflexivity|].
  apply (mempool_lookup_skips_checks Mainnet (with_mempool [v])
    (mkMempoolQueries (fun h => (fun v => (v, [])) <$> head (filter (fun v => mined_id (unmined_id_ (vu_transaction v)) = h) [v]))
      (fun o => if bool_decide (o = mempool_outpoint) then Ok (mkOutput 70000 [Byte.x02]) else Err Elapsed))
    _ unsigned_tx [] ∅ height 2000 v []); [reflexivity|reflexivity|vm_compute; reflexivity|constructor].
Defined.

(** The same spends are accepted or rejected depending on the order of the
    inputs. *)
Lemma mempool_spent_outputs_order_witness :
  let chain_first := unmined (spending [spend_chain Byte.x01; spend_mempool]) in
  let mempool_first := unmined (spending [spend_mempool; spend_chain Byte.x01]) in
  (exists v, verify_transaction Mainnet (with_mempool []) (MempoolRequest chain_first height)
             = Ok (MempoolResponse v [mempool_outpoint]))
  /\ verify_transaction Mainnet (with_mempool []) (MempoolRequest mempool_first height)
     = Err (from_box_error (BoxOther "ScriptInvalid"))
  /\ exists s, spent_utxos (MempoolRequest mempool_first height) (with_mempool []) = Ok s
     /\ spent_outputs_ s = [utxo_output chain_utxo] ++ [mkOutput 70000 [Byte.x02]].
Proof.
  intros chain_first mempool_first. split; [eexists; vm_compute; reflexivity|]. split; [vm_compute; reflexivity|].
  pose (s := add_spent (add_spent (mkSpentUtxos ∅ [] [mempool_outpoint]) chain_outpoint chain_utxo) mempool_outpoint
    (mkUtxo (mkOutput 70000 [Byte.x02]) height false)).
  assert (spent_utxos (MempoolRequest mempool_first height) (with_mempool []) = Ok s) as Hs by (vm_compute; reflexivity).
  exists s. split; [exact Hs|].
  destruct (mempool_spent_outputs_order mempool_first height (with_mempool []) _ s eq_refl Hs)
    as (found & outs & Hfst & Hf & Ho & ->).
  assert (fst <$> found = [chain_outpoint]) as Hc by (rewrite Hfst; vm_compute; reflexivity). clear Hfst Hs.
  assert (filter (fun o => chain_misses (with_mempool []) o = true) (spent_outpoints (unmined_transaction mempool_first))
    = [mempool_outpoint]) as Hm by (vm_compute; reflexivity). rewrite Hm in Ho. clear Hm.
  destruct found as [|[o u] [|]]; try discriminate Hc. injection Hc as ->.
  rewrite Forall_singleton in Hf. vm_compute in Hf. injection Hf as <-.
  apply Forall2_cons_inv_l in Ho as (out & outs' & Ho & ->%Forall2_nil_inv_l & ->). vm_compute in Ho. injection Ho as <-.
  reflexivity.
Defined.

Lemma mempool_fee_exact_witness :
  VerifiedUnminedTx_new (unmined signed_tx) 9999 2 = Err UnpaidActions
  /\ unmined_conventional_fee (unmined signed_tx) = 10000
  /\ match VerifiedUnminedTx_new (unmined signed_tx) 10000 2 with
     | Ok v => pays_conventional_fee v = true | _ => False end.
Proof.
  split; [vm_compute; reflexivity|]. split; [reflexivity|].
  pose proof (mempool_fee_exact signed_tx (unmined signed_tx) 10000 2) as Hf.
  destruct (VerifiedUnminedTx_new (unmined signed_tx) 10000 2) as [v|e|].
  - apply Hf; [vm_compute; reflexivity|reflexivity|unfold amount_in, valid_range, MAX_MONEY, COIN; cbn; lia].
  - destruct Hf as [_ Hlt]; [vm_compute; reflexivity|reflexivity|unfold amount_in, valid_range, MAX_MONEY, COIN; cbn; lia|].
    cbn in Hlt. lia.
  - apply Hf; [vm_compute; reflexivity|reflexivity|unfold amount_in, valid_range, MAX_MONEY, COIN; cbn; lia].
Defined.
End TxExample.
