(* ===== verification/BlockVerifier.v ===== *)
(** The semantic verification of blocks
    ([zebra-consensus/src/block.rs], [block/check.rs], [block/request.rs],
    [error.rs] and [Solution::check] of [zebra-chain/src/work/equihash.rs]).

    The block hash, the hash of two Merkle tree nodes and the Equihash verifier
    are third-party code: the class [BlockPrimitives]. The transactions are
    verified with one set of answers of the state and the mempool ([TxQueries]),
    in the order of the block; the code takes the results in the order in which
    they arrive. The answers of the state to the block verifier itself are the
    record [BlockQueries]. *)
From S2P Require Import Prelude Serialization Height Amount ValueBalance Difficulty Merkle FundingStreams NetworkUpgrade Subsidy BlockHeader Transaction TransparentIndex ContextChecks AdjustedDifficulty StateRead TransactionVerifier.
From stdpp Require Import strings gmap prelude.
From Stdlib Require Import ZArith Lia.
#[local] Open Scope Z_scope.

(** * Errors *)

Module BlkError.
Inductive BlockError : Type :=
| Transaction (e : TransactionError)
| NoTransactions
| BadMerkleRoot (actual expected : bytes)
| DuplicateTransaction
| AlreadyInChain (hash : bytes) (known : KnownBlock)
| MissingHeight (hash : bytes)
| MaxHeight (height : Z) (hash : bytes) (max : Z)
| InvalidDifficulty (height : Z) (hash : bytes)
| TargetDifficultyLimit (height : Z) (hash : bytes) (threshold : Z) (network : Network) (limit : Z)
| DifficultyFilter (height : Z) (hash : bytes) (threshold : Z) (network : Network)
| WrongTransactionConsensusBranchId
| TooManyTransparentSignatureOperations (height : Z) (hash : bytes) (sigops : Z)
| SummingMinerFees (height : Z) (hash : bytes) (source : amount_Error)
| Other (msg : string).

Definition from_subsidy (e : SubsidyError) : BlockError := Transaction (TxError.TxSubsidy e).
Definition is_duplicate_request (e : BlockError) : bool :=
  match e with AlreadyInChain _ _ => true | _ => false end.
Definition misbehavior_score (e : BlockError) : Z :=
  match e with
  | MissingHeight _ | MaxHeight _ _ _ | InvalidDifficulty _ _ | TargetDifficultyLimit _ _ _ _ _
  | DifficultyFilter _ _ _ _ => 100
  | _ => 0
  end.
End BlkError.
Abbreviation BlockError := BlkError.BlockError.

Module VerifyError.
Inductive VerifyBlockError : Type :=
| Depth (source : BoxError) (hash : bytes)
| VBlock (source : BlockError)
| Equihash
| Time (e : BlockTimeError)
| Commit (source : BoxError)
| ValidateProposal (source : BoxError)
| VTransaction (e : TransactionError)
| VSubsidy (e : SubsidyError).

Definition is_duplicate_request (e : VerifyBlockError) : bool :=
  match e with VBlock source => BlkError.is_duplicate_request source | _ => false end.
Definition misbehavior_score (e : VerifyBlockError) : Z :=
  match e with VBlock source => BlkError.misbehavior_score source | Equihash => 100 | _ => 0 end.
End VerifyError.
Import VerifyError.

Inductive BlockVerifierRequest : Type := CommitBlock (block : Block) | CheckProposal (block : Block).
Definition request_block (r : BlockVerifierRequest) : Block :=
  match r with CommitBlock block => block | CheckProposal block => block end.
Definition is_proposal (r : BlockVerifierRequest) : bool :=
  match r with CommitBlock _ => false | CheckProposal _ => true end.

Definition MAX_BLOCK_SIGOPS : Z := 20000.

Class BlockPrimitives := {
  block_hash : Header -> bytes;
  merkle_hash : bytes -> bytes -> bytes;
  is_valid_solution : Z -> Z -> bytes -> bytes -> bytes -> bool
}.
Record BlockQueries := mkBlockQueries {
  known_block : bytes -> res BoxError (option KnownBlock);
  check_block_proposal_validity : SemanticallyVerifiedBlock -> res BoxError unit;
  commit_semantically_verified_block : SemanticallyVerifiedBlock -> res BoxError bytes
}.

Section Checks.
Context `{!TxPrimitives} `{!BlockPrimitives} `{!AddressParser} `{BuildProfile}.

(** * The checks of [block/check.rs] *)

Definition coinbase_is_first (block : Block) : res BlockError Transaction :=
  first ← ok_or (head (transactions block)) BlkError.NoTransactions;
  if negb (is_coinbase first) then Err (BlkError.Transaction TxError.CoinbasePosition)
  else if negb (forallb is_valid_non_coinbase (tail (transactions block)))
  then Err (BlkError.Transaction TxError.CoinbaseAfterFirst) else Ok first.

Definition difficulty_threshold_is_valid (header : Header) (network : Network) (height : Z) (hash : bytes)
    : res BlockError Z :=
  expanded ← lift (to_expanded (difficulty_threshold header));
  difficulty_threshold ← ok_or expanded (BlkError.InvalidDifficulty height hash);
  limit ← lift (target_difficulty_limit (network_limit network));
  if limit <? difficulty_threshold
  then Err (BlkError.TargetDifficultyLimit height hash difficulty_threshold network limit)
  else Ok difficulty_threshold.

Definition difficulty_is_valid (header : Header) (network : Network) (height : Z) (hash : bytes)
    : res BlockError unit :=
  difficulty_threshold ← difficulty_threshold_is_valid header network height hash;
  match hash_cmp hash difficulty_threshold with
  | Gt => Err (BlkError.DifficultyFilter height hash difficulty_threshold network)
  | _ => Ok tt
  end.

(** [Solution::check]: the slice panics when the header is shorter. *)
Definition Solution_check (s : Solution) (header : Header) : outcome bool :=
  input ← expect (zcash_serialize header);
  input ← slice 0 INPUT_LENGTH input;
  Ok (is_valid_solution 200 9 input (nonce header) (Solution_value s)).
Definition equihash_solution_is_valid (header : Header) : outcome bool := Solution_check (solution header) header.

(** [MultiSet::remove]: one occurrence. *)
Fixpoint multiset_remove (o : Output) (l : list Output) : option (list Output) :=
  match l with
  | [] => None
  | x :: l' => if bool_decide (x = o) then Some l' else cons x <$> multiset_remove o l'
  end.

(** [has_expected_output]. *)
Definition take_expected_output (coinbase_outputs : list Output) (address : Address) (expected_amount : Z)
    : outcome (option (list Output)) :=
  script ← new_coinbase_script address;
  Ok (multiset_remove (mkOutput expected_amount script) coinbase_outputs).

Definition take_disbursement (s : list Output * Z) (d : Address * Z) : res BlockError (list Output * Z) :=
  let '(coinbase_outputs, deferred) := s in
  let '(address, expected_amount) := d in
  rest ← lift (take_expected_output coinbase_outputs address expected_amount);
  rest ← ok_or rest (BlkError.from_subsidy OneTimeLockboxDisbursementNotFound);
  deferred ← unwrap (amount_checked_sub deferred expected_amount);
  Ok (rest, deferred).

Definition take_stream (height : Z) (network : Network) (coinbase_outputs : list Output)
    (e : FundingStreamReceiver * Z) : res BlockError (list Output) :=
  address ← lift (funding_stream_address height network e.1);
  address ← ok_or address (BlkError.Other "missing funding stream address");
  rest ← lift (take_expected_output coinbase_outputs address e.2);
  ok_or rest (BlkError.from_subsidy FundingStreamNotFound).

(** The number of bits of a [u64] that are one. *)
Definition count_ones (x : Z) : nat := length (filter (fun i => Z.testbit x (Z.of_nat i) = true) (seq 0 64)).

Definition subsidy_is_valid (block : Block) (network : Network) (expected_block_subsidy : Z) : res BlockError Z :=
  height ← ok_or (coinbase_height block) (BlkError.from_subsidy NoCoinbase);
  coinbase ← ok_or (head (transactions block)) (BlkError.from_subsidy NoCoinbase);
  halving_div ← lift (halving_divisor height network);
  match halving_div with
  | None => Ok 0
  | Some halving_div =>
      canopy_activation_height ← unwrap (activation_height Canopy network);
      if height <? slow_start_interval network then Panic
      else if negb (count_ones halving_div =? 1)%nat then Panic
      else if height <? canopy_activation_height then Panic
      else if halving_div <? 8 then
        funding_streams ← map_err (fun _ => BlkError.Other "funding stream values")
                            (funding_stream_values height network expected_block_subsidy);
        deferred ← expect (amount_constrain NegativeAllowed (default 0 (funding_streams !! DeferredReceiver)));
        disbursements ← lift (lockbox_disbursements network height);
        '(coinbase_outputs, deferred) ← foldM take_disbursement (outputs coinbase, deferred) disbursements;
        _ ← foldM (take_stream height network) coinbase_outputs
              (map_to_list (delete DeferredReceiver funding_streams));
        Ok deferred
      else Ok 0
  end.

Definition miner_fees_are_valid (coinbase_tx : Transaction) (height block_miner_fees expected_block_subsidy
    expected_deferred_pool_balance_change : Z) (network : Network) : res BlockError unit :=
  let sum_overflow {A} (m : res amount_Error A) := map_err (fun _ => BlkError.from_subsidy SubsidySumOverflow) m in
  transparent ← sum_overflow (amount_sum NonNegative (output_value <$> outputs coinbase_tx));
  transparent ← expect (amount_constrain NegativeAllowed transparent);
  total_output_value ← sum_overflow
    (a ← amount_sub NegativeAllowed transparent (sapling (sapling_value_balance coinbase_tx));
     b ← amount_sub NegativeAllowed a (orchard (orchard_value_balance coinbase_tx));
     amount_add NegativeAllowed b expected_deferred_pool_balance_change);
  total_input_value ← sum_overflow (amount_add NonNegative expected_block_subsidy block_miner_fees);
  nu ← lift (nu_current network height);
  if (if bool_decide (nu_le Nu6 nu) then negb (total_output_value =? total_input_value)
      else total_input_value <? total_output_value)
  then Err (BlkError.from_subsidy InvalidMinerFees) else Ok tt.

Definition merkle_root_validity (network : Network) (block : Block) (transaction_hashes : list bytes)
    : res BlockError unit :=
  _ ← map_err (fun _ => BlkError.WrongTransactionConsensusBranchId)
        (check_transaction_network_upgrade_consistency block network);
  root ← lift (merkle_root_of merkle_hash transaction_hashes);
  if negb (bool_decide (merkle_root (block_header block) = root))
  then Err (BlkError.BadMerkleRoot root (merkle_root (block_header block)))
  else if negb (length transaction_hashes =? size (list_to_set transaction_hashes : gset bytes))%nat
  then Err BlkError.DuplicateTransaction else Ok tt.

(** * [SemanticBlockVerifier::call] *)

(** The totals of the block: each response adds its signature operations and,
    unless it is the coinbase, its fee; once a sum of fees failed it stays
    failed. *)
Definition add_response (totals : Z * res amount_Error Z) (r : TxResponse)
    : res VerifyBlockError (Z * res amount_Error Z) :=
  _ ← assert_ (match r with BlockResponse _ _ _ => true | MempoolResponse _ _ => false end);
  sigops ← arith_u 32 (totals.1 + response_sigops r);
  Ok (sigops, match response_miner_fee r, totals.2 with
              | Some fee, Ok fees => amount_add NonNegative fees fee
              | _, fees => fees
              end).

Definition verify_block_transactions (network : Network) (q : TxQueries) (block : Block)
    (transaction_hashes : list bytes) (known_utxos : gmap OutPoint OrderedUtxo) (height : Z)
    : res VerifyBlockError (Z * res amount_Error Z) :=
  let known_outpoint_hashes := (fun e : OutPoint * OrderedUtxo => outpoint_hash e.1) <$> map_to_list known_utxos in
  foldM (fun totals '(transaction_hash, transaction) =>
           r ← map_err VTransaction (verify_transaction network q
                 (BlockRequest transaction_hash transaction known_outpoint_hashes known_utxos height
                    (time (block_header block))));
           add_response totals r)
    (0, Ok 0) (zip transaction_hashes (transactions block)).

(** The checks of the header, the coinbase and the subsidy; they return the
    coinbase transaction, the subsidy and the deferred pool change. *)
Definition block_checks (network : Network) (now : Z) (request : BlockVerifierRequest) (height : Z)
    (transaction_hashes : list bytes) : res VerifyBlockError (Transaction * Z * Z) :=
  let block := request_block request in
  let hash := block_hash (block_header block) in
  _ ← (if is_proposal request || disable_pow network then
         _ ← map_err VBlock (difficulty_threshold_is_valid (block_header block) network height hash); Ok tt
       else
         _ ← map_err VBlock (difficulty_is_valid (block_header block) network height hash);
         valid ← lift (equihash_solution_is_valid (block_header block));
         if (valid : bool) then Ok tt else Err Equihash);
  _ ← map_err VBlock (merkle_root_validity network block transaction_hashes);
  _ ← map_err Time (time_is_valid_at (block_header block) now height hash);
  coinbase_tx ← map_err VBlock (coinbase_is_first block);
  expected_block_subsidy ← map_err VSubsidy (block_subsidy height network);
  deferred_pool_balance_change ← map_err VBlock (subsidy_is_valid block network expected_block_subsidy);
  _ ← map_err VTransaction (coinbase_outputs_are_decryptable coinbase_tx network height);
  Ok (coinbase_tx, expected_block_subsidy, deferred_pool_balance_change).

(** Everything between the first query and the submission of the block. *)
Definition semantic_verify (network : Network) (q : TxQueries) (now : Z) (request : BlockVerifierRequest)
    : res VerifyBlockError SemanticallyVerifiedBlock :=
  let block := request_block request in
  let hash := block_hash (block_header block) in
  height ← ok_or (coinbase_height block) (VBlock (BlkError.MissingHeight hash));
  if Height_MAX <? height then Err (VBlock (BlkError.MaxHeight height hash Height_MAX))
  else
    let transaction_hashes := transaction_hash <$> transactions block in
    '(coinbase_tx, expected_block_subsidy, deferred) ← block_checks network now request height transaction_hashes;
    known_utxos ← lift (new_ordered_outputs block transaction_hashes);
    '(sigops, block_miner_fees) ← verify_block_transactions network q block transaction_hashes known_utxos height;
    if MAX_BLOCK_SIGOPS <? sigops
    then Err (VBlock (BlkError.TooManyTransparentSignatureOperations height hash sigops))
    else
      block_miner_fees ← map_err (fun e => VBlock (BlkError.SummingMinerFees height hash e)) block_miner_fees;
      _ ← map_err VBlock (miner_fees_are_valid coinbase_tx height block_miner_fees expected_block_subsidy
                            deferred network);
      Ok (mkSemanticallyVerifiedBlock block hash height known_utxos transaction_hashes (Some deferred)).

Definition verify_block (network : Network) (q : TxQueries) (bq : BlockQueries) (now : Z)
    (request : BlockVerifierRequest) : res VerifyBlockError bytes :=
  let hash := block_hash (block_header (request_block request)) in
  known ← map_err (fun source => Depth source hash) (known_block bq hash);
  match known with
  | Some location => Err (VBlock (BlkError.AlreadyInChain hash location))
  | None =>
      prepared_block ← semantic_verify network q now request;
      if is_proposal request then
        _ ← map_err ValidateProposal (check_block_proposal_validity bq prepared_block); Ok hash
      else
        committed_hash ← map_err Commit (commit_semantically_verified_block bq prepared_block);
        _ ← assert_ (bool_decide (committed_hash = hash));
        Ok hash
  end.
End Checks.

(** * What the amounts of an accepted block add up to *)

(** An amount operation that succeeds is exact. *)
Lemma amount_add_exact C a b c : amount_add C a b = Ok c -> c = a + b.
Proof.
  unfold amount_add. intros (v & [-> _]%unwrap_Ok%checked_Some & [-> _]%amount_try_from_Ok)%bind_Ok_inv. done.
Qed.
Lemma amount_sub_exact C a b c : amount_sub C a b = Ok c -> c = a - b.
Proof.
  unfold amount_sub. intros (v & [-> _]%unwrap_Ok%checked_Some & [-> _]%amount_try_from_Ok)%bind_Ok_inv. done.
Qed.
Lemma amount_neg_exact a c : amount_neg a = Ok c -> c = - a.
Proof.
  unfold amount_neg. intros (v & [-> _]%unwrap_Ok%checked_Some & Hc)%bind_Ok_inv.
  apply (proj1 (expect_Ok _ _)), amount_try_from_Ok in Hc as [-> _]. done.
Qed.

(** The value of the four pools that transactions move, and of all five. *)
Definition pool_total (v : ValueBalance) : Z := transparent v + sprout v + sapling v + orchard v.
Definition chain_total (v : ValueBalance) : Z := pool_total v + deferred v.

Lemma value_balance_add_total C v w u : value_balance_add C v w = Ok u -> pool_total u = pool_total v + pool_total w.
Proof.
  unfold value_balance_add, pool_total.
  intros (t & Ht & (s & Hs & (p & Hp & (o & Ho & (d & _ & Hu)%bind_Ok_inv)%bind_Ok_inv)%bind_Ok_inv)%bind_Ok_inv)%bind_Ok_inv.
  apply Ok_inj in Hu as <-. cbn. apply map_err_Ok, amount_add_exact in Ht, Hs, Hp, Ho. lia.
Qed.

Lemma remaining_total vb r : remaining_transaction_value vb = Ok r -> r = pool_total vb.
Proof.
  unfold remaining_transaction_value, pool_total. intros (a & Ha & (b & Hb & (c & Hc & Hr)%bind_Ok_inv)%bind_Ok_inv)%bind_Ok_inv.
  apply amount_add_exact in Ha, Hb, Hc. apply amount_try_from_Ok in Hr as [-> _]. lia.
Qed.

(** The remaining value of a transaction. *)
Definition remaining (utxos : gmap OutPoint Utxo) (tx : Transaction) : Z :=
  match value_balance tx utxos with Ok vb => pool_total vb | _ => 0 end.

Lemma chain_value_pool_change_total b utxos d change :
  Forall (fun tx => exists vb, value_balance tx utxos = Ok vb) (transactions b) ->
  chain_value_pool_change b utxos (Some d) = Ok change ->
  chain_total change = d - sum_Z (remaining utxos) (transactions b).
Proof.
  intros Hall. unfold chain_value_pool_change. intros (total & Ht & (neg & Hn%lift_Ok & Hc)%bind_Ok_inv)%bind_Ok_inv.
  apply Ok_inj in Hc as <-. unfold chain_total. cbn [set_deferred_amount deferred default].
  assert (forall acc, foldM (fun acc tx => match value_balance tx utxos with
            | Ok v => value_balance_add NegativeAllowed acc v | Err _ => Ok acc | Panic => Panic end) acc (transactions b)
          = Ok total -> pool_total total = pool_total acc + sum_Z (remaining utxos) (transactions b)) as Hsum.
  { clear Ht Hn. induction Hall as [|tx txs [vb Hvb] _ IH]; intros acc; cbn [foldM sum_Z].
    - intros [= ->]. lia.
    - rewrite Hvb. intros (acc' & Ha%value_balance_add_total & Hr%IH)%bind_Ok_inv.
      unfold remaining at 1. rewrite Hvb. lia. }
  apply Hsum in Ht. unfold value_balance_neg in Hn.
  apply bind_Ok_inv in Hn as (t & Htt & (s & Hs & (p & Hp & (o & Ho & (x & _ & Hu)%bind_Ok_inv)%bind_Ok_inv)%bind_Ok_inv)%bind_Ok_inv).
  apply Ok_inj in Hu as <-. apply amount_neg_exact in Htt, Hs, Hp, Ho. unfold pool_total in *. cbn in *. lia.
Qed.

(** The balance of a transaction depends only on the outputs it spends. *)
Lemma value_balance_ext tx utxos1 utxos2 :
  (forall o, o ∈ spent_outpoints tx -> utxo_output <$> utxos1 !! o = utxo_output <$> utxos2 !! o) -> value_balance tx utxos1 = value_balance tx utxos2.
Proof.
  intros He. unfold value_balance, value_balance_from_outputs, transparent_value_balance_from_outputs.
  do 3 f_equal. unfold spent_outpoints in He.
  enough (forall acc, foldM (fun acc i => v ← value_from_outputs i (outputs_from_utxos utxos1); Ok (acc ++ [v])) acc (inputs tx)
    = foldM (fun acc i => v ← value_from_outputs i (outputs_from_utxos utxos2); Ok (E := Empty_set) (acc ++ [v])) acc (inputs tx))
    by done.
  induction (inputs tx) as [|i l IH]; intros acc; cbn [foldM]; [done|].
  assert (value_from_outputs i (outputs_from_utxos utxos1) = value_from_outputs i (outputs_from_utxos utxos2)) as ->.
  { destruct i as [o sc sq|]; [|done]. cbn. unfold outputs_from_utxos. rewrite !lookup_fmap. rewrite He; [done|]. left. }
  destruct (value_from_outputs i _) as [v| |]; cbn; [|done|done]. apply IH. intros o Ho. apply He.
  destruct i; cbn; [by right|done].
Qed.

Section Issuance.
Context `{!TxPrimitives} `{!BlockPrimitives} `{!AddressParser} `{BuildProfile}.

Lemma verify_block_transactions_Ok network q block hashes known height n fees :
  verify_block_transactions network q block hashes known height = Ok (n, Ok fees) ->
  exists rs, Forall2 (fun p r => verify_transaction network q
      (BlockRequest p.1 p.2 ((fun e : OutPoint * OrderedUtxo => outpoint_hash e.1) <$> map_to_list known) known height
         (time (block_header block))) = Ok r) (zip hashes (transactions block)) rs
    /\ fees = sum_Z (fun r => default 0 (response_miner_fee r)) rs.
Proof.
  unfold verify_block_transactions. intros Hf.
  enough (forall l t, foldM (fun totals '(transaction_hash, transaction) =>
           r ← map_err VTransaction (verify_transaction network q
                 (BlockRequest transaction_hash transaction
                   ((fun e : OutPoint * OrderedUtxo => outpoint_hash e.1) <$> map_to_list known) known height
                   (time (block_header block)))); add_response totals r) t l = Ok (n, Ok fees) ->
    exists rs, Forall2 (fun p r => verify_transaction network q
      (BlockRequest p.1 p.2 ((fun e : OutPoint * OrderedUtxo => outpoint_hash e.1) <$> map_to_list known) known height
         (time (block_header block))) = Ok r) l rs
      /\ exists f, t.2 = Ok f /\ fees = f + sum_Z (fun r => default 0 (response_miner_fee r)) rs) as Hl.
  { apply Hl in Hf as (rs & Hrs & f & [= <-] & ->). by exists rs. }
  clear Hf. induction l as [|[h tx] l IH]; intros t; cbn [foldM].
  { intros [= ->]. exists []. split; [constructor|]. exists fees. cbn. split; [done|lia]. }
  intros (t' & (r & Hr%map_err_Ok & Ha)%bind_Ok_inv & (rs & Hrs & f & Hf & ->)%IH)%bind_Ok_inv.
  exists (r :: rs). split; [by constructor|]. unfold add_response in Ha.
  apply bind_Ok_inv in Ha as (u & _ & (sg & _ & <-%Ok_inj)%bind_Ok_inv). cbn [snd sum_Z] in *.
  destruct (response_miner_fee r) as [fee|]; cbn; [|exists f; split; [done|lia]].
  destruct t.2 as [fs| |]; try done. apply amount_add_exact in Hf as ->. exists fs. split; [done|lia].
Qed.

(** The value that the coinbase transaction creates. *)
Definition coinbase_created (coinbase : Transaction) : Z :=
  sum_Z output_value (outputs coinbase) - sapling (sapling_value_balance coinbase) - orchard (orchard_value_balance coinbase).

Lemma miner_fees_are_valid_Ok coinbase height fees subsidy deferred network :
  Forall (fun o => amount_in NonNegative (output_value o)) (outputs coinbase) ->
  miner_fees_are_valid coinbase height fees subsidy deferred network = Ok tt ->
  sum_Z output_value (outputs coinbase) <= MAX_MONEY
  /\ exists nu, nu_current network height = Ok nu
     /\ (if decide (nu_le Nu6 nu) then coinbase_created coinbase + deferred = subsidy + fees
         else coinbase_created coinbase + deferred <= subsidy + fees).
Proof.
  intros Ho. unfold miner_fees_are_valid, coinbase_created.
  intros (t & Ht%map_err_Ok & (t' & Ht' & (out & Hout%map_err_Ok & (inp & Hin%map_err_Ok & (nu & Hnu%lift_Ok & Hc)%bind_Ok_inv)%bind_Ok_inv)%bind_Ok_inv)%bind_Ok_inv)%bind_Ok_inv.
  apply (proj1 (expect_Ok _ _)), amount_try_from_Ok in Ht' as [-> _].
  destruct (amount_sum_nonneg (output_value <$> outputs coinbase)) as [_ Hs]; [by apply Forall_fmap|].
  apply Hs in Ht as [-> Hmax]. rewrite sum_Z_fmap in *. change (id ∘ output_value) with output_value in *.
  apply bind_Ok_inv in Hout as (a & Ha%amount_sub_exact & (b & Hb%amount_sub_exact & Hout%amount_add_exact)%bind_Ok_inv).
  apply amount_add_exact in Hin. split; [done|]. exists nu. split; [done|]. subst. apply check_Ok in Hc.
  case_decide as Hd.
  - rewrite bool_decide_eq_true_2 in Hc by done. apply negb_false_iff, Z.eqb_eq in Hc. lia.
  - rewrite bool_decide_eq_false_2 in Hc by done. apply Z.ltb_ge in Hc. lia.
Qed.

Lemma list_to_set_size_NoDup (l : list bytes) :
  length l = size (list_to_set l : gset bytes) -> NoDup l.
Proof.
  induction l as [|x l IH]; intros Hs; [constructor|]. cbn [list_to_set length] in Hs.
  assert (size (list_to_set l : gset bytes) <= length l)%nat as Hle.
  { clear. induction l as [|x l IH]; cbn [list_to_set length]; [by rewrite size_empty|].
    rewrite size_union_alt, size_singleton.
    pose proof (subseteq_size (list_to_set l ∖ {[x]} : gset bytes) (list_to_set l) ltac:(set_solver)). lia. }
  constructor.
  - intros Hin. assert ({[x]} ∪ list_to_set l = (list_to_set l : gset bytes)) as He by set_solver.
    rewrite He in Hs. lia.
  - apply IH. rewrite size_union_alt, size_singleton in Hs.
    pose proof (subseteq_size (list_to_set l ∖ {[x]} : gset bytes) (list_to_set l) ltac:(set_solver)). lia.
Qed.

Lemma zip_fmap_self {A B} (f : A -> B) (l : list A) : zip (f <$> l) l = (fun a => (f a, a)) <$> l.
Proof. induction l as [|a l IH]; [done|]. cbn. f_equal. exact IH. Qed.

Lemma valid_not_coinbase tx : is_valid_non_coinbase tx = true -> is_coinbase tx = false.
Proof. unfold is_valid_non_coinbase, is_coinbase. by destruct (inputs tx) as [|[] []]. Qed.

(** The mempool entry [v] was made when the verifier accepted a transaction for
    the mempool that has the effects of [tx] (the id of a mined transaction does
    not cover the rest), with the outputs for its spends that [utxos] has. *)
Definition mempool_entry (network : Network) (utxos : gmap OutPoint Utxo) (tx : Transaction) (v : VerifiedUnminedTx) : Prop :=
  exists q unmined height mempool_outpoints,
    verify_transaction network q (MempoolRequest unmined height) = Ok (MempoolResponse v mempool_outpoints)
    /\ let tx' := unmined_transaction unmined in
       spent_outpoints tx' = spent_outpoints tx /\ is_crosslink tx' = is_crosslink tx
       /\ (forall us, value_balance tx' us = value_balance tx us)
       /\ forall s o, spent_utxos (MempoolRequest unmined height) q = Ok s -> o ∈ spent_outpoints tx ->
            utxo_output <$> spent_utxos_ s !! o = utxo_output <$> utxos !! o.
(** The entries that the block verifier finds for the transactions. *)
Definition mempool_verified (network : Network) (utxos : gmap OutPoint Utxo) (q : TxQueries) (txs : list Transaction) : Prop :=
  forall m tx v deps, mempool q = Some m -> tx ∈ txs -> transaction_with_deps m (transaction_hash tx) = Some (v, deps) ->
    mempool_entry network utxos tx v.

Lemma mempool_entry_fee network utxos tx v : mempool_entry network utxos tx v ->
  exists vb, value_balance tx utxos = Ok vb /\ vu_miner_fee v = reported_fee tx (pool_total vb).
Proof.
  intros (q & unmined & height & mos & Hv & Ho & Hx & Hvb & Hu). unfold verify_transaction in Hv. cbn [find_verified_unmined_tx req_is_mempool orb] in Hv.
  apply bind_unit_Ok in Hv as [Hq Hv]. apply bind_unit_Ok in Hv as [_ Hv]. unfold verify_spends in Hv.
  apply bind_Ok_inv in Hv as (s & Hs & Hv). apply bind_unit_Ok in Hv as [_ Hv]. apply bind_Ok_inv in Hv as (nu & _ & Hv).
  destruct (negb _); [done|]. apply bind_Ok_inv in Hv as (checks & _ & Hv). apply bind_unit_Ok in Hv as [_ Hv].
  apply bind_Ok_inv in Hv as (fee & Hfee%miner_fee_of_Ok & Hv). apply bind_Ok_inv in Hv as (n & _ & Hv).
  apply bind_Ok_inv in Hv as (f & Hf%unwrap_Ok & (v' & Hnew%map_err_Ok & [= -> _])%bind_Ok_inv). subst fee.
  unfold VerifiedUnminedTx_new in Hnew. apply bind_Ok_inv in Hnew as (? & _ & (? & _ & (? & _ & <-%Ok_inj)%bind_Ok_inv)%bind_Ok_inv).
  cbn [req_transaction vu_miner_fee] in *. destruct (is_coinbase (unmined_transaction unmined)); [done|].
  destruct Hfee as (vb & rtv & Hvb' & Hr%remaining_total & [= ->]). exists vb. subst rtv. unfold reported_fee. rewrite Hx. split; [|done].
  rewrite <- Hvb', Hvb. apply value_balance_ext. intros o Hin. symmetry. by apply Hu.
Qed.

(** The fee of a verified transaction, from the outputs [utxos] that the state
    has for it. *)
Lemma verified_fee network q tx hs known height t r utxos :
  mempool_verified network utxos q [tx] ->
  let h := transaction_hash tx in
  verify_transaction network q (BlockRequest h tx hs known height t) = Ok r ->
  (forall o u, o ∈ spent_outpoints tx -> block_utxo known q o = Ok u -> utxos !! o = Some u) ->
  if is_coinbase tx then response_miner_fee r = None /\ joinsplit_count tx = 0%nat
  else exists vb, value_balance tx utxos = Ok vb /\ response_miner_fee r = Some (reported_fee tx (pool_total vb)).
Proof.
  intros Hm h. unfold verify_transaction. destruct (find_verified_unmined_tx _ q) as [result|] eqn:Hf.
  { intros (v & -> & [= <-])%bind_Ok_inv _. unfold find_verified_unmined_tx in Hf. cbn [req_is_mempool req_transaction orb tx_mined_id] in Hf.
    destruct (is_coinbase tx); [done|]. apply bind_Some in Hf as (m & Hq & ([v' deps] & Ht & Hf)%bind_Some).
    assert (v' = v) as -> by (destruct (filter _ deps); [by injection Hf|]; injection Hf; by intros (? & _ & ?%Ok_inj)%bind_Ok_inv).
    destruct (mempool_entry_fee network utxos tx v) as (vb & Hvb & Hfee); [apply (Hm m tx v deps Hq); [left|exact Ht]|].
    exists vb. cbn [response_miner_fee]. by rewrite Hfee. }
  clear Hf. rewrite !bind_unit_Ok, quick_checks_Ok;
    intros (Hrules & _ & (s & nu & fee & n & Hs & _ & _ & _ & _ & Hfee%miner_fee_of_Ok & _ & ->)%block_verify_spends) Hu;
    cbn [response_miner_fee req_transaction] in *.
  all: destruct (is_coinbase tx) eqn:Hc; [by destruct (rule_coinbase _ _ _ _ Hrules Hc) as (_ & ? & _)|].
  all: destruct Hfee as (vb & rtv & Hvb & Hr%remaining_total & ->); exists vb; subst rtv; split; [|done].
  all: rewrite <- Hvb; apply value_balance_ext; intros o Ho.
  all: apply block_spent_utxos in Hs as (found & Hfst & Hf & ->).
  all: assert (exists u, (o, u) ∈ found) as (u & Hin)
    by (rewrite <- Hfst in Ho; apply list_elem_of_fmap in Ho as ([o' u] & -> & ?); by exists u).
  all: rewrite (add_all_lookup _ _ o u) by (rewrite ?Hfst; (done || apply (rule_no_conflicts _ _ _ _ Hrules))).
  all: rewrite (Hu o u); [done|done|]; rewrite Forall_forall in Hf; apply (Hf _ Hin).
Qed.

Lemma coinbase_balance tx utxos :
  tx_amounts_valid tx -> is_coinbase tx = true -> joinsplit_count tx = 0%nat ->
  sum_Z output_value (outputs tx) <= MAX_MONEY ->
  exists vb, value_balance tx utxos = Ok vb /\ pool_total vb = - coinbase_created tx.
Proof.
  intros Hv Hc Hj Ho.
  assert (input_values_from_sprout tx = [] /\ output_values_to_sprout tx = []) as [Hi Hs].
  { unfold joinsplit_count, input_values_from_sprout, output_values_to_sprout in *.
    by destruct (transaction_joinsplit_data tx). }
  destruct (transaction_value_balance tx utxos [0]) as (_ & _ & Hok).
  - done.
  - unfold is_coinbase in Hc. destruct (inputs tx) as [|[] []]; try done. by constructor; [|constructor].
  - constructor; [|done]. amount_lia.
  - eexists. split; [apply Hok; rewrite ?Hi, ?Hs; cbn; try done; unfold MAX_MONEY, COIN; lia|].
    unfold spec_value_balance, pool_total, coinbase_created. rewrite Hi, Hs. cbn [transparent sprout sapling orchard].
    unfold sapling_balance, orchard_balance. cbn. lia.
Qed.

(** What a transaction adds to the fees beyond its remaining value. *)
Definition fee_surplus (utxos : gmap OutPoint Utxo) (tx : Transaction) : Z :=
  if is_crosslink tx && negb (is_coinbase tx) then 100 * COIN - remaining utxos tx else 0.

Lemma fees_of_transactions utxos txs rs :
  Forall2 (fun tx r => exists vb, value_balance tx utxos = Ok vb
    /\ response_miner_fee r = Some (reported_fee tx (pool_total vb))) txs rs ->
  Forall (fun tx => is_coinbase tx = false) txs ->
  sum_Z (fun r => default 0 (response_miner_fee r)) rs = sum_Z (remaining utxos) txs + sum_Z (fee_surplus utxos) txs.
Proof.
  induction 1 as [|tx r txs rs (vb & Hvb & Hr) _ IH]; [done|]. intros [Hc Hcs]%Forall_cons. cbn [sum_Z].
  rewrite IH, Hr by done. unfold fee_surplus at 2, remaining at 2 4. rewrite Hvb, Hc, andb_true_r. cbn [default].
  unfold reported_fee, id. destruct (is_crosslink tx); lia.
Qed.

(** The parts of the checks that issuance depends on. *)
Lemma block_checks_Ok network now request height hashes cb subsidy d :
  block_checks network now request height hashes = Ok (cb, subsidy, d) ->
  block_subsidy height network = Ok subsidy /\ subsidy_is_valid (request_block request) network subsidy = Ok d
  /\ merkle_root_validity network (request_block request) hashes = Ok tt
  /\ exists rest, transactions (request_block request) = cb :: rest /\ is_coinbase cb = true
     /\ Forall (fun tx => is_coinbase tx = false) rest.
Proof.
  unfold block_checks. intros (u & _ & Hv)%bind_Ok_inv. apply bind_unit_Ok in Hv as [Hmr%map_err_Ok Hv].
  apply bind_Ok_inv in Hv as (u' & _ & Hv). apply bind_Ok_inv in Hv as (cb' & Hcb%map_err_Ok & Hv).
  apply bind_Ok_inv in Hv as (s & Hs%map_err_Ok & Hv). apply bind_Ok_inv in Hv as (d' & Hd%map_err_Ok & Hv).
  apply bind_Ok_inv in Hv as (u'' & _ & Hv). injection Hv as -> -> ->. do 3 (split; [done|]).
  unfold coinbase_is_first in Hcb. apply bind_Ok_inv in Hcb as (first & Hf%ok_or_Ok & Hcb).
  destruct (transactions (request_block request)) as [|tx rest]; [done|]. injection Hf as ->. exists rest.
  destruct (is_coinbase first) eqn:Hc; [|done]. cbn [negb tail] in Hcb.
  destruct (forallb _ rest) eqn:Hr; [|done]. apply Ok_inj in Hcb as <-. split; [done|]. split; [done|].
  apply Forall_forall. intros tx Hin. apply valid_not_coinbase. apply list_elem_of_In in Hin. by apply (proj1 (forallb_forall _ _) Hr).
Qed.

(** Issuance. When a block is accepted, with or without entries of the mempool,
    the value of all pools together grows by the block subsidy, plus, for each
    Crosslink transaction, the difference between 100 ZEC and what the
    transaction really leaves to the miner; before NU6 it grows by at most
    that. In a block without Crosslink transactions only the subsidy is
    issued. [utxos] are the outputs that the state has for the spends of the
    block. *)
Lemma block_issuance network q now request sv utxos change :
  semantic_verify network q now request = Ok sv ->
  let txs := transactions (sv_block sv) in
  mempool_verified network utxos q txs ->
  Forall tx_amounts_valid txs ->
  (forall tx o u, tx ∈ txs -> o ∈ spent_outpoints tx -> block_utxo (sv_new_outputs sv) q o = Ok u -> utxos !! o = Some u) ->
  chain_value_pool_change (sv_block sv) utxos (sv_deferred_pool_balance_change sv) = Ok change ->
  exists nu subsidy, nu_current network (sv_height sv) = Ok nu /\ block_subsidy (sv_height sv) network = Ok subsidy
    /\ (if decide (nu_le Nu6 nu) then chain_total change = subsidy + sum_Z (fee_surplus utxos) txs
        else chain_total change <= subsidy + sum_Z (fee_surplus utxos) txs)
    /\ (Forall (fun tx => is_crosslink tx = false) txs -> sum_Z (fee_surplus utxos) txs = 0).
Proof.
  intros Hv. unfold semantic_verify in Hv. apply bind_Ok_inv in Hv as (height & Hh & Hv).
  destruct (Height_MAX <? height); [done|].
  apply bind_Ok_inv in Hv as ([[cb subsidy] d] & Hchecks & Hv). apply bind_Ok_inv in Hv as (known & _ & Hv).
  apply bind_Ok_inv in Hv as ([n fees] & Htx & Hv). destruct (MAX_BLOCK_SIGOPS <? n); [done|].
  apply bind_Ok_inv in Hv as (fs & ->%map_err_Ok & Hv). apply bind_unit_Ok in Hv as [Hfees%map_err_Ok Hv].
  apply Ok_inj in Hv as <-. cbn [sv_block sv_new_outputs sv_height sv_deferred_pool_balance_change].
  set (block := request_block request) in *. intros Hm Hvalid Hutxos Hchange.
  apply verify_block_transactions_Ok in Htx as (rs & Hrs & ->). rewrite zip_fmap_self in Hrs.
  apply Forall2_fmap_l in Hrs. cbn [fst snd] in Hrs.
  apply block_checks_Ok in Hchecks as (Hsub & _ & _ & rest & Htxs & Hc & Hrest). fold block in Htxs.
  rewrite Htxs in *. apply Forall2_cons_inv_l in Hrs as (r & rs' & Hr & Hrs & ->).
  apply Forall_cons in Hvalid as [Hvcb Hvalid].
  assert (Hone : forall tx, tx ∈ cb :: rest -> mempool_verified network utxos q [tx]).
  { intros tx Htx m tx' v deps Hq ->%list_elem_of_singleton. by apply (Hm m tx v deps Hq). }
  apply (verified_fee _ _ _ _ _ _ _ _ utxos (Hone cb ltac:(left))) in Hr; [|intros o u; apply Hutxos; left]. cbn [fst snd] in Hr. rewrite Hc in Hr.
  destruct Hr as [Hr0 Hj]. apply miner_fees_are_valid_Ok in Hfees as (Hmax & nu & Hnu & Hfees); [|apply Hvcb].
  assert (Forall2 (fun tx r => exists vb, value_balance tx utxos = Ok vb
    /\ response_miner_fee r = Some (reported_fee tx (pool_total vb))) rest rs') as Hall.
  { apply Forall2_same_length_lookup. split; [by eapply Forall2_length|]. intros i tx r' Hi Hr'.
    pose proof (Forall2_lookup_lr _ _ _ _ _ _ Hrs Hi Hr') as Hok. cbn in Hok.
    apply (verified_fee _ _ _ _ _ _ _ _ utxos (Hone tx ltac:(right; by eapply list_elem_of_lookup_2))) in Hok.
    - rewrite (Forall_lookup_1 _ _ _ _ Hrest Hi) in Hok. exact Hok.
    - intros o u. apply Hutxos. right. by eapply list_elem_of_lookup_2. }
  destruct (coinbase_balance cb utxos Hvcb Hc Hj Hmax) as (vcb & Hvb & Htot).
  pose proof (fees_of_transactions _ _ _ Hall Hrest) as Hsum.
  apply chain_value_pool_change_total in Hchange.
  2:{ rewrite Htxs. constructor; [by exists vcb|]. apply Forall_forall. intros tx (i & Hi)%list_elem_of_lookup.
      destruct (Forall2_lookup_l _ _ _ _ _ Hall Hi) as (? & _ & vb & ? & _). by exists vb. }
  rewrite Htxs in Hchange. cbn [sum_Z] in Hchange, Hfees |- *. rewrite Hr0 in Hfees. cbn [default] in Hfees.
  unfold remaining at 1 in Hchange. rewrite Hvb in Hchange. rewrite Hsum in Hfees.
  exists nu, subsidy. split; [done|]. split; [done|].
  assert (fee_surplus utxos cb = 0) as -> by (unfold fee_surplus; by rewrite Hc, andb_false_r).
  split; [case_decide; lia|]. intros [_ Hnc]%Forall_cons. clear -Hnc.
  induction Hnc as [|tx l Htx _ IH]; [done|]. cbn [sum_Z]. unfold fee_surplus at 1. rewrite Htx. cbn. lia.
Qed.

(** ** The money supply *)

(** A block that the block verifier accepted, with the outputs that the state
    has for its spends. Its amounts are in the ranges of their types, and what the
    mempool returns for its transactions was verified with the same outputs. *)
Definition accepted (network : Network) (e : SemanticallyVerifiedBlock * gmap OutPoint Utxo) : Prop :=
  let '(sv, utxos) := e in
  Forall tx_amounts_valid (transactions (sv_block sv))
  /\ exists q now request, mempool_verified network utxos q (transactions (sv_block sv)) /\ semantic_verify network q now request = Ok sv
     /\ forall tx o u, tx ∈ transactions (sv_block sv) -> o ∈ spent_outpoints tx ->
          block_utxo (sv_new_outputs sv) q o = Ok u -> utxos !! o = Some u.

(** The pools after a block. *)
Definition add_block_to_pools (pools : ValueBalance) (e : SemanticallyVerifiedBlock * gmap OutPoint Utxo)
    : res ValueBalanceError ValueBalance :=
  change ← chain_value_pool_change (sv_block e.1) e.2 (sv_deferred_pool_balance_change e.1);
  add_chain_value_pool_change pools change.

Definition block_surplus (e : SemanticallyVerifiedBlock * gmap OutPoint Utxo) : Z :=
  sum_Z (fee_surplus e.2) (transactions (sv_block e.1)).
Definition without_crosslink (e : SemanticallyVerifiedBlock * gmap OutPoint Utxo) : Prop :=
  Forall (fun tx => is_crosslink tx = false) (transactions (sv_block e.1)).
Definition since_nu6 (network : Network) (e : SemanticallyVerifiedBlock * gmap OutPoint Utxo) : Prop :=
  exists nu, nu_current network (sv_height e.1) = Ok nu /\ nu_le Nu6 nu.

Lemma add_chain_value_pool_change_total pools change pools' :
  add_chain_value_pool_change pools change = Ok pools' -> chain_total pools' = chain_total pools + chain_total change.
Proof.
  unfold add_chain_value_pool_change. intros (p & Hp & (p' & Hadd & [-> _]%value_balance_constrain_Ok)%bind_Ok_inv)%bind_Ok_inv.
  apply (proj1 (expect_Ok _ _)), value_balance_constrain_Ok in Hp as [-> _].
  unfold value_balance_add in Hadd.
  apply bind_Ok_inv in Hadd as (t & Ht & (s & Hs & (x & Hx & (o & Ho & (d & Hd & Hu)%bind_Ok_inv)%bind_Ok_inv)%bind_Ok_inv)%bind_Ok_inv).
  apply Ok_inj in Hu as <-. apply map_err_Ok, amount_add_exact in Ht, Hs, Hx, Ho, Hd.
  unfold chain_total, pool_total. cbn. lia.
Qed.

(** One block. *)
Lemma add_block_total network e pools pools' :
  accepted network e -> add_block_to_pools pools e = Ok pools' ->
  chain_total pools' <= chain_total pools + issued network (sv_height e.1) + block_surplus e
  /\ (since_nu6 network e -> chain_total pools' = chain_total pools + issued network (sv_height e.1) + block_surplus e)
  /\ (without_crosslink e -> block_surplus e = 0).
Proof.
  destruct e as [sv utxos]. intros (Hvalid & q & now & request & Hm & Hv & Hu).
  intros (change & Hc & Ht%add_chain_value_pool_change_total)%bind_Ok_inv. cbn [fst snd] in Hc.
  destruct (block_issuance network q now request sv utxos change Hv Hm Hvalid Hu Hc) as (nu & subsidy & Hnu & Hs & Htot & Hnc).
  unfold block_surplus, since_nu6, issued. cbn [fst snd]. rewrite Hs, Hnu. case_decide as Hd.
  - split; [lia|]. split; [lia|done].
  - split; [lia|]. split; [|done]. by intros (nu' & [= <-] & ?).
Qed.

(** C3. The money supply. Take a chain of consecutive blocks that the block
    verifier accepted, with amounts in the ranges of their types. A node may answer
    from its mempool for transactions of a block, which skips their checks; the
    entries it uses are assumed to come from the verification of a mempool
    transaction with the same effects and the same spent outputs. Then the value of
    all pools grows by at most the block subsidies and the surplus of the
    Crosslink transactions, and by exactly that from NU6 on. Without Crosslink
    transactions it grows by the subsidies only, and so by at most two halving
    intervals of the largest subsidy, which with the halving interval of Mainnet
    is the [MAX_MONEY] of 21 million ZEC. The network has the halving parameters
    of [halving_network] and a slow start of less than two halving intervals
    after Blossom. *)
Theorem chain_supply network blossom from l pools pools' :
  halving_network network blossom ->
  slow_start_shift network - blossom < 2 * pre_blossom_halving_interval network ->
  0 <= from -> from + Z.of_nat (length l) <= Height_MAX + 1 ->
  Forall (accepted network) l ->
  sv_height ∘ fst <$> l = seqZ from (Z.of_nat (length l)) ->
  foldM add_block_to_pools pools l = Ok pools' ->
  let subsidies := sum_Z (issued network) (seqZ from (Z.of_nat (length l))) in
  chain_total pools' <= chain_total pools + subsidies + sum_Z block_surplus l
  /\ (Forall (since_nu6 network) l -> chain_total pools' = chain_total pools + subsidies + sum_Z block_surplus l)
  /\ (Forall without_crosslink l ->
      chain_total pools' <= chain_total pools + 2 * pre_blossom_halving_interval network * MAX_BLOCK_SUBSIDY)
  /\ 2 * PRE_BLOSSOM_HALVING_INTERVAL * MAX_BLOCK_SUBSIDY = MAX_MONEY.
Proof.
  intros Hn Hb Hfrom Hlen Hacc Hheights Hfold. cbn zeta.
  destruct (total_issuance_bounded network blossom from (length l) Hn Hb Hfrom Hlen) as [Hbound Hmax].
  assert (sum_Z (issued network) (seqZ from (Z.of_nat (length l))) = sum_Z (fun e => issued network (sv_height e.1)) l) as Hsum
    by (by rewrite <- Hheights, sum_Z_fmap).
  rewrite Hsum in *. clear Hsum Hheights Hlen.
  assert (chain_total pools' <= chain_total pools + sum_Z (fun e => issued network (sv_height e.1)) l + sum_Z block_surplus l
    /\ (Forall (since_nu6 network) l ->
        chain_total pools' = chain_total pools + sum_Z (fun e => issued network (sv_height e.1)) l + sum_Z block_surplus l)
    /\ (Forall without_crosslink l -> sum_Z block_surplus l = 0)) as (Hle & Heq & Hz).
  { clear Hbound Hmax. revert pools Hfold. induction Hacc as [|e l He _ IH]; intros pools; cbn [foldM sum_Z].
    - intros [= ->]. split; [lia|]. split; [lia|done].
    - intros (p & Hp & (H1' & H2' & H3')%IH)%bind_Ok_inv.
      destruct (add_block_total _ _ _ _ He Hp) as (Hp1 & Hp2 & Hp3).
      rewrite !Forall_cons. split; [lia|]. split; intros [He' Hl]; [rewrite (H2' Hl), (Hp2 He')|rewrite (H3' Hl), (Hp3 He')]; lia. }
  split; [done|]. split; [done|]. split; [|done]. intros Hnc. rewrite (Hz Hnc) in Hle. lia.
Qed.

(** ** The outputs that a block has to pay *)

Definition pays (address : Address) (amount : Z) (output : Output) : Prop :=
  exists script, new_coinbase_script address = Ok script /\ output = mkOutput amount script.

Lemma multiset_remove_perm o l rest : multiset_remove o l = Some rest -> l ≡ₚ o :: rest.
Proof.
  revert rest. induction l as [|x l IH]; intros rest; cbn; [done|]. case_bool_decide as Hx.
  - intros [= ->]. by subst x.
  - intros (l' & Hl & ->)%fmap_Some. rewrite (IH _ Hl). apply Permutation_swap.
Qed.

Lemma take_expected_output_perm outs a amount rest :
  take_expected_output outs a amount = Ok (Some rest) -> exists out, pays a amount out /\ outs ≡ₚ out :: rest.
Proof.
  unfold take_expected_output. intros (script & Hs & Hr)%bind_Ok_inv. apply Ok_inj, multiset_remove_perm in Hr.
  exists (mkOutput amount script). split; [by exists script|done].
Qed.

Lemma take_disbursements_perm l outs d rest d' :
  foldM take_disbursement (outs, d) l = Ok (rest, d') ->
  exists paid, Forall2 (fun e out => pays e.1 e.2 out) l paid /\ outs ≡ₚ paid ++ rest /\ d' = d - sum_Z snd l.
Proof.
  revert outs d. induction l as [|[a amount] l IH]; intros outs d; cbn [foldM].
  { intros [= -> ->]. exists []. split; [constructor|]. cbn. split; [done|lia]. }
  intros ([rest1 d1] & Ht & (paid & Hp & Hperm & ->)%IH)%bind_Ok_inv. unfold take_disbursement in Ht.
  apply bind_Ok_inv in Ht as (r & Hr%lift_Ok & (r' & ->%ok_or_Ok & (d2 & Hd%unwrap_Ok & Ht)%bind_Ok_inv)%bind_Ok_inv).
  injection Ht as -> ->. apply take_expected_output_perm in Hr as (out & Hpay & Hout).
  exists (out :: paid). split; [by constructor|]. split; [by rewrite Hout, Hperm|].
  unfold amount_checked_sub in Hd. apply bind_Some in Hd as (v & [-> _]%checked_Some & Hv).
  destruct (amount_try_from_i64 NegativeAllowed (d - amount)) as [x| |] eqn:Hx; try done. injection Hv as ->.
  apply amount_try_from_Ok in Hx as [-> _]. cbn. lia.
Qed.

Lemma take_streams_perm height network l outs rest :
  foldM (take_stream height network) outs l = Ok rest ->
  exists paid, Forall2 (fun e out => exists a, funding_stream_address height network e.1 = Ok (Some a) /\ pays a e.2 out) l paid
    /\ outs ≡ₚ paid ++ rest.
Proof.
  revert outs. induction l as [|e l IH]; intros outs; cbn [foldM].
  { intros [= ->]. by exists []. }
  intros (rest1 & Ht & (paid & Hp & Hperm)%IH)%bind_Ok_inv. unfold take_stream in Ht.
  apply bind_Ok_inv in Ht as (oa & Ha%lift_Ok & (a & ->%ok_or_Ok & (r & Hr%lift_Ok & ->%ok_or_Ok)%bind_Ok_inv)%bind_Ok_inv).
  apply take_expected_output_perm in Hr as (out & Hpay & Hout). exists (out :: paid).
  split; [constructor; [by exists a|done]|]. by rewrite Hout, Hperm.
Qed.

(** C13. A block that is accepted before the third halving pays its dues: its
    coinbase has a separate output for every one-time lockbox disbursement and
    for every funding stream that is active at its height, each with the exact
    amount and to the script of the recipient; and the deferred pool changes by
    the deferred stream minus the disbursements. *)
Theorem accepted_block_pays network q now request sv :
  semantic_verify network q now request = Ok sv ->
  exists coinbase subsidy divisor,
    head (transactions (sv_block sv)) = Some coinbase
    /\ block_subsidy (sv_height sv) network = Ok subsidy /\ halving_divisor (sv_height sv) network = Ok divisor
    /\ (forall n, divisor = Some n -> n < 8 ->
        exists streams disbursements paid1 paid2 rest,
          funding_stream_values (sv_height sv) network subsidy = Ok streams
          /\ lockbox_disbursements network (sv_height sv) = Ok disbursements
          /\ Forall2 (fun e out => pays e.1 e.2 out) disbursements paid1
          /\ Forall2 (fun e out => exists a, funding_stream_address (sv_height sv) network e.1 = Ok (Some a)
                                   /\ pays a e.2 out) (map_to_list (delete DeferredReceiver streams)) paid2
          /\ outputs coinbase ≡ₚ paid1 ++ paid2 ++ rest
          /\ sv_deferred_pool_balance_change sv
             = Some (default 0 (streams !! DeferredReceiver) - sum_Z snd disbursements)).
Proof.
  unfold semantic_verify. intros (height & Hh%ok_or_Ok & Hv)%bind_Ok_inv. destruct (Height_MAX <? height); [done|].
  apply bind_Ok_inv in Hv as ([[cb subsidy] d] & Hchecks & Hv). apply bind_Ok_inv in Hv as (known & _ & Hv).
  apply bind_Ok_inv in Hv as ([n fees] & _ & Hv). destruct (MAX_BLOCK_SIGOPS <? n); [done|].
  apply bind_Ok_inv in Hv as (fs & _ & Hv). apply bind_Ok_inv in Hv as (u & _ & Hv).
  apply Ok_inj in Hv as <-. cbn [sv_block sv_height sv_deferred_pool_balance_change].
  apply block_checks_Ok in Hchecks as (Hsub & Hvalid & _ & rest & Htxs & _).
  unfold subsidy_is_valid in Hvalid. rewrite Hh, Htxs in *. cbn [ok_or head mbind res_bind] in Hvalid.
  apply bind_Ok_inv in Hvalid as (divisor & Hdiv%lift_Ok & Hvalid). exists cb, subsidy, divisor. do 3 (split; [done|]).
  intros k -> Hk. apply bind_Ok_inv in Hvalid as (canopy & _ & Hvalid).
  destruct (height <? slow_start_interval network), (negb (count_ones k =? 1)%nat), (height <? canopy); try done.
  rewrite (proj2 (Z.ltb_lt k 8) Hk) in Hvalid.
  apply bind_Ok_inv in Hvalid as (streams & Hs%map_err_Ok & Hvalid). apply bind_Ok_inv in Hvalid as (def & Hdef & Hvalid).
  apply (proj1 (expect_Ok _ _)), amount_try_from_Ok in Hdef as [-> _].
  apply bind_Ok_inv in Hvalid as (disb & Hdisb%lift_Ok & Hvalid).
  apply bind_Ok_inv in Hvalid as ([outs d'] & (paid1 & Hp1 & Hperm1 & ->)%take_disbursements_perm & Hvalid).
  apply bind_Ok_inv in Hvalid as (rest' & (paid2 & Hp2 & Hperm2)%take_streams_perm & Hvalid).
  apply Ok_inj in Hvalid as <-. exists streams, disb, paid1, paid2, rest'. do 4 (split; [done|]).
  split; [by rewrite Hperm1, Hperm2|done].
Qed.

(** ** The header binds the transactions *)

(** C32. Two accepted blocks with the same Merkle root in their headers have
    the same transaction ids in the same order, unless their Merkle trees show a
    collision of the hash function or a transaction id that is a hash of two
    nodes: the duplication of hashes that leaves the root unchanged is
    excluded. *)
Theorem header_binds_transactions network q now r1 r2 sv1 sv2 :
  semantic_verify network q now r1 = Ok sv1 -> semantic_verify network q now r2 = Ok sv2 ->
  merkle_root (block_header (sv_block sv1)) = merkle_root (block_header (sv_block sv2)) ->
  let l1 := sv_transaction_hashes sv1 in
  let l2 := sv_transaction_hashes sv2 in
  let pairs := tree_pairs merkle_hash (length l1) l1 ++ tree_pairs merkle_hash (length l2) l2 in
  (forall p q, p ∈ pairs -> q ∈ pairs -> merkle_hash p.1 p.2 = merkle_hash q.1 q.2 -> p = q) ->
  (forall p, p ∈ pairs -> merkle_hash p.1 p.2 ∉ l1 ++ l2) ->
  l1 = transaction_hash <$> transactions (sv_block sv1) /\ l2 = transaction_hash <$> transactions (sv_block sv2) /\ l1 = l2.
Proof.
  assert (forall r sv, semantic_verify network q now r = Ok sv ->
    sv_transaction_hashes sv = transaction_hash <$> transactions (sv_block sv)
    /\ NoDup (sv_transaction_hashes sv)
    /\ merkle_root_of merkle_hash (sv_transaction_hashes sv) = Ok (merkle_root (block_header (sv_block sv)))) as Hroot.
  { intros r sv. unfold semantic_verify. intros (height & Hh%ok_or_Ok & Hv)%bind_Ok_inv.
    destruct (Height_MAX <? height); [done|].
    apply bind_Ok_inv in Hv as ([[cb subsidy] d] & (_ & _ & Hm & _)%block_checks_Ok & Hv).
    apply bind_Ok_inv in Hv as (known & _ & Hv). apply bind_Ok_inv in Hv as ([n fees] & _ & Hv).
    destruct (MAX_BLOCK_SIGOPS <? n); [done|].
    apply bind_Ok_inv in Hv as (fs & _ & Hv). apply bind_Ok_inv in Hv as (u & _ & Hv). apply Ok_inj in Hv as <-.
    cbn [sv_transaction_hashes sv_block]. split; [done|]. unfold merkle_root_validity in Hm.
    apply bind_Ok_inv in Hm as (u' & _ & (root & Hroot%lift_Ok & Hm)%bind_Ok_inv).
    case_bool_decide as He; [|done]. cbn [negb] in Hm. rewrite He. split; [|done].
    apply check_Ok, negb_false_iff, Nat.eqb_eq in Hm. by apply list_to_set_size_NoDup. }
  intros (E1 & N1 & R1)%Hroot (E2 & N2 & R2)%Hroot Heq. cbn zeta. intros Hinj Hleaf.
  split; [done|]. split; [done|]. rewrite Heq in R1. by eapply merkle_root_binds.
Qed.
End Issuance.

(** * Examples *)
Module BlockExample.
#[local] Instance example_profile : BuildProfile := release_build.
#[local] Instance example_parser : AddressParser := fun _ => Some (PayToScriptHash TestnetKind []).
#[local] Instance example_primitives : TxPrimitives := {
  transaction_hash := fun tx => if is_crosslink tx then [Byte.x07] else [Byte.x05];
  transaction_auth_digest := fun _ => [];
  transaction_size := fun _ => 300;
  decrypts_successfully := fun _ _ _ => true;
  sighasher_ok := fun _ _ _ => true;
  verify_callback := fun _ _ _ _ _ _ _ _ => Ok tt;
  joinsplit_item := fun _ _ => Ok tt;
  verify_joinsplit_proof := fun _ _ => Ok tt;
  verify_joinsplit_sig := fun _ _ _ _ => Ok tt;
  sapling_bundle_check := fun _ _ _ => None;
  orchard_bundle_check := fun _ _ _ => None;
  legacy_sigop_count_script := fun _ => Ok 0
}.
#[local] Instance example_block_primitives : BlockPrimitives := {
  block_hash := fun _ => [Byte.x01];
  merkle_hash := fun a b => Byte.xff :: a ++ b;
  is_valid_solution := fun _ _ _ _ _ => true
}.

(** A network with NU6 from height 1 on, and a funding stream of 8 percent. *)
Definition grants : FundingStreams :=
  mkFundingStreams (10, 20)
    {[MajorGrants := mkFundingStreamRecipient 8 [PayToScriptHash TestnetKind [Byte.x11]];
      DeferredReceiver := mkFundingStreamRecipient 12 []]}.
Definition network : Network :=
  Testnet (mkParameters "Example" [] [] [(0, Genesis); (1, Nu6)] 0 0 [grants] (2 ^ 251) true true 1000 2000 []).
Definition queries : TxQueries :=
  mkTxQueries (fun _ => Err (BoxOther "timeout")) (fun _ => Ok None) (Ok 1000) (fun _ => Ok tt) None.

Definition staking : Transaction :=
  VCrosslink Nu6 (LockHeight 0) 0 [] [] None None
    (Some (mkStakingAction Transaction.Add 5 [] [] "" "")).
(** The subsidy of 6.25 ZEC is split: 0.5 ZEC to the grants, 0.75 ZEC deferred
    and the rest to the miner, who also takes [fees]. *)
Definition coinbase (fees : Z) : Transaction :=
  V5 Nu6 (LockHeight 0) 15 [Coinbase 15 [] u32_MAX]
    [mkOutput (500000000 + fees) []; mkOutput 50000000 (address_script (PayToScriptHash TestnetKind [Byte.x11]))] None None.
Definition header (root : bytes) : Header :=
  mkHeader 4 (zero_bytes 32) root (zero_bytes 32) 1000 0x1f07ffff (zero_bytes 32) Solution_for_proposal
    FatPointerToBftBlock_null.
Definition block : Block := mkBlock (header [Byte.xff; Byte.x05; Byte.x07]) [coinbase (100 * COIN); staking].

Definition verified : SemanticallyVerifiedBlock :=
  mkSemanticallyVerifiedBlock block [Byte.x01] 15
    {[mkOutPoint [Byte.x05] 0 := mkOrderedUtxo (mkUtxo (mkOutput (500000000 + 100 * COIN) []) 15 true) 0;
      mkOutPoint [Byte.x05] 1 := mkOrderedUtxo (mkUtxo (mkOutput 50000000 (address_script (PayToScriptHash TestnetKind [Byte.x11]))) 15 true) 0]}
    [[Byte.x05]; [Byte.x07]] (Some 75000000).

Lemma block_verified : semantic_verify network queries 1000 (CommitBlock block) = Ok verified.
Proof. vm_compute. reflexivity. Qed.

Lemma block_amounts : Forall tx_amounts_valid (transactions block).
Proof. repeat constructor; cbn; unfold MAX_MONEY, COIN; lia. Qed.

Lemma network_halving : halving_network network 1.
Proof. split; vm_compute; first [reflexivity | split; (discriminate || reflexivity)]. Qed.

(** The node has the staking transaction in its mempool. *)
Definition staking_unmined : UnminedTx := mkUnminedTx staking (unmined_id staking) 300 5000.
Definition staking_entry : VerifiedUnminedTx := mkVerifiedUnminedTx staking_unmined (100 * COIN) 0 1 0.
Definition mempool_queries : TxQueries :=
  mkTxQueries (fun _ => Err (BoxOther "timeout")) (fun _ => Ok None) (Ok 1000) (fun _ => Ok tt)
    (Some (mkMempoolQueries (fun hash => if bool_decide (hash = [Byte.x07]) then Some (staking_entry, []) else None)
             (fun _ => Err Elapsed))).

Lemma block_verified_from_mempool : semantic_verify network mempool_queries 1000 (CommitBlock block) = Ok verified.
Proof. vm_compute. reflexivity. Qed.
Lemma staking_verified : verify_transaction network queries (MempoolRequest staking_unmined 15) = Ok (MempoolResponse staking_entry []).
Proof. vm_compute. reflexivity. Qed.

Lemma block_accepted : accepted network (verified, ∅).
Proof.
  split; [exact block_amounts|]. exists mempool_queries, 1000, (CommitBlock block). split.
  { intros m tx v deps [= <-] Htx. cbn in Htx. rewrite !elem_of_cons, elem_of_nil in Htx.
    destruct Htx as [->|[->|[]]]; cbn; [done|]. intros [= <- _]. exists queries, staking_unmined, 15, [].
    split; [exact staking_verified|]. split; [done|]. split; [done|]. split; [done|]. intros s o _ Ho. by apply elem_of_nil in Ho. }
  split; [exact block_verified_from_mempool|]. intros tx o u Htx Ho. cbn in Htx. rewrite !elem_of_cons, elem_of_nil in Htx.
  destruct Htx as [->|[->|[]]]; cbn in Ho; by apply elem_of_nil in Ho.
Qed.

(** The staking transaction moves no value, and the coinbase takes 100 ZEC for
    it: the pools grow by 106.25 ZEC where the subsidy is 6.25 ZEC. *)
Lemma chain_supply_witness :
  exists pools, add_block_to_pools value_balance_zero (verified, ∅) = Ok pools
    /\ chain_total pools = 625000000 + 100 * COIN /\ block_subsidy 15 network = Ok 625000000.
Proof.
  assert (exists pools, add_block_to_pools value_balance_zero (verified, ∅) = Ok pools) as [pools Hp]
    by (eexists; vm_compute; reflexivity).
  exists pools. split; [exact Hp|]. split; [|vm_compute; reflexivity].
  destruct (chain_supply network 1 15 [(verified, ∅)] value_balance_zero pools network_halving) as (_ & Heq & _).
  - vm_compute. reflexivity.
  - lia.
  - vm_compute. discriminate.
  - constructor; [exact block_accepted|constructor].
  - reflexivity.
  - cbn [foldM]. rewrite Hp. reflexivity.
  - rewrite Heq; [vm_compute; reflexivity|]. constructor; [|constructor]. exists Nu6.
    split; [vm_compute; reflexivity|unfold nu_le; cbn; lia].
Defined.

Lemma accepted_block_pays_witness :
  exists streams paid rest, funding_stream_values 15 network 625000000 = Ok streams
    /\ outputs (coinbase (100 * COIN)) ≡ₚ paid ++ rest
    /\ Forall2 (fun e out => exists a, funding_stream_address 15 network e.1 = Ok (Some a) /\ pays a e.2 out)
         (map_to_list (delete DeferredReceiver streams)) paid
    /\ default 0 (streams !! DeferredReceiver) = 75000000.
Proof.
  destruct (accepted_block_pays network queries 1000 (CommitBlock block) verified block_verified)
    as (cb & subsidy & divisor & Hcb & Hsub & Hdiv & Hpays).
  cbn [sv_height verified] in *. injection Hcb as <-.
  assert (block_subsidy 15 network = Ok 625000000) as Hs by (vm_compute; reflexivity).
  rewrite Hs in Hsub. injection Hsub as <-.
  assert (halving_divisor 15 network = Ok (Some 1)) as Hd by (vm_compute; reflexivity).
  rewrite Hd in Hdiv. injection Hdiv as <-.
  destruct (Hpays 1 eq_refl ltac:(lia)) as (streams & disb & paid1 & paid2 & rest & Hf & Hl & Hp1 & Hp2 & Hperm & Hdef).
  assert (lockbox_disbursements network 15 = Ok []) as Hl' by (vm_compute; reflexivity).
  rewrite Hl' in Hl. injection Hl as <-. apply Forall2_nil_inv_l in Hp1 as ->. cbn in Hdef. injection Hdef as Hdef.
  exists streams, paid2, rest. split; [exact Hf|]. split; [exact Hperm|]. split; [exact Hp2|]. unfold id in *. lia.
Defined.

Lemma header_binds_transactions_witness :
  exists sv, semantic_verify network queries 1000 (CheckProposal block) = Ok sv
    /\ sv_transaction_hashes sv = [[Byte.x05]; [Byte.x07]].
Proof.
  assert (semantic_verify network queries 1000 (CheckProposal block) = Ok verified) as Hv by (vm_compute; reflexivity).
  exists verified. split; [exact Hv|].
  destruct (header_binds_transactions network queries 1000 (CheckProposal block) (CommitBlock block) verified verified
    Hv block_verified eq_refl) as (_ & -> & _); [..|reflexivity].
  - intros p q Hp Hq _. change (tree_pairs merkle_hash _ _) with [([Byte.x05], [Byte.x07])] in Hp, Hq.
    cbn in Hp, Hq. rewrite !elem_of_cons, elem_of_nil in Hp, Hq.
    destruct Hp as [->|[->|[]]], Hq as [->|[->|[]]]; reflexivity.
  - intros p Hp. change (tree_pairs merkle_hash _ _) with [([Byte.x05], [Byte.x07])] in Hp.
    cbn in Hp. rewrite !elem_of_cons, elem_of_nil in Hp.
    apply (bool_decide_unpack _). destruct Hp as [->|[->|[]]]; vm_compute; exact I.
Defined.
End BlockExample.
