(* ===== verification/CheckpointVerifier.v ===== *)
(** Verification of blocks by checkpoints
    ([zebra-consensus/src/checkpoint.rs], [checkpoint/list.rs],
    [checkpoint/types.rs]) and the choice between the two block verifiers
    ([zebra-consensus/src/router.rs]).

    The result channel of a queued block is a number; [answers] is the log of
    the results that were sent, in order. The reset channel is the list of the
    tips that were sent and not received yet. The tasks that wait for a result
    and commit the block to the state are the definition [finish_request]. The
    hard-coded lists of checkpoints and their parser are not modelled: the list
    of the default networks is an argument. *)
From S2P Require Import Prelude BTreeMap Height Amount FundingStreams NetworkUpgrade Subsidy BlockHeader Transaction ContextChecks TransactionVerifier BlockVerifier.
From stdpp Require Import strings gmap prelude sorting.
From Stdlib Require Import ZArith Lia.
#[local] Open Scope Z_scope.
Import VerifyError.

(** * Ranges of a [BTreeMap] *)

Inductive Bound : Type := Unbounded | Included (k : Z) | Excluded (k : Z).
Definition after_start (start : Bound) (k : Z) : bool :=
  match start with Unbounded => true | Included a => a <=? k | Excluded a => a <? k end.
Definition before_end (stop : Bound) (k : Z) : bool :=
  match stop with Unbounded => true | Included b => k <=? b | Excluded b => k <? b end.
(** [BTreeMap::range] panics when the start is above the end, or both exclude
    the same key. *)
Definition range_panics (start stop : Bound) : bool :=
  match start, stop with
  | Excluded a, Excluded b => b <=? a
  | Included a, Included b | Included a, Excluded b | Excluded a, Included b => b <? a
  | _, _ => false
  end.
Definition bt_bounds {V} (start stop : Bound) (m : btree V) : outcome (btree V) :=
  if range_panics start stop then Panic
  else Ok (filter (fun e => after_start start e.1 && before_end stop e.1 = true) m).

(** * Checkpoint lists *)

(** [Iterator::rposition]: the index of the last match. *)
Fixpoint rposition {A} (p : A -> bool) (l : list A) : option nat :=
  match l with
  | [] => None
  | a :: l' => match rposition p l' with Some i => Some (S i) | None => if p a then Some 0%nat else None end
  end.

Abbreviation CheckpointList := (btree bytes).

Section CheckpointList.
Implicit Types l : CheckpointList.

Definition min_height_in_range l (start stop : Bound) : outcome (option Z) :=
  m ← bt_bounds start stop l; Ok (fst <$> head m).
Definition max_height_in_range l (start stop : Bound) : outcome (option Z) :=
  m ← bt_bounds start stop l; Ok (fst <$> last m).
Definition max_height l : outcome Z := h ← max_height_in_range l Unbounded Unbounded; unwrap h.

Definition from_list (list : list (Z * bytes)) : res string CheckpointList :=
  let original_len := length list in
  let checkpoints : CheckpointList := bt_from_list list in
  _ ← match head checkpoints with
      | Some (height, _) =>
          if height =? 0 then Ok tt else Err "checkpoints must start at the genesis block height 0"%string
      | None => Err "there must be at least one checkpoint, for the genesis block"%string
      end;
  if negb (length checkpoints =? original_len)%nat then Err "checkpoint heights must be unique"%string
  else
    let block_hashes : gset bytes := list_to_set (snd <$> checkpoints) in
    if negb (size block_hashes =? original_len)%nat then Err "checkpoint hashes must be unique"%string
    else if bool_decide (zero_bytes 32 ∈ block_hashes)
    then Err "checkpoint list contains invalid checkpoint hash: found null hash"%string
    else
      max ← lift (max_height checkpoints);
      if Height_MAX <? max
      then Err "checkpoint list contains invalid checkpoint: checkpoint height is greater than the maximum block height"%string
      else Ok checkpoints.

Definition cl_contains l (height : Z) : bool := bool_decide (is_Some (bt_get height l)).
Definition cl_hash l (height : Z) : option bytes := bt_get height l.
Definition prev_checkpoint_index l (height : Z) : outcome nat := unwrap (rposition (fun e => e.1 <=? height) l).
End CheckpointList.

(** The list of a network: a configured test network has its genesis block as
    the only checkpoint. *)
Definition network_checkpoint_list `{BuildProfile} `{!AddressParser} (hard_coded : CheckpointList) (network : Network) : outcome CheckpointList :=
  match network with
  | Mainnet => Ok hard_coded
  | Testnet p =>
      default_testnet ← is_default_testnet p;
      if (default_testnet : bool) then Ok hard_coded else expect (from_list [(0, genesis_hash_ p)])
  end.

(** * Progress and targets *)

Inductive Progress (A : Type) : Type := BeforeGenesis | InitialTip (a : A) | PreviousCheckpoint (a : A) | FinalCheckpoint.
Arguments BeforeGenesis {A}.
Arguments InitialTip {A} a.
Arguments PreviousCheckpoint {A} a.
Arguments FinalCheckpoint {A}.
#[export] Instance Progress_eq_dec {A} `{EqDecision A} : EqDecision (Progress A).
Proof. solve_decision. Defined.

Definition progress_cmp (self other : Progress Z) : comparison :=
  if bool_decide (self = other) then Eq
  else
    match self, other with
    | BeforeGenesis, _ => Lt
    | _, BeforeGenesis => Gt
    | FinalCheckpoint, _ => Gt
    | _, FinalCheckpoint => Lt
    | InitialTip a, InitialTip b | InitialTip a, PreviousCheckpoint b
    | PreviousCheckpoint a, InitialTip b | PreviousCheckpoint a, PreviousCheckpoint b => a ?= b
    end.
Definition progress_height (p : Progress Z) : option Z :=
  match p with InitialTip height | PreviousCheckpoint height => Some height | _ => None end.

Module Target.
Inductive TargetHeight : Type := WaitingForBlocks | Checkpoint (height : Z) | FinishedVerifying.
#[export] Instance TargetHeight_eq_dec : EqDecision TargetHeight.
Proof. solve_decision. Defined.
Definition target_partial_cmp (self other : TargetHeight) : option comparison :=
  match self, other with
  | FinishedVerifying, FinishedVerifying => Some Eq
  | FinishedVerifying, _ => Some Gt
  | _, FinishedVerifying => Some Lt
  | Checkpoint a, Checkpoint b => Some (a ?= b)
  | WaitingForBlocks, WaitingForBlocks => Some Eq
  | _, _ => None
  end.
End Target.
Import Target.

(** * Errors *)

Module CpError.
Inductive VerifyCheckpointError : Type :=
| Finished
| TooHigh (height max_height : Z)
| AlreadyVerified (height verified_height : Z)
| NewerRequest (height : Z) (hash : bytes)
| NoCoinbaseHeight (hash : bytes)
| BadMerkleRoot (actual expected : bytes)
| DuplicateTransaction
| Dropped
| CommitCheckpointVerified (e : BoxError)
| TipError (e : BoxError)
| CheckpointListError (e : BoxError)
| VerifyBlock (e : VerifyBlockError)
| CpSubsidyError (e : SubsidyError)
| CpAmountError (e : amount_Error)
| QueuedLimit
| UnexpectedSideChain (expected found : bytes)
| ShuttingDown.

Definition is_duplicate_request (e : VerifyCheckpointError) : bool :=
  match e with
  | AlreadyVerified _ _ | NewerRequest _ _ => true
  | VerifyBlock block_error => VerifyError.is_duplicate_request block_error
  | _ => false
  end.
Definition misbehavior_score (e : VerifyCheckpointError) : Z :=
  match e with
  | VerifyBlock verify_block_error => VerifyError.misbehavior_score verify_block_error
  | CpSubsidyError _ | NoCoinbaseHeight _ | DuplicateTransaction | CpAmountError _ => 100
  | _ => 0
  end.
End CpError.
Abbreviation VerifyCheckpointError := CpError.VerifyCheckpointError.
Import CpError.

(** * The verifier *)

Record QueuedBlock := mkQueuedBlock { qb_block : SemanticallyVerifiedBlock; qb_tx : nat }.
Record RequestBlock := mkRequestBlock { rb_block : SemanticallyVerifiedBlock; rb_rx : nat }.
Abbreviation QueuedBlockList := (list QueuedBlock).
Definition MAX_QUEUED_BLOCKS_PER_HEIGHT : nat := 4.

Record CheckpointVerifier := mkCheckpointVerifier {
  checkpoint_list : CheckpointList;
  cp_network : Network;
  initial_tip_hash : option bytes;
  queued : btree QueuedBlockList;
  verifier_progress : Progress Z;
  reset_requests : list (option (Z * bytes));
  next_channel : nat;
  answers : list (nat * res VerifyCheckpointError bytes)
}.

Section Verifier.
Context `{!TxPrimitives} `{!BlockPrimitives} `{!AddressParser} `{BuildProfile}.
Implicit Types (v : CheckpointVerifier) (b : SemanticallyVerifiedBlock) (qb : QueuedBlock).

Definition with_queued v queued : CheckpointVerifier :=
  mkCheckpointVerifier (checkpoint_list v) (cp_network v) (initial_tip_hash v) queued (verifier_progress v)
    (reset_requests v) (next_channel v) (answers v).
Definition with_progress v initial_tip_hash progress : CheckpointVerifier :=
  mkCheckpointVerifier (checkpoint_list v) (cp_network v) initial_tip_hash (queued v) progress
    (reset_requests v) (next_channel v) (answers v).
Definition with_resets v resets : CheckpointVerifier :=
  mkCheckpointVerifier (checkpoint_list v) (cp_network v) (initial_tip_hash v) (queued v) (verifier_progress v)
    resets (next_channel v) (answers v).
(** [oneshot::channel()]. *)
Definition new_channel v : CheckpointVerifier * nat :=
  (mkCheckpointVerifier (checkpoint_list v) (cp_network v) (initial_tip_hash v) (queued v) (verifier_progress v)
     (reset_requests v) (S (next_channel v)) (answers v), next_channel v).
Definition send v (tx : nat) (result : res VerifyCheckpointError bytes) : CheckpointVerifier :=
  mkCheckpointVerifier (checkpoint_list v) (cp_network v) (initial_tip_hash v) (queued v) (verifier_progress v)
    (reset_requests v) (next_channel v) (answers v ++ [(tx, result)]).

(** ** Progress *)

Definition progress_from_tip (l : CheckpointList) (tip : option (Z * bytes)) : outcome (option bytes * Progress Z) :=
  match tip with
  | Some (height, hash) =>
      max ← max_height l;
      Ok (if max <=? height then (None, FinalCheckpoint) else (Some hash, InitialTip height))
  | None => Ok (None, BeforeGenesis)
  end.

(** The diagnostics of a verified height look up its checkpoint. *)
Definition verified_checkpoint_diagnostics v (verified_height : option Z) : outcome unit :=
  match verified_height with
  | None => Ok tt
  | Some height => _ ← prev_checkpoint_index (checkpoint_list v) height; Ok tt
  end.
(** The diagnostics of a queued block read the largest queued height. *)
Definition queued_block_diagnostics v : outcome unit := _ ← unwrap (last (queued v)); Ok tt.

Definition from_checkpoint_list (l : CheckpointList) (network : Network) (initial_tip : option (Z * bytes))
    : outcome CheckpointVerifier :=
  '(initial_tip_hash, verifier_progress) ← progress_from_tip l initial_tip;
  let v := mkCheckpointVerifier l network initial_tip_hash [] verifier_progress [] 0 [] in
  _ ← (if bool_decide (verifier_progress = FinalCheckpoint) then Ok tt
       else verified_checkpoint_diagnostics v (progress_height verifier_progress));
  Ok v.

Definition reset_progress v (tip : option (Z * bytes)) : outcome CheckpointVerifier :=
  '(initial_tip_hash, verifier_progress) ← progress_from_tip (checkpoint_list v) tip;
  let v := with_progress v initial_tip_hash verifier_progress in
  _ ← verified_checkpoint_diagnostics v (progress_height verifier_progress);
  Ok v.

Definition current_start_bound v : option Bound :=
  match verifier_progress v with
  | BeforeGenesis => Some Unbounded
  | InitialTip height | PreviousCheckpoint height => Some (Excluded height)
  | FinalCheckpoint => None
  end.

(** The end of the continuous heights from [pending_height] on. *)
Fixpoint continuous (pending_height : Z) (l : btree QueuedBlockList) : outcome Z :=
  match l with
  | [] => Ok pending_height
  | (height, _) :: l =>
      next ← arith_u 32 (pending_height + 1);
      if height =? next then continuous height l
      else _ ← arith_u 32 (height - pending_height); Ok pending_height
  end.

Definition target_checkpoint_height v : outcome TargetHeight :=
  let search start_height :=
    l ← bt_bounds (Excluded start_height) Unbounded (queued v);
    pending_height ← continuous start_height l;
    start ← unwrap (current_start_bound v);
    target_checkpoint ← max_height_in_range (checkpoint_list v) start (Included pending_height);
    Ok (match target_checkpoint with Some height => Checkpoint height | None => WaitingForBlocks end) in
  match verifier_progress v with
  | BeforeGenesis => if bool_decide (bt_get 0 (queued v) = None) then Ok WaitingForBlocks else search 0
  | InitialTip height | PreviousCheckpoint height => search height
  | FinalCheckpoint => Ok FinishedVerifying
  end.

Definition previous_checkpoint_hash v : outcome (Progress bytes) :=
  match verifier_progress v with
  | BeforeGenesis => Ok BeforeGenesis
  | InitialTip _ => hash ← unwrap (initial_tip_hash v); Ok (InitialTip hash)
  | PreviousCheckpoint height => hash ← unwrap (cl_hash (checkpoint_list v) height); Ok (PreviousCheckpoint hash)
  | FinalCheckpoint => Ok FinalCheckpoint
  end.

Definition check_height v (height : Z) : res VerifyCheckpointError unit :=
  max ← lift (max_height (checkpoint_list v));
  if max <? height then Err (TooHigh height max)
  else
    match verifier_progress v with
    | BeforeGenesis => Ok tt
    | InitialTip previous_height | PreviousCheckpoint previous_height =>
        if height <=? previous_height then Err (AlreadyVerified height previous_height) else Ok tt
    | FinalCheckpoint => Err Finished
    end.

Definition update_progress v (verified_height : Z) : outcome CheckpointVerifier :=
  match check_height v verified_height with
  | Panic => Panic
  | Err _ => Ok v
  | Ok _ =>
      max ← max_height (checkpoint_list v);
      if verified_height =? max then
        let v := with_progress v (initial_tip_hash v) FinalCheckpoint in
        _ ← verified_checkpoint_diagnostics v (Some verified_height); Ok v
      else if cl_contains (checkpoint_list v) verified_height then
        let v := with_progress v None (PreviousCheckpoint verified_height) in
        _ ← verified_checkpoint_diagnostics v (Some verified_height); Ok v
      else Ok v
  end.

(** ** Queueing *)

Definition CheckpointVerifiedBlock_new (block : Block) (hash : bytes) (deferred_pool_balance_change : option Z)
    : outcome SemanticallyVerifiedBlock :=
  height ← unwrap (coinbase_height block);
  let transaction_hashes := transaction_hash <$> transactions block in
  new_outputs ← new_ordered_outputs block transaction_hashes;
  Ok (mkSemanticallyVerifiedBlock block hash height new_outputs transaction_hashes deferred_pool_balance_change).

Definition check_block v (block : Block) : res VerifyCheckpointError SemanticallyVerifiedBlock :=
  let hash := block_hash (block_header block) in
  let network := cp_network v in
  height ← ok_or (coinbase_height block) (NoCoinbaseHeight hash);
  _ ← check_height v height;
  _ ← (if disable_pow network then
         _ ← map_err (fun e => VerifyBlock (VBlock e)) (difficulty_threshold_is_valid (block_header block) network height hash);
         Ok tt
       else
         _ ← map_err (fun e => VerifyBlock (VBlock e)) (difficulty_is_valid (block_header block) network height hash);
         valid ← lift (equihash_solution_is_valid (block_header block));
         if (valid : bool) then Ok tt else Err (VerifyBlock Equihash));
  expected_deferred_amount ←
    (if slow_start_interval network <? height then
       subsidy ← map_err CpSubsidyError (block_subsidy height network);
       values ← map_err CpAmountError (funding_stream_values height network subsidy);
       Ok ((values : gmap FundingStreamReceiver Z) !! DeferredReceiver)
     else Ok None);
  total ← lift (lockbox_disbursement_total_amount network height);
  zero ← lift (amount_zero NonNegative);
  let deferred_pool_balance_change := amount_checked_sub (default zero expected_deferred_amount) total in
  b ← lift (CheckpointVerifiedBlock_new block hash deferred_pool_balance_change);
  _ ← map_err (fun e => VerifyBlock (VBlock e)) (merkle_root_validity network block (sv_transaction_hashes b));
  Ok b.

(** The first block with the hash is replaced; the result has its channel. *)
Fixpoint replace_queued (new_qblock : QueuedBlock) (qblocks : QueuedBlockList) : option (QueuedBlockList * nat) :=
  match qblocks with
  | [] => None
  | qb :: rest =>
      if bool_decide (sv_hash (qb_block qb) = sv_hash (qb_block new_qblock)) then Some (new_qblock :: rest, qb_tx qb)
      else '(rest, old) ← replace_queued new_qblock rest; Some (qb :: rest, old)
  end.

Definition queue_block v (block : Block) : outcome (CheckpointVerifier * res VerifyCheckpointError RequestBlock) :=
  let '(v, tx) := new_channel v in
  match check_block v block with
  | Panic => Panic
  | Err e => Ok (v, Err e)
  | Ok b =>
      let height := sv_height b in
      let new_qblock := mkQueuedBlock b tx in
      let req_block := mkRequestBlock b tx in
      let qblocks := default [] (bt_get height (queued v)) in
      match replace_queued new_qblock qblocks with
      | Some (qblocks, old) =>
          let v := with_queued v (bt_insert height qblocks (queued v)) in
          Ok (send v old (Err (NewerRequest height (sv_hash b))), Ok req_block)
      | None =>
          if (MAX_QUEUED_BLOCKS_PER_HEIGHT <=? length qblocks)%nat then Ok (v, Err QueuedLimit)
          else
            let v := with_queued v (bt_insert height (qblocks ++ [new_qblock]) (queued v)) in
            _ ← queued_block_diagnostics v;
            Ok (v, Ok req_block)
      end
  end.

(** ** Verifying a range *)

(** The loop over the blocks at one height. *)
Definition process_qblock (expected_hash : bytes) (acc : CheckpointVerifier * option QueuedBlock) qb
    : outcome (CheckpointVerifier * option QueuedBlock) :=
  let '(v, valid_qblock) := acc in
  if bool_decide (sv_hash (qb_block qb) = expected_hash) then
    match valid_qblock with None => Ok (v, Some qb) | Some _ => Panic end
  else Ok (send v (qb_tx qb) (Err (UnexpectedSideChain expected_hash (sv_hash (qb_block qb)))), valid_qblock).

Definition process_height v (height : Z) (expected_hash : bytes) : outcome (CheckpointVerifier * option QueuedBlock) :=
  qblocks ← unwrap (bt_get height (queued v));
  let v := with_queued v (bt_remove height (queued v)) in
  _ ← assert_ (negb (bool_decide (qblocks = [])));
  _ ← match cl_hash (checkpoint_list v) height with
      | Some checkpoint_hash => assert_ (bool_decide (expected_hash = checkpoint_hash))
      | None => Ok tt
      end;
  foldM (process_qblock expected_hash) (v, None) qblocks.

(** The loop over the heights of the range, from the target down. The valid
    blocks are collected in chain order; the last component is the parent hash
    of the lowest one, or [None] if a height had no valid block. *)
Fixpoint process_heights v (expected_hash : bytes) (valid_blocks : list QueuedBlock) (range_heights : list Z)
    : outcome (CheckpointVerifier * list QueuedBlock * option bytes) :=
  match range_heights with
  | [] => Ok (v, valid_blocks, Some expected_hash)
  | current_height :: range_heights =>
      '(v, valid_qblock) ← process_height v current_height expected_hash;
      match valid_qblock with
      | Some qb =>
          process_heights v (previous_block_hash (block_header (sv_block (qb_block qb)))) (qb :: valid_blocks) range_heights
      | None => Ok (v, valid_blocks, None)
      end
  end.

Definition put_back v qb : CheckpointVerifier :=
  let height := sv_height (qb_block qb) in
  with_queued v (bt_insert height (default [] (bt_get height (queued v)) ++ [qb]) (queued v)).

(** The assertions after a range was verified. *)
Definition check_progress v (old_progress : Progress Z) (target_checkpoint_height' : Z) : outcome unit :=
  let new_progress := verifier_progress v in
  _ ← assert_ (bool_decide (progress_cmp new_progress old_progress = Gt));
  _ ← (if bool_decide (new_progress = FinalCheckpoint)
       then max ← max_height (checkpoint_list v); assert_ (target_checkpoint_height' =? max)
       else assert_ (bool_decide (new_progress = PreviousCheckpoint target_checkpoint_height')));
  new_target ← target_checkpoint_height v;
  assert_ (bool_decide (new_target = WaitingForBlocks) || bool_decide (new_target = FinishedVerifying)).

Definition process_range v (previous_hash : bytes) (target : Z) : outcome CheckpointVerifier :=
  expected_hash ← unwrap (cl_hash (checkpoint_list v) target);
  start ← unwrap (current_start_bound v);
  range ← bt_bounds start (Included target) (queued v);
  '(v', valid_blocks, parent_hash) ← process_heights v expected_hash [] (reverse (fst <$> range));
  match parent_hash with
  | None =>
      let v' := foldl put_back v' valid_blocks in
      _ ← assert_ (bool_decide (verifier_progress v' = verifier_progress v));
      current_target ← target_checkpoint_height v';
      _ ← assert_ (bool_decide (current_target = WaitingForBlocks)
                   || bool_decide (target_partial_cmp current_target (Checkpoint target) = Some Lt));
      Ok v'
  | Some parent_hash =>
      _ ← assert_ (bool_decide (parent_hash = previous_hash));
      let v' := foldl (fun v qb => send v (qb_tx qb) (Ok (sv_hash (qb_block qb)))) v' valid_blocks in
      v' ← update_progress v' target;
      _ ← check_progress v' (verifier_progress v) target;
      Ok v'
  end.

Definition process_checkpoint_range v : outcome CheckpointVerifier :=
  previous ← previous_checkpoint_hash v;
  let continue previous_hash :=
    target ← target_checkpoint_height v;
    match target with
    | Checkpoint target => process_range v previous_hash target
    | WaitingForBlocks => Ok v
    | FinishedVerifying => Panic
    end in
  match previous with
  | BeforeGenesis => continue GENESIS_PREVIOUS_BLOCK_HASH
  | InitialTip hash | PreviousCheckpoint hash => continue hash
  | FinalCheckpoint => Ok v
  end.

(** ** [Service::call] and [Drop::drop] *)

Definition checkpoint_call v (block : Block) : outcome (CheckpointVerifier * res VerifyCheckpointError RequestBlock) :=
  v ← match reset_requests v with
      | tip :: resets => reset_progress (with_resets v resets) tip
      | [] => Ok v
      end;
  if bool_decide (verifier_progress v = FinalCheckpoint) then Ok (v, Err Finished)
  else
    '(v, req_block) ← queue_block v block;
    match req_block with
    | Ok req_block => v ← process_checkpoint_range v; Ok (v, Ok req_block)
    | _ => Ok (v, req_block)
    end.

Definition checkpoint_drop v : CheckpointVerifier :=
  foldl (fun v qb => send v (qb_tx qb) (Err Dropped)) (with_queued v []) (concat (snd <$> queued v)).

(** The state service, for the tasks of a request. *)
Record CheckpointQueries := mkCheckpointQueries {
  commit_checkpoint_verified_block : SemanticallyVerifiedBlock -> res BoxError bytes;
  state_tip : res BoxError (option (Z * bytes))
}.
(** What the tasks of a request do once its result is there: the response, and
    the tip that the verifier is reset to. *)
Definition finish_request (q : CheckpointQueries) (shutting_down : bool) b (result : res VerifyCheckpointError bytes)
    : outcome (res VerifyCheckpointError bytes * option (option (Z * bytes))) :=
  let committed :=
    hash ← result;
    committed_hash ← map_err CommitCheckpointVerified (commit_checkpoint_verified_block q b);
    _ ← assert_ (bool_decide (committed_hash = hash));
    Ok hash in
  match (if shutting_down then Err ShuttingDown else committed) with
  | Panic => Panic
  | Ok hash => Ok (Ok hash, None)
  | Err e =>
      match state_tip q with
      | Panic => Panic
      | Err tip_error => Ok (Err (TipError tip_error), None)
      | Ok tip => Ok (Err e, Some tip)
      end
  end.
(** [reset_sender.send(tip)]. *)
Definition request_reset v (tip : option (Z * bytes)) : CheckpointVerifier := with_resets v (reset_requests v ++ [tip]).

(** * The router *)

Inductive RouterError : Type := RouterCheckpoint (source : VerifyCheckpointError) | RouterBlock (source : VerifyBlockError).
Definition router_is_duplicate_request (e : RouterError) : bool :=
  match e with
  | RouterCheckpoint source => CpError.is_duplicate_request source
  | RouterBlock source => VerifyError.is_duplicate_request source
  end.
Definition router_misbehavior_score (e : RouterError) : Z :=
  match e with
  | RouterCheckpoint source => CpError.misbehavior_score source
  | RouterBlock source => VerifyError.misbehavior_score source
  end.

(** A response of the router is there at once, or a checkpoint request waits
    for its channel. *)
Inductive RouterResponse : Type := Respond (r : res RouterError bytes) | WaitForCheckpoint (r : RequestBlock).
Definition router_call (network : Network) (q : TxQueries) (bq : BlockQueries) (now : Z) (max_checkpoint_height : Z) v
    (request : BlockVerifierRequest) : outcome (CheckpointVerifier * RouterResponse) :=
  let semantic := match map_err RouterBlock (verify_block network q bq now request) with
                  | Panic => Panic
                  | r => Ok (v, Respond r)
                  end in
  match coinbase_height (request_block request) with
  | Some height =>
      if (height <=? max_checkpoint_height) && is_proposal request
      then Ok (v, Respond (Err (RouterBlock (ValidateProposal (BoxOther "block proposals must be above checkpoint height")))))
      else if height <=? max_checkpoint_height then
        '(v, r) ← checkpoint_call v (request_block request);
        match r with
        | Ok req_block => Ok (v, WaitForCheckpoint req_block)
        | Err e => Ok (v, Respond (Err (RouterCheckpoint e)))
        | Panic => Panic
        end
      else semantic
  | None => semantic
  end.

Definition init_checkpoint_list (hard_coded : CheckpointList) (checkpoint_sync : bool) (network : Network)
    : outcome (CheckpointList * Z) :=
  list ← network_checkpoint_list hard_coded network;
  max_checkpoint_height ←
    (if checkpoint_sync then max_height list
     else
       mandatory ← mandatory_checkpoint_height network;
       h ← min_height_in_range list (Included mandatory) Unbounded;
       unwrap h);
  Ok (list, max_checkpoint_height).
End Verifier.

(** * Ordered maps *)

Section Maps.
Context {V : Type}.
Implicit Types (m : btree V) (k : Z).

Lemma bt_get_filter_keys (P : Z -> bool) m k :
  bt_get k (filter (fun e => P e.1 = true) m) = if P k then bt_get k m else None.
Proof.
  induction m as [|[k' x] m IH]; [by destruct (P k)|]. rewrite filter_cons. cbn [bt_get fst].
  case_decide as Hk; cbn [bt_get]; rewrite IH; destruct (Z.eqb_spec k k') as [->|]; try done.
  - by rewrite Hk.
  - by destruct (P k').
Qed.

Lemma bt_get_remove_any k k' m : bt_get k' (bt_remove k m) = if k' =? k then None else bt_get k' m.
Proof.
  induction m as [|[k2 x] m IH]; [by destruct (k' =? k)|]. unfold bt_remove in *. rewrite filter_cons. cbn [bt_get fst].
  case_decide as Hk; cbn [bt_get]; rewrite IH; destruct (Z.eqb_spec k' k2) as [->|]; try done.
  - by rewrite (proj2 (Z.eqb_neq _ _)).
  - subst k2. by rewrite Z.eqb_refl.
Qed.

Lemma bt_remove_entries k x m : bt_sorted m -> bt_get k m = Some x -> m ≡ₚ (k, x) :: bt_remove k m.
Proof.
  intros Hs Hk. apply (bt_get_elem k x m Hs) in Hk. induction m as [|[k' x'] m IH]; [by apply elem_of_nil in Hk|].
  apply bt_sorted_cons in Hs as Hs'. destruct Hs' as [Hs' Hf]. apply elem_of_cons in Hk as [[= <- <-]|Hin].
  - by rewrite bt_remove_first.
  - rewrite Forall_forall in Hf. specialize (Hf _ Hin). cbn in Hf. unfold bt_remove. rewrite filter_cons_True by (cbn; lia).
    fold (bt_remove k m). rewrite (IH Hs' Hin) at 1. constructor.
Qed.

Lemma bt_insert_entries k x m : bt_sorted m -> bt_insert k x m ≡ₚ (k, x) :: bt_remove k m.
Proof.
  intros Hs. rewrite (bt_remove_entries k x (bt_insert k x m)); [|auto|by rewrite bt_get_insert, Z.eqb_refl].
  constructor. assert (bt_remove k (bt_insert k x m) = bt_remove k m) as ->; [|done].
  apply bt_ext; [apply bt_filter_sorted; auto|by apply bt_filter_sorted|]. intros e. rewrite !bt_remove_elem, bt_insert_elem by done.
  split; [intros [? [->|[? _]]]; done|intros [? ?]; auto].
Qed.

Lemma bt_last_in (P : Z -> bool) m : bt_sorted m ->
  match fst <$> last (filter (fun e => P e.1 = true) m) with
  | Some c => is_Some (bt_get c m) /\ P c = true /\ forall k, is_Some (bt_get k m) -> P k = true -> k <= c
  | None => forall k, is_Some (bt_get k m) -> P k = false
  end.
Proof.
  intros Hs. destruct (last (filter _ m)) as [[c x]|] eqn:Hl; cbn [fmap option_fmap option_map fst].
  - apply last_Some in Hl as [l Hl]. assert ((c, x) ∈ filter (fun e => P e.1 = true) m) as Hin by (rewrite Hl; set_solver).
    apply list_elem_of_filter in Hin as [HP Hin]. split; [|split; [done|]].
    { exists x. by apply bt_get_elem. }
    intros k [y Hk] HPk. apply (bt_get_elem k y m Hs) in Hk.
    assert ((k, y) ∈ filter (fun e => P e.1 = true) m) as Hk' by by apply list_elem_of_filter.
    pose proof (bt_filter_sorted (fun e => P e.1 = true) m Hs) as Hsf. rewrite Hl in Hk', Hsf.
    apply bt_sorted_app in Hsf as (_ & _ & Hlt). apply elem_of_app in Hk' as [Hk'|Hk'].
    + specialize (Hlt (k, y) (c, x) Hk' (list_elem_of_here _ _)). cbn in Hlt. lia.
    + apply list_elem_of_singleton in Hk' as [= -> _]. lia.
  - apply last_None in Hl. intros k [y Hk]. apply (bt_get_elem k y m Hs) in Hk. apply not_true_is_false. intros HP.
    assert ((k, y) ∈ filter (fun e => P e.1 = true) m) as Hk' by by apply list_elem_of_filter. rewrite Hl in Hk'. by apply elem_of_nil in Hk'.
Qed.

(** The heights from [t] down, [n] of them. *)
Fixpoint heights_down (t : Z) (n : nat) : list Z := match n with O => [] | S n => t :: heights_down (t - 1) n end.
Lemma elem_of_heights_down t n h : h ∈ heights_down t n <-> t - Z.of_nat n < h <= t.
Proof.
  revert t. induction n as [|n IH]; intros t; cbn [heights_down].
  { rewrite elem_of_nil. lia. }
  rewrite elem_of_cons, IH. lia.
Qed.

Lemma keys_heights_down m lo t : bt_sorted m -> lo <= t -> (forall h, lo < h <= t -> is_Some (bt_get h m)) ->
  reverse (filter (fun e => (lo <? e.1) && (e.1 <=? t) = true) m).*1 = heights_down t (Z.to_nat (t - lo)).
Proof.
  intros Hs Hle Hall. rewrite <- (reverse_involutive (heights_down _ _)). f_equal.
  assert (forall l1 l2 : list Z, StronglySorted Z.lt l1 -> StronglySorted Z.lt l2 -> (forall k, k ∈ l1 <-> k ∈ l2) -> l1 = l2) as Hext.
  { intros l1 l2 H1 H2 He. apply (inj (fmap (fun k => (k, tt)))). apply bt_ext.
    1,2: unfold bt_sorted; apply (StronglySorted_fmap _ Z.lt); done.
    intros [k []]. rewrite !list_elem_of_fmap. setoid_rewrite He. done. }
  apply Hext.
  - pose proof (bt_filter_sorted (fun e => (lo <? e.1) && (e.1 <=? t) = true) m Hs) as Hf.
    unfold bt_sorted in Hf. induction Hf as [|e l Hf IH Hlt]; cbn; constructor; [done|].
    rewrite Forall_fmap. done.
  - generalize (Z.to_nat (t - lo)) as n. intros n. revert t Hle Hall. clear. intros t _ _. revert t.
    induction n as [|n IH]; intros t; cbn [heights_down]; [constructor|]. rewrite reverse_cons.
    apply StronglySorted_app. split; [|split]; [|apply IH|repeat constructor].
    intros x y Hx Hy. apply list_elem_of_singleton in Hy as ->. apply elem_of_reverse, elem_of_heights_down in Hx. lia.
  - intros k. rewrite elem_of_reverse, elem_of_heights_down, list_elem_of_fmap. split.
    + intros ([k' x] & -> & [Hk _]%list_elem_of_filter). cbn in *. apply andb_true_iff in Hk as [?%Z.ltb_lt ?%Z.leb_le]. lia.
    + intros Hk. destruct (Hall k) as [x Hx]; [lia|]. exists (k, x). split; [done|]. apply list_elem_of_filter.
      cbn. split; [|by apply bt_get_Some_elem]. apply andb_true_iff. rewrite Z.ltb_lt, Z.leb_le. lia.
Qed.
End Maps.

(** * Checkpoint lists that [from_list] accepts *)

Record list_ok (l : CheckpointList) : Prop := {
  lo_sorted : bt_sorted l;
  lo_genesis : is_Some (bt_get 0 l);
  lo_heights : Forall (fun e => 0 <= e.1 <= Height_MAX) l
}.

Lemma max_height_spec l : list_ok l -> exists max, max_height l = Ok max /\ is_Some (bt_get max l) /\ 0 <= max <= Height_MAX
  /\ forall k, is_Some (bt_get k l) -> 0 <= k <= max.
Proof.
  intros [Hs Hg Hh]. rewrite Forall_forall in Hh.
  assert (forall k, is_Some (bt_get k l) -> 0 <= k <= Height_MAX) as Hk.
  { intros k [x Hx%bt_get_Some_elem]. exact (Hh _ Hx). }
  pose proof (bt_last_in (fun _ => true) l Hs) as Hl. unfold max_height, max_height_in_range, bt_bounds. cbn [range_panics mbind res_bind].
  change (filter (fun e => after_start Unbounded e.1 && before_end Unbounded e.1 = true) l) with (filter (fun e : Z * bytes => (fun _ => true) e.1 = true) l).
  destruct (fst <$> last _) as [max|].
  - destruct Hl as (Hmax & _ & Hle). exists max. split; [done|]. split; [done|]. split; [by apply Hk|].
    intros k Hkl. pose proof (Hk k Hkl). split; [lia|by apply Hle].
  - by specialize (Hl 0 Hg).
Qed.

Lemma from_list_ok list l : Forall (fun e => 0 <= e.1) list -> from_list list = Ok l -> list_ok l.
Proof.
  intros Hpos. unfold from_list. intros (u & Hhead & Hr)%bind_Ok_inv. case_match; [done|]. case_match; [done|]. case_match; [done|].
  apply bind_Ok_inv in Hr as (max & Hmax & Hr). apply lift_Ok in Hmax. destruct (Z.ltb_spec Height_MAX max) as [|Hle]; [done|]. injection Hr as <-.
  assert (bt_sorted (bt_from_list list) /\ Forall (fun e => 0 <= e.1) (bt_from_list list)) as [Hs Hf].
  { unfold bt_from_list. clear -Hpos. assert (bt_sorted ([] : CheckpointList) /\ Forall (fun e : Z * bytes => 0 <= e.1) []) as Hi by (split; constructor).
    revert Hi. generalize ([] : CheckpointList) as m. induction Hpos as [|e list He Hpos IH]; intros m [Hs Hm]; [done|]. cbn [foldl].
    apply IH. split; [auto|]. apply Forall_forall. intros x Hx. apply bt_insert_elem in Hx as [->|[Hx _]]; [done| |done].
    rewrite Forall_forall in Hm. auto. }
  split; [done| |].
  - destruct (bt_from_list list) as [|[h x] m]; [done|]. cbn in *. destruct (Z.eqb_spec h 0) as [->|]; [|done]. by eexists.
  - rewrite Forall_forall in *. intros e He. split; [by apply Hf|]. etrans; [|exact Hle].
    pose proof (bt_last_in (fun _ => true) _ Hs) as Hl. unfold max_height, max_height_in_range, bt_bounds in Hmax. cbn [range_panics mbind res_bind] in Hmax.
    change (filter (fun e => after_start Unbounded e.1 && before_end Unbounded e.1 = true) (bt_from_list list))
      with (filter (fun e : Z * bytes => (fun _ => true) e.1 = true) (bt_from_list list)) in Hmax.
    destruct (fst <$> last _) as [c|]; [|done]. apply unwrap_Ok, Some_inj' in Hmax as <-. apply Hl; [|done]. exists e.2. apply bt_get_elem; [done|by destruct e].
Qed.

Lemma prev_checkpoint_index_ok l h : list_ok l -> 0 <= h -> exists i, prev_checkpoint_index l h = Ok i.
Proof.
  intros [_ [x Hx%bt_get_Some_elem] _] Hh. unfold prev_checkpoint_index.
  assert (rposition (fun e => e.1 <=? h) l <> None) as Hne.
  { clear -Hx Hh. induction l as [|e l IH]; [by apply elem_of_nil in Hx|]. cbn [rposition].
    apply elem_of_cons in Hx as [<-|Hx].
    - cbn. rewrite (proj2 (Z.leb_le _ _)) by done. by destruct (rposition _ l).
    - specialize (IH Hx). by destruct (rposition _ l). }
  destruct (rposition _ l); [by eexists|done].
Qed.

(** * The invariant *)

Section Proofs.
Context `{!TxPrimitives} `{!BlockPrimitives} `{!AddressParser} `{BuildProfile}.
Implicit Types (v : CheckpointVerifier) (b : SemanticallyVerifiedBlock) (qb : QueuedBlock) (q : btree QueuedBlockList).

Definition qb_hash qb : bytes := sv_hash (qb_block qb).
Definition qb_height qb : Z := sv_height (qb_block qb).
Definition qb_parent qb : bytes := previous_block_hash (block_header (sv_block (qb_block qb))).

(** The hashes of the chain that the checkpoints are on: a header with the hash
    at a height has the hash below it as its parent. *)
Record chain_of (l : CheckpointList) (chain : Z -> bytes) : Prop := {
  ch_genesis : chain (-1) = GENESIS_PREVIOUS_BLOCK_HASH;
  ch_checkpoints : forall h hash, bt_get h l = Some hash -> chain h = hash;
  ch_parents : forall header h, 0 <= h -> block_hash header = chain h -> previous_block_hash header = chain (h - 1)
}.

Record queue_ok (max : Z) q : Prop := {
  qo_sorted : bt_sorted q;
  qo_heights : forall h qbs, bt_get h q = Some qbs -> 0 <= h <= max;
  qo_lists : forall h qbs, bt_get h q = Some qbs -> qbs <> [] /\ (length qbs <= MAX_QUEUED_BLOCKS_PER_HEIGHT)%nat /\ NoDup (qb_hash <$> qbs);
  qo_blocks : forall h qbs qb, bt_get h q = Some qbs -> qb ∈ qbs ->
    qb_height qb = h /\ qb_hash qb = block_hash (block_header (sv_block (qb_block qb)))
}.

(** The last verified height; [-1] before genesis. *)
Definition verified_height (p : Progress Z) : option Z :=
  match p with BeforeGenesis => Some (-1) | InitialTip h | PreviousCheckpoint h => Some h | FinalCheckpoint => None end.

Definition progress_ok (chain : Z -> bytes) (max : Z) v : Prop :=
  match verifier_progress v with
  | BeforeGenesis | FinalCheckpoint => True
  | InitialTip h => 0 <= h < max /\ initial_tip_hash v = Some (chain h)
  | PreviousCheckpoint h => h < max /\ is_Some (bt_get h (checkpoint_list v))
  end.

Record cv_inv (chain : Z -> bytes) (max : Z) v : Prop := {
  ci_list : list_ok (checkpoint_list v);
  ci_max : max_height (checkpoint_list v) = Ok max;
  ci_chain : chain_of (checkpoint_list v) chain;
  ci_queue : queue_ok max (queued v);
  ci_progress : progress_ok chain max v
}.

Lemma ci_checkpoint chain max v k : cv_inv chain max v -> is_Some (bt_get k (checkpoint_list v)) -> 0 <= k <= max /\ max <= Height_MAX.
Proof.
  intros [Hl Hm _ _ _] Hk. destruct (max_height_spec _ Hl) as (m & Hm' & _ & Hb & Hall). rewrite Hm in Hm'. apply Ok_inj in Hm' as <-.
  split; [by apply Hall|lia].
Qed.
Lemma ci_max_bound chain max v : cv_inv chain max v -> 0 <= max <= Height_MAX /\ is_Some (bt_get max (checkpoint_list v)).
Proof.
  intros [Hl Hm _ _ _]. destruct (max_height_spec _ Hl) as (m & Hm' & Hg & Hb & _). rewrite Hm in Hm'. apply Ok_inj in Hm' as <-. done.
Qed.

Lemma verified_bound chain max v lo : cv_inv chain max v -> verified_height (verifier_progress v) = Some lo -> -1 <= lo < max \/ lo = -1.
Proof.
  intros Hi. pose proof (ci_progress _ _ _ Hi) as Hp. unfold progress_ok in Hp.
  destruct (verifier_progress v) as [|h|h|]; cbn; intros [= <-]; [by right|left; lia|].
  destruct Hp as [? Hg]. pose proof (ci_checkpoint _ _ _ _ Hi Hg). left; lia.
Qed.

(** ** The target *)

Definition contiguous q (lo p : Z) : Prop :=
  lo <= p /\ (forall h, lo < h <= p -> is_Some (bt_get h q)) /\ bt_get (p + 1) q = None.

Lemma contiguous_unique q lo p p' : contiguous q lo p -> contiguous q lo p' -> p = p'.
Proof.
  intros (Hl & Ha & Hn) (Hl' & Ha' & Hn'). destruct (Z.lt_trichotomy p p') as [Hlt|[?|Hlt]]; [|done|]; exfalso.
  - destruct (Ha' (p + 1)) as [x Hx]; [lia|]. congruence.
  - destruct (Ha (p' + 1)) as [x Hx]; [lia|]. congruence.
Qed.

Lemma continuous_spec q s max : bt_sorted q -> (forall k, is_Some (bt_get k q) -> s < k <= max) -> -1 <= s -> max <= Height_MAX -> s <= Height_MAX ->
  exists p, continuous s q = Ok p /\ contiguous q s p.
Proof.
  unfold Height_MAX. change (u32_MAX / 2) with 2147483647. intros Hs Hk Hpos Hmax Hsm.
  revert s Hk Hpos Hsm. induction q as [|[h qbs] q IH]; intros s Hk Hpos Hsm; cbn [continuous].
  { exists s. split; [done|]. split; [lia|]. split; [intros; lia|done]. }
  apply bt_sorted_cons in Hs as [Hs Hf]. assert (s < h <= max) as Hh by (apply Hk; cbn; rewrite Z.eqb_refl; by eexists).
  rewrite !arith_u_in by lia. cbn [mbind res_bind]. rewrite Forall_forall in Hf. cbn in Hf.
  assert (forall k, is_Some (bt_get k q) -> h < k <= max) as Hq.
  { intros k Hkq. destruct Hkq as [x Hx]. pose proof (Hf _ (bt_get_Some_elem _ _ _ Hx)) as Hlt. cbn in Hlt. split; [done|].
    apply Hk. cbn. rewrite (proj2 (Z.eqb_neq k h)) by lia. by eexists. }
  destruct (Z.eqb_spec h (s + 1)) as [->|Hne].
  - destruct (IH Hs (s + 1)) as (p & Hp & Hle & Hall & Hn); [done|lia|lia|]. exists p. split; [done|]. split; [lia|]. split.
    + intros k Hkp. cbn. destruct (Z.eqb_spec k (s + 1)); [by eexists|]. apply Hall. lia.
    + cbn. rewrite (proj2 (Z.eqb_neq _ _)) by lia. done.
  - exists s. split; [done|]. split; [lia|]. split; [intros; lia|]. cbn.
    rewrite (proj2 (Z.eqb_neq _ _)) by lia. destruct (bt_get (s + 1) q) eqn:E; [|done]. pose proof (Hq (s + 1) (mk_is_Some _ _ E)). lia.
Qed.

Lemma bounds_eq {A} (m : btree A) start lo t : (forall e, e ∈ m -> 0 <= e.1) -> lo <= t ->
  (start = Unbounded /\ lo = -1 \/ start = Excluded lo) ->
  bt_bounds start (Included t) m = Ok (filter (fun e => (lo <? e.1) && (e.1 <=? t) = true) m).
Proof.
  intros Hpos Hle Hs. unfold bt_bounds. destruct Hs as [[-> ->]| ->]; cbn [range_panics].
  2: { by rewrite (proj2 (Z.ltb_ge _ _)). }
  f_equal. apply list_filter_iff', Forall_forall. intros e He. cbn. specialize (Hpos e He). by rewrite (proj2 (Z.ltb_lt (-1) e.1)) by lia.
Qed.

Definition target_of (o : option Z) : TargetHeight := match o with Some c => Checkpoint c | None => WaitingForBlocks end.
(** The highest checkpoint in [(lo, p]]. *)
Definition highest_checkpoint (l : CheckpointList) (lo p : Z) (o : option Z) : Prop :=
  match o with
  | Some c => is_Some (bt_get c l) /\ lo < c <= p /\ forall k, is_Some (bt_get k l) -> lo < k <= p -> k <= c
  | None => forall k, is_Some (bt_get k l) -> ~ lo < k <= p
  end.

Lemma highest_spec l lo p : bt_sorted l ->
  highest_checkpoint l lo p (fst <$> last (filter (fun e => (lo <? e.1) && (e.1 <=? p) = true) l)).
Proof.
  intros Hs. pose proof (bt_last_in (fun k => (lo <? k) && (k <=? p)) l Hs) as Hl.
  assert (forall k, (lo <? k) && (k <=? p) = true <-> lo < k <= p) as Hk by (intros k; rewrite andb_true_iff, Z.ltb_lt, Z.leb_le; lia).
  destruct (fst <$> last _) as [c|]; cbn.
  - destruct Hl as (Hc & Hp%Hk & Hall). split; [done|]. split; [done|]. intros k Hkl Hkp%Hk. auto.
  - intros k Hkl Hkp%Hk. by rewrite Hl in Hkp.
Qed.

Lemma start_bound v lo : verified_height (verifier_progress v) = Some lo ->
  exists start, current_start_bound v = Some start /\ (start = Unbounded /\ lo = -1 \/ start = Excluded lo).
Proof. unfold current_start_bound. destruct (verifier_progress v); cbn; intros [= <-]; eauto. Qed.

Lemma search_spec chain max v lo s : cv_inv chain max v -> verified_height (verifier_progress v) = Some lo ->
  lo <= s <= Height_MAX -> -1 <= s -> (forall h, lo < h <= s -> is_Some (bt_get h (queued v))) ->
  exists p o, contiguous (queued v) lo p /\ highest_checkpoint (checkpoint_list v) lo p o /\
    (l ← bt_bounds (Excluded s) Unbounded (queued v); pending_height ← continuous s l; start ← unwrap (current_start_bound v);
     target_checkpoint ← max_height_in_range (checkpoint_list v) start (Included pending_height);
     Ok (match target_checkpoint with Some height => Checkpoint height | None => WaitingForBlocks end)) = Ok (E := Empty_set) (target_of o).
Proof.
  intros Hi Hlo Hs Hs1 Hbelow. pose proof (ci_queue _ _ _ Hi) as Hq. pose proof (ci_max_bound _ _ _ Hi) as [Hmax _].
  unfold bt_bounds at 1. cbn [range_panics mbind res_bind].
  set (l := filter (fun e => after_start (Excluded s) e.1 && before_end Unbounded e.1 = true) (queued v)).
  assert (forall k, bt_get k l = if s <? k then bt_get k (queued v) else None) as Hget.
  { intros k. unfold l. rewrite (bt_get_filter_keys (fun k => after_start (Excluded s) k && before_end Unbounded k)). cbn. by rewrite andb_true_r. }
  destruct (continuous_spec l s max) as (p & -> & Hle & Hall & Hn).
  - apply bt_filter_sorted, Hq.
  - intros k. rewrite Hget. destruct (Z.ltb_spec s k); [|intros [x [=]]]. intros [x Hx]. split; [done|]. by apply (qo_heights _ _ Hq k x).
  - done.
  - lia.
  - lia.
  - cbn [mbind res_bind]. destruct (start_bound v lo Hlo) as (start & -> & Hst). cbn [unwrap mbind res_bind].
    unfold max_height_in_range. rewrite (bounds_eq _ _ lo p); [|intros e He; pose proof (lo_heights _ (ci_list _ _ _ Hi)) as Hf; rewrite Forall_forall in Hf; by apply Hf|lia|done].
    cbn [mbind res_bind]. exists p, (fst <$> last (filter (fun e => (lo <? e.1) && (e.1 <=? p) = true) (checkpoint_list v))).
    split; [|split; [apply highest_spec, (lo_sorted _ (ci_list _ _ _ Hi))|done]]. split; [lia|]. split.
    + intros h Hh. destruct (Z.le_gt_cases h s); [apply Hbelow; lia|]. specialize (Hall h ltac:(lia)). rewrite Hget in Hall.
      by rewrite (proj2 (Z.ltb_lt s h)) in Hall by lia.
    + rewrite Hget in Hn. by rewrite (proj2 (Z.ltb_lt s (p + 1))) in Hn by lia.
Qed.

Lemma target_spec chain max v lo : cv_inv chain max v -> verified_height (verifier_progress v) = Some lo ->
  exists p o, contiguous (queued v) lo p /\ highest_checkpoint (checkpoint_list v) lo p o /\ target_checkpoint_height v = Ok (target_of o).
Proof.
  intros Hi Hlo. pose proof (verified_bound _ _ _ _ Hi Hlo) as Hb. pose proof (ci_max_bound _ _ _ Hi) as [Hmax _].
  pose proof (search_spec chain max v lo) as Hsearch. unfold target_checkpoint_height.
  destruct (verifier_progress v) as [|h|h|] eqn:Hp; cbn [verified_height] in Hlo; [|apply Hsearch..|done]; try done; try (injection Hlo as <-); try lia.
  case_bool_decide as H0q.
  - exists (-1), None. split; [split; [lia|split; [intros; lia|done]]|]. split; [|done]. cbn. intros; lia.
  - apply (Hsearch 0); try done; try lia. intros h Hh. replace h with 0 by lia. by apply not_eq_None_Some.
Qed.

(** ** Processing a range *)

(** The verifier with another queue, after sending results. *)
Definition moved v q (sent : list (nat * res VerifyCheckpointError bytes)) : CheckpointVerifier :=
  mkCheckpointVerifier (checkpoint_list v) (cp_network v) (initial_tip_hash v) q (verifier_progress v)
    (reset_requests v) (next_channel v) (answers v ++ sent).
Lemma moved_moved v q q' s s' : moved (moved v q s) q' s' = moved v q' (s ++ s').
Proof. unfold moved. cbn. by rewrite app_assoc. Qed.
Lemma moved_nil v : moved v (queued v) [] = v.
Proof. unfold moved. rewrite app_nil_r. by destruct v. Qed.
Lemma send_moved v q s tx r : send (moved v q s) tx r = moved v q (s ++ [(tx, r)]).
Proof. unfold moved, send. cbn. by rewrite app_assoc. Qed.
Lemma with_queued_moved v q s q' : with_queued (moved v q s) q' = moved v q' s.
Proof. done. Qed.

(** The channels of the queued blocks. *)
Definition channels q : list nat := qb_tx <$> concat (snd <$> q).
Lemma channels_perm q q' : q ≡ₚ q' -> channels q ≡ₚ channels q'.
Proof.
  intros Hp. unfold channels. apply fmap_Permutation. induction Hp as [|x l l' Hp IH|x y l|l1 l2 l3 ? IH1 ? IH2]; cbn; [done| | |by etrans].
  - by rewrite IH.
  - rewrite !app_assoc. f_equiv. apply Permutation_app_comm.
Qed.
Lemma channels_cons h qbs q : channels ((h, qbs) :: q) = (qb_tx <$> qbs) ++ channels q.
Proof. unfold channels. cbn. by rewrite fmap_app. Qed.
Lemma channels_remove h qbs q : bt_sorted q -> bt_get h q = Some qbs -> channels q ≡ₚ (qb_tx <$> qbs) ++ channels (bt_remove h q).
Proof. intros Hs Hq. rewrite <- (channels_cons h). by apply channels_perm, bt_remove_entries. Qed.
Lemma channels_insert h qbs q : bt_sorted q -> channels (bt_insert h qbs q) ≡ₚ (qb_tx <$> qbs) ++ channels (bt_remove h q).
Proof. intros Hs. rewrite <- (channels_cons h). by apply channels_perm, bt_insert_entries. Qed.
Lemma remove_absent h q : bt_get h q = None -> bt_remove h q = q.
Proof. intros Hn. apply filter_all, Forall_forall. by apply bt_get_None. Qed.

Definition side_errors (expected : bytes) (qbs : QueuedBlockList) : list (nat * res VerifyCheckpointError bytes) :=
  (fun qb => (qb_tx qb, Err (UnexpectedSideChain expected (qb_hash qb)))) <$> filter (fun qb => qb_hash qb <> expected) qbs.
Definition valid_block (expected : bytes) (qbs : QueuedBlockList) : option QueuedBlock := head (filter (fun qb => qb_hash qb = expected) qbs).

Lemma process_qblocks v q e qbs s : NoDup (qb_hash <$> qbs) ->
  foldM (process_qblock e) (moved v q s, None) qbs = Ok (moved v q (s ++ side_errors e qbs), valid_block e qbs).
Proof.
  intros Hnd. enough (forall o, (is_Some o -> e ∉ qb_hash <$> qbs) ->
    foldM (process_qblock e) (moved v q s, o) qbs
    = Ok (moved v q (s ++ side_errors e qbs), match o with Some qb => Some qb | None => valid_block e qbs end)) as Hgen
    by (apply Hgen; by intros [? [=]]).
  revert s Hnd. unfold side_errors, valid_block. induction qbs as [|qb qbs IH]; intros s Hnd o Ho; cbn [foldM].
  { rewrite filter_nil, app_nil_r. by destruct o. }
  rewrite fmap_cons in Hnd, Ho. apply NoDup_cons in Hnd as [Hni Hnd]. unfold process_qblock at 2. fold (qb_hash qb). rewrite !filter_cons.
  case_bool_decide as He.
  - destruct o as [qb'|]; [exfalso; apply Ho; [by eexists|subst; left]|]. cbn [mbind res_bind]. rewrite IH; [|done|intros _; by rewrite <- He].
    rewrite (decide_True (P := qb_hash qb = e)), (decide_False (P := qb_hash qb <> e)) by auto. done.
  - cbn [mbind res_bind]. rewrite send_moved, IH; [|done|intros Hs Hin; apply (Ho Hs); by right].
    rewrite (decide_False (P := qb_hash qb = e)), (decide_True (P := qb_hash qb <> e)) by auto. cbn [fmap list_fmap].
    by rewrite <- app_assoc.
Qed.

Lemma process_height_spec v h e qbs : bt_get h (queued v) = Some qbs -> qbs <> [] -> NoDup (qb_hash <$> qbs) ->
  (forall c, bt_get h (checkpoint_list v) = Some c -> e = c) ->
  process_height v h e = Ok (moved v (bt_remove h (queued v)) (side_errors e qbs), valid_block e qbs).
Proof.
  intros Hq Hne Hnd Hc. unfold process_height. rewrite Hq. cbn [unwrap mbind res_bind].
  rewrite bool_decide_eq_false_2 by done. cbn [negb assert_ mbind res_bind]. unfold cl_hash, with_queued. cbn [checkpoint_list].
  assert (match bt_get h (checkpoint_list v) with Some c => assert_ (bool_decide (e = c)) | None => Ok tt end = Ok (E := Empty_set) tt) as ->.
  { destruct (bt_get h (checkpoint_list v)) as [c|] eqn:E; [|done]. by rewrite bool_decide_eq_true_2 by by apply Hc. }
  cbn [mbind res_bind]. pose proof (process_qblocks v (bt_remove h (queued v)) e qbs [] Hnd) as Hp. unfold moved at 1 in Hp.
  by rewrite app_nil_r in Hp.
Qed.

Lemma valid_block_Some e qbs qb : valid_block e qbs = Some qb -> qb ∈ qbs /\ qb_hash qb = e.
Proof.
  unfold valid_block. intros Hh%head_Some_elem_of. apply list_elem_of_filter in Hh as [? ?]. done.
Qed.
Lemma valid_block_None e qbs qb : valid_block e qbs = None -> qb ∈ qbs -> qb_hash qb <> e.
Proof.
  unfold valid_block. intros Hh%head_None Hin He. assert (qb ∈ filter (fun qb => qb_hash qb = e) qbs) as Hf by by apply list_elem_of_filter.
  rewrite Hh in Hf. by apply elem_of_nil in Hf.
Qed.

(** The channels of a height: the valid block and the side chain blocks. *)
Lemma split_channels e qbs : NoDup (qb_hash <$> qbs) ->
  qb_tx <$> qbs ≡ₚ (qb_tx <$> option_list (valid_block e qbs)) ++ (side_errors e qbs).*1.
Proof.
  unfold side_errors, valid_block. induction qbs as [|qb qbs IH]; intros Hnd; [done|]. rewrite !filter_cons. rewrite fmap_cons in Hnd.
  apply NoDup_cons in Hnd as [Hni Hnd]. specialize (IH Hnd). destruct (decide (qb_hash qb = e)) as [He|He].
  - rewrite (decide_False (P := qb_hash qb <> e)) by auto. cbn. constructor.
    assert (filter (fun qb => qb_hash qb = e) qbs = []) as Hn.
    { apply elem_of_nil_inv. intros x [Hx Hin]%list_elem_of_filter. apply Hni. rewrite He, <- Hx. by apply list_elem_of_fmap_2. }
    rewrite Hn in IH. done.
  - rewrite (decide_True (P := qb_hash qb <> e)) by auto. cbn. rewrite IH. apply Permutation_middle.
Qed.

Section Range.
Context (chain : Z -> bytes) (l : CheckpointList) (max : Z).
Hypothesis chain_ok : chain_of l chain.

(** [new] are queued blocks with the hashes of the chain above [f]. *)
Definition on_chain q (f : Z) (new : list QueuedBlock) : Prop :=
  forall i qb, new !! i = Some qb -> qb_hash qb = chain (f + 1 + Z.of_nat i)
    /\ exists qbs, bt_get (f + 1 + Z.of_nat i) q = Some qbs /\ qb ∈ qbs.

(** The outcome of the loop over the [n] heights up to [t]. *)
Definition range_result q (t : Z) (n : nat) q' (new : list QueuedBlock) (parent : option bytes) : Prop :=
  let f := t - Z.of_nat (length new) in
  bt_sorted q' /\ on_chain q f new /\
  match parent with
  | Some hash => length new = n /\ hash = chain f
      /\ forall k, bt_get k q' = if (f <? k) && (k <=? t) then None else bt_get k q
  | None => (length new < n)%nat /\ (forall qbs qb, bt_get f q = Some qbs -> qb ∈ qbs -> qb_hash qb <> chain f)
      /\ forall k, bt_get k q' = if (f <=? k) && (k <=? t) then None else bt_get k q
  end.

Lemma queue_ok_remove h q : queue_ok max q -> queue_ok max (bt_remove h q).
Proof.
  intros [Hs Hh Hl Hb]. assert (forall k qbs, bt_get k (bt_remove h q) = Some qbs -> bt_get k q = Some qbs) as Hg.
  { intros k qbs. rewrite bt_get_remove_any. by destruct (k =? h). }
  split; [by apply bt_filter_sorted|eauto..].
Qed.

Lemma on_chain_snoc q t f new qb qbs : on_chain (bt_remove t q) f new -> t = f + 1 + Z.of_nat (length new) ->
  bt_get t q = Some qbs -> qb ∈ qbs -> qb_hash qb = chain t -> on_chain q f (new ++ [qb]).
Proof.
  intros Hon Ht Hq Hin Hh i qb' [Hi|[Hi Hqb]]%lookup_app_Some.
  - destruct (Hon i qb' Hi) as (Hc & qbs' & Hg & Hin'). split; [done|]. exists qbs'. split; [|done].
    rewrite bt_get_remove_any in Hg. by destruct (_ =? t).
  - apply list_lookup_singleton_Some in Hqb as [Hi0 <-]. replace (f + 1 + Z.of_nat i) with t by lia. eauto.
Qed.

Lemma process_heights_spec n v t valid : checkpoint_list v = l -> queue_ok max (queued v) -> 0 <= t - Z.of_nat n + 1 ->
  (forall h, t - Z.of_nat n < h <= t -> is_Some (bt_get h (queued v))) ->
  exists q' new parent sent, process_heights v (chain t) valid (heights_down t n) = Ok (moved v q' sent, new ++ valid, parent)
    /\ range_result (queued v) t n q' new parent
    /\ Forall (fun a => exists e, a.2 = Err e) sent
    /\ channels (queued v) ≡ₚ channels q' ++ (qb_tx <$> new) ++ sent.*1.
Proof.
  revert v t valid. induction n as [|n IH]; intros v t valid Hl Hq Ht Hall; cbn [heights_down process_heights].
  { exists (queued v), [], (Some (chain t)), []. rewrite moved_nil. split; [done|]. split; [|split; [constructor|by rewrite !app_nil_r]].
    unfold range_result. cbn [length]. replace (t - Z.of_nat 0) with t by lia. split; [apply Hq|]. split; [by intros i qb|]. split; [done|]. split; [done|].
    intros k. destruct (Z.ltb_spec t k), (Z.leb_spec k t); try done; lia. }
  destruct (Hall t) as [qbs Hqbs]; [lia|]. destruct (qo_lists _ _ Hq t qbs Hqbs) as (Hne & _ & Hnd).
  rewrite (process_height_spec v t (chain t) qbs) by (try done; rewrite Hl; apply chain_ok). cbn [mbind res_bind].
  pose proof (channels_remove t qbs (queued v) (qo_sorted _ _ Hq) Hqbs) as Hch. rewrite (split_channels (chain t) qbs Hnd) in Hch.
  assert (Forall (fun a : nat * res VerifyCheckpointError bytes => exists e, a.2 = Err e) (side_errors (chain t) qbs)) as Herr.
  { apply Forall_fmap, Forall_forall. intros qb _. cbn. eauto. }
  destruct (valid_block (chain t) qbs) as [qb|] eqn:Hvb.
  - apply valid_block_Some in Hvb as [Hin Hh]. destruct (qo_blocks _ _ Hq t qbs qb Hqbs Hin) as [_ Hbh].
    fold (qb_parent qb). assert (qb_parent qb = chain (t - 1)) as ->.
    { apply (ch_parents _ _ chain_ok); [lia|]. by rewrite <- Hbh. }
    destruct (IH (moved v (bt_remove t (queued v)) (side_errors (chain t) qbs)) (t - 1) (qb :: valid))
      as (q' & new & parent & sent & Hp & (Hs & Hon & Hres) & Hsent & Hch').
    { done. } { by apply queue_ok_remove. } { lia. }
    { intros h Hh'. cbn. rewrite bt_get_remove_any, (proj2 (Z.eqb_neq h t)) by lia. apply Hall. lia. }
    rewrite Hp, moved_moved. exists q', (new ++ [qb]), parent, (side_errors (chain t) qbs ++ sent). cbn [queued moved] in Hon, Hres, Hch'.
    split; [by rewrite <- app_assoc|]. split; [|split; [by apply Forall_app|]].
    + unfold range_result. rewrite length_app. cbn [length]. replace (t - Z.of_nat (length new + 1)) with (t - 1 - Z.of_nat (length new)) by lia.
      split; [done|]. split; [eapply on_chain_snoc; try done; lia|]. destruct parent as [hash|].
      * destruct Hres as (Hlen & Hhash & Hget). split; [lia|]. split; [done|]. intros k. rewrite Hget, bt_get_remove_any.
        destruct (Z.eqb_spec k t); destruct (Z.ltb_spec (t - 1 - Z.of_nat (length new)) k); destruct (Z.leb_spec k (t - 1)); destruct (Z.leb_spec k t); cbn; try done; lia.
      * destruct Hres as (Hlen & Hno & Hget). split; [lia|]. split.
        { intros qbs' qb' Hg. apply Hno. rewrite bt_get_remove_any, (proj2 (Z.eqb_neq _ _)) by lia. done. }
        intros k. rewrite Hget, bt_get_remove_any.
        destruct (Z.eqb_spec k t); destruct (Z.leb_spec (t - 1 - Z.of_nat (length new)) k); destruct (Z.leb_spec k (t - 1)); destruct (Z.leb_spec k t); cbn; try done; lia.
    + rewrite Hch, Hch', fmap_app. cbn [option_list fmap list_fmap]. rewrite fmap_app. solve_Permutation.
  - exists (bt_remove t (queued v)), [], None, (side_errors (chain t) qbs). split; [done|]. split; [|split; [done|]].
    + unfold range_result. cbn [length]. replace (t - Z.of_nat 0) with t by lia. split; [by apply bt_filter_sorted, Hq|].
      split; [by intros i qb|]. split; [lia|]. split.
      * intros qbs' qb Hg Hin. rewrite Hqbs in Hg. injection Hg as <-. by eapply valid_block_None.
      * intros k. rewrite bt_get_remove_any. destruct (Z.eqb_spec k t), (Z.leb_spec t k), (Z.leb_spec k t); cbn; try done; lia.
    + rewrite Hch. cbn. by rewrite Permutation_app_comm.
Qed.
End Range.

Lemma put_back_spec v s new : forall q f, bt_sorted q ->
  (forall i qb, new !! i = Some qb -> qb_height qb = f + 1 + Z.of_nat i) ->
  (forall k, f < k <= f + Z.of_nat (length new) -> bt_get k q = None) ->
  exists q', foldl put_back (moved v q s) new = moved v q' s /\ bt_sorted q' /\ channels q' ≡ₚ channels q ++ (qb_tx <$> new)
    /\ (forall i qb, new !! i = Some qb -> bt_get (f + 1 + Z.of_nat i) q' = Some [qb])
    /\ (forall k, ~ f < k <= f + Z.of_nat (length new) -> bt_get k q' = bt_get k q).
Proof.
  induction new as [|qb new IH]; intros q f Hs Hh Hn; cbn [foldl].
  { exists q. split; [done|]. split; [done|]. split; [by rewrite app_nil_r|]. split; [by intros i qb|done]. }
  cbn [length] in Hn |- *. pose proof (Hh 0%nat qb eq_refl) as Hqb. rewrite Z.add_0_r in Hqb.
  assert (bt_get (f + 1) q = None) as Hnone by (apply Hn; lia).
  unfold put_back at 2. fold (qb_height qb). rewrite Hqb. cbn [queued moved]. rewrite Hnone. cbn [default from_option app].
  rewrite with_queued_moved. destruct (IH (bt_insert (f + 1) [qb] q) (f + 1)) as (q' & Hq' & Hs' & Hch & Hget & Hother).
  - auto.
  - intros i qb' Hi. rewrite (Hh (S i) qb' Hi). lia.
  - intros k Hk. rewrite bt_get_insert, (proj2 (Z.eqb_neq _ _)) by lia. apply Hn. lia.
  - exists q'. split; [done|]. split; [done|]. split; [|split].
    + rewrite Hch, channels_insert, remove_absent by done. cbn. apply Permutation_middle.
    + intros [|i] qb' Hi; [|specialize (Hget i qb' Hi); by replace (f + 1 + Z.of_nat (S i)) with (f + 1 + 1 + Z.of_nat i) by lia].
      injection Hi as <-. rewrite Z.add_0_r, Hother, bt_get_insert, Z.eqb_refl by lia. done.
    + intros k Hk. destruct (decide (k = f + 1)); [lia|]. rewrite Hother, bt_get_insert, (proj2 (Z.eqb_neq _ _)) by lia. done.
Qed.

Definition same_base v v' : Prop :=
  checkpoint_list v' = checkpoint_list v /\ cp_network v' = cp_network v /\ reset_requests v' = reset_requests v /\ next_channel v' = next_channel v.
Definition only_errors (sent : list (nat * res VerifyCheckpointError bytes)) : Prop := Forall (fun a => exists e, a.2 = Err e) sent.
Definition ok_answers (new : list QueuedBlock) : list (nat * res VerifyCheckpointError bytes) :=
  (fun qb => (qb_tx qb, Ok (qb_hash qb))) <$> new.

Section Process.
Context (chain : Z -> bytes) (max : Z).

(** The range up to the checkpoint [t] was verified. *)
Record range_done v (lo t : Z) v' (new : list QueuedBlock) (sent : list (nat * res VerifyCheckpointError bytes)) : Prop := {
  rd_base : same_base v v';
  rd_new : on_chain chain (queued v) lo new;
  rd_length : lo + Z.of_nat (length new) = t;
  rd_errors : only_errors sent;
  rd_answers : answers v' = answers v ++ sent ++ ok_answers new;
  rd_channels : channels (queued v) ≡ₚ channels (queued v') ++ (qb_tx <$> new) ++ sent.*1;
  rd_progress : verifier_progress v' = if t =? max then FinalCheckpoint else PreviousCheckpoint t;
  rd_queue : forall k, bt_get k (queued v') = if (lo <? k) && (k <=? t) then None else bt_get k (queued v);
  rd_inv : cv_inv chain max v'
}.
(** The height [f] had no valid block. *)
Record range_failed v (lo t : Z) v' (f : Z) (sent : list (nat * res VerifyCheckpointError bytes)) : Prop := {
  rf_base : same_base v v';
  rf_height : lo < f <= t;
  rf_invalid : forall qbs qb, bt_get f (queued v) = Some qbs -> qb ∈ qbs -> qb_hash qb <> chain f;
  rf_errors : only_errors sent;
  rf_answers : answers v' = answers v ++ sent;
  rf_channels : channels (queued v) ≡ₚ channels (queued v') ++ sent.*1;
  rf_progress : verifier_progress v' = verifier_progress v;
  rf_above : forall k, f < k <= t -> exists qb qbs, bt_get k (queued v') = Some [qb] /\ bt_get k (queued v) = Some qbs
    /\ qb ∈ qbs /\ qb_hash qb = chain k;
  rf_removed : bt_get f (queued v') = None;
  rf_other : forall k, ~ f <= k <= t -> bt_get k (queued v') = bt_get k (queued v);
  rf_inv : cv_inv chain max v'
}.

Lemma send_oks v q s new :
  foldl (fun v qb => send v (qb_tx qb) (Ok (sv_hash (qb_block qb)))) (moved v q s) new = moved v q (s ++ ok_answers new).
Proof.
  revert s. induction new as [|qb new IH]; intros s; cbn [foldl]; [by rewrite app_nil_r|].
  by rewrite send_moved, IH, <- app_assoc.
Qed.

Lemma queue_ok_sub q q' : queue_ok max q -> bt_sorted q' ->
  (forall k qbs', bt_get k q' = Some qbs' -> exists qbs, bt_get k q = Some qbs /\ (qbs' = qbs \/ exists qb, qbs' = [qb] /\ qb ∈ qbs)) ->
  queue_ok max q'.
Proof.
  intros [Hs Hh Hl Hb] Hs' Hsub. split; [done|..].
  - intros h qbs' (qbs & Hg & _)%Hsub. eauto.
  - intros h qbs' (qbs & Hg & [->|(qb & -> & _)])%Hsub; [eauto|]. split; [done|]. split; [cbn; unfold MAX_QUEUED_BLOCKS_PER_HEIGHT; lia|].
    cbn. apply NoDup_singleton.
  - intros h qbs' qb (qbs & Hg & [->|(qb' & -> & Hin)])%Hsub Hqb; [eauto|]. apply list_elem_of_singleton in Hqb as ->. eauto.
Qed.

Lemma update_progress_spec v lo t : cv_inv chain max v -> verified_height (verifier_progress v) = Some lo -> lo < t -> is_Some (bt_get t (checkpoint_list v)) ->
  exists v', update_progress v t = Ok v' /\ same_base v v' /\ queued v' = queued v /\ answers v' = answers v
    /\ verifier_progress v' = (if t =? max then FinalCheckpoint else PreviousCheckpoint t) /\ cv_inv chain max v'.
Proof.
  intros Hi Hlo Hlt Ht. destruct (ci_checkpoint _ _ _ _ Hi Ht) as [Hb _]. unfold update_progress.
  assert (check_height v t = Ok tt) as ->.
  { unfold check_height. rewrite (ci_max _ _ _ Hi). cbn [lift mbind res_bind]. rewrite (proj2 (Z.ltb_ge _ _)) by lia.
    destruct (verifier_progress v); cbn in Hlo; try done; injection Hlo as ->; by rewrite (proj2 (Z.leb_gt _ _)). }
  rewrite (ci_max _ _ _ Hi). cbn [mbind res_bind]. pose proof Hi as [Hl Hm Hc Hq _].
  destruct (prev_checkpoint_index_ok _ t Hl) as [i Hidx]; [lia|].
  destruct (Z.eqb_spec t max) as [->|Hne]; [|unfold cl_contains; rewrite bool_decide_eq_true_2 by done];
    unfold verified_checkpoint_diagnostics; cbn [checkpoint_list with_progress]; rewrite Hidx; cbn [mbind res_bind].
  all: eexists; split; [done|]; split; [done|]; split; [done|]; split; [done|]; split; [done|].
  all: split; [done..|]; unfold progress_ok; cbn; try done. split; [lia|done].
Qed.

Lemma progress_advances v v' lo t : cv_inv chain max v -> verified_height (verifier_progress v) = Some lo -> lo < t ->
  verifier_progress v' = (if t =? max then FinalCheckpoint else PreviousCheckpoint t) ->
  progress_cmp (verifier_progress v') (verifier_progress v) = Gt.
Proof.
  intros Hi Hlo Hlt ->. unfold progress_cmp. pose proof (ci_progress _ _ _ Hi) as Hp. unfold progress_ok in Hp.
  assert (forall h, lo = h -> h < t -> (t ?= h) = Gt) as Hgt by (intros h -> ?; apply Z.compare_gt_iff; lia).
  destruct (verifier_progress v) as [|h|h|]; cbn in Hlo; try done; injection Hlo as <-; destruct (t =? max);
    rewrite bool_decide_eq_false_2 by (intros [=]; lia); try done; by apply Hgt.
Qed.

Lemma range_success v lo p t q' new sent : cv_inv chain max v -> verified_height (verifier_progress v) = Some lo ->
  contiguous (queued v) lo p -> highest_checkpoint (checkpoint_list v) lo p (Some t) ->
  bt_sorted q' -> on_chain chain (queued v) lo new -> lo + Z.of_nat (length new) = t -> only_errors sent ->
  (forall k, bt_get k q' = if (lo <? k) && (k <=? t) then None else bt_get k (queued v)) ->
  channels (queued v) ≡ₚ channels q' ++ (qb_tx <$> new) ++ sent.*1 ->
  exists v', (v' ← update_progress (moved v q' (sent ++ ok_answers new)) t; _ ← check_progress v' (verifier_progress v) t; Ok v') = Ok v'
    /\ range_done v lo t v' new sent.
Proof.
  intros Hi Hlo (Hle & Hall & Hnext) (Htc & Ht & Hmaxc) Hs' Hon Hlen Hsent Hget Hchan.
  assert (cv_inv chain max (moved v q' (sent ++ ok_answers new))) as Him.
  { destruct Hi as [? ? ? Hq ?]. split; [done..| |done]. cbn. apply (queue_ok_sub (queued v)); [done|done|].
    intros k qbs. rewrite Hget. destruct ((lo <? k) && (k <=? t)); [done|]. eauto. }
  destruct (update_progress_spec _ lo t Him) as (v' & -> & Hbase & Hqv & Hav & Hpv & Hiv); [done|lia|done|]. cbn [mbind res_bind].
  exists v'. split; [|by split; try done; rewrite ?Hqv; try done; rewrite Hav; cbn; by rewrite ?app_assoc].
  unfold check_progress. rewrite (bool_decide_eq_true_2 (progress_cmp _ _ = Gt)) by (apply (progress_advances v v' lo t); [done|done|lia|done]). cbn [assert_ mbind res_bind].
  rewrite (ci_max _ _ _ Hiv), Hpv. destruct (Z.eqb_spec t max) as [->|Hne].
  - rewrite bool_decide_eq_true_2 by done. cbn [mbind res_bind]. rewrite Z.eqb_refl. cbn [assert_ mbind res_bind].
    unfold target_checkpoint_height. rewrite Hpv. done.
  - rewrite bool_decide_eq_false_2 by done. cbn [mbind res_bind]. rewrite bool_decide_eq_true_2 by done. cbn [assert_ mbind res_bind].
    destruct (target_spec _ _ v' t Hiv) as (p' & o & Hcont & Ho & ->); [by rewrite Hpv|]. cbn [mbind res_bind].
    enough (o = None) as -> by done. rewrite Hqv in Hcont. cbn in Hcont. assert (p' = p) as ->.
    { apply (contiguous_unique q' t); [done|]. split; [lia|]. split.
      - intros h Hh. rewrite Hget, (proj2 (Z.leb_gt h t)), andb_false_r by lia. apply Hall. lia.
      - by rewrite Hget, (proj2 (Z.leb_gt (p + 1) t)), andb_false_r by lia. }
    destruct Hbase as [Hlist _]. cbn in Hlist. destruct o as [c|]; [|done]. cbn in Ho. rewrite Hlist in Ho. destruct Ho as (Hc & Hcp & _).
    specialize (Hmaxc c Hc). lia.
Qed.

Lemma range_failure v lo t q' new sent : cv_inv chain max v -> verified_height (verifier_progress v) = Some lo ->
  let f := t - Z.of_nat (length new) in
  lo < f -> (forall h, lo < h <= t -> is_Some (bt_get h (queued v))) ->
  bt_sorted q' -> on_chain chain (queued v) f new -> only_errors sent ->
  (forall qbs qb, bt_get f (queued v) = Some qbs -> qb ∈ qbs -> qb_hash qb <> chain f) ->
  (forall k, bt_get k q' = if (f <=? k) && (k <=? t) then None else bt_get k (queued v)) ->
  channels (queued v) ≡ₚ channels q' ++ (qb_tx <$> new) ++ sent.*1 ->
  exists v', (let v' := foldl put_back (moved v q' sent) new in
      _ ← assert_ (bool_decide (verifier_progress v' = verifier_progress v));
      current_target ← target_checkpoint_height v';
      _ ← assert_ (bool_decide (current_target = WaitingForBlocks)
                   || bool_decide (target_partial_cmp current_target (Checkpoint t) = Some Lt));
      Ok v') = Ok v'
    /\ range_failed v lo t v' f sent.
Proof.
  intros Hi Hlo f Hf Hall Hs' Hon Hsent Hno Hget Hchan. pose proof (ci_queue _ _ _ Hi) as Hq.
  destruct (put_back_spec v sent new q' f) as (q2 & Hpb & Hs2 & Hch2 & Hnew2 & Hold2); [done|..].
  { intros i qb Hi'. destruct (Hon i qb Hi') as (_ & qbs & Hg & Hin). by apply (qo_blocks _ _ Hq _ qbs qb). }
  { intros k Hk. rewrite Hget. destruct (Z.leb_spec f k), (Z.leb_spec k t); try done; lia. }
  assert (forall k, f < k <= t -> exists qb qbs, bt_get k q2 = Some [qb] /\ bt_get k (queued v) = Some qbs /\ qb ∈ qbs /\ qb_hash qb = chain k) as Habove.
  { intros k Hk. destruct (lookup_lt_is_Some_2 new (Z.to_nat (k - f - 1))) as [qb Hqb]; [lia|].
    destruct (Hon _ _ Hqb) as (Hc & qbs & Hg & Hin). specialize (Hnew2 _ _ Hqb).
    replace (f + 1 + Z.of_nat (Z.to_nat (k - f - 1))) with k in * by lia. exists qb, qbs. done. }
  assert (bt_get f q2 = None) as Hf2.
  { rewrite Hold2, Hget by lia. destruct (Z.leb_spec f f), (Z.leb_spec f t); try done; lia. }
  assert (forall k, ~ f <= k <= t -> bt_get k q2 = bt_get k (queued v)) as Hother.
  { intros k Hk. rewrite Hold2, Hget by lia. destruct (Z.leb_spec f k), (Z.leb_spec k t); try done; lia. }
  cbn zeta. rewrite Hpb. assert (cv_inv chain max (moved v q2 sent)) as Him.
  { destruct Hi as [? ? ? _ ?]. split; [done..| |done]. cbn. apply (queue_ok_sub (queued v)); [done|done|]. intros k qbs Hk.
    destruct (decide (f <= k <= t)); [|rewrite Hother in Hk by done; eauto]. destruct (decide (k = f)) as [->|]; [congruence|].
    destruct (Habove k) as (qb & qbs' & Hk' & Hg & Hin & _); [lia|]. rewrite Hk' in Hk. injection Hk as <-. eauto 8. }
  exists (moved v q2 sent). split; [|split; try done; [cbn; lia|cbn; rewrite Hchan, Hch2; by rewrite <- app_assoc]].
  rewrite bool_decide_eq_true_2 by done. cbn [assert_ mbind res_bind].
  destruct (target_spec _ _ _ lo Him) as (p & o & (Hle & Hallp & _) & Ho & ->); [done|]. cbn [mbind res_bind].
  destruct o as [c|]; [|done]. destruct Ho as (_ & Hc & _). cbn in Hallp.
  assert (p < f) as Hpf by (apply Z.nle_gt; intros Hfp; destruct (Hallp f) as [x Hx]; [lia|congruence]).
  rewrite (bool_decide_eq_true_2 (target_partial_cmp (target_of (Some c)) (Checkpoint t) = Some Lt)), orb_true_r; [done|].
  cbn. f_equal. apply Z.compare_lt_iff. lia.
Qed.

Lemma process_range_spec v lo p t : cv_inv chain max v -> verified_height (verifier_progress v) = Some lo ->
  contiguous (queued v) lo p -> highest_checkpoint (checkpoint_list v) lo p (Some t) ->
  exists v', process_range v (chain lo) t = Ok v'
    /\ ((exists new sent, range_done v lo t v' new sent) \/ (exists f sent, range_failed v lo t v' f sent)).
Proof.
  intros Hi Hlo (Hle & Hall & Hnext) (Htc & Ht & Hmaxc). pose proof (ci_queue _ _ _ Hi) as Hq. pose proof (ci_chain _ _ _ Hi) as Hch.
  pose proof (verified_bound _ _ _ _ Hi Hlo) as Hb. unfold process_range. destruct Htc as [hash Hhash]. unfold cl_hash. rewrite Hhash.
  rewrite <- (ch_checkpoints _ _ Hch t hash Hhash). cbn [unwrap mbind res_bind].
  destruct (start_bound v lo Hlo) as (start & -> & Hst). cbn [unwrap mbind res_bind].
  rewrite (bounds_eq _ _ lo t) by (try done; try lia; intros [k qbs] Hk%(bt_get_elem _ _ _ (qo_sorted _ _ Hq)); by apply (qo_heights _ _ Hq k qbs)).
  cbn [mbind res_bind]. rewrite keys_heights_down by (try apply Hq; try lia; intros; apply Hall; lia).
  destruct (process_heights_spec chain (checkpoint_list v) max Hch (Z.to_nat (t - lo)) v t []) as (q' & new & parent & sent & -> & Hres & Hsent & Hchan);
    [done|done|lia|intros; apply Hall; lia|]. cbn [mbind res_bind]. rewrite app_nil_r. destruct Hres as (Hs' & Hon & Hres).
  destruct parent as [ph|].
  - destruct Hres as (Hlen & -> & Hget). replace (t - Z.of_nat (length new)) with lo in * by lia.
    rewrite bool_decide_eq_true_2 by done. cbn [assert_ mbind res_bind]. rewrite send_oks.
    destruct (range_success v lo p t q' new sent) as (v' & Hv' & Hd); try done; [lia|]. exists v'. split; [exact Hv'|eauto].
  - destruct Hres as (Hlen & Hno & Hget).
    destruct (range_failure v lo t q' new sent) as (v' & Hv' & Hd); try done; [lia|intros; apply Hall; lia|]. exists v'. split; [exact Hv'|eauto].
Qed.

Lemma process_spec v : cv_inv chain max v ->
  exists v', process_checkpoint_range v = Ok v'
    /\ ((v' = v /\ forall lo, verified_height (verifier_progress v) = Some lo ->
           exists p, contiguous (queued v) lo p /\ highest_checkpoint (checkpoint_list v) lo p None)
        \/ exists lo p t, verified_height (verifier_progress v) = Some lo /\ contiguous (queued v) lo p
         /\ highest_checkpoint (checkpoint_list v) lo p (Some t)
         /\ ((exists new sent, range_done v lo t v' new sent) \/ (exists f sent, range_failed v lo t v' f sent))).
Proof.
  intros Hi. unfold process_checkpoint_range. destruct (verified_height (verifier_progress v)) as [lo|] eqn:Hlo.
  2: { unfold previous_checkpoint_hash. destruct (verifier_progress v); try done. exists v. split; [done|]. left. split; [done|by intros lo]. }
  assert (exists v', (target ← target_checkpoint_height v;
    match target with Checkpoint target => process_range v (chain lo) target | WaitingForBlocks => Ok v | FinishedVerifying => Panic end) = Ok v'
    /\ ((v' = v /\ exists p, contiguous (queued v) lo p /\ highest_checkpoint (checkpoint_list v) lo p None)
       \/ exists p t, contiguous (queued v) lo p /\ highest_checkpoint (checkpoint_list v) lo p (Some t)
         /\ ((exists new sent, range_done v lo t v' new sent) \/ (exists f sent, range_failed v lo t v' f sent)))) as (v' & Hv' & Hcase).
  { destruct (target_spec _ _ _ _ Hi Hlo) as (p & o & Hcont & Ho & ->). cbn [mbind res_bind].
    destruct o as [t|]; cbn [target_of]; [|exists v; split; [done|]; left; eauto].
    destruct (process_range_spec v lo p t Hi Hlo Hcont Ho) as (v' & Hv' & Hd). exists v'. split; [done|]. right. eauto. }
  exists v'. split; [|destruct Hcase as [[-> Hn]|(p & t & Hcase)]; [left; split; [done|by intros ? [= <-]]|right; exists lo, p, t; tauto]].
  pose proof (ci_chain _ _ _ Hi) as Hch. pose proof (ci_progress _ _ _ Hi) as Hp. unfold progress_ok in Hp. unfold previous_checkpoint_hash.
  destruct (verifier_progress v) as [|h|h|] eqn:E; cbn in Hlo; try done; injection Hlo as <-.
  - cbn [mbind res_bind]. rewrite <- (ch_genesis _ _ Hch). exact Hv'.
  - destruct Hp as [_ ->]. exact Hv'.
  - destruct Hp as [_ [hash Hh]]. unfold cl_hash. rewrite Hh. cbn [unwrap mbind res_bind]. rewrite <- (ch_checkpoints _ _ Hch h hash Hh). exact Hv'.
Qed.

(** ** Queueing *)

Lemma check_block_Ok v block b : check_block v block = Ok b -> check_height v (sv_height b) = Ok tt
  /\ coinbase_height block = Some (sv_height b) /\ sv_block b = block /\ sv_hash b = block_hash (block_header block).
Proof.
  unfold check_block. intros (h & Hh & Hr)%bind_Ok_inv. apply ok_or_Ok in Hh. apply bind_Ok_inv in Hr as ([] & Hc & Hr).
  apply bind_Ok_inv in Hr as (_ & _ & Hr). apply bind_Ok_inv in Hr as (d & _ & Hr). apply bind_Ok_inv in Hr as (total & _ & Hr).
  apply bind_Ok_inv in Hr as (zero & _ & Hr). apply bind_Ok_inv in Hr as (b' & Hb & Hr). apply bind_Ok_inv in Hr as (_ & _ & Hr). injection Hr as <-.
  apply lift_Ok in Hb. unfold CheckpointVerifiedBlock_new in Hb. rewrite Hh in Hb. cbn [unwrap mbind res_bind] in Hb.
  apply bind_Ok_inv in Hb as (outs & _ & [= <-]). done.
Qed.

Lemma check_height_bound v h : max_height (checkpoint_list v) = Ok max -> check_height v h = Ok tt -> h <= max.
Proof.
  unfold check_height. intros ->. cbn [lift mbind res_bind]. destruct (Z.ltb_spec max h); [done|lia].
Qed.

Lemma replace_queued_spec nqb qbs :
  match replace_queued nqb qbs with
  | Some (qbs', old) => exists pre qb post, qbs = pre ++ qb :: post /\ qbs' = pre ++ nqb :: post /\ old = qb_tx qb /\ qb_hash qb = qb_hash nqb
  | None => qb_hash nqb ∉ qb_hash <$> qbs
  end.
Proof.
  induction qbs as [|qb qbs IH]; cbn [replace_queued]; [by apply not_elem_of_nil|]. fold (qb_hash qb) (qb_hash nqb). case_bool_decide as He.
  { exists [], qb, qbs. done. }
  destruct (replace_queued nqb qbs) as [[qbs' old]|]; cbn [mbind option_bind].
  - destruct IH as (pre & qb' & post & -> & -> & -> & Hh). by exists (qb :: pre), qb', post.
  - rewrite fmap_cons. apply not_elem_of_cons. auto.
Qed.

(** The queue after a block was added at its height. *)
Lemma queue_ok_insert q h qbs : queue_ok max q -> 0 <= h <= max -> qbs <> [] -> (length qbs <= MAX_QUEUED_BLOCKS_PER_HEIGHT)%nat ->
  NoDup (qb_hash <$> qbs) ->
  (forall qb, qb ∈ qbs -> qb_height qb = h /\ qb_hash qb = block_hash (block_header (sv_block (qb_block qb)))) ->
  queue_ok max (bt_insert h qbs q).
Proof.
  intros [Hs Hh Hl Hb] Hhm Hne Hlen Hnd Hqb. split; [auto|..].
  - intros k qbs' Hk. rewrite bt_get_insert in Hk. destruct (Z.eqb_spec k h) as [->|]; [done|eauto].
  - intros k qbs' Hk. rewrite bt_get_insert in Hk. destruct (Z.eqb_spec k h) as [->|]; [injection Hk as <-; done|eauto].
  - intros k qbs' qb Hk Hin. rewrite bt_get_insert in Hk. destruct (Z.eqb_spec k h) as [->|]; [injection Hk as <-; auto|eauto].
Qed.

Definition queued_at q (h : Z) qb : Prop := exists qbs, bt_get h q = Some qbs /\ qb ∈ qbs.

(** The block of [req] was added; an older block with its hash was answered. *)
Record added v v' (req : RequestBlock) (sent : list (nat * res VerifyCheckpointError bytes)) : Prop := {
  ad_list : checkpoint_list v' = checkpoint_list v;
  ad_network : cp_network v' = cp_network v;
  ad_resets : reset_requests v' = reset_requests v;
  ad_next : next_channel v' = S (next_channel v);
  ad_progress : verifier_progress v' = verifier_progress v;
  ad_rx : rb_rx req = next_channel v;
  ad_errors : only_errors sent;
  ad_answers : answers v' = answers v ++ sent;
  ad_channels : channels (queued v') ++ sent.*1 ≡ₚ rb_rx req :: channels (queued v);
  ad_blocks : forall h qb, queued_at (queued v') h qb -> queued_at (queued v) h qb \/ qb = mkQueuedBlock (rb_block req) (rb_rx req);
  ad_kept : forall h qb, queued_at (queued v) h qb -> exists qb', queued_at (queued v') h qb' /\ qb_hash qb' = qb_hash qb;
  ad_inv : cv_inv chain max v'
}.

Lemma insert_queued_at q h qbs' k qb : queued_at (bt_insert h qbs' q) k qb <-> (k = h /\ qb ∈ qbs') \/ (k <> h /\ queued_at q k qb).
Proof.
  unfold queued_at. rewrite bt_get_insert. destruct (Z.eqb_spec k h) as [->|Hne].
  - split; [intros (? & [= <-] & ?); by left|]. intros [[_ ?]|[? _]]; [eauto|done].
  - split; [intros ?; by right|]. intros [[? _]|[_ ?]]; done.
Qed.

Lemma queued_here q h qbs qb : bt_get h q = Some qbs -> queued_at q h qb -> qb ∈ qbs.
Proof. intros Hq (qbs' & Hq' & Hin). congruence. Qed.

(** The three cases of [queue_block] after the check of the block. *)
Section Queue.
Context v (b : SemanticallyVerifiedBlock).
Let w := (new_channel v).1.
Let nqb := mkQueuedBlock b (next_channel v).
Let req := mkRequestBlock b (next_channel v).
Hypothesis inv : cv_inv chain max v.
Hypothesis block_height : 0 <= sv_height b <= max.
Hypothesis block_binds : sv_hash b = block_hash (block_header (sv_block b)).

Lemma added_inv qbs s : qbs <> [] -> (length qbs <= MAX_QUEUED_BLOCKS_PER_HEIGHT)%nat -> NoDup (qb_hash <$> qbs) ->
  (forall qb, qb ∈ qbs -> queued_at (queued v) (sv_height b) qb \/ qb = nqb) ->
  cv_inv chain max (moved w (bt_insert (sv_height b) qbs (queued v)) s).
Proof.
  intros Hne Hlen Hnd Hqb. destruct inv as [? ? ? Hq ?]. split; [done..| |done]. cbn.
  apply queue_ok_insert; [done..|]. intros qb Hin. destruct (Hqb qb Hin) as [(qbs' & Hg & Hin')| ->]; [|done].
  by apply (qo_blocks _ _ Hq _ qbs' qb).
Qed.

Lemma queue_replace qbs pre qb post : bt_get (sv_height b) (queued v) = Some qbs -> qbs = pre ++ qb :: post -> qb_hash qb = sv_hash b ->
  added v (moved w (bt_insert (sv_height b) (pre ++ nqb :: post) (queued v)) [(qb_tx qb, Err (NewerRequest (sv_height b) (sv_hash b)))])
    req [(qb_tx qb, Err (NewerRequest (sv_height b) (sv_hash b)))].
Proof.
  intros Hg Hqbs Hh. pose proof (ci_queue _ _ _ inv) as Hq. destruct (qo_lists _ _ Hq _ _ Hg) as (_ & Hlen & Hnd). split; try done.
  - constructor; [cbn; eauto|constructor].
  - cbn [queued moved fmap list_fmap fst]. rewrite channels_insert by apply Hq. rewrite (channels_remove _ _ _ (qo_sorted _ _ Hq) Hg), Hqbs, !fmap_app.
    cbn [fmap list_fmap]. change (rb_rx req) with (qb_tx nqb). solve_Permutation.
  - cbn [queued moved]. intros k qb' [[-> Hin]|[_ Hat]]%insert_queued_at; [|by left]. apply elem_of_app in Hin as [Hin|[->|Hin]%elem_of_cons]; [|by right|].
    all: left; exists qbs; split; [done|]; rewrite Hqbs; set_solver.
  - cbn [queued moved]. intros k qb' Hat. setoid_rewrite insert_queued_at. destruct (decide (k = sv_height b)) as [->|]; [|eauto 8].
    apply (queued_here _ _ _ _ Hg) in Hat. rewrite Hqbs in Hat. apply elem_of_app in Hat as [Hin|[->|Hin]%elem_of_cons].
    + exists qb'. split; [left; split; [done|set_solver]|done].
    + exists nqb. split; [left; split; [done|set_solver]|done].
    + exists qb'. split; [left; split; [done|set_solver]|done].
  - apply added_inv; [by destruct pre|rewrite Hqbs in Hlen; rewrite length_app in *; done| |].
    + rewrite Hqbs in Hnd. rewrite !fmap_app, !fmap_cons in *. by rewrite Hh in Hnd.
    + intros qb' [Hin|[->|Hin]%elem_of_cons]%elem_of_app; [|by right|]; left; exists qbs; split; [done|rewrite Hqbs; set_solver|done|rewrite Hqbs; set_solver].
Qed.

Lemma queue_push : let qbs := default [] (bt_get (sv_height b) (queued v)) in
  (length qbs < MAX_QUEUED_BLOCKS_PER_HEIGHT)%nat -> qb_hash nqb ∉ qb_hash <$> qbs ->
  added v (moved w (bt_insert (sv_height b) (qbs ++ [nqb]) (queued v)) []) req [].
Proof.
  intros qbs Hlen Hni. pose proof (ci_queue _ _ _ inv) as Hq.
  assert (forall qb, qb ∈ qbs <-> queued_at (queued v) (sv_height b) qb) as Hqbs.
  { intros qb. unfold qbs, queued_at. destruct (bt_get _ _) as [l|]; cbn; [|rewrite elem_of_nil]; split; [eauto|by intros (? & [= <-] & ?)|done|by intros (? & [=] & _)]. }
  split; try done.
  - constructor.
  - cbn [queued moved fmap list_fmap]. rewrite app_nil_r, channels_insert, fmap_app by apply Hq. cbn [fmap list_fmap]. change (rb_rx req) with (qb_tx nqb).
    unfold qbs. destruct (bt_get (sv_height b) (queued v)) as [l|] eqn:Hg; cbn [default from_option id].
    + rewrite (channels_remove _ _ _ (qo_sorted _ _ Hq) Hg). solve_Permutation.
    + by rewrite remove_absent.
  - cbn [queued moved]. intros k qb [[-> [Hin|Hin]%elem_of_app]|[_ Hat]]%insert_queued_at; [left; by apply Hqbs| |by left].
    apply list_elem_of_singleton in Hin as ->. by right.
  - cbn [queued moved]. intros k qb Hat. setoid_rewrite insert_queued_at. exists qb. split; [|done].
    destruct (decide (k = sv_height b)) as [->|]; [|by right]. left. split; [done|]. apply Hqbs in Hat. set_solver.
  - apply added_inv; [by destruct qbs|rewrite length_app; cbn; lia| |].
    + rewrite fmap_app. apply NoDup_app. split; [|split; [|apply NoDup_singleton]].
      * unfold qbs. destruct (bt_get _ _) as [l|] eqn:Hg; cbn; [|constructor]. by apply (qo_lists _ _ Hq _ _ Hg).
      * intros x Hx ->%list_elem_of_singleton. done.
    + intros qb [Hin|Hin]%elem_of_app; [left; by apply Hqbs|]. apply list_elem_of_singleton in Hin as ->. by right.
Qed.
End Queue.

(** A height is a [u32]. *)
Definition height_wf (block : Block) : Prop := forall h, coinbase_height block = Some h -> 0 <= h.

Lemma queue_block_spec v block : cv_inv chain max v -> height_wf block -> check_block (new_channel v).1 block <> Panic ->
  exists v' r, queue_block v block = Ok (v', r)
    /\ match r with Ok req => exists sent, added v v' req sent | Err _ => v' = (new_channel v).1 | Panic => False end.
Proof.
  intros Hi Hwf Hnp. unfold queue_block. rewrite (surjective_pairing (new_channel v)).
  destruct (check_block (new_channel v).1 block) as [b|e|] eqn:Hcb; [| |done].
  2: { do 2 eexists. split; [done|]. done. }
  apply check_block_Ok in Hcb as (Hc & Hh & Hb & Hhash). change (queued (new_channel v).1) with (queued v).
  assert (0 <= sv_height b <= max) as Hbound.
  { split; [by apply Hwf|]. apply (check_height_bound (new_channel v).1); [apply Hi|done]. }
  assert (sv_hash b = block_hash (block_header (sv_block b))) as Hbind by by rewrite Hb.
  set (qbs := default [] (bt_get (sv_height b) (queued v))). set (nqb := mkQueuedBlock b (new_channel v).2).
  pose proof (replace_queued_spec nqb qbs) as Hrep. destruct (replace_queued nqb qbs) as [[qbs' old]|].
  - destruct Hrep as (pre & qb & post & Hqbs & -> & -> & Hqh). assert (bt_get (sv_height b) (queued v) = Some qbs) as Hg.
    { unfold qbs in *. destruct (bt_get _ _); [done|]. by destruct pre. }
    do 2 eexists. split; [done|]. eexists. exact (queue_replace v b Hi Hbound Hbind qbs pre qb post Hg Hqbs Hqh).
  - destruct (Nat.leb_spec MAX_QUEUED_BLOCKS_PER_HEIGHT (length qbs)) as [Hge|Hlt].
    { do 2 eexists. split; [done|]. done. }
    unfold queued_block_diagnostics. change (queued (with_queued (new_channel v).1 ?x)) with x.
    assert (exists e, last (bt_insert (sv_height b) (qbs ++ [nqb]) (queued v)) = Some e) as [e ->].
    { destruct (last _) as [e|] eqn:El; [eauto|]. apply last_None in El. pose proof (bt_get_insert (sv_height b) (qbs ++ [nqb]) (queued v) (sv_height b)) as Hg.
      rewrite El, Z.eqb_refl in Hg. done. }
    cbn [unwrap mbind res_bind]. do 2 eexists. split; [done|]. exists [].
    pose proof (queue_push v b Hi Hbound Hbind Hlt Hrep) as Ha. unfold moved in Ha. rewrite app_nil_r in Ha. exact Ha.
Qed.

(** * Runs of the verifier *)

Definition tip_ok (tip : option (Z * bytes)) : Prop := match tip with Some (h, hash) => 0 <= h /\ hash = chain h | None => True end.

Lemma progress_from_tip_ok l network tip q resets n a : list_ok l -> max_height l = Ok max -> chain_of l chain -> queue_ok max q -> tip_ok tip ->
  exists o p, progress_from_tip l tip = Ok (o, p) /\ cv_inv chain max (mkCheckpointVerifier l network o q p resets n a)
    /\ verified_checkpoint_diagnostics (mkCheckpointVerifier l network o q p resets n a) (progress_height p) = Ok tt.
Proof.
  intros Hl Hm Hc Hq Ht. unfold progress_from_tip. destruct tip as [[h hash]|]; [|do 2 eexists; split; [done|]; split; [by split|done]].
  destruct Ht as [Hh ->]. rewrite Hm. cbn [mbind res_bind]. destruct (Z.leb_spec max h) as [Hle|Hlt]; do 2 eexists; (split; [done|]); split; [by split|done| |].
  - split; [done..|]. unfold progress_ok. cbn. split; [lia|done].
  - cbn. destruct (prev_checkpoint_index_ok l h Hl Hh) as [i ->]. done.
Qed.

Lemma reset_progress_ok v tip : cv_inv chain max v -> tip_ok tip ->
  exists v', reset_progress v tip = Ok v' /\ cv_inv chain max v' /\ same_base v v' /\ queued v' = queued v /\ answers v' = answers v.
Proof.
  intros [Hl Hm Hc Hq _] Ht. unfold reset_progress.
  destruct (progress_from_tip_ok _ (cp_network v) tip (queued v) (reset_requests v) (next_channel v) (answers v) Hl Hm Hc Hq Ht) as (o & p & -> & Hi & Hd).
  cbn [mbind res_bind]. unfold with_progress. rewrite Hd. cbn [mbind res_bind]. by eexists.
Qed.

(** The verifier and the requests that it accepted. *)
Record run_inv v (reqs : list RequestBlock) : Prop := {
  ri_inv : cv_inv chain max v;
  ri_resets : Forall tip_ok (reset_requests v);
  ri_channels : channels (queued v) ++ (answers v).*1 ≡ₚ rb_rx <$> reqs;
  ri_unique : NoDup (rb_rx <$> reqs);
  ri_fresh : Forall (fun r => (rb_rx r < next_channel v)%nat) reqs;
  ri_queued : forall h qb, queued_at (queued v) h qb -> mkRequestBlock (qb_block qb) (qb_tx qb) ∈ reqs;
  ri_answers : forall c hash, (c, Ok hash) ∈ answers v -> exists b, mkRequestBlock b c ∈ reqs /\ hash = sv_hash b /\ hash = chain (sv_height b)
}.

Lemma run_inv_consume v v' reqs new sent : run_inv v reqs -> cv_inv chain max v' -> same_base v v' ->
  (forall h qb, queued_at (queued v') h qb -> queued_at (queued v) h qb) ->
  (forall qb, qb ∈ new -> exists h, queued_at (queued v) h qb /\ qb_hash qb = chain h) ->
  only_errors sent -> answers v' = answers v ++ sent ++ ok_answers new ->
  channels (queued v) ≡ₚ channels (queued v') ++ (qb_tx <$> new) ++ sent.*1 -> run_inv v' reqs.
Proof.
  intros [Hi Hr Hc Hu Hf Hq Ha] Hi' (Hl & Hn & Hres & Hnext) Hsub Hnew Herr Hans Hch.
  split; [done|by rewrite Hres| |done|by rewrite Hnext|by intros h qb ?%Hsub; eapply Hq|].
  - rewrite <- Hc, Hans, Hch, !fmap_app. unfold ok_answers. rewrite <- list_fmap_compose.
    rewrite (list_fmap_ext (fst ∘ _) qb_tx new) by done. solve_Permutation.
  - intros c hash. rewrite Hans. intros [Hin|[Hin|Hin]%elem_of_app]%elem_of_app; [by apply Ha| |].
    + unfold only_errors in Herr. rewrite Forall_forall in Herr. by destruct (Herr _ Hin) as [e [=]].
    + apply list_elem_of_fmap in Hin as (qb & [= -> ->] & Hin). destruct (Hnew qb Hin) as (h & Hat & Hh). exists (qb_block qb).
      split; [by eapply Hq|]. split; [done|]. rewrite Hh. f_equal. destruct Hat as (qbs & Hg & Hqb).
      by destruct (qo_blocks _ _ (ci_queue _ _ _ Hi) h qbs qb Hg Hqb) as [<- _].
Qed.

Lemma on_chain_queued q f new qb : on_chain chain q f new -> qb ∈ new -> exists h, queued_at q h qb /\ qb_hash qb = chain h.
Proof. intros Hon (i & Hi)%list_elem_of_lookup. destruct (Hon i qb Hi) as (Hh & qbs & Hg & Hin). exists (f + 1 + Z.of_nat i). split; [by exists qbs|done]. Qed.

Lemma process_run v reqs : run_inv v reqs -> exists v', process_checkpoint_range v = Ok v' /\ run_inv v' reqs.
Proof.
  intros Hri. destruct (process_spec v (ri_inv _ _ Hri)) as (v' & -> & [[Hv _]|(lo & p & t & Hlo & _ & _ & [(new & sent & Hd)|(f & sent & Hd)])]); exists v'; (split; [done|]); [by rewrite Hv| |].
  - destruct Hd as [Hbase Hon _ Herr Hans Hch _ Hget Hinv]. apply (run_inv_consume v v' reqs new sent); try done.
    + intros h qb (qbs & Hg & Hin). rewrite Hget in Hg. destruct (_ && _); [done|]. by exists qbs.
    + intros qb Hin. by eapply on_chain_queued.
  - destruct Hd as [Hbase Hf _ Herr Hans Hch _ Habove Hrem Hother Hinv]. apply (run_inv_consume v v' reqs [] sent); try done.
    + intros h qb (qbs & Hg & Hin). destruct (decide (f <= h <= t)) as [Hft|Hft]; [|rewrite Hother in Hg by done; by exists qbs].
      destruct (decide (h = f)) as [->|]; [congruence|]. destruct (Habove h) as (qb' & qbs' & Hg' & Hold & Hin' & _); [lia|].
      rewrite Hg' in Hg. injection Hg as <-. apply list_elem_of_singleton in Hin as ->. by exists qbs'.
    + by intros qb ?%elem_of_nil.
    + by rewrite app_nil_r.
Qed.

Lemma run_inv_added v v' reqs req sent : run_inv v reqs -> added v v' req sent -> run_inv v' (reqs ++ [req]).
Proof.
  intros [Hi Hr Hc Hu Hf Hq Ha] [Hl Hn Hres Hnext Hp Hrx Herr Hans Hch Hbl _ Hinv].
  assert (rb_rx req ∉ rb_rx <$> reqs) as Hnew.
  { intros (r & Hr' & Hin)%list_elem_of_fmap. rewrite Forall_forall in Hf. specialize (Hf r Hin). lia. }
  split; [done|by rewrite Hres| | | | |].
  - rewrite Hans, !fmap_app. cbn [fmap list_fmap]. rewrite <- Hc. transitivity (rb_rx req :: channels (queued v) ++ (answers v).*1); [|solve_Permutation].
    transitivity ((channels (queued v') ++ sent.*1) ++ (answers v).*1); [solve_Permutation|]. by rewrite Hch.
  - rewrite fmap_app. apply NoDup_app. split; [done|]. split; [|apply NoDup_singleton]. intros c Hin ->%list_elem_of_singleton. done.
  - apply Forall_app. split; [eapply Forall_impl; [exact Hf|]; cbn; intros r; lia|]. repeat constructor. lia.
  - intros h qb Hat. apply elem_of_app. destruct (Hbl h qb Hat) as [Hat'| ->]; [left; eauto|right]. destruct req. by left.
  - intros c hash. rewrite Hans. intros [Hin|Hin]%elem_of_app.
    + destruct (Ha c hash Hin) as (b & Hb & ?). exists b. split; [apply elem_of_app; by left|done].
    + unfold only_errors in Herr. rewrite Forall_forall in Herr. by destruct (Herr _ Hin) as [e [=]].
Qed.

(** The checks of a block do not panic. *)
Definition checks_return (l : CheckpointList) (network : Network) (block : Block) : Prop :=
  forall v, checkpoint_list v = l -> cp_network v = network -> check_block v block <> Panic.

Definition accept (reqs : list RequestBlock) (r : res VerifyCheckpointError RequestBlock) : list RequestBlock :=
  match r with Ok req => reqs ++ [req] | _ => reqs end.

Lemma call_run v reqs block : run_inv v reqs -> height_wf block ->
  checkpoint_call v block <> Panic \/ checks_return (checkpoint_list v) (cp_network v) block ->
  exists v' r, checkpoint_call v block = Ok (v', r) /\ run_inv v' (accept reqs r)
    /\ checkpoint_list v' = checkpoint_list v /\ cp_network v' = cp_network v.
Proof.
  intros Hri Hwf Hret. unfold checkpoint_call in *.
  assert (exists v1, match reset_requests v with tip :: resets => reset_progress (with_resets v resets) tip | [] => Ok v end = Ok v1
    /\ run_inv v1 reqs /\ checkpoint_list v1 = checkpoint_list v /\ cp_network v1 = cp_network v) as (v1 & Hv1 & Hr1 & Hl1 & Hn1).
  { destruct Hri as [Hi Hr Hc Hu Hf Hq Ha]. destruct (reset_requests v) as [|tip resets] eqn:Er; [exists v; split; [done|]; split; [split; try done; by rewrite Er|done]|].
    apply Forall_cons in Hr as [Ht Hr]. destruct (reset_progress_ok (with_resets v resets) tip) as (v1 & -> & Hi1 & (Hl & Hn & Hres & Hnext) & Hq1 & Ha1);
      [by destruct Hi|done|]. exists v1. split; [done|]. split; [|done]. split; [done|by rewrite Hres|by rewrite Hq1, Ha1|done|by rewrite Hnext|by rewrite Hq1|by rewrite Ha1]. }
  rewrite Hv1 in *. cbn [mbind res_bind] in *. case_bool_decide as Hfin; [by exists v1, (Err Finished)|].
  destruct (queue_block_spec v1 block (ri_inv _ _ Hr1) Hwf) as (v2 & r & -> & Hres).
  { destruct Hret as [Hne|Hret]; [|by apply Hret]. intros Hp. apply Hne. unfold queue_block. rewrite (surjective_pairing (new_channel v1)), Hp. done. } cbn [mbind res_bind].
  destruct r as [req|e|]; [| |done].
  - destruct Hres as (sent & Had). pose proof (run_inv_added v1 v2 reqs req sent Hr1 Had) as Hr2. destruct (process_spec v2 (ri_inv _ _ Hr2)) as (v3 & Hp & Hcase).
    destruct (process_run v2 _ Hr2) as (v3' & Hp' & Hr3). rewrite Hp in Hp'. apply Ok_inj in Hp' as <-. rewrite Hp. cbn [mbind res_bind].
    exists v3, (Ok req). split; [done|]. split; [done|]. rewrite <- Hl1, <- Hn1, <- (ad_list _ _ _ _ Had), <- (ad_network _ _ _ _ Had).
    destruct Hcase as [[-> _]|(lo & p & t & _ & _ & _ & [(new & s & Hd)|(f & s & Hd)])]; [done|..].
    + split; apply (rd_base _ _ _ _ _ _ Hd).
    + split; apply (rf_base _ _ _ _ _ _ Hd).
  - subst v2. exists (new_channel v1).1, (Err e). split; [done|]. split; [|done]. destruct Hr1 as [[? ? ? ? ?] ? ? ? Hf ? ?]. split; try done.
    eapply Forall_impl; [exact Hf|]. cbn. lia.
Qed.

(** ** Progress *)

(** The blocks of the chain above [lo], up to [c], are queued. *)
Definition complete v (lo c : Z) : Prop := forall h, lo < h <= c -> exists qb, queued_at (queued v) h qb /\ qb_hash qb = chain h.
Fixpoint process_repeatedly (n : nat) v : outcome CheckpointVerifier :=
  match n with O => Ok v | S n => v ← process_checkpoint_range v; process_repeatedly n v end.
Definition reached (c : Z) v : Prop := match verified_height (verifier_progress v) with Some h => c <= h | None => True end.

Lemma done_answers v lo t v' new sent h : range_done v lo t v' new sent -> lo < h <= t ->
  exists qb, queued_at (queued v) h qb /\ qb_hash qb = chain h /\ (qb_tx qb, Ok (chain h)) ∈ answers v'.
Proof.
  intros Hd Hh. pose proof (rd_length _ _ _ _ _ _ Hd). destruct (lookup_lt_is_Some_2 new (Z.to_nat (h - lo - 1))) as [qb Hqb]; [lia|].
  destruct (rd_new _ _ _ _ _ _ Hd _ _ Hqb) as (Hc & qbs & Hg & Hin). replace (lo + 1 + Z.of_nat (Z.to_nat (h - lo - 1))) with h in * by lia.
  exists qb. split; [by exists qbs|]. split; [done|]. rewrite (rd_answers _ _ _ _ _ _ Hd), <- Hc. apply elem_of_app. right. apply elem_of_app. right.
  apply list_elem_of_fmap. exists qb. split; [done|]. by eapply list_elem_of_lookup_2.
Qed.

Lemma range_completes_to m : forall v lo c p t, cv_inv chain max v -> verified_height (verifier_progress v) = Some lo ->
  is_Some (bt_get c (checkpoint_list v)) -> lo < c -> complete v lo c ->
  contiguous (queued v) lo p -> highest_checkpoint (checkpoint_list v) lo p (Some t) -> (Z.to_nat (t - lo) <= m)%nat ->
  exists n v', (n <= m)%nat /\ process_repeatedly n v = Ok v' /\ reached c v'
    /\ forall h, lo < h <= c -> exists qb, queued_at (queued v) h qb /\ qb_hash qb = chain h /\ (qb_tx qb, Ok (chain h)) ∈ answers v'.
Proof.
  induction m as [|m IH]; intros v lo c p t Hi Hlo Hc Hlt Hcomp Hcont Ht Hm; [cbn in Ht; lia|].
  assert (forall w p', complete w lo c -> contiguous (queued w) lo p' -> c <= p') as Hcov.
  { intros w p' Hw (Hle & _ & Hn). apply Z.nlt_ge. intros Hpc. destruct (Hw (p' + 1)) as (qb & (qbs & Hg & _) & _); [lia|]. congruence. }
  pose proof (Hcov v p Hcomp Hcont) as Hcp.
  destruct (process_spec v Hi) as (v' & Hp & [[-> Hn]|(lo' & p' & t' & Hlo' & Hcont' & Ht' & Hcase)]).
  { destruct (Hn lo Hlo) as (p' & Hcont' & Hnone). pose proof (contiguous_unique _ _ _ _ Hcont Hcont') as <-. destruct (Hnone c Hc). lia. }
  rewrite Hlo in Hlo'. injection Hlo' as <-. pose proof (contiguous_unique _ _ _ _ Hcont Hcont') as <-.
  assert (t' = t) as ->. { destruct Ht as (? & ? & Hx), Ht' as (? & ? & Hy). apply Z.le_antisymm; [by apply Hx|by apply Hy]. }
  assert (c <= t) as Hct by (apply Ht; [done|lia]). destruct Hcase as [(new & sent & Hd)|(f & sent & Hd)].
  - exists 1%nat, v'. split; [lia|]. cbn [process_repeatedly]. rewrite Hp. cbn [mbind res_bind]. split; [done|]. split.
    + unfold reached. rewrite (rd_progress _ _ _ _ _ _ Hd). destruct (t =? max); cbn; done.
    + intros h Hh. eapply done_answers; [done|lia].
  - destruct Hd as [(Hl & _) Hf Hinv _ Hans _ Hprog _ Hrem Hother Hi'].
    assert (c < f) as Hcf. { apply Z.nle_gt. intros Hfc. destruct (Hcomp f) as (qb & (qbs & Hg & Hin) & Hh); [lia|]. by apply (Hinv qbs qb). }
    assert (forall h qb, lo < h <= c -> queued_at (queued v') h qb <-> queued_at (queued v) h qb) as Hsame.
    { intros h qb Hh. unfold queued_at. by rewrite Hother by lia. }
    assert (complete v' lo c) as Hcomp'. { intros h Hh. destruct (Hcomp h Hh) as (qb & Hat & ?). exists qb. split; [by apply Hsame|done]. }
    destruct (target_spec _ _ v' lo Hi') as (p2 & o & Hcont2 & Ho & _); [by rewrite Hprog|]. pose proof (Hcov v' p2 Hcomp' Hcont2) as Hcp2.
    assert (p2 < f) as Hpf. { apply Z.nle_gt. intros Hfp. destruct Hcont2 as (_ & Hall & _). destruct (Hall f) as [x Hx]; [lia|congruence]. }
    rewrite <- Hl in Hc. destruct o as [t2|]; [|destruct (Ho c Hc); lia].
    destruct (IH v' lo c p2 t2) as (n & v2 & Hnm & Hrun & Hreach & Hres); try done; [by rewrite Hprog|destruct Ho as (_ & ? & _); lia|].
    exists (S n), v2. split; [lia|]. cbn [process_repeatedly]. rewrite Hp. cbn [mbind res_bind]. split; [done|]. split; [done|].
    intros h Hh. destruct (Hres h Hh) as (qb & Hat & ?). exists qb. split; [by apply Hsame|done].
Qed.
End Process.

(** A step of a run: a call, or a request to reset the verifier to a tip of the
    chain. *)
Inductive cp_step (chain : Z -> bytes) : CheckpointVerifier * list RequestBlock -> CheckpointVerifier * list RequestBlock -> Prop :=
| cs_call v reqs block v' r : height_wf block -> checkpoint_call v block = Ok (v', r) ->
    cp_step chain (v, reqs) (v', accept reqs r)
| cs_reset v reqs tip : tip_ok chain tip -> cp_step chain (v, reqs) (request_reset v tip, reqs).

Lemma from_checkpoint_list_run l chain network tip : list_ok l -> chain_of l chain -> tip_ok chain tip ->
  exists max v, max_height l = Ok max /\ from_checkpoint_list l network tip = Ok v /\ run_inv chain max v []
    /\ checkpoint_list v = l /\ cp_network v = network.
Proof.
  intros Hl Hc Ht. destruct (max_height_spec l Hl) as (max & Hm & _). exists max.
  assert (queue_ok max []) as Hq by (split; [constructor|done..]).
  destruct (progress_from_tip_ok chain max l network tip [] [] 0 [] Hl Hm Hc Hq Ht) as (o & p & Hp & Hi & Hd).
  unfold from_checkpoint_list. rewrite Hp. cbn [mbind res_bind]. rewrite Hd.
  exists (mkCheckpointVerifier l network o [] p [] 0 []). split; [done|]. split; [by case_bool_decide|].
  split; [|done]. split; [done|constructor|done|constructor|constructor|by intros h qb (qbs & [=] & _)|by intros c hash ?%elem_of_nil].
Qed.

Lemma step_run chain max v reqs v' reqs' : run_inv chain max v reqs -> cp_step chain (v, reqs) (v', reqs') ->
  run_inv chain max v' reqs' /\ checkpoint_list v' = checkpoint_list v /\ cp_network v' = cp_network v.
Proof.
  intros Hri Hstep. inversion Hstep as [? ? block ? r Hwf Hcall|? ? tip Ht]; subst.
  - destruct (call_run chain max v reqs block Hri Hwf) as (v2 & r2 & Hcall2 & Hr2); [left; by rewrite Hcall|]. rewrite Hcall in Hcall2. by injection Hcall2 as <- <-.
  - split; [|done]. destruct Hri as [[? ? ? ? ?] Hr ? ? ? ? ?]. split; try done. cbn. apply Forall_app. split; [done|by repeat constructor].
Qed.

Lemma reachable_run l chain network tip v0 v reqs : list_ok l -> chain_of l chain -> tip_ok chain tip ->
  from_checkpoint_list l network tip = Ok v0 -> rtc (cp_step chain) (v0, []) (v, reqs) ->
  exists max, max_height l = Ok max /\ run_inv chain max v reqs /\ checkpoint_list v = l /\ cp_network v = network.
Proof.
  intros Hl Hc Ht H0v Hrun. destruct (from_checkpoint_list_run l chain network tip Hl Hc Ht) as (max & v1 & Hm & H1v & Hri & Hl1 & Hn1).
  rewrite H0v in H1v. apply Ok_inj in H1v as <-. exists max. split; [done|].
  remember (v0, []) as a eqn:Ea. remember (v, reqs) as z eqn:Ez. clear H0v. revert v0 Ea Hri Hl1 Hn1. generalize ([] : list RequestBlock) as r0.
  induction Hrun as [|a [v2 r2] z Hstep Hrun IH]; intros r0 v0 -> Hri Hl1 Hn1; [by simplify_eq|].
  destruct (step_run chain max v0 r0 v2 r2 Hri Hstep) as (Hri2 & Hl2 & Hn2). apply (IH Ez r2 v2 eq_refl Hri2); congruence.
Qed.

(** C15. Checkpoint verification accepts only the chain of the checkpoints and
    loses no request. In every run of the verifier from a list that [from_list]
    accepts, with calls for arbitrary blocks and resets to tips of the chain
    that the checkpoints are on: a result that reports a block as verified goes
    to a request for a block with the hash of the chain at its height; every
    request has either its block in the queue or exactly one result; at most
    four blocks are queued at a height; and no assertion of a call fails,
    provided the checks of the single block do not panic. *)
Theorem checkpoint_verifier_safety checkpoints l chain network tip v0 v reqs :
  Forall (fun e => 0 <= e.1) checkpoints -> from_list checkpoints = Ok l -> chain_of l chain -> tip_ok chain tip ->
  from_checkpoint_list l network tip = Ok v0 -> rtc (cp_step chain) (v0, []) (v, reqs) ->
  (forall c hash, (c, Ok hash) ∈ answers v -> exists b, mkRequestBlock b c ∈ reqs /\ hash = sv_hash b /\ hash = chain (sv_height b))
  /\ NoDup (channels (queued v) ++ (answers v).*1)
  /\ (forall req, req ∈ reqs -> rb_rx req ∈ channels (queued v) ++ (answers v).*1)
  /\ (forall h qbs, bt_get h (queued v) = Some qbs -> (length qbs <= 4)%nat)
  /\ (forall block, height_wf block -> checks_return l network block -> exists v' r, checkpoint_call v block = Ok (v', r)).
Proof.
  intros Hpos Hfrom Hc Ht H0v Hrun. pose proof (from_list_ok checkpoints l Hpos Hfrom) as Hl.
  destruct (reachable_run l chain network tip v0 v reqs Hl Hc Ht H0v Hrun) as (max & Hm & Hri & Hlv & Hnv). pose proof Hri as [Hi _ Hch Hu _ _ Ha].
  split; [exact Ha|]. split; [by rewrite Hch|]. split; [intros req Hin; rewrite Hch; by apply list_elem_of_fmap_2|].
  split; [intros h qbs Hg; by apply (qo_lists _ _ (ci_queue _ _ _ Hi) h)|].
  intros block Hwf Hret. destruct (call_run chain max v reqs block Hri Hwf) as (v' & r & Hcall & _); [right; by rewrite Hlv, Hnv|]. eauto.
Qed.

(** C26. A complete range is verified. When the blocks of the chain from the last
    verified height up to a checkpoint are queued, whatever other blocks are
    queued with them, then after finitely many runs of the range processing,
    each of which returns, the checkpoint is verified and the requests for
    these blocks have their results. *)
Theorem checkpoint_range_completes checkpoints l chain network tip v0 v reqs lo c :
  Forall (fun e => 0 <= e.1) checkpoints -> from_list checkpoints = Ok l -> chain_of l chain -> tip_ok chain tip ->
  from_checkpoint_list l network tip = Ok v0 -> rtc (cp_step chain) (v0, []) (v, reqs) ->
  verified_height (verifier_progress v) = Some lo -> is_Some (bt_get c l) -> lo < c -> complete chain v lo c ->
  exists n v', process_repeatedly n v = Ok v' /\ reached c v'
    /\ forall h, lo < h <= c -> exists qb, queued_at (queued v) h qb /\ qb_hash qb = chain h /\ (qb_tx qb, Ok (chain h)) ∈ answers v'.
Proof.
  intros Hpos Hfrom Hc Ht H0v Hrun Hlo Hcl Hlt Hcomp. pose proof (from_list_ok checkpoints l Hpos Hfrom) as Hl.
  destruct (reachable_run l chain network tip v0 v reqs Hl Hc Ht H0v Hrun) as (max & Hm & Hri & Hlv & Hnv). pose proof (ri_inv _ _ _ _ Hri) as Hi.
  destruct (target_spec _ _ v lo Hi Hlo) as (p & o & Hcont & Ho & _). rewrite <- Hlv in Hcl.
  assert (c <= p) as Hcp. { apply Z.nlt_ge. intros Hpc. destruct Hcont as (? & _ & Hn). destruct (Hcomp (p + 1)) as (qb & (qbs & Hg & _) & _); [lia|]. congruence. }
  destruct o as [t|]; [|destruct (Ho c Hcl); lia].
  destruct (range_completes_to chain max (Z.to_nat (t - lo)) v lo c p t) as (n & v' & _ & Hrun' & Hreach & Hres); try done. exists n, v'. done.
Qed.
End Proofs.

(** A configured network whose Canopy activation is above height 1 has no
    checkpoint at or above its mandatory height, so without
    [checkpoint_sync] the node does not start. *)
Lemma configured_network_needs_checkpoint_sync `{BuildProfile} `{!AddressParser} hard_coded p canopy :
  is_default_testnet p = Ok false -> genesis_hash_ p <> zero_bytes 32 ->
  activation_height Canopy (Testnet p) = Some canopy -> 1 < canopy <= Height_MAX ->
  init_checkpoint_list hard_coded true (Testnet p) = Ok ([(0, genesis_hash_ p)], 0)
  /\ init_checkpoint_list hard_coded false (Testnet p) = Panic.
Proof.
  intros Hd Hg Hc Hlt.
  assert (network_checkpoint_list hard_coded (Testnet p) = Ok [(0, genesis_hash_ p)]) as Hl.
  { unfold network_checkpoint_list. rewrite Hd. cbn [mbind res_bind]. unfold from_list.
    change (bt_from_list [(0, genesis_hash_ p)]) with [(0, genesis_hash_ p)]. cbn [head length fmap list_fmap snd list_to_set mbind res_bind Z.eqb Nat.eqb negb].
    rewrite union_empty_r_L, size_singleton. cbn [Nat.eqb negb]. rewrite bool_decide_eq_false_2; [reflexivity|].
    rewrite elem_of_union, elem_of_singleton. intros [E|E]; [exact (Hg (eq_sym E))|exact (not_elem_of_empty _ E)]. }
  unfold init_checkpoint_list. rewrite Hl. cbn [mbind res_bind]. split; [reflexivity|]. unfold mandatory_checkpoint_height. rewrite Hc. cbn [unwrap mbind res_bind].
  rewrite height_previous_spec, (proj2 (Z.ltb_lt 0 canopy)) by (unfold valid_height, Height_MIN; lia). cbn [expect mbind res_bind]. unfold min_height_in_range, bt_bounds.
  cbn [range_panics mbind res_bind]. rewrite filter_cons_False; [done|]. cbn. rewrite (proj2 (Z.leb_gt _ _)) by lia. done.
Qed.

Module CheckpointExample.
#[local] Existing Instance release_build.
#[local] Instance example_parser : AddressParser := fun _ => Some (PayToScriptHash TestnetKind []).
#[local] Existing Instance BlockExample.example_primitives.
(** The hash of a header shows its parent; blocks with another time than 1000
    are not on the chain. *)
#[local] Instance linked_hashes : BlockPrimitives := {
  block_hash := fun h => (if time h =? 1000 then Byte.x01 else Byte.x02) :: previous_block_hash h;
  merkle_hash := fun a b => Byte.xff :: a ++ b;
  is_valid_solution := fun _ _ _ _ _ => true
}.
Definition chain (h : Z) : bytes := replicate (Z.to_nat (h + 1)) Byte.x01 ++ zero_bytes 32.
Definition checkpoints : list (Z * bytes) := [(0, chain 0); (1, chain 1); (2, chain 2)].
Definition block_at (h t : Z) : Block :=
  mkBlock (mkHeader 4 (chain (h - 1)) [Byte.x05] (zero_bytes 32) t 0x1f07ffff (zero_bytes 32) Solution_for_proposal FatPointerToBftBlock_null)
    [V4 [Coinbase h [] u32_MAX] [] (LockHeight 0) 0 None None].

Lemma chain_step h : 0 <= h -> chain h = Byte.x01 :: chain (h - 1).
Proof. intros Hh. unfold chain. replace (Z.to_nat (h + 1)) with (S (Z.to_nat (h - 1 + 1))) by lia. reflexivity. Qed.

Lemma example_chain : chain_of checkpoints chain.
Proof.
  split.
  - reflexivity.
  - intros h hash Hg%bt_get_Some_elem. unfold checkpoints in Hg. rewrite !elem_of_cons, elem_of_nil in Hg.
    destruct Hg as [[= -> ->]|[[= -> ->]|[[= -> ->]|[]]]]; reflexivity.
  - intros header h Hh Heq. rewrite chain_step in Heq by done. by injection Heq.
Qed.

Definition call_step (x : CheckpointVerifier * list RequestBlock) (block : Block) : outcome (CheckpointVerifier * list RequestBlock) :=
  '(v, r) ← checkpoint_call x.1 block; Ok (v, accept x.2 r).
Lemma calls_reachable blocks x y : Forall height_wf blocks -> foldM call_step x blocks = Ok y -> rtc (cp_step chain) x y.
Proof.
  intros Hwf. revert x. induction Hwf as [|block blocks Hb Hwf IH]; intros [v reqs]; cbn [foldM]; [by intros [= <-]|].
  intros (z & ([v' r] & Hcall & [= <-])%bind_Ok_inv & Hr)%bind_Ok_inv. eapply rtc_l; [by apply (cs_call chain v reqs block v' r)|]. by apply IH.
Qed.

Definition start : CheckpointVerifier := mkCheckpointVerifier checkpoints BlockExample.network None [] BeforeGenesis [] 0 [].
Lemma blocks_wf l : (forall h t, (h, t) ∈ l -> 0 <= h) -> Forall height_wf ((fun x => block_at x.1 x.2) <$> l).
Proof.
  intros Hl. apply Forall_fmap, Forall_forall. intros [h t] Hin h'. cbn. intros [= <-]. by apply (Hl h t).
Qed.

(** A block that is not on the chain is dropped, and with the missing block the
    last checkpoint is verified. *)
Lemma checkpoint_verifier_safety_witness :
  exists v reqs, foldM call_step (start, []) [block_at 0 1000; block_at 2 999; block_at 1 1000; block_at 2 1000] = Ok (v, reqs)
    /\ verifier_progress v = FinalCheckpoint /\ (answers v).*1 = [0; 1; 2; 3]%nat
    /\ NoDup (channels (queued v) ++ (answers v).*1)
    /\ forall c hash, (c, Ok hash) ∈ answers v -> exists b, mkRequestBlock b c ∈ reqs /\ hash = sv_hash b /\ hash = chain (sv_height b).
Proof.
  destruct (foldM call_step (start, []) [block_at 0 1000; block_at 2 999; block_at 1 1000; block_at 2 1000]) as [[v reqs]|e|] eqn:Hrun; [|destruct e|].
  2: { exfalso. assert (is_ok (foldM call_step (start, []) [block_at 0 1000; block_at 2 999; block_at 1 1000; block_at 2 1000]) = true) as Hok
         by (vm_compute; reflexivity). rewrite Hrun in Hok. discriminate. }
  exists v, reqs. split; [reflexivity|].
  assert ((fun x => (verifier_progress x.1, (answers x.1).*1)) <$> foldM call_step (start, []) [block_at 0 1000; block_at 2 999; block_at 1 1000; block_at 2 1000]
    = Ok (FinalCheckpoint, [0; 1; 2; 3]%nat)) as Hv by (vm_compute; reflexivity).
  rewrite Hrun in Hv. injection Hv as Hp Ha. split; [exact Hp|]. split; [exact Ha|].
  destruct (checkpoint_verifier_safety checkpoints checkpoints chain BlockExample.network None start v reqs) as (H1 & H2 & _).
  - repeat constructor; cbn; lia.
  - vm_compute. reflexivity.
  - exact example_chain.
  - exact I.
  - reflexivity.
  - apply (calls_reachable ((fun x => block_at x.1 x.2) <$> [(0, 1000); (2, 999); (1, 1000); (2, 1000)])); [|exact Hrun].
    apply blocks_wf. intros h t. rewrite !elem_of_cons, elem_of_nil. intros [[= -> _]|[[= -> _]|[[= -> _]|[[= -> _]|[]]]]]; lia.
  - split; [exact H2|exact H1].
Defined.

(** The block that is not on the chain hides the block below it until the next
    run. *)
Lemma checkpoint_range_completes_witness :
  exists v reqs n v', foldM call_step (start, []) [block_at 0 1000; block_at 2 999; block_at 1 1000] = Ok (v, reqs)
    /\ verifier_progress v = PreviousCheckpoint 0 /\ process_repeatedly n v = Ok v' /\ reached 1 v'.
Proof.
  destruct (foldM call_step (start, []) [block_at 0 1000; block_at 2 999; block_at 1 1000]) as [[v reqs]|e|] eqn:Hrun; [|destruct e|].
  2: { exfalso. assert (is_ok (foldM call_step (start, []) [block_at 0 1000; block_at 2 999; block_at 1 1000]) = true) as Hok
         by (vm_compute; reflexivity). rewrite Hrun in Hok. discriminate. }
  assert (match foldM call_step (start, []) [block_at 0 1000; block_at 2 999; block_at 1 1000] with
    | Ok x => bool_decide (verifier_progress x.1 = PreviousCheckpoint 0 /\ ((fun e => (e.1, qb_hash <$> e.2)) <$> queued x.1) = [(1, [chain 1])])
    | _ => false end = true) as Hv by (vm_compute; reflexivity).
  rewrite Hrun in Hv. apply bool_decide_eq_true_1 in Hv as [Hp Hq]. cbn [fst] in Hp, Hq.
  destruct (checkpoint_range_completes checkpoints checkpoints chain BlockExample.network None start v reqs 0 1) as (n & v' & Hn & Hr & _).
  - repeat constructor; cbn; lia.
  - vm_compute. reflexivity.
  - exact example_chain.
  - exact I.
  - reflexivity.
  - apply (calls_reachable ((fun x => block_at x.1 x.2) <$> [(0, 1000); (2, 999); (1, 1000)])); [|exact Hrun].
    apply blocks_wf. intros h t. rewrite !elem_of_cons, elem_of_nil. intros [[= -> _]|[[= -> _]|[[= -> _]|[]]]]; lia.
  - by rewrite Hp.
  - by eexists.
  - lia.
  - intros h Hh. replace h with 1 by lia. destruct (queued v) as [|[k [|qb [|]]] [|]]; try discriminate Hq. injection Hq as -> Hh1.
    exists qb. split; [|exact Hh1]. exists [qb]. split; [reflexivity|left].
  - exists v, reqs, n, v'. split; [reflexivity|]. split; [exact Hp|]. split; [exact Hn|exact Hr].
Defined.
End CheckpointExample.
