(* ===== verification/Mempool.v ===== *)
(** The storage of the mempool ([zebrad/src/components/mempool/storage.rs],
    [storage/verified_set.rs], [storage/eviction_list.rs],
    [pending_outputs.rs], [error.rs]) and the dependencies between its
    transactions ([zebra-node-services/src/mempool/transaction_dependencies.rs]).

    The clock and the random choices of an operation are arguments: [now] is
    the reading of the clock, which the code takes several times within one
    operation, and [random] picks an index from a list of weights. Hash maps
    and hash sets are iterated in the order of the keys. Metrics and the time
    and height at which a transaction entered are left out; pruning that
    happens while metrics are computed is not. *)
From S2P Require Import Prelude Serialization Height Amount FundingStreams NetworkUpgrade Subsidy Transaction TransactionVerifier.
From stdpp Require Import strings gmap sorting fin_maps relations prelude.
From Stdlib Require Import ZArith Lia.
#[local] Open Scope Z_scope.

(** * Errors *)

#[export] Instance UnminedTxId_eq_dec : EqDecision UnminedTxId.
Proof. solve_decision. Defined.
#[export] Instance UnminedTxId_countable : Countable UnminedTxId.
Proof.
  refine (inj_countable' (fun id => match id with Legacy h => inl h | Witnessed h a => inr (h, a) end)
    (fun s => match s with inl h => Legacy h | inr (h, a) => Witnessed h a end) _).
  by intros [].
Defined.

Inductive ExactTipRejectionError : Type := FailedVerification (e : TransactionError).
Inductive SameEffectsTipRejectionError : Type := SpendConflict | MissingOutput.
Inductive SameEffectsChainRejectionError : Type := Expired | DuplicateSpend | Mined | RandomlyEvicted.
Inductive RejectionError : Type :=
| ExactTip (e : ExactTipRejectionError)
| SameEffectsTip (e : SameEffectsTipRejectionError)
| SameEffectsChain (e : SameEffectsChainRejectionError).
Inductive MempoolError : Type :=
| StorageExactTip (e : ExactTipRejectionError)
| StorageEffectsTip (e : SameEffectsTipRejectionError)
| StorageEffectsChain (e : SameEffectsChainRejectionError)
| InMempool
| AlreadyQueued
| FullQueue
| Disabled.

#[export] Instance SameEffectsChainRejectionError_eq_dec : EqDecision SameEffectsChainRejectionError.
Proof. solve_decision. Defined.
#[export] Instance SameEffectsChainRejectionError_countable : Countable SameEffectsChainRejectionError.
Proof.
  refine (inj_countable' (fun e => match e with Expired => 0 | DuplicateSpend => 1 | Mined => 2 | RandomlyEvicted => 3 end)
    (fun n => match n with 0 => Expired | 1 => DuplicateSpend | 2 => Mined | _ => RandomlyEvicted end) _).
  by intros [].
Defined.

(** * Lists of rejected transactions *)

Record EvictionList := mkEvictionList {
  unique_entries : gmap bytes Z;
  ordered_entries : list bytes;
  max_size : Z;
  eviction_memory_time : Z
}.
Definition EvictionList_new (max_size : Z) (eviction_memory_time : Z) : EvictionList :=
  mkEvictionList ∅ [] max_size eviction_memory_time.

(** The difference of two instants is zero when the second is later. *)
Definition has_expired (l : EvictionList) (now evicted_at : Z) : bool :=
  eviction_memory_time l <? Z.max 0 (now - evicted_at).

Definition pop_front (l : EvictionList) : outcome EvictionList :=
  match ordered_entries l with
  | key :: rest =>
      _ ← assert_ (bool_decide (is_Some (unique_entries l !! key)));
      Ok (mkEvictionList (delete key (unique_entries l)) rest (max_size l) (eviction_memory_time l))
  | [] => Ok l
  end.

(** One step of the loop removes the front entry, so there are at most as many
    steps as entries. *)
Fixpoint prune_loop (fuel : nat) (now : Z) (l : EvictionList) : outcome EvictionList :=
  match fuel, ordered_entries l with
  | S fuel, txid :: _ =>
      evicted_at ← unwrap (unique_entries l !! txid);
      if has_expired l now evicted_at then l ← pop_front l; prune_loop fuel now l else Ok l
  | _, _ => Ok l
  end.
Definition prune_old (now : Z) (l : EvictionList) : outcome EvictionList := prune_loop (length (ordered_entries l)) now l.

Definition EvictionList_len (now : Z) (l : EvictionList) : outcome (EvictionList * Z) :=
  l ← prune_old now l; Ok (l, Z.of_nat (size (unique_entries l))).

Definition EvictionList_insert (now : Z) (key : bytes) (l : EvictionList) : outcome EvictionList :=
  l ← prune_old now l;
  '(l, len) ← EvictionList_len now l;
  l ← (if max_size l <=? len then pop_front l else Ok l);
  _ ← assert_ (bool_decide (unique_entries l !! key = None));
  Ok (mkEvictionList (<[key := now]> (unique_entries l)) (ordered_entries l ++ [key]) (max_size l) (eviction_memory_time l)).

Definition contains_key (now : Z) (l : EvictionList) (txid : bytes) : bool :=
  match unique_entries l !! txid with
  | Some evicted_at => negb (has_expired l now evicted_at)
  | None => false
  end.

(** * Dependencies between transactions *)

Record TransactionDependencies := mkTransactionDependencies {
  dependencies : gmap bytes (gset bytes);
  dependents : gmap bytes (gset bytes)
}.
Implicit Types d : TransactionDependencies.
Definition no_dependencies : TransactionDependencies := mkTransactionDependencies ∅ ∅.

Definition add_dependencies d (dependent : bytes) (spent_mempool_outpoints : list OutPoint) : TransactionDependencies :=
  mkTransactionDependencies
    (match spent_mempool_outpoints with
     | [] => dependencies d
     | _ => <[dependent := list_to_set (outpoint_hash <$> spent_mempool_outpoints)]> (dependencies d)
     end)
    (foldl (fun m o => <[outpoint_hash o := {[dependent]} ∪ default ∅ (m !! outpoint_hash o)]> m)
       (dependents d) spent_mempool_outpoints).

(** The id that is removed from the dependencies of [dependent_id] is
    [dependent_id] itself. *)
Definition clear_dependency d (dependent_id : bytes) : TransactionDependencies :=
  match dependencies d !! dependent_id with
  | None => d
  | Some deps => mkTransactionDependencies (<[dependent_id := deps ∖ {[dependent_id]}]> (dependencies d)) (dependents d)
  end.
Definition clear_mined_dependencies d (mined_ids : gset bytes) : TransactionDependencies :=
  foldl (fun d mined_tx_id =>
    foldl clear_dependency
      (mkTransactionDependencies (dependencies d) (delete mined_tx_id (dependents d)))
      (elements (default ∅ (dependents d !! mined_tx_id))))
    d (elements mined_ids).

Definition direct_dependents d (tx_hash : bytes) : gset bytes := default ∅ (dependents d !! tx_hash).
Definition direct_dependencies d (tx_hash : bytes) : gset bytes := default ∅ (dependencies d !! tx_hash).

(** The [flat_map] over one level. *)
Definition remove_level d (level : list bytes) : TransactionDependencies * gset bytes :=
  foldl (fun '(d, next) dep =>
    (mkTransactionDependencies (delete dep (dependencies d)) (delete dep (dependents d)), next ∪ direct_dependents d dep))
    (d, ∅) level.

(** A level with dependents removes an entry of [dependents], so there are at
    most as many levels as entries, and one. *)
Fixpoint remove_levels (fuel : nat) d (all_dependents current_level_dependents : gset bytes)
    : TransactionDependencies * gset bytes :=
  match fuel with
  | O => (d, all_dependents)
  | S fuel =>
      if decide (current_level_dependents = ∅) then (d, all_dependents)
      else
        let '(d, next) := remove_level d (elements current_level_dependents) in
        remove_levels fuel d (all_dependents ∪ next) next
  end.
Definition remove_all d (tx_hash : bytes) : TransactionDependencies * gset bytes :=
  remove_levels (S (size (dependents d))) d ∅ {[tx_hash]}.

(** * Requests that wait for outputs

    The channels are represented by the outpoints that have one, and
    [answered] lists what was sent to them. *)

Record PendingOutputs := mkPendingOutputs { waiting : gset OutPoint; answered : list (OutPoint * Output) }.
Definition queue (p : PendingOutputs) (outpoint : OutPoint) : PendingOutputs :=
  mkPendingOutputs ({[outpoint]} ∪ waiting p) (answered p).
Definition respond (p : PendingOutputs) (outpoint : OutPoint) (output : Output) : PendingOutputs :=
  if bool_decide (outpoint ∈ waiting p)
  then mkPendingOutputs (waiting p ∖ {[outpoint]}) (answered p ++ [(outpoint, output)])
  else p.
(** [receivers] tells whether a channel still has a receiver. *)
Definition prune (receivers : OutPoint -> bool) (p : PendingOutputs) : PendingOutputs :=
  mkPendingOutputs (filter (fun o => receivers o = true) (waiting p)) (answered p).
Definition clear_pending (p : PendingOutputs) : PendingOutputs := mkPendingOutputs ∅ (answered p).

(** * The verified set *)

Record VerifiedSet := mkVerifiedSet {
  vs_transactions : gmap bytes VerifiedUnminedTx;
  transaction_dependencies : TransactionDependencies;
  created_outputs : gmap OutPoint Output;
  transactions_serialized_size : Z;
  total_cost : Z;
  vs_spent_outpoints : gset OutPoint;
  vs_sprout_nullifiers : gset bytes;
  vs_sapling_nullifiers : gset bytes;
  vs_orchard_nullifiers : gset bytes
}.
Implicit Types vs : VerifiedSet.
Definition VerifiedSet_default : VerifiedSet := mkVerifiedSet ∅ no_dependencies ∅ 0 0 ∅ ∅ ∅ ∅.
Definition vs_tx (v : VerifiedUnminedTx) : Transaction := unmined_transaction (vu_transaction v).
Definition vs_id (v : VerifiedUnminedTx) : UnminedTxId := unmined_id_ (vu_transaction v).
Definition vs_size (v : VerifiedUnminedTx) : Z := unmined_size (vu_transaction v).

Definition OutPoint_from_usize (hash : bytes) (index : nat) : outcome OutPoint :=
  index ← unwrap (u32_checked (Z.of_nat index)); Ok (mkOutPoint hash index).

Definition has_conflicts {T} `{Countable T} (set : gset T) (items : list T) : bool :=
  existsb (fun item => bool_decide (item ∈ set)) items.
Definition has_spend_conflicts vs (tx : Transaction) : bool :=
  has_conflicts (vs_spent_outpoints vs) (spent_outpoints tx)
  || has_conflicts (vs_sprout_nullifiers vs) (sprout_nullifiers tx)
  || has_conflicts (vs_sapling_nullifiers vs) (sapling_nullifiers tx)
  || has_conflicts (vs_orchard_nullifiers vs) (orchard_nullifiers tx).

(** The loop over the outputs of [VerifiedSet::insert]. *)
Definition add_created_outputs (tx_id : bytes) (tx : Transaction) (created : gmap OutPoint Output) (p : PendingOutputs)
    : outcome (gmap OutPoint Output * PendingOutputs) :=
  foldM (fun '(created, p) '(index, output) =>
           outpoint ← OutPoint_from_usize tx_id index;
           Ok (<[outpoint := output]> created, respond p outpoint output))
    (created, p) (imap pair (outputs tx)).
(** The loop over the outputs of [remove_outputs]. *)
Definition remove_created_outputs (tx_id : bytes) (tx : Transaction) (created : gmap OutPoint Output)
    : outcome (gmap OutPoint Output) :=
  foldM (fun created index => outpoint ← OutPoint_from_usize tx_id index; Ok (delete outpoint created))
    created (seq 0 (length (outputs tx))).

(** The [for item in items { set.remove(&item) }] of [remove_from_set]. *)
Definition remove_from_set {T} `{Countable T} (set : gset T) (items : list T) : gset T :=
  foldl (fun set item => set ∖ {[item]}) set items.
Definition extend_set {T} `{Countable T} (set : gset T) (items : list T) : gset T := set ∪ list_to_set items.

Section VerifiedSet.
Context `{BuildProfile}.

Definition VerifiedSet_insert vs (v : VerifiedUnminedTx) (spent_mempool_outpoints : list OutPoint) (p : PendingOutputs)
    : res SameEffectsTipRejectionError (VerifiedSet * PendingOutputs) :=
  let tx := vs_tx v in
  if has_spend_conflicts vs tx then Err SpendConflict
  else if existsb (fun o => bool_decide (created_outputs vs !! o = None)) spent_mempool_outpoints then Err MissingOutput
  else
    let tx_id := mined_id (vs_id v) in
    '(created, p) ← lift (add_created_outputs tx_id tx (created_outputs vs) p);
    serialized_size ← arith_u 64 (transactions_serialized_size vs + vs_size v);
    total_cost ← arith_u 64 (total_cost vs + cost v);
    Ok (mkVerifiedSet (<[tx_id := v]> (vs_transactions vs))
          (add_dependencies (transaction_dependencies vs) tx_id spent_mempool_outpoints)
          created serialized_size total_cost
          (extend_set (vs_spent_outpoints vs) (spent_outpoints tx))
          (extend_set (vs_sprout_nullifiers vs) (sprout_nullifiers tx))
          (extend_set (vs_sapling_nullifiers vs) (sapling_nullifiers tx))
          (extend_set (vs_orchard_nullifiers vs) (orchard_nullifiers tx)), p).

(** The closure of [VerifiedSet::remove], with [remove_outputs]. *)
Definition remove_one vs (key_to_remove : bytes) : outcome (VerifiedSet * VerifiedUnminedTx) :=
  removed_tx ← unwrap (vs_transactions vs !! key_to_remove);
  serialized_size ← arith_u 64 (transactions_serialized_size vs - vs_size removed_tx);
  total_cost ← arith_u 64 (total_cost vs - cost removed_tx);
  let tx := vs_tx removed_tx in
  created ← remove_created_outputs (mined_id (vs_id removed_tx)) tx (created_outputs vs);
  Ok (mkVerifiedSet (delete key_to_remove (vs_transactions vs)) (transaction_dependencies vs)
        created serialized_size total_cost
        (remove_from_set (vs_spent_outpoints vs) (spent_outpoints tx))
        (remove_from_set (vs_sprout_nullifiers vs) (sprout_nullifiers tx))
        (remove_from_set (vs_sapling_nullifiers vs) (sapling_nullifiers tx))
        (remove_from_set (vs_orchard_nullifiers vs) (orchard_nullifiers tx)), removed_tx).

Definition with_dependencies vs d : VerifiedSet :=
  mkVerifiedSet (vs_transactions vs) d (created_outputs vs) (transactions_serialized_size vs) (total_cost vs)
    (vs_spent_outpoints vs) (vs_sprout_nullifiers vs) (vs_sapling_nullifiers vs) (vs_orchard_nullifiers vs).

Definition remove_each vs (keys : list bytes) : outcome (VerifiedSet * list VerifiedUnminedTx) :=
  foldM (fun '(vs, removed) key => '(vs, tx) ← remove_one vs key; Ok (vs, removed ++ [tx])) (vs, []) keys.
Definition VerifiedSet_remove vs (key_to_remove : bytes) : outcome (VerifiedSet * list VerifiedUnminedTx) :=
  let '(d, all_dependents) := remove_all (transaction_dependencies vs) key_to_remove in
  remove_each (with_dependencies vs d) (elements all_dependents ++ [key_to_remove]).

(** The loop of [remove_all_that] over the keys that were collected. *)
Definition remove_key (s : VerifiedSet * gset UnminedTxId) (key_to_remove : bytes) : outcome (VerifiedSet * gset UnminedTxId) :=
  '(vs, txs) ← VerifiedSet_remove s.1 key_to_remove; Ok (vs, s.2 ∪ list_to_set (vs_id <$> txs)).
Definition remove_keys vs (keys_to_remove : list bytes) : outcome (VerifiedSet * gset UnminedTxId) :=
  foldM remove_key (vs, ∅) keys_to_remove.
Definition remove_all_that vs (predicate : VerifiedUnminedTx -> bool) : outcome (VerifiedSet * gset UnminedTxId) :=
  remove_keys vs (fst <$> filter (fun e => predicate e.2 = true) (map_to_list (vs_transactions vs))).

(** [WeightedIndex::new] fails without weights and when all are zero. *)
Definition evict_one (random : list Z -> nat) vs : outcome (VerifiedSet * option VerifiedUnminedTx) :=
  let entries := map_to_list (vs_transactions vs) in
  let keys := fst <$> entries in
  let weights := (fun e => eviction_weight e.2) <$> entries in
  _ ← assert_ (0 <? sum_Z id weights);
  key_to_remove ← unwrap (keys !! random weights);
  '(vs, removed) ← VerifiedSet_remove vs key_to_remove;
  Ok (vs, last removed).
End VerifiedSet.

(** * The storage *)

Definition MAX_EVICTION_MEMORY_ENTRIES : Z := 40000.

Record MempoolConfig := mkMempoolConfig {
  config_tx_cost_limit : Z;
  config_eviction_memory_time : Z;
  debug_enable_at_height : option Z
}.
(** The default of [eviction_memory_time] is in seconds. *)
Definition MempoolConfig_default : MempoolConfig := mkMempoolConfig 80000000 3600 None.

Record Storage := mkStorage {
  verified : VerifiedSet;
  pending_outputs : PendingOutputs;
  tip_rejected_exact : gmap UnminedTxId ExactTipRejectionError;
  tip_rejected_same_effects : gmap bytes SameEffectsTipRejectionError;
  chain_rejected_same_effects : gmap SameEffectsChainRejectionError EvictionList;
  st_eviction_memory_time : Z;
  tx_cost_limit : Z
}.
Implicit Types st : Storage.
Definition Storage_new (config : MempoolConfig) : Storage :=
  mkStorage VerifiedSet_default (mkPendingOutputs ∅ []) ∅ ∅ ∅ (config_eviction_memory_time config) (config_tx_cost_limit config).
Definition with_verified st vs : Storage :=
  mkStorage vs (pending_outputs st) (tip_rejected_exact st) (tip_rejected_same_effects st)
    (chain_rejected_same_effects st) (st_eviction_memory_time st) (tx_cost_limit st).
Definition with_pending st (p : PendingOutputs) : Storage :=
  mkStorage (verified st) p (tip_rejected_exact st) (tip_rejected_same_effects st)
    (chain_rejected_same_effects st) (st_eviction_memory_time st) (tx_cost_limit st).
Definition with_tip_rejected st exact same_effects : Storage :=
  mkStorage (verified st) (pending_outputs st) exact same_effects
    (chain_rejected_same_effects st) (st_eviction_memory_time st) (tx_cost_limit st).
Definition with_chain_rejected st lists : Storage :=
  mkStorage (verified st) (pending_outputs st) (tip_rejected_exact st) (tip_rejected_same_effects st)
    lists (st_eviction_memory_time st) (tx_cost_limit st).

(** Counting the entries of the lists prunes them. *)
Definition rejected_transaction_count (now : Z) st : outcome (Storage * Z) :=
  '(lists, n) ← foldM (fun '(lists, n) '(e, l) =>
                         '(l, len) ← EvictionList_len now l; Ok (<[e := l]> lists, n + len))
    (chain_rejected_same_effects st, 0) (map_to_list (chain_rejected_same_effects st));
  Ok (with_chain_rejected st lists,
      Z.of_nat (size (tip_rejected_exact st)) + Z.of_nat (size (tip_rejected_same_effects st)) + n).
Definition update_rejected_metrics (now : Z) st : outcome Storage :=
  '(st, _) ← rejected_transaction_count now st;
  '(st, _) ← rejected_transaction_count now st;
  Ok st.

Definition limit_rejection_list_memory (now : Z) st : outcome Storage :=
  let limit {K A} `{Countable K} (m : gmap K A) : gmap K A :=
    if MAX_EVICTION_MEMORY_ENTRIES <? Z.of_nat (size m) then ∅ else m in
  update_rejected_metrics now
    (with_tip_rejected st (limit (tip_rejected_exact st)) (limit (tip_rejected_same_effects st))).

Definition reject (now : Z) st (tx_id : UnminedTxId) (reason : RejectionError) : outcome Storage :=
  st ← match reason with
       | ExactTip e => Ok (with_tip_rejected st (<[tx_id := e]> (tip_rejected_exact st)) (tip_rejected_same_effects st))
       | SameEffectsTip e =>
           Ok (with_tip_rejected st (tip_rejected_exact st) (<[mined_id tx_id := e]> (tip_rejected_same_effects st)))
       | SameEffectsChain e =>
           let list := default (EvictionList_new MAX_EVICTION_MEMORY_ENTRIES (st_eviction_memory_time st))
                         (chain_rejected_same_effects st !! e) in
           list ← EvictionList_insert now (mined_id tx_id) list;
           Ok (with_chain_rejected st (<[e := list]> (chain_rejected_same_effects st)))
       end;
  limit_rejection_list_memory now st.

Definition rejection_error (now : Z) st (txid : UnminedTxId) : option MempoolError :=
  match tip_rejected_exact st !! txid with
  | Some error => Some (StorageExactTip error)
  | None =>
      match tip_rejected_same_effects st !! mined_id txid with
      | Some error => Some (StorageEffectsTip error)
      | None =>
          '(error, _) ← head (filter (fun e => contains_key now e.2 (mined_id txid) = true)
                                (map_to_list (chain_rejected_same_effects st)));
          Some (StorageEffectsChain error)
      end
  end.
Definition contains_rejected (now : Z) st (txid : UnminedTxId) : bool := bool_decide (is_Some (rejection_error now st txid)).
Definition rejected_transactions (now : Z) st (tx_ids : gset UnminedTxId) : list UnminedTxId :=
  filter (fun txid => contains_rejected now st txid = true) (elements tx_ids).

Definition contains_transaction_exact st (tx_id : bytes) : bool := bool_decide (is_Some (vs_transactions (verified st) !! tx_id)).
Definition should_download_or_verify (now : Z) st (txid : UnminedTxId) : res MempoolError unit :=
  if contains_transaction_exact st (mined_id txid) then Err InMempool
  else match rejection_error now st txid with Some error => Err error | None => Ok tt end.

Definition tx_ids st : list UnminedTxId := (fun e => vs_id e.2) <$> map_to_list (vs_transactions (verified st)).
Definition transactions_exact st (tx_ids : gset UnminedTxId) : list UnminedTx :=
  omap (fun tx_id => vu_transaction <$> vs_transactions (verified st) !! mined_id tx_id) (elements tx_ids).
Definition transactions_same_effects st (tx_ids : gset bytes) : list UnminedTx :=
  (fun e => vu_transaction e.2) <$> filter (fun e => e.1 ∈ tx_ids) (map_to_list (vs_transactions (verified st))).
Definition storage_transaction_with_deps st (tx_id : bytes) : option (VerifiedUnminedTx * gset bytes) :=
  tx ← vs_transactions (verified st) !! tx_id;
  Some (tx, direct_dependencies (transaction_dependencies (verified st)) tx_id).

Definition clear_tip_rejections (now : Z) st : outcome Storage :=
  update_rejected_metrics now (with_tip_rejected st ∅ ∅).
Definition storage_clear (now : Z) st : outcome Storage :=
  update_rejected_metrics now
    (mkStorage VerifiedSet_default (clear_pending (pending_outputs st)) ∅ ∅ ∅ (st_eviction_memory_time st) (tx_cost_limit st)).
Definition storage_clear_mined_dependencies st (mined_ids : gset bytes) : Storage :=
  let vs := verified st in
  with_verified st (with_dependencies vs (clear_mined_dependencies (transaction_dependencies vs) mined_ids)).

Inductive TransactionDownloadVerifyError : Type :=
| InState
| StateError (e : BoxError)
| DownloadFailed (e : BoxError)
| Cancelled
| Invalid (error : TransactionError) (advertiser_addr : option bytes).
Definition reject_if_needed (now : Z) st (tx_id : UnminedTxId) (e : TransactionDownloadVerifyError) : outcome Storage :=
  match e with
  | InState | StateError _ | DownloadFailed _ | Cancelled => Ok st
  | Invalid error _ => reject now st tx_id (ExactTip (FailedVerification error))
  end.

Section Storage.
Context `{BuildProfile}.

(** The loop of [insert]. A step removes a transaction, and without
    transactions there is nothing to evict. *)
Fixpoint evict_loop (fuel : nat) (now : Z) (random : list Z -> nat) (unmined_tx_id : UnminedTxId) st
    (result : res MempoolError UnminedTxId) : outcome (Storage * res MempoolError UnminedTxId) :=
  if total_cost (verified st) <=? tx_cost_limit st then Ok (st, result)
  else
    match fuel with
    | O => Panic
    | S fuel =>
        '(vs, victim) ← evict_one random (verified st);
        victim_tx ← unwrap victim;
        st ← reject now (with_verified st vs) (vs_id victim_tx) (SameEffectsChain RandomlyEvicted);
        evict_loop fuel now random unmined_tx_id st
          (if bool_decide (vs_id victim_tx = unmined_tx_id) then Err (StorageEffectsChain RandomlyEvicted) else result)
    end.

(** Insertion into the verified set, where a failure is remembered. *)
Definition try_insert (now : Z) st (v : VerifiedUnminedTx) (spent_mempool_outpoints : list OutPoint)
    : outcome (Storage * res MempoolError UnminedTxId) :=
  match VerifiedSet_insert (verified st) v spent_mempool_outpoints (pending_outputs st) with
  | Ok (vs, p) => Ok (with_pending (with_verified st vs) p, Ok (vs_id v))
  | Err e => st ← reject now st (vs_id v) (SameEffectsTip e); Ok (st, Err (StorageEffectsTip e))
  | Panic => Panic
  end.

Definition storage_insert (now : Z) (random : list Z -> nat) st (v : VerifiedUnminedTx) (spent_mempool_outpoints : list OutPoint)
    : outcome (Storage * res MempoolError UnminedTxId) :=
  let unmined_tx_id := vs_id v in
  match rejection_error now st unmined_tx_id with
  | Some error => Ok (st, Err error)
  | None =>
      if contains_transaction_exact st (mined_id unmined_tx_id) then Ok (st, Err InMempool)
      else
        '(st, result) ← try_insert now st v spent_mempool_outpoints;
        evict_loop (S (size (vs_transactions (verified st)))) now random unmined_tx_id st result
  end.

Definition remove_exact st (exact_wtxids : gset UnminedTxId) : outcome (Storage * Z) :=
  '(vs, removed) ← remove_all_that (verified st) (fun v => bool_decide (vs_id v ∈ exact_wtxids));
  Ok (with_verified st vs, Z.of_nat (size removed)).

Record RemovedTransactionIds := mkRemovedTransactionIds { removed_mined : gset UnminedTxId; removed_invalidated : gset UnminedTxId }.

(** Whether a transaction spends or reveals what one of [transactions] does. *)
Definition spends_same (transactions : list Transaction) (tx : Transaction) : bool :=
  has_conflicts (list_to_set (mbind spent_outpoints transactions)) (spent_outpoints tx)
  || has_conflicts (list_to_set (mbind sprout_nullifiers transactions)) (sprout_nullifiers tx)
  || has_conflicts (list_to_set (mbind sapling_nullifiers transactions)) (sapling_nullifiers tx)
  || has_conflicts (list_to_set (mbind orchard_nullifiers transactions)) (orchard_nullifiers tx).

Definition reject_all (now : Z) st (ids : list UnminedTxId) (reason : RejectionError) : outcome Storage :=
  foldM (fun st id => reject now st id reason) st ids.

Definition reject_and_remove_same_effects (now : Z) (receivers : OutPoint -> bool) st (mined_ids : gset bytes)
    (transactions : list Transaction) : outcome (Storage * RemovedTransactionIds) :=
  '(vs, removed_mined) ← remove_all_that (verified st) (fun v => bool_decide (mined_id (vs_id v) ∈ mined_ids));
  let duplicate_spend_ids : gset UnminedTxId :=
    list_to_set ((fun e => vs_id e.2) <$> filter (fun e => spends_same transactions (vs_tx e.2) = true)
                                            (map_to_list (vs_transactions vs))) in
  '(vs, removed_duplicate_spend) ← remove_all_that vs (fun v => bool_decide (vs_id v ∈ duplicate_spend_ids));
  st ← reject_all now (with_verified st vs) (Legacy <$> elements mined_ids) (SameEffectsChain Mined);
  st ← reject_all now st (elements duplicate_spend_ids) (SameEffectsChain DuplicateSpend);
  Ok (with_pending st (prune receivers (pending_outputs st)), mkRemovedTransactionIds removed_mined removed_duplicate_spend).

Definition has_expired_at (tip_height : Z) (v : VerifiedUnminedTx) : bool :=
  match expiry_height (vs_tx v) with Some expiry_height => expiry_height <=? tip_height | None => false end.
Definition remove_expired_transactions (now : Z) st (tip_height : Z) : outcome (Storage * gset UnminedTxId) :=
  let expired := filter (fun e => has_expired_at tip_height e.2 = true) (map_to_list (vs_transactions (verified st))) in
  let tx_ids : gset bytes := list_to_set (fst <$> expired) in
  let unmined_tx_ids : gset UnminedTxId := list_to_set ((fun e => vs_id e.2) <$> expired) in
  '(vs, _) ← remove_all_that (verified st) (fun v => bool_decide (mined_id (vs_id v) ∈ tx_ids));
  st ← reject_all now (with_verified st vs) (Legacy <$> elements tx_ids) (SameEffectsChain Expired);
  Ok (st, unmined_tx_ids).
End Storage.

(** * Lists of rejected transactions refine lists of entries *)

Section EvictionLists.
Implicit Types es : list (bytes * Z).

Definition el_of (m t : Z) es : EvictionList := mkEvictionList (list_to_map es) (fst <$> es) m t.
Definition entries_wf (now : Z) es : Prop :=
  NoDup (fst <$> es) /\ StronglySorted (fun a b => a.2 <= b.2) es /\ Forall (fun e => e.2 <= now) es.
Definition live (t now : Z) es : list (bytes * Z) := filter (fun e => (t <? Z.max 0 (now - e.2)) = false) es.

Lemma el_pop_front m t e es : e.1 ∉ es.*1 -> pop_front (el_of m t (e :: es)) = Ok (el_of m t es).
Proof.
  intros Hn. unfold pop_front, el_of. cbn. rewrite lookup_insert_eq. cbn.
  rewrite delete_insert_id; [done|]. by apply not_elem_of_list_to_map_1.
Qed.

Lemma entries_wf_cons now e es : entries_wf now (e :: es) ->
  (e.1 ∉ es.*1) /\ entries_wf now es /\ Forall (fun x => e.2 <= x.2) es.
Proof.
  intros (Hd & Hs & Hf). rewrite fmap_cons, NoDup_cons in Hd. apply StronglySorted_inv in Hs as [Hs Hle].
  rewrite Forall_cons in Hf. destruct Hd, Hf. repeat split; auto.
Qed.

Lemma el_prune m t now es : entries_wf now es -> prune_old now (el_of m t es) = Ok (el_of m t (live t now es)).
Proof.
  unfold prune_old. cbn [ordered_entries el_of]. rewrite length_fmap.
  induction es as [|e es IH]; intros Hwf; [done|]. apply entries_wf_cons in Hwf as (Hn & Hwf & Hle).
  cbn [length prune_loop ordered_entries el_of fmap list_fmap unique_entries list_to_map foldr].
  rewrite lookup_insert_eq. cbn [unwrap mbind res_bind]. unfold has_expired. cbn [eviction_memory_time el_of].
  destruct (t <? Z.max 0 (now - e.2)) eqn:Ht.
  - change (mkEvictionList _ _ _ _) with (el_of m t (e :: es)). rewrite el_pop_front by done. cbn [mbind res_bind].
    rewrite (IH Hwf). unfold live. rewrite filter_cons_False by (by rewrite Ht). done.
  - f_equal. unfold live. rewrite filter_all; [done|]. constructor; [done|].
    eapply Forall_impl; [exact Hle|]. intros x Hx. cbn beta in Hx. apply Z.ltb_ge. apply Z.ltb_ge in Ht. lia.
Qed.

Lemma entries_wf_filter now es (P : bytes * Z -> Prop) `{forall e, Decision (P e)} : entries_wf now es -> entries_wf now (filter P es).
Proof.
  induction es as [|e es IH]; intros Hwf; [done|]. apply entries_wf_cons in Hwf as Hc. destruct Hc as (Hn & Hwf' & Hle).
  rewrite filter_cons. case_decide; [|auto]. destruct (IH Hwf') as (Hd & Hs & Hf). split; [|split].
  - rewrite fmap_cons, NoDup_cons. split; [|done]. rewrite list_elem_of_fmap. intros (x & Hx & [_ Hin]%list_elem_of_filter).
    apply Hn. rewrite Hx. by apply list_elem_of_fmap_2.
  - constructor; [done|]. rewrite Forall_forall in Hle |- *. intros x [_ Hx]%list_elem_of_filter. by apply Hle.
  - constructor; [|done]. destruct Hwf as (_ & _ & Hall). by inversion Hall.
Qed.

Lemma entries_wf_tail now es : entries_wf now es -> entries_wf now (tail es).
Proof. destruct es; [done|]. by intros (_ & ? & _)%entries_wf_cons. Qed.

Lemma entries_wf_snoc now es key : entries_wf now es -> key ∉ es.*1 -> entries_wf now (es ++ [(key, now)]).
Proof.
  intros (Hd & Hs & Hf) Hk. split; [|split].
  - rewrite fmap_app. apply NoDup_app. split; [done|]. split; [|apply NoDup_singleton].
    intros x Hx. cbn. rewrite list_elem_of_singleton. by intros ->.
  - clear Hd Hk. induction Hs as [|e es Hs IH Hle]; [repeat constructor|]. rewrite Forall_cons in Hf. destruct Hf as [He Hf].
    cbn. constructor; [auto|]. rewrite Forall_app, Forall_singleton. done.
  - rewrite Forall_app, Forall_singleton. split; [done|]. cbn. lia.
Qed.

Lemma entries_wf_mono now now' es : now <= now' -> entries_wf now es -> entries_wf now' es.
Proof. intros Hle (Hd & Hs & Hf). split; [done|]. split; [done|]. eapply Forall_impl; [exact Hf|]. cbn. lia. Qed.

Lemma live_idemp t now es : live t now (live t now es) = live t now es.
Proof. unfold live. apply filter_all. apply Forall_forall. intros x Hx. by apply list_elem_of_filter in Hx as [? _]. Qed.

Lemma el_len m t now es : entries_wf now es ->
  EvictionList_len now (el_of m t es) = Ok (el_of m t (live t now es), Z.of_nat (length (live t now es))).
Proof.
  intros Hwf. unfold EvictionList_len. rewrite el_prune by done. cbn [mbind res_bind]. do 3 f_equal.
  cbn [el_of unique_entries]. apply (entries_wf_filter _ _ (fun e => (t <? Z.max 0 (now - e.2)) = false)) in Hwf as (Hd & _).
  unfold live. rewrite <- (length_map_to_list (list_to_map _ : gmap bytes Z)), map_to_list_to_map by done. done.
Qed.

(** What remains when an entry is added: the entries that have not expired,
    without the oldest one when the list is full. *)
Definition kept (m t now : Z) es : list (bytes * Z) :=
  if m <=? Z.of_nat (length (live t now es)) then tail (live t now es) else live t now es.

Lemma kept_wf m t now es : entries_wf now es -> entries_wf now (kept m t now es).
Proof.
  intros Hwf. unfold kept. assert (entries_wf now (live t now es)) by by apply entries_wf_filter.
  destruct (_ <=? _); [by apply entries_wf_tail|done].
Qed.

Lemma el_insert m t now key es : entries_wf now es ->
  EvictionList_insert now key (el_of m t es)
  = if bool_decide (key ∈ (kept m t now es).*1) then Panic else Ok (el_of m t (kept m t now es ++ [(key, now)])).
Proof.
  intros Hwf. assert (Hl : entries_wf now (live t now es)) by by apply entries_wf_filter.
  unfold EvictionList_insert. rewrite el_prune by done. cbn [mbind res_bind]. rewrite el_len by done. cbn [mbind res_bind].
  rewrite live_idemp. change (max_size (el_of m t _)) with m. unfold kept.
  assert ((if m <=? Z.of_nat (length (live t now es)) then pop_front (el_of m t (live t now es)) else Ok (el_of m t (live t now es)))
    = Ok (el_of m t (kept m t now es))) as Hpop.
  { unfold kept. destruct (m <=? _); [|done]. destruct (live t now es) as [|e l]; [done|].
    apply entries_wf_cons in Hl as (Hn & _). by rewrite el_pop_front. }
  rewrite Hpop. cbn [mbind res_bind]. fold (kept m t now es).
  cbn [el_of unique_entries ordered_entries max_size eviction_memory_time].
  pose proof (kept_wf m t now es Hwf) as (Hd & _). generalize dependent (kept m t now es). intros es' _ Hd.
  rewrite (bool_decide_ext _ _ (iff_sym (not_elem_of_list_to_map es' key))).
  destruct (decide (key ∈ es'.*1)) as [Hk|Hk].
  - rewrite (bool_decide_eq_true_2 (key ∈ _)), bool_decide_eq_false_2 by auto. done.
  - rewrite (bool_decide_eq_false_2 (key ∈ _)), bool_decide_eq_true_2 by done. cbn. f_equal. unfold el_of.
    f_equal; [|by rewrite fmap_app].
    rewrite list_to_map_app. apply map_eq. intros k. destruct (decide (k = key)) as [->|Hne].
    + rewrite lookup_insert_eq. symmetry. apply lookup_union_Some_raw. right.
      split; [by apply not_elem_of_list_to_map_1|]. cbn. by rewrite lookup_insert_eq.
    + rewrite lookup_insert_ne by done. cbn. rewrite lookup_union, lookup_insert_ne, lookup_empty by done. by rewrite right_id_L by apply _.
Qed.

Lemma el_contains m t now es key : entries_wf now es ->
  contains_key now (el_of m t es) key = true <-> key ∈ (live t now es).*1.
Proof.
  intros (Hd & _). unfold contains_key, has_expired. cbn [el_of unique_entries eviction_memory_time]. unfold live.
  rewrite list_elem_of_fmap. split.
  - destruct (list_to_map es !! key) as [x|] eqn:Hx; [|done]. intros Hn%negb_true_iff.
    exists (key, x). split; [done|]. apply list_elem_of_filter. split; [done|]. by apply elem_of_list_to_map_2.
  - intros ([k x] & -> & [Hn Hin]%list_elem_of_filter). cbn in *. apply elem_of_list_to_map_1 in Hin; [|done].
    rewrite Hin. by rewrite Hn.
Qed.
End EvictionLists.

(** * Removing a transaction removes what depends on it *)

Section Dependencies.

(** [c] is recorded as spending an output of [p]. *)
Definition depends d : relation bytes := fun p c => c ∈ direct_dependents d p.
Definition without {A} (P : bytes -> Prop) `{forall x, Decision (P x)} (m m' : gmap bytes A) : Prop :=
  forall x, m' !! x = if decide (P x) then None else m !! x.

Lemma depends_without P `{forall x, Decision (P x)} d d' p c :
  without P (dependents d) (dependents d') -> depends d' p c <-> ~ P p /\ depends d p c.
Proof. intros Hw. unfold depends, direct_dependents. rewrite Hw. case_decide; set_solver. Qed.

Lemma remove_level_spec d0 (V : gset bytes) d (level : list bytes) (next0 : gset bytes) :
  without (fun x => x ∈ V) (dependents d0) (dependents d) -> without (fun x => x ∈ V) (dependencies d0) (dependencies d) ->
  let '(d', next) := foldl (fun '(d, next) dep =>
    (mkTransactionDependencies (delete dep (dependencies d)) (delete dep (dependents d)), next ∪ direct_dependents d dep))
    (d, next0) level in
  without (fun x => x ∈ V ∪ list_to_set level) (dependents d0) (dependents d')
  /\ without (fun x => x ∈ V ∪ list_to_set level) (dependencies d0) (dependencies d')
  /\ (forall c, c ∈ next <-> c ∈ next0 \/ exists p, p ∈ level /\ (p ∉ V) /\ depends d0 p c).
Proof.
  revert d next0 V. induction level as [|dep level IH]; intros d next0 V Hd Hs; cbn [foldl].
  { split; [|split]; [intros x; rewrite (Hd x)|intros x; rewrite (Hs x)|]; [repeat case_decide; set_solver..|].
    intros c. split; [auto|]. intros [?|(p & Hp & _)]; [done|]. by apply elem_of_nil in Hp. }
  specialize (IH (mkTransactionDependencies (delete dep (dependencies d)) (delete dep (dependents d)))
    (next0 ∪ direct_dependents d dep) (V ∪ {[dep]})).
  destruct (foldl _ _ level) as [d' next]. destruct IH as (H1 & H2 & H3).
  - intros x. cbn. rewrite lookup_delete, (Hd x). repeat case_decide; set_solver.
  - intros x. cbn. rewrite lookup_delete, (Hs x). repeat case_decide; set_solver.
  - split; [|split].
    + intros x. rewrite (H1 x). repeat case_decide; set_solver.
    + intros x. rewrite (H2 x). repeat case_decide; set_solver.
    + intros c. rewrite H3, elem_of_union. pose proof (depends_without _ d0 d dep c Hd) as Hdep. unfold depends in Hdep at 1.
      rewrite Hdep. setoid_rewrite elem_of_cons. setoid_rewrite not_elem_of_union. setoid_rewrite not_elem_of_singleton.
      destruct (decide (dep = c)); split.
      all: try (intros [[?|[? ?]]|(p & ? & [? ?] & ?)]; [by left|right; exists dep; auto|right; exists p; auto]).
      all: intros [?|(p & [->|?] & ? & ?)]; [by left; left|by left; right|].
      all: destruct (decide (p = dep)) as [->|]; [by left; right|right; exists p; auto].
Qed.

Lemma closed_tc {A} (R : relation A) (V W : A -> Prop) x y :
  (forall p c, V p -> R p c -> W c) -> (forall c, W c -> V c) -> V x -> tc R x y -> W y.
Proof. intros HR HW Hx Hxy. revert Hx. induction Hxy as [x y Hxy|x y z Hxy _ IHc]; intros Hx; eauto. Qed.

Lemma remove_levels_spec d0 (k : bytes) (fuel : nat) d (all level V : gset bytes) :
  without (fun x => x ∈ V) (dependents d0) (dependents d) -> without (fun x => x ∈ V) (dependencies d0) (dependencies d) ->
  (forall c, c ∈ all <-> exists p, p ∈ V /\ depends d0 p c) ->
  level ⊆ {[k]} ∪ all -> {[k]} ∪ all ⊆ V ∪ level -> V ⊆ {[k]} ∪ all ->
  (forall c, c ∈ all -> tc (depends d0) k c) ->
  level = ∅ \/ (size (dependents d) < fuel)%nat ->
  let '(d', all') := remove_levels fuel d all level in
  (forall c, c ∈ all' <-> tc (depends d0) k c)
  /\ without (fun x => x ∈ {[k]} ∪ all') (dependents d0) (dependents d')
  /\ without (fun x => x ∈ {[k]} ∪ all') (dependencies d0) (dependencies d').
Proof.
  revert d all level V. induction fuel as [|fuel IH]; intros d all level V Hd Hs Hall Hlev Hcl HV Htc Hfuel; cbn [remove_levels].
  all: assert (level = ∅ -> (forall c, c ∈ all <-> tc (depends d0) k c)
    /\ without (fun x => x ∈ {[k]} ∪ all) (dependents d0) (dependents d)
    /\ without (fun x => x ∈ {[k]} ∪ all) (dependencies d0) (dependencies d)) as Hend.
  1,3: intros ->; assert (V = {[k]} ∪ all) as -> by set_solver; split; [|by split]; intros c; split; [auto|];
    apply (closed_tc _ (fun x => x ∈ {[k]} ∪ all) (fun x => x ∈ all)); [|set_solver..]; intros p x Hp Hx; apply Hall; eauto.
  { destruct Hfuel as [?|?]; [auto|lia]. }
  case_decide as Hl; [auto|]. destruct Hfuel as [?|Hfuel]; [done|].
  pose proof (remove_level_spec d0 V d (elements level) ∅ Hd Hs) as Hstep. unfold remove_level.
  destruct (foldl _ _ _) as [d' next]. rewrite list_to_set_elements_L in Hstep. destruct Hstep as (Hd' & Hs' & Hnext).
  setoid_rewrite elem_of_elements in Hnext.
  assert (forall c, c ∈ next -> exists p, p ∈ level /\ (p ∉ V) /\ depends d0 p c) as Hn.
  { intros c Hc. apply Hnext in Hc as [Hc|Hc]; [set_solver|done]. }
  apply (IH d' (all ∪ next) next (V ∪ level)); try done; clear IH Hend.
  - intros c. rewrite elem_of_union, Hall, Hnext. setoid_rewrite elem_of_union. split.
    + intros [(p & ? & ?)|[?%elem_of_empty|(p & ? & ? & ?)]]; [eauto|done|eauto].
    + intros (p & Hp & Hpc). destruct (decide (p ∈ V)) as [|HpV]; [eauto|]. destruct Hp as [|Hp]; [done|]. eauto 8.
  - apply union_subseteq_r'. apply union_subseteq_r.
  - rewrite assoc_L by apply _. by apply union_mono_r.
  - rewrite assoc_L by apply _. apply union_subseteq_l'. by apply union_least.
  - intros c [Hc|Hc]%elem_of_union; [auto|]. apply Hn in Hc as (p & Hp & _ & Hpc).
    apply Hlev, elem_of_union in Hp as [->%elem_of_singleton|Hp]; [by apply tc_once|]. eapply tc_r; eauto.
  - destruct (decide (next = ∅)) as [|Hne]; [by left|right]. apply set_choose_L in Hne as [c Hc].
    apply Hn in Hc as (p & Hp & HpV & Hpc).
    assert (dependents d' ⊂ dependents d) as Hsub; [|apply map_subset_size in Hsub; lia].
    apply map_subset_alt. split.
    + apply map_subseteq_spec. intros x y Hx. rewrite (Hd' x) in Hx. rewrite (Hd x).
      case_decide as Hx1; [done|]. apply not_elem_of_union in Hx1 as [Hx1 _]. by rewrite decide_False.
    + exists p. rewrite (Hd' p), (Hd p). rewrite decide_True by by apply elem_of_union_r. rewrite decide_False by done.
      split; [done|]. unfold depends, direct_dependents in Hpc. destruct (dependents d0 !! p); [eauto|].
      by apply not_elem_of_empty in Hpc.
Qed.

Lemma remove_all_spec d (k : bytes) :
  let '(d', all) := remove_all d k in
  (forall c, c ∈ all <-> tc (depends d) k c)
  /\ without (fun x => x ∈ {[k]} ∪ all) (dependents d) (dependents d')
  /\ without (fun x => x ∈ {[k]} ∪ all) (dependencies d) (dependencies d').
Proof.
  assert (forall A (m : gmap bytes A), without (fun x => x ∈ (∅ : gset bytes)) m m) as Hw.
  { intros A m x. by rewrite decide_False by apply not_elem_of_empty. }
  apply (remove_levels_spec d k _ d ∅ {[k]} ∅); auto; try set_solver.
Qed.
End Dependencies.

(** * The invariant of the verified set *)

Inductive SpentItem : Type :=
| SpendOutput (o : OutPoint) | SproutNullifier (n : bytes) | SaplingNullifier (n : bytes) | OrchardNullifier (n : bytes).
Definition spends (tx : Transaction) : list SpentItem :=
  (SpendOutput <$> spent_outpoints tx) ++ (SproutNullifier <$> sprout_nullifiers tx)
  ++ (SaplingNullifier <$> sapling_nullifiers tx) ++ (OrchardNullifier <$> orchard_nullifiers tx).
Definition tracked vs (s : SpentItem) : Prop :=
  match s with
  | SpendOutput o => o ∈ vs_spent_outpoints vs
  | SproutNullifier n => n ∈ vs_sprout_nullifiers vs
  | SaplingNullifier n => n ∈ vs_sapling_nullifiers vs
  | OrchardNullifier n => n ∈ vs_orchard_nullifiers vs
  end.

Lemma elem_of_spends s tx : s ∈ spends tx <->
  match s with
  | SpendOutput o => o ∈ spent_outpoints tx
  | SproutNullifier n => n ∈ sprout_nullifiers tx
  | SaplingNullifier n => n ∈ sapling_nullifiers tx
  | OrchardNullifier n => n ∈ orchard_nullifiers tx
  end.
Proof. unfold spends. rewrite !elem_of_app, !list_elem_of_fmap. destruct s; naive_solver. Qed.

Lemma has_conflicts_spec {T} `{Countable T} (set : gset T) items :
  has_conflicts set items = true <-> exists x, x ∈ items /\ x ∈ set.
Proof.
  unfold has_conflicts. rewrite existsb_exists. split; intros (x & Hx & Hs); exists x.
  - by rewrite list_elem_of_In, <- (bool_decide_eq_true (x ∈ set)).
  - by rewrite <- list_elem_of_In, bool_decide_eq_true.
Qed.

Lemma has_spend_conflicts_spec vs tx :
  has_spend_conflicts vs tx = true <-> exists s, s ∈ spends tx /\ tracked vs s.
Proof.
  unfold has_spend_conflicts. rewrite !orb_true_iff, !has_conflicts_spec. split.
  - intros [[[(x & ? & ?)|(x & ? & ?)]|(x & ? & ?)]|(x & ? & ?)];
      [exists (SpendOutput x)|exists (SproutNullifier x)|exists (SaplingNullifier x)|exists (OrchardNullifier x)];
      by rewrite elem_of_spends.
  - intros (s & Hs%elem_of_spends & Ht). destruct s; eauto 8.
Qed.

Lemma spends_same_spec txs tx :
  spends_same txs tx = true <-> exists s t, t ∈ txs /\ s ∈ spends tx /\ s ∈ spends t.
Proof.
  unfold spends_same. rewrite !orb_true_iff, !has_conflicts_spec. setoid_rewrite elem_of_list_to_set.
  setoid_rewrite list_elem_of_bind. split.
  - intros [[[(x & ? & t & ? & ?)|(x & ? & t & ? & ?)]|(x & ? & t & ? & ?)]|(x & ? & t & ? & ?)];
      [exists (SpendOutput x), t|exists (SproutNullifier x), t|exists (SaplingNullifier x), t|exists (OrchardNullifier x), t];
      by rewrite !elem_of_spends.
  - intros (s & t & Ht & Hs%elem_of_spends & Hst%elem_of_spends). destruct s; eauto 10.
Qed.

Lemma remove_from_set_spec {T} `{Countable T} (set : gset T) items x :
  x ∈ remove_from_set set items <-> x ∈ set /\ x ∉ items.
Proof.
  unfold remove_from_set. revert set. induction items as [|i items IH]; intros set; cbn.
  - split; [|by intros [? _]]. intros ?. split; [done|apply not_elem_of_nil].
  - rewrite IH, elem_of_difference, elem_of_singleton, not_elem_of_cons. tauto.
Qed.

(** What the models of byte lengths and vectors satisfy in memory. *)
Definition vtx_wf (v : VerifiedUnminedTx) : Prop :=
  0 <= vs_size v /\ Z.of_nat (length (outputs (vs_tx v))) <= u32_MAX.

Definition txs_sum (f : VerifiedUnminedTx -> Z) (m : gmap bytes VerifiedUnminedTx) : Z := sum_Z (fun e => f e.2) (map_to_list m).

(** The output of a transaction with id [id] that [o] refers to. *)
Definition output_at (id : bytes) (tx : Transaction) (o : OutPoint) : option Output :=
  if decide (outpoint_hash o = id /\ 0 <= outpoint_index o) then outputs tx !! Z.to_nat (outpoint_index o) else None.

Record vs_inv vs : Prop := {
  vi_keys : forall k v, vs_transactions vs !! k = Some v -> mined_id (vs_id v) = k;
  vi_wf : forall k v, vs_transactions vs !! k = Some v -> vtx_wf v;
  vi_spends : forall s, tracked vs s <-> exists k v, vs_transactions vs !! k = Some v /\ s ∈ spends (vs_tx v);
  vi_disjoint : forall s k1 v1 k2 v2, vs_transactions vs !! k1 = Some v1 -> vs_transactions vs !! k2 = Some v2 ->
    s ∈ spends (vs_tx v1) -> s ∈ spends (vs_tx v2) -> k1 = k2;
  vi_created : forall o, created_outputs vs !! o
    = v ← vs_transactions vs !! outpoint_hash o; output_at (outpoint_hash o) (vs_tx v) o;
  vi_cost : total_cost vs = txs_sum cost (vs_transactions vs);
  vi_size : transactions_serialized_size vs = txs_sum vs_size (vs_transactions vs);
  vi_bound : total_cost vs <= u64_MAX
}.

Lemma txs_sum_insert f m k v : m !! k = None -> txs_sum f (<[k := v]> m) = f v + txs_sum f m.
Proof. intros Hk. unfold txs_sum. by rewrite (map_to_list_insert _ _ _ Hk). Qed.
Lemma txs_sum_delete f m k v : m !! k = Some v -> txs_sum f m = f v + txs_sum f (delete k m).
Proof. intros Hk. rewrite <- (txs_sum_insert f _ k v) by apply lookup_delete_eq. by rewrite insert_delete_id. Qed.

Lemma OutPoint_from_usize_Ok id (i : nat) : Z.of_nat i <= u32_MAX -> OutPoint_from_usize id i = Ok (mkOutPoint id (Z.of_nat i)).
Proof. intros Hi. unfold OutPoint_from_usize. by rewrite checked_in by lia. Qed.

Lemma imap_pair_snoc {A} (l : list A) x : imap pair (l ++ [x]) = imap pair l ++ [(length l, x)].
Proof. rewrite imap_app. cbn. by rewrite Nat.add_0_r. Qed.

Lemma respond_waiting p o out x : x ∈ waiting (respond p o out) <-> x ∈ waiting p /\ x <> o.
Proof.
  unfold respond. case_bool_decide as Ho; cbn; [rewrite elem_of_difference, elem_of_singleton; done|].
  split; [|by intros [? _]]. intros Hx. split; [done|]. by intros ->.
Qed.
Lemma respond_answered p o out : answered (respond p o out) = answered p ++ (if bool_decide (o ∈ waiting p) then [(o, out)] else []).
Proof. unfold respond. case_bool_decide; [done|]. by rewrite app_nil_r. Qed.

Lemma add_created_outputs_spec id tx created p : Z.of_nat (length (outputs tx)) <= u32_MAX ->
  exists created' p', add_created_outputs id tx created p = Ok (created', p')
    /\ (forall o, created' !! o = match output_at id tx o with Some out => Some out | None => created !! o end)
    /\ (forall o, o ∈ waiting p' <-> o ∈ waiting p /\ output_at id tx o = None)
    /\ (forall o out, o ∈ waiting p -> output_at id tx o = Some out -> (o, out) ∈ answered p').
Proof.
  unfold add_created_outputs, output_at. generalize (outputs tx). intros l.
  induction l as [|x l IH] using rev_ind; intros Hlen.
  { exists created, p. split; [done|]. split; [|split]; intros o; case_decide; rewrite ?lookup_nil; try done; naive_solver. }
  rewrite length_app in Hlen. cbn in Hlen. destruct IH as (created' & p' & Hf & Hc & Hw & Ha); [lia|].
  rewrite imap_pair_snoc, foldM_app, Hf. cbn [mbind res_bind foldM].
  rewrite OutPoint_from_usize_Ok by lia. cbn [mbind res_bind].
  set (new := mkOutPoint id (Z.of_nat (length l))).
  assert (forall o : OutPoint, o = new <-> (outpoint_hash o = id /\ 0 <= outpoint_index o) /\ Z.to_nat (outpoint_index o) = length l) as Hnew.
  { intros [h i]. unfold new. cbn. split; [intros [= -> ->]; split; [split; [done|lia]|lia]|]. intros [[-> ?] ?]. f_equal. lia. }
  assert (forall o, (l ++ [x]) !! Z.to_nat (outpoint_index o) = if decide (Z.to_nat (outpoint_index o) = length l) then Some x
    else l !! Z.to_nat (outpoint_index o)) as Hlk.
  { intros o. case_decide as He; [by rewrite He, list_lookup_middle|].
    destruct (decide (Z.to_nat (outpoint_index o) < length l)%nat); [by rewrite lookup_app_l|].
    rewrite !lookup_ge_None_2; [done|lia|rewrite length_app; cbn; lia]. }
  exists (<[new := x]> created'), (respond p' new x). split; [done|]. split; [|split].
  - intros o. rewrite Hlk. destruct (decide (o = new)) as [->|Hne].
    + rewrite lookup_insert_eq. destruct (proj1 (Hnew new) eq_refl) as [H1 H2]. by rewrite decide_True, decide_True.
    + rewrite lookup_insert_ne by done. rewrite Hc. case_decide; [|done]. rewrite (decide_False (P := _ = length l)); [done|].
      intros He. apply Hne, Hnew. auto.
  - intros o. rewrite respond_waiting, Hw, Hlk, (Hnew o). repeat case_decide; naive_solver.
  - intros o out Ho. rewrite Hlk, respond_answered, elem_of_app. case_decide as H1; [|done]. case_decide as H2.
    + intros [= <-]. right. assert (o = new) as <- by (by apply Hnew). rewrite bool_decide_eq_true_2; [by apply list_elem_of_singleton|].
      apply Hw. split; [done|]. rewrite decide_True by done. apply lookup_ge_None_2. lia.
    + intros Hl. left. apply Ha; [done|]. by rewrite decide_True.
Qed.

Lemma remove_created_outputs_spec id tx created : Z.of_nat (length (outputs tx)) <= u32_MAX ->
  exists created', remove_created_outputs id tx created = Ok created'
    /\ (forall o, created' !! o = match output_at id tx o with Some _ => None | None => created !! o end).
Proof.
  intros Hlen. unfold remove_created_outputs.
  assert (forall n, (n <= length (outputs tx))%nat -> exists created',
    foldM (fun created index => outpoint ← OutPoint_from_usize id index; Ok (delete outpoint created)) created (seq 0 n)
      = Ok (E := Empty_set) created'
    /\ forall o, created' !! o = if decide (outpoint_hash o = id /\ 0 <= outpoint_index o < Z.of_nat n) then None else created !! o) as Hn.
  { induction n as [|n IH]; intros Hle.
    { exists created. split; [done|]. intros o. rewrite decide_False by lia. done. }
    destruct IH as (created' & Hf & Hc); [lia|]. rewrite seq_S, foldM_app, Hf. cbn [mbind res_bind foldM].
    rewrite OutPoint_from_usize_Ok by lia. cbn [mbind res_bind]. eexists. split; [done|]. intros [h i].
    rewrite lookup_delete, Hc. cbn. destruct (decide (h = id)) as [->|Hne].
    - destruct (decide (i = Z.of_nat n)) as [->|Hi]; [rewrite decide_True by done; by rewrite decide_True by (split; [done|lia])|].
      rewrite decide_False by congruence. apply decide_ext. intuition lia.
    - rewrite decide_False by congruence. rewrite !decide_False by tauto. done. }
  destruct (Hn (length (outputs tx)) (le_n _)) as (created' & Hf & Hc). exists created'. split; [done|]. intros o. rewrite Hc.
  unfold output_at. case_decide as H1; case_decide as H2; try (exfalso; intuition lia); [..|done].
  - destruct (outputs tx !! _) eqn:He; [done|]. apply lookup_ge_None in He. lia.
  - rewrite lookup_ge_None_2; [done|]. destruct H2 as [Hh Hi].
    assert (~ outpoint_index o < Z.of_nat (length (outputs tx))) by (intros ?; apply H1; split; [done|lia]). lia.
Qed.

Section Invariant.
Context `{BuildProfile}.

Lemma txs_sum_bounds vs k v : vs_inv vs -> vs_transactions vs !! k = Some v ->
  0 <= vs_size v <= transactions_serialized_size vs /\ 0 <= cost v <= total_cost vs.
Proof.
  intros Hi Hk. destruct (vi_wf vs Hi k v Hk) as [Hs _].
  rewrite (vi_size vs Hi), (vi_cost vs Hi). unfold txs_sum.
  assert (Forall (fun e : bytes * VerifiedUnminedTx => 0 <= vs_size e.2) (map_to_list (vs_transactions vs))) as Hf.
  { apply Forall_forall. intros [k' v'] Hin%elem_of_map_to_list. by apply (vi_wf vs Hi k' v'). }
  assert (Forall (fun e : bytes * VerifiedUnminedTx => 0 <= cost e.2) (map_to_list (vs_transactions vs))) as Hf'.
  { eapply Forall_impl; [exact Hf|]. intros e He. unfold cost, vs_size in *. lia. }
  apply elem_of_map_to_list in Hk. pose proof (sum_Z_elem _ _ _ Hf Hk). pose proof (sum_Z_elem _ _ _ Hf' Hk).
  cbn in *. unfold cost, vs_size in *. lia.
Qed.

Lemma txs_sum_le vs : vs_inv vs -> 0 <= transactions_serialized_size vs <= total_cost vs.
Proof.
  intros Hi. rewrite (vi_size vs Hi), (vi_cost vs Hi). unfold txs_sum.
  assert (Forall (fun e : bytes * VerifiedUnminedTx => 0 <= vs_size e.2) (map_to_list (vs_transactions vs))) as Hf.
  { apply Forall_forall. intros [k' v'] Hin%elem_of_map_to_list. by apply (vi_wf vs Hi k' v'). }
  split; [by apply sum_Z_nonneg|]. apply sum_Z_le. eapply Forall_impl; [exact Hf|]. intros e He. unfold cost, vs_size in *. lia.
Qed.

Lemma remove_one_spec vs k : vs_inv vs ->
  match vs_transactions vs !! k with
  | None => remove_one vs k = Panic
  | Some v => exists vs', remove_one vs k = Ok (vs', v) /\ vs_inv vs'
      /\ vs_transactions vs' = delete k (vs_transactions vs) /\ transaction_dependencies vs' = transaction_dependencies vs
  end.
Proof.
  intros Hi. destruct (vs_transactions vs !! k) as [v|] eqn:Hk; [|unfold remove_one; by rewrite Hk].
  destruct (txs_sum_bounds vs k v Hi Hk) as [Hsz Hco]. destruct (vi_wf vs Hi k v Hk) as [_ Hlen].
  pose proof (txs_sum_le vs Hi) as Hle. pose proof (vi_bound vs Hi) as Hb. unfold u64_MAX in Hb.
  destruct (remove_created_outputs_spec (mined_id (vs_id v)) (vs_tx v) (created_outputs vs) Hlen) as (created & Hc & Hcr).
  unfold remove_one. rewrite Hk. cbn [unwrap mbind res_bind].
  rewrite !arith_u_in by lia. cbn [mbind res_bind]. rewrite Hc. cbn [mbind res_bind].
  eexists. split; [done|]. split; [|done]. pose proof (vi_keys vs Hi k v Hk) as Hid. split; cbn.
  - intros k' v' [_ Hk']%lookup_delete_Some. by apply (vi_keys vs Hi).
  - intros k' v' [_ Hk']%lookup_delete_Some. by apply (vi_wf vs Hi k').
  - intros s. transitivity (tracked vs s /\ s ∉ spends (vs_tx v)).
    { rewrite elem_of_spends. destruct s; cbn; apply remove_from_set_spec. }
    rewrite (vi_spends vs Hi s). split.
    + intros [(k' & v' & Hk' & Hs) Hn]. exists k', v'. split; [|done]. apply lookup_delete_Some. split; [|done].
      intros <-. congruence.
    + intros (k' & v' & [Hne Hk']%lookup_delete_Some & Hs). split; [eauto|]. intros Hs'. apply Hne.
      by apply (vi_disjoint vs Hi s k v k' v').
  - intros s k1 v1 k2 v2 [_ H1]%lookup_delete_Some [_ H2]%lookup_delete_Some. by apply (vi_disjoint vs Hi s).
  - intros o. rewrite Hcr, (vi_created vs Hi o), Hid. rewrite lookup_delete. unfold output_at. case_decide as Ho.
    + destruct Ho as [Ho Hpos]. rewrite Ho, decide_True by done. rewrite Hk. cbn. rewrite decide_True by done.
      by destruct (outputs (vs_tx v) !! _).
    + destruct (decide (k = outpoint_hash o)) as [->|]; [|done]. rewrite Hk. cbn. by rewrite decide_False.
  - rewrite (vi_cost vs Hi), (txs_sum_delete cost _ k v Hk). lia.
  - rewrite (vi_size vs Hi), (txs_sum_delete vs_size _ k v Hk). lia.
  - unfold u64_MAX. lia.
Qed.

Lemma insert_spec vs v spent p : vs_inv vs -> vtx_wf v -> vs_transactions vs !! mined_id (vs_id v) = None ->
  total_cost vs + cost v <= u64_MAX ->
  match VerifiedSet_insert vs v spent p with
  | Ok (vs', p') =>
      vs_inv vs' /\ vs_transactions vs' = <[mined_id (vs_id v) := v]> (vs_transactions vs)
      /\ transaction_dependencies vs' = add_dependencies (transaction_dependencies vs) (mined_id (vs_id v)) spent
      /\ Forall (fun o => is_Some (created_outputs vs !! o)) spent
      /\ (forall o, o ∈ waiting p' <-> o ∈ waiting p /\ output_at (mined_id (vs_id v)) (vs_tx v) o = None)
      /\ (forall o out, o ∈ waiting p -> output_at (mined_id (vs_id v)) (vs_tx v) o = Some out -> (o, out) ∈ answered p')
  | Err SpendConflict => exists s k v', vs_transactions vs !! k = Some v' /\ s ∈ spends (vs_tx v') /\ s ∈ spends (vs_tx v)
  | Err MissingOutput => exists o, o ∈ spent /\ created_outputs vs !! o = None
  | Panic => False
  end.
Proof.
  intros Hi [Hsz Hlen] Hfresh Hcost. unfold VerifiedSet_insert.
  destruct (has_spend_conflicts vs (vs_tx v)) eqn:Hc.
  { apply has_spend_conflicts_spec in Hc as (s & Hs & Ht). apply (vi_spends vs Hi) in Ht as (k & v' & ? & ?). eauto 8. }
  destruct (existsb _ spent) eqn:He.
  { apply existsb_exists in He as (o & Ho & Hn). exists o. by rewrite list_elem_of_In, <- (bool_decide_eq_true (_ = None)). }
  destruct (add_created_outputs_spec (mined_id (vs_id v)) (vs_tx v) (created_outputs vs) p Hlen)
    as (created & p' & Hf & Hcr & Hw & Ha).
  rewrite Hf. cbn [lift mbind res_bind]. pose proof (txs_sum_le vs Hi) as Hle.
  assert (0 <= vs_size v <= cost v) by (unfold cost, vs_size in *; lia).
  assert (u64_MAX = 2 ^ 64 - 1) as H64 by done.
  rewrite !arith_u_in by lia. cbn [mbind res_bind].
  assert (forall s, s ∈ spends (vs_tx v) -> ~ tracked vs s) as Hnt.
  { intros s Hs Ht. apply eq_true_false_abs in Hc; [done|]. apply has_spend_conflicts_spec. eauto. }
  split; [|split; [done|split; [done|split; [|by split]]]].
  - split; cbn.
    + intros k v' [[<- <-]|[_ Hk]]%lookup_insert_Some; [done|]. by apply (vi_keys vs Hi).
    + intros k v' [[<- <-]|[_ Hk]]%lookup_insert_Some; [done|]. by apply (vi_wf vs Hi k).
    + intros s. transitivity (tracked vs s \/ s ∈ spends (vs_tx v)).
      { rewrite elem_of_spends. destruct s; cbn; unfold extend_set; by rewrite elem_of_union, elem_of_list_to_set. }
      rewrite (vi_spends vs Hi s). split.
      * intros [(k & v' & Hk & Hs)|Hs]; [|exists (mined_id (vs_id v)), v; by rewrite lookup_insert_eq].
        exists k, v'. split; [|done]. rewrite lookup_insert_ne; [done|]. intros <-. congruence.
      * intros (k & v' & [[<- <-]|[_ Hk]]%lookup_insert_Some & Hs); [by right|left; eauto].
    + intros s k1 v1 k2 v2 [[<- <-]|[Hn1 H1]]%lookup_insert_Some [[<- <-]|[Hn2 H2]]%lookup_insert_Some Hs1 Hs2; try done.
      * destruct (Hnt s Hs1). apply (vi_spends vs Hi). eauto.
      * destruct (Hnt s Hs2). apply (vi_spends vs Hi). eauto.
      * by apply (vi_disjoint vs Hi s k1 v1 k2 v2).
    + intros o. rewrite Hcr, (vi_created vs Hi o). destruct (decide (outpoint_hash o = mined_id (vs_id v))) as [->|Hne].
      * rewrite Hfresh, lookup_insert_eq. cbn. by destruct (output_at _ _ o).
      * rewrite lookup_insert_ne by done. unfold output_at at 1. by rewrite decide_False by tauto.
    + rewrite (vi_cost vs Hi), txs_sum_insert by done. lia.
    + rewrite (vi_size vs Hi), txs_sum_insert by done. lia.
    + lia.
  - apply Forall_forall. intros o Ho. apply not_eq_None_Some. intros Hn.
    apply eq_true_false_abs in He; [done|]. apply existsb_exists. exists o. split; [by apply list_elem_of_In|].
    by apply bool_decide_eq_true.
Qed.

Lemma with_dependencies_inv vs d : vs_inv vs -> vs_inv (with_dependencies vs d).
Proof. intros [? ? Hs ? ? ? ? ?]. by split. Qed.

Lemma remove_each_spec keys vs acc : vs_inv vs -> 
  match foldM (fun '(vs, removed) key => '(vs, tx) ← remove_one vs key; Ok (vs, removed ++ [tx])) (vs, acc) keys with
  | Ok (vs', removed) => vs_inv vs' /\ NoDup keys /\ without (fun x => x ∈ keys) (vs_transactions vs) (vs_transactions vs')
      /\ transaction_dependencies vs' = transaction_dependencies vs
      /\ exists l, removed = acc ++ l /\ Forall2 (fun k v => vs_transactions vs !! k = Some v) keys l
  | Err _ => False
  | Panic => ~ (NoDup keys /\ Forall (fun k => is_Some (vs_transactions vs !! k)) keys)
  end.
Proof.
  revert vs acc. induction keys as [|k keys IH]; intros vs acc Hi; cbn [foldM].
  { split; [done|]. split; [constructor|]. split; [|split; [done|exists []; by rewrite app_nil_r]].
    intros x. rewrite decide_False; [done|apply not_elem_of_nil]. }
  pose proof (remove_one_spec vs k Hi) as Hone. destruct (vs_transactions vs !! k) as [v|] eqn:Hk.
  2: { rewrite Hone. cbn. rewrite Forall_cons, Hk. intros (_ & [? [=]] & _). }
  destruct Hone as (vs1 & Hone & Hi1 & Ht1 & Hd1). rewrite Hone. cbn [mbind res_bind].
  specialize (IH vs1 (acc ++ [v]) Hi1). destruct (foldM _ _ keys) as [[vs' removed]|e|]; [|done|].
  - destruct IH as (Hi' & Hnd & Ht & Hd & l & -> & Hl).
    assert (k ∉ keys) as Hn.
    { intros Hin. apply Forall2_same_length_lookup in Hl as [Hlen Hl]. apply list_elem_of_lookup in Hin as [i Hin].
      destruct (lookup_lt_is_Some_2 l i) as [y Hy]; [rewrite <- Hlen; by eapply lookup_lt_Some|].
      specialize (Hl i k y Hin Hy). by rewrite Ht1, lookup_delete_eq in Hl. }
    split; [done|]. split; [by constructor|]. split; [|split; [congruence|exists (v :: l); split; [by rewrite <- app_assoc|]]].
    + intros x. rewrite (Ht x), Ht1, lookup_delete. destruct (decide (x ∈ keys)) as [Hx|Hx].
      * rewrite decide_True by (apply elem_of_cons; auto). done.
      * case_decide as Hkx; [subst; by rewrite decide_True by (apply elem_of_cons; auto)|].
        rewrite decide_False by (rewrite elem_of_cons; naive_solver). done.
    + constructor; [done|]. eapply Forall2_impl; [exact Hl|]. cbn. intros x y. rewrite Ht1. by intros [_ ?]%lookup_delete_Some.
  - intros [Hnd Hf]. apply IH. rewrite NoDup_cons in Hnd. rewrite Forall_cons in Hf. destruct Hnd as [Hn Hnd], Hf as [_ Hf].
    split; [done|]. rewrite Forall_forall in Hf |- *. intros x Hx. rewrite Ht1, lookup_delete_ne; [auto|]. by intros ->.
Qed.

(** What [VerifiedSet_remove] needs not to panic: all that is recorded as
    depending on the transaction is in the set. *)
Definition removable vs (k : bytes) : Prop :=
  is_Some (vs_transactions vs !! k) /\ ~ tc (depends (transaction_dependencies vs)) k k
  /\ forall c, tc (depends (transaction_dependencies vs)) k c -> is_Some (vs_transactions vs !! c).

Lemma remove_spec vs k : vs_inv vs ->
  match VerifiedSet_remove vs k with
  | Ok (vs', removed) =>
      vs_inv vs' /\ removable vs k /\ last removed = vs_transactions vs !! k
      /\ exists all : gset bytes, (forall c, c ∈ all <-> tc (depends (transaction_dependencies vs)) k c)
      /\ without (fun x => x ∈ {[k]} ∪ all) (vs_transactions vs) (vs_transactions vs')
      /\ without (fun x => x ∈ {[k]} ∪ all) (dependents (transaction_dependencies vs)) (dependents (transaction_dependencies vs'))
      /\ without (fun x => x ∈ {[k]} ∪ all) (dependencies (transaction_dependencies vs)) (dependencies (transaction_dependencies vs'))
      /\ (forall v, v ∈ removed <-> exists c, c ∈ {[k]} ∪ all /\ vs_transactions vs !! c = Some v)
  | Err _ => False
  | Panic => ~ removable vs k
  end.
Proof.
  intros Hi. unfold VerifiedSet_remove. pose proof (remove_all_spec (transaction_dependencies vs) k) as Hall.
  destruct (remove_all _ k) as [d all]. destruct Hall as (Htc & Hd & Hs).
  pose proof (remove_each_spec (elements all ++ [k]) (with_dependencies vs d) [] (with_dependencies_inv vs d Hi)) as He.
  fold (remove_each (with_dependencies vs d) (elements all ++ [k])) in He.
  assert (NoDup (elements all ++ [k]) <-> ~ tc (depends (transaction_dependencies vs)) k k) as Hnd.
  { rewrite NoDup_app, <- Htc. split.
    - intros (_ & Hn & _) Hin. apply (Hn k); [by apply elem_of_elements|by apply list_elem_of_singleton].
    - intros Hn. split; [apply NoDup_elements|]. split; [|apply NoDup_singleton]. intros x Hx%elem_of_elements ->%list_elem_of_singleton. done. }
  assert (forall x, x ∈ elements all ++ [k] <-> x ∈ {[k]} ∪ all) as Hel.
  { intros x. rewrite elem_of_app, elem_of_elements, list_elem_of_singleton, elem_of_union, elem_of_singleton. tauto. }
  cbn [vs_transactions transaction_dependencies with_dependencies] in He.
  destruct (remove_each _ _) as [[vs' removed]|e|]; [|done|].
  - destruct He as (Hi' & Hn & Ht & Hdv & l & -> & Hl). cbn [app]. split; [done|].
    assert (forall x, x ∈ {[k]} ∪ all -> is_Some (vs_transactions vs !! x)) as Hin.
    { intros x Hx%Hel. apply list_elem_of_lookup in Hx as [i Hx]. destruct (Forall2_lookup_l _ _ _ _ _ Hl Hx) as (y & _ & Hy). eauto. }
    split; [|split; [|exists all; split; [done|]]].
    + split; [|split; [by apply Hnd|]]. 
      * apply Hin. apply elem_of_union_l, elem_of_singleton. done.
      * intros c Hc. apply Hin, elem_of_union_r. by apply Htc.
    + apply Forall2_app_inv_l in Hl as (l1 & l2 & _ & Hl2 & ->). apply Forall2_cons_inv_l in Hl2 as (y & l3 & Hy & Hl3 & ->).
      apply Forall2_nil_inv_l in Hl3 as ->. by rewrite last_snoc.
    + rewrite Hdv. split; [|split; [done|split; [done|]]].
      * intros x. rewrite (Ht x). apply decide_ext, Hel.
      * intros v. split.
        -- intros Hv. apply list_elem_of_lookup in Hv as [i Hv]. destruct (Forall2_lookup_r _ _ _ _ _ Hl Hv) as (c & Hc & Hcv).
           exists c. split; [|done]. apply Hel. by eapply list_elem_of_lookup_2.
        -- intros (c & Hc%Hel & Hcv). apply list_elem_of_lookup in Hc as [i Hc]. destruct (Forall2_lookup_l _ _ _ _ _ Hl Hc) as (y & Hy & Hcy).
           assert (y = v) as -> by congruence. by eapply list_elem_of_lookup_2.
  - intros (Hk & Hn & Hc). apply He. split; [by apply Hnd|]. apply Forall_forall. intros x Hx%Hel.
    apply elem_of_union in Hx as [->%elem_of_singleton|Hx]; [done|]. by apply Hc, Htc.
Qed.

Definition vs_shrinks vs vs' : Prop :=
  vs_transactions vs' ⊆ vs_transactions vs
  /\ dependents (transaction_dependencies vs') ⊆ dependents (transaction_dependencies vs)
  /\ dependencies (transaction_dependencies vs') ⊆ dependencies (transaction_dependencies vs).

#[export] Instance vs_shrinks_preorder : PreOrder vs_shrinks.
Proof.
  split; [by intros vs|]. intros a b c (? & ? & ?) (? & ? & ?). repeat split; etrans; eauto.
Qed.

Lemma without_subseteq {A} (P : bytes -> Prop) `{forall x, Decision (P x)} (m m' : gmap bytes A) : without P m m' -> m' ⊆ m.
Proof. intros Hw. apply map_subseteq_spec. intros k x. rewrite (Hw k). by case_decide. Qed.

Lemma remove_shrinks vs k vs' removed : vs_inv vs -> VerifiedSet_remove vs k = Ok (vs', removed) ->
  vs_inv vs' /\ vs_shrinks vs vs' /\ vs_transactions vs' !! k = None.
Proof.
  intros Hi Hr. pose proof (remove_spec vs k Hi) as Hs. rewrite Hr in Hs.
  destruct Hs as (Hi' & _ & _ & all & _ & Ht & Hd & Hc & _). split; [done|]. split.
  - split; [|split]; by eapply without_subseteq.
  - rewrite (Ht k), decide_True; [done|]. by apply elem_of_union_l, elem_of_singleton.
Qed.

Lemma remove_keys_Ok keys s s' : vs_inv s.1 -> foldM remove_key s keys = Ok s' ->
  vs_inv s'.1 /\ vs_shrinks s.1 s'.1 /\ forall k, k ∈ keys -> vs_transactions s'.1 !! k = None.
Proof.
  revert s. induction keys as [|k keys IH]; intros s Hi; cbn [foldM].
  { intros [= <-]. split; [done|]. split; [done|]. by intros k ?%elem_of_nil. }
  intros (s1 & ([vs1 txs] & Hr & [= <-])%bind_Ok_inv & Hf)%bind_Ok_inv.
  apply remove_shrinks in Hr as (Hi1 & Hs1 & Hk); [|done]. apply IH in Hf as (Hi' & Hs' & Hks); [|done].
  split; [done|]. split; [by etrans|]. intros x [->|Hx]%elem_of_cons; [|auto].
  destruct Hs' as [Hsub _]. by eapply lookup_weaken_None.
Qed.

(** A dependent is still recorded after a removal, unless the transaction it
    depends on was removed as well. *)
Lemma remove_keeps_dependents vs k vs' removed p c : vs_inv vs -> VerifiedSet_remove vs k = Ok (vs', removed) ->
  depends (transaction_dependencies vs) p c ->
  vs_transactions vs' !! p = None \/ depends (transaction_dependencies vs') p c.
Proof.
  intros Hi Hr Hd. pose proof (remove_spec vs k Hi) as Hs. rewrite Hr in Hs.
  destruct Hs as (_ & _ & _ & all & _ & Ht & Hdt & _). destruct (decide (p ∈ {[k]} ∪ all)) as [Hp|Hp].
  - left. by rewrite (Ht p), decide_True.
  - right. rewrite (depends_without _ _ _ p c Hdt). done.
Qed.

Lemma remove_drops_dependents vs p vs' removed c : vs_inv vs -> VerifiedSet_remove vs p = Ok (vs', removed) ->
  depends (transaction_dependencies vs) p c -> vs_transactions vs' !! c = None.
Proof.
  intros Hi Hr Hd. pose proof (remove_spec vs p Hi) as Hs. rewrite Hr in Hs. destruct Hs as (_ & _ & _ & all & Htc & Ht & _).
  rewrite (Ht c), decide_True; [done|]. apply elem_of_union_r, Htc. by apply tc_once.
Qed.

Lemma missing_panics keys s p c : vs_inv s.1 -> p ∈ keys ->
  vs_transactions s.1 !! p = None \/ (depends (transaction_dependencies s.1) p c /\ vs_transactions s.1 !! c = None) ->
  foldM remove_key s keys = Panic.
Proof.
  revert s. induction keys as [|k keys IH]; intros s Hi Hp Hm; [by apply elem_of_nil in Hp|]. cbn [foldM].
  destruct (remove_key s k) as [s1|[]|] eqn:Hr; [|done]. apply bind_Ok_inv in Hr as ([vs' removed] & Hr & [= <-]).
  pose proof (remove_spec s.1 k Hi) as Hs. rewrite Hr in Hs.
  pose proof (remove_shrinks s.1 k vs' removed Hi Hr) as (Hi' & [Hsub _] & Hk). cbn [mbind res_bind].
  destruct Hs as (_ & (Hrk & _ & Hrc) & _). apply elem_of_cons in Hp as [->|Hp].
  { exfalso. destruct Hm as [Hm|[Hm Hc]]; [by rewrite Hm in Hrk; destruct Hrk|].
    destruct (Hrc c (tc_once _ _ _ Hm)). congruence. }
  apply IH; [done|done|]. cbn [fst]. destruct Hm as [Hm|[Hm Hc]]; [left; by eapply lookup_weaken_None|].
  destruct (remove_keeps_dependents s.1 k vs' removed p c Hi Hr Hm); [by left|right].
  split; [done|]. by eapply lookup_weaken_None.
Qed.

Lemma dependent_pair_panics keys s p c : vs_inv s.1 -> depends (transaction_dependencies s.1) p c -> p <> c ->
  p ∈ keys -> c ∈ keys -> foldM remove_key s keys = Panic.
Proof.
  revert s. induction keys as [|k keys IH]; intros s Hi Hd Hne Hp Hc; [by apply elem_of_nil in Hp|]. cbn [foldM].
  destruct (remove_key s k) as [s1|[]|] eqn:Hr; [|done]. apply bind_Ok_inv in Hr as ([vs' removed] & Hr & [= <-]).
  cbn [mbind res_bind].
  pose proof (remove_shrinks s.1 k vs' removed Hi Hr) as (Hi' & _ & Hk).
  apply elem_of_cons in Hp as [->|Hp].
  - apply elem_of_cons in Hc as [->|Hc]; [done|]. apply (missing_panics _ _ c c); [done..|]. left.
    by apply (remove_drops_dependents s.1 k vs' removed c).
  - destruct (remove_keeps_dependents s.1 k vs' removed p c Hi Hr Hd) as [Hm|Hd'].
    + apply (missing_panics _ _ p c); auto.
    + apply elem_of_cons in Hc as [->|Hc]; [apply (missing_panics _ _ p k); auto|]. auto.
Qed.

Lemma remove_all_that_keys vs (predicate : VerifiedUnminedTx -> bool) k :
  k ∈ fst <$> filter (fun e => predicate e.2 = true) (map_to_list (vs_transactions vs))
  <-> exists v, vs_transactions vs !! k = Some v /\ predicate v = true.
Proof.
  rewrite list_elem_of_fmap. split.
  - intros ([k' v] & -> & [Hp Hin]%list_elem_of_filter). exists v. by rewrite <- elem_of_map_to_list.
  - intros (v & Hv & Hp). exists (k, v). split; [done|]. apply list_elem_of_filter. by rewrite elem_of_map_to_list.
Qed.

Lemma remove_all_that_Ok vs predicate vs' ids : vs_inv vs -> remove_all_that vs predicate = Ok (vs', ids) ->
  vs_inv vs' /\ vs_shrinks vs vs' /\ forall k v, vs_transactions vs' !! k = Some v -> predicate v = false.
Proof.
  intros Hi Hr. apply remove_keys_Ok in Hr as (Hi' & Hs & Hk); [|done]. cbn [fst] in *. split; [done|]. split; [done|].
  intros k v Hv. destruct (predicate v) eqn:Hp; [|done]. exfalso. destruct Hs as [Hsub _].
  rewrite (Hk k) in Hv; [done|]. apply remove_all_that_keys. exists v. split; [|done]. by eapply lookup_weaken.
Qed.

Lemma vs_shrinks_cost vs vs' : vs_inv vs -> vs_inv vs' -> vs_shrinks vs vs' -> total_cost vs' <= total_cost vs.
Proof.
  intros Hi Hi' [Hsub _]. rewrite (vi_cost vs Hi), (vi_cost vs' Hi'). unfold txs_sum.
  pose proof (map_to_list_submseteq _ _ Hsub) as [l Hl]%submseteq_Permutation. rewrite Hl, sum_Z_app.
  enough (0 <= sum_Z (fun e => cost e.2) l) by lia. apply sum_Z_nonneg, Forall_forall. intros [k v] Hin.
  assert (vs_transactions vs !! k = Some v) as Hk.
  { apply elem_of_map_to_list. rewrite Hl. apply elem_of_app. by right. }
  apply (txs_sum_bounds vs k v Hi Hk).
Qed.
End Invariant.
