(* ===== verification/MempoolStorage.v ===== *)
(** The invariant of the mempool storage, what its operations need in order
    not to panic, and what they do to the transactions it holds. *)
From S2P Require Import Prelude Serialization Height Amount FundingStreams NetworkUpgrade Subsidy Transaction TransactionVerifier Mempool.
From stdpp Require Import strings gmap sorting fin_maps relations prelude.
From Stdlib Require Import ZArith Lia.
#[local] Open Scope Z_scope.
Implicit Types (st : Storage) (vs : VerifiedSet) (v : VerifiedUnminedTx).
Implicit Types lists : gmap SameEffectsChainRejectionError EvictionList.

(** * Rejections *)

Definition list_ok (now t : Z) (l : EvictionList) : Prop :=
  exists es, l = el_of MAX_EVICTION_MEMORY_ENTRIES t es /\ entries_wf now es /\ Z.of_nat (length es) <= MAX_EVICTION_MEMORY_ENTRIES.
Definition lists_ok (now t : Z) lists : Prop := forall e l, lists !! e = Some l -> list_ok now t l.
(** [k] is on the list for the reason [e] and has not expired. *)
Definition listed (now : Z) lists (e : SameEffectsChainRejectionError) (k : bytes) : Prop :=
  exists l, lists !! e = Some l /\ contains_key now l k = true.

Lemma length_live t now es : (length (live t now es) <= length es)%nat.
Proof. unfold live. apply length_filter. Qed.

Lemma len_ok now t l : list_ok now t l ->
  exists l' n, EvictionList_len now l = Ok (l', n) /\ list_ok now t l' /\ forall k, contains_key now l' k = contains_key now l k.
Proof.
  intros (es & -> & Hwf & Hlen). rewrite el_len by done. do 2 eexists. split; [done|].
  assert (entries_wf now (live t now es)) as Hwf' by by apply entries_wf_filter. split.
  - exists (live t now es). split; [done|]. split; [done|]. pose proof (length_live t now es). lia.
  - intros k. apply eq_bool_prop_intro. rewrite !Is_true_true, !el_contains, live_idemp by done. done.
Qed.

Lemma storage_insert_ok now t l key : 0 <= t -> list_ok now t l ->
  match EvictionList_insert now key l with
  | Ok l' => list_ok now t l' /\ contains_key now l' key = true
      /\ (forall k, contains_key now l' k = true -> k = key \/ contains_key now l k = true)
  | Err _ => False
  | Panic => contains_key now l key = true
  end.
Proof.
  intros Ht (es & -> & Hwf & Hlen). rewrite el_insert by done. set (kp := kept _ t now es).
  assert (forall k, k ∈ kp.*1 -> k ∈ (live t now es).*1) as Hsub.
  { intros k. unfold kp, kept. destruct (_ <=? _); [|done]. destruct (live t now es); [done|]. cbn. intros ?. by apply elem_of_cons; right. }
  pose proof (kept_wf MAX_EVICTION_MEMORY_ENTRIES t now es Hwf) as Hk. fold kp in Hk.
  case_bool_decide as Hin; [by apply el_contains, Hsub|].
  assert (entries_wf now (kp ++ [(key, now)])) as Hwf' by by apply entries_wf_snoc.
  assert (live t now [(key, now)] = [(key, now)]) as Hlive.
  { unfold live. rewrite filter_cons_True; [done|]. cbn. apply Z.ltb_ge. lia. }
  split; [|split].
  - exists (kp ++ [(key, now)]). split; [done|]. split; [done|]. rewrite length_app. cbn [length].
    pose proof (length_live t now es). unfold kp, kept, MAX_EVICTION_MEMORY_ENTRIES in *. destruct (_ <=? _) eqn:Hle.
    + destruct (live t now es); cbn in *; lia.
    + lia.
  - apply el_contains; [done|]. unfold live. rewrite filter_app, fmap_app, elem_of_app. right. fold (live t now [(key, now)]).
    rewrite Hlive. by apply list_elem_of_singleton.
  - intros k. rewrite !el_contains by done. unfold live at 1. rewrite filter_app, fmap_app, elem_of_app.
    fold (live t now kp) (live t now [(key, now)]). rewrite Hlive. intros [Hkp|Hkk]; [right|left; by apply list_elem_of_singleton in Hkk].
    apply Hsub. apply list_elem_of_fmap in Hkp as (x & -> & [_ Hx]%list_elem_of_filter). by apply list_elem_of_fmap_2.
Qed.

(** What an operation on rejections leaves alone. *)
Definition same_core st st' : Prop :=
  verified st' = verified st /\ pending_outputs st' = pending_outputs st
  /\ st_eviction_memory_time st' = st_eviction_memory_time st /\ tx_cost_limit st' = tx_cost_limit st.
#[export] Instance same_core_preorder : PreOrder same_core.
Proof. split; [by intros st|]. unfold same_core. intros a b c (? & ? & ? & ?) (? & ? & ? & ?). repeat split; congruence. Qed.

Record rejections_ok (now : Z) st : Prop := {
  ro_time : 0 <= st_eviction_memory_time st;
  ro_lists : lists_ok now (st_eviction_memory_time st) (chain_rejected_same_effects st);
  ro_exact : Z.of_nat (size (tip_rejected_exact st)) <= MAX_EVICTION_MEMORY_ENTRIES;
  ro_effects : Z.of_nat (size (tip_rejected_same_effects st)) <= MAX_EVICTION_MEMORY_ENTRIES
}.
Definition chain_rejects (now : Z) st := listed now (chain_rejected_same_effects st).

Lemma listed_insert now lists e l e' k :
  listed now (<[e := l]> lists) e' k <-> (e' = e /\ contains_key now l k = true) \/ (e' <> e /\ listed now lists e' k).
Proof.
  unfold listed. destruct (decide (e' = e)) as [->|Hne].
  - setoid_rewrite lookup_insert_eq. naive_solver.
  - setoid_rewrite lookup_insert_ne; [|done]. naive_solver.
Qed.

Lemma prune_lists now t lists : lists_ok now t lists ->
  exists lists' n, foldM (fun '(lists, n) '(e, l) =>
      '(l, len) ← EvictionList_len now l; Ok (<[e := l]> lists, n + len)) (lists, 0) (map_to_list lists)
    = Ok (E := Empty_set) (lists', n)
  /\ lists_ok now t lists' /\ forall e k, listed now lists' e k <-> listed now lists e k.
Proof.
  intros Hok. assert (Forall (fun el => lists !! el.1 = Some el.2) (map_to_list lists)) as Hall.
  { apply Forall_forall. intros [e l] Hin. by apply elem_of_map_to_list. }
  assert (forall todo n0 acc, Forall (fun el => lists !! el.1 = Some el.2) todo -> lists_ok now t acc ->
    (forall e k, listed now acc e k <-> listed now lists e k) ->
    exists lists' n, foldM (fun '(lists, n) '(e, l) =>
        '(l, len) ← EvictionList_len now l; Ok (<[e := l]> lists, n + len)) (acc, n0) todo = Ok (E := Empty_set) (lists', n)
      /\ lists_ok now t lists' /\ forall e k, listed now lists' e k <-> listed now lists e k) as Hgen; [|by apply Hgen].
  clear Hall. induction todo as [|[e l] todo IH]; intros n0 acc Hall Hacc Heq.
  { exists acc, n0. by split. }
  rewrite Forall_cons in Hall. destruct Hall as [Hl Hall]. cbn in Hl. cbn [foldM].
  destruct (len_ok now t l (Hok e l Hl)) as (l' & n & Hlen & Hl' & Hc). rewrite Hlen. cbn [mbind res_bind].
  apply IH; [done|..].
  - intros e' l'' [[<- <-]|[_ He]]%lookup_insert_Some; [done|]. by apply (Hacc e').
  - intros e' k. rewrite listed_insert, Heq, Hc. destruct (decide (e' = e)) as [->|]; [|naive_solver].
    unfold listed. rewrite Hl. naive_solver.
Qed.

Lemma count_ok now st : rejections_ok now st ->
  exists st' n, rejected_transaction_count now st = Ok (st', n) /\ rejections_ok now st' /\ same_core st st'
    /\ forall e k, chain_rejects now st' e k <-> chain_rejects now st e k.
Proof.
  intros [Ht Hl He Hs]. unfold rejected_transaction_count.
  destruct (prune_lists now _ _ Hl) as (lists & n & Hf & Hl' & Heq). rewrite Hf. cbn [mbind res_bind].
  do 2 eexists. split; [done|]. split; [by split|]. split; [done|]. exact Heq.
Qed.

Lemma metrics_ok now st : rejections_ok now st ->
  exists st', update_rejected_metrics now st = Ok st' /\ rejections_ok now st' /\ same_core st st'
    /\ forall e k, chain_rejects now st' e k <-> chain_rejects now st e k.
Proof.
  intros Hok. unfold update_rejected_metrics.
  destruct (count_ok now st Hok) as (st1 & n & Hc & Hok1 & Hs1 & He1). rewrite Hc. cbn [mbind res_bind].
  destruct (count_ok now st1 Hok1) as (st2 & n2 & Hc2 & Hok2 & Hs2 & He2). rewrite Hc2. cbn [mbind res_bind].
  exists st2. split; [done|]. split; [done|]. split; [by etrans|]. intros e k. by rewrite He2.
Qed.

Lemma limit_ok now st : 0 <= st_eviction_memory_time st ->
  lists_ok now (st_eviction_memory_time st) (chain_rejected_same_effects st) ->
  exists st', limit_rejection_list_memory now st = Ok st' /\ rejections_ok now st' /\ same_core st st'
    /\ forall e k, chain_rejects now st' e k <-> chain_rejects now st e k.
Proof.
  intros Ht Hl. unfold limit_rejection_list_memory.
  set (st1 := with_tip_rejected st _ _).
  destruct (metrics_ok now st1) as (st' & Hm & Hok & Hs & He); [|exists st'; by rewrite Hm].
  split; [done|done|..]; cbn.
  - destruct (_ <? _) eqn:Hlt; [rewrite map_size_empty; unfold MAX_EVICTION_MEMORY_ENTRIES; lia|]. apply Z.ltb_ge in Hlt. done.
  - destruct (_ <? Z.of_nat (size (tip_rejected_same_effects st))) eqn:Hlt; [rewrite map_size_empty; unfold MAX_EVICTION_MEMORY_ENTRIES; lia|].
    apply Z.ltb_ge in Hlt. done.
Qed.

Lemma reject_spec now st id reason : rejections_ok now st ->
  match reject now st id reason with
  | Ok st' => rejections_ok now st' /\ same_core st st'
      /\ (forall e k, chain_rejects now st' e k -> chain_rejects now st e k \/ (reason = SameEffectsChain e /\ k = mined_id id))
      /\ (forall e, reason = SameEffectsChain e -> chain_rejects now st' e (mined_id id))
  | Err _ => False
  | Panic => exists e, reason = SameEffectsChain e /\ chain_rejects now st e (mined_id id)
  end.
Proof.
  intros [Ht Hl He Hs]. unfold reject. destruct reason as [e|e|e]; cbn [mbind res_bind].
  1,2: match goal with |- context [limit_rejection_list_memory ?n ?s] =>
    destruct (limit_ok n s) as (st' & -> & Hok & Hsc & Heq); [done..|] end;
    split; [done|]; split; [exact Hsc|]; split; [|done]; intros e' k; rewrite Heq; by left.
  set (l := default _ _). assert (list_ok now (st_eviction_memory_time st) l) as Hlo.
  { unfold l. destruct (chain_rejected_same_effects st !! e) eqn:Hle; cbn; [by apply (Hl e)|].
    exists []. split; [done|]. split; [repeat split; constructor|]. cbn. unfold MAX_EVICTION_MEMORY_ENTRIES. lia. }
  assert (forall k, contains_key now l k = true -> chain_rejects now st e k) as Hlc.
  { intros k. unfold l, chain_rejects, listed. destruct (chain_rejected_same_effects st !! e) eqn:Hle; cbn; [eauto|done]. }
  pose proof (storage_insert_ok now _ l (mined_id id) Ht Hlo) as Hi.
  destruct (EvictionList_insert now (mined_id id) l) as [l'|[]|]; cbn [mbind res_bind]; [|eauto].
  destruct Hi as (Hl' & Hin & Hsub).
  destruct (limit_ok now (with_chain_rejected st (<[e := l']> (chain_rejected_same_effects st)))) as (st' & -> & Hok & Hsc & Heq); [done|..].
  { cbn. intros e' l'' [[<- <-]|[_ Hx]]%lookup_insert_Some; [done|]. by apply (Hl e'). }
  split; [done|]. split; [exact Hsc|]. split.
  - intros e' k. rewrite Heq. unfold chain_rejects at 1. cbn. rewrite listed_insert.
    intros [[-> Hk]|[_ Hk]]; [|by left]. apply Hsub in Hk as [->|Hk]; auto.
  - intros e' [= <-]. rewrite Heq. unfold chain_rejects. cbn. rewrite listed_insert. auto.
Qed.

(** * The invariant of the storage *)

(** All of the invariant but the limit on the total cost. *)
Record st_pre (now : Z) st : Prop := {
  sp_vs : vs_inv (verified st);
  sp_rejections : rejections_ok now st;
  sp_stored : forall e k, chain_rejects now st e k -> vs_transactions (verified st) !! k = None;
  sp_limit : 0 <= tx_cost_limit st <= u64_MAX
}.
Definition st_inv (now : Z) st : Prop := st_pre now st /\ total_cost (verified st) <= tx_cost_limit st.

Lemma contains_key_mono now now' l k : now <= now' -> contains_key now' l k = true -> contains_key now l k = true.
Proof.
  intros Hle. unfold contains_key, has_expired. destruct (unique_entries l !! k); [|done].
  rewrite !negb_true_iff, !Z.ltb_ge. lia.
Qed.

Lemma st_inv_mono now now' st : now <= now' -> st_inv now st -> st_inv now' st.
Proof.
  intros Hle [[Hvs [Ht Hl He Hs] Hst Hlim] Hc]. split; [|done]. split; [done|..].
  - split; [done| |done|done]. intros e l Hel. destruct (Hl e l Hel) as (es & -> & Hwf & Hlen). exists es.
    split; [done|]. split; [by eapply entries_wf_mono|done].
  - intros e k (l & Hel & Hk). apply (Hst e k). exists l. split; [done|]. by eapply contains_key_mono.
  - done.
Qed.

(** An operation that only removes transactions keeps the invariant. *)
Lemma st_pre_shrink now st vs : st_pre now st -> vs_inv vs -> vs_shrinks (verified st) vs -> st_pre now (with_verified st vs).
Proof.
  intros [Hvs Hr Hst Hlim] Hi [Hsub _]. split; [done| |..|done].
  - by destruct Hr.
  - intros e k Hk. cbn. eapply lookup_weaken_None; [by apply (Hst e k)|done].
Qed.

(** A rejection keeps it when the transaction is not stored. *)
Lemma st_pre_reject now st id reason st' : st_pre now st -> reject now st id reason = Ok st' ->
  (forall e, reason = SameEffectsChain e -> vs_transactions (verified st) !! mined_id id = None) ->
  st_pre now st' /\ same_core st st'.
Proof.
  intros [Hvs Hr Hst Hlim] Hrej Hn. pose proof (reject_spec now st id reason Hr) as Hs. rewrite Hrej in Hs.
  destruct Hs as (Hr' & Hsc & Hsub & _). split; [|done]. destruct Hsc as (Hv & _ & _ & Hl).
  split; [by rewrite Hv|done| |by rewrite Hl]. intros e k Hk. rewrite Hv. apply Hsub in Hk as [Hk|[He ->]]; eauto.
Qed.

Lemma reject_all_inv now reason ids st st' : st_pre now st -> reject_all now st ids reason = Ok st' ->
  (forall id, id ∈ ids -> vs_transactions (verified st) !! mined_id id = None) -> st_pre now st' /\ same_core st st'.
Proof.
  revert st. induction ids as [|id ids IH]; intros st Hp; cbn; [by intros [= <-]|].
  intros (st1 & Hrej & Hf)%bind_Ok_inv Hn. apply st_pre_reject in Hrej as [Hp1 Hs1]; [|done|].
  2: { intros e _. apply Hn, elem_of_cons. by left. }
  apply IH in Hf as [Hp' Hs']; [|done|].
  - split; [done|by etrans].
  - intros id' Hid. destruct Hs1 as [-> _]. apply Hn, elem_of_cons. by right.
Qed.

Section Storage.
Context `{BuildProfile}.

Lemma evict_one_Ok random vs vs' victim : vs_inv vs -> evict_one random vs = Ok (vs', victim) ->
  exists k v removed, victim = Some v /\ vs_transactions vs !! k = Some v /\ VerifiedSet_remove vs k = Ok (vs', removed).
Proof.
  intros Hi. unfold evict_one. intros (u & _ & Hr)%bind_Ok_inv. apply bind_Ok_inv in Hr as (k & Hk & Hr).
  apply bind_Ok_inv in Hr as ([vs1 removed] & Hrem & [= <- <-]). apply unwrap_Ok in Hk.
  apply list_lookup_fmap_Some in Hk as ([k' v] & -> & Hk). apply list_elem_of_lookup_2, elem_of_map_to_list in Hk.
  pose proof (remove_spec vs k' Hi) as Hs. cbn in Hrem. rewrite Hrem in Hs. destruct Hs as (_ & _ & Hlast & _).
  exists k', v, removed. by rewrite Hlast.
Qed.

Lemma evict_loop_inv fuel now random id st result st' result' : st_pre now st ->
  evict_loop fuel now random id st result = Ok (st', result') ->
  st_inv now st' /\ vs_shrinks (verified st) (verified st') /\ (pending_outputs st' = pending_outputs st /\ tx_cost_limit st' = tx_cost_limit st)
  /\ (result' = result \/ (result' = Err (StorageEffectsChain RandomlyEvicted) /\ vs_transactions (verified st') !! mined_id id = None)).
Proof.
  revert st result. induction fuel as [|fuel IH]; intros st result Hp; cbn [evict_loop].
  all: destruct (total_cost (verified st) <=? tx_cost_limit st) eqn:Hle;
    [intros [= <- <-]; apply Z.leb_le in Hle; split; [by split|]; split; [done|]; split; [done|]; by left|].
  { done. }
  intros ([vs victim] & Hev & Hr)%bind_Ok_inv. apply evict_one_Ok in Hev as (k & v & removed & -> & Hk & Hrem); [|by apply Hp].
  apply bind_Ok_inv in Hr as (v' & Hv & Hr). apply unwrap_Ok, Some_inj' in Hv as <-.
  apply bind_Ok_inv in Hr as (st1 & Hrej & Hr). pose proof (vi_keys _ (sp_vs _ _ Hp) k v Hk) as Hid.
  apply remove_shrinks in Hrem as (Hi & Hs & Hnone); [|by apply Hp].
  pose proof (st_pre_shrink now st vs Hp Hi Hs) as Hp1.
  apply st_pre_reject in Hrej as [Hp2 (Hv2 & Hpo & _ & Hli)]; [|done|by rewrite Hid]. cbn in Hv2, Hpo, Hli.
  apply IH in Hr as (Hi' & Hs' & [Hpo' Hli'] & Hres); [|done]. rewrite Hv2 in Hs'. split; [done|]. split; [by etrans|].
  split; [split; congruence|]. destruct Hres as [->|Hres]; [|by right]. case_bool_decide as Hvid; [right|by left].
  split; [done|]. rewrite <- Hvid, Hid. destruct Hs' as [Hsub _]. by eapply lookup_weaken_None.
Qed.

Lemma not_listed now st id e : rejection_error now st id = None -> ~ chain_rejects now st e (mined_id id).
Proof.
  intros Hrej (l & Hl & Hk). unfold rejection_error in Hrej. destruct (tip_rejected_exact st !! _); [done|].
  destruct (tip_rejected_same_effects st !! _); [done|]. destruct (head _) as [[e' l']|] eqn:Hh; [done|]. apply head_None in Hh.
  assert ((e, l) ∈ (filter (fun x => contains_key now x.2 (mined_id id) = true)
    (map_to_list (chain_rejected_same_effects st)))) as Hx.
  { apply list_elem_of_filter. split; [done|]. by apply elem_of_map_to_list. }
  rewrite Hh in Hx. by apply elem_of_nil in Hx.
Qed.

Lemma try_insert_spec now st v spent : st_inv now st -> vtx_wf v -> tx_cost_limit st + cost v <= u64_MAX ->
  rejection_error now st (vs_id v) = None -> vs_transactions (verified st) !! mined_id (vs_id v) = None ->
  exists st' result, try_insert now st v spent = Ok (st', result) /\ st_pre now st' /\ tx_cost_limit st' = tx_cost_limit st
  /\ ((result = Ok (vs_id v) /\ vs_transactions (verified st') = <[mined_id (vs_id v) := v]> (vs_transactions (verified st))
       /\ transaction_dependencies (verified st')
          = add_dependencies (transaction_dependencies (verified st)) (mined_id (vs_id v)) spent)
     \/ (is_ok result = false /\ result <> Panic /\ verified st' = verified st)).
Proof.
  intros [Hp Hc] Hwf Hcost Hrej Hin. unfold try_insert.
  pose proof (insert_spec (verified st) v spent (pending_outputs st) (sp_vs _ _ Hp) Hwf Hin) as Hspec.
  destruct (VerifiedSet_insert _ _ _ _) as [[vs p]|e|]; [| |destruct Hspec; lia].
  - destruct Hspec as (Hi & Ht & Hd & _); [lia|]. do 2 eexists. split; [done|]. split; [|split; [done|by left]].
    destruct Hp as [Hvs Hr Hst Hlim]. split; [done|by destruct Hr| |done].
    intros e k Hk. cbn. rewrite Ht, lookup_insert_ne; [by apply (Hst e k)|]. intros <-. by eapply not_listed.
  - pose proof (reject_spec now st (vs_id v) (SameEffectsTip e) (sp_rejections _ _ Hp)) as Hr.
    destruct (reject _ _ _ _) as [st'|[]|] eqn:Hst'; [|by destruct Hr as (? & [=] & _)]. cbn [mbind res_bind].
    apply st_pre_reject in Hst' as [Hp' (Hv & _ & _ & Hl)]; [|done..]. do 2 eexists. split; [done|]. split; [done|].
    split; [done|]. by right.
Qed.

Lemma insert_inv now random st v spent st' result : st_inv now st -> vtx_wf v -> tx_cost_limit st + cost v <= u64_MAX ->
  storage_insert now random st v spent = Ok (st', result) ->
  st_inv now st' /\ tx_cost_limit st' = tx_cost_limit st
  /\ (forall k v', vs_transactions (verified st') !! k = Some v' ->
       vs_transactions (verified st) !! k = Some v' \/ (k = mined_id (vs_id v) /\ v' = v /\ result = Ok (vs_id v))).
Proof.
  intros Hi Hwf Hcost. unfold storage_insert.
  destruct (rejection_error now st (vs_id v)) eqn:Hrej; [intros [= <- <-]; split; [done|split; auto]|].
  destruct (contains_transaction_exact st (mined_id (vs_id v))) eqn:Hin; [intros [= <- <-]; split; [done|split; auto]|].
  apply bool_decide_eq_false, eq_None_not_Some in Hin.
  destruct (try_insert_spec now st v spent Hi Hwf Hcost Hrej Hin) as (st1 & r1 & -> & Hp1 & Hlim1 & Hcase). cbn [mbind res_bind].
  intros (Hi' & Hsh & [_ Hlim'] & Hres)%evict_loop_inv; [|done]. split; [done|]. split; [congruence|]. intros k v' Hk.
  pose proof (proj1 Hsh) as Hsub. eapply lookup_weaken in Hsub; [|exact Hk].
  destruct Hcase as [(-> & Ht & _)|(_ & _ & Hv1)]; [|left; by rewrite <- Hv1].
  rewrite Ht in Hsub. apply lookup_insert_Some in Hsub as [[<- <-]|[_ ?]]; [|by left].
  right. split; [done|]. split; [done|]. destruct Hres as [?|[_ Hn]]; [done|congruence].
Qed.

Lemma st_inv_shrink now st vs : st_inv now st -> vs_inv vs -> vs_shrinks (verified st) vs -> st_inv now (with_verified st vs).
Proof.
  intros [Hp Hc] Hi Hs. split; [by apply st_pre_shrink|]. cbn.
  pose proof (vs_shrinks_cost (verified st) vs (sp_vs _ _ Hp) Hi Hs). lia.
Qed.

Lemma reject_all_st_inv now reason ids st st' : st_inv now st -> reject_all now st ids reason = Ok st' ->
  (forall id, id ∈ ids -> vs_transactions (verified st) !! mined_id id = None) -> st_inv now st' /\ same_core st st'.
Proof.
  intros [Hp Hc] Hr Hn. apply reject_all_inv in Hr as [Hp' Hs]; [|done..]. split; [|done]. split; [done|].
  destruct Hs as (-> & _ & _ & ->). done.
Qed.

Lemma remove_exact_inv now st ids st' n : st_inv now st -> remove_exact st ids = Ok (st', n) -> st_inv now st'.
Proof.
  intros Hi. unfold remove_exact. intros ([vs removed] & Hr & [= <- <-])%bind_Ok_inv.
  apply remove_all_that_Ok in Hr as (Hvs & Hs & _); [|by apply Hi]. by apply st_inv_shrink.
Qed.

Lemma with_pending_inv now st p : st_inv now st -> st_inv now (with_pending st p).
Proof. intros [[? [? ? ? ?] ? ?] ?]. by split. Qed.

Lemma shrink_lookup vs vs' k v : vs_shrinks vs vs' -> vs_transactions vs' !! k = Some v -> vs_transactions vs !! k = Some v.
Proof. intros [Hsub _] Hk. by eapply lookup_weaken. Qed.

Lemma with_verified_vs st vs : verified (with_verified st vs) = vs.
Proof. done. Qed.

Lemma same_effects_inv now receivers st mined_ids txs st' removed : st_inv now st ->
  reject_and_remove_same_effects now receivers st mined_ids txs = Ok (st', removed) ->
  st_inv now st' /\ vs_shrinks (verified st) (verified st')
  /\ forall k v, vs_transactions (verified st') !! k = Some v -> (k ∉ mined_ids) /\ spends_same txs (vs_tx v) = false.
Proof.
  intros Hi. unfold reject_and_remove_same_effects.
  intros ([vs1 r1] & Hr1 & Hr)%bind_Ok_inv. apply bind_Ok_inv in Hr as ([vs2 r2] & Hr2 & Hr).
  apply bind_Ok_inv in Hr as (st3 & Hr3 & Hr). apply bind_Ok_inv in Hr as (st4 & Hr4 & [= <- _]).
  apply remove_all_that_Ok in Hr1 as (Hi1 & Hs1 & Hn1); [|by apply Hi].
  apply remove_all_that_Ok in Hr2 as (Hi2 & Hs2 & Hn2); [|done].
  assert (vs_shrinks (verified st) vs2) as Hs by by etrans.
  set (dups := list_to_set _ : gset UnminedTxId) in *.
  assert (forall k v, vs_transactions vs2 !! k = Some v -> (k ∉ mined_ids) /\ spends_same txs (vs_tx v) = false /\ (vs_id v ∉ dups)) as Hall.
  { intros k v Hk. pose proof (shrink_lookup _ _ _ _ Hs2 Hk) as Hk1. split; [|split].
    - rewrite <- (vi_keys _ Hi1 k v Hk1). exact (bool_decide_eq_false_1 _ (Hn1 k v Hk1)).
    - apply (Hn2 k v), bool_decide_eq_false in Hk as Hd. destruct (spends_same txs (vs_tx v)) eqn:Hsp; [|done]. destruct Hd.
      apply elem_of_list_to_set, list_elem_of_fmap. exists (k, v). split; [done|]. apply list_elem_of_filter.
      by rewrite elem_of_map_to_list.
    - exact (bool_decide_eq_false_1 _ (Hn2 k v Hk)). }
  apply reject_all_st_inv in Hr3 as [Hi3 [Hv3 _]]; [|by apply st_inv_shrink|].
  2: { intros id (k & -> & Hk%elem_of_elements)%list_elem_of_fmap. cbn. destruct (vs_transactions vs2 !! k) eqn:He; [|done].
       by apply Hall in He as [? _]. }
  rewrite with_verified_vs in Hv3. apply reject_all_st_inv in Hr4 as [Hi4 [Hv4 _]]; [|done|].
  2: { intros id Hid%elem_of_elements. rewrite Hv3. destruct (vs_transactions vs2 !! mined_id id) as [v|] eqn:He; [|done].
       apply elem_of_list_to_set, list_elem_of_fmap in Hid as ([k' v'] & -> & [Hp Hin]%list_elem_of_filter).
       apply elem_of_map_to_list in Hin. cbn in *. rewrite (vi_keys _ Hi1 k' v' Hin) in He.
       pose proof (shrink_lookup _ _ _ _ Hs2 He) as He1. assert (v = v') as -> by congruence.
       apply Hall in He as (_ & Hf & _). congruence. }
  split; [by apply with_pending_inv|]. cbn. rewrite Hv4, Hv3. split; [done|]. intros k v Hk. apply Hall in Hk as (? & ? & _). done.
Qed.

Lemma expired_inv now st tip_height st' ids : st_inv now st ->
  remove_expired_transactions now st tip_height = Ok (st', ids) ->
  st_inv now st' /\ vs_shrinks (verified st) (verified st')
  /\ forall k v, vs_transactions (verified st') !! k = Some v -> has_expired_at tip_height v = false.
Proof.
  intros Hi. unfold remove_expired_transactions. set (tx_ids := list_to_set _ : gset bytes).
  intros ([vs r] & Hr & Hrest)%bind_Ok_inv. apply bind_Ok_inv in Hrest as (st1 & Hr1 & [= <- _]).
  apply remove_all_that_Ok in Hr as (Hi1 & Hs & Hn); [|by apply Hi].
  assert (forall k v, vs_transactions vs !! k = Some v -> (k ∉ tx_ids) /\ has_expired_at tip_height v = false) as Hall.
  { intros k v Hk. pose proof (shrink_lookup _ _ _ _ Hs Hk) as Hk0. apply Hn, bool_decide_eq_false in Hk.
    rewrite (vi_keys _ (sp_vs _ _ (proj1 Hi)) k v Hk0) in Hk. split; [done|].
    destruct (has_expired_at tip_height v) eqn:He; [|done]. destruct Hk. apply elem_of_list_to_set, list_elem_of_fmap.
    exists (k, v). split; [done|]. apply list_elem_of_filter. by rewrite elem_of_map_to_list. }
  apply reject_all_st_inv in Hr1 as [Hi' [Hv _]]; [|by apply st_inv_shrink|].
  2: { intros id (k & -> & Hk%elem_of_elements)%list_elem_of_fmap. cbn. destruct (vs_transactions vs !! k) eqn:He; [|done].
       by apply Hall in He as [? _]. }
  split; [done|]. rewrite Hv. split; [done|]. intros k v Hk. by apply Hall in Hk as [_ ?].
Qed.

Lemma clear_mined_inv now st mined_ids : st_inv now st -> st_inv now (storage_clear_mined_dependencies st mined_ids).
Proof.
  intros [[Hvs [? ? ? ?] ? ?] ?]. split; [|done]. split; [by apply with_dependencies_inv|by split|done|done].
Qed.

Lemma clear_tip_inv now st st' : st_inv now st -> clear_tip_rejections now st = Ok st' -> st_inv now st' /\ same_core st st'.
Proof.
  intros [[Hvs [Ht Hl He Hs] Hst Hlim] Hc]. unfold clear_tip_rejections.
  destruct (metrics_ok now (with_tip_rejected st ∅ ∅)) as (st1 & -> & Hok & Hsc & Heq).
  { by split; cbn; rewrite ?map_size_empty. }
  intros [= <-]. destruct Hsc as (Hv & Hpo & Htm & Hli). cbn in *. split; [|by repeat split]. split; [|by rewrite Hv, Hli].
  split; [by rewrite Hv|done| |by rewrite Hli]. intros e k Hk. rewrite Hv. apply (Hst e). by apply Heq.
Qed.

Lemma default_inv : vs_inv VerifiedSet_default.
Proof.
  split; cbn; try done. intros s. split; [destruct s; set_solver|]. by intros (k & v & [=] & _).
Qed.

Lemma storage_clear_inv now st st' : st_inv now st -> storage_clear now st = Ok st' -> st_inv now st'.
Proof.
  intros [[Hvs [Ht Hl He Hs] Hst Hlim] Hc]. unfold storage_clear.
  match goal with |- context [update_rejected_metrics _ ?s] => destruct (metrics_ok now s) as (st1 & -> & Hok & Hsc & Heq) end.
  { by split; cbn; rewrite ?map_size_empty. }
  intros [= <-]. destruct Hsc as (Hv & _ & _ & Hli). cbn in *. split; [|rewrite Hv, Hli; cbn; lia].
  split; [rewrite Hv; apply default_inv|done| |by rewrite Hli]. intros e k _. by rewrite Hv.
Qed.

Lemma reject_if_needed_inv now st id e st' : st_inv now st -> reject_if_needed now st id e = Ok st' -> st_inv now st'.
Proof.
  intros [Hp Hc]. destruct e; cbn [reject_if_needed]; try by intros [= <-]. intros Hr. apply st_pre_reject in Hr as [Hp' (Hv & _ & _ & Hl)]; [|done..].
  split; [done|]. by rewrite Hv, Hl.
Qed.

(** ** Reachable storages

    The operations of the storage in any order, with the clock running in
    between. A verified transaction is in memory, so its size and the number
    of its outputs are bounded, and the configured limit leaves room for one
    transaction. *)
Inductive st_step : Z * Storage -> Z * Storage -> Prop :=
| step_time now now' st : now <= now' -> st_step (now, st) (now', st)
| step_insert now st random v spent st' result : vtx_wf v -> tx_cost_limit st + cost v <= u64_MAX ->
    storage_insert now random st v spent = Ok (st', result) -> st_step (now, st) (now, st')
| step_reject_if_needed now st id e st' : reject_if_needed now st id e = Ok st' -> st_step (now, st) (now, st')
| step_clear_mined now st mined_ids : st_step (now, st) (now, storage_clear_mined_dependencies st mined_ids)
| step_same_effects now st receivers mined_ids txs st' removed :
    reject_and_remove_same_effects now receivers st mined_ids txs = Ok (st', removed) -> st_step (now, st) (now, st')
| step_expired now st tip_height st' ids :
    remove_expired_transactions now st tip_height = Ok (st', ids) -> st_step (now, st) (now, st')
| step_remove_exact now st ids st' n : remove_exact st ids = Ok (st', n) -> st_step (now, st) (now, st')
| step_clear_tip now st st' : clear_tip_rejections now st = Ok st' -> st_step (now, st) (now, st')
| step_clear now st st' : storage_clear now st = Ok st' -> st_step (now, st) (now, st')
| step_queue now st o : st_step (now, st) (now, with_pending st (queue (pending_outputs st) o))
| step_respond now st o out : st_step (now, st) (now, with_pending st (respond (pending_outputs st) o out)).

Lemma new_inv now config : 0 <= config_tx_cost_limit config <= u64_MAX -> 0 <= config_eviction_memory_time config ->
  st_inv now (Storage_new config).
Proof.
  intros Hl Ht. split; [|cbn; lia]. split; [apply default_inv| | |cbn; lia].
  - by split.
  - by intros e k (l & [=] & _).
Qed.

Lemma step_inv x y : st_step x y -> st_inv x.1 x.2 -> st_inv y.1 y.2.
Proof.
  intros Hstep Hi. destruct Hstep; cbn [fst snd] in *.
  - by eapply st_inv_mono.
  - by eapply insert_inv.
  - by eapply reject_if_needed_inv.
  - by apply clear_mined_inv.
  - by eapply same_effects_inv.
  - by eapply expired_inv.
  - by eapply remove_exact_inv.
  - by eapply clear_tip_inv.
  - by eapply storage_clear_inv.
  - by apply with_pending_inv.
  - by apply with_pending_inv.
Qed.

Lemma reachable_inv config now0 now st : 0 <= config_tx_cost_limit config <= u64_MAX -> 0 <= config_eviction_memory_time config ->
  rtc st_step (now0, Storage_new config) (now, st) -> st_inv now st.
Proof.
  intros Hl Ht Hr. assert (st_inv (now0, Storage_new config).1 (now0, Storage_new config).2) as Hi by by apply new_inv.
  change (st_inv (now, st).1 (now, st).2). revert Hi.
  induction Hr as [|x y z Hxy _ IH]; [done|]. intros Hi. by apply IH, (step_inv x).
Qed.

(** C17. In every storage that the operations of the mempool can reach, no two
    transactions spend the same output or reveal the same nullifier, the
    caches of spent outputs, nullifiers and created outputs are exactly those
    of the transactions, the cost is the sum of their costs and within the
    limit, no stored transaction is on an unexpired list of transactions that are
    rejected for the chain ([chain_rejected_same_effects]), and all lists of
    rejected transactions have at most 40000 entries. Nothing is said about the
    lists of transactions rejected at the current tip: a failed download of a
    stored transaction puts it there. *)
Theorem storage_invariant config now0 now st :
  0 <= config_tx_cost_limit config <= u64_MAX -> 0 <= config_eviction_memory_time config ->
  rtc st_step (now0, Storage_new config) (now, st) ->
  let vs := verified st in
  (forall s k1 v1 k2 v2, vs_transactions vs !! k1 = Some v1 -> vs_transactions vs !! k2 = Some v2 ->
    s ∈ spends (vs_tx v1) -> s ∈ spends (vs_tx v2) -> k1 = k2)
  /\ (forall s, tracked vs s <-> exists k v, vs_transactions vs !! k = Some v /\ s ∈ spends (vs_tx v))
  /\ (forall o, created_outputs vs !! o = v ← vs_transactions vs !! outpoint_hash o; output_at (outpoint_hash o) (vs_tx v) o)
  /\ total_cost vs = txs_sum cost (vs_transactions vs) /\ total_cost vs <= tx_cost_limit st
  /\ (forall k v e, vs_transactions vs !! k = Some v -> ~ chain_rejects now st e k)
  /\ (forall e l, chain_rejected_same_effects st !! e = Some l ->
        Z.of_nat (length (ordered_entries l)) <= MAX_EVICTION_MEMORY_ENTRIES)
  /\ Z.of_nat (size (tip_rejected_exact st)) <= MAX_EVICTION_MEMORY_ENTRIES
  /\ Z.of_nat (size (tip_rejected_same_effects st)) <= MAX_EVICTION_MEMORY_ENTRIES.
Proof.
  cbn zeta. intros Hl Ht Hr. destruct (reachable_inv config now0 now st Hl Ht Hr) as [[Hvs [_ Hls He Hs] Hst _] Hc].
  split; [by apply vi_disjoint|]. split; [by apply vi_spends|]. split; [by apply vi_created|].
  split; [by apply vi_cost|]. split; [done|]. split; [|split; [|done]].
  - intros k v e Hk Hrej. apply Hst in Hrej. congruence.
  - intros e l Hel. destruct (Hls e l Hel) as (es & -> & _ & Hlen). cbn. by rewrite length_fmap.
Qed.

(** ** Inserting without dependent transactions

    Documented behaviour of [WeightedIndex]: the sampled index is one of the
    weights. *)
Definition sampler_ok (random : list Z -> nat) : Prop := forall weights, weights <> [] -> (random weights < length weights)%nat.
Definition no_dependents st : Prop := dependents (transaction_dependencies (verified st)) = ∅.

Lemma remove_independent vs k v : vs_inv vs -> dependents (transaction_dependencies vs) = ∅ -> vs_transactions vs !! k = Some v ->
  exists vs' removed, VerifiedSet_remove vs k = Ok (vs', removed) /\ last removed = Some v /\ vs_inv vs'
    /\ vs_transactions vs' = delete k (vs_transactions vs) /\ dependents (transaction_dependencies vs') = ∅.
Proof.
  intros Hi Hd Hk. assert (forall c, ~ tc (depends (transaction_dependencies vs)) k c) as Hn.
  { assert (forall a b, ~ depends (transaction_dependencies vs) a b) as Hd'.
    { intros a b. unfold depends, direct_dependents. rewrite Hd, lookup_empty. apply not_elem_of_empty. }
    intros c Htc. destruct Htc as [x y Hxy|x y z Hxy _]; by apply Hd' in Hxy. }
  pose proof (remove_spec vs k Hi) as Hs. destruct (VerifiedSet_remove vs k) as [[vs' removed]|[]|].
  - destruct Hs as (Hi' & _ & Hl & all & Hall & Ht & Hdt & _). exists vs', removed. split; [done|]. split; [by rewrite Hl|].
    split; [done|]. assert (all = ∅) as -> by (apply elem_of_equiv_empty_L; intros c Hc%Hall; by apply Hn in Hc).
    split; [|by rewrite <- Hd; apply map_eq; intros x; rewrite (Hdt x), Hd, lookup_empty; case_decide].
    apply map_eq. intros x. rewrite (Ht x), lookup_delete. apply decide_ext. rewrite elem_of_union, elem_of_singleton. set_solver.
  - destruct Hs. split; [by rewrite Hk|]. split; [apply Hn|]. by intros c Hc%Hn.
Qed.

Lemma eviction_weight_pos v : 0 < eviction_weight v.
Proof. unfold eviction_weight, cost, MEMPOOL_TRANSACTION_COST_THRESHOLD, MEMPOOL_TRANSACTION_LOW_FEE_PENALTY. destruct pays_conventional_fee; lia. Qed.

Lemma evict_independent random vs : vs_inv vs -> sampler_ok random -> dependents (transaction_dependencies vs) = ∅ ->
  vs_transactions vs <> ∅ ->
  exists k v vs', evict_one random vs = Ok (vs', Some v) /\ vs_transactions vs !! k = Some v /\ vs_inv vs'
    /\ vs_transactions vs' = delete k (vs_transactions vs) /\ dependents (transaction_dependencies vs') = ∅.
Proof.
  intros Hi Hr Hd Hne. unfold evict_one. set (weights := _ <$> map_to_list (vs_transactions vs)).
  assert (map_to_list (vs_transactions vs) <> []) as Hl by by rewrite map_to_list_empty_iff.
  assert (0 < sum_Z id weights) as Hsum.
  { assert (Forall (fun w => 0 < w) weights) as Hpos.
    { apply Forall_forall. intros w (e & -> & _)%list_elem_of_fmap. apply eviction_weight_pos. }
    assert (weights <> []) as Hw by by intros ?%fmap_nil_inv. destruct weights as [|w ws]; [done|].
    inversion Hpos as [|? ? Hw0 Hws]; subst. change (0 < w + sum_Z id ws).
    assert (0 <= sum_Z id ws); [|lia]. apply sum_Z_nonneg. eapply Forall_impl; [exact Hws|]. unfold id. intros. lia. }
  apply Z.ltb_lt in Hsum. rewrite Hsum. cbn [assert_ mbind res_bind].
  assert (random weights < length (map_to_list (vs_transactions vs)))%nat as Hlt.
  { replace (length (map_to_list _)) with (length weights) by apply length_fmap. apply Hr. by intros ?%fmap_nil_inv. }
  apply lookup_lt_is_Some_2 in Hlt as [[k v] Hkv]. rewrite list_lookup_fmap, Hkv. cbn [fmap option_fmap option_map unwrap mbind res_bind fst].
  apply list_elem_of_lookup_2, elem_of_map_to_list in Hkv.
  destruct (remove_independent vs k v Hi Hd Hkv) as (vs' & removed & -> & Hlast & Hrest). cbn [mbind res_bind].
  exists k, v, vs'. by rewrite Hlast.
Qed.

Lemma evict_loop_total fuel now random id v st result : st_pre now st -> sampler_ok random -> no_dependents st ->
  (size (vs_transactions (verified st)) < fuel)%nat -> vs_id v = id ->
  exists st' result', evict_loop fuel now random id st result = Ok (st', result') /\ no_dependents st'
    /\ (is_ok result' = true -> vs_transactions (verified st) !! mined_id id = Some v -> vs_transactions (verified st') !! mined_id id = Some v).
Proof.
  revert st result. induction fuel as [|fuel IH]; intros st result Hp Hs Hd Hf Hid; [lia|]. cbn [evict_loop].
  destruct (total_cost (verified st) <=? tx_cost_limit st) eqn:Hle; [by eauto 8|].
  assert (vs_transactions (verified st) <> ∅) as Hne.
  { intros He. apply Z.leb_gt in Hle. pose proof (vi_cost _ (sp_vs _ _ Hp)) as Hc. rewrite He in Hc. unfold txs_sum in Hc.
    rewrite map_to_list_empty in Hc. cbn in Hc. pose proof (sp_limit _ _ Hp). lia. }
  destruct (evict_independent random (verified st) (sp_vs _ _ Hp) Hs Hd Hne) as (k & w & vs & -> & Hk & Hi & Ht & Hd').
  cbn [mbind res_bind unwrap]. pose proof (vi_keys _ (sp_vs _ _ Hp) k w Hk) as Hkey.
  assert (st_pre now (with_verified st vs)) as Hp1.
  { destruct Hp as [Hvs Hr Hst Hlim]. split; [done|by destruct Hr| |done]. intros e x Hx. cbn. rewrite Ht.
    apply lookup_delete_None. right. by apply (Hst e x). }
  pose proof (reject_spec now (with_verified st vs) (vs_id w) (SameEffectsChain RandomlyEvicted) (sp_rejections _ _ Hp1)) as Hrej.
  destruct (reject _ _ _ _) as [st1|[]|] eqn:Hr.
  2: { destruct Hrej as (e & _ & Hx). rewrite Hkey in Hx. apply (sp_stored _ _ Hp) in Hx. congruence. }
  apply st_pre_reject in Hr as [Hp2 [Hv2 _]]; [|done|].
  2: { intros _ _. cbn. by rewrite Hkey, Ht, lookup_delete_eq. }
  cbn [mbind res_bind]. rewrite with_verified_vs in Hv2.
  destruct (IH st1 (if bool_decide (vs_id w = id) then Err (StorageEffectsChain RandomlyEvicted) else result) Hp2 Hs)
    as (st' & result' & Hloop & Hd2 & Hok); [by unfold no_dependents; rewrite Hv2| |done|].
  { rewrite Hv2, Ht, map_size_delete_Some by done. apply map_size_non_empty_iff in Hne. lia. }
  exists st', result'. split; [done|]. split; [done|]. intros Hres Hv. apply Hok; [done|]. rewrite Hv2, Ht.
  destruct (decide (k = mined_id id)) as [->|]; [|by rewrite lookup_delete_ne].
  exfalso. assert (w = v) as -> by congruence. rewrite bool_decide_eq_true_2 in Hloop by done.
  apply evict_loop_inv in Hloop as (_ & _ & _ & [->|[-> _]]); done.
Qed.

(** When an insertion returns: without dependent transactions before and after
    it, or with room for the transaction. *)
Definition insert_returns st v (spent : list OutPoint) : Prop :=
  (spent = [] /\ no_dependents st) \/ total_cost (verified st) + cost v <= tx_cost_limit st.

(** The eviction after [try_insert]. *)
Lemma evict_after_insert now random st v spent st1 r1 :
  st_inv now st -> sampler_ok random -> vtx_wf v -> tx_cost_limit st + cost v <= u64_MAX -> insert_returns st v spent ->
  rejection_error now st (vs_id v) = None -> vs_transactions (verified st) !! mined_id (vs_id v) = None ->
  try_insert now st v spent = Ok (st1, r1) ->
  exists st' r, evict_loop (S (size (vs_transactions (verified st1)))) now random (vs_id v) st1 r1 = Ok (st', r)
    /\ (spent = [] -> no_dependents st -> no_dependents st') /\ r <> Panic
    /\ forall id, r = Ok id -> id = vs_id v /\ vs_transactions (verified st') !! mined_id id = Some v.
Proof.
  intros Hi Hs Hwf Hcost Hret Hrej Hin Htry.
  destruct (try_insert_spec now st v spent Hi Hwf Hcost Hrej Hin) as (st2 & r2 & E & Hp1 & Hlim1 & Hcase).
  rewrite E in Htry. injection Htry as -> ->.
  assert (Hd1 : spent = [] -> no_dependents st -> no_dependents st1).
  { intros -> Hd. unfold no_dependents. destruct Hcase as [(_ & _ & ->)|(_ & _ & ->)]; exact Hd. }
  destruct Hret as [[-> Hd]|Hroom].
  - specialize (Hd1 eq_refl Hd).
    destruct (evict_loop_total _ now random (vs_id v) v st1 r1 Hp1 Hs Hd1 (Nat.lt_succ_diag_r _) eq_refl) as (st' & r & Hloop & Hd' & Hok).
    exists st', r. split; [done|]. split; [done|]. apply evict_loop_inv in Hloop as (_ & _ & _ & Hres); [|done].
    destruct Hcase as [(-> & Ht & _)|(Hr1 & Hnp & _)].
    + destruct Hres as [->|[-> _]]; [|done]. split; [done|]. intros id [= <-]. split; [done|]. apply Hok; [done|]. by rewrite Ht, lookup_insert_eq.
    + destruct Hres as [->|[-> _]]; [|done]. split; [done|]. by intros id ->.
  - assert (total_cost (verified st1) <= tx_cost_limit st1) as Hle.
    { rewrite Hlim1. destruct Hcase as [(_ & Ht & _)|(_ & _ & ->)]; [|apply Hi].
      rewrite (vi_cost _ (sp_vs _ _ Hp1)), Ht, txs_sum_insert by done. rewrite <- (vi_cost _ (sp_vs _ _ (proj1 Hi))). lia. }
    exists st1, r1. cbn [evict_loop]. rewrite (proj2 (Z.leb_le _ _) Hle). split; [done|]. split; [done|].
    destruct Hcase as [(-> & Ht & _)|(Hr1 & Hnp & _)]; [|split; [done|by intros id ->]].
    split; [done|]. intros id [= <-]. split; [done|]. by rewrite Ht, lookup_insert_eq.
Qed.

(** C25. Inserting a verified transaction returns, and its result says whether
    the transaction is stored, in two cases ([insert_returns]): the transaction
    fits within the cost limit; or it spends no output of the mempool and the
    storage has no dependent transactions, whatever transactions are then drawn
    for eviction. With a success the transaction is stored, and with an error what
    is stored under its id was stored before. In the other cases the result can be
    wrong: a transaction that is evicted together with its parent is
    reported as stored (see [evicted_dependent_reported_stored] below). *)
Theorem insert_total now random st v spent :
  st_inv now st -> sampler_ok random -> vtx_wf v -> tx_cost_limit st + cost v <= u64_MAX -> insert_returns st v spent ->
  exists st' result, storage_insert now random st v spent = Ok (st', result) /\ st_inv now st'
    /\ (spent = [] -> no_dependents st -> no_dependents st')
    /\ total_cost (verified st') <= tx_cost_limit st
    /\ match result with
       | Ok id => id = vs_id v /\ vs_transactions (verified st') !! mined_id id = Some v
       | Err _ => forall v', vs_transactions (verified st') !! mined_id (vs_id v) = Some v' ->
                             vs_transactions (verified st) !! mined_id (vs_id v) = Some v'
       | Panic => False
       end.
Proof.
  intros Hi Hs Hwf Hcost Hret.
  enough (exists st' result, storage_insert now random st v spent = Ok (st', result) /\ (spent = [] -> no_dependents st -> no_dependents st')
    /\ result <> Panic /\ (forall id, result = Ok id -> id = vs_id v /\ vs_transactions (verified st') !! mined_id id = Some v))
    as (st' & result & Hins & Hd' & Hnp & Hok).
  { destruct (insert_inv now random st v spent st' result Hi Hwf Hcost Hins) as (Hi' & Hlim & Hst).
    exists st', result. split; [done|]. split; [done|]. split; [done|]. split; [rewrite <- Hlim; apply Hi'|].
    destruct result as [id|e|]; [by apply Hok| |done]. intros v' Hv'. apply Hst in Hv' as [?|(_ & _ & [=])]. done. }
  unfold storage_insert. destruct (rejection_error now st (vs_id v)) eqn:Hrej; [by do 2 eexists|].
  destruct (contains_transaction_exact st (mined_id (vs_id v))) eqn:Hin; [by do 2 eexists|].
  apply bool_decide_eq_false, eq_None_not_Some in Hin.
  destruct (try_insert_spec now st v spent Hi Hwf Hcost Hrej Hin) as (st1 & r1 & E & _). rewrite E. cbn [mbind res_bind].
  by apply (evict_after_insert now random st v spent st1 r1).
Qed.

(** ** Dependent transactions *)

(** C20. A transaction and one that spends its outputs cannot both be removed
    one after the other, in whatever order and with whatever removals in
    between: the second removal panics. In particular the storage panics when
    the tip reaches the expiry heights of both. *)
Theorem dependent_pair_removal now st p c vp vc :
  st_inv now st -> p <> c -> c ∈ direct_dependents (transaction_dependencies (verified st)) p ->
  vs_transactions (verified st) !! p = Some vp -> vs_transactions (verified st) !! c = Some vc ->
  (forall keys, p ∈ keys -> c ∈ keys -> remove_keys (verified st) keys = Panic)
  /\ forall tip_height, has_expired_at tip_height vp = true -> has_expired_at tip_height vc = true ->
     remove_expired_transactions now st tip_height = Panic.
Proof.
  intros [Hp _] Hne Hdep Hvp Hvc. assert (vs_inv (verified st)) as Hi by apply Hp.
  assert (forall keys, p ∈ keys -> c ∈ keys -> remove_keys (verified st) keys = Panic) as Hkeys.
  { intros keys Hpk Hck. by apply (dependent_pair_panics keys (verified st, ∅) p c). }
  split; [exact Hkeys|]. intros tip_height Hep Hec. unfold remove_expired_transactions, remove_all_that.
  set (tx_ids := list_to_set _ : gset bytes).
  rewrite Hkeys; [done|..]; refine (proj2 (remove_all_that_keys _ (fun v => bool_decide (mined_id (vs_id v) ∈ tx_ids)) _) _).
  - exists vp. split; [done|]. rewrite (vi_keys _ Hi p vp Hvp). apply bool_decide_eq_true, elem_of_list_to_set.
    apply (proj2 (remove_all_that_keys _ (has_expired_at tip_height) _)). eauto.
  - exists vc. split; [done|]. rewrite (vi_keys _ Hi c vc Hvc). apply bool_decide_eq_true, elem_of_list_to_set.
    apply (proj2 (remove_all_that_keys _ (has_expired_at tip_height) _)). eauto.
Qed.

(** The dependencies of a transaction, up to the transaction itself. *)
Definition same_dependencies (tx_hash : bytes) d d' : Prop :=
  direct_dependencies d' tx_hash ∪ {[tx_hash]} = direct_dependencies d tx_hash ∪ {[tx_hash]}
  /\ (is_Some (dependencies d' !! tx_hash) <-> is_Some (dependencies d !! tx_hash)).

Lemma clear_dependency_keeps tx_hash d x : same_dependencies tx_hash d (clear_dependency d x).
Proof.
  unfold same_dependencies, clear_dependency. destruct (dependencies d !! x) as [deps|] eqn:Hx; [|done].
  unfold direct_dependencies. cbn. destruct (decide (x = tx_hash)) as [->|]; [|by rewrite lookup_insert_ne].
  rewrite lookup_insert_eq, Hx. cbn. split; [|by split; eauto]. apply set_eq. intros y. set_unfold. destruct (decide (y = tx_hash)); tauto.
Qed.

Lemma clear_mined_dependencies_keep d mined_ids tx_hash : same_dependencies tx_hash d (clear_mined_dependencies d mined_ids).
Proof.
  assert (forall l d d0, same_dependencies tx_hash d d0 -> same_dependencies tx_hash d (foldl clear_dependency d0 l)) as Hinner.
  { clear d. induction l as [|x l IH]; intros d d0 Hs; [done|]. cbn. apply IH. destruct (clear_dependency_keeps tx_hash d0 x) as [H1 H2].
    destruct Hs. split; [congruence|tauto]. }
  unfold clear_mined_dependencies. generalize (elements mined_ids). intros ids.
  enough (forall d0, same_dependencies tx_hash d d0 -> same_dependencies tx_hash d
    (foldl (fun d m => foldl clear_dependency (mkTransactionDependencies (dependencies d) (delete m (dependents d)))
      (elements (default ∅ (dependents d !! m)))) d0 ids)) as Hgen by by apply Hgen.
  induction ids as [|m ids IH]; intros d0 Hs; [done|]. cbn. apply IH, Hinner. exact Hs.
Qed.
End Storage.

Module MempoolExample.
#[local] Instance example_profile : BuildProfile := release_build.

(** Two transactions that expire at height 100; the second one spends the
    output of the first. *)
Definition spend (o : OutPoint) : Transaction :=
  V5 Nu6 (LockHeight 0) 100 [PrevOut o [] u32_MAX] [mkOutput 50000 []] None None.
Definition mempool_tx (id : bytes) (o : OutPoint) : VerifiedUnminedTx :=
  mkVerifiedUnminedTx (mkUnminedTx (spend o) (Witnessed id [Byte.x00]) 300 10000) 50000 2 2 0.
Definition parent_id : bytes := [Byte.x01].
Definition child_id : bytes := [Byte.x02].
Definition parent : VerifiedUnminedTx := mempool_tx parent_id (mkOutPoint [Byte.x09] 0).
Definition child : VerifiedUnminedTx := mempool_tx child_id (mkOutPoint parent_id 0).

Definition insert_first (st : Storage) (v : VerifiedUnminedTx) (spent : list OutPoint) : outcome (Storage * res MempoolError UnminedTxId) :=
  storage_insert 0 (fun _ => 0%nat) st v spent.
Definition get (st : Storage) (o : outcome (Storage * res MempoolError UnminedTxId)) : Storage :=
  match o with Ok (st', _) => st' | _ => st end.
Definition empty : Storage := Storage_new MempoolConfig_default.
Definition with_parent : Storage := get empty (insert_first empty parent []).
Definition with_both : Storage := get empty (insert_first with_parent child [mkOutPoint parent_id 0]).

Lemma get_Ok st o : is_ok o = true -> exists result, o = Ok (get st o, result).
Proof. destruct o as [[st' r]|[]|]; [|done]. cbn. eauto. Qed.

Lemma example_wf id o : vtx_wf (mempool_tx id o).
Proof. split; cbn; [lia|]. unfold u32_MAX. lia. Qed.

Lemma reach_parent : rtc st_step (0, empty) (0, with_parent).
Proof.
  destruct (get_Ok empty (insert_first empty parent [])) as [result Hr]; [vm_compute; reflexivity|].
  apply rtc_once, (step_insert 0 _ (fun _ => 0%nat) parent [] _ result); [apply example_wf|vm_compute; discriminate|exact Hr].
Qed.
Lemma reach_both : rtc st_step (0, empty) (0, with_both).
Proof.
  destruct (get_Ok empty (insert_first with_parent child [mkOutPoint parent_id 0])) as [result Hr]; [vm_compute; reflexivity|].
  eapply rtc_r; [exact reach_parent|].
  apply (step_insert 0 _ (fun _ => 0%nat) child [mkOutPoint parent_id 0] _ result); [apply example_wf|vm_compute; discriminate|exact Hr].
Qed.

Lemma storage_invariant_witness :
  vs_transactions (verified with_both) !! child_id = Some child
  /\ total_cost (verified with_both) = 20000
  /\ forall s k1 v1 k2 v2, vs_transactions (verified with_both) !! k1 = Some v1 -> vs_transactions (verified with_both) !! k2 = Some v2 ->
     s ∈ spends (vs_tx v1) -> s ∈ spends (vs_tx v2) -> k1 = k2.
Proof.
  split; [vm_compute; reflexivity|]. split; [vm_compute; reflexivity|].
  apply (storage_invariant MempoolConfig_default 0 0 with_both); [cbn; unfold u64_MAX; lia|cbn; lia|exact reach_both].
Defined.

Lemma dependent_pair_removal_witness :
  is_ok (remove_expired_transactions 0 with_both 99) = true
  /\ remove_expired_transactions 0 with_both 100 = Panic.
Proof.
  split; [vm_compute; reflexivity|].
  apply (dependent_pair_removal 0 with_both parent_id child_id parent child).
  - apply (reachable_inv MempoolConfig_default 0 0); [cbn; unfold u64_MAX; lia|cbn; lia|exact reach_both].
  - discriminate.
  - apply (bool_decide_eq_true_1 (child_id ∈ direct_dependents (transaction_dependencies (verified with_both)) parent_id)).
    vm_compute. reflexivity.
  - vm_compute; reflexivity.
  - vm_compute; reflexivity.
  - reflexivity.
  - reflexivity.
Defined.

Lemma insert_total_witness :
  exists st' result, storage_insert 0 (fun _ => 0%nat) empty parent [] = Ok (st', result) /\ total_cost (verified st') <= 80000000
    /\ match result with
       | Ok id => id = vs_id parent /\ vs_transactions (verified st') !! mined_id id = Some parent
       | Err _ => forall v', vs_transactions (verified st') !! mined_id (vs_id parent) = Some v' ->
                             vs_transactions (verified empty) !! mined_id (vs_id parent) = Some v'
       | Panic => False
       end.
Proof.
  destruct (insert_total 0 (fun _ => 0%nat) empty parent []) as (st' & result & Hins & _ & _ & Hcost & Hres).
  - apply new_inv; cbn; unfold u64_MAX; lia.
  - intros [|w ws]; [done|]. cbn. lia.
  - apply example_wf.
  - vm_compute. discriminate.
  - left. by split.
  - exists st', result. auto.
Defined.

(** With room for one transaction only: the child is inserted, its parent is
    drawn for eviction and takes the child with it, and the insertion of the
    child is reported as a success. *)
Definition small : Storage := get empty (insert_first (Storage_new (mkMempoolConfig 15000 3600 None)) parent []).
Definition draw (id : bytes) (st : Storage) (weights : list Z) : nat :=
  default 0%nat (fst <$> list_find (fun k => k = id) (fst <$> map_to_list (vs_transactions (verified st)))).
Lemma evicted_dependent_reported_stored :
  match storage_insert 0 (fun _ => draw parent_id with_both []) small child [mkOutPoint parent_id 0] with
  | Ok (st', result) => result = Ok (vs_id child) /\ vs_transactions (verified st') = ∅
  | _ => False
  end.
Proof. vm_compute. by split. Qed.
End MempoolExample.
