(* ===== verification/LongPoll.v ===== *)
(** The long poll ids of block templates
    ([zebra-rpc/src/methods/types/long_poll.rs]).

    A string is the list of its UTF-8 bytes. A [&str] can only be sliced at the
    boundaries of its characters; the numbers are read with
    [u32::from_str_radix]. *)
From S2P Require Import Prelude TransactionVerifier.
From coqutil Require Import Word.Interface Byte.
From stdpp Require Import strings sorting prelude.
From Stdlib Require Import ZArith Lia.
#[local] Open Scope Z_scope.

(** The order of [[u8; 32]] and of [Vec<u8>]. *)
Definition bytes_leb (a b : bytes) : bool := match bytes_compare a b with Gt => false | _ => true end.

(** ** Numbers in strings *)

Inductive ParseIntError : Type := Empty | InvalidDigit | PosOverflow.

(** [char::to_digit] of an ASCII byte. *)
Definition to_digit (radix : Z) (c : Byte.byte) : option Z :=
  let x := byte.unsigned c in
  let digit :=
    if in_range 48 57 x then Some (x - 48)
    else if in_range 97 122 x then Some (x - 97 + 10)
    else if in_range 65 90 x then Some (x - 65 + 10) else None in
  match digit with Some d => if d <? radix then Some d else None | None => None end.

Definition push_digit (radix result : Z) (c : Byte.byte) : res ParseIntError Z :=
  let mul := u32_checked (result * radix) in
  x ← ok_or (to_digit radix c) InvalidDigit;
  result ← ok_or mul PosOverflow;
  ok_or (u32_checked (result + x)) PosOverflow.

(** [u32::from_str_radix]: one plus sign is skipped. *)
Definition from_str_radix (radix : Z) (src : bytes) : res ParseIntError Z :=
  match src with
  | [] => Err Empty
  | [Byte.x2b] | [Byte.x2d] => Err InvalidDigit
  | Byte.x2b :: digits => foldM (push_digit radix) 0 digits
  | digits => foldM (push_digit radix) 0 digits
  end.

(** The digits of a number, the least significant one first; [u32] values have
    at most 32. *)
Definition digit_char (d : Z) : Byte.byte := byte.of_Z (if d <? 10 then 48 + d else 97 + (d - 10)).
Fixpoint digits_rev (fuel : nat) (radix n : Z) : list Z :=
  match fuel with
  | O => []
  | S fuel => if n <? radix then [n] else n mod radix :: digits_rev fuel radix (n / radix)
  end.
(** [{:0width}] and [{:0widthx}]. *)
Definition format_padded (radix : Z) (width : nat) (n : Z) : bytes :=
  let digits := digit_char <$> reverse (digits_rev 32 radix n) in
  replicate (width - length digits) Byte.x30 ++ digits.

(** [str::is_char_boundary] and the indexing of a [&str] with a range. *)
Definition is_char_boundary (s : bytes) (i : nat) : bool :=
  if (i =? 0)%nat then true
  else match s !! i with
       | None => (i =? length s)%nat
       | Some b => negb (Z.land (byte.unsigned b) 0xC0 =? 0x80)
       end.
Definition str_slice (s : bytes) (a b : nat) : outcome bytes :=
  _ ← assert_ ((a <=? b)%nat && is_char_boundary s a && is_char_boundary s b); Ok (take (b - a) (drop a s)).

(** ** Long poll ids *)

Definition LONG_POLL_ID_LENGTH : nat := 46.

Record LongPollInput := mkLongPollInput {
  lpi_tip_height : Z;
  lpi_tip_hash : bytes;
  lpi_max_time : Z;
  lpi_mempool_transaction_mined_ids : list bytes
}.
Record LongPollId := mkLongPollId {
  lp_tip_height : Z;
  lp_tip_hash_checksum : Z;
  lp_max_timestamp : Z;
  lp_mempool_transaction_count : Z;
  lp_mempool_transaction_content_checksum : Z
}.
#[export] Instance LongPollId_eq_dec : EqDecision LongPollId.
Proof. solve_decision. Defined.

Definition LongPollInput_new (tip_height : Z) (tip_hash : bytes) (max_time : Z) (mempool_tx_ids : list UnminedTxId) : LongPollInput :=
  mkLongPollInput tip_height tip_hash max_time (stable_sort bytes_leb (mined_id <$> mempool_tx_ids)).

(** The four bytes of each chunk of a 32-byte item. *)
Fixpoint update_checksum (checksum : Z) (item : bytes) : Z :=
  match item with
  | a :: b :: c :: d :: rest => update_checksum (Z.lxor checksum (le_value [a; b; c; d])) rest
  | _ => checksum
  end.

Definition generate_id (i : LongPollInput) : LongPollId :=
  mkLongPollId (lpi_tip_height i) (update_checksum 0 (lpi_tip_hash i)) (lpi_max_time i)
    (as_unsigned 32 (Z.of_nat (length (lpi_mempool_transaction_mined_ids i))))
    (foldl update_checksum 0 (lpi_mempool_transaction_mined_ids i)).

Definition submit_old (id old : LongPollId) : bool :=
  (lp_tip_height id =? lp_tip_height old) && (lp_tip_hash_checksum id =? lp_tip_hash_checksum old)
  && (lp_max_timestamp id =? lp_max_timestamp old).

Definition LongPollId_fmt (id : LongPollId) : bytes :=
  format_padded 10 10 (lp_tip_height id) ++ format_padded 16 8 (lp_tip_hash_checksum id)
  ++ format_padded 10 10 (lp_max_timestamp id) ++ format_padded 10 10 (lp_mempool_transaction_count id)
  ++ format_padded 16 8 (lp_mempool_transaction_content_checksum id).

Inductive LongPollError : Type := IncorrectLength | BadNumber (e : ParseIntError).

Definition parse_field (s : bytes) (a b : nat) (radix : Z) : res LongPollError Z :=
  f ← lift (str_slice s a b); map_err BadNumber (from_str_radix radix f).
Definition LongPollId_from_str (s : bytes) : res LongPollError LongPollId :=
  if negb (length s =? LONG_POLL_ID_LENGTH)%nat then Err IncorrectLength
  else
    tip_height ← parse_field s 0 10 10;
    tip_hash_checksum ← parse_field s 10 18 16;
    max_timestamp ← parse_field s 18 28 10;
    mempool_transaction_count ← parse_field s 28 38 10;
    mempool_transaction_content_checksum ← parse_field s 38 LONG_POLL_ID_LENGTH 16;
    Ok (mkLongPollId tip_height tip_hash_checksum max_timestamp mempool_transaction_count mempool_transaction_content_checksum).

(** ** Reading what was written *)

Definition value_of (radix : Z) : Z -> list Z -> Z := foldl (fun acc d => acc * radix + d).
Definition are_digits (radix : Z) (l : list Z) : Prop := Forall (fun d => 0 <= d < radix) l.

Lemma digits_rev_ok radix fuel n : 2 <= radix -> 0 <= n < radix ^ Z.of_nat fuel ->
  are_digits radix (digits_rev fuel radix n) /\ value_of radix 0 (reverse (digits_rev fuel radix n)) = n.
Proof.
  intros Hr. revert n. induction fuel as [|fuel IH]; intros n Hn; cbn [digits_rev].
  { split; [constructor|]. cbn in *. lia. }
  destruct (Z.ltb_spec n radix); [split; [constructor; [lia|constructor]|]; cbn; lia|].
  rewrite Nat2Z.inj_succ, Z.pow_succ_r in Hn by lia. pose proof (Z.div_mod n radix ltac:(lia)) as Hdm.
  destruct (IH (n / radix)) as [Hd Hv].
  { split; [apply Z.div_pos; lia|]. apply Z.div_lt_upper_bound; lia. }
  split; [constructor; [apply Z.mod_pos_bound; lia|done]|]. unfold value_of in *. rewrite reverse_cons, foldl_app, Hv. cbn. lia.
Qed.

Lemma digits_rev_length radix fuel n w : 2 <= radix -> (1 <= w)%nat -> 0 <= n < radix ^ Z.of_nat w ->
  (length (digits_rev fuel radix n) <= w)%nat.
Proof.
  intros Hr. revert n w. induction fuel as [|fuel IH]; intros n w Hw Hn; cbn [digits_rev length]; [lia|].
  destruct (Z.ltb_spec n radix); cbn [length]; [lia|]. destruct w as [|[|w]]; [lia|cbn in Hn; lia|].
  rewrite Nat2Z.inj_succ, Z.pow_succ_r in Hn by lia. apply le_n_S, IH; [lia|].
  split; [apply Z.div_pos; lia|]. apply Z.div_lt_upper_bound; lia.
Qed.

Lemma to_digit_char radix d : radix <= 16 -> 0 <= d < radix -> to_digit radix (digit_char d) = Some d.
Proof.
  intros Hr Hd. assert (to_digit 16 (digit_char d) = Some d) as H16.
  { assert (d ∈ seqZ 0 16) as Hin by (apply elem_of_seqZ; lia).
    assert (Forall (fun d => to_digit 16 (digit_char d) = Some d) (seqZ 0 16)) as Hall by (by repeat constructor).
    rewrite Forall_forall in Hall. by apply Hall. }
  unfold to_digit in *. destruct (if in_range 48 57 _ then _ else _) as [x|]; [|done].
  destruct (x <? 16); [|done]. injection H16 as ->. by rewrite (proj2 (Z.ltb_lt _ _)) by lia.
Qed.

Lemma value_of_le radix acc l : 2 <= radix -> 0 <= acc -> are_digits radix l -> acc <= value_of radix acc l.
Proof.
  intros Hr Hacc Hl. revert acc Hacc. induction Hl as [|d l Hd Hl IH]; intros acc Hacc; cbn; [lia|].
  etrans; [|apply IH]; nia.
Qed.

Lemma push_digit_ok radix acc d : 2 <= radix <= 16 -> 0 <= acc -> 0 <= d < radix -> acc * radix + d <= u32_MAX ->
  push_digit radix acc (digit_char d) = Ok (acc * radix + d).
Proof.
  intros Hr Hacc Hd Hm. unfold push_digit. rewrite to_digit_char by lia. cbn [ok_or mbind res_bind].
  rewrite checked_in by nia. cbn [ok_or mbind res_bind]. by rewrite checked_in by nia.
Qed.

Lemma push_digits radix acc l : 2 <= radix <= 16 -> 0 <= acc -> are_digits radix l -> value_of radix acc l <= u32_MAX ->
  foldM (push_digit radix) acc (digit_char <$> l) = Ok (value_of radix acc l).
Proof.
  intros Hr Hacc Hl. revert acc Hacc. induction Hl as [|d l Hd Hl IH]; intros acc Hacc Hm; [done|].
  pose proof (value_of_le radix (acc * radix + d) l ltac:(lia) ltac:(nia) Hl) as Hle.
  unfold value_of in *. cbn [foldl] in *. rewrite fmap_cons. cbn [foldM]. rewrite push_digit_ok by (done || lia).
  cbn [mbind res_bind]. apply IH; [nia|done].
Qed.

Lemma digit_not_sign radix c : to_digit radix c <> None -> c <> Byte.x2b /\ c <> Byte.x2d.
Proof. intros Hd. split; intros ->; by apply Hd. Qed.

Lemma from_str_radix_digits radix c s : to_digit radix c <> None -> from_str_radix radix (c :: s) = foldM (push_digit radix) 0 (c :: s).
Proof. intros [H1 H2]%digit_not_sign. unfold from_str_radix. destruct c; try done. Qed.

Lemma format_roundtrip radix w n : 2 <= radix <= 16 -> (1 <= w)%nat -> 0 <= n <= u32_MAX -> u32_MAX < radix ^ Z.of_nat w ->
  length (format_padded radix w n) = w /\ from_str_radix radix (format_padded radix w n) = Ok n
  /\ Forall (fun c => to_digit radix c <> None) (format_padded radix w n).
Proof.
  intros Hr Hw Hn Hmax. unfold format_padded.
  assert (0 <= n < radix ^ Z.of_nat 32) as Hn32.
  { pose proof (Z.pow_le_mono_l 2 radix (Z.of_nat 32) ltac:(lia)). change (2 ^ Z.of_nat 32) with 4294967296 in *. unfold u32_MAX in Hn. lia. }
  destruct (digits_rev_ok radix 32 n) as [Hd Hv]; [lia..|].
  pose proof (digits_rev_length radix 32 n w ltac:(lia) Hw ltac:(lia)) as Hlen.
  set (ds := reverse (digits_rev 32 radix n)) in *. assert (length ds <= w)%nat by (unfold ds; by rewrite length_reverse).
  assert (are_digits radix ds) as Hds by (by apply Forall_reverse). rewrite length_fmap.
  assert (replicate (w - length ds) Byte.x30 ++ (digit_char <$> ds) = digit_char <$> (replicate (w - length ds) 0 ++ ds)) as ->.
  { rewrite fmap_app, fmap_replicate. done. }
  set (l := replicate _ 0 ++ ds). assert (are_digits radix l) as Hl.
  { apply Forall_app. split; [apply Forall_replicate; lia|done]. }
  assert (length l = w) as Hll by (unfold l; rewrite length_app, length_replicate; lia).
  assert (value_of radix 0 l = n) as Hvl.
  { unfold l, value_of in *. rewrite foldl_app. replace (foldl _ 0 (replicate _ 0)) with 0; [done|].
    clear. induction (w - length ds)%nat as [|k IH]; [done|]. cbn. done. }
  assert (Forall (fun c => to_digit radix c <> None) (digit_char <$> l)) as Hall.
  { apply Forall_fmap. eapply Forall_impl; [exact Hl|]. intros d Hd'. cbn beta in *. unfold compose. rewrite to_digit_char; [done|lia|done]. }
  clearbody l ds. clear Hlen. split; [by rewrite length_fmap|]. split; [|done].
  pose proof (push_digits radix 0 l ltac:(lia) ltac:(lia) Hl ltac:(lia)) as Hp. rewrite Hvl in Hp.
  destruct l as [|d l]; [cbn in Hll; lia|]. rewrite fmap_cons in *. inversion Hall. by rewrite from_str_radix_digits.
Qed.

(** ** Slices *)

Definition ascii (s : bytes) : Prop := Forall (fun b => byte.unsigned b < 128) s.

Lemma ascii_boundary s i : ascii s -> (i <= length s)%nat -> is_char_boundary s i = true.
Proof.
  intros Hs Hi. unfold is_char_boundary. destruct (Nat.eqb_spec i 0); [done|].
  destruct (s !! i) as [b|] eqn:Hb; [|apply lookup_ge_None in Hb; apply Nat.eqb_eq; lia].
  pose proof (Forall_lookup_1 _ _ _ _ Hs Hb) as Hlt. cbn in Hlt.
  destruct b; vm_compute in Hlt |- *; done.
Qed.

Lemma ascii_slice s a b : ascii s -> (a <= b <= length s)%nat -> str_slice s a b = Ok (take (b - a) (drop a s)).
Proof.
  intros Hs Hab. unfold str_slice. rewrite !ascii_boundary by (done || lia). by rewrite (proj2 (Nat.leb_le _ _)) by lia.
Qed.

Lemma parse_middle radix pre f post n a b : ascii (pre ++ f ++ post) -> a = length pre -> b = (a + length f)%nat ->
  from_str_radix radix f = Ok n -> parse_field (pre ++ f ++ post) a b radix = Ok n.
Proof.
  intros Hs -> -> Hf. unfold parse_field. rewrite ascii_slice by (done || rewrite !length_app; lia). cbn [lift mbind res_bind].
  rewrite drop_app_length, take_app_length' by lia. by rewrite Hf.
Qed.

Lemma digits_ascii radix s : Forall (fun c => to_digit radix c <> None) s -> ascii s.
Proof. intros Hs. eapply Forall_impl; [exact Hs|]. intros c Hc. destruct c; first [by vm_compute | exfalso; by apply Hc]. Qed.

Lemma push_digit_total radix acc s : foldM (push_digit radix) acc s <> Panic.
Proof.
  revert acc. induction s as [|c s IH]; intros acc; [done|]. cbn [foldM].
  assert (push_digit radix acc c <> Panic) as Hp.
  { unfold push_digit. destruct (to_digit radix c); [|done]. cbn [ok_or mbind res_bind]. destruct (u32_checked _); [|done].
    cbn [ok_or mbind res_bind]. by destruct (u32_checked _). }
  destruct (push_digit radix acc c); [apply IH|done|done].
Qed.

Lemma parse_field_total s a b radix : ascii s -> (a <= b <= length s)%nat -> parse_field s a b radix <> Panic.
Proof.
  intros Hs Hab. unfold parse_field. rewrite ascii_slice by done. cbn [lift mbind res_bind].
  assert (forall f, from_str_radix radix f <> Panic) as Hf.
  { intros f. unfold from_str_radix. repeat case_match; try done; apply push_digit_total. }
  specialize (Hf (take (b - a) (drop a s))). by destruct (from_str_radix _ _).
Qed.

(** The fields are [u32]s. *)
Record id_ok (id : LongPollId) : Prop := {
  io_height : 0 <= lp_tip_height id <= u32_MAX;
  io_hash : 0 <= lp_tip_hash_checksum id <= u32_MAX;
  io_time : 0 <= lp_max_timestamp id <= u32_MAX;
  io_count : 0 <= lp_mempool_transaction_count id <= u32_MAX;
  io_content : 0 <= lp_mempool_transaction_content_checksum id <= u32_MAX
}.

Lemma from_str_fmt id : id_ok id -> LongPollId_from_str (LongPollId_fmt id) = Ok id.
Proof.
  intros [H1 H2 H3 H4 H5]. unfold LongPollId_fmt.
  destruct (format_roundtrip 10 10 _ ltac:(lia) ltac:(lia) H1 ltac:(done)) as (L1 & R1 & A1%digits_ascii).
  destruct (format_roundtrip 16 8 _ ltac:(lia) ltac:(lia) H2 ltac:(done)) as (L2 & R2 & A2%digits_ascii).
  destruct (format_roundtrip 10 10 _ ltac:(lia) ltac:(lia) H3 ltac:(done)) as (L3 & R3 & A3%digits_ascii).
  destruct (format_roundtrip 10 10 _ ltac:(lia) ltac:(lia) H4 ltac:(done)) as (L4 & R4 & A4%digits_ascii).
  destruct (format_roundtrip 16 8 _ ltac:(lia) ltac:(lia) H5 ltac:(done)) as (L5 & R5 & A5%digits_ascii).
  revert L1 R1 A1 L2 R2 A2 L3 R3 A3 L4 R4 A4 L5 R5 A5.
  generalize (format_padded 10 10 (lp_tip_height id)) (format_padded 16 8 (lp_tip_hash_checksum id))
    (format_padded 10 10 (lp_max_timestamp id)) (format_padded 10 10 (lp_mempool_transaction_count id))
    (format_padded 16 8 (lp_mempool_transaction_content_checksum id)).
  intros f1 f2 f3 f4 f5 L1 R1 A1 L2 R2 A2 L3 R3 A3 L4 R4 A4 L5 R5 A5.
  assert (ascii (f1 ++ f2 ++ f3 ++ f4 ++ f5)) as Ha by (unfold ascii in *; rewrite !Forall_app; auto).
  unfold LongPollId_from_str, LONG_POLL_ID_LENGTH. rewrite !length_app, L1, L2, L3, L4, L5. cbn [Nat.eqb Nat.add negb].
  pose proof (parse_middle 10 [] f1 (f2 ++ f3 ++ f4 ++ f5) _ 0 10 Ha eq_refl ltac:(cbn; lia) R1) as E1.
  cbn [app] in E1. rewrite E1. cbn [mbind res_bind].
  rewrite (parse_middle 16 f1 f2 (f3 ++ f4 ++ f5) _ 10 18 Ha ltac:(lia) ltac:(lia) R2). cbn [mbind res_bind].
  replace (f1 ++ f2 ++ f3 ++ f4 ++ f5) with ((f1 ++ f2) ++ f3 ++ f4 ++ f5) in * by (by rewrite <- !(assoc_L (++))).
  rewrite (parse_middle 10 (f1 ++ f2) f3 (f4 ++ f5) _ 18 28 Ha ltac:(rewrite length_app; lia) ltac:(lia) R3). cbn [mbind res_bind].
  replace ((f1 ++ f2) ++ f3 ++ f4 ++ f5) with ((f1 ++ f2 ++ f3) ++ f4 ++ f5) in * by (by rewrite <- !(assoc_L (++))).
  rewrite (parse_middle 10 (f1 ++ f2 ++ f3) f4 f5 _ 28 38 Ha ltac:(rewrite !length_app; lia) ltac:(lia) R4). cbn [mbind res_bind].
  replace ((f1 ++ f2 ++ f3) ++ f4 ++ f5) with ((f1 ++ f2 ++ f3 ++ f4) ++ f5 ++ []) in * by (by rewrite app_nil_r, <- !(assoc_L (++))).
  rewrite (parse_middle 16 (f1 ++ f2 ++ f3 ++ f4) f5 [] _ 38 46 Ha ltac:(rewrite !length_app; lia) ltac:(lia) R5).
  by destruct id.
Qed.

Lemma from_str_ascii s : ascii s -> LongPollId_from_str s <> Panic.
Proof.
  intros Hs. unfold LongPollId_from_str, LONG_POLL_ID_LENGTH. destruct (Nat.eqb_spec (length s) 46) as [Hl|]; [|done]. cbn [negb].
  pose proof (fun a b r Hab => parse_field_total s a b r Hs Hab) as Hp. rewrite Hl in Hp.
  pose proof (Hp 0%nat 10%nat 10 ltac:(lia)). destruct (parse_field s 0 10 10); [|done..]. cbn [mbind res_bind].
  pose proof (Hp 10%nat 18%nat 16 ltac:(lia)). destruct (parse_field s 10 18 16); [|done..]. cbn [mbind res_bind].
  pose proof (Hp 18%nat 28%nat 10 ltac:(lia)). destruct (parse_field s 18 28 10); [|done..]. cbn [mbind res_bind].
  pose proof (Hp 28%nat 38%nat 10 ltac:(lia)). destruct (parse_field s 28 38 10); [|done..]. cbn [mbind res_bind].
  pose proof (Hp 38%nat 46%nat 16 ltac:(lia)). by destruct (parse_field s 38 46 16).
Qed.

Lemma update_checksum_xor c item : update_checksum c item = Z.lxor c (update_checksum 0 item).
Proof.
  enough (forall n item c, (length item <= n)%nat -> update_checksum c item = Z.lxor c (update_checksum 0 item)) as H by eauto.
  clear. induction n as [|n IH]; intros item c Hn; destruct item as [|x [|y [|z [|w rest]]]]; cbn [update_checksum length] in *;
    try (by rewrite Z.lxor_0_r); [lia|].
  rewrite (IH rest (Z.lxor c _)), (IH rest (Z.lxor 0 _)) by lia. by rewrite Z.lxor_0_l, Z.lxor_assoc.
Qed.
Lemma checksum_perm c l1 l2 : l1 ≡ₚ l2 -> foldl update_checksum c l1 = foldl update_checksum c l2.
Proof.
  intros Hp. revert c. induction Hp as [|x l1 l2 _ IH|x y l|l1 l2 l3 _ IH1 _ IH2]; intros c; cbn; [done|apply IH| |by rewrite IH1].
  f_equal. rewrite (update_checksum_xor (update_checksum c y) x), (update_checksum_xor (update_checksum c x) y).
  rewrite (update_checksum_xor c x), (update_checksum_xor c y), !Z.lxor_assoc. f_equal. apply Z.lxor_comm.
Qed.

(** A string of 46 bytes: nine digits, the euro sign and 34 digits. *)
Definition euro_id : bytes := replicate 9 Byte.x30 ++ [Byte.xe2; Byte.x82; Byte.xac] ++ replicate 34 Byte.x30.

(** C38. Every long poll id is read back from the string that is written for
    it, and the id of a mempool does not depend on the order of its
    transactions. Reading an ASCII string returns an id or an error. Reading a
    string of the right length in which a character crosses the end of the
    first field panics. *)
Theorem long_poll_id_roundtrip :
  (forall id, id_ok id -> LongPollId_from_str (LongPollId_fmt id) = Ok id)
  /\ (forall height hash time ids1 ids2, ids1 ≡ₚ ids2 ->
      generate_id (LongPollInput_new height hash time ids1) = generate_id (LongPollInput_new height hash time ids2))
  /\ (forall s, ascii s -> LongPollId_from_str s <> Panic)
  /\ LongPollId_from_str euro_id = Panic.
Proof.
  split; [exact from_str_fmt|]. split; [|split; [exact from_str_ascii|vm_compute; reflexivity]].
  intros height hash time ids1 ids2 Hp. unfold generate_id, LongPollInput_new. cbn.
  assert (stable_sort bytes_leb (mined_id <$> ids1) ≡ₚ stable_sort bytes_leb (mined_id <$> ids2)) as Hs
    by (by rewrite !stable_sort_perm, Hp).
  rewrite (checksum_perm _ _ _ Hs). by rewrite Hs.
Qed.
