(* ===== verification/TemplateTime.v ===== *)
(** The difficulty and the range of times of a block template
    ([zebra-state/src/service/read/difficulty.rs],
    [history_tree] of [read/tree.rs]), and the solution rate of the chain.

    The relevant chain has the last blocks of the best chain, from the tip
    back. The local clock is an argument. A request reads one state, so its
    tip does not change between the queries and the retries have no effect. *)
From S2P Require Import Prelude Height Amount Difficulty NetworkUpgrade BlockHeader Transaction BlockCommitment ChainIndexes Chain ContextChecks AdjustedDifficulty FinalizedState NonFinalizedState StateRead.
From stdpp Require Import strings gmap sorting prelude.
From Stdlib Require Import ZArith Lia.
#[local] Open Scope Z_scope.

Definition EXTRA_TIME_TO_MINE_A_BLOCK : Z := POST_BLOSSOM_POW_TARGET_SPACING * 2.

Record GetBlockTemplateChainInfo := mkGetBlockTemplateChainInfo {
  ci_tip_hash : bytes;
  ci_tip_height : Z;
  ci_chain_history_root : option bytes;
  ci_expected_difficulty : Z;
  ci_cur_time : Z;
  ci_min_time : Z;
  ci_max_time : Z
}.
Implicit Types info : GetBlockTemplateChainInfo.

(** [Ord::clamp] panics on an empty range. *)
Definition clamp (x low high : Z) : outcome Z := _ ← assert_ (low <=? high); Ok (Z.max low (Z.min high x)).

(** The difficulties and times of blocks. *)
Definition relevant_data (relevant_chain : list Block) : list (Z * Z) :=
  (fun b => (difficulty_threshold (block_header b), time (block_header b))) <$> relevant_chain.

Section TemplateTime.
Context `{BuildProfile}.

Definition adjust_difficulty_and_time_for_testnet info (network : Network) (previous_block_height : Z)
    (relevant_data : list (Z * Z)) : outcome GetBlockTemplateChainInfo :=
  if negb (is_a_test_network network) then Ok info
  else
    previous ← unwrap (head relevant_data);
    previous_block_time ← unwrap (u32_checked previous.2);
    spacing ← minimum_difficulty_spacing_for_height network previous_block_height;
    match spacing with
    | None => Ok info
    | Some minimum_difficulty_spacing =>
        minimum_difficulty_spacing ← unwrap (u32_checked minimum_difficulty_spacing);
        std_difficulty_max_time ← unwrap (u32_checked (previous_block_time + minimum_difficulty_spacing));
        min_difficulty_min_time ← unwrap (u32_checked (std_difficulty_max_time + 1));
        local_std_difficulty_limit ← unwrap (u32_checked (std_difficulty_max_time - EXTRA_TIME_TO_MINE_A_BLOCK));
        let '(mkGetBlockTemplateChainInfo hash height root difficulty cur min max) := info in
        if cur <=? local_std_difficulty_limit then
          max ← clamp std_difficulty_max_time min max;
          cur ← clamp cur min max;
          Ok (mkGetBlockTemplateChainInfo hash height root difficulty cur min max)
        else
          min ← clamp min_difficulty_min_time min max;
          cur ← clamp cur min max;
          difficulty_adjustment ← new_from_header_time cur previous_block_height network relevant_data;
          difficulty ← expected_difficulty_threshold difficulty_adjustment;
          Ok (mkGetBlockTemplateChainInfo hash height root difficulty cur min max)
    end.

Definition difficulty_time_and_history_tree (now : Z) (relevant_chain : list Block) (tip_height : Z) (tip_hash : bytes)
    (network : Network) (history_tree_hash : option bytes) : outcome GetBlockTemplateChainInfo :=
  let relevant_data := relevant_data relevant_chain in
  median_time_past ← calculate_median_time_past (take POW_MEDIAN_BLOCK_SPAN relevant_chain);
  min_time ← unwrap (u32_checked (median_time_past + 1));
  max_time ← unwrap (u32_checked (median_time_past + BLOCK_MAX_TIME_SINCE_MEDIAN));
  cur_time ← clamp now min_time max_time;
  difficulty_adjustment ← new_from_header_time cur_time tip_height network relevant_data;
  expected_difficulty ← expected_difficulty_threshold difficulty_adjustment;
  adjust_difficulty_and_time_for_testnet
    (mkGetBlockTemplateChainInfo tip_hash tip_height history_tree_hash expected_difficulty cur_time min_time max_time)
    network tip_height relevant_data.

(** ** Reading the chain *)

Section ChainInfo.
Context {SproutT SaplingT OrchardT HistoryT : Type}
  `{!NoteTree SproutT} `{!NoteTree SaplingT} `{!SubtreeTree SaplingT} `{!NoteTree OrchardT} `{!SubtreeTree OrchardT}
  `{!DefaultTree SproutT} `{!DefaultTree SaplingT} `{!DefaultTree OrchardT}
  `{!HistoryTreeOps HistoryT} `{!HistoryTreeHash HistoryT} `{!StoredHistory HistoryT}
  `{!ChainContext} `{!CommitmentOps}.
Abbreviation chain := (Chain SproutT SaplingT OrchardT HistoryT).
Abbreviation nfs := (NonFinalizedState SproutT SaplingT OrchardT HistoryT).
Abbreviation finalized_db := (@FinalizedDb SproutT SaplingT OrchardT HistoryT).
Implicit Types (c : option chain) (db : finalized_db) (s : nfs).

Definition read_history_tree c db (hash_or_height : HashOrHeight) : option HistoryT :=
  option_or (c ← c; history_tree (inner c) hash_or_height) (Some (fdb_history_tree db)).

Definition best_relevant_chain_and_history_tree s db : res string (Z * bytes * list Block * HistoryT) :=
  tip ← lift (read_best_tip s db);
  match tip : option (Z * bytes) with
  | None => Err "Zebra's state is empty, wait until it syncs to the chain tip"%string
  | Some (tip_height, tip_hash) =>
      it ← lift (any_ancestor_blocks s db tip_hash);
      match iter_take POW_ADJUSTMENT_BLOCK_SPAN db it with
      | [] => Err "missing genesis block, wait until it is committed"%string
      | best_relevant_chain =>
          history_tree ← unwrap (read_history_tree (best_chain s) db (Hash tip_hash));
          Ok (tip_height, tip_hash, best_relevant_chain, history_tree)
      end
  end.

Definition get_block_template_chain_info (now : Z) s db (network : Network) : res string GetBlockTemplateChainInfo :=
  '(best_tip_height, best_tip_hash, best_relevant_chain, best_tip_history_tree) ← best_relevant_chain_and_history_tree s db;
  lift (difficulty_time_and_history_tree now best_relevant_chain best_tip_height best_tip_hash network (history_hash best_tip_history_tree)).

(** The earliest and latest time, the work of the last header and the total. *)
Definition rate_step (acc : Z * Z * Z * Z) (header : Header) : outcome (Z * Z * Z * Z) :=
  let '(min_time, max_time, _, total_work) := acc in
  work ← to_work (difficulty_threshold header);
  last_work ← unwrap work;
  total_work ← cumulative_work_add total_work last_work;
  Ok (Z.min min_time (time header), Z.max max_time (time header), last_work, total_work).
Definition solution_rate_of (headers : list Header) : outcome (option Z) :=
  match headers with
  | [] => Ok None
  | last_header :: _ =>
      '(min_time, max_time, last_work, total_work) ← foldM rate_step (time last_header, time last_header, 0, 0) headers;
      total_work ← cumulative_work_sub total_work last_work;
      let work_duration := max_time - min_time in
      Ok (if work_duration <=? 0 then None else Some (total_work / work_duration))
  end.
Definition solution_rate s db (num_blocks : nat) (start_hash : bytes) : outcome (option Z) :=
  it ← any_ancestor_blocks s db start_hash;
  solution_rate_of (block_header <$> iter_take (S num_blocks) db it).
End ChainInfo.

(** The rate is the work of all headers but the oldest over the time between
    the earliest and the latest of them. *)
Lemma rate_loop headers works lo hi last_work total :
  Forall2 (fun h w => to_work (difficulty_threshold h) = Ok (Some w) /\ 0 <= w) headers works ->
  0 <= total -> total + sum_Z id works <= u128_MAX ->
  foldM rate_step (lo, hi, last_work, total) headers
  = Ok (foldl (fun m h => Z.min m (time h)) lo headers, foldl (fun m h => Z.max m (time h)) hi headers,
        default last_work (last works), total + sum_Z id works).
Proof.
  intros Hw. revert lo hi last_work total. induction Hw as [|h w headers works [Hh Hw0] Hw IH]; intros lo hi last_work total Ht Hb; cbn [foldM sum_Z foldl].
  { by rewrite Z.add_0_r. }
  assert (0 <= sum_Z id works).
  { apply sum_Z_nonneg, Forall_forall. intros x Hx. apply list_elem_of_lookup in Hx as [i Hi].
    destruct (Forall2_lookup_r _ _ _ _ _ Hw Hi) as (h' & _ & _ & ?). done. }
  cbn [sum_Z] in Hb. unfold id at 1 in Hb. unfold rate_step at 2. rewrite Hh. cbn [unwrap mbind res_bind]. unfold cumulative_work_add.
  rewrite checked_in by lia. cbn [unwrap mbind res_bind]. rewrite IH by lia. rewrite last_cons. change (id w) with w. f_equal. f_equal; [f_equal|lia].
  by destruct (last works).
Qed.

Lemma fold_range (l : list Header) lo hi :
  let first := foldl (fun m h => Z.min m (time h)) lo l in
  let last := foldl (fun m h => Z.max m (time h)) hi l in
  first <= lo /\ hi <= last /\ (forall h, h ∈ l -> first <= time h <= last)
  /\ (first = lo \/ first ∈ time <$> l) /\ (last = hi \/ last ∈ time <$> l).
Proof.
  revert lo hi. induction l as [|x l IH]; intros lo hi; cbn [foldl].
  { cbn zeta. split_and!; [lia|lia|by intros h ?%elem_of_nil|by left|by left]. }
  specialize (IH (Z.min lo (time x)) (Z.max hi (time x))). cbn zeta in *. destruct IH as (H1 & H2 & H3 & H4 & H5).
  rewrite fmap_cons, !elem_of_cons. split_and!; [lia|lia| | |].
  - intros h [->|Hh]%elem_of_cons; [lia|auto].
  - destruct H4 as [->|?]; [|auto]. destruct (Z.min_spec lo (time x)) as [[_ ->]|[_ ->]]; auto.
  - destruct H5 as [->|?]; [|auto]. destruct (Z.max_spec hi (time x)) as [[_ ->]|[_ ->]]; auto.
Qed.

Lemma solution_rate_exact newest oldest works oldest_work :
  Forall2 (fun h w => to_work (difficulty_threshold h) = Ok (Some w) /\ 0 <= w) (newest ++ [oldest]) (works ++ [oldest_work]) ->
  sum_Z id works + oldest_work <= u128_MAX ->
  exists first last, (forall h, h ∈ newest ++ [oldest] -> first <= time h <= last)
    /\ first ∈ time <$> newest ++ [oldest] /\ last ∈ time <$> newest ++ [oldest]
    /\ solution_rate_of (newest ++ [oldest]) = Ok (if last - first <=? 0 then None else Some (sum_Z id works / (last - first))).
Proof.
  intros Hw Hb. assert (Forall (fun w => 0 <= w) (works ++ [oldest_work])) as Hnn.
  { apply Forall_forall. intros x Hx. apply list_elem_of_lookup in Hx as [i Hi]. destruct (Forall2_lookup_r _ _ _ _ _ Hw Hi) as (? & _ & _ & ?). done. }
  apply Forall_app in Hnn as [Hnn Ho]. apply Forall_cons in Ho as [Ho _]. pose proof (sum_Z_nonneg id works Hnn) as Hs.
  destruct (newest ++ [oldest]) as [|h rest] eqn:Hl; [by destruct newest|]. unfold solution_rate_of.
  assert (sum_Z id (works ++ [oldest_work]) = sum_Z id works + oldest_work) as Hsum by (rewrite sum_Z_app; cbn [sum_Z]; change (id oldest_work) with oldest_work; lia).
  rewrite (rate_loop _ _ _ _ _ _ Hw) by (rewrite ?Hsum; lia). rewrite Hsum, last_snoc. cbn [mbind res_bind]. unfold cumulative_work_sub.
  cbn [from_option]. change (id oldest_work) with oldest_work. replace (0 + (sum_Z id works + oldest_work) - oldest_work) with (sum_Z id works) by lia.
  rewrite checked_in by lia. cbn [unwrap mbind res_bind].
  destruct (fold_range (h :: rest) (time h) (time h)) as (_ & _ & Hin & H1 & H2). cbn zeta in *.
  eexists _, _. split; [exact Hin|]. split; [destruct H1 as [->|?]; [left|done]|]. split; [destruct H2 as [->|?]; [left|done]|].
  done.
Qed.

(** ** The range of times *)

Lemma clamp_in x low high : low <= high -> clamp x low high = Ok (Z.max low (Z.min high x)).
Proof. intros Hle. unfold clamp. by rewrite (proj2 (Z.leb_le _ _)). Qed.

Section Range.
Context (network : Network) (tip_height : Z) (relevant_chain : list Block).
(** The adjustment for a block after the tip with the time [t]. *)
Definition candidate_at (t : Z) : AdjustedDifficulty :=
  let context := take POW_ADJUSTMENT_BLOCK_SPAN (relevant_data relevant_chain) in
  mkAdjustedDifficulty t (tip_height + 1) network context.*1 context.*2.

(** A chain whose tip can be extended: the times leave room for the limits,
    the thresholds are valid and their mean is at least the length of the
    averaging window. *)
Record template_context (limit : Z) : Prop := {
  tc_height : 0 <= tip_height < Height_MAX;
  tc_chain : relevant_chain <> [];
  tc_times : Forall (fun b => 0 <= time (block_header b) <= u32_MAX - BLOCK_MAX_TIME_SINCE_MEDIAN) relevant_chain;
  tc_genesis : exists genesis, activation_height Genesis network = Some genesis;
  tc_spacing : exists gap, minimum_difficulty_spacing_for_height network tip_height = Ok gap;
  tc_relevant : exists window mean, relevant_ok (candidate_at 0) limit window
    /\ mean_target_difficulty (candidate_at 0) = Ok mean /\ window <= mean
}.
Context (limit : Z).
Hypothesis context_ok : template_context limit.

Lemma tc_difficulty t : exists d e, expected_difficulty_threshold (candidate_at t) = Ok d
  /\ to_expanded d = Ok (Some e) /\ 0 < e <= limit.
Proof.
  destruct context_ok as [_ _ _ _ _ (window & mean & [H1 H2 H3 H4 H5] & Hm & Hle)].
  apply (expected_difficulty_ok (candidate_at t) limit window mean); done.
Qed.

Lemma new_candidate t : new_from_header_time t tip_height network (relevant_data relevant_chain) = Ok (candidate_at t).
Proof.
  destruct context_ok as [Hh _ _ _ _ _]. unfold new_from_header_time, height_add_diff. change Height_MAX with 2147483647 in Hh.
  rewrite arith_i_in by width_lia. cbn [mbind res_bind]. rewrite checked_in by width_lia.
  unfold height_try_from_u32. rewrite (proj2 (Z.leb_le _ _)); [done|]. change Height_MAX with 2147483647. lia.
Qed.

Lemma tip_time : exists b rest, relevant_chain = b :: rest /\ head (relevant_data relevant_chain) = Some (difficulty_threshold (block_header b), time (block_header b)).
Proof. destruct context_ok as [_ Hc _ _ _ _]. unfold relevant_data. destruct relevant_chain as [|b rest]; [done|]. eauto. Qed.

(** The difficulty depends on the time through the minimum difficulty rule
    only. *)
Lemma difficulty_by_rule t1 t2 b rest : relevant_chain = b :: rest ->
  is_testnet_min_difficulty_block network (tip_height + 1) t1 (time (block_header b))
  = is_testnet_min_difficulty_block network (tip_height + 1) t2 (time (block_header b)) ->
  expected_difficulty_threshold (candidate_at t1) = expected_difficulty_threshold (candidate_at t2).
Proof.
  intros Hc Hr.
  assert (forall t, head (relevant_times (candidate_at t)) = Some (time (block_header b))) as Hh
    by (intros t; unfold candidate_at, relevant_data; rewrite Hc; reflexivity).
  unfold expected_difficulty_threshold. rewrite !Hh. cbn [unwrap mbind res_bind candidate_at ad_network candidate_height candidate_time].
  by rewrite Hr.
Qed.

Lemma times_valid t d median : median_time_past (candidate_at 0) = Ok median -> median + 1 <= t <= median + BLOCK_MAX_TIME_SINCE_MEDIAN ->
  expected_difficulty_threshold (candidate_at t) = Ok d -> difficulty_threshold_and_time_are_valid d (candidate_at t) = Ok tt.
Proof.
  intros Hm Ht Hd. destruct context_ok as [_ _ _ [genesis Hg] _ _]. apply difficulty_and_time_exact. exists median, genesis.
  destruct (median_spec (take POW_MEDIAN_BLOCK_SPAN (relevant_times (candidate_at 0)))) as (m & Em & Hin & H1 & H2).
  { unfold median_time_past in Hm. by intros E; rewrite E in Hm. }
  unfold median_time_past in Hm. rewrite Hm in Em. apply Ok_inj in Em as ->. unfold BLOCK_MAX_TIME_SINCE_MEDIAN in Ht.
  split_and!; try done; cbn; [left|intros _]; lia.
Qed.

Lemma median_in : exists median, median_time_past (candidate_at 0) = Ok median /\ 0 <= median <= u32_MAX - BLOCK_MAX_TIME_SINCE_MEDIAN
  /\ calculate_median_time_past (take POW_MEDIAN_BLOCK_SPAN relevant_chain) = Ok median.
Proof.
  destruct context_ok as [_ Hc Ht _ _ _]. set (times := (fun b => time (block_header b)) <$> take POW_MEDIAN_BLOCK_SPAN relevant_chain).
  assert (take POW_MEDIAN_BLOCK_SPAN (relevant_times (candidate_at 0)) = times) as Et.
  { unfold candidate_at, relevant_data, times. cbn [relevant_times]. rewrite !fmap_take, take_take, <- list_fmap_compose. done. }
  destruct (median_spec times) as (m & Hm & Hin & _); [by unfold times; destruct relevant_chain|].
  exists m. unfold median_time_past. rewrite Et. split; [done|].
  assert (0 <= m <= u32_MAX - BLOCK_MAX_TIME_SINCE_MEDIAN) as Hr.
  { unfold times in Hin. apply list_elem_of_fmap in Hin as (b & -> & Hb). apply (Forall_take _ POW_MEDIAN_BLOCK_SPAN) in Ht. rewrite Forall_forall in Ht. by apply Ht. }
  split; [done|]. unfold calculate_median_time_past. fold times. rewrite Hm. cbn [mbind res_bind].
  unfold BLOCK_MAX_TIME_SINCE_MEDIAN in Hr. rewrite checked_in by width_lia. done.
Qed.

Lemma spacing_values h gap : minimum_difficulty_spacing_for_height network h = Ok (Some gap) -> gap = 900 \/ gap = 450.
Proof.
  unfold minimum_difficulty_spacing_for_height. destruct network; [done|]. destruct (h <? _); [done|].
  intros (nu & _ & [= <-])%bind_Ok_inv. destruct nu; cbv; auto.
Qed.

Lemma rule_at t prev gap : minimum_difficulty_spacing_for_height network (tip_height + 1) = Ok gap ->
  is_testnet_min_difficulty_block network (tip_height + 1) t prev = Ok (match gap with Some g => g <? t - prev | None => false end).
Proof. intros Hs. unfold is_testnet_min_difficulty_block. rewrite Hs. by destruct gap. Qed.
End Range.

(** For a chain whose tip can be extended, the state computes a range of
    times, a current time inside it and a difficulty, and a block after the tip
    with that time and that difficulty passes the difficulty and time rules of
    the chain. If the minimum difficulty rule has the same spacing at the tip
    and after it, so does a block with any time of the range. *)
Lemma template_times_valid now network tip_height tip_hash relevant_chain history_root limit :
  template_context network tip_height relevant_chain limit ->
  exists info, difficulty_time_and_history_tree now relevant_chain tip_height tip_hash network history_root = Ok info
    /\ ci_tip_hash info = tip_hash /\ ci_tip_height info = tip_height /\ ci_chain_history_root info = history_root
    /\ ci_min_time info <= ci_cur_time info <= ci_max_time info
    /\ (exists e, to_expanded (ci_expected_difficulty info) = Ok (Some e) /\ 0 < e <= limit)
    /\ difficulty_threshold_and_time_are_valid (ci_expected_difficulty info)
         (candidate_at network tip_height relevant_chain (ci_cur_time info)) = Ok tt
    /\ (minimum_difficulty_spacing_for_height network (tip_height + 1) = minimum_difficulty_spacing_for_height network tip_height ->
        forall t, ci_min_time info <= t <= ci_max_time info ->
        difficulty_threshold_and_time_are_valid (ci_expected_difficulty info) (candidate_at network tip_height relevant_chain t) = Ok tt).
Proof.
  intros Hok. destruct (tip_time _ _ _ _ Hok) as (b & rest & Hc & Hhead).
  destruct (median_in _ _ _ _ Hok) as (median & Hm & Hmr & Hmed). unfold difficulty_time_and_history_tree. rewrite Hmed.
  unfold BLOCK_MAX_TIME_SINCE_MEDIAN in *. cbn [mbind res_bind]. rewrite !checked_in by width_lia. cbn [unwrap mbind res_bind].
  rewrite clamp_in by lia. cbn [mbind res_bind]. set (cur := Z.max _ _). rewrite (new_candidate _ _ _ _ Hok). cbn [mbind res_bind].
  destruct (tc_difficulty _ _ _ _ Hok cur) as (d & e & Hd & He & Hel). rewrite Hd. cbn [mbind res_bind]. unfold adjust_difficulty_and_time_for_testnet.
  assert (median + 1 <= cur <= median + 90 * 60) as Hcur by lia. clearbody cur.
  assert (forall t e, median + 1 <= t <= median + 90 * 60 -> expected_difficulty_threshold (candidate_at network tip_height relevant_chain t) = Ok e ->
    difficulty_threshold_and_time_are_valid e (candidate_at network tip_height relevant_chain t) = Ok tt) as Hvalid
    by (intros t x; by eapply times_valid).
  assert (forall t1 t2, is_testnet_min_difficulty_block network (tip_height + 1) t1 (time (block_header b))
    = is_testnet_min_difficulty_block network (tip_height + 1) t2 (time (block_header b)) ->
    expected_difficulty_threshold (candidate_at network tip_height relevant_chain t1)
    = expected_difficulty_threshold (candidate_at network tip_height relevant_chain t2)) as Hrule
    by (intros t1 t2; by apply (difficulty_by_rule _ _ _ _ _ b rest)).
  destruct (tc_spacing _ _ _ _ Hok) as [gap Hgap]. pose proof (tc_times _ _ _ _ Hok) as Ht. rewrite Hc in Ht. apply Forall_cons in Ht as [Hb _]. unfold BLOCK_MAX_TIME_SINCE_MEDIAN in Hb.
  pose proof (rule_at network tip_height) as Hat. rewrite Hgap. rewrite Hhead. cbn [unwrap mbind res_bind snd].
  set (prev := time (block_header b)) in *. rewrite checked_in by width_lia. cbn [unwrap mbind res_bind].
  assert (forall t1 t2, minimum_difficulty_spacing_for_height network (tip_height + 1) = Ok gap ->
    match gap with Some g => (g <? t1 - prev) = (g <? t2 - prev) | None => True end ->
    expected_difficulty_threshold (candidate_at network tip_height relevant_chain t1)
    = expected_difficulty_threshold (candidate_at network tip_height relevant_chain t2)) as Hsame.
  { intros t1 t2 Hs Heq. apply Hrule. rewrite !(Hat _ _ gap Hs). destruct gap; [by rewrite Heq|done]. }
  assert (is_a_test_network network = false -> gap = None) as Hmain by (intros; destruct network; [cbn in Hgap; congruence|done]).
  destruct gap as [gap|].
  2: { exists (mkGetBlockTemplateChainInfo tip_hash tip_height history_root d cur (median + 1) (median + 90 * 60)).
       split; [by destruct (is_a_test_network network)|]. cbn. do 3 (split; [done|]). split; [done|]. split; [by exists e|]. split; [by apply Hvalid|].
       intros Hs t Hr. apply Hvalid; [done|]. by rewrite (Hsame t cur). }
  destruct (is_a_test_network network); [|by specialize (Hmain eq_refl)]. cbn [negb]. clear Hmain.
  assert (450 <= gap <= 900) as Hg by (destruct (spacing_values network tip_height gap Hgap); lia).
  change EXTRA_TIME_TO_MINE_A_BLOCK with 150. do 4 (rewrite checked_in by width_lia; cbn [unwrap mbind res_bind]).
  destruct (Z.leb_spec cur (prev + gap - 150)).
  - rewrite clamp_in by lia. cbn [mbind res_bind]. rewrite clamp_in by lia. cbn [mbind res_bind]. eexists. split; [done|]. cbn.
    do 3 (split; [done|]). split; [lia|]. split; [by exists e|]. rewrite (Z.max_r _ (Z.min _ cur)), (Z.min_r _ cur) by lia. split; [by apply Hvalid|].
    intros Hs t Hr. apply Hvalid; [lia|]. rewrite (Hsame t cur); [done|done|].
    rewrite !(proj2 (Z.ltb_ge _ _)) by lia. done.
  - rewrite clamp_in by lia. cbn [mbind res_bind]. rewrite clamp_in by lia. cbn [mbind res_bind]. set (low := Z.max (median + 1) _).
    set (cur' := Z.max low _). rewrite (new_candidate _ _ _ _ Hok). cbn [mbind res_bind].
    destruct (tc_difficulty _ _ _ _ Hok cur') as (d' & e' & Hd' & He' & Hel'). rewrite Hd'. cbn [mbind res_bind]. eexists. split; [done|]. cbn.
    do 3 (split; [done|]). split; [lia|]. split; [by exists e'|]. split; [apply Hvalid; [lia|done]|].
    intros Hs t Hr. apply Hvalid; [lia|]. rewrite (Hsame t cur'); [done|done|].
    destruct (Z.ltb_spec gap (t - prev)), (Z.ltb_spec gap (cur' - prev)); lia.
Qed.
End TemplateTime.

Module TemplateTimeExample.
#[local] Existing Instance release_build.

(** Twenty-eight blocks of a test network, 75 seconds apart, at four times the
    minimum difficulty. *)
Definition network : Network :=
  Testnet (mkParameters "Example" [] [] [(0, Genesis); (1, Nu6)] 0 0 [] (2 ^ 251 - 1) true true 1000 2000 []).
Definition example_block (i : nat) : Block :=
  mkBlock (mkHeader 4 [] [] [] (1600000000 - 75 * Z.of_nat i) 0x2001ffff [] Solution_for_proposal FatPointerToBftBlock_null) [].
Definition example_chain : list Block := example_block <$> seq 0 28.

(** The spacing is the one at the height of the tip. At the last height
    without the minimum difficulty rule the times of the range are not limited,
    and a block with the last of them needs another difficulty. *)
Lemma range_crosses_rule :
  exists info, difficulty_time_and_history_tree 1600000100 example_chain 299187 [Byte.x01] network None = Ok info
    /\ ci_max_time info = 1600005025
    /\ difficulty_threshold_and_time_are_valid (ci_expected_difficulty info) (candidate_at network 299187 example_chain 1600005025)
       = Err (InvalidDifficultyThreshold (ci_expected_difficulty info) 0x2007ffff).
Proof. eexists. split; [vm_compute; reflexivity|]. split; vm_compute; reflexivity. Qed.
End TemplateTimeExample.
