(* ===== verification/BlockTemplate.v ===== *)
(** The selection of mempool transactions for the block template of a miner
    ([zebra-rpc/src/methods/types/get_block_template/zip317.rs]).

    The weights of the candidates are floating point numbers: whether an index
    can be made from the weights of a list of candidates, and the position it
    draws, are the class [FeeWeightedIndex]. The size and the signature
    operations of the placeholder coinbase transaction are arguments of the
    selection. *)
From S2P Require Import Prelude Serialization Height Amount ValueBalance FundingStreams NetworkUpgrade Subsidy Merkle Transaction TransparentWire BlockCommitment TransactionVerifier BlockVerifier Mempool MempoolStorage.
From stdpp Require Import strings gmap sorting fin_maps relations prelude.
From Stdlib Require Import ZArith Lia.
#[local] Open Scope Z_scope.
Implicit Types (v : VerifiedUnminedTx) (d : TransactionDependencies).

(** * Selection of transactions *)

Definition MAX_BLOCK_BYTES : Z := 2000000.

(** [WeightedIndex<f32>] of the fee weight ratios of the candidates. *)
Class FeeWeightedIndex := {
  weights_valid : list VerifiedUnminedTx -> bool;
  index_sample : list VerifiedUnminedTx -> nat
}.

(** [Vec::swap_remove]. *)
Definition swap_remove {A} (i : nat) (l : list A) : outcome (A * list A) :=
  x ← unwrap (l !! i);
  let short := take (length l - 1) l in
  Ok (x, match last l with Some y => <[i := y]> short | None => short end).

Record BlockLimits := mkBlockLimits {
  remaining_block_bytes : Z;
  remaining_block_sigops : Z;
  remaining_block_unpaid_actions : Z
}.
Definition try_update_block_template_limits v (l : BlockLimits) : option BlockLimits :=
  if (vs_size v <=? remaining_block_bytes l) && (vu_sigops v <=? remaining_block_sigops l)
     && (vu_unpaid_actions v <=? remaining_block_unpaid_actions l)
  then Some (mkBlockLimits (remaining_block_bytes l - vs_size v) (remaining_block_sigops l - vu_sigops v)
               (remaining_block_unpaid_actions l - vu_unpaid_actions v))
  else None.

(** The loop counts the selected dependencies and stops when all are found,
    which is only tested after one was found. *)
Fixpoint count_dependencies (deps : gset bytes) (num_available_deps : nat) (selected_txs : list VerifiedUnminedTx) : bool :=
  match selected_txs with
  | [] => false
  | tx :: rest =>
      if bool_decide (mined_id (vs_id tx) ∈ deps)
      then if (S num_available_deps =? size deps)%nat then true else count_dependencies deps (S num_available_deps) rest
      else count_dependencies deps num_available_deps rest
  end.
Definition has_direct_dependencies (candidate_tx_deps : option (gset bytes)) (selected_txs : list VerifiedUnminedTx) : bool :=
  match candidate_tx_deps with
  | None => true
  | Some deps => if (length selected_txs <? size deps)%nat then false else count_dependencies deps 0 selected_txs
  end.

Record Selection := mkSelection {
  dependent_txs : gmap bytes VerifiedUnminedTx;
  selected_txs : list VerifiedUnminedTx;
  limits : BlockLimits
}.
Implicit Types s : Selection.
Definition select_one s v (l : BlockLimits) : Selection := mkSelection (dependent_txs s) (selected_txs s ++ [v]) l.
Definition drop_dependent s (id : bytes) : Selection := mkSelection (delete id (dependent_txs s)) (selected_txs s) (limits s).

(** One dependent of the current level; the second component collects the
    next level. *)
Definition try_dependent d (x : Selection * gset bytes) (dependent_tx_id : bytes) : Selection * gset bytes :=
  let '(s, next_level) := x in
  if has_direct_dependencies (dependencies d !! dependent_tx_id) (selected_txs s) then
    match dependent_txs s !! dependent_tx_id with
    | None => (s, next_level)
    | Some candidate_tx =>
        let s := drop_dependent s dependent_tx_id in
        if negb (pays_conventional_fee candidate_tx) then (s, next_level)
        else
          match try_update_block_template_limits candidate_tx (limits s) with
          | None => (s, next_level)
          | Some l => (select_one s candidate_tx l, next_level ∪ direct_dependents d dependent_tx_id)
          end
    end
  else (s, next_level).

(** A level with a next level took a transaction out of [dependent_txs]. *)
Fixpoint select_levels (fuel : nat) d s (current_level_dependents : gset bytes) : Selection :=
  match fuel with
  | O => s
  | S fuel =>
      if decide (current_level_dependents = ∅) then s
      else
        let '(s, next) := foldl (try_dependent d) (s, ∅) (elements current_level_dependents) in
        select_levels fuel d s next
  end.

Section Select.
Context `{BuildProfile} `{FeeWeightedIndex}.

(** Whether there is an index to draw from. *)
Definition setup_fee_weighted_index (transactions : list VerifiedUnminedTx) : bool :=
  match transactions with [] => false | _ => weights_valid transactions end.

Definition checked_add_transaction_weighted_random d (candidate_txs : list VerifiedUnminedTx) s
    : outcome (list VerifiedUnminedTx * Selection) :=
  '(candidate_tx, candidate_txs) ← swap_remove (index_sample candidate_txs) candidate_txs;
  match try_update_block_template_limits candidate_tx (limits s) with
  | None => Ok (candidate_txs, s)
  | Some l =>
      let selected_tx_id := mined_id (vs_id candidate_tx) in
      _ ← assert_ (negb overflow_checks || bool_decide (dependencies d !! selected_tx_id = None));
      let s := select_one s candidate_tx l in
      Ok (candidate_txs, select_levels (S (size (dependent_txs s))) d s (direct_dependents d selected_tx_id))
  end.

(** A step removes one candidate. *)
Fixpoint select_loop (fuel : nat) d (candidate_txs : list VerifiedUnminedTx) s : outcome Selection :=
  if setup_fee_weighted_index candidate_txs then
    match fuel with
    | O => Panic
    | S fuel =>
        '(candidate_txs, s) ← checked_add_transaction_weighted_random d candidate_txs s;
        select_loop fuel d candidate_txs s
    end
  else Ok s.

Definition select_mempool_transactions (fake_coinbase_size fake_coinbase_sigops : Z) (mempool_txs : list VerifiedUnminedTx) d
    : outcome (list VerifiedUnminedTx) :=
  let by_id : gmap bytes VerifiedUnminedTx := foldl (fun m tx => <[mined_id (vs_id tx) := tx]> m) ∅ mempool_txs in
  let independent_mempool_txs := filter (fun e => dependencies d !! e.1 = None) by_id in
  let dependent_mempool_txs := filter (fun e => dependencies d !! e.1 <> None) by_id in
  let candidates := snd <$> map_to_list independent_mempool_txs in
  let conventional_fee_txs := filter (fun tx => pays_conventional_fee tx = true) candidates in
  let low_fee_txs := filter (fun tx => pays_conventional_fee tx = false) candidates in
  bytes ← arith_u 64 (MAX_BLOCK_BYTES - fake_coinbase_size);
  sigops ← arith_u 32 (MAX_BLOCK_SIGOPS - fake_coinbase_sigops);
  let s := mkSelection dependent_mempool_txs [] (mkBlockLimits bytes sigops BLOCK_UNPAID_ACTION_LIMIT) in
  s ← select_loop (length conventional_fee_txs) d conventional_fee_txs s;
  s ← select_loop (length low_fee_txs) d low_fee_txs s;
  Ok (selected_txs s).
End Select.

(** ** What is selected *)

Definition tx_id v : bytes := mined_id (vs_id v).
(** Every transaction comes after those it depends on. *)
Definition deps_first d (l : list VerifiedUnminedTx) : Prop :=
  forall l1 v l2 p, l = l1 ++ v :: l2 -> p ∈ direct_dependencies d (tx_id v) -> p ∈ tx_id <$> l1.
(** What is left of the limits of the block. *)
Definition limits_left (l0 : BlockLimits) (l : list VerifiedUnminedTx) (l1 : BlockLimits) : Prop :=
  remaining_block_bytes l1 = remaining_block_bytes l0 - sum_Z vs_size l /\ 0 <= remaining_block_bytes l1
  /\ remaining_block_sigops l1 = remaining_block_sigops l0 - sum_Z vu_sigops l /\ 0 <= remaining_block_sigops l1
  /\ remaining_block_unpaid_actions l1 = remaining_block_unpaid_actions l0 - sum_Z vu_unpaid_actions l
  /\ 0 <= remaining_block_unpaid_actions l1.

Lemma limits_left_snoc v l0 l l1 l2 : limits_left l0 l l1 -> try_update_block_template_limits v l1 = Some l2 ->
  limits_left l0 (l ++ [v]) l2.
Proof.
  intros (? & ? & ? & ? & ? & ?). unfold try_update_block_template_limits, limits_left.
  destruct (_ && _) eqn:Hb; [|done]. apply andb_true_iff in Hb as [[Hb1%Z.leb_le Hb2%Z.leb_le]%andb_true_iff Hb3%Z.leb_le].
  intros [= <-]. cbn. rewrite !sum_Z_app. cbn. lia.
Qed.

Lemma deps_first_snoc d l v : deps_first d l -> (forall p, p ∈ direct_dependencies d (tx_id v) -> p ∈ tx_id <$> l) ->
  deps_first d (l ++ [v]).
Proof.
  intros Hl Hv l1 w l2 p He Hp. destruct l2 as [|w' l2 _] using rev_ind.
  - apply app_inj_tail in He as [-> ->]. auto.
  - rewrite app_comm_cons, app_assoc in He. apply app_inj_tail in He as [-> _]. by apply (Hl l1 w l2).
Qed.

Lemma count_dependencies_true deps n l : count_dependencies deps n l = true ->
  (size deps <= n + length (filter (fun x => x ∈ deps) (tx_id <$> l)))%nat.
Proof.
  revert n. induction l as [|tx l IH]; intros n; cbn [count_dependencies]; [done|]. rewrite fmap_cons, filter_cons.
  fold (tx_id tx). destruct (decide (tx_id tx ∈ deps)) as [Hin|Hin].
  - rewrite bool_decide_eq_true_2 by done. cbn [length]. destruct (S n =? size deps)%nat eqn:He.
    + apply Nat.eqb_eq in He. intros _. lia.
    + intros Hc%IH. lia.
  - rewrite bool_decide_eq_false_2 by done. apply IH.
Qed.

Lemma has_direct_dependencies_true o l : NoDup (tx_id <$> l) -> has_direct_dependencies o l = true ->
  forall p, p ∈ default ∅ o -> p ∈ tx_id <$> l.
Proof.
  intros Hnd. destruct o as [deps|]; [|intros _ p Hp; by apply not_elem_of_empty in Hp]. unfold has_direct_dependencies.
  destruct (length l <? size deps)%nat; [done|]. intros Hc%count_dependencies_true p Hp.
  set (f := filter (fun x => x ∈ deps) (tx_id <$> l)) in *.
  assert (NoDup f) as Hf by by apply NoDup_filter.
  assert (list_to_set f = deps) as He.
  { apply set_subseteq_size_eq; [|rewrite size_list_to_set by done; lia].
    intros x Hx. apply elem_of_list_to_set, list_elem_of_filter in Hx. apply Hx. }
  rewrite <- He in Hp. apply elem_of_list_to_set, list_elem_of_filter in Hp. apply Hp.
Qed.

Section Selected.
Context (m : gmap bytes VerifiedUnminedTx) (d : TransactionDependencies) (l0 : BlockLimits).
Hypothesis m_keys : forall k v, m !! k = Some v -> tx_id v = k.

Record sel_ok s : Prop := {
  so_nodup : NoDup (tx_id <$> selected_txs s);
  so_mempool : forall v, v ∈ selected_txs s -> m !! tx_id v = Some v;
  so_deps : deps_first d (selected_txs s);
  so_dependent : dependent_txs s ⊆ m;
  so_disjoint : forall v, v ∈ selected_txs s -> dependent_txs s !! tx_id v = None;
  so_limits : limits_left l0 (selected_txs s) (limits s)
}.

Lemma select_one_ok s v l : sel_ok s -> m !! tx_id v = Some v -> dependent_txs s !! tx_id v = None ->
  (tx_id v ∉ tx_id <$> selected_txs s) -> (forall p, p ∈ direct_dependencies d (tx_id v) -> p ∈ tx_id <$> selected_txs s) ->
  try_update_block_template_limits v (limits s) = Some l -> sel_ok (select_one s v l).
Proof.
  intros [Hnd Hm Hd Hs Hdis Hl] Hv Hdep Hn Hp Hlim. split; cbn.
  - rewrite fmap_app. apply NoDup_app. split; [done|]. split; [|apply NoDup_singleton].
    intros x Hx. cbn. rewrite list_elem_of_singleton. by intros ->.
  - intros w [Hw| ->%list_elem_of_singleton]%elem_of_app; [auto|done].
  - by apply deps_first_snoc.
  - done.
  - intros w [Hw| ->%list_elem_of_singleton]%elem_of_app; [auto|done].
  - by eapply limits_left_snoc.
Qed.

Lemma drop_dependent_ok s k : sel_ok s -> sel_ok (drop_dependent s k).
Proof.
  intros [Hnd Hm Hd Hs Hdis Hl]. split; cbn; try done.
  - etrans; [apply delete_subseteq|done].
  - intros v Hv. apply lookup_delete_None. auto.
Qed.

(** The selection only grows, by transactions that were dependent. *)
Definition extends s s' : Prop :=
  dependent_txs s' ⊆ dependent_txs s
  /\ (forall v, v ∈ selected_txs s' -> v ∈ selected_txs s \/ dependent_txs s !! tx_id v = Some v)
  /\ (forall v, v ∈ selected_txs s -> v ∈ selected_txs s').
Lemma extends_refl s : extends s s.
Proof. split; auto. Qed.

Lemma selection_trans s1 s2 s3 : extends s1 s2 -> extends s2 s3 -> extends s1 s3.
Proof.
  intros (Hd1 & Hs1 & Hk1) (Hd2 & Hs2 & Hk2). split; [by etrans|]. split; [|auto].
  intros v [Hv|Hv]%Hs2; [auto|]. right. by eapply lookup_weaken.
Qed.

Lemma try_dependent_ok s next k s' next' : sel_ok s -> try_dependent d (s, next) k = (s', next') ->
  sel_ok s' /\ extends s s'
  /\ (next' = next \/ (size (dependent_txs s') < size (dependent_txs s))%nat).
Proof.
  intros Hok. unfold try_dependent.
  assert (sel_ok s /\ extends s s /\ (next = next \/ (size (dependent_txs s) < size (dependent_txs s))%nat)) as Hsame.
  { split; [done|]. split; [apply extends_refl|by left]. }
  destruct (has_direct_dependencies _ _) eqn:Hdep; [|by intros [= <- <-]].
  destruct (dependent_txs s !! k) as [v|] eqn:Hk; [|by intros [= <- <-]].
  assert (m !! k = Some v) as Hm by (eapply lookup_weaken; [exact Hk|apply Hok]).
  pose proof (m_keys k v Hm) as Hid.
  assert (extends s (drop_dependent s k)) as Hext by (split; [apply delete_subseteq|split; auto]).
  pose proof (drop_dependent_ok s k Hok) as Hok1.
  destruct (negb (pays_conventional_fee v)); [by intros [= <- <-]; eauto|].
  destruct (try_update_block_template_limits v (limits (drop_dependent s k))) as [l|] eqn:Hl; [|by intros [= <- <-]; eauto].
  intros [= <- <-]. split; [|split].
  - apply select_one_ok; try done; rewrite Hid; [done|by apply lookup_delete_eq|..].
    + intros (w & Hw & Hin)%list_elem_of_fmap. cbn in Hin. apply (so_disjoint s Hok) in Hin. congruence.
    + intros p Hp. cbn. by eapply has_direct_dependencies_true; [apply Hok|exact Hdep|].
  - split; [apply delete_subseteq|]. cbn. split; [|intros w Hw; apply elem_of_app; by left].
    intros w [Hw| ->%list_elem_of_singleton]%elem_of_app; [auto|]. right. congruence.
  - right. cbn. rewrite map_size_delete_Some by done.
    assert (size (dependent_txs s) <> 0%nat); [|lia]. apply map_size_ne_0_lookup. eauto.
Qed.

Lemma try_level_ok ids s next s' next' : sel_ok s -> foldl (try_dependent d) (s, next) ids = (s', next') ->
  sel_ok s' /\ extends s s' /\ (next' = next \/ (size (dependent_txs s') < size (dependent_txs s))%nat).
Proof.
  revert s next. induction ids as [|k ids IH]; intros s next Hok; cbn [foldl].
  { intros [= <- <-]. split; [done|]. split; [apply extends_refl|by left]. }
  destruct (try_dependent d (s, next) k) as [s1 next1] eqn:H1. apply try_dependent_ok in H1 as (Hok1 & He1 & Hn1); [|done].
  intros (Hok' & He' & Hn')%IH; [|done]. split; [done|]. split; [by eapply selection_trans|].
  pose proof (map_subseteq_size _ _ (proj1 He')). pose proof (map_subseteq_size _ _ (proj1 He1)).
  destruct Hn1 as [->|Hn1]; [|right; lia]. destruct Hn' as [->|Hn']; [by left|right; lia].
Qed.

Lemma select_levels_ok fuel s level : sel_ok s -> sel_ok (select_levels fuel d s level) /\ extends s (select_levels fuel d s level).
Proof.
  revert s level. induction fuel as [|fuel IH]; intros s level Hok; cbn [select_levels]; [split; [done|apply extends_refl]|].
  case_decide; [split; [done|apply extends_refl]|]. destruct (foldl _ _ _) as [s1 next] eqn:Hf.
  apply try_level_ok in Hf as (Hok1 & He1 & _); [|done]. destruct (IH s1 next Hok1) as [? ?]. split; [done|by eapply selection_trans].
Qed.

(** More steps than given change nothing. *)
Lemma select_levels_enough fuel fuel' s level : sel_ok s -> (size (dependent_txs s) < fuel)%nat -> (fuel <= fuel')%nat ->
  select_levels fuel' d s level = select_levels fuel d s level.
Proof.
  revert fuel' s level. induction fuel as [|fuel IH]; intros fuel' s level Hok Hf Hle; [lia|].
  destruct fuel' as [|fuel']; [lia|]. cbn [select_levels]. case_decide as Hl; [done|].
  destruct (foldl _ _ _) as [s1 next] eqn:Hs. apply try_level_ok in Hs as (Hok1 & He1 & [->|Hn]); [|apply IH; [done|lia|lia]|done].
  destruct fuel, fuel'; cbn [select_levels]; try done; by rewrite decide_True.
Qed.

(** What is still to be drawn. *)
Definition candidates_ok (candidate_txs : list VerifiedUnminedTx) s : Prop :=
  NoDup (tx_id <$> candidate_txs)
  /\ forall v, v ∈ candidate_txs -> m !! tx_id v = Some v /\ dependencies d !! tx_id v = None
     /\ (tx_id v ∉ tx_id <$> selected_txs s) /\ dependent_txs s !! tx_id v = None.

Lemma swap_remove_perm {A} i (l : list A) x l' : swap_remove i l = Ok (x, l') -> l ≡ₚ x :: l'.
Proof.
  unfold swap_remove. intros (y & Hy%unwrap_Ok & [= -> <-])%bind_Ok_inv.
  destruct l as [|z l _] using rev_ind; [done|]. rewrite last_snoc, length_app. cbn [length].
  replace (length l + 1 - 1)%nat with (length l) by lia. rewrite take_app_length.
  apply lookup_snoc_Some in Hy as [[Hi Hx]|[-> ->]].
  - rewrite (insert_take_drop l i z) by done. rewrite <- (take_drop_middle l i x Hx) at 1.
    rewrite <- app_assoc, <- app_comm_cons, <- Permutation_middle. constructor. apply Permutation_app_head.
    symmetry. apply Permutation_cons_append.
  - rewrite list_insert_ge by lia. by rewrite <- Permutation_cons_append.
Qed.

Lemma swap_remove_Ok {A} i (l : list A) : (i < length l)%nat -> exists x l', swap_remove i l = Ok (x, l').
Proof. intros [x Hx]%lookup_lt_is_Some_2. unfold swap_remove. rewrite Hx. cbn. eauto. Qed.

Context `{BuildProfile} `{FeeWeightedIndex}.

Lemma checked_add_ok cands s cands' s' : sel_ok s -> candidates_ok cands s ->
  checked_add_transaction_weighted_random d cands s = Ok (cands', s') ->
  sel_ok s' /\ candidates_ok cands' s' /\ dependent_txs s' ⊆ dependent_txs s
  /\ (forall v, v ∈ selected_txs s' -> v ∈ selected_txs s \/ v ∈ cands \/ dependent_txs s !! tx_id v = Some v)
  /\ (forall v, v ∈ selected_txs s -> v ∈ selected_txs s')
  /\ exists v, cands ≡ₚ v :: cands' /\ (v ∈ selected_txs s' \/ try_update_block_template_limits v (limits s) = None).
Proof.
  intros Hok [Hnd Hc]. unfold checked_add_transaction_weighted_random.
  intros ([v rest] & Hs & Hr)%bind_Ok_inv. apply swap_remove_perm in Hs as Hperm.
  assert (NoDup (tx_id <$> v :: rest)) as Hnd' by by rewrite <- Hperm. rewrite fmap_cons, NoDup_cons in Hnd'. destruct Hnd' as [Hv Hnd'].
  destruct (Hc v) as (Hm & Hdv & Hnv & Hdt); [rewrite Hperm; by left|].
  assert (forall w, w ∈ rest -> w ∈ cands) as Hsub by (intros w Hw; rewrite Hperm; by right).
  destruct (try_update_block_template_limits v (limits s)) as [l|] eqn:Hl.
  2: { injection Hr as <- <-. split; [done|]. split; [by split; auto|]. split; [done|]. split; [auto|]. split; [auto|]. exists v. auto. }
  apply bind_Ok_inv in Hr as (u & _ & [= <- <-]).
  assert (sel_ok (select_one s v l)) as Hok1.
  { apply select_one_ok; try done. unfold direct_dependencies. rewrite Hdv. cbn. intros p Hp. by apply not_elem_of_empty in Hp. }
  edestruct (select_levels_ok (S (size (dependent_txs s))) (select_one s v l) (direct_dependents d (mined_id (vs_id v))) Hok1)
    as [Hok' (Hd' & Hs' & Hkeep)].
  cbn [dependent_txs select_one] in *. fold (tx_id v) in *.
  assert (forall w, w ∈ selected_txs (select_levels (S (size (dependent_txs s))) d (select_one s v l) (direct_dependents d (tx_id v))) ->
    w ∈ selected_txs s \/ w = v \/ dependent_txs s !! tx_id w = Some w) as Hnew.
  { intros w [Hw|Hw]%Hs'; [|auto]. cbn in Hw. apply elem_of_app in Hw as [?|Hw%list_elem_of_singleton]; auto. }
  split; [done|]. split; [split; [done|]|split; [done|split; [|split]]].
  - intros w Hw. destruct (Hc w (Hsub w Hw)) as (Hmw & Hdw & Hnw & Hdtw). split; [done|]. split; [done|]. split.
    + intros (x & Hx & [Hin|[->|Hin]]%Hnew)%list_elem_of_fmap.
      * apply Hnw. rewrite Hx. by apply list_elem_of_fmap_2.
      * apply Hv. rewrite <- Hx. by apply list_elem_of_fmap_2.
      * congruence.
    + by eapply lookup_weaken_None.
  - intros w [?|[->|?]]%Hnew; [auto| |auto]. right. left. rewrite Hperm. by left.
  - intros w Hw. apply Hkeep, elem_of_app. by left.
  - exists v. split; [done|]. left. apply Hkeep, elem_of_app. right. by apply list_elem_of_singleton.
Qed.

Lemma select_loop_ok fuel cands s s' : sel_ok s -> candidates_ok cands s -> select_loop fuel d cands s = Ok s' ->
  sel_ok s' /\ dependent_txs s' ⊆ dependent_txs s
  /\ (forall v, v ∈ selected_txs s' -> v ∈ selected_txs s \/ v ∈ cands \/ dependent_txs s !! tx_id v = Some v)
  /\ (forall v, v ∈ selected_txs s -> v ∈ selected_txs s').
Proof.
  revert cands s. induction fuel as [|fuel IH]; intros cands s Hok Hc; cbn [select_loop].
  all: destruct (setup_fee_weighted_index cands); [|intros [= <-]; auto 10].
  { done. }
  intros ([cands1 s1] & Ha & Hr)%bind_Ok_inv.
  apply checked_add_ok in Ha as (Hok1 & Hc1 & Hd1 & Hn1 & Hk1 & v & Hp & _); [|done..].
  apply IH in Hr as (Hok' & Hd' & Hn' & Hk'); [|done..]. split; [done|]. split; [by etrans|]. split; [|auto].
  intros w [?|[Hw|Hw]]%Hn'; [auto| |].
  - right. left. rewrite Hp. by right.
  - right. right. by eapply lookup_weaken.
Qed.

Definition index_ok : Prop := forall l, l <> [] -> weights_valid l = true -> (index_sample l < length l)%nat.

Lemma checked_add_total cands s : index_ok -> candidates_ok cands s -> setup_fee_weighted_index cands = true ->
  exists r, checked_add_transaction_weighted_random d cands s = Ok r.
Proof.
  intros Hi [Hnd Hc] Hs. unfold checked_add_transaction_weighted_random.
  assert (index_sample cands < length cands)%nat as Hlt by (apply Hi; by destruct cands).
  destruct (swap_remove_Ok _ _ Hlt) as (v & rest & Hsw). rewrite Hsw. cbn [mbind res_bind].
  apply swap_remove_perm in Hsw. destruct (Hc v) as (_ & Hd & _); [rewrite Hsw; by left|]. fold (tx_id v).
  rewrite (bool_decide_eq_true_2 _ Hd), orb_true_r. cbn [assert_ mbind res_bind].
  destruct (try_update_block_template_limits _ _); eauto.
Qed.

Lemma select_loop_total fuel cands s : index_ok -> sel_ok s -> candidates_ok cands s -> (length cands <= fuel)%nat ->
  exists s', select_loop fuel d cands s = Ok s'.
Proof.
  intros Hi. revert cands s. induction fuel as [|fuel IH]; intros cands s Hok Hc Hf; cbn [select_loop].
  { destruct cands; [cbn; eauto|cbn in Hf; lia]. }
  destruct (setup_fee_weighted_index cands) eqn:Hs; [|eauto].
  destruct (checked_add_total cands s Hi Hc Hs) as [[cands1 s1] Ha]. rewrite Ha. cbn [mbind res_bind].
  apply checked_add_ok in Ha as (Hok1 & Hc1 & _ & _ & _ & v & Hp & _); [|done..]. apply IH; [done..|].
  rewrite Hp in Hf. cbn in Hf. lia.
Qed.

Lemma selected_sum (f : VerifiedUnminedTx -> Z) s v : (forall k v, m !! k = Some v -> 0 <= f v) -> sel_ok s ->
  m !! tx_id v = Some v -> (tx_id v ∉ tx_id <$> selected_txs s) -> sum_Z f (selected_txs s) + f v <= txs_sum f m.
Proof.
  intros Hf Hok Hv Hn. set (pair_of := fun w => (tx_id w, w)).
  assert ((pair_of <$> selected_txs s ++ [v]) ⊆+ map_to_list m) as [rest Hr]%submseteq_Permutation.
  { apply NoDup_submseteq.
    - apply (NoDup_fmap_1 fst). rewrite <- list_fmap_compose. change (fst ∘ pair_of) with tx_id. rewrite fmap_app.
      apply NoDup_app. split; [apply Hok|]. split; [|apply NoDup_singleton]. intros x Hx. cbn. rewrite list_elem_of_singleton. by intros ->.
    - intros [k w] (x & [= -> ->] & Hx)%list_elem_of_fmap. apply elem_of_map_to_list.
      apply elem_of_app in Hx as [Hx| ->%list_elem_of_singleton]; [by apply Hok|done]. }
  unfold txs_sum. rewrite Hr, sum_Z_app, sum_Z_fmap. change ((fun e => f e.2) ∘ pair_of) with f. rewrite sum_Z_app. cbn.
  enough (0 <= sum_Z (fun e => f e.2) rest) by lia. apply sum_Z_nonneg, Forall_forall. intros [k w] Hin. cbn.
  apply (Hf k). apply elem_of_map_to_list. rewrite Hr. apply elem_of_app. by right.
Qed.

(** There is room for the whole mempool. *)
Definition all_fit : Prop :=
  (forall k v, m !! k = Some v -> 0 <= vs_size v /\ 0 <= vu_sigops v /\ 0 <= vu_unpaid_actions v)
  /\ txs_sum vs_size m <= remaining_block_bytes l0 /\ txs_sum vu_sigops m <= remaining_block_sigops l0
  /\ txs_sum vu_unpaid_actions m <= remaining_block_unpaid_actions l0.

Lemma fits s v : all_fit -> sel_ok s -> m !! tx_id v = Some v -> (tx_id v ∉ tx_id <$> selected_txs s) ->
  try_update_block_template_limits v (limits s) <> None.
Proof.
  intros (Hf & Hb & Hs & Hu) Hok Hv Hn. destruct (so_limits s Hok) as (Hl1 & _ & Hl2 & _ & Hl3 & _).
  pose proof (selected_sum vs_size s v (fun k v Hk => proj1 (Hf k v Hk)) Hok Hv Hn).
  pose proof (selected_sum vu_sigops s v (fun k v Hk => proj1 (proj2 (Hf k v Hk))) Hok Hv Hn).
  pose proof (selected_sum vu_unpaid_actions s v (fun k v Hk => proj2 (proj2 (Hf k v Hk))) Hok Hv Hn).
  unfold try_update_block_template_limits.
  replace (_ && _) with true; [done|]. symmetry. rewrite !andb_true_iff, !Z.leb_le. lia.
Qed.

Lemma select_loop_all fuel cands s s' : all_fit -> (forall l, l <> [] -> weights_valid l = true) ->
  sel_ok s -> candidates_ok cands s -> select_loop fuel d cands s = Ok s' -> forall v, v ∈ cands -> v ∈ selected_txs s'.
Proof.
  intros Hfit Hw. revert cands s. induction fuel as [|fuel IH]; intros cands s Hok Hc; cbn [select_loop].
  all: destruct (setup_fee_weighted_index cands) eqn:Hs;
    [|intros [= <-] v Hv; destruct cands as [|c cands]; [by apply elem_of_nil in Hv|unfold setup_fee_weighted_index in Hs; by rewrite Hw in Hs]].
  { done. }
  intros ([cands1 s1] & Ha & Hr)%bind_Ok_inv v Hv.
  apply checked_add_ok in Ha as (Hok1 & Hc1 & _ & _ & _ & w & Hp & Hsel); [|done..].
  rewrite Hp in Hv. apply elem_of_cons in Hv as [->|Hv]; [|by eapply IH].
  apply (select_loop_ok fuel cands1 s1 s' Hok1 Hc1 Hr). destruct Hsel as [?|Hnone]; [done|].
  destruct (proj2 Hc w) as (Hm & _ & Hn & _); [rewrite Hp; by left|]. by apply fits in Hnone.
Qed.
End Selected.

Section Template.
Context `{BuildProfile} `{FeeWeightedIndex}.

Definition by_id (mempool_txs : list VerifiedUnminedTx) : gmap bytes VerifiedUnminedTx :=
  foldl (fun m tx => <[mined_id (vs_id tx) := tx]> m) ∅ mempool_txs.

Lemma by_id_Some l k v : by_id l !! k = Some v -> v ∈ l /\ tx_id v = k.
Proof.
  unfold by_id. induction l as [|x l IH] using rev_ind; [done|]. rewrite foldl_app. cbn.
  intros [[<- <-]|[_ Hk]]%lookup_insert_Some.
  - split; [|done]. apply elem_of_app. right. by apply list_elem_of_singleton.
  - apply IH in Hk as [? ?]. split; [|done]. apply elem_of_app. by left.
Qed.
Lemma by_id_NoDup l v : NoDup (tx_id <$> l) -> v ∈ l -> by_id l !! tx_id v = Some v.
Proof.
  unfold by_id. induction l as [|x l IH] using rev_ind; [by intros _ ?%elem_of_nil|]. rewrite foldl_app, fmap_app. cbn.
  intros (Hnd & Hdis & _)%NoDup_app [Hv|Hv%list_elem_of_singleton]%elem_of_app.
  - rewrite lookup_insert_ne; [auto|]. intros He. apply (Hdis (tx_id v)); [by apply list_elem_of_fmap_2|].
    apply list_elem_of_singleton. symmetry. exact He.
  - subst. by rewrite lookup_insert_eq.
Qed.

Lemma values_NoDup (l : list VerifiedUnminedTx) (P : bytes * VerifiedUnminedTx -> Prop) `{forall e, Decision (P e)} :
  let cands := snd <$> map_to_list (filter P (by_id l)) in
  NoDup (tx_id <$> cands) /\ forall v, v ∈ cands <-> by_id l !! tx_id v = Some v /\ P (tx_id v, v).
Proof.
  cbn zeta. assert (forall k v, (k, v) ∈ map_to_list (filter P (by_id l)) <-> by_id l !! k = Some v /\ P (k, v)) as Hin.
  { intros k v. by rewrite elem_of_map_to_list, map_lookup_filter_Some. }
  split.
  - assert (tx_id <$> (snd <$> map_to_list (filter P (by_id l))) = fst <$> map_to_list (filter P (by_id l))) as ->.
    { rewrite <- list_fmap_compose. apply list_fmap_ext. intros i [k v] Hi%list_elem_of_lookup_2. cbn.
      apply Hin in Hi as [Hk _]. by apply by_id_Some in Hk as [_ ?]. }
    apply NoDup_fst_map_to_list.
  - intros v. rewrite list_elem_of_fmap. split.
    + intros ([k w] & -> & [Hk Hp]%Hin). cbn. by destruct (by_id_Some _ _ _ Hk) as [_ ->].
    + intros [Hk Hp]. exists (tx_id v, v). split; [done|]. by apply Hin.
Qed.

Lemma NoDup_fmap_filter {A B} (f : A -> B) (P : A -> Prop) `{forall x, Decision (P x)} l : NoDup (f <$> l) -> NoDup (f <$> filter P l).
Proof.
  induction l as [|x l IH]; [done|]. rewrite fmap_cons, NoDup_cons, filter_cons. intros [Hx Hl]. case_decide; [|auto].
  rewrite fmap_cons, NoDup_cons. split; [|auto]. intros (y & Hy & [_ Hin]%list_elem_of_filter)%list_elem_of_fmap.
  apply Hx. rewrite Hy. by apply list_elem_of_fmap_2.
Qed.

(** The two loops of the selection, started with the limits [l0]. *)
Lemma select_loops l0 mempool_txs d : index_ok ->
  0 <= remaining_block_bytes l0 -> 0 <= remaining_block_sigops l0 -> 0 <= remaining_block_unpaid_actions l0 ->
  let m := by_id mempool_txs in
  let cands := snd <$> map_to_list (filter (fun e => dependencies d !! e.1 = None) m) in
  let conventional := filter (fun tx => pays_conventional_fee tx = true) cands in
  let low := filter (fun tx => pays_conventional_fee tx = false) cands in
  exists s1 s2, select_loop (length conventional) d conventional (mkSelection (filter (fun e => dependencies d !! e.1 <> None) m) [] l0) = Ok s1
    /\ select_loop (length low) d low s1 = Ok s2 /\ sel_ok m d l0 s2
    /\ (all_fit m l0 -> (forall l, l <> [] -> weights_valid l = true) ->
        forall v, m !! tx_id v = Some v -> dependencies d !! tx_id v = None -> v ∈ selected_txs s2).
Proof.
  cbn zeta. intros Hi H1 H2 H3. set (m := by_id mempool_txs). set (cands := snd <$> _).
  set (s0 := mkSelection _ [] l0). set (conventional := filter _ cands). set (low := filter (fun tx => _ = false) cands).
  assert (forall k v, m !! k = Some v -> tx_id v = k) as Hkeys by (intros k v Hk; by apply by_id_Some in Hk as [_ ?]).
  destruct (values_NoDup mempool_txs (fun e => dependencies d !! e.1 = None)) as [Hnd Hin]. fold m cands in Hnd, Hin. cbn [fst] in Hin.
  assert (forall v, dependencies d !! tx_id v = None -> dependent_txs s0 !! tx_id v = None) as Hdep0.
  { intros v Hv. apply map_lookup_filter_None. right. intros x _ Hn. by apply Hn. }
  assert (sel_ok m d l0 s0) as Hok0.
  { split; cbn; try done.
    - constructor.
    - by intros v ?%elem_of_nil.
    - intros l1 v l2 p He. by destruct l1.
    - apply map_filter_subseteq.
    - by intros v ?%elem_of_nil.
    - unfold limits_left. cbn. lia. }
  assert (candidates_ok m d conventional s0) as Hc0.
  { split; [by apply NoDup_fmap_filter|]. intros v [_ Hv]%list_elem_of_filter. apply Hin in Hv as [Hm Hd].
    split; [done|]. split; [done|]. split; [apply not_elem_of_nil|auto]. }
  destruct (select_loop_total m d l0 Hkeys (length conventional) conventional s0 Hi Hok0 Hc0 (le_n _)) as [s1 Hs1].
  destruct (select_loop_ok m d l0 Hkeys _ _ _ _ Hok0 Hc0 Hs1) as (Hok1 & Hd1 & Hn1 & _).
  assert (candidates_ok m d low s1) as Hc1.
  { split; [by apply NoDup_fmap_filter|]. intros v [Hlow Hv]%list_elem_of_filter. apply Hin in Hv as [Hm Hd].
    split; [done|]. split; [done|]. split; [|eapply lookup_weaken_None; [|exact Hd1]; auto].
    intros (w & Hw & [Hx|[Hx|Hx]]%Hn1)%list_elem_of_fmap.
    - by apply elem_of_nil in Hx.
    - apply list_elem_of_filter in Hx as [Hpay Hx]. apply Hin in Hx as [Hmw _]. rewrite <- Hw in Hmw. congruence.
    - rewrite <- Hw, Hdep0 in Hx by done. done. }
  destruct (select_loop_total m d l0 Hkeys (length low) low s1 Hi Hok1 Hc1 (le_n _)) as [s2 Hs2].
  destruct (select_loop_ok m d l0 Hkeys _ _ _ _ Hok1 Hc1 Hs2) as (Hok2 & _ & _ & Hk2).
  exists s1, s2. split; [done|]. split; [done|]. split; [done|]. intros Hfit Hw v Hm Hd.
  assert (v ∈ cands) as Hv by by apply Hin. destruct (pays_conventional_fee v) eqn:Hpay.
  - apply Hk2. eapply (select_loop_all m d l0 Hkeys); [done|done|exact Hok0|exact Hc0|exact Hs1|]. by apply list_elem_of_filter.
  - eapply (select_loop_all m d l0 Hkeys); [done|done|exact Hok1|exact Hc1|exact Hs2|]. by apply list_elem_of_filter.
Qed.

Lemma by_id_sum (f : VerifiedUnminedTx -> Z) l : NoDup (tx_id <$> l) -> txs_sum f (by_id l) = sum_Z f l.
Proof.
  unfold by_id. induction l as [|x l IH] using rev_ind; intros Hnd; [done|]. rewrite foldl_app, sum_Z_app. cbn.
  rewrite fmap_app in Hnd. apply NoDup_app in Hnd as (Hnd & Hdis & _). rewrite txs_sum_insert.
  - rewrite IH by done. lia.
  - fold (by_id l). destruct (by_id l !! mined_id (vs_id x)) eqn:Hk; [|done]. apply by_id_Some in Hk as [Hin Hk].
    destruct (Hdis (tx_id x)); [|by apply list_elem_of_singleton]. unfold tx_id at 1. rewrite <- Hk. by apply list_elem_of_fmap_2.
Qed.

(** The selection with a placeholder coinbase that fits. *)
Lemma selection_ok fake_size fake_sigops mempool_txs d :
  index_ok -> 0 <= fake_size <= MAX_BLOCK_BYTES -> 0 <= fake_sigops <= MAX_BLOCK_SIGOPS ->
  let l0 := mkBlockLimits (MAX_BLOCK_BYTES - fake_size) (MAX_BLOCK_SIGOPS - fake_sigops) BLOCK_UNPAID_ACTION_LIMIT in
  exists s, select_mempool_transactions fake_size fake_sigops mempool_txs d = Ok (selected_txs s) /\ sel_ok (by_id mempool_txs) d l0 s
    /\ (all_fit (by_id mempool_txs) l0 -> (forall l, l <> [] -> weights_valid l = true) ->
        forall v, by_id mempool_txs !! tx_id v = Some v -> dependencies d !! tx_id v = None -> v ∈ selected_txs s).
Proof.
  intros Hi Hsz Hsg l0. unfold select_mempool_transactions. fold (by_id mempool_txs).
  rewrite !arith_u_in by (unfold MAX_BLOCK_BYTES, MAX_BLOCK_SIGOPS in *; lia). cbn [mbind res_bind]. fold l0.
  destruct (select_loops l0 mempool_txs d Hi) as (s1 & s2 & -> & Hs2 & Hok & Hall);
    [cbn; lia|cbn; lia|cbn; unfold BLOCK_UNPAID_ACTION_LIMIT; lia|]. cbn [mbind res_bind]. rewrite Hs2. exists s2. done.
Qed.

(** C18. For every draw of candidates the selection for a block template
    returns transactions of the mempool, none of them twice, each one after
    all the transactions it depends on, and together with the placeholder
    coinbase within the limits on bytes and signature operations and without
    unpaid actions. If the whole mempool fits and all weights are valid, every
    transaction without recorded dependencies is selected. *)
Theorem template_selection fake_size fake_sigops mempool_txs d :
  index_ok -> NoDup (tx_id <$> mempool_txs) -> 0 <= fake_size <= MAX_BLOCK_BYTES -> 0 <= fake_sigops <= MAX_BLOCK_SIGOPS ->
  exists selected, select_mempool_transactions fake_size fake_sigops mempool_txs d = Ok selected
    /\ (forall v, v ∈ selected -> v ∈ mempool_txs) /\ NoDup (tx_id <$> selected) /\ deps_first d selected
    /\ fake_size + sum_Z vs_size selected <= MAX_BLOCK_BYTES
    /\ fake_sigops + sum_Z vu_sigops selected <= MAX_BLOCK_SIGOPS
    /\ sum_Z vu_unpaid_actions selected <= BLOCK_UNPAID_ACTION_LIMIT
    /\ ((forall l, l <> [] -> weights_valid l = true) ->
        (forall v, v ∈ mempool_txs -> 0 <= vs_size v /\ 0 <= vu_sigops v /\ vu_unpaid_actions v = 0) ->
        fake_size + sum_Z vs_size mempool_txs <= MAX_BLOCK_BYTES -> fake_sigops + sum_Z vu_sigops mempool_txs <= MAX_BLOCK_SIGOPS ->
        forall v, v ∈ mempool_txs -> dependencies d !! tx_id v = None -> v ∈ selected).
Proof.
  intros Hi Hnd Hsz Hsg. destruct (selection_ok fake_size fake_sigops mempool_txs d Hi Hsz Hsg) as (s & -> & Hok & Hall).
  exists (selected_txs s). split; [done|]. split; [|split; [apply Hok|split; [apply Hok|]]].
  { intros v Hv. apply (so_mempool _ _ _ _ Hok), by_id_Some in Hv as [? _]. done. }
  destruct (so_limits _ _ _ _ Hok) as (Hb & ? & Hg & ? & Hu & ?). cbn in Hb, Hg, Hu.
  split; [lia|]. split; [lia|]. split; [lia|]. intros Hw Hpos Hfb Hfs v Hv Hd.
  apply Hall; [|done|by apply by_id_NoDup|done].
  split; [|rewrite !by_id_sum by done; cbn; split; [lia|split; [lia|]]].
  - intros k w [Hin _]%by_id_Some. destruct (Hpos w Hin) as (? & ? & ?). lia.
  - rewrite (sum_Z_ext _ (fun _ => 0)) by (intros w Hin; apply (Hpos w Hin)). unfold BLOCK_UNPAID_ACTION_LIMIT.
    clear. induction mempool_txs; cbn; lia.
Qed.

(** C21. Clearing the dependencies on mined transactions keeps them: whatever
    ids are mined, a transaction that depends on one that is not in the mempool,
    as after its parent was mined, is not selected for a template. *)
Theorem mined_parent_blocks_child fake_size fake_sigops mempool_txs d mined_ids parent child :
  index_ok -> 0 <= fake_size <= MAX_BLOCK_BYTES -> 0 <= fake_sigops <= MAX_BLOCK_SIGOPS ->
  parent ∈ direct_dependencies d child -> parent <> child -> (parent ∉ tx_id <$> mempool_txs) ->
  exists selected, select_mempool_transactions fake_size fake_sigops mempool_txs (clear_mined_dependencies d mined_ids) = Ok selected
    /\ (child ∉ tx_id <$> selected).
Proof.
  intros Hi Hsz Hsg Hdep Hne Hgone.
  destruct (selection_ok fake_size fake_sigops mempool_txs (clear_mined_dependencies d mined_ids) Hi Hsz Hsg) as (s & -> & Hok & _).
  exists (selected_txs s). split; [done|]. intros (v & Hv & Hin)%list_elem_of_fmap.
  destruct (clear_mined_dependencies_keep d mined_ids child) as [Hsame _].
  assert (parent ∈ direct_dependencies (clear_mined_dependencies d mined_ids) (tx_id v)) as Hp.
  { rewrite <- Hv. assert (parent ∈ direct_dependencies d child ∪ {[child]}) as Hu by set_solver. rewrite <- Hsame in Hu. set_solver. }
  apply list_elem_of_split in Hin as (l1 & l2 & Hl). pose proof (so_deps _ _ _ _ Hok l1 v l2 parent Hl Hp) as Hpar.
  apply list_elem_of_fmap in Hpar as (w & Hw & Hwin). apply Hgone. rewrite Hw. apply list_elem_of_fmap_2.
  assert (w ∈ selected_txs s) as Hws by (rewrite Hl; set_solver). by apply (so_mempool _ _ _ _ Hok), by_id_Some in Hws as [? _].
Qed.
End Template.

Module SelectionExample.
Import MempoolExample.
#[local] Existing Instance release_build.
#[local] Instance first_index : FeeWeightedIndex := {| weights_valid := fun _ => true; index_sample := fun _ => 0%nat |}.

Lemma first_index_ok : index_ok.
Proof. intros [|v l] Hl _; [done|]. cbn. lia. Qed.

Definition both : TransactionDependencies := transaction_dependencies (verified with_both).

(** The child comes after its parent. *)
Lemma template_selection_witness :
  exists selected, select_mempool_transactions 100 0 [child; parent] both = Ok selected /\ deps_first both selected
    /\ parent ∈ selected /\ (tx_id <$> selected) = [parent_id; child_id].
Proof.
  destruct (template_selection 100 0 [child; parent] both) as (selected & Hs & _ & _ & Hd & _ & _ & _ & Hall).
  - exact first_index_ok.
  - apply (bool_decide_eq_true_1 (NoDup (tx_id <$> [child; parent]))). vm_compute. reflexivity.
  - vm_compute. split; discriminate.
  - vm_compute. split; discriminate.
  - exists selected. split; [exact Hs|]. split; [exact Hd|]. split.
    + apply Hall.
      * reflexivity.
      * intros v Hv. rewrite elem_of_cons, list_elem_of_singleton in Hv.
        destruct Hv as [-> | ->]; (split; [vm_compute; discriminate|split; [vm_compute; discriminate|reflexivity]]).
      * vm_compute. discriminate.
      * vm_compute. discriminate.
      * right. left.
      * vm_compute. reflexivity.
    + assert (match select_mempool_transactions 100 0 [child; parent] both with Ok l => tx_id <$> l | _ => [] end = [parent_id; child_id]) as He
        by (vm_compute; reflexivity).
      rewrite Hs in He. exact He.
Defined.

(** The parent was mined: the child stays in the mempool and is not selected. *)
Lemma mined_parent_blocks_child_witness :
  exists selected, select_mempool_transactions 100 0 [child] (clear_mined_dependencies both {[parent_id]}) = Ok selected
    /\ (child_id ∉ tx_id <$> selected).
Proof.
  apply (mined_parent_blocks_child 100 0 [child] both {[parent_id]} parent_id child_id).
  - exact first_index_ok.
  - vm_compute. split; discriminate.
  - vm_compute. split; discriminate.
  - apply (bool_decide_eq_true_1 (parent_id ∈ direct_dependencies both child_id)). vm_compute. reflexivity.
  - discriminate.
  - apply (bool_decide_eq_true_1 (parent_id ∉ tx_id <$> [child])). vm_compute. reflexivity.
Defined.
End SelectionExample.
