(* ===== verification/TemplateBlock.v ===== *)
(** The block template of a miner and the block that is proposed from it: the
    coinbase transaction ([zebra-rpc/src/methods/types/get_block_template.rs],
    [zebra-chain/src/transaction/builder.rs]), the roots of the header
    ([default_roots.rs]), the template ([BlockTemplateResponse::new_internal],
    [types/transaction.rs]) and the proposal ([proposal.rs]).

    A transaction template holds the transaction itself where the code has its
    serialization. The script of the miner's address is an argument: the address
    is a type of a third-party crate. The hash of two authorizing data nodes is
    BLAKE2b and a parameter. *)
From S2P Require Import Prelude Serialization Height Amount ValueBalance Difficulty Merkle FundingStreams NetworkUpgrade Subsidy BlockHeader Transaction TransparentWire BlockCommitment ChainIndexes Chain ContextChecks AdjustedDifficulty TransactionVerifier BlockVerifier Mempool MempoolStorage BlockTemplate LongPoll TemplateTime.
From stdpp Require Import strings gmap sorting prelude.
From Stdlib Require Import ZArith Lia.
#[local] Open Scope Z_scope.
Implicit Types v : VerifiedUnminedTx.

Class AuthDataHash := auth_data_hash : bytes -> bytes -> bytes.

Definition AUTH_DIGEST_PLACEHOLDER : bytes := replicate 32 Byte.xff.
Definition id_auth_digest (id : UnminedTxId) : option bytes :=
  match id with Legacy _ => None | Witnessed _ auth_digest => Some auth_digest end.

Record TransactionTemplate := mkTransactionTemplate {
  tt_data : Transaction;
  tt_hash : bytes;
  tt_auth_digest : bytes;
  tt_depends : list Z;
  tt_fee : Z;
  tt_sigops : Z;
  tt_required : bool
}.
Record DefaultRoots := mkDefaultRoots {
  dr_merkle_root : bytes;
  dr_chain_history_root : bytes;
  dr_auth_data_root : bytes;
  dr_block_commitments_hash : bytes
}.

Record BlockTemplateResponse := mkBlockTemplateResponse {
  bt_version : Z;
  bt_previous_block_hash : bytes;
  bt_block_commitments_hash : bytes;
  bt_light_client_root_hash : bytes;
  bt_final_sapling_root_hash : bytes;
  bt_default_roots : DefaultRoots;
  bt_transactions : list TransactionTemplate;
  bt_coinbase_txn : TransactionTemplate;
  bt_long_poll_id : LongPollId;
  bt_target : Z;
  bt_min_time : Z;
  bt_sigop_limit : Z;
  bt_size_limit : Z;
  bt_cur_time : Z;
  bt_bits : Z;
  bt_height : Z;
  bt_max_time : Z;
  bt_submit_old : option bool;
  bt_fat_pointer_to_bft_block : FatPointerToBftBlock
}.

(** ** The time of a proposal *)

Inductive BlockTemplateTimeSource : Type :=
| CurTime | MinTime | MaxTime | Clamped (time : Z) | ClampedNow | Raw (time : Z) | RawNow.

(** The local clock is an argument. *)
Definition time_from_template (now : Z) (source : BlockTemplateTimeSource) (template : BlockTemplateResponse) : outcome Z :=
  match source with
  | CurTime => Ok (bt_cur_time template)
  | MinTime => Ok (bt_min_time template)
  | MaxTime => Ok (bt_max_time template)
  | Clamped time => clamp time (bt_min_time template) (bt_max_time template)
  | ClampedNow => clamp now (bt_min_time template) (bt_max_time template)
  | Raw time => Ok time
  | RawNow => Ok now
  end.
Definition uses_max_time (source : BlockTemplateTimeSource) : bool :=
  match source with CurTime | MinTime => false | MaxTime | Clamped _ | ClampedNow => true | Raw _ | RawNow => false end.
Definition valid_sources : list BlockTemplateTimeSource := [CurTime; MinTime; MaxTime; ClampedNow].

Section Template.
Context `{!TxPrimitives} `{!BlockPrimitives} `{!AddressParser} `{!CommitmentOps} `{!AuthDataHash} `{BuildProfile}.

(** ** The coinbase transaction *)

Definition calculate_miner_fee (mempool_txs : list VerifiedUnminedTx) : outcome Z :=
  expect (amount_sum NonNegative (vu_miner_fee <$> mempool_txs)).

(** The amounts and addresses of the funding streams that have an address. *)
Definition stream_output (height : Z) (network : Network) (e : FundingStreamReceiver * Z) : outcome (option (Address * Z)) :=
  address ← funding_stream_address height network e.1;
  Ok (match address with Some a => Some (a, e.2) | None => None end).
Definition stream_outputs (height : Z) (network : Network) (values : gmap FundingStreamReceiver Z) : outcome (list (Address * Z)) :=
  l ← map_res (stream_output height network) (map_to_list values);
  Ok (omap (M := list) (fun o : option (Address * Z) => o) l).

Definition standard_coinbase_outputs (network : Network) (height : Z) (miner_script : option bytes) (miner_fee : Z)
    : outcome (list (Z * bytes)) :=
  expected_block_subsidy ← expect (block_subsidy height network);
  values ← expect (funding_stream_values height network expected_block_subsidy);
  funding_streams ← stream_outputs height network values;
  subsidy ← expect (miner_subsidy height network expected_block_subsidy);
  miner_reward ← expect (amount_add NonNegative subsidy miner_fee);
  one_time_lockbox_disbursements ← lockbox_disbursements network height;
  let coinbase_outputs := (fun e : Address * Z => (e.2, address_script e.1)) <$> (funding_streams ++ one_time_lockbox_disbursements) in
  script ← unwrap miner_script;
  Ok ((miner_reward, script) :: stable_sort (fun a b => bytes_leb a.2 b.2) coinbase_outputs).

Definition new_coinbase_output (e : Z * bytes) : Output := mkOutput e.1 e.2.

Definition new_v5_coinbase (network : Network) (height : Z) (outputs : list (Z * bytes)) (miner_data : bytes) : outcome Transaction :=
  input ← new_coinbase_input height miner_data None;
  let outputs := new_coinbase_output <$> outputs in
  _ ← assert_ (negb (bool_decide (outputs = [])));
  nu ← nu_current network height;
  Ok (V5 nu (LockHeight 0) height [input] outputs None None).

Definition new_v4_coinbase (height : Z) (outputs : list (Z * bytes)) (miner_data : bytes) : outcome Transaction :=
  input ← new_coinbase_input height miner_data (Some u32_MAX);
  let outputs := new_coinbase_output <$> outputs in
  _ ← assert_ (negb (bool_decide (outputs = [])));
  Ok (V4 [input] outputs (LockHeight 0) height None None).

(** ** Transaction templates *)

Definition from_mempool_tx v : outcome TransactionTemplate :=
  let tx := vu_transaction v in
  _ ← assert_ (negb (is_coinbase (unmined_transaction tx)));
  Ok (mkTransactionTemplate (unmined_transaction tx) (mined_id (unmined_id_ tx))
        (default AUTH_DIGEST_PLACEHOLDER (id_auth_digest (unmined_id_ tx))) [] (vu_miner_fee v) (vu_sigops v) false).

Definition from_coinbase (tx : UnminedTx) (miner_fee : Z) : outcome TransactionTemplate :=
  _ ← assert_ (is_coinbase (unmined_transaction tx));
  negated ← amount_neg miner_fee;
  fee ← expect (amount_constrain NegativeOrZero negated);
  sigops ← expect (sigops (unmined_transaction tx));
  Ok (mkTransactionTemplate (unmined_transaction tx) (mined_id (unmined_id_ tx))
        (default AUTH_DIGEST_PLACEHOLDER (id_auth_digest (unmined_id_ tx))) [] fee sigops true).

(** ** The roots of the header *)

Definition calculate_default_root_hashes (coinbase_txn : UnminedTx) (mempool_txs : list VerifiedUnminedTx)
    (chain_history_root : bytes) : outcome DefaultRoots :=
  let block_txs := coinbase_txn :: (vu_transaction <$> mempool_txs) in
  merkle_root ← merkle_root_of merkle_hash ((fun tx => mined_id (unmined_id_ tx)) <$> block_txs);
  auth_data_root ← auth_data_root_of auth_data_hash
    ((fun tx => default AUTH_DIGEST_PLACEHOLDER (id_auth_digest (unmined_id_ tx))) <$> block_txs);
  let block_commitments_hash :=
    if bool_decide (chain_history_root = zero_bytes 32) then zero_bytes 32
    else from_commitments chain_history_root auth_data_root in
  Ok (mkDefaultRoots merkle_root chain_history_root auth_data_root block_commitments_hash).

Definition generate_coinbase_and_roots (network : Network) (height : Z) (miner_script : option bytes)
    (mempool_txs : list VerifiedUnminedTx) (chain_history_root : option bytes) (miner_data : bytes)
    : res string (TransactionTemplate * DefaultRoots) :=
  miner_fee ← lift (calculate_miner_fee mempool_txs);
  outputs ← lift (standard_coinbase_outputs network height miner_script miner_fee);
  nu ← lift (nu_current network height);
  tx ← (match nu with
        | Canopy => lift (new_v4_coinbase height outputs miner_data)
        | Nu5 | Nu6 | Nu6_1 | Nu7 => lift (new_v5_coinbase network height outputs miner_data)
        | _ => Err "Zebra does not support generating pre-Canopy coinbase transactions"
        end);
  tx ← lift (UnminedTx_from tx);
  chain_history_root ← unwrap
    (match chain_history_root with
     | Some root => Some root
     | None => if bool_decide (activation_height Heartwood network = Some height) then Some (zero_bytes 32) else None
     end);
  template ← lift (from_coinbase tx miner_fee);
  roots ← lift (calculate_default_root_hashes tx mempool_txs chain_history_root);
  Ok (template, roots).

(** ** The template *)

(** The capabilities, the mutable fields and the nonce range are constants. *)
Definition new_internal (network : Network) (miner_script : option bytes) (info : GetBlockTemplateChainInfo)
    (long_poll_id : LongPollId) (mempool_txs : list VerifiedUnminedTx) (submit_old : option bool)
    (extra_coinbase_data : bytes) (fat_pointer_to_bft_block : FatPointerToBftBlock) : outcome BlockTemplateResponse :=
  next ← height_add_diff (ci_tip_height info) 1;
  next_block_height ← unwrap next;
  mempool_tx_templates ← map_res from_mempool_tx mempool_txs;
  '(coinbase_txn, default_roots) ← expect (generate_coinbase_and_roots network next_block_height miner_script mempool_txs
                                            (ci_chain_history_root info) extra_coinbase_data);
  expanded ← to_expanded (ci_expected_difficulty info);
  target ← unwrap expanded;
  let commitments := dr_block_commitments_hash default_roots in
  Ok (mkBlockTemplateResponse (ZCASH_BLOCK_VERSION + 2) (ci_tip_hash info) commitments commitments commitments default_roots
        mempool_tx_templates coinbase_txn long_poll_id target (ci_min_time info) MAX_BLOCK_SIGOPS MAX_BLOCK_BYTES
        (ci_cur_time info) (ci_expected_difficulty info) next_block_height (ci_max_time info) submit_old fat_pointer_to_bft_block).

(** ** The proposal *)

Definition proposal_block_from_template (now : Z) (template : BlockTemplateResponse) (time_source : option BlockTemplateTimeSource)
    (net : Network) : res SerializationError Block :=
  let roots := bt_default_roots template in
  let height := bt_height template in
  if Height_MAX <? height then Err (Parse "height of coinbase transaction is {height}, which exceeds the maximum of {Height::MAX}")
  else
    time ← lift (time_from_template now (default CurTime time_source) template);
    let transactions := tt_data (bt_coinbase_txn template) :: (tt_data <$> bt_transactions template) in
    nu ← lift (nu_current net height);
    commitment_bytes ← (match nu with
                        | Canopy => Ok (dr_chain_history_root roots)
                        | Nu5 | Nu6 | Nu6_1 | Nu7 => Ok (dr_block_commitments_hash roots)
                        | _ => Err (Parse "Zebra does not support generating pre-Canopy block templates")
                        end);
    Ok (mkBlock (mkHeader (bt_version template) (bt_previous_block_hash template) (dr_merkle_root roots) commitment_bytes time
                   (bt_bits template) (zero_bytes 32) Solution_for_proposal (bt_fat_pointer_to_bft_block template)) transactions).

(** The placeholder of the coinbase transaction in the selection. *)
Definition fake_coinbase_transaction (net : Network) (height : Z) (miner_script : option bytes) (extra_coinbase_data : bytes)
    : outcome TransactionTemplate :=
  miner_fee ← expect (amount_try_from_i64 NonNegative 1);
  outputs ← standard_coinbase_outputs net height miner_script miner_fee;
  coinbase ← new_v5_coinbase net height outputs extra_coinbase_data;
  coinbase ← UnminedTx_from coinbase;
  from_coinbase coinbase miner_fee.

(** * Sizes *)

Lemma serialize_short s : Z.of_nat (length s) <= 252 -> zcash_serialize_bytes s = Ok (write_u8 (Z.of_nat (length s)) ++ s).
Proof.
  intros Hs. rewrite zcash_serialize_bytes_spec. unfold MAX_PROTOCOL_MESSAGE_LEN. rewrite (proj2 (Z.leb_le _ _)) by lia.
  unfold zcash_serialize, CompactSizeMessage_serialize, MAX_PROTOCOL_MESSAGE_LEN. cbn [compact_size_message].
  rewrite (proj2 (Z.leb_le _ _)) by lia. cbn [assert_ mbind res_bind]. unfold zcash_serialize, CompactSize64_serialize.
  cbn [compact_size_64]. by rewrite (proj2 (Z.leb_le _ _)) by lia.
Qed.

Lemma output_size o : amount_in NonNegative (output_value o) -> Z.of_nat (length (lock_script o)) <= 252 ->
  zcash_serialized_size o = Ok (9 + Z.of_nat (length (lock_script o))).
Proof.
  intros Ho Hs. unfold zcash_serialized_size, zcash_serialize, Output_serialize. unfold zcash_serialize, NonNegAmount_serialize.
  cbn [non_neg_amount]. rewrite checked_in by amount_lia. cbn [unwrap mbind res_bind]. rewrite serialize_short by done.
  cbn [mbind res_bind expect]. f_equal. rewrite !length_app. unfold write_u64, write_u8. rewrite !length_le_bytes. lia.
Qed.

Lemma coinbase_height_bytes height data : 1 <= height <= Height_MAX ->
  exists p, write_coinbase_height height data = Ok p /\ (1 <= length p <= 5)%nat.
Proof.
  intros Hh. unfold write_coinbase_height, in_range. rewrite (proj2 (Z.eqb_neq height 0)) by lia. change Height_MAX with 2147483647 in *.
  unfold write_u8, write_u16, write_u32.
  repeat match goal with |- context [(?a <=? height) && (height <=? ?b)] =>
    destruct (Z.leb_spec a height), (Z.leb_spec height b); cbn [andb];
      try (eexists; split; [reflexivity|rewrite ?length_app, ?length_le_bytes; cbn; lia]); try lia end.
Qed.

Definition nonempty_data (data : bytes) : bytes := match data with [] => [Byte.x00] | _ => data end.

Lemma coinbase_input_ok height data sequence : 1 <= height <= Height_MAX -> Z.of_nat (length data) <= 94 ->
  let data' := nonempty_data data in
  new_coinbase_input height data sequence = Ok (Coinbase height data' (default 0 sequence))
    /\ exists n, zcash_serialized_size (Coinbase height data' (default 0 sequence)) = Ok n /\ 0 <= n <= 200.
Proof.
  intros Hh Hd data'. unfold new_coinbase_input. fold (nonempty_data data). fold data'.
  assert (length data' <= 94)%nat as Hd' by (unfold data', nonempty_data; destruct data; cbn in *; lia).
  unfold coinbase_zcash_serialized_size. destruct (coinbase_height_bytes height [] Hh) as (p & -> & Hp). cbn [expect mbind res_bind].
  unfold MAX_COINBASE_DATA_LEN. rewrite arith_u_in by lia. cbn [mbind res_bind]. rewrite (proj2 (Z.leb_le _ _)) by lia.
  cbn [assert_ mbind res_bind]. split; [done|]. unfold zcash_serialized_size, zcash_serialize, Input_serialize.
  destruct (coinbase_height_bytes height data' Hh) as (q & -> & Hq). cbn [mbind res_bind].
  rewrite serialize_short by (rewrite length_app; lia). cbn [mbind res_bind expect]. eexists. split; [done|].
  rewrite !length_app. unfold write_u32, write_u8, zero_bytes. rewrite !length_le_bytes, length_replicate. lia.
Qed.

(** A coinbase transaction as it is built: one input and short outputs. *)
Definition short_outputs (outs : list (Z * bytes)) : Prop :=
  (length outs <= 2000)%nat /\ Forall (fun e => amount_in NonNegative e.1 /\ (length e.2 <= 40)%nat) outs.

Lemma outputs_sizes outs : short_outputs outs ->
  exists n, serialized_sizes (new_coinbase_output <$> outs) = Ok n /\ 0 <= n <= 98000.
Proof.
  intros [Hl Ho]. unfold serialized_sizes. exists (sum_Z (fun e => 9 + Z.of_nat (length e.2)) outs).
  assert (map_res zcash_serialized_size (new_coinbase_output <$> outs) = Ok (E := Empty_set) ((fun e : Z * bytes => 9 + Z.of_nat (length e.2)) <$> outs)) as ->.
  { clear Hl. induction Ho as [|e outs [He Hs] Ho IH]; [done|]. rewrite !fmap_cons. cbn [map_res].
    rewrite output_size by (cbn; done || lia). cbn [mbind res_bind]. by rewrite IH. }
  cbn [mbind res_bind]. rewrite sum_Z_fmap. change (id ∘ ?f) with f. split; [done|].
  assert (0 <= sum_Z (fun e : Z * bytes => 9 + Z.of_nat (length e.2)) outs <= 49 * Z.of_nat (length outs)) as Hb; [|lia].
  clear Hl. induction Ho as [|e outs [_ Hs] Ho IH]; cbn [sum_Z length]; lia.
Qed.

(** The transaction that the builders return. *)
Definition built_coinbase (nu : NetworkUpgrade) (height : Z) (data : bytes) (outs : list (Z * bytes)) : Transaction :=
  match nu with
  | Canopy => V4 [Coinbase height data u32_MAX] (new_coinbase_output <$> outs) (LockHeight 0) height None None
  | _ => V5 nu (LockHeight 0) height [Coinbase height data 0] (new_coinbase_output <$> outs) None None
  end.

Lemma built_fee nu height data outs n : short_outputs outs ->
  zcash_serialized_size (Coinbase height data (match nu with Canopy => u32_MAX | _ => 0 end)) = Ok n -> 0 <= n <= 200 ->
  exists fee, conventional_fee (built_coinbase nu height data outs) = Ok fee.
Proof.
  intros Ho Hn Hb. destruct (outputs_sizes outs Ho) as (m & Hm & Hmb).
  assert (serialized_sizes [Coinbase height data (match nu with Canopy => u32_MAX | _ => 0 end)] = Ok n) as Hin.
  { unfold serialized_sizes. cbn [map_res]. rewrite Hn. cbn. by rewrite Z.add_0_r. }
  assert (exists a, conventional_actions (built_coinbase nu height data outs) = Ok a /\ 0 <= a <= 3000) as (a & Ha & Hab).
  { exists (Z.max GRACE_ACTIONS (Z.max (div_ceil n 150) (div_ceil m 34))).
    assert (0 <= div_ceil n 150 <= 3000 /\ 0 <= div_ceil m 34 <= 3000) as [Hc1 Hc2].
    { unfold div_ceil. pose proof (Z.div_mod (- n) 150 ltac:(lia)). pose proof (Z.mod_pos_bound (- n) 150 ltac:(lia)).
      pose proof (Z.div_mod (- m) 34 ltac:(lia)). pose proof (Z.mod_pos_bound (- m) 34 ltac:(lia)). lia. }
    split; [|unfold GRACE_ACTIONS; lia].
    assert (forall tx, inputs tx = [Coinbase height data (match nu with Canopy => u32_MAX | _ => 0 end)] -> outputs tx = new_coinbase_output <$> outs ->
      is_crosslink tx = false -> joinsplit_count tx = 0%nat -> sapling_spends_per_anchor tx = Ok [] -> sapling_outputs tx = [] -> orchard_actions tx = [] ->
      conventional_actions tx = Ok (Z.max GRACE_ACTIONS (Z.max (div_ceil n 150) (div_ceil m 34)))) as Hgen.
    { intros tx Hi Hout Hx Hj Hs Hso Ha. destruct tx; try done; unfold conventional_actions; rewrite Hi, Hin; cbn [mbind res_bind]; rewrite Hout, Hm; cbn [mbind res_bind]; rewrite Hs; cbn [mbind res_bind]; rewrite Hj, Hso, Ha; cbn [length sum_Z id];
        rewrite !Z.add_0_r; unfold P2PKH_STANDARD_INPUT_SIZE, P2PKH_STANDARD_OUTPUT_SIZE; cbn [Z.of_nat Z.mul Z.max]; rewrite ?Z.add_0_r; rewrite checked_in by width_lia; done. }
    destruct nu; by apply Hgen. }
  unfold conventional_fee. rewrite Ha. cbn [mbind res_bind].
  assert (amount_in NonNegative MARGINAL_FEE) as Hmf by (unfold MARGINAL_FEE; amount_lia).
  destruct (amount_arithmetic NonNegative MARGINAL_FEE MARGINAL_FEE a Hmf Hmf ltac:(width_lia)) as (_ & _ & -> & _).
  rewrite decide_True by (unfold MARGINAL_FEE; amount_lia). by eexists.
Qed.

(** Counting the signature operations of a short script succeeds, and an
    opcode counts as at most twenty of them. *)
Definition sigop_counts : Prop :=
  forall script, (length script <= 40)%nat ->
  exists n, legacy_sigop_count_script script = Ok n /\ 0 <= n <= 20 * Z.of_nat (length script).

Lemma built_sigops nu height data outs : sigop_counts -> short_outputs outs ->
  exists n, sigops (built_coinbase nu height data outs) = Ok n.
Proof.
  intros Hc [Hl Ho]. assert (scripts (built_coinbase nu height data outs) = snd <$> outs) as Hs.
  { unfold scripts. destruct nu; cbn; rewrite <- list_fmap_compose; done. }
  unfold sigops. rewrite Hs.
  assert (forall acc, 0 <= acc -> acc + 800 * Z.of_nat (length outs) <= u32_MAX ->
    exists n, foldM (fun acc s => n ← legacy_sigop_count_script s; arith_u 32 (acc + n)) acc (snd <$> outs) = Ok n) as Hgen.
  { clear Hl Hs. induction Ho as [|e outs [_ He] Ho IH]; intros acc Hacc Hb; [by eexists|]. rewrite fmap_cons. cbn [foldM length] in *.
    destruct (Hc e.2 He) as (n & -> & Hn). cbn [mbind res_bind]. rewrite arith_u_in by (unfold u32_MAX in Hb; lia).
    cbn [mbind res_bind]. apply IH; lia. }
  apply Hgen; [lia|]. unfold u32_MAX. lia.
Qed.

(** * The rewards *)

Lemma funding_values_in height network subsidy values : funding_stream_values height network subsidy = Ok values ->
  forall r x, values !! r = Some x -> amount_in NonNegative x.
Proof.
  unfold funding_stream_values. intros (canopy & _ & Hv)%bind_Ok_inv. destruct (canopy <=? height); [|apply Ok_inj in Hv as <-; by intros r x Hr].
  apply bind_Ok_inv in Hv as (streams & _ & Hv). destruct streams as [fs|]; [|apply Ok_inj in Hv as <-; by intros r x Hr].
  revert values Hv. refine (foldM_inv _ (fun m => forall r x, m !! r = Some x -> amount_in NonNegative x) _ _ _ _); [by intros r x Hr|]. intros m [receiver recipient] m' _ Hm Hstep.
  apply bind_Ok_inv in Hstep as (p & _ & (a & Ha & <-%Ok_inj)%bind_Ok_inv). intros r x.
  destruct (decide (r = receiver)) as [->|Hne]; [rewrite lookup_insert_eq|rewrite lookup_insert_ne by done; apply Hm].
  intros [= <-]. unfold amount_div in Ha. apply bind_Ok_inv in Ha as (q & _ & Ha). apply (proj1 (expect_Ok _ _)) in Ha.
  unfold amount_try_from_i128 in Ha. apply bind_Ok_inv in Ha as (w & _ & Ha). by apply amount_try_from_Ok in Ha as [-> ?].
Qed.

(** What the network pays at a height, before the third halving: the subsidy,
    the funding streams, each with an address unless it is the deferred pool, and
    the one-time disbursements; all to P2SH addresses. *)
Record rewards (network : Network) (height subsidy miner : Z) (values : gmap FundingStreamReceiver Z)
    (address : FundingStreamReceiver -> Address) (disbursements : list (Address * Z)) (divisor : Z) : Prop := {
  rw_height : 1 <= height <= Height_MAX;
  rw_subsidy : block_subsidy height network = Ok subsidy;
  rw_subsidy_in : amount_in NonNegative subsidy;
  rw_values : funding_stream_values height network subsidy = Ok values;
  rw_miner : miner_subsidy height network subsidy = Ok miner;
  rw_address : forall r x, values !! r = Some x -> r <> DeferredReceiver ->
    funding_stream_address height network r = Ok (Some (address r))
    /\ is_script_hash (address r) = true /\ length (hash_bytes (address r)) = 20%nat;
  rw_disbursements : lockbox_disbursements network height = Ok disbursements;
  rw_disbursed : Forall (fun e => is_script_hash e.1 = true /\ length (hash_bytes e.1) = 20%nat /\ amount_in NonNegative e.2) disbursements;
  rw_few : (length disbursements <= 1000)%nat;
  rw_divisor : halving_divisor height network = Ok (Some divisor);
  rw_early : divisor = 1 \/ divisor = 2 \/ divisor = 4;
  rw_canopy : exists canopy, activation_height Canopy network = Some canopy /\ canopy <= height;
  rw_slow_start : slow_start_interval network <= height
}.

Section Rewards.
Context (network : Network) (height subsidy miner : Z) (values : gmap FundingStreamReceiver Z)
  (address : FundingStreamReceiver -> Address) (disbursements : list (Address * Z)) (divisor : Z).
Hypothesis paid : rewards network height subsidy miner values address disbursements divisor.

(** The funding streams other than the deferred pool. *)
Definition streams : list (FundingStreamReceiver * Z) := filter (fun e => e.1 <> DeferredReceiver) (map_to_list values).

Lemma streams_perm : map_to_list (delete DeferredReceiver values) ≡ₚ streams.
Proof.
  apply NoDup_Permutation; [apply NoDup_map_to_list|apply NoDup_filter, NoDup_map_to_list|]. intros [r x]. unfold streams.
  rewrite list_elem_of_filter, !elem_of_map_to_list, lookup_delete_Some. cbn. split; intros [??]; split; done || congruence.
Qed.

Lemma streams_sum : sum_Z id (snd <$> map_to_list values) = default 0 (values !! DeferredReceiver) + sum_Z snd streams.
Proof.
  rewrite sum_Z_fmap. change (id ∘ snd) with (@snd FundingStreamReceiver Z). rewrite <- streams_perm.
  destruct (values !! DeferredReceiver) as [x|] eqn:Hx; cbn [default].
  - rewrite <- (insert_delete_id values DeferredReceiver x) at 1 by done. rewrite map_to_list_insert by apply lookup_delete_eq. done.
  - by rewrite delete_id.
Qed.

Lemma miner_exact : miner = subsidy - sum_Z id (snd <$> map_to_list values) /\ amount_in NonNegative miner
  /\ 0 <= sum_Z id (snd <$> map_to_list values) <= subsidy.
Proof.
  destruct paid as [_ _ Hs Hv Hm _ _ _ _ _ _ _ _]. unfold miner_subsidy in Hm. rewrite Hv in Hm. cbn [mbind res_bind] in Hm.
  apply bind_Ok_inv in Hm as (total & Ht & Hm).
  assert (Forall (amount_in NonNegative) (snd <$> map_to_list values)) as Ha.
  { apply Forall_fmap, Forall_forall. intros [r x] Hin%elem_of_map_to_list. cbn. by eapply funding_values_in. }
  destruct (amount_sum_nonneg _ Ha) as [_ Hsum]. apply Hsum in Ht as [-> Hmax].
  assert (0 <= sum_Z id (snd <$> map_to_list values)) by (apply sum_Z_nonneg; eapply Forall_impl; [exact Ha|]; intros x Hx; unfold id; amount_lia).
  rewrite amount_sub_eq in Hm by amount_lia. apply amount_try_from_Ok in Hm as [-> Hin]. split; [done|]. split; [done|]. amount_lia.
Qed.

Lemma stream_in e : e ∈ streams -> values !! e.1 = Some e.2 /\ e.1 <> DeferredReceiver.
Proof. destruct e. unfold streams. rewrite list_elem_of_filter, elem_of_map_to_list. cbn. intros [??]. done. Qed.

Lemma stream_outputs_eq : stream_outputs height network values = Ok ((fun e => (address e.1, e.2)) <$> streams).
Proof.
  unfold stream_outputs, streams.
  assert (forall e, e ∈ map_to_list values -> stream_output height network e
    = Ok (if decide (e.1 <> DeferredReceiver) then Some (address e.1, e.2) else None)) as Hone.
  { intros [r x] Hin%elem_of_map_to_list. unfold stream_output. cbn [fst snd]. case_decide as Hd.
    - destruct (rw_address _ _ _ _ _ _ _ _ paid r x Hin Hd) as (-> & _). done.
    - assert (r = DeferredReceiver) as -> by (by destruct (decide (r = DeferredReceiver))). done. }
  revert Hone. generalize (map_to_list values). intros l Hone.
  assert (map_res (stream_output height network) l
    = Ok (E := Empty_set) ((fun e => if decide (e.1 <> DeferredReceiver) then Some (address e.1, e.2) else None) <$> l)) as ->.
  { induction l as [|e l IH]; [done|]. cbn [map_res fmap list_fmap]. rewrite Hone by left. cbn [mbind res_bind].
    rewrite IH by (intros; apply Hone; by right). done. }
  cbn [mbind res_bind]. f_equal. clear Hone. induction l as [|e l IH]; [done|]. rewrite fmap_cons, filter_cons. cbn [omap list_omap].
  destruct (decide (e.1 <> DeferredReceiver)); [rewrite fmap_cons|]; by rewrite <- IH.
Qed.

(** The outputs to the streams and the disbursements. *)
Definition pay_to (a : Address) (amount : Z) : Z * bytes := (amount, address_script a).
Definition due_outputs : list (Z * bytes) :=
  stable_sort (fun a b : Z * bytes => bytes_leb a.2 b.2)
    ((fun e : Address * Z => (e.2, address_script e.1)) <$> (((fun e => (address e.1, e.2)) <$> streams) ++ disbursements)).

Lemma due_perm : due_outputs ≡ₚ ((fun e => pay_to e.1 e.2) <$> disbursements) ++ ((fun e => pay_to (address e.1) e.2) <$> streams).
Proof.
  unfold due_outputs. rewrite stable_sort_perm, fmap_app, <- list_fmap_compose. rewrite (comm (++)). done.
Qed.

Lemma standard_outputs fee script : amount_in NonNegative fee -> subsidy + fee <= MAX_MONEY ->
  standard_coinbase_outputs network height (Some script) fee = Ok ((miner + fee, script) :: due_outputs).
Proof.
  intros Hf Hmax. destruct miner_exact as (Hm & Hmi & Hr). unfold standard_coinbase_outputs.
  rewrite (rw_subsidy _ _ _ _ _ _ _ _ paid). cbn [expect mbind res_bind]. rewrite (rw_values _ _ _ _ _ _ _ _ paid). cbn [expect mbind res_bind].
  rewrite stream_outputs_eq. cbn [mbind res_bind]. rewrite (rw_miner _ _ _ _ _ _ _ _ paid). cbn [expect mbind res_bind].
  rewrite amount_add_eq by amount_lia. rewrite amount_try_from_in by amount_lia. cbn [expect mbind res_bind].
  rewrite (rw_disbursements _ _ _ _ _ _ _ _ paid). done.
Qed.

Lemma p2sh_script a : is_script_hash a = true -> length (hash_bytes a) = 20%nat -> length (address_script a) = 23%nat.
Proof. destruct a; try done. cbn. intros _ Hl. rewrite length_app, Hl. done. Qed.

Lemma streams_few : (length streams <= 4)%nat.
Proof.
  assert (NoDup (fst <$> streams)) as Hnd.
  { unfold streams. apply NoDup_fmap_filter, NoDup_fst_map_to_list. }
  rewrite <- (length_fmap fst). transitivity (length [Ecc; ZcashFoundation; MajorGrants; DeferredReceiver]); [|done].
  apply submseteq_length, NoDup_submseteq; [done|]. intros [] _; set_solver.
Qed.

Lemma coinbase_short fee script : amount_in NonNegative fee -> subsidy + fee <= MAX_MONEY -> (length script <= 40)%nat ->
  short_outputs ((miner + fee, script) :: due_outputs).
Proof.
  intros Hf Hmax Hs. destruct miner_exact as (Hm & Hmi & Hr). split.
  - cbn [length]. rewrite due_perm, length_app, !length_fmap. pose proof streams_few. pose proof (rw_few _ _ _ _ _ _ _ _ paid). lia.
  - constructor; [split; [cbn; amount_lia|done]|]. rewrite due_perm. apply Forall_app. split; apply Forall_fmap.
    + eapply Forall_impl; [exact (rw_disbursed _ _ _ _ _ _ _ _ paid)|]. intros e (He & Hl & Ha). cbn. split; [done|]. rewrite p2sh_script by done. lia.
    + apply Forall_forall. intros e [He Hd]%stream_in. destruct (rw_address _ _ _ _ _ _ _ _ paid _ _ He Hd) as (_ & Hp & Hl). cbn.
      split; [eapply funding_values_in; [apply paid|exact He]|]. rewrite p2sh_script by done. lia.
Qed.

(** ** The checks of the coinbase *)

Lemma multiset_remove_elem o l : o ∈ l -> exists l', multiset_remove o l = Some l' /\ l ≡ₚ o :: l'.
Proof.
  induction l as [|x l IH]; [by intros ?%elem_of_nil|]. intros Hin. cbn [multiset_remove]. case_bool_decide as Hx; [subst; eauto|].
  apply elem_of_cons in Hin as [->|Hin]; [done|]. destruct (IH Hin) as (l' & -> & Hp). exists (x :: l'). split; [done|].
  rewrite Hp. apply Permutation_swap.
Qed.

Lemma take_expected_ok outs rest a amount : is_script_hash a = true -> outs ≡ₚ new_coinbase_output (pay_to a amount) :: rest ->
  exists outs', take_expected_output outs a amount = Ok (Some outs') /\ outs' ≡ₚ rest.
Proof.
  intros Ha Hp. unfold take_expected_output, new_coinbase_script. rewrite Ha. cbn [assert_ mbind res_bind].
  destruct (multiset_remove_elem (mkOutput amount (address_script a)) outs) as (l & -> & Hl); [rewrite Hp; left|].
  exists l. split; [done|]. rewrite Hl in Hp. by apply Permutation_cons_inv in Hp.
Qed.

Lemma take_disbursements_ok l outs rest d : Forall (fun e => is_script_hash e.1 = true /\ amount_in NonNegative e.2) l ->
  outs ≡ₚ (new_coinbase_output <$> ((fun e => pay_to e.1 e.2) <$> l)) ++ rest -> sum_Z snd l <= MAX_MONEY + d -> d <= MAX_MONEY ->
  exists outs', foldM take_disbursement (outs, d) l = Ok (outs', d - sum_Z snd l) /\ outs' ≡ₚ rest.
Proof.
  intros Hl. revert outs d. induction Hl as [|[a x] l [Ha Hx] Hl IH]; intros outs d Hp Hlo Hhi; cbn [foldM sum_Z].
  { exists outs. rewrite Z.sub_0_r. split; done. }
  assert (0 <= sum_Z snd l) by (apply sum_Z_nonneg; eapply Forall_impl; [exact Hl|]; intros e [_ ?]; amount_lia).
  cbn [fst snd sum_Z] in *. rewrite !fmap_cons in Hp. cbn [app] in Hp. unfold take_disbursement at 2.
  destruct (take_expected_ok outs _ a x Ha Hp) as (outs1 & -> & Hp1). cbn [lift ok_or mbind res_bind].
  unfold amount_checked_sub. rewrite checked_in by amount_lia. cbn [mbind option_bind]. rewrite amount_try_from_in by amount_lia.
  cbn [res_ok unwrap mbind res_bind].
  destruct (IH outs1 (d - x) Hp1) as (outs' & -> & Hp'); [lia|amount_lia|]. exists outs'. split; [f_equal; f_equal; lia|done].
Qed.

Lemma take_streams_ok l outs rest : (forall e, e ∈ l -> funding_stream_address height network e.1 = Ok (Some (address e.1)) /\ is_script_hash (address e.1) = true) ->
  outs ≡ₚ (new_coinbase_output <$> ((fun e => pay_to (address e.1) e.2) <$> l)) ++ rest ->
  exists outs', foldM (take_stream height network) outs l = Ok outs' /\ outs' ≡ₚ rest.
Proof.
  revert outs. induction l as [|e l IH]; intros outs Hl Hp; cbn [foldM]; [by exists outs|]. rewrite !fmap_cons in Hp. cbn [app] in Hp.
  unfold take_stream at 2. destruct (Hl e) as [He Ha]; [left|]. rewrite He. cbn [lift ok_or mbind res_bind].
  destruct (take_expected_ok outs _ _ _ Ha Hp) as (outs1 & -> & Hp1). cbn [lift ok_or mbind res_bind].
  apply IH; [|done]. intros. apply Hl. by right.
Qed.

Definition deferred_change : Z := default 0 (values !! DeferredReceiver) - sum_Z snd disbursements.

Lemma deferred_in : 0 <= default 0 (values !! DeferredReceiver) <= subsidy /\ 0 <= sum_Z snd streams /\ 0 <= sum_Z snd disbursements
  /\ miner + default 0 (values !! DeferredReceiver) + sum_Z snd streams = subsidy.
Proof.
  destruct miner_exact as (Hm & _ & Hr). rewrite streams_sum in *.
  assert (0 <= default 0 (values !! DeferredReceiver)).
  { destruct (values !! DeferredReceiver) as [x|] eqn:Hx; cbn; [|lia].
    assert (amount_in NonNegative x) by (eapply funding_values_in; [apply paid|exact Hx]). amount_lia. }
  assert (0 <= sum_Z snd streams).
  { apply sum_Z_nonneg, Forall_forall. intros e [He _]%stream_in.
    assert (amount_in NonNegative e.2) by (eapply funding_values_in; [apply paid|exact He]). amount_lia. }
  assert (0 <= sum_Z snd disbursements).
  { apply sum_Z_nonneg. eapply Forall_impl; [apply paid|]. intros e (_ & _ & ?). amount_lia. }
  lia.
Qed.

Lemma subsidy_ok b tx m script : coinbase_height b = Some height -> head (transactions b) = Some tx ->
  outputs tx = new_coinbase_output <$> ((m, script) :: due_outputs) -> sum_Z snd disbursements <= MAX_MONEY ->
  subsidy_is_valid b network subsidy = Ok deferred_change.
Proof.
  intros Hh Ht Ho Hmax. destruct deferred_in as (Hd & _ & _ & _). pose proof (rw_subsidy_in _ _ _ _ _ _ _ _ paid) as Hsub.
  unfold subsidy_is_valid. rewrite Hh, Ht. cbn [ok_or mbind res_bind].
  rewrite (rw_divisor _ _ _ _ _ _ _ _ paid). cbn [lift mbind res_bind]. destruct (rw_canopy _ _ _ _ _ _ _ _ paid) as (canopy & -> & Hc).
  cbn [unwrap mbind res_bind]. rewrite (proj2 (Z.ltb_ge _ _)) by apply paid. rewrite (proj2 (Z.ltb_ge height canopy)) by done.
  assert (negb (count_ones divisor =? 1)%nat = false /\ (divisor <? 8) = true) as [-> ->]
    by (destruct (rw_early _ _ _ _ _ _ _ _ paid) as [-> |[-> | ->]]; by vm_compute).
  rewrite (rw_values _ _ _ _ _ _ _ _ paid). cbn [map_err mbind res_bind]. unfold amount_constrain. rewrite amount_try_from_in by amount_lia.
  cbn [expect mbind res_bind]. rewrite (rw_disbursements _ _ _ _ _ _ _ _ paid). cbn [lift mbind res_bind].
  destruct (take_disbursements_ok disbursements (outputs tx) ((new_coinbase_output <$> ((fun e => pay_to (address e.1) e.2) <$> streams)) ++ [mkOutput m script])
    (default 0 (values !! DeferredReceiver))) as (outs1 & -> & Hp1).
  - eapply Forall_impl; [apply paid|]. intros e (? & _ & ?). done.
  - rewrite Ho, fmap_cons, due_perm, fmap_app, (assoc (++)). apply Permutation_cons_append.
  - lia.
  - amount_lia.
  - cbn [mbind res_bind]. destruct (take_streams_ok (map_to_list (delete DeferredReceiver values)) outs1 [mkOutput m script]) as (outs2 & -> & _).
    + intros e He. rewrite streams_perm in He. apply stream_in in He as [He Hd']. destruct (rw_address _ _ _ _ _ _ _ _ paid _ _ He Hd') as (? & ? & _). done.
    + by rewrite Hp1, streams_perm.
    + done.
Qed.

Lemma due_sum : sum_Z fst due_outputs = sum_Z snd disbursements + sum_Z snd streams.
Proof. rewrite due_perm, sum_Z_app, !sum_Z_fmap. done. Qed.

Lemma fees_ok tx fee script nu : amount_in NonNegative fee -> subsidy + fee + sum_Z snd disbursements <= MAX_MONEY ->
  outputs tx = new_coinbase_output <$> ((miner + fee, script) :: due_outputs) -> (length script <= 40)%nat ->
  sapling (sapling_value_balance tx) = 0 -> orchard (orchard_value_balance tx) = 0 -> nu_current network height = Ok nu ->
  miner_fees_are_valid tx height fee subsidy deferred_change network = Ok tt.
Proof.
  intros Hf Hmax Ho Hs Hsa Hor Hnu. destruct deferred_in as (Hd & Hst & Hdi & Htot). pose proof (rw_subsidy_in _ _ _ _ _ _ _ _ paid) as Hsub.
  unfold miner_fees_are_valid. rewrite Ho, Hsa, Hor.
  destruct (coinbase_short fee script Hf ltac:(lia) Hs) as [_ Hall].
  assert (sum_Z id (output_value <$> (new_coinbase_output <$> ((miner + fee, script) :: due_outputs))) = miner + fee + sum_Z snd disbursements + sum_Z snd streams) as Hsum.
  { rewrite <- list_fmap_compose, sum_Z_fmap. cbn [sum_Z]. change (id ∘ (output_value ∘ new_coinbase_output)) with (@fst Z bytes). cbn [fst]. rewrite due_sum. lia. }
  set (l := output_value <$> _) in *. assert (Forall (amount_in NonNegative) l) as Hl.
  { unfold l. rewrite <- list_fmap_compose. apply Forall_fmap. eapply Forall_impl; [exact Hall|]. intros e [? _]. done. }
  destruct (amount_sum_nonneg l Hl) as [_ Hs']. rewrite (proj2 (Hs' (sum_Z id l))) by (split; [done|rewrite Hsum; lia]). rewrite Hsum.
  cbn [map_err mbind res_bind]. unfold amount_constrain, deferred_change. rewrite amount_try_from_in by amount_lia. cbn [expect mbind res_bind].
  rewrite amount_sub_eq by amount_lia. rewrite amount_try_from_in by amount_lia. cbn [mbind res_bind].
  rewrite amount_sub_eq by amount_lia. rewrite amount_try_from_in by amount_lia. cbn [mbind res_bind].
  rewrite amount_add_eq by amount_lia. rewrite amount_try_from_in by amount_lia. cbn [map_err mbind res_bind].
  rewrite amount_add_eq by amount_lia. rewrite amount_try_from_in by amount_lia. cbn [map_err mbind res_bind].
  rewrite Hnu. cbn [lift mbind res_bind]. case_bool_decide.
  - rewrite (proj2 (Z.eqb_eq _ _)) by lia. done.
  - rewrite (proj2 (Z.ltb_ge _ _)) by lia. done.
Qed.

(** ** The template *)

Lemma mined_unmined tx : mined_id (unmined_id tx) = transaction_hash tx.
Proof. by destruct tx. Qed.

(** The transactions that were selected: valid in a block of the upgrade [nu],
    with the ids of their transactions. *)
Record selected_ok (nu : NetworkUpgrade) (txs : list VerifiedUnminedTx) : Prop := {
  sk_fees : Forall (fun v => amount_in NonNegative (vu_miner_fee v)) txs;
  sk_ids : Forall (fun v => unmined_id_ (vu_transaction v) = unmined_id (unmined_transaction (vu_transaction v))) txs;
  sk_inputs : Forall (fun v => is_valid_non_coinbase (unmined_transaction (vu_transaction v)) = true) txs;
  sk_upgrade : Forall (fun v => forall u, network_upgrade (unmined_transaction (vu_transaction v)) = Some u -> u = nu) txs;
  sk_distinct : NoDup ((fun v => transaction_hash (unmined_transaction (vu_transaction v))) <$> txs);
  sk_coinbase : forall v tx, v ∈ txs -> is_coinbase tx = true -> transaction_hash tx <> transaction_hash (unmined_transaction (vu_transaction v))
}.
Lemma fees_nonneg nu txs : selected_ok nu txs -> 0 <= sum_Z vu_miner_fee txs.
Proof. intros Htxs. apply sum_Z_nonneg. eapply Forall_impl; [apply Htxs|]. intros v Hv. cbn in Hv. amount_lia. Qed.
(** The upgrades for which templates are made. *)
Definition template_upgrade (nu : NetworkUpgrade) : bool :=
  match nu with Canopy | Nu5 | Nu6 | Nu6_1 | Nu7 => true | _ => false end.

Lemma coinbase_built nu fee script data : nu_current network height = Ok nu -> template_upgrade nu = true ->
  amount_in NonNegative fee -> subsidy + fee <= MAX_MONEY -> (length script <= 40)%nat -> Z.of_nat (length data) <= 94 -> sigop_counts ->
  let data' := nonempty_data data in
  exists cfee n, (match nu with
      | Canopy => new_v4_coinbase height ((miner + fee, script) :: due_outputs) data
      | _ => new_v5_coinbase network height ((miner + fee, script) :: due_outputs) data
      end) = Ok (built_coinbase nu height data' ((miner + fee, script) :: due_outputs))
    /\ conventional_fee (built_coinbase nu height data' ((miner + fee, script) :: due_outputs)) = Ok cfee
    /\ sigops (built_coinbase nu height data' ((miner + fee, script) :: due_outputs)) = Ok n.
Proof.
  intros Hnu Hup Hf Hmax Hs Hd Hsig data'. pose proof (coinbase_short fee script Hf Hmax Hs) as Hshort.
  destruct (coinbase_input_ok height data (match nu with Canopy => Some u32_MAX | _ => None end) (rw_height _ _ _ _ _ _ _ _ paid) Hd)
    as (Hin & n & Hn & Hnb). fold data' in Hin, Hn.
  destruct (built_fee nu height data' ((miner + fee, script) :: due_outputs) n Hshort) as [cfee Hfee]; [by destruct nu|done|].
  destruct (built_sigops nu height data' ((miner + fee, script) :: due_outputs) Hsig Hshort) as [k Hk].
  exists cfee, k. split; [|done].
  destruct nu; try done; unfold new_v4_coinbase, new_v5_coinbase; rewrite Hin; cbn [mbind res_bind];
    rewrite bool_decide_eq_false_2 by done; cbn [negb assert_ mbind res_bind]; rewrite ?Hnu; done.
Qed.

Definition auth_digest_of (tx : Transaction) : bytes := default AUTH_DIGEST_PLACEHOLDER (id_auth_digest (unmined_id tx)).

Lemma generated nu script data txs root : nu_current network height = Ok nu -> template_upgrade nu = true -> selected_ok nu txs ->
  let fee := sum_Z vu_miner_fee txs in
  subsidy + fee <= MAX_MONEY -> (length script <= 40)%nat -> Z.of_nat (length data) <= 94 -> sigop_counts -> root <> zero_bytes 32 ->
  exists n merkle auth,
    let data' := nonempty_data data in
    let tx := built_coinbase nu height data' ((miner + fee, script) :: due_outputs) in
    let block_txs := tx :: ((fun v => unmined_transaction (vu_transaction v)) <$> txs) in
    generate_coinbase_and_roots network height (Some script) txs (Some root) data
    = Ok (mkTransactionTemplate tx (transaction_hash tx) (auth_digest_of tx) [] (- fee) n true,
          mkDefaultRoots merkle root auth (from_commitments root auth))
    /\ sigops tx = Ok n
    /\ merkle_root_of merkle_hash (transaction_hash <$> block_txs) = Ok merkle
    /\ auth_data_root_of auth_data_hash (auth_digest_of <$> block_txs) = Ok auth.
Proof.
  intros Hnu Hup Htxs fee Hmax Hs Hd Hsig Hroot.
  assert (Forall (amount_in NonNegative) (vu_miner_fee <$> txs)) as Hfees by (apply Forall_fmap, Htxs).
  assert (amount_in NonNegative fee) as Hf.
  { assert (0 <= fee) by (by apply (fees_nonneg nu)).
    pose proof (rw_subsidy_in _ _ _ _ _ _ _ _ paid). amount_lia. }
  destruct (coinbase_built nu fee script data Hnu Hup Hf Hmax Hs Hd Hsig) as (cfee & n & Hbuilt & Hcfee & Hn). set (data' := nonempty_data data) in *.
  set (tx := built_coinbase nu height data' ((miner + fee, script) :: due_outputs)) in *.
  set (block_txs := tx :: ((fun v => unmined_transaction (vu_transaction v)) <$> txs)).
  destruct (merkle_root_total merkle_hash (transaction_hash <$> block_txs)) as [merkle Hmerkle]; [done|].
  destruct (auth_data_root_total auth_data_hash (auth_digest_of <$> block_txs)) as [auth Hauth].
  exists n, merkle, auth. cbn zeta. fold data'. fold tx block_txs. split; [|done].
  unfold generate_coinbase_and_roots, calculate_miner_fee. destruct (amount_sum_nonneg _ Hfees) as [_ Hsum].
  rewrite (proj2 (Hsum fee)); [|split; [by rewrite sum_Z_fmap|]; rewrite sum_Z_fmap; change (id ∘ vu_miner_fee) with vu_miner_fee; fold fee; amount_lia].
  cbn [expect lift mbind res_bind]. rewrite standard_outputs by done. cbn [lift mbind res_bind]. rewrite Hnu. cbn [lift mbind res_bind].
  replace (match nu with
           | Canopy => lift (new_v4_coinbase height ((miner + fee, script) :: due_outputs) data)
           | Nu5 | Nu6 | Nu6_1 | Nu7 => lift (new_v5_coinbase network height ((miner + fee, script) :: due_outputs) data)
           | _ => Err "Zebra does not support generating pre-Canopy coinbase transactions"%string
           end) with (Ok (E := string) tx) by (destruct nu; try done; cbn in Hbuilt; by rewrite Hbuilt).
  cbn [mbind res_bind]. unfold UnminedTx_from. rewrite Hcfee. cbn [lift unwrap mbind res_bind]. unfold from_coinbase. cbn [unmined_transaction unmined_id_].
  assert (is_coinbase tx = true) as -> by (unfold tx; by destruct nu). cbn [assert_ mbind res_bind]. rewrite (amount_neg_eq NonNegative) by done. cbn [mbind res_bind].
  unfold amount_constrain. rewrite amount_try_from_in by amount_lia. cbn [expect mbind res_bind]. rewrite Hn. cbn [expect lift mbind res_bind].
  unfold calculate_default_root_hashes. pose proof (sk_ids _ _ Htxs) as Hids. rewrite Forall_forall in Hids.
  assert (((fun tx : UnminedTx => mined_id (unmined_id_ tx)) <$> (mkUnminedTx tx (unmined_id tx) (transaction_size tx) cfee :: (vu_transaction <$> txs)))
    = transaction_hash <$> block_txs) as ->.
  { unfold block_txs. rewrite !fmap_cons, <- !list_fmap_compose. cbn [unmined_id_]. rewrite mined_unmined. f_equal.
    apply list_fmap_ext. intros j v Hv%list_elem_of_lookup_2. unfold compose. by rewrite Hids, mined_unmined. }
  assert (((fun tx : UnminedTx => default AUTH_DIGEST_PLACEHOLDER (id_auth_digest (unmined_id_ tx)))
      <$> (mkUnminedTx tx (unmined_id tx) (transaction_size tx) cfee :: (vu_transaction <$> txs))) = auth_digest_of <$> block_txs) as ->.
  { unfold block_txs. rewrite !fmap_cons, <- !list_fmap_compose. f_equal.
    apply list_fmap_ext. intros j v Hv%list_elem_of_lookup_2. unfold compose, auth_digest_of. by rewrite Hids. }
  rewrite Hmerkle. cbn [mbind res_bind]. rewrite Hauth. cbn [mbind res_bind lift]. rewrite bool_decide_eq_false_2 by done.
  by rewrite mined_unmined.
Qed.

(** The placeholder has the scripts of the coinbase transaction, and so as
    many signature operations. *)
Lemma fake_coinbase_sigops nu script data txs root : nu_current network height = Ok nu -> template_upgrade nu = true -> nu <> Canopy ->
  selected_ok nu txs -> subsidy + sum_Z vu_miner_fee txs <= MAX_MONEY -> subsidy + 1 <= MAX_MONEY ->
  (length script <= 40)%nat -> Z.of_nat (length data) <= 94 -> sigop_counts -> root <> zero_bytes 32 ->
  exists fake coinbase roots, fake_coinbase_transaction network height (Some script) data = Ok fake
    /\ generate_coinbase_and_roots network height (Some script) txs (Some root) data = Ok (coinbase, roots)
    /\ tt_sigops fake = tt_sigops coinbase /\ inputs (tt_data fake) = inputs (tt_data coinbase)
    /\ lock_script <$> outputs (tt_data fake) = lock_script <$> outputs (tt_data coinbase).
Proof.
  intros Hnu Hup Hne Htxs Hmax Hone Hs Hd Hsig Hroot.
  destruct (generated nu script data txs root Hnu Hup Htxs Hmax Hs Hd Hsig Hroot) as (n & merkle & auth & Hgen & Hn & _).
  assert (amount_in NonNegative 1) as H1' by amount_lia.
  destruct (coinbase_built nu 1 script data Hnu Hup H1' Hone Hs Hd Hsig) as (cfee & k & Hbuilt & Hcfee & Hk).
  set (fake := built_coinbase nu height _ ((miner + 1, script) :: due_outputs)) in *. set (real := built_coinbase nu height _ _) in Hn, Hgen.
  assert (k = n) as ->.
  { assert (scripts fake = scripts real) as Hsc by (unfold fake, real, scripts; destruct nu; reflexivity).
    unfold sigops in Hk, Hn. rewrite Hsc, Hn in Hk. by injection Hk. }
  eexists (mkTransactionTemplate fake (transaction_hash fake) (auth_digest_of fake) [] (- 1) n true), _, _.
  split; [|split; [exact Hgen|]; split; [reflexivity|]; split; unfold fake, real; by destruct nu].
  unfold fake_coinbase_transaction. rewrite amount_try_from_in by done. cbn [expect mbind res_bind]. rewrite standard_outputs by done. cbn [mbind res_bind].
  replace (new_v5_coinbase network height ((miner + 1, script) :: due_outputs) data) with (Ok (E := Empty_set) fake) by (by destruct nu).
  cbn [mbind res_bind]. unfold UnminedTx_from. rewrite Hcfee. cbn [mbind res_bind]. unfold from_coinbase. cbn [unmined_transaction unmined_id_].
  assert (is_coinbase fake = true) as -> by (unfold fake; by destruct nu). cbn [assert_ mbind res_bind]. rewrite (amount_neg_eq NonNegative) by done. cbn [mbind res_bind].
  unfold amount_constrain. rewrite amount_try_from_in by amount_lia. cbn [expect mbind res_bind]. rewrite Hk. cbn [expect mbind res_bind].
  by rewrite mined_unmined.
Qed.
End Rewards.

Lemma new_internal_max_time network script info id txs old data fat_pointer template :
  new_internal network script info id txs old data fat_pointer = Ok template -> bt_max_time template = ci_max_time info.
Proof.
  intros (h & _ & (h' & _ & (ts & _ & ([c r] & _ & (e & _ & (t & _ & <-%Ok_inj)%bind_Ok_inv)%bind_Ok_inv)%bind_Ok_inv)%bind_Ok_inv)%bind_Ok_inv)%bind_Ok_inv.
  done.
Qed.

(** * The proposal *)

Section Proposal.
Context {HistoryT : Type} `{!HistoryTreeHash HistoryT}.

(** What the verifier and the state check of a proposal at a height, with the
    fees of its transactions, at the local time [now]. *)
Definition proposal_accepted (network : Network) (now height fee finalized_tip : Z) (relevant_chain : list Block)
    (history_tree : HistoryT) (block : Block) : Prop :=
  exists coinbase subsidy deferred,
    block_checks network now (CheckProposal block) height (transaction_hash <$> transactions block) = Ok (coinbase, subsidy, deferred)
    /\ miner_fees_are_valid coinbase height fee subsidy deferred network = Ok tt
    /\ (forall prepared, sv_block prepared = block -> sv_height prepared = height ->
        block_is_valid_for_recent_chain prepared network (Some finalized_tip) relevant_chain = Ok tt)
    /\ block_commitment_is_valid_for_chain_history block network history_tree = Ok tt.

Lemma built_height nu height data outs : head (inputs (built_coinbase nu height data outs))
  = Some (Coinbase height data (match nu with Canopy => u32_MAX | _ => 0 end)).
Proof. by destruct nu. Qed.

Lemma merkle_ok network nu height data outs txs header :
  nu_current network height = Ok nu -> selected_ok nu txs ->
  let tx := built_coinbase nu height data outs in
  let block := mkBlock header (tx :: ((fun v => unmined_transaction (vu_transaction v)) <$> txs)) in
  merkle_root_of merkle_hash (transaction_hash <$> transactions block) = Ok (merkle_root header) ->
  merkle_root_validity network block (transaction_hash <$> transactions block) = Ok tt
  /\ coinbase_is_first block = Ok tx /\ coinbase_height block = Some height.
Proof.
  intros Hnu Htxs tx block Hroot.
  assert (coinbase_height block = Some height) as Hh.
  { unfold coinbase_height, block. cbn [transactions head mbind option_bind]. unfold tx. by rewrite built_height. }
  split; [|split; [|done]].
  - unfold merkle_root_validity, check_transaction_network_upgrade_consistency. rewrite Hh. cbn [unwrap mbind res_bind]. rewrite Hnu. cbn [lift mbind res_bind].
    replace (existsb _ _) with false; cycle 1.
    { symmetry. apply not_true_is_false. intros (u & Hu & Hne)%existsb_exists. apply list_elem_of_In, list_elem_of_omap in Hu as (t & Ht & Hu).
      apply negb_true_iff, bool_decide_eq_false in Hne. apply Hne. apply elem_of_cons in Ht as [->|Ht].
      - unfold tx in Hu. destruct nu; by inversion Hu.
      - apply list_elem_of_fmap in Ht as (v & -> & Hv). pose proof (sk_upgrade _ _ Htxs) as Hup. rewrite Forall_forall in Hup. by apply (Hup v Hv). }
    cbn [map_err mbind res_bind]. rewrite Hroot. cbn [lift mbind res_bind]. rewrite bool_decide_eq_true_2 by done. cbn [negb].
    rewrite size_list_to_set; [by rewrite Nat.eqb_refl|]. cbn [transactions block]. rewrite fmap_cons, <- list_fmap_compose.
    constructor; [|apply Htxs]. intros (v & Heq & Hv)%list_elem_of_fmap. apply (sk_coinbase _ _ Htxs v tx Hv); [unfold tx; by destruct nu|done].
  - unfold coinbase_is_first. cbn [transactions block head tail ok_or mbind res_bind].
    assert (is_coinbase tx = true) as -> by (unfold tx; by destruct nu). cbn [negb].
    replace (forallb _ _) with true; [done|]. symmetry. apply forallb_forall. intros t Ht%list_elem_of_In.
    apply list_elem_of_fmap in Ht as (v & -> & Hv). pose proof (sk_inputs _ _ Htxs) as Hin. rewrite Forall_forall in Hin. by apply Hin.
Qed.

Lemma recent_chain_ok network tip_height relevant_chain limit finalized_tip prepared d :
  template_context network tip_height relevant_chain limit -> finalized_tip <= tip_height ->
  head relevant_chain ≫= coinbase_height = Some tip_height ->
  coinbase_height (sv_block prepared) = Some (tip_height + 1) -> sv_height prepared = tip_height + 1 ->
  difficulty_threshold (block_header (sv_block prepared)) = d ->
  difficulty_threshold_and_time_are_valid d (candidate_at network tip_height relevant_chain (time (block_header (sv_block prepared)))) = Ok tt ->
  block_is_valid_for_recent_chain prepared network (Some finalized_tip) relevant_chain = Ok tt.
Proof.
  intros Hok Hfin Hparent Hh Hsv Hd Hvalid. unfold block_is_valid_for_recent_chain. cbn [unwrap mbind res_bind].
  unfold block_is_not_orphaned. rewrite Hsv, (proj2 (Z.leb_gt _ _)) by lia. cbn [mbind res_bind].
  destruct relevant_chain as [|parent rest] eqn:Hc; [done|]. cbn [head mbind option_bind] in Hparent.
  destruct (take POW_ADJUSTMENT_BLOCK_SPAN (parent :: rest)) as [|parent' rest'] eqn:Ht; [done|].
  assert (parent' = parent) as -> by (change POW_ADJUSTMENT_BLOCK_SPAN with 28%nat in Ht; cbn in Ht; by injection Ht).
  rewrite Hparent. cbn [unwrap mbind res_bind]. destruct (tc_height _ _ _ _ Hok) as [Htip Hm]. change Height_MAX with 2147483647 in Hm.
  assert (height_add_diff tip_height 1 = Ok (Some (tip_height + 1))) as Hadd.
  { unfold height_add_diff. rewrite arith_i_in by width_lia. cbn [mbind res_bind]. rewrite checked_in by width_lia.
    unfold height_try_from_u32. rewrite (proj2 (Z.leb_le _ _)); [done|]. change Height_MAX with 2147483647. lia. }
  unfold height_one_more_than_parent_height. rewrite Hadd. cbn [lift mbind res_bind]. rewrite bool_decide_eq_true_2 by done. cbn [mbind res_bind].
  rewrite <- Ht. unfold new_from_block. rewrite Hh. cbn [unwrap mbind res_bind].
  rewrite height_sub_diff_spec by width_lia. cbn [mbind res_bind]. unfold in_range.
  replace (tip_height + 1 - 1) with tip_height by lia. change Height_MAX with 2147483647; change Height_MIN with 0.
  rewrite !(proj2 (Z.leb_le _ _)) by lia. cbn [andb unwrap mbind res_bind]. unfold new_from_header_time. rewrite Hadd. cbn [unwrap lift mbind res_bind].
  unfold candidate_at, relevant_data in Hvalid. cbn zeta in *. rewrite !fmap_take in *. rewrite Hd, !take_take, Nat.min_id. exact Hvalid.
Qed.

Lemma commitment_ok network height nu history_tree root block auth :
  nu_current network height = Ok nu -> template_upgrade nu = true -> history_hash history_tree = Some root ->
  activation_height Heartwood network <> Some height -> coinbase_height block = Some height ->
  auth_data_root block = auth ->
  commitment_bytes (block_header block) = (match nu with Canopy => root | _ => from_commitments root auth end) ->
  block_commitment_is_valid_for_chain_history block network history_tree = Ok tt.
Proof.
  intros Hnu Hup Hroot Hhw Hh Hauth Hb. unfold block_commitment_is_valid_for_chain_history, block_commitment. rewrite Hh.
  assert (exists a, current_with_activation_height network height = Ok (nu, a)) as [a Ha].
  { unfold nu_current in Hnu. unfold current_with_activation_height. destruct (last _) as [[h u]|]; [|done]. cbn in *.
    injection Hnu as ->. by exists h. }
  unfold commitment_from_bytes. rewrite Ha. cbn [lift mbind res_bind]. rewrite (bool_decide_eq_false_2 (Some height = _)) by congruence.
  rewrite andb_false_r. destruct nu; try done; cbn [map_err mbind res_bind]; rewrite Hroot; cbn [unwrap mbind res_bind];
    rewrite ?Hauth; by rewrite bool_decide_eq_true_2.
Qed.

Lemma mempool_templates nu txs : selected_ok nu txs ->
  exists templates, map_res from_mempool_tx txs = Ok (E := Empty_set) templates
    /\ tt_data <$> templates = (fun v => unmined_transaction (vu_transaction v)) <$> txs.
Proof.
  intros Htxs. pose proof (sk_inputs _ _ Htxs) as Hin. clear Htxs. induction Hin as [|v txs Hv _ (ts & IH & Hd)]; [by exists []|].
  assert (is_coinbase (unmined_transaction (vu_transaction v)) = false) as Hc.
  { unfold is_coinbase. unfold is_valid_non_coinbase in Hv. by destruct (inputs _) as [|[] []]. }
  assert (exists t, from_mempool_tx v = Ok t /\ tt_data t = unmined_transaction (vu_transaction v)) as (t & Ht & Hdata)
    by (unfold from_mempool_tx; rewrite Hc; by eexists).
  exists (t :: ts). cbn [map_res]. rewrite Ht. cbn [mbind res_bind]. rewrite IH. split; [done|]. by rewrite !fmap_cons, Hd, Hdata.
Qed.

(** A time of the template, and whether it is the current time or the minimum
    difficulty rule allows all of them. *)
Definition allowed_source (network : Network) (tip_height : Z) (source : BlockTemplateTimeSource) : Prop :=
  match source with
  | CurTime => True
  | MinTime | MaxTime | Clamped _ | ClampedNow =>
      minimum_difficulty_spacing_for_height network (tip_height + 1) = minimum_difficulty_spacing_for_height network tip_height
  | Raw _ | RawNow => False
  end.

Lemma source_time now network tip_height source template : allowed_source network tip_height source ->
  bt_min_time template <= bt_cur_time template <= bt_max_time template ->
  exists t, time_from_template now source template = Ok t /\ bt_min_time template <= t <= bt_max_time template
    /\ (source = CurTime -> t = bt_cur_time template).
Proof. intros Ha Ht. destruct source; try done; cbn; rewrite ?clamp_in by lia; eexists; (split; [done|]); split; (done || lia). Qed.

(** C14. A block that a miner proposes from a block template is accepted. On a
    chain whose tip can be extended, for transactions that may be in the next
    block and before the third halving, the node makes a template; the proposal
    built from it, with the current time of the template or, where the minimum
    difficulty rule has one spacing, any time of its range, passes the checks of
    the header, the Merkle root, the coinbase and the subsidy, pays exactly the
    subsidy and the fees, passes the difficulty and time rules of the chain and
    commits to its history. *)
Theorem template_proposal_accepted network tip_height tip_hash relevant_chain limit history_tree root finalized_tip
    subsidy miner values address disbursements divisor nu script data txs long_poll_id submit_old fat_pointer clock :
  template_context network tip_height relevant_chain limit -> head relevant_chain ≫= coinbase_height = Some tip_height ->
  finalized_tip <= tip_height -> history_hash history_tree = Some root -> root <> zero_bytes 32 ->
  (forall b, auth_data_root_of auth_data_hash (auth_digest_of <$> transactions b) = Ok (auth_data_root b)) ->
  rewards network (tip_height + 1) subsidy miner values address disbursements divisor ->
  activation_height Heartwood network <> Some (tip_height + 1) ->
  nu_current network (tip_height + 1) = Ok nu -> template_upgrade nu = true -> selected_ok nu txs ->
  subsidy + sum_Z vu_miner_fee txs + sum_Z snd disbursements <= MAX_MONEY ->
  (length script <= 40)%nat -> Z.of_nat (length data) <= 94 -> sigop_counts ->
  exists info template,
    difficulty_time_and_history_tree clock relevant_chain tip_height tip_hash network (history_hash history_tree) = Ok info
    /\ new_internal network (Some script) info long_poll_id txs submit_old data fat_pointer = Ok template
    /\ forall source now time, allowed_source network tip_height source ->
        time_from_template clock source template = Ok time -> time <= now + 2 * 60 * 60 ->
        exists block, proposal_block_from_template clock template (Some source) network = Ok block
          /\ proposal_accepted network now (tip_height + 1) (sum_Z vu_miner_fee txs) finalized_tip relevant_chain history_tree block.
Proof.
  intros Hctx Hparent Hfin Hhist Hroot Hauth Hpaid Hhw Hnu Hup Htxs Hmax Hs Hd Hsig. rewrite Hhist.
  destruct (template_times_valid clock network tip_height tip_hash relevant_chain (Some root) limit Hctx)
    as (info & Hinfo & Hih & Hit & Hir & Hrange & (e & He & Hel) & Hcur & Hall).
  destruct (deferred_in _ _ _ _ _ _ _ _ Hpaid) as (_ & _ & Hdis & _).
  destruct (generated _ _ _ _ _ _ _ _ Hpaid nu script data txs root Hnu Hup Htxs ltac:(lia) Hs Hd Hsig Hroot)
    as (n & merkle & auth & Hgen & _ & Hmerkle & Hauth'). set (data' := nonempty_data data) in *.
  destruct (mempool_templates nu txs Htxs) as (ts & Hts & Htd).
  pose proof (fees_nonneg nu txs Htxs) as Hfees. pose proof (rw_subsidy_in _ _ _ _ _ _ _ _ Hpaid) as Hsub.
  assert (new_candidate_height : height_add_diff tip_height 1 = Ok (Some (tip_height + 1))).
  { pose proof (new_candidate network tip_height relevant_chain limit Hctx 0) as Hn. unfold new_from_header_time in Hn.
    apply bind_Ok_inv in Hn as (h & -> & (h' & ->%unwrap_Ok & Hn)%bind_Ok_inv). injection Hn as ->. done. }
  exists info. unfold new_internal. rewrite Hit, new_candidate_height, Hir. cbn [unwrap mbind res_bind]. rewrite Hts. cbn [mbind res_bind].
  rewrite Hgen. cbn [expect mbind res_bind]. rewrite He. cbn [unwrap mbind res_bind]. eexists. split; [done|]. split; [done|].
  intros source now time Hsrc Htime Hnow. set (template := mkBlockTemplateResponse _ _ _ _ _ _ _ _ _ _ _ _ _ _ _ _ _ _ _) in *.
  set (tx := built_coinbase nu (tip_height + 1) data' _) in *.
  assert (difficulty_threshold_and_time_are_valid (ci_expected_difficulty info) (candidate_at network tip_height relevant_chain time) = Ok tt) as Hdiff.
  { destruct (source_time clock network tip_height source template Hsrc Hrange) as (t & Ht & Hr & Hc). rewrite Htime in Ht. apply Ok_inj in Ht as <-.
    destruct source; try done; [rewrite Hc by done; exact Hcur|by apply Hall..]. }
  set (commitment := match nu with Canopy => root | _ => from_commitments root auth end).
  set (block := mkBlock (mkHeader (ZCASH_BLOCK_VERSION + 2) (ci_tip_hash info) merkle commitment time (ci_expected_difficulty info) (zero_bytes 32)
                  Solution_for_proposal fat_pointer) (tx :: ((fun v => unmined_transaction (vu_transaction v)) <$> txs))).
  exists block. split.
  { unfold proposal_block_from_template. cbn [bt_height template]. rewrite (proj2 (Z.ltb_ge _ _)) by (apply Hpaid).
    change (default CurTime (Some source)) with source. rewrite Htime. cbn [lift mbind res_bind]. rewrite Hnu. cbn [lift mbind res_bind]. unfold block, commitment.
    cbn [bt_transactions template]. rewrite Htd. by destruct nu. }
  destruct (merkle_ok network nu (tip_height + 1) data' _ txs (block_header block) Hnu Htxs Hmerkle) as (Hmok & Hfirst & Hheight).
  fold tx in Hmok, Hfirst, Hheight. change (mkBlock (block_header block) _) with block in Hmok, Hfirst, Hheight.
  exists tx, subsidy, (deferred_change values disbursements). split; [|split; [|split]].
  - unfold block_checks. cbn [request_block is_proposal orb]. unfold difficulty_threshold_is_valid. cbn [block_header block difficulty_threshold].
    rewrite He. cbn [lift ok_or mbind res_bind]. destruct (tc_relevant _ _ _ _ Hctx) as (window & mean & [Hlimit _ _ _ _] & _).
    cbn [candidate_at ad_network] in Hlimit. rewrite Hlimit. cbn [lift mbind res_bind]. rewrite (proj2 (Z.ltb_ge _ _)) by lia. cbn [map_err mbind res_bind].
    rewrite Hmok. cbn [map_err mbind res_bind]. unfold time_is_valid_at. cbn [BlockHeader.time block_header block].
    rewrite (proj2 (Z.leb_le _ _)) by done. cbn [map_err mbind res_bind]. rewrite Hfirst. cbn [map_err mbind res_bind].
    rewrite (rw_subsidy _ _ _ _ _ _ _ _ Hpaid). cbn [map_err mbind res_bind].
    rewrite (subsidy_ok _ _ _ _ _ _ _ _ Hpaid block tx (miner + sum_Z vu_miner_fee txs) script) by (done || (unfold tx; by destruct nu) || amount_lia).
    cbn [map_err mbind res_bind]. unfold coinbase_outputs_are_decryptable. assert (has_shielded_outputs tx = false) as -> by (unfold tx; by destruct nu). done.
  - apply (fees_ok _ _ _ _ _ _ _ _ Hpaid tx _ script nu); try (done || (unfold tx; by destruct nu)). amount_lia.
  - intros prepared Hb Hsv. eapply recent_chain_ok; [done|done|done|by rewrite Hb|done|by rewrite Hb|]. by rewrite Hb.
  - eapply commitment_ok; [done..| |]; [|reflexivity]. specialize (Hauth block). cbn [transactions block] in Hauth. rewrite Hauth' in Hauth. by injection Hauth.
Qed.
End Proposal.
End Template.

Module TemplateBlockExample.
#[local] Existing Instance release_build.
#[local] Instance example_parser : AddressParser := fun _ => Some (PayToScriptHash TestnetKind []).
#[local] Instance example_tx_primitives : TxPrimitives := {
  transaction_hash := fun tx => if is_coinbase tx then [Byte.x05] else [Byte.x07];
  transaction_auth_digest := fun _ => [Byte.x06];
  transaction_size := fun _ => 100;
  decrypts_successfully := fun _ _ _ => true;
  sighasher_ok := fun _ _ _ => true;
  verify_callback := fun _ _ _ _ _ _ _ _ => Ok tt;
  joinsplit_item := fun _ _ => Ok tt;
  verify_joinsplit_proof := fun _ _ => Ok tt;
  verify_joinsplit_sig := fun _ _ _ _ => Ok tt;
  sapling_bundle_check := fun _ _ _ => None;
  orchard_bundle_check := fun _ _ _ => None;
  legacy_sigop_count_script := fun _ => Ok 0
}.
#[local] Instance example_block_primitives : BlockPrimitives := {
  block_hash := fun _ => [Byte.x01];
  merkle_hash := fun a b => Byte.xff :: a ++ b;
  is_valid_solution := fun _ _ _ _ _ => true
}.
#[local] Instance example_auth_hash : AuthDataHash := fun a b => Byte.xfe :: a ++ b.
#[local] Instance example_commitments : CommitmentOps := {|
  sapling_root_canonical _ := true;
  block_header_hash _ := [];
  auth_data_root b := match auth_data_root_of auth_data_hash (auth_digest_of <$> transactions b) with Ok root => root | _ => [] end;
  from_commitments a b := Byte.xfd :: a ++ b
|}.
#[local] Instance example_history : HistoryTreeHash bytes := Some.

(** A network with NU6 from height 1 on, with a stream of 8 percent for grants
    and 12 percent deferred, and its block at height 14. *)
Definition grants_address : Address := PayToScriptHash TestnetKind (replicate 20 Byte.x11).
Definition grants : FundingStreams :=
  mkFundingStreams (10, 20) {[MajorGrants := mkFundingStreamRecipient 8 [grants_address]; DeferredReceiver := mkFundingStreamRecipient 12 []]}.
Definition network : Network :=
  Testnet (mkParameters "Example" [] [] [(0, Genesis); (1, Nu6)] 0 0 [grants] (2 ^ 251 - 1) true true 1000 2000 []).
Definition tip : Block :=
  mkBlock (mkHeader 4 [] [] [] 1000000 0x2007ffff [] Solution_for_proposal FatPointerToBftBlock_null)
    [V5 Nu6 (LockHeight 0) 14 [Coinbase 14 [] 0] [] None None].
Definition limit : Z := Eval vm_compute in match target_difficulty_limit (network_limit network) with Ok l => l | _ => 0 end.
Definition values : gmap FundingStreamReceiver Z := {[MajorGrants := 50000000; DeferredReceiver := 75000000]}.
Definition spend : Transaction := V5 Nu6 (LockHeight 0) 0 [PrevOut (mkOutPoint [Byte.x09] 0) [] 0] [mkOutput 40000 []] None None.
Definition spend_tx : VerifiedUnminedTx := mkVerifiedUnminedTx (mkUnminedTx spend (unmined_id spend) 100 10000) 10000 0 2 0.

Lemma example_context : template_context network 14 [tip] limit.
Proof.
  split.
  - split; [lia|vm_compute; reflexivity].
  - done.
  - constructor; [|constructor]. vm_compute. split; discriminate.
  - exists 0. vm_compute. reflexivity.
  - eexists. vm_compute. reflexivity.
  - exists 1275, limit. split; [|split; [vm_compute; reflexivity|vm_compute; discriminate]].
    split; [vm_compute; reflexivity|vm_compute; split; reflexivity|vm_compute; reflexivity|done|].
    constructor; [|constructor]. eexists. split; [vm_compute; reflexivity|vm_compute; split; discriminate].
Qed.

Lemma example_rewards : rewards network 15 625000000 500000000 values (fun _ => grants_address) [] 1.
Proof.
  split.
  - split; [lia|vm_compute; discriminate].
  - vm_compute. reflexivity.
  - amount_lia.
  - vm_compute. reflexivity.
  - vm_compute. reflexivity.
  - intros r x Hr Hd. unfold values in Hr.
    apply lookup_insert_Some in Hr as [[<- _]|[_ [<- _]%lookup_singleton_Some]]; [|done].
    split; [vm_compute; reflexivity|split; reflexivity].
  - vm_compute. reflexivity.
  - constructor.
  - cbn. lia.
  - vm_compute. reflexivity.
  - auto.
  - exists 1. split; [vm_compute; reflexivity|lia].
  - vm_compute. discriminate.
Qed.

Lemma example_selected : selected_ok Nu6 [spend_tx].
Proof.
  split.
  - constructor; [|constructor]. split; vm_compute; discriminate.
  - constructor; [reflexivity|constructor].
  - constructor; [reflexivity|constructor].
  - constructor; [|constructor]. cbn. intros u [= <-]. done.
  - constructor; [apply not_elem_of_nil|constructor].
  - intros v tx ->%list_elem_of_singleton Htx. cbn. rewrite Htx. discriminate.
Qed.

Lemma template_proposal_accepted_witness :
  exists info template block,
    difficulty_time_and_history_tree 1000100 [tip] 14 [Byte.x01] network (Some [Byte.x08]) = Ok info
    /\ new_internal network (Some [Byte.x51]) info (mkLongPollId 14 0 0 1 0) [spend_tx] None [] FatPointerToBftBlock_null = Ok template
    /\ proposal_block_from_template 1000100 template (Some MaxTime) network = Ok block
    /\ proposal_accepted (HistoryT := bytes) network 1000100 15 10000 10 [tip] [Byte.x08] block.
Proof.
  destruct (template_proposal_accepted network 14 [Byte.x01] [tip] limit [Byte.x08] [Byte.x08] 10 625000000 500000000 values
    (fun _ => grants_address) [] 1 Nu6 [Byte.x51] [] [spend_tx] (mkLongPollId 14 0 0 1 0) None FatPointerToBftBlock_null 1000100)
    as (info & template & Hinfo & Htemplate & Hall).
  - exact example_context.
  - reflexivity.
  - lia.
  - reflexivity.
  - discriminate.
  - intros b. destruct (auth_data_root_total auth_data_hash (auth_digest_of <$> transactions b)) as [root Hroot]. cbn. by rewrite Hroot.
  - exact example_rewards.
  - vm_compute. discriminate.
  - vm_compute. reflexivity.
  - reflexivity.
  - exact example_selected.
  - vm_compute. discriminate.
  - cbn. lia.
  - cbn. lia.
  - intros s _. exists 0. split; [reflexivity|lia].
  - assert (exists bits, difficulty_time_and_history_tree 1000100 [tip] 14 [Byte.x01] network (Some [Byte.x08])
      = Ok (mkGetBlockTemplateChainInfo [Byte.x01] 14 (Some [Byte.x08]) bits 1000100 1000001 1005400)) as [bits Hbits]
      by (eexists; vm_compute; reflexivity).
    change (history_hash [Byte.x08]) with (Some [Byte.x08]) in Hinfo. rewrite Hbits in Hinfo. apply Ok_inj in Hinfo. subst info.
    pose proof (new_internal_max_time _ _ _ _ _ _ _ _ _ Htemplate) as Hmax. cbn in Hmax.
    destruct (Hall MaxTime 1000100 1005400) as (block & Hblock & Hacc); [vm_compute; reflexivity|cbn; by rewrite Hmax|lia|].
    eexists _, template, block. split; [exact Hbits|]. split; [exact Htemplate|]. split; [exact Hblock|exact Hacc].
Defined.
End TemplateBlockExample.
