(* ===== verification/CrosslinkWire.v ===== *)
(** Crosslink's own wire data ([zebra-crosslink/src/chain.rs] and the end of
    [zebra-crosslink/src/lib.rs]): votes, fat pointers to BFT blocks, and BFT
    blocks with the proof-of-work headers they carry.

    BLAKE3 and the Ed25519 batch verifier are third-party code: they are the
    parameters [blake3] and [batch_verify]. *)
From S2P Require Import Prelude Serialization BlockHeader.
From stdpp Require Import prelude strings.
From Stdlib Require Import ZArith Lia.
#[local] Open Scope Z_scope.

(** * Votes *)

(** [round] is an [i32], [height] a [u64]; [typ] is true for a commit. *)
Record MalVote := mkMalVote {
  validator_address : bytes;
  vote_value : bytes;
  vote_height : Z;
  vote_typ : bool;
  vote_round : Z
}.

Definition MalVote_to_bytes (v : MalVote) : bytes :=
  let merged_round_val := as_unsigned 32 (Z.land (vote_round v) 0x7fffffff) in
  let merged_round_val :=
    if vote_typ v then Z.lor merged_round_val 0x80000000 else merged_round_val in
  validator_address v ++ vote_value v ++ le_bytes 8 (vote_height v) ++ le_bytes 4 merged_round_val.

Definition MalVote_from_bytes (b : bytes) : MalVote :=
  let merged_round_val := le_value (take 4 (drop 72 b)) in
  mkMalVote (take 32 b) (take 32 (drop 32 b)) (le_value (take 8 (drop 64 b)))
    (negb (Z.land merged_round_val 0x80000000 =? 0))
    (as_signed 32 (Z.land merged_round_val 0x7fffffff)).

(** * Fat pointers *)

Record FatPointerSignature2 := mkFatPointerSignature2 {
  fps2_public_key : bytes;
  fps2_vote_signature : bytes
}.

Record FatPointerToBftBlock2 := mkFatPointerToBftBlock2 {
  vote_for_block_without_finalizer_public_key : bytes;
  signatures : list FatPointerSignature2
}.

Definition FatPointerSignature2_to_bytes (s : FatPointerSignature2) : bytes :=
  fps2_public_key s ++ fps2_vote_signature s.

Definition FatPointerSignature2_from_bytes (b : bytes) : FatPointerSignature2 :=
  mkFatPointerSignature2 (take 32 b) (take 64 (drop 32 b)).

Definition FatPointerToBftBlock2_to_non_two (fp : FatPointerToBftBlock2) : FatPointerToBftBlock :=
  mkFatPointerToBftBlock (vote_for_block_without_finalizer_public_key fp)
    ((fun two => mkFatPointerSignature (fps2_public_key two) (fps2_vote_signature two))
       <$> signatures fp).

Definition FatPointerToBftBlock2_null : FatPointerToBftBlock2 :=
  mkFatPointerToBftBlock2 (zero_bytes (76 - 32)) [].

Definition FatPointerToBftBlock2_to_bytes (fp : FatPointerToBftBlock2) : bytes :=
  vote_for_block_without_finalizer_public_key fp
  ++ write_u16 (Z.of_nat (length (signatures fp)))
  ++ concat (FatPointerSignature2_to_bytes <$> signatures fp).

Definition FatPointerToBftBlock2_try_from_bytes (b : bytes)
    : outcome (option FatPointerToBftBlock2) :=
  if decide (length b < 76 - 32 + 2)%nat then Ok None
  else
    vote ← slice 0 (76 - 32) b;
    len_bytes ← slice (76 - 32) 2 b;
    _ ← assert_ (bool_decide (length len_bytes = 2%nat));
    let len := le_value len_bytes in
    if Z.of_nat (length b) <? 76 - 32 + 2 + len * (32 + 64) then Ok None
    else
      let rem := drop (76 - 32 + 2) b in
      Ok (Some (mkFatPointerToBftBlock2 vote
                  (FatPointerSignature2_from_bytes <$> chunks_exact (32 + 64) rem))).

Definition get_vote_template (fp : FatPointerToBftBlock2) : MalVote :=
  MalVote_from_bytes (zero_bytes 32 ++ vote_for_block_without_finalizer_public_key fp).

Definition inflate (fp : FatPointerToBftBlock2) : list (MalVote * bytes) :=
  let vote_template := get_vote_template fp in
  (fun s =>
     (mkMalVote (fps2_public_key s) (vote_value vote_template) (vote_height vote_template)
        (vote_typ vote_template) (vote_round vote_template),
      fps2_vote_signature s)) <$> signatures fp.

Definition points_at_block_hash2 (fp : FatPointerToBftBlock2) : bytes :=
  take 32 (vote_for_block_without_finalizer_public_key fp).

(** [validate_signatures]: the batch verifier receives key, signature and
    message of every vote. *)
Definition validate_signatures (batch_verify : list (bytes * bytes * bytes) -> bool)
    (fp : FatPointerToBftBlock2) : bool :=
  batch_verify ((fun vs => (validator_address vs.1, vs.2, MalVote_to_bytes vs.1)) <$> inflate fp).

#[export] Instance FatPointerSignature2_write : ZcashSerialize FatPointerSignature2 := fun s =>
  Ok (FatPointerSignature2_to_bytes s).
#[export] Instance FatPointerSignature2_read : ZcashDeserialize FatPointerSignature2 :=
  b ← read_exact (32 + 64); mret (FatPointerSignature2_from_bytes b).

#[export] Instance FatPointerToBftBlock2_serialize : ZcashSerialize FatPointerToBftBlock2 := fun fp =>
  sigs ← zcash_serialize_external_count (signatures fp);
  Ok (vote_for_block_without_finalizer_public_key fp
      ++ write_u16 (Z.of_nat (length (signatures fp))) ++ sigs).

#[export] Instance FatPointerToBftBlock2_deserialize : ZcashDeserialize FatPointerToBftBlock2 :=
  vote ← read_exact (76 - 32);
  len ← read_u16;
  sigs ← read_items (Z.to_nat len);
  mret (mkFatPointerToBftBlock2 vote sigs).

(** * BFT blocks *)

Record ZcashCrosslinkParameters := mkZcashCrosslinkParameters {
  bc_confirmation_depth_sigma : Z;
  finalization_gap_bound : Z
}.

Definition PROTOTYPE_PARAMETERS : ZcashCrosslinkParameters := mkZcashCrosslinkParameters 3 7.

Record BftBlock := mkBftBlock {
  bft_version : Z;
  bft_height : Z;
  previous_block_fat_ptr : FatPointerToBftBlock2;
  finalization_candidate_height : Z;
  headers : list Header
}.

Inductive InvalidBftBlock : Type :=
| IncorrectConfirmationDepth (expected actual : Z).

(** A write to a byte buffer: what was written, and how the call ended. *)
Definition written : Type := bytes * res IoError unit.

(** The loop that writes the headers stops at the first error. *)
Fixpoint write_headers (hs : list Header) : written :=
  match hs with
  | [] => ([], Ok tt)
  | h :: hs' =>
      match zcash_serialize h with
      | Ok b => let '(bs, r) := write_headers hs' in (b ++ bs, r)
      | Err e => ([], Err e)
      | Panic => ([], Panic)
      end
  end.

(** The result of writing the fat pointer is ignored in the source; writing to
    a buffer cannot fail. *)
Definition BftBlock_write (b : BftBlock) : written :=
  let fp := match zcash_serialize (previous_block_fat_ptr b) with Ok f => f | _ => [] end in
  let pre := write_u32 (bft_version b) ++ write_u32 (bft_height b) ++ fp
             ++ write_u32 (finalization_candidate_height b) in
  match u32_checked (Z.of_nat (length (headers b))) with
  | None => (pre, Panic)
  | Some n => let '(hs, r) := write_headers (headers b) in (pre ++ write_u32 n ++ hs, r)
  end.

#[export] Instance BftBlock_serialize : ZcashSerialize BftBlock := fun b =>
  let '(bs, r) := BftBlock_write b in _ ← r; Ok bs.

#[export] Instance BftBlock_deserialize : ZcashDeserialize BftBlock :=
  version ← read_u32;
  height ← read_u32;
  previous_block_fat_ptr ← zcash_deserialize;
  finalization_candidate_height ← read_u32;
  header_count ← read_u32;
  _ ← reader_of (if 2048 <? header_count then Err (Parse "header_count was greater than 2048.")
                 else Ok tt);
  array ← read_items (Z.to_nat header_count);
  mret (mkBftBlock version height previous_block_fat_ptr finalization_candidate_height array).

(** [BftBlock::finalization_candidate]: the last header. *)
Definition finalization_candidate (b : BftBlock) : outcome Header := unwrap (last (headers b)).

Definition BftBlock_try_from (params : ZcashCrosslinkParameters) (height : Z)
    (prev_fat_ptr : FatPointerToBftBlock2) (candidate_height : Z) (hs : list Header)
    : res InvalidBftBlock BftBlock :=
  let expected := bc_confirmation_depth_sigma params in
  let actual := Z.of_nat (length hs) in
  if negb (actual =? expected) then Err (IncorrectConfirmationDepth expected actual)
  else Ok (mkBftBlock 1 height prev_fat_ptr candidate_height hs).

(** [BftBlock::blake3_hash]. *)
Definition blake3_hash (blake3 : bytes -> bytes) (b : BftBlock) : outcome bytes :=
  bs ← expect (zcash_serialize b); Ok (blake3 bs).

Definition previous_bft_block_hash (b : BftBlock) : bytes :=
  points_at_block_hash2 (previous_block_fat_ptr b).

Record BftBlockAndFatPointerToIt := mkBftBlockAndFatPointerToIt {
  block_ : BftBlock;
  fat_ptr : FatPointerToBftBlock2
}.

(** Both results are ignored, so only a panic stops the call: what was written
    before an error stays in the buffer and the call returns [Ok]. *)
#[export] Instance BftBlockAndFatPointerToIt_serialize : ZcashSerialize BftBlockAndFatPointerToIt := fun p =>
  let '(bs, r) := BftBlock_write (block_ p) in
  match r with
  | Panic => Panic
  | _ =>
      match zcash_serialize (fat_ptr p) with
      | Ok f => Ok (bs ++ f)
      | Err _ => Ok bs
      | Panic => Panic
      end
  end.

#[export] Instance BftBlockAndFatPointerToIt_deserialize : ZcashDeserialize BftBlockAndFatPointerToIt :=
  block ← zcash_deserialize;
  fat_ptr ← zcash_deserialize;
  mret (mkBftBlockAndFatPointerToIt block fat_ptr).

(** * Well-formed values *)

Definition wf_MalVote (v : MalVote) : Prop :=
  length (validator_address v) = 32%nat /\ length (vote_value v) = 32%nat
  /\ is_u64 (vote_height v) /\ is_i32 (vote_round v).

Definition wf_FatPointerSignature2 (s : FatPointerSignature2) : Prop :=
  length (fps2_public_key s) = 32%nat /\ length (fps2_vote_signature s) = 64%nat.

Definition wf_FatPointerToBftBlock2 (fp : FatPointerToBftBlock2) : Prop :=
  length (vote_for_block_without_finalizer_public_key fp) = 44%nat
  /\ Forall wf_FatPointerSignature2 (signatures fp)
  /\ Z.of_nat (length (signatures fp)) <= u16_MAX.

Definition wf_BftBlock (b : BftBlock) : Prop :=
  is_u32 (bft_version b) /\ is_u32 (bft_height b)
  /\ wf_FatPointerToBftBlock2 (previous_block_fat_ptr b)
  /\ is_u32 (finalization_candidate_height b)
  /\ Forall wf_Header (headers b)
  /\ Z.of_nat (length (headers b)) <= 2048.

(** * Votes *)

Lemma land_low31 x : Z.land x 0x7fffffff = x mod 2 ^ 31.
Proof. change 0x7fffffff with (Z.ones 31). by rewrite Z.land_ones. Qed.

Lemma land_high_bit x : 0 <= x < 2 ^ 32 -> Z.land x 0x80000000 = 2 ^ 31 * (x / 2 ^ 31).
Proof.
  intros Hx. apply Z.bits_inj'. intros n Hn.
  change 0x80000000 with (2 ^ 31). rewrite Z.land_spec, Z.pow2_bits_eqb by lia.
  rewrite Z.mul_comm, <- Z.shiftl_mul_pow2, <- Z.shiftr_div_pow2, Z.shiftl_spec by lia.
  destruct (Z.eqb_spec 31 n) as [<- | Hne].
  - rewrite Z.shiftr_spec by lia. by rewrite andb_true_r.
  - rewrite andb_false_r. destruct (Z.ltb_spec n 31).
    + by rewrite Z.testbit_neg_r by lia.
    + rewrite Z.shiftr_spec by lia. replace (n - 31 + 31) with n by lia.
      destruct (Z.eq_dec x 0) as [-> | Hx0]; [by rewrite Z.testbit_0_l |].
      symmetry. apply Z.bits_above_log2; [lia |].
      apply Z.le_lt_trans with 31; [|lia]. apply Z.lt_succ_r, Z.log2_lt_pow2; lia.
Qed.

Lemma lor_high_bit m : 0 <= m < 2 ^ 31 -> Z.lor m 0x80000000 = m + 2 ^ 31.
Proof.
  intros Hm. change 0x80000000 with (Z.shiftl 1 31).
  assert (Hd : Z.land m (Z.shiftl 1 31) = 0).
  { change (Z.shiftl 1 31) with 0x80000000. rewrite land_high_bit by lia.
    rewrite Z.div_small by lia. done. }
  rewrite <- Z.lxor_lor by done. by rewrite <- Z.add_nocarry_lxor.
Qed.

Lemma merge_round_split (typ : bool) m :
  0 <= m < 2 ^ 31 ->
  let x := if typ then Z.lor m 0x80000000 else m in
  0 <= x < 2 ^ 32 /\ negb (Z.land x 0x80000000 =? 0) = typ
  /\ as_signed 32 (Z.land x 0x7fffffff) = m.
Proof.
  intros Hm. cbv zeta. rewrite land_low31. unfold as_signed.
  destruct typ.
  - rewrite lor_high_bit by done. split; [lia |]. rewrite land_high_bit by lia.
    replace ((m + 2 ^ 31) / 2 ^ 31) with 1 by (apply (Z.div_unique _ _ _ m); lia).
    split; [done |].
    replace ((m + 2 ^ 31) mod 2 ^ 31) with m by (apply (Z.mod_unique _ _ 1); lia).
    rewrite Z.mod_small by lia. by rewrite (proj2 (Z.ltb_lt _ _)) by lia.
  - split; [lia |]. rewrite land_high_bit, Z.div_small by lia. split; [done |].
    rewrite !(Z.mod_small m) by lia. by rewrite (proj2 (Z.ltb_lt _ _)) by lia.
Qed.

(** A vote survives encoding up to the sign of its round: only the low 31 bits
    of the [i32] are kept. *)
Lemma MalVote_from_to_bytes v :
  wf_MalVote v ->
  MalVote_from_bytes (MalVote_to_bytes v) =
    mkMalVote (validator_address v) (vote_value v) (vote_height v) (vote_typ v)
      (vote_round v mod 2 ^ 31).
Proof.
  destruct v as [addr val h typ r]. intros (Ha & Hv & Hh & Hr); simpl in Ha, Hv, Hh, Hr.
  pose proof (Z.mod_pos_bound r (2 ^ 31) eq_refl) as Hm.
  assert (Hw : as_unsigned 32 (Z.land r 0x7fffffff) = r mod 2 ^ 31).
  { unfold as_unsigned. rewrite land_low31. apply Z.mod_small. lia. }
  unfold MalVote_to_bytes; cbn [vote_round vote_typ validator_address vote_value vote_height].
  rewrite Hw. cbv zeta.
  destruct (merge_round_split typ _ Hm) as (Hx & Ht & Hs).
  set (x := if typ then _ else _) in *. clearbody x.
  unfold MalVote_from_bytes.
  rewrite (take_app_length' addr) by lia. rewrite (drop_app_length' addr) by lia.
  rewrite (take_app_length' val) by lia.
  replace (drop 64 (addr ++ val ++ le_bytes 8 h ++ le_bytes 4 x)) with (le_bytes 8 h ++ le_bytes 4 x).
  2: { rewrite app_assoc, drop_app_length'; [done |]. rewrite length_app. lia. }
  replace (drop 72 (addr ++ val ++ le_bytes 8 h ++ le_bytes 4 x)) with (le_bytes 4 x).
  2: { rewrite !app_assoc, drop_app_length'; [done |]. rewrite !length_app, length_le_bytes. lia. }
  rewrite (take_app_length' (le_bytes 8 h)) by (by rewrite length_le_bytes).
  rewrite take_ge by (rewrite length_le_bytes; lia).
  rewrite !le_value_bytes by (simpl; width_lia). by rewrite Ht, Hs.
Qed.

Lemma as_signed_low31 x : as_signed 32 (Z.land x 0x7fffffff) = x mod 2 ^ 31.
Proof.
  rewrite land_low31. unfold as_signed.
  pose proof (Z.mod_pos_bound x (2 ^ 31) eq_refl).
  rewrite (Z.mod_small (x mod 2 ^ 31)) by lia. by rewrite (proj2 (Z.ltb_lt _ _)) by lia.
Qed.

Lemma merge_round_join x :
  0 <= x < 2 ^ 32 ->
  let low := as_unsigned 32 (Z.land (as_signed 32 (Z.land x 0x7fffffff)) 0x7fffffff) in
  (if negb (Z.land x 0x80000000 =? 0) then Z.lor low 0x80000000 else low) = x.
Proof.
  intros Hx. cbv zeta. rewrite as_signed_low31, land_low31, Z.mod_mod by lia.
  unfold as_unsigned. pose proof (Z.mod_pos_bound x (2 ^ 31) eq_refl) as Hm.
  rewrite Z.mod_small by lia. rewrite land_high_bit by done.
  pose proof (Z.div_mod x (2 ^ 31) ltac:(lia)) as Hdm.
  assert (Hq : x / 2 ^ 31 = 0 \/ x / 2 ^ 31 = 1) by lia.
  destruct Hq as [Hq | Hq]; rewrite Hq in *; simpl (negb _); cbv iota.
  - lia.
  - rewrite lor_high_bit by lia. lia.
Qed.

(** Every 76-byte string is the encoding of the vote it decodes to. *)
Lemma MalVote_to_from_bytes b :
  length b = 76%nat -> MalVote_to_bytes (MalVote_from_bytes b) = b.
Proof.
  intros Hb. unfold MalVote_from_bytes, MalVote_to_bytes.
  cbn [vote_round vote_typ validator_address vote_value vote_height].
  pose proof (le_value_bound (take 4 (drop 72 b))) as Hx.
  rewrite length_take, length_drop, Hb in Hx. simpl in Hx.
  pose proof (merge_round_join _ ltac:(simpl; exact Hx)) as Hj. cbv zeta in Hj |- *. rewrite Hj.
  rewrite !le_bytes_value by (rewrite length_take, length_drop; lia).
  rewrite (take_ge (drop 72 b)) by (rewrite length_drop; lia).
  replace (drop 72 b) with (drop 8 (drop 64 b)) by (by rewrite drop_drop).
  rewrite take_drop. replace (drop 64 b) with (drop 32 (drop 32 b)) by (by rewrite drop_drop).
  by rewrite !take_drop.
Qed.

Lemma MalVote_with_address b addr :
  length b = 44%nat -> length addr = 32%nat ->
  let t := MalVote_from_bytes (zero_bytes 32 ++ b) in
  mkMalVote addr (vote_value t) (vote_height t) (vote_typ t) (vote_round t)
  = MalVote_from_bytes (addr ++ b).
Proof.
  intros Hb Ha. unfold MalVote_from_bytes; cbn [vote_value vote_height vote_typ vote_round].
  assert (Hd : forall n, (32 <= n)%nat -> drop n (zero_bytes 32 ++ b) = drop n (addr ++ b)).
  { intros n Hn. rewrite !drop_app_ge by (rewrite ?length_zero_bytes; lia).
    by rewrite length_zero_bytes, Ha. }
  rewrite !Hd by lia. by rewrite (take_app_length' addr) by done.
Qed.

(** * Fat pointers: one encoding for the two types *)

Definition of_non_two (fp : FatPointerToBftBlock) : FatPointerToBftBlock2 :=
  mkFatPointerToBftBlock2 (fp_vote_for_block_without_finalizer_public_key fp)
    ((fun s => mkFatPointerSignature2 (fps_public_key s) (fps_vote_signature s)) <$> fp_signatures fp).

Lemma of_to_non_two fp : of_non_two (FatPointerToBftBlock2_to_non_two fp) = fp.
Proof.
  destruct fp as [v sigs]. unfold of_non_two, FatPointerToBftBlock2_to_non_two. simpl. f_equal.
  rewrite <- list_fmap_compose. rewrite <- list_fmap_id. apply list_fmap_ext. by intros _ [] _.
Qed.

Lemma to_of_non_two fp : FatPointerToBftBlock2_to_non_two (of_non_two fp) = fp.
Proof.
  destruct fp as [v sigs]. unfold of_non_two, FatPointerToBftBlock2_to_non_two. simpl. f_equal.
  rewrite <- list_fmap_compose. rewrite <- list_fmap_id. apply list_fmap_ext. by intros _ [] _.
Qed.

Lemma wf_to_non_two fp :
  wf_FatPointerToBftBlock2 fp <-> wf_FatPointerToBftBlock (FatPointerToBftBlock2_to_non_two fp).
Proof.
  unfold wf_FatPointerToBftBlock2, wf_FatPointerToBftBlock, FatPointerToBftBlock2_to_non_two.
  simpl. rewrite length_fmap, Forall_fmap. done.
Qed.

Lemma serialize_to_non_two (fp : FatPointerToBftBlock2) :
  zcash_serialize fp = zcash_serialize (FatPointerToBftBlock2_to_non_two fp).
Proof.
  destruct fp as [v sigs]. unfold zcash_serialize, FatPointerToBftBlock2_serialize,
    FatPointerToBftBlock_serialize, FatPointerToBftBlock2_to_non_two. simpl.
  rewrite length_fmap.
  assert (Hs : zcash_serialize_external_count sigs = zcash_serialize_external_count
    ((fun two => mkFatPointerSignature (fps2_public_key two) (fps2_vote_signature two)) <$> sigs)).
  { induction sigs as [|x sigs IH]; simpl; [done |]. by rewrite IH. }
  by rewrite Hs.
Qed.

Lemma read_signatures_of_non_two n s :
  read_items (T := FatPointerSignature2) n s =
  match read_items (T := FatPointerSignature) n s with
  | Ok (l, s') => Ok ((fun s => mkFatPointerSignature2 (fps_public_key s) (fps_vote_signature s)) <$> l, s')
  | Err e => Err e
  | Panic => Panic
  end.
Proof.
  revert s. induction n as [|n IH]; intros s; simpl; [done |].
  unfold mbind, reader_bind at 1 3, zcash_deserialize, FatPointerSignature2_read,
    FatPointerSignature_read, mbind, reader_bind.
  destruct (read_exact (32 + 64) s) as [[b s1]| |]; [|done|done].
  simpl. rewrite IH. by destruct (read_items n s1) as [[l s2]| |].
Qed.

Lemma deserialize_of_non_two s :
  zcash_deserialize s =
  match (zcash_deserialize : reader FatPointerToBftBlock) s with
  | Ok (fp, s') => Ok (of_non_two fp, s')
  | Err e => Err e
  | Panic => Panic
  end.
Proof.
  unfold zcash_deserialize, FatPointerToBftBlock2_deserialize, FatPointerToBftBlock_deserialize.
  unfold mbind, reader_bind.
  destruct (read_exact (76 - 32) s) as [[v s1]| |]; [|done|done].
  destruct (read_u16 s1) as [[len s2]| |]; [|done|done].
  rewrite read_signatures_of_non_two. by destruct (read_items _ s2) as [[l s3]| |].
Qed.

#[export] Instance FatPointerToBftBlock2_codec :
  Codec FatPointerToBftBlock2 wf_FatPointerToBftBlock2.
Proof.
  split.
  - intros fp Hw%wf_to_non_two. rewrite serialize_to_non_two. by apply codec_total.
  - intros fp bs rest Hw%wf_to_non_two H. rewrite serialize_to_non_two in H.
    rewrite deserialize_of_non_two, (codec_roundtrip _ _ rest Hw H). by rewrite of_to_non_two.
Qed.

#[export] Instance FatPointerToBftBlock2_is_canonical :
  Canonical FatPointerToBftBlock2 wf_FatPointerToBftBlock2.
Proof.
  intros s a rest H. rewrite deserialize_of_non_two in H.
  destruct (zcash_deserialize s) as [[fp s']| |] eqn:E; [|done|done]. injection H as <- <-.
  apply codec_canonical in E as [Hw (bs & Hs & ->)].
  rewrite wf_to_non_two, serialize_to_non_two, to_of_non_two. eauto.
Qed.

(** * BFT blocks *)

Lemma write_headers_Ok hs bs :
  write_headers hs = (bs, Ok tt) <-> zcash_serialize_external_count hs = Ok bs.
Proof.
  revert bs. induction hs as [|h hs IH]; intros bs;
    cbn [write_headers zcash_serialize_external_count].
  { split; by intros [= <-]. }
  destruct (zcash_serialize h) as [b| |]; cbn [mbind res_bind]; [|done|done].
  destruct (write_headers hs) as [bs' r]. destruct r as [[]| |].
  - rewrite (proj1 (IH bs')) by done. cbn [mbind res_bind]. split; by intros [= <-].
  - destruct (zcash_serialize_external_count hs) as [bs2| |]; [|done|done].
    by pose proof (proj2 (IH bs2) eq_refl).
  - destruct (zcash_serialize_external_count hs) as [bs2| |]; [|done|done].
    by pose proof (proj2 (IH bs2) eq_refl).
Qed.

(** What a successful write of a BFT block produces. *)
Lemma BftBlock_serialize_Ok b bs :
  zcash_serialize b = Ok bs <->
  exists fp hs, zcash_serialize (previous_block_fat_ptr b) = Ok fp
    /\ zcash_serialize_external_count (headers b) = Ok hs
    /\ Z.of_nat (length (headers b)) <= u32_MAX
    /\ bs = write_u32 (bft_version b) ++ write_u32 (bft_height b) ++ fp
            ++ write_u32 (finalization_candidate_height b)
            ++ write_u32 (Z.of_nat (length (headers b))) ++ hs.
Proof.
  unfold zcash_serialize at 1, BftBlock_serialize, BftBlock_write.
  assert (Hfp : exists fp, zcash_serialize (previous_block_fat_ptr b) = Ok fp).
  { unfold zcash_serialize, FatPointerToBftBlock2_serialize.
    assert (Hs : exists sb, zcash_serialize_external_count (signatures (previous_block_fat_ptr b)) = Ok sb).
    { induction (signatures _) as [|x l [sb IH]]; simpl; [eauto |]. rewrite IH. simpl. eauto. }
    destruct Hs as [sb ->]. simpl. eauto. }
  destruct Hfp as [fp Hfp]. rewrite Hfp.
  destruct (u32_checked (Z.of_nat (length (headers b)))) as [n|] eqn:En.
  - apply checked_Some in En as [-> Hn].
    destruct (write_headers (headers b)) as [hs r] eqn:Ew. rewrite <- !app_assoc. split.
    + destruct r as [[]| |]; simpl; [|done|done]. intros [= <-].
      apply write_headers_Ok in Ew. exists fp, hs. split_and!; [done.. | lia | done].
    + intros (fp' & hs' & [= <-] & Hhs & _ & ->). apply write_headers_Ok in Hhs.
      rewrite Hhs in Ew. injection Ew as <- <-. done.
  - apply checked_None in En. split; [done |]. intros (fp' & hs' & _ & _ & Hn & _). lia.
Qed.

#[export] Instance BftBlock_codec : Codec BftBlock wf_BftBlock.
Proof.
  split.
  - intros b (_ & _ & Hfp & _ & Hh & Hn).
    destruct (codec_total _ Hfp) as [fp Hf]. destruct (serialize_items_total _ Hh) as [hs Hhs].
    eexists. apply BftBlock_serialize_Ok. exists fp, hs. split_and!; [done.. | width_lia | done].
  - intros b bs rest (Hv & Hht & Hfp & Hc & Hh & Hn) H.
    apply BftBlock_serialize_Ok in H as (fp & hs & Hf & Hhs & _ & ->).
    rewrite <- !app_assoc. unfold zcash_deserialize, BftBlock_deserialize.
    do 2 erewrite reader_bind_Ok by (apply read_le_app; simpl; width_lia).
    erewrite reader_bind_Ok by (by eapply codec_roundtrip).
    do 2 erewrite reader_bind_Ok by (apply read_le_app; simpl; width_lia).
    rewrite (proj2 (Z.ltb_ge _ _)) by lia. erewrite reader_bind_Ok by done.
    rewrite Nat2Z.id. erewrite reader_bind_Ok by (by apply read_items_roundtrip).
    by destruct b.
Qed.

#[export] Instance BftBlock_is_canonical : Canonical BftBlock wf_BftBlock.
Proof.
  intros s a rest H. unfold zcash_deserialize, BftBlock_deserialize in H.
  apply reader_bind_inv in H as (v & s1 & Hv & H). apply reader_bind_inv in H as (ht & s2 & Hht & H).
  apply reader_bind_inv in H as (fp & s3 & Hfp & H). apply reader_bind_inv in H as (c & s4 & Hc & H).
  apply reader_bind_inv in H as (n & s5 & Hn & H). apply reader_bind_inv in H as ([] & s6 & Hle & H).
  apply reader_bind_inv in H as (hs & s7 & Hhs & H). injection H as <- <-.
  apply read_le_inv in Hv as [-> Hv]. apply read_le_inv in Hht as [-> Hht].
  apply codec_canonical in Hfp as [Hfp (fb & Hfb & ->)].
  apply read_le_inv in Hc as [-> Hc]. apply read_le_inv in Hn as [-> Hn].
  apply reader_of_inv in Hle as [Hle ->]. case_match; [done |]. bool_to_prop.
  apply read_items_canonical in Hhs as (Hl & Hf & hb & Hhb & ->).
  change (2 ^ (8 * Z.of_nat 4)) with 4294967296 in *.
  assert (Hln : Z.of_nat (length hs) = n) by lia.
  split.
  { unfold wf_BftBlock. cbn. repeat match goal with |- _ /\ _ => split end; try done; width_lia. }
  eexists. split.
  { apply BftBlock_serialize_Ok. cbn. exists fb, hb. split_and!; [done.. | width_lia | done]. }
  cbn [bft_version bft_height finalization_candidate_height headers].
  by rewrite Hln, <- !app_assoc.
Qed.

Lemma BftBlock_write_of_serialize b bs :
  zcash_serialize b = Ok bs -> BftBlock_write b = (bs, Ok tt).
Proof.
  unfold zcash_serialize, BftBlock_serialize. destruct (BftBlock_write b) as [bs' [[]| |]];
    cbn [mbind res_bind]; [|done|done]. by intros [= <-].
Qed.

Lemma pair_serialize_eq p :
  zcash_serialize p =
    match (BftBlock_write (block_ p)).2 with
    | Panic => Panic
    | _ =>
        match zcash_serialize (fat_ptr p) with
        | Ok f => Ok ((BftBlock_write (block_ p)).1 ++ f)
        | Err _ => Ok (BftBlock_write (block_ p)).1
        | Panic => Panic
        end
    end.
Proof.
  unfold zcash_serialize at 1, BftBlockAndFatPointerToIt_serialize.
  by destruct (BftBlock_write (block_ p)).
Qed.

Lemma pair_serialize_Ok p bs fp :
  zcash_serialize (block_ p) = Ok bs -> zcash_serialize (fat_ptr p) = Ok fp ->
  zcash_serialize p = Ok (bs ++ fp).
Proof.
  intros Hb Hf. by rewrite pair_serialize_eq, (BftBlock_write_of_serialize _ _ Hb), Hf.
Qed.

(** * Claims *)

(** C37. The wire format of a BFT block: a well-formed block (at most 2048 headers,
    65535 signatures, fields in the range of their types) can be written and
    is read back unchanged with any rest; the reader accepts only encodings of
    well-formed blocks; and so blocks with equal encodings are equal, which is
    what makes the hash of the encoding identify the block. *)
Theorem bft_block_wire_format :
  (forall b, wf_BftBlock b ->
     exists bs, zcash_serialize b = Ok bs
       /\ forall rest, zcash_deserialize (bs ++ rest) = Ok (b, rest))
  /\ (forall s b rest, zcash_deserialize s = Ok (b, rest) ->
        wf_BftBlock b /\ exists bs, zcash_serialize b = Ok bs /\ s = bs ++ rest)
  /\ (forall b1 b2 bs, wf_BftBlock b1 -> wf_BftBlock b2 ->
        zcash_serialize b1 = Ok bs -> zcash_serialize b2 = Ok bs -> b1 = b2).
Proof.
  split; [|split].
  - intros b Hw. destruct (codec_total b Hw) as [bs Hb]. exists bs.
    split; [done |]. intros. by eapply codec_roundtrip.
  - intros s b rest H. by apply codec_canonical.
  - intros b1 b2 bs H1 H2 E1 E2.
    pose proof (codec_roundtrip b1 bs [] H1 E1) as R1.
    pose proof (codec_roundtrip b2 bs [] H2 E2) as R2. rewrite R1 in R2. by injection R2.
Qed.

(** The same for a BFT block together with the fat pointer to it, the unit in
    which decided blocks are stored and loaded. *)
Theorem bft_block_and_fat_pointer_roundtrip (p : BftBlockAndFatPointerToIt) (rest : bytes) :
  wf_BftBlock (block_ p) -> wf_FatPointerToBftBlock2 (fat_ptr p) ->
  exists bs, zcash_serialize p = Ok bs /\ zcash_deserialize (bs ++ rest) = Ok (p, rest).
Proof.
  intros Hb Hf. destruct (codec_total _ Hb) as [bs Ebs]. destruct (codec_total _ Hf) as [fs Efs].
  exists (bs ++ fs). split; [by apply pair_serialize_Ok |].
  rewrite <- app_assoc. unfold zcash_deserialize, BftBlockAndFatPointerToIt_deserialize.
  erewrite reader_bind_Ok by (by eapply codec_roundtrip).
  erewrite reader_bind_Ok by (by eapply codec_roundtrip). by destruct p.
Qed.

(** Writing a block together with its fat pointer drops an error of the block:
    whenever the write of the block fails, the call still returns [Ok], with
    the bytes written before the failure followed by the fat pointer. *)
Theorem bft_block_and_fat_pointer_swallows_error (p : BftBlockAndFatPointerToIt) e :
  wf_FatPointerToBftBlock2 (fat_ptr p) ->
  zcash_serialize (block_ p) = Err e ->
  exists partial fp, zcash_serialize p = Ok (partial ++ fp)
    /\ BftBlock_write (block_ p) = (partial, Err e)
    /\ zcash_serialize (fat_ptr p) = Ok fp.
Proof.
  intros Hf He. destruct (codec_total _ Hf) as [fs Efs].
  unfold zcash_serialize, BftBlock_serialize in He.
  destruct (BftBlock_write (block_ p)) as [partial [[]| |]] eqn:Ew; cbn [mbind res_bind] in He;
    [done | | done]. injection He as <-.
  exists partial, fs. split_and!; [|done|done].
  by rewrite pair_serialize_eq, Ew, Efs.
Qed.

(** What the batch verifier checks: for every signature of a well-formed fat
    pointer, the message is the 76-byte vote made of the signer's public key
    followed by the fat pointer's common part, and the vote is for the block
    the fat pointer points at. *)
Theorem fat_pointer_signed_messages (batch_verify : list (bytes * bytes * bytes) -> bool)
    (fp : FatPointerToBftBlock2) :
  wf_FatPointerToBftBlock2 fp ->
  validate_signatures batch_verify fp =
    batch_verify ((fun s => (fps2_public_key s, fps2_vote_signature s,
                     fps2_public_key s ++ vote_for_block_without_finalizer_public_key fp))
                  <$> signatures fp)
  /\ Forall (fun v => vote_value v.1 = points_at_block_hash2 fp) (inflate fp).
Proof.
  intros (Hv & Hs & _). unfold validate_signatures, inflate, get_vote_template. split.
  - f_equal. rewrite <- list_fmap_compose. apply list_fmap_ext. intros i s Hi.
    rewrite Forall_lookup in Hs. destruct (Hs _ _ Hi) as [Hp _]. unfold compose. cbn [fst snd].
    rewrite MalVote_with_address, MalVote_to_from_bytes by (rewrite ?length_app; lia).
    cbn [validator_address MalVote_from_bytes]. by rewrite take_app_length' by done.
  - rewrite Forall_fmap. apply Forall_forall. intros s _. unfold compose.
    cbn [fst vote_value MalVote_from_bytes]. unfold points_at_block_hash2. by rewrite drop_app_length' by done.
Qed.

(** Votes: decoding an encoded vote gives it back exactly when its round is
    not negative (the sign bit of the [i32] is used for the vote type), and
    every 76-byte string is the encoding of the vote it decodes to. *)
Theorem vote_bytes_roundtrip :
  (forall v, wf_MalVote v ->
     (MalVote_from_bytes (MalVote_to_bytes v) = v <-> 0 <= vote_round v))
  /\ (forall b, length b = 76%nat -> MalVote_to_bytes (MalVote_from_bytes b) = b).
Proof.
  split; [|apply MalVote_to_from_bytes].
  intros v Hw. rewrite MalVote_from_to_bytes by done.
  destruct v as [addr val h typ r]; cbn. destruct Hw as (_ & _ & _ & Hr); simpl in Hr.
  pose proof (Z.mod_pos_bound r (2 ^ 31) eq_refl). split.
  - intros [= Hm]. lia.
  - intros. rewrite Z.mod_small by width_lia. done.
Qed.

(** * The claims at concrete values *)

Definition example_fat_pointer : FatPointerToBftBlock2 :=
  mkFatPointerToBftBlock2 (zero_bytes 44) [mkFatPointerSignature2 (zero_bytes 32) (zero_bytes 64)].

Lemma example_fat_pointer_wf : wf_FatPointerToBftBlock2 example_fat_pointer.
Proof. split; [done |]. split; [by repeat constructor | done]. Qed.

Definition example_bft_block : BftBlock :=
  mkBftBlock 1 1 example_fat_pointer 0 [example_header; example_header; example_header].

Lemma example_bft_block_wf : wf_BftBlock example_bft_block.
Proof.
  unfold wf_BftBlock. cbn [bft_version bft_height previous_block_fat_ptr finalization_candidate_height headers example_bft_block].
  pose proof example_fat_pointer_wf. pose proof example_header_wf.
  repeat match goal with |- _ /\ _ => split end; try done. by repeat constructor.
Qed.

(** A block whose only header has the version 3 that cannot be written. *)
Definition unwritable_bft_block : BftBlock :=
  mkBftBlock 1 1 example_fat_pointer 0
    [mkHeader 3 (zero_bytes 32) (zero_bytes 32) (zero_bytes 32) 0 0 (zero_bytes 32)
       Solution_for_proposal FatPointerToBftBlock_null].

Lemma bft_block_wire_format_witness :
  exists bs, zcash_serialize example_bft_block = Ok bs
    /\ zcash_deserialize (bs ++ []) = Ok (example_bft_block, []).
Proof.
  destruct bft_block_wire_format as [Hw _].
  destruct (Hw example_bft_block example_bft_block_wf) as (bs & Hb & Hr).
  exists bs. split; [exact Hb | apply Hr].
Defined.

Lemma bft_block_and_fat_pointer_roundtrip_witness :
  let p := mkBftBlockAndFatPointerToIt example_bft_block example_fat_pointer in
  exists bs, zcash_serialize p = Ok bs /\ zcash_deserialize (bs ++ [Byte.x07]) = Ok (p, [Byte.x07]).
Proof.
  apply (bft_block_and_fat_pointer_roundtrip
           (mkBftBlockAndFatPointerToIt example_bft_block example_fat_pointer) [Byte.x07]
           example_bft_block_wf example_fat_pointer_wf).
Defined.

Lemma bft_block_and_fat_pointer_swallows_error_witness :
  exists partial fp,
    zcash_serialize (mkBftBlockAndFatPointerToIt unwritable_bft_block example_fat_pointer)
      = Ok (partial ++ fp)
    /\ BftBlock_write unwritable_bft_block = (partial, Err (IoOther "version must be at least 4")).
Proof.
  destruct (bft_block_and_fat_pointer_swallows_error
              (mkBftBlockAndFatPointerToIt unwritable_bft_block example_fat_pointer)
              (IoOther "version must be at least 4") example_fat_pointer_wf)
    as (partial & fp & H1 & H2 & _); [vm_compute; reflexivity |].
  exists partial, fp. split; [exact H1 | exact H2].
Defined.

Lemma fat_pointer_signed_messages_witness :
  validate_signatures (forallb (fun '(_, _, msg) => bool_decide (length msg = 76%nat)))
    example_fat_pointer = true.
Proof.
  destruct (fat_pointer_signed_messages
              (forallb (fun '(_, _, msg) => bool_decide (length msg = 76%nat)))
              example_fat_pointer example_fat_pointer_wf) as [-> _].
  reflexivity.
Defined.
