(* ===== verification/CrosslinkRoster.v ===== *)
(** The finalizer roster of Crosslink ([zebra-crosslink/src/lib.rs]): the
    division of the proof-of-stake reward between finalizers, the staking
    actions that change the roster, and the sorted roster handed to the BFT
    engine.

    The order of the BFT engine's public keys is a parameter. *)
From stdpp Require Import prelude strings gmap sorting.
From Stdlib Require Import ZArith Lia.
From S2P Require Import Prelude Serialization Transaction CrosslinkWire.
#[local] Open Scope Z_scope.

(** * Data *)

Record MalValidator := mkMalValidator {
  address : bytes;
  public_key : bytes;
  voting_power : Z
}.

Definition MalValidator_new (public_key : bytes) (voting_power : Z) : MalValidator :=
  mkMalValidator public_key public_key voting_power.

Definition set_power (p : Z) (v : MalValidator) : MalValidator :=
  mkMalValidator (address v) (public_key v) p.

Abbreviation total_power := (sum_Z voting_power).

(** * Rewards *)

Definition pos_total_reward : Z := 6000.

Section Rewards.
Context `{BuildProfile}.

(** First loop: the total voting power and the index of the first finalizer
    with the largest power. *)
Definition scan_step (fs : list MalValidator) (st : option nat * Z) (i : nat)
    : outcome (option nat * Z) :=
  let '(max_i, total) := st in
  f ← unwrap (fs !! i);
  if voting_power f =? 0 then Ok st
  else
    better ← match max_i with
             | None => Ok true
             | Some m => g ← unwrap (fs !! m); Ok (voting_power g <? voting_power f)
             end;
    total ← arith_u 64 (total + voting_power f);
    Ok (if (better : bool) then Some i else max_i, total).

Definition scan_finalizers (fs : list MalValidator) : outcome (option nat * Z) :=
  foldM (scan_step fs) (None, 0) (seq 0 (length fs)).

(** [((power as u128) * (reward as u128) / (total as u128)) as u64]. The
    product fits in a [u128]; a zero divisor panics. *)
Definition reward_share (power total : Z) : outcome Z :=
  if total =? 0 then Panic
  else Ok (as_unsigned 64 (power * pos_total_reward / total)).

(** Second loop: every finalizer but the largest gets its rounded share. *)
Definition reward_step (max_i : option nat) (total : Z) (st : list MalValidator * Z) (i : nat)
    : outcome (list MalValidator * Z) :=
  let '(fs, sum_reward) := st in
  f ← unwrap (fs !! i);
  if voting_power f =? 0 then Ok st
  else
    m ← unwrap max_i;
    if bool_decide (i = m) then Ok st
    else
      reward ← reward_share (voting_power f) total;
      sum_reward ← arith_u 64 (sum_reward + reward);
      p ← arith_u 64 (voting_power f + reward);
      Ok (<[i := set_power p f]> fs, sum_reward).

(** The reward block of [new_decided_bft_block_from_malachite]. *)
Definition distribute_reward (fs : list MalValidator) : outcome (list MalValidator) :=
  '(max_i, total) ← scan_finalizers fs;
  '(fs, sum_reward) ← foldM (reward_step max_i total) (fs, 0) (seq 0 (length fs));
  match max_i with
  | None => Ok fs
  | Some i =>
      f ← unwrap (fs !! i);
      reward ← reward_share (voting_power f) total;
      rem_reward ← arith_u 64 (pos_total_reward - sum_reward);
      _ ← assert_ (reward <=? rem_reward);
      p ← arith_u 64 (voting_power f + rem_reward);
      Ok (<[i := set_power p f]> fs)
  end.
End Rewards.

(** * Staking actions *)

Section Staking.
Context `{BuildProfile}.

(** [roster.iter_mut().find(|cmp| cmp.public_key == key)]: the position of
    the first member with the key. *)
Fixpoint find_key (key : bytes) (roster : list MalValidator) : option nat :=
  match roster with
  | [] => None
  | v :: roster' =>
      if decide (public_key v = key) then Some 0%nat
      else S <$> find_key key roster'
  end.

(** The decoding of the action: does it add, whom does it subtract from,
    does it clear. *)
Definition action_parts (action : StakingAction) : bool * option bytes * bool :=
  match kind action with
  | Add => (true, None, false)
  | Sub => (false, Some (target action), false)
  | Clear => (false, Some (target action), true)
  | Move => (true, Some (source action), false)
  | MoveClear => (true, Some (source action), true)
  end.

(** The subtraction: [None] when the action is invalid, otherwise the roster
    and the amount taken. *)
Definition subtract_part (roster : list MalValidator) (action : StakingAction)
    (sub_key : option bytes) (is_clear : bool) : option (list MalValidator * Z) :=
  match sub_key with
  | None => Some (roster, val action)
  | Some key =>
      i ← find_key key roster;
      member ← roster !! i;
      if voting_power member <? val action then None
      else
        let amount := if is_clear then voting_power member - val action else val action in
        Some (<[i := set_power (voting_power member - amount) member]> roster, amount)
  end.

Definition update_roster_for_cmd (roster : list MalValidator) (names : gmap bytes string)
    (action : StakingAction) : outcome (list MalValidator * gmap bytes string * Z) :=
  let '(has_add, sub_key, is_clear) := action_parts action in
  match subtract_part roster action sub_key is_clear with
  | None => Ok (roster, names, 0)
  | Some (roster, amount) =>
      if negb has_add then Ok (roster, names, 1)
      else
        match find_key (target action) roster with
        | Some i =>
            member ← unwrap (roster !! i);
            p ← arith_u 64 (voting_power member + amount);
            Ok (<[i := set_power p member]> roster, names, 1)
        | None =>
            Ok (roster ++ [MalValidator_new (target action) amount],
                <[target action := insecure_target_name action]> names, 1)
        end
  end.

(** [update_roster_for_block] over the staking actions of the transactions
    of a block, in order; other transactions have none. *)
Definition update_roster_for_block (roster : list MalValidator) (names : gmap bytes string)
    (actions : list (option StakingAction))
    : outcome (list MalValidator * gmap bytes string * Z) :=
  foldM (fun '(roster, names, cmd_c) a =>
           match a with
           | None => Ok (roster, names, cmd_c)
           | Some action =>
               '(roster, names, n) ← update_roster_for_cmd roster names action;
               Ok (roster, names, cmd_c + n)
           end) (roster, names, 0) actions.
End Staking.

#[global] Arguments subtract_part : simpl never.

(** * The sorted roster *)

Record SortedRosterMember := mkSortedRosterMember {
  pub_key : bytes;
  stake : Z;
  cumulative_stake : Z
}.

Section SortedRoster.
Context `{BuildProfile}.
(** The order of [tenderlink::PubKeyID], as a boolean [<=]. *)
Variable key_le : bytes -> bytes -> bool.

(** [Reverse((a.stake, a.pub_key)) <= Reverse((b.stake, b.pub_key))]. *)
Definition member_le (a b : SortedRosterMember) : bool :=
  (stake b <? stake a) || ((stake b =? stake a) && key_le (pub_key b) (pub_key a)).

(** The loop that fills in [cumulative_stake]. *)
Fixpoint accumulate (acc : Z) (l : list SortedRosterMember) : outcome (list SortedRosterMember) :=
  match l with
  | [] => Ok []
  | m :: l' =>
      acc ← arith_u 64 (acc + stake m);
      rest ← accumulate acc l';
      Ok (mkSortedRosterMember (pub_key m) (stake m) acc :: rest)
  end.

Definition tenderlink_roster_from_internal (vals : list MalValidator)
    : outcome (list SortedRosterMember) :=
  let ret := (fun v => mkSortedRosterMember (public_key v) (voting_power v) 0) <$> vals in
  accumulate 0 (stable_sort member_le ret).
End SortedRoster.

(** * Reward lemmas *)

Definition nonneg_powers (fs : list MalValidator) : Prop :=
  Forall (fun f => 0 <= voting_power f) fs.

(** The share of the [i]-th finalizer when the [m]-th gets the remainder. *)
Definition share (m : nat) (total : Z) (i : nat) (f : MalValidator) : Z :=
  if (voting_power f =? 0) || bool_decide (i = m) then 0
  else voting_power f * pos_total_reward / total.

Lemma sum_floor_shares {A} (x : A -> Z) (l : list A) T R :
  0 < T -> 0 <= R -> sum_Z x l <= T -> sum_Z (fun a => x a * R / T) l <= R.
Proof.
  intros HT HR Hs.
  assert (Hle : T * sum_Z (fun a => x a * R / T) l <= R * sum_Z x l).
  { rewrite <- !sum_Z_scale. apply sum_Z_le. apply Forall_forall. intros a _.
    pose proof (Z.mul_div_le (x a * R) T HT). lia. }
  nia.
Qed.

Section RewardLemmas.
Context `{BuildProfile}.
Variable fs : list MalValidator.
Hypothesis Hpos : nonneg_powers fs.
Hypothesis Hbound : total_power fs + pos_total_reward <= u64_MAX.

Definition scan_inv (k : nat) (st : option nat * Z) : Prop :=
  st.2 = total_power (take k fs) /\
  match st.1 with
  | None => Forall (fun f => voting_power f = 0) (take k fs)
  | Some m => (m < k)%nat /\ exists g, fs !! m = Some g /\ 0 < voting_power g /\
              Forall (fun f => voting_power f <= voting_power g) (take k fs)
  end.

Lemma total_power_take k : 0 <= total_power (take k fs) <= total_power fs.
Proof.
  pose proof (Forall_take _ k _ Hpos) as H1. pose proof (Forall_drop _ k _ Hpos) as H2.
  apply sum_Z_nonneg in H1. apply sum_Z_nonneg in H2.
  rewrite <- (take_drop k fs) at 3. rewrite sum_Z_app. lia.
Qed.

Lemma take_S_total k f :
  fs !! k = Some f -> total_power (take (S k) fs) = total_power (take k fs) + voting_power f.
Proof. intros Hk. rewrite (take_S_r _ _ _ Hk), sum_Z_app. simpl. lia. Qed.

Lemma scan_step_inv k st :
  (k < length fs)%nat -> scan_inv k st ->
  exists st', scan_step fs st k = Ok st' /\ scan_inv (S k) st'.
Proof.
  intros Hk. destruct st as [max_i total]. unfold scan_inv; cbn. intros [-> Hm].
  destruct (lookup_lt_is_Some_2 fs k Hk) as [f Hf]. rewrite Hf. cbn.
  assert (0 <= voting_power f) by (eapply Forall_lookup_1 in Hpos; eauto).
  pose proof (total_power_take (S k)) as Hb. rewrite (take_S_total k f Hf) in Hb |- *.
  rewrite (take_S_r _ _ _ Hf).
  destruct (Z.eqb_spec (voting_power f) 0) as [E0|E0].
  - eexists. split; [done |]. cbn. split; [lia |].
    destruct max_i as [m|].
    + destruct Hm as (? & g & ? & ? & ?). split; [lia |]. exists g.
      split_and!; [done.. |]. apply Forall_app. split; [done |]. repeat constructor. lia.
    + apply Forall_app. split; [done |]. by repeat constructor.
  - destruct max_i as [m|].
    + destruct Hm as (Hmk & g & Hg & Hg0 & Hall). rewrite Hg. cbn.
      rewrite arith_u_in by (unfold u64_MAX, pos_total_reward in *; lia). cbn.
      eexists. split; [done |]. cbn. split; [done |].
      destruct (Z.ltb_spec (voting_power g) (voting_power f)).
      * split; [lia |]. exists f. split_and!; [done | lia |].
        apply Forall_app. split; [|by repeat constructor].
        eapply Forall_impl; [exact Hall |]. cbn. lia.
      * split; [lia |]. exists g. split_and!; [done.. |].
        apply Forall_app. split; [done |]. by repeat constructor.
    + rewrite arith_u_in by (unfold u64_MAX, pos_total_reward in *; lia). cbn.
      eexists. split; [done |]. cbn. split; [done |]. split; [lia |].
      exists f. split_and!; [done | lia |]. apply Forall_app. split; [|by repeat constructor].
      eapply Forall_impl; [exact Hm |]. cbn. lia.
Qed.

Lemma scan_finalizers_spec :
  exists max_i, scan_finalizers fs = Ok (max_i, total_power fs) /\
    match max_i with
    | None => Forall (fun f => voting_power f = 0) fs
    | Some m => exists g, fs !! m = Some g /\ 0 < voting_power g /\
                Forall (fun f => voting_power f <= voting_power g) fs
    end.
Proof.
  unfold scan_finalizers.
  destruct (foldM_seq_total (scan_step fs) scan_inv (length fs) (None, 0)) as ([mi t] & -> & [Ht Hm]).
  - split; [done |]. cbn. constructor.
  - apply scan_step_inv.
  - cbn in Ht, Hm. rewrite (take_ge fs) in Ht, Hm by lia. subst t.
    exists mi. split; [done |]. destruct mi; [|done]. destruct Hm as [_ ?]. done.
Qed.

Variable m : nat.
Let total := total_power fs.
Hypothesis Htotal : 0 < total.

Definition rewarded (i : nat) (f : MalValidator) : MalValidator :=
  set_power (voting_power f + share m total i f) f.

Definition reward_inv (k : nat) (st : list MalValidator * Z) : Prop :=
  st.1 = imap rewarded (take k fs) ++ drop k fs /\
  st.2 = sum_Z id (imap (share m total) (take k fs)).

Lemma power_share_bounds f :
  0 <= voting_power f <= total -> 0 <= voting_power f * pos_total_reward / total <= pos_total_reward.
Proof.
  intros Hf. unfold pos_total_reward. split.
  - apply Z.div_pos; lia.
  - apply Z.div_le_upper_bound; nia.
Qed.

Lemma reward_share_eq f :
  0 <= voting_power f <= total ->
  reward_share (voting_power f) total = Ok (voting_power f * pos_total_reward / total).
Proof.
  intros Hf. unfold reward_share. rewrite (proj2 (Z.eqb_neq _ _)) by lia.
  pose proof (power_share_bounds f Hf). unfold as_unsigned, pos_total_reward in *.
  by rewrite Z.mod_small by lia.
Qed.
Lemma imap_take_S {B} (g : nat -> MalValidator -> B) k f :
  fs !! k = Some f -> imap g (take (S k) fs) = imap g (take k fs) ++ [g k f].
Proof.
  intros Hk. pose proof (lookup_lt_Some _ _ _ Hk).
  rewrite (take_S_r _ _ _ Hk), imap_app. simpl.
  by rewrite length_take, Nat.min_l, Nat.add_0_r by lia.
Qed.

Lemma member_power k f : fs !! k = Some f -> 0 <= voting_power f <= total.
Proof.
  intros Hk. split; [by eapply Forall_lookup_1 in Hpos; eauto |].
  apply (sum_Z_elem voting_power); [done |]. by eapply list_elem_of_lookup_2.
Qed.

Definition full_share (f : MalValidator) : Z := voting_power f * pos_total_reward / total.

Lemma share_nonneg i f : 0 <= voting_power f <= total -> 0 <= share m total i f.
Proof. intros Hf. unfold share. case_match; [lia |]. by apply power_share_bounds. Qed.

(** The shares are the full shares with the remainder taker's set to zero. *)
Lemma shares_insert : imap (share m total) fs = <[m := 0]> (full_share <$> fs).
Proof.
  apply list_eq. intros i. rewrite list_lookup_imap, list_lookup_insert, length_fmap, list_lookup_fmap.
  destruct (fs !! i) as [f|] eqn:Hi; simpl.
  - unfold share, full_share. case_decide as Hm.
    + destruct Hm as [-> _]. by rewrite bool_decide_true, orb_true_r.
    + rewrite (bool_decide_false (i = m)), orb_false_r.
      2: { intros ->. apply Hm. split; [done |]. by eapply lookup_lt_Some. }
      destruct (Z.eqb_spec (voting_power f) 0) as [-> |]; [|done].
      by rewrite Z.mul_0_l, Z.div_0_l by lia.
  - case_decide as Hm; [|done]. destruct Hm as [-> Hm].
    apply lookup_ge_None in Hi. lia.
Qed.

Lemma shares_prefix_nonneg k :
  0 <= sum_Z id (imap (share m total) (take k fs)) <= sum_Z id (imap (share m total) fs).
Proof.
  assert (Hf : Forall (fun x => 0 <= id x) (imap (share m total) fs)).
  { apply Forall_lookup. intros i x. rewrite list_lookup_imap.
    destruct (fs !! i) as [f|] eqn:Hi; simpl; [|done]. intros [= <-].
    by eapply share_nonneg, member_power. }
  assert (Ht : imap (share m total) (take k fs) = take k (imap (share m total) fs)).
  { apply list_eq. intros i. rewrite list_lookup_imap, !lookup_take, list_lookup_imap.
    by case_decide. }
  rewrite Ht. rewrite <- (take_drop k (imap (share m total) fs)) at 3. rewrite sum_Z_app.
  pose proof (sum_Z_nonneg _ _ (Forall_take _ k _ Hf)).
  pose proof (sum_Z_nonneg _ _ (Forall_drop _ k _ Hf)). lia.
Qed.

(** No prefix of the shares, with the remainder taker's full share added,
    exceeds the reward. *)
Lemma shares_bound k g :
  fs !! m = Some g ->
  sum_Z id (imap (share m total) (take k fs)) + full_share g <= pos_total_reward.
Proof.
  intros Hg. pose proof (shares_prefix_nonneg k) as [_ Hp].
  rewrite shares_insert, (sum_Z_insert id _ m (full_share g)) in Hp
    by (by rewrite list_lookup_fmap, Hg).
  assert (Hfull : sum_Z full_share fs <= pos_total_reward).
  { apply sum_floor_shares; [done | unfold pos_total_reward; lia | unfold total; lia]. }
  rewrite sum_Z_fmap in Hp. change (sum_Z (id ∘ full_share) fs) with (sum_Z full_share fs) in Hp.
  unfold id in *. lia.
Qed.

Lemma reward_step_eq fs' sum k f :
  fs' !! k = Some f -> 0 <= voting_power f <= total ->
  0 <= sum -> sum + share m total k f <= pos_total_reward ->
  reward_step (Some m) total (fs', sum) k
  = Ok (<[k := rewarded k f]> fs', sum + share m total k f).
Proof.
  intros Hk Hf Hs0 Hs1. unfold reward_step. rewrite Hk. cbn [unwrap mbind res_bind].
  assert (Hsame : share m total k f = 0 -> <[k := rewarded k f]> fs' = fs').
  { intros Hz. unfold rewarded. rewrite Hz, Z.add_0_r. apply list_insert_id. by destruct f. }
  pose proof (power_share_bounds f Hf) as Hb. unfold rewarded in *. unfold share in *.
  destruct (voting_power f =? 0); [by rewrite Hsame, Z.add_0_r |].
  case_bool_decide; cbn [orb] in *; [by rewrite Hsame, Z.add_0_r |].
  rewrite reward_share_eq by done. unfold total, pos_total_reward, u64_MAX in *. cbn [mbind res_bind].
  by rewrite !arith_u_in by lia.
Qed.

Lemma reward_step_inv k st g :
  fs !! m = Some g -> (k < length fs)%nat -> reward_inv k st ->
  exists st', reward_step (Some m) total st k = Ok st' /\ reward_inv (S k) st'.
Proof.
  intros Hg Hk. destruct st as [fs' sum]. unfold reward_inv; cbn [fst snd]. intros [-> ->].
  destruct (lookup_lt_is_Some_2 fs k Hk) as [f Hf].
  assert (Hl : length (imap rewarded (take k fs)) = k) by (rewrite length_imap, length_take; lia).
  pose proof (shares_bound (S k) g Hg) as Hb. rewrite (imap_take_S _ k f Hf), sum_Z_app in Hb.
  assert (0 <= full_share g) by (by eapply power_share_bounds, member_power).
  cbn [sum_Z] in Hb. unfold id in Hb at 2. rewrite !(imap_take_S _ k f Hf), sum_Z_app.
  rewrite (reward_step_eq _ _ k f).
  - eexists. split; [done |]. cbn [fst snd sum_Z]. split; [|unfold id at 3; lia].
    rewrite insert_app_r_alt, Hl, Nat.sub_diag, (drop_S _ _ _ Hf) by lia.
    by rewrite <- app_assoc.
  - by rewrite lookup_app_r, Hl, Nat.sub_diag, lookup_drop, Nat.add_0_r by lia.
  - by apply (member_power k).
  - apply shares_prefix_nonneg.
  - unfold id in *. lia.
Qed.
End RewardLemmas.

Section RewardTheorem.
Context `{BuildProfile}.

Lemma reward_loop_spec fs m g :
  nonneg_powers fs -> total_power fs + pos_total_reward <= u64_MAX ->
  0 < total_power fs -> fs !! m = Some g ->
  foldM (reward_step (Some m) (total_power fs)) (fs, 0) (seq 0 (length fs))
  = Ok (imap (rewarded fs m) fs, sum_Z id (imap (share m (total_power fs)) fs)).
Proof.
  intros Hp Hb Ht Hg.
  destruct (foldM_seq_total (reward_step (Some m) (total_power fs)) (reward_inv fs m)
              (length fs) (fs, 0)) as ([fs' sum] & -> & [E1 E2]).
  - by split.
  - intros. by eapply reward_step_inv.
  - cbn [fst snd] in E1, E2. rewrite take_ge in E1, E2 by lia.
    rewrite drop_ge, app_nil_r in E1 by lia. by subst.
Qed.

Lemma reward_loop_zero fs :
  Forall (fun f => voting_power f = 0) fs ->
  foldM (reward_step None (total_power fs)) (fs, 0) (seq 0 (length fs)) = Ok (fs, 0).
Proof.
  intros Hz.
  destruct (foldM_seq_total (reward_step None (total_power fs)) (fun _ st => st = (fs, 0))
              (length fs) (fs, 0)) as (s & -> & ->); [done | | done].
  intros k s Hk ->. exists (fs, 0). split; [|done]. unfold reward_step.
  destruct (lookup_lt_is_Some_2 fs k Hk) as [f Hf]. rewrite Hf. cbn.
  by rewrite (Forall_lookup_1 _ _ _ _ Hz Hf).
Qed.

Lemma rewarded_same fs m g : rewarded fs m m g = g.
Proof.
  unfold rewarded, share. rewrite bool_decide_true, orb_true_r, Z.add_0_r by done.
  by destruct g.
Qed.

(** What [distribute_reward] returns when somebody has stake. *)
Lemma distribute_reward_eq fs m g :
  nonneg_powers fs -> total_power fs + pos_total_reward <= u64_MAX ->
  scan_finalizers fs = Ok (Some m, total_power fs) ->
  0 < total_power fs -> fs !! m = Some g ->
  let sum := sum_Z id (imap (share m (total_power fs)) fs) in
  distribute_reward fs =
    Ok (<[m := set_power (voting_power g + (pos_total_reward - sum)) g]> (imap (rewarded fs m) fs))
  /\ 0 <= sum /\ full_share fs g <= pos_total_reward - sum.
Proof.
  intros Hp Hb Hscan Ht Hg. cbv zeta.
  pose proof (shares_bound fs Hp m Ht (length fs) g Hg) as Hs.
  pose proof (shares_prefix_nonneg fs Hp m Ht (length fs)) as [Hn _].
  rewrite take_ge in Hs, Hn by lia.
  pose proof (member_power fs Hp m g Hg) as Hpow.
  pose proof (power_share_bounds fs Ht g Hpow) as Hsh. fold (full_share fs g) in Hsh.
  split; [|lia]. unfold distribute_reward. rewrite Hscan. cbn [mbind res_bind].
  rewrite (reward_loop_spec fs m g) by done. cbn [mbind res_bind].
  rewrite list_lookup_imap, Hg. cbn [fmap option_fmap option_map unwrap mbind res_bind].
  rewrite rewarded_same, reward_share_eq by done. fold (full_share fs g).
  unfold u64_MAX, pos_total_reward in *. cbn [mbind res_bind].
  rewrite (arith_u_in 64 (6000 - _)) by lia. cbn [mbind res_bind].
  rewrite (proj2 (Z.leb_le _ _)) by lia. cbn [assert_ mbind res_bind].
  by rewrite arith_u_in by lia.
Qed.

(** The largest finalizer takes what the others leave of the reward. *)
Definition with_remainder (fs : list MalValidator) (m : nat) (g : MalValidator) : list MalValidator :=
  <[m := set_power (voting_power g
           + (pos_total_reward - sum_Z id (imap (share m (total_power fs)) fs))) g]>
    (imap (rewarded fs m) fs).

Lemma with_remainder_keys fs m g :
  fs !! m = Some g -> public_key <$> with_remainder fs m g = public_key <$> fs.
Proof.
  intros Hg. unfold with_remainder. rewrite list_fmap_insert. cbn [public_key set_power].
  apply list_eq. intros i.
  rewrite list_lookup_insert, length_fmap, length_imap, !list_lookup_fmap, list_lookup_imap.
  case_decide as Hi; [destruct Hi as [<- _]; by rewrite Hg |]. by destruct (fs !! i).
Qed.

Lemma with_remainder_total fs m g :
  fs !! m = Some g -> total_power (with_remainder fs m g) = total_power fs + pos_total_reward.
Proof.
  intros Hg. unfold with_remainder.
  assert (Hmm : imap (rewarded fs m) fs !! m = Some g)
    by (rewrite list_lookup_imap, Hg; cbn; by rewrite rewarded_same).
  rewrite (sum_Z_insert _ _ _ _ _ Hmm). cbn [voting_power set_power].
  rewrite (sum_Z_imap_add _ _ voting_power (share m (total_power fs))) by done. lia.
Qed.

Lemma with_remainder_lookup fs m g i f :
  0 < total_power fs -> fs !! m = Some g -> fs !! i = Some f ->
  full_share fs g <= pos_total_reward - sum_Z id (imap (share m (total_power fs)) fs) ->
  exists f', with_remainder fs m g !! i = Some f'
    /\ (i <> m -> voting_power f' = voting_power f + full_share fs f)
    /\ (i = m -> voting_power f + full_share fs f <= voting_power f').
Proof.
  intros Ht Hg Hi Hs. unfold with_remainder.
  rewrite list_lookup_insert, length_imap, list_lookup_imap, Hi. cbn [fmap option_fmap option_map].
  case_decide as Hd.
  - destruct Hd as [-> _]. rewrite Hg in Hi. injection Hi as ->. eexists. split; [done |].
    split; [done |]. intros _. cbn [voting_power set_power]. lia.
  - eexists. split; [done |]. split.
    + intros Hne. cbn [rewarded set_power voting_power]. unfold share, full_share.
      rewrite bool_decide_false, orb_false_r by done.
      destruct (Z.eqb_spec (voting_power f) 0) as [E|]; [|done]. by rewrite E, Z.mul_0_l, Z.div_0_l by lia.
    + intros ->. exfalso. apply Hd. split; [done |]. by eapply lookup_lt_Some.
Qed.

Lemma total_power_zero fs : Forall (fun f => voting_power f = 0) fs -> total_power fs = 0.
Proof. induction 1 as [|f l Hf _ IH]; [done |]. cbn [sum_Z]. lia. Qed.

(** C22. The reward of one finalized proof-of-work block is divided exactly:
    when the stakes and the reward fit in 64 bits, the distribution does not
    panic (so its assertion holds), keeps the finalizers and their order,
    and adds exactly [pos_total_reward] to the total stake if there is any;
    one finalizer of largest stake gets at least its proportional share, and
    every other gets exactly its share rounded down. *)
Theorem reward_distribution (fs : list MalValidator) :
  nonneg_powers fs -> total_power fs + pos_total_reward <= u64_MAX ->
  exists fs', distribute_reward fs = Ok fs'
    /\ public_key <$> fs' = public_key <$> fs
    /\ total_power fs' = total_power fs + (if total_power fs =? 0 then 0 else pos_total_reward)
    /\ (0 < total_power fs ->
         exists m g, fs !! m = Some g
           /\ Forall (fun f => voting_power f <= voting_power g) fs
           /\ forall i f, fs !! i = Some f ->
                exists f', fs' !! i = Some f'
                  /\ (i <> m -> voting_power f' =
                        voting_power f + voting_power f * pos_total_reward / total_power fs)
                  /\ (i = m -> voting_power f +
                        voting_power f * pos_total_reward / total_power fs <= voting_power f')).
Proof.
  intros Hp Hb. destruct (scan_finalizers_spec fs Hp Hb) as ([m|] & Hscan & Hm).
  - destruct Hm as (g & Hg & Hg0 & Hmax).
    assert (Ht : 0 < total_power fs) by (pose proof (member_power fs Hp m g Hg); lia).
    destruct (distribute_reward_eq fs m g Hp Hb Hscan Ht Hg) as (Heq & Hs0 & Hs1).
    exists (with_remainder fs m g). split; [exact Heq |].
    split; [by apply with_remainder_keys |]. rewrite with_remainder_total by done.
    rewrite (proj2 (Z.eqb_neq _ _)) by lia. split; [done |]. intros _.
    exists m, g. split; [done |]. split; [done |]. intros i f Hi. by eapply with_remainder_lookup.
  - pose proof (total_power_zero fs Hm) as Hz.
    exists fs. unfold distribute_reward. rewrite Hscan. cbn [mbind res_bind].
    rewrite reward_loop_zero by done. split_and!; [done | done | |lia].
    rewrite Hz. simpl. lia.
Qed.
End RewardTheorem.

(** * Staking: the abstract specification

    A roster is abstractly a finite map from keys to stakes. *)

Definition stakes (roster : list MalValidator) : gmap bytes Z :=
  list_to_map ((fun v => (public_key v, voting_power v)) <$> roster).

(** The part of an action that takes stake from a member: the remaining map
    and the amount taken. *)
Definition spec_take (st : gmap bytes Z) (key : bytes) (v : Z) (clear : bool)
    : option (gmap bytes Z * Z) :=
  p ← st !! key;
  if p <? v then None
  else if clear then Some (<[key := v]> st, p - v) else Some (<[key := p - v]> st, v).

Definition spec_give (st : gmap bytes Z) (key : bytes) (amount : Z) : gmap bytes Z :=
  <[key := default 0 (st !! key) + amount]> st.

Definition spec_action (st : gmap bytes Z) (a : StakingAction) : option (gmap bytes Z) :=
  match kind a with
  | Add => Some (spec_give st (target a) (val a))
  | Sub => fst <$> spec_take st (target a) (val a) false
  | Clear => fst <$> spec_take st (target a) (val a) true
  | Move => '(st', n) ← spec_take st (source a) (val a) false; Some (spec_give st' (target a) n)
  | MoveClear => '(st', n) ← spec_take st (source a) (val a) true; Some (spec_give st' (target a) n)
  end.

(** The invariant of rosters: one entry per key, and stakes in 64 bits. *)
Definition wf_roster (roster : list MalValidator) : Prop :=
  NoDup (public_key <$> roster) /\ Forall (fun v => is_u64 (voting_power v)) roster.

Lemma find_key_Some key roster i :
  find_key key roster = Some i -> exists v, roster !! i = Some v /\ public_key v = key.
Proof.
  revert i. induction roster as [|v roster IH]; intros i; simpl; [done |].
  case_decide as E.
  - intros [= <-]. by exists v.
  - intros (j & Hj & ->)%fmap_Some. simpl. eauto.
Qed.

Lemma stakes_cons v roster :
  stakes (v :: roster) = <[public_key v := voting_power v]> (stakes roster).
Proof. done. Qed.

Lemma find_key_stakes key roster :
  stakes roster !! key = (i ← find_key key roster; v ← roster !! i; Some (voting_power v)).
Proof.
  induction roster as [|v roster IH]; [done |].
  rewrite stakes_cons, lookup_insert. simpl. case_decide; [done |].
  rewrite IH. by destruct (find_key key roster).
Qed.

Lemma stakes_update roster i v p :
  find_key (public_key v) roster = Some i -> roster !! i = Some v ->
  stakes (<[i := set_power p v]> roster) = <[public_key v := p]> (stakes roster).
Proof.
  revert i. induction roster as [|w roster IH]; intros i Hf Hi; [done |].
  simpl in Hf. case_decide as E.
  - injection Hf as <-. injection Hi as ->. simpl. rewrite !stakes_cons. cbn [public_key set_power voting_power].
    by rewrite insert_insert_eq.
  - apply fmap_Some in Hf as (j & Hj & ->). simpl in Hi |- *. rewrite !stakes_cons, (IH j) by done.
    by rewrite insert_insert_ne.
Qed.

Lemma stakes_push roster key p :
  find_key key roster = None ->
  stakes (roster ++ [MalValidator_new key p]) = <[key := p]> (stakes roster).
Proof.
  induction roster as [|v roster IH]; [done |]. simpl. case_decide as E; [done |].
  intros Hn%fmap_None. rewrite !stakes_cons, IH by done. by rewrite insert_insert_ne.
Qed.

Lemma keys_update (roster : list MalValidator) i v p :
  roster !! i = Some v ->
  public_key <$> <[i := set_power p v]> roster = public_key <$> roster.
Proof.
  intros Hi. rewrite list_fmap_insert. apply list_insert_id. by rewrite list_lookup_fmap, Hi.
Qed.

Lemma find_key_keys key r1 r2 :
  public_key <$> r1 = public_key <$> r2 -> find_key key r1 = find_key key r2.
Proof.
  revert r2. induction r1 as [|v r1 IH]; intros [|w r2] E; try done.
  rewrite !fmap_cons in E. injection E as Ev E. simpl. rewrite Ev, (IH _ E). done.
Qed.

Lemma find_key_None key roster : find_key key roster = None -> key ∉ public_key <$> roster.
Proof.
  induction roster as [|v roster IH]; simpl; [set_solver |]. case_decide; [done |].
  intros Hn%fmap_None. apply IH in Hn. rewrite elem_of_cons. by intros [-> | ?].
Qed.

(** The subtraction of an action implements [spec_take] and keeps the
    invariant and the keys. *)
Lemma subtract_part_refines roster a key clear :
  wf_roster roster -> is_u64 (val a) ->
  match spec_take (stakes roster) key (val a) clear with
  | None => subtract_part roster a (Some key) clear = None
  | Some (st', n) =>
      exists r', subtract_part roster a (Some key) clear = Some (r', n)
        /\ stakes r' = st' /\ wf_roster r' /\ is_u64 n
        /\ public_key <$> r' = public_key <$> roster
        /\ total_power r' = total_power roster - n
  end.
Proof.
  intros [Hnd Hu] Hv. unfold spec_take, subtract_part. rewrite find_key_stakes.
  destruct (find_key key roster) as [i|] eqn:Hf; [|done]. simpl.
  destruct (find_key_Some _ _ _ Hf) as (v & Hi & Hk). rewrite Hi. simpl.
  pose proof (Forall_lookup_1 _ _ _ _ Hu Hi) as Hp. simpl in Hp.
  destruct (voting_power v <? val a) eqn:E; [done |]. bool_to_prop.
  assert (Hgen : forall p, 0 <= p <= voting_power v ->
    stakes (<[i := set_power p v]> roster) = <[key := p]> (stakes roster)
    /\ wf_roster (<[i := set_power p v]> roster)
    /\ public_key <$> <[i := set_power p v]> roster = public_key <$> roster
    /\ total_power (<[i := set_power p v]> roster) = total_power roster - (voting_power v - p)).
  { intros p Hpp. subst key. split; [by apply stakes_update |]. split; [split|split].
    - by rewrite keys_update.
    - apply Forall_insert; [done |]. simpl. width_lia.
    - by apply keys_update.
    - rewrite (sum_Z_insert _ _ _ _ _ Hi). simpl. lia. }
  destruct clear.
  - destruct (Hgen (voting_power v - (voting_power v - val a))) as (H1 & H2 & H3 & H4); [width_lia |].
    eexists. split; [done |]. rewrite H1. split_and!; try done; try apply H2; [f_equal; lia | width_lia..].
  - destruct (Hgen (voting_power v - val a)) as (H1 & H2 & H3 & H4); [width_lia |].
    eexists. split; [done |]. split_and!; try done; try apply H2; width_lia.
Qed.

Section StakingRefinement.
Context `{BuildProfile}.

(** The names the map of key names holds after stake is given to a key. *)
Definition spec_names (st : gmap bytes Z) (names : gmap bytes string) (a : StakingAction)
    : gmap bytes string :=
  match st !! target a with
  | Some _ => names
  | None => <[target a := insecure_target_name a]> names
  end.

Lemma give_refines roster names a amount :
  wf_roster roster -> is_u64 amount ->
  default 0 (stakes roster !! target a) + amount <= u64_MAX ->
  exists r',
    match find_key (target a) roster with
    | Some i =>
        member ← unwrap (roster !! i);
        p ← arith_u 64 (voting_power member + amount);
        Ok (<[i := set_power p member]> roster, names, 1)
    | None =>
        Ok (roster ++ [MalValidator_new (target a) amount],
            <[target a := insecure_target_name a]> names, 1)
    end = Ok (E := Empty_set) (r', spec_names (stakes roster) names a, 1)
    /\ stakes r' = spec_give (stakes roster) (target a) amount
    /\ wf_roster r'
    /\ total_power r' = total_power roster + amount.
Proof.
  intros [Hnd Hu] Ha. unfold spec_names, spec_give. rewrite !find_key_stakes.
  destruct (find_key (target a) roster) as [i|] eqn:Hf; simpl.
  - destruct (find_key_Some _ _ _ Hf) as (v & Hi & Hk). rewrite Hi. simpl. intros Hb.
    pose proof (Forall_lookup_1 _ _ _ _ Hu Hi) as Hp. simpl in Hp.
    rewrite arith_u_in by width_lia. cbn. eexists. split; [done |].
    rewrite <- Hk. split; [by apply stakes_update; rewrite ?Hk |]. split; [split|].
    + by rewrite keys_update.
    + apply Forall_insert; [done |]. simpl. width_lia.
    + rewrite (sum_Z_insert _ _ _ _ _ Hi). simpl. lia.
  - intros Hb. eexists. split; [done |]. split; [by rewrite stakes_push |]. split; [split|].
    + rewrite fmap_app. simpl. apply NoDup_app. split; [done |]. split; [|by apply NoDup_singleton].
      intros k Hk ->%list_elem_of_singleton. by apply find_key_None in Hf.
    + apply Forall_app. split; [done |]. by repeat constructor; apply Ha.
    + rewrite sum_Z_app. simpl. lia.
Qed.

(** C23. [update_roster_for_cmd] implements the abstract staking actions: an
    action the specification rejects (no such member, or less stake than
    asked for) leaves the roster and the names alone and counts 0; an action
    it accepts, with all resulting stakes in 64 bits, counts 1 and leads to
    exactly the specified stakes, keeping one entry per key. *)
Theorem update_roster_refines (roster : list MalValidator) (names : gmap bytes string)
    (a : StakingAction) :
  wf_roster roster -> is_u64 (val a) ->
  match spec_action (stakes roster) a with
  | None => update_roster_for_cmd roster names a = Ok (roster, names, 0)
  | Some st' =>
      (forall k p, st' !! k = Some p -> p <= u64_MAX) ->
      exists roster' names',
        update_roster_for_cmd roster names a = Ok (roster', names', 1)
        /\ stakes roster' = st' /\ wf_roster roster'
  end.
Proof.
  intros Hw Hv. unfold spec_action, update_roster_for_cmd, action_parts.
  destruct (kind a) eqn:Ek.
  - intros Hb. unfold subtract_part. cbn [negb].
    destruct (give_refines roster names a (val a) Hw Hv) as (r' & -> & Hst & Hw' & _); [|by eauto].
    apply (Hb (target a)). unfold spec_give. by rewrite lookup_insert_eq.
  - pose proof (subtract_part_refines roster a (target a) false Hw Hv) as Hs.
    destruct (spec_take _ _ _ _) as [[st' n]|]; simpl; [|by rewrite Hs].
    intros _. destruct Hs as (r' & -> & <- & Hw' & _). simpl. eauto.
  - pose proof (subtract_part_refines roster a (target a) true Hw Hv) as Hs.
    destruct (spec_take _ _ _ _) as [[st' n]|]; simpl; [|by rewrite Hs].
    intros _. destruct Hs as (r' & -> & <- & Hw' & _). simpl. eauto.
  - pose proof (subtract_part_refines roster a (source a) false Hw Hv) as Hs.
    destruct (spec_take _ _ _ _) as [[st' n]|]; cbn; [|by rewrite Hs].
    intros Hb. destruct Hs as (r1 & -> & <- & Hw1 & Hn & _). cbn [negb].
    destruct (give_refines r1 names a n Hw1 Hn) as (r' & -> & Hst & Hw' & _); [|by eauto].
    apply (Hb (target a)). unfold spec_give. by rewrite lookup_insert_eq.
  - pose proof (subtract_part_refines roster a (source a) true Hw Hv) as Hs.
    destruct (spec_take _ _ _ _) as [[st' n]|]; cbn; [|by rewrite Hs].
    intros Hb. destruct Hs as (r1 & -> & <- & Hw1 & Hn & _). cbn [negb].
    destruct (give_refines r1 names a n Hw1 Hn) as (r' & -> & Hst & Hw' & _); [|by eauto].
    apply (Hb (target a)). unfold spec_give. by rewrite lookup_insert_eq.
Qed.

(** A member's stake is at most the total. *)
Lemma stake_le_total roster key :
  wf_roster roster -> 0 <= default 0 (stakes roster !! key) <= total_power roster.
Proof.
  intros [_ Hu].
  assert (Hp : Forall (fun v => 0 <= voting_power v) roster)
    by (eapply Forall_impl; [exact Hu | unfold is_u64; lia]).
  pose proof (sum_Z_nonneg _ _ Hp). rewrite find_key_stakes.
  destruct (find_key key roster) as [i|] eqn:Hf; simpl; [|lia].
  destruct (find_key_Some _ _ _ Hf) as (v & Hi & _). rewrite Hi. simpl.
  split; [by eapply Forall_lookup_1 in Hp; eauto |].
  apply (sum_Z_elem voting_power); [done |]. by eapply list_elem_of_lookup_2.
Qed.

Lemma move_conserves roster names a (clear : bool) :
  wf_roster roster -> is_u64 (val a) -> total_power roster <= u64_MAX ->
  kind a = (if clear then MoveClear else Move) ->
  exists roster' names' n, update_roster_for_cmd roster names a = Ok (roster', names', n)
    /\ wf_roster roster' /\ total_power roster' = total_power roster.
Proof.
  intros Hw Hv Ht Hk. unfold update_roster_for_cmd.
  pose proof (subtract_part_refines roster a (source a) clear Hw Hv) as Hs.
  assert (Hparts : action_parts a = (true, Some (source a), clear))
    by (unfold action_parts; rewrite Hk; by destruct clear).
  rewrite Hparts.
  destruct (spec_take _ _ _ _) as [[st' n]|].
  - destruct Hs as (r1 & -> & _ & Hw1 & Hn & _ & Ht1). cbn [negb].
    destruct (give_refines r1 names a n Hw1 Hn) as (r' & -> & _ & Hw' & Ht').
    { pose proof (stake_le_total r1 (target a) Hw1). lia. }
    eexists _, _, _. split; [done |]. split; [done | lia].
  - rewrite Hs. eexists _, _, _. done.
Qed.

(** Moving stake ([Move] and [MoveClear], valid or not, also onto the
    source itself) neither creates nor destroys any: with a total stake in
    64 bits the command runs to its end and the total is unchanged. *)
Theorem move_conserves_stake (roster : list MalValidator) (names : gmap bytes string)
    (a : StakingAction) :
  wf_roster roster -> is_u64 (val a) -> total_power roster <= u64_MAX ->
  kind a = Move \/ kind a = MoveClear ->
  exists roster' names' n,
    update_roster_for_cmd roster names a = Ok (roster', names', n)
    /\ wf_roster roster' /\ total_power roster' = total_power roster.
Proof.
  intros Hw Hv Ht [Hk|Hk]; [by apply (move_conserves _ _ _ false) | by apply (move_conserves _ _ _ true)].
Qed.

(** An [Add] whose result does not fit in 64 bits is not refused: a build
    with overflow checks panics, a build without them wraps, which leaves the
    member with less stake than before. *)
Theorem add_stake_overflow (roster : list MalValidator) (names : gmap bytes string)
    (a : StakingAction) (i : nat) (v : MalValidator) :
  wf_roster roster -> is_u64 (val a) -> kind a = Add ->
  find_key (target a) roster = Some i -> roster !! i = Some v ->
  u64_MAX < voting_power v + val a ->
  update_roster_for_cmd roster names a =
    (if overflow_checks then Panic
     else Ok (<[i := set_power (voting_power v + val a - 2 ^ 64) v]> roster, names, 1))
  /\ voting_power v + val a - 2 ^ 64 < voting_power v.
Proof.
  intros [_ Hu] Hv Hk Hf Hi Ho. pose proof (Forall_lookup_1 _ _ _ _ Hu Hi) as Hp. simpl in Hp.
  split; [|width_lia]. unfold update_roster_for_cmd, action_parts. rewrite Hk.
  unfold subtract_part. cbn [negb]. rewrite Hf, Hi. cbn [unwrap mbind res_bind]. unfold arith_u.
  replace (in_range 0 (2 ^ 64 - 1) (voting_power v + val a)) with false.
  2: { symmetry. apply not_true_iff_false. rewrite in_range_spec. width_lia. }
  destruct overflow_checks; [done |]. cbn [mbind res_bind]. unfold as_unsigned.
  do 5 f_equal. symmetry. apply (Z.mod_unique _ _ 1); width_lia.
Qed.
End StakingRefinement.

(** * The sorted roster *)

Section SortedRosterTheorem.
Context `{BuildProfile} (key_le : bytes -> bytes -> bool) `{!BoolTotalOrder key_le}.

Lemma member_le_spec a b :
  member_le key_le a b = true <->
  stake b < stake a \/ (stake b = stake a /\ key_le (pub_key b) (pub_key a) = true).
Proof. unfold member_le. by rewrite orb_true_iff, andb_true_iff, Z.ltb_lt, Z.eqb_eq. Qed.

Lemma member_le_total a b : member_le key_le a b = true \/ member_le key_le b a = true.
Proof.
  rewrite !member_le_spec. destruct (Z.lt_trichotomy (stake a) (stake b)) as [?|[?|?]]; [auto | | auto].
  destruct (ble_total (pub_key a) (pub_key b)); auto.
Qed.

Lemma member_le_trans a b c :
  member_le key_le a b = true -> member_le key_le b c = true -> member_le key_le a c = true.
Proof.
  rewrite !member_le_spec. intros [?|[? Hab]] [?|[? Hbc]]; [left; lia.. |].
  right. split; [lia |]. by eapply ble_trans.
Qed.

(** The members before the cumulative stakes are filled in. *)
Definition bare_members (vals : list MalValidator) : list SortedRosterMember :=
  (fun v => mkSortedRosterMember (public_key v) (voting_power v) 0) <$> vals.

(** The cumulative stakes are the prefix sums, and nothing else changes. *)
Lemma accumulate_spec acc l :
  0 <= acc -> Forall (fun m => 0 <= stake m) l -> acc + sum_Z stake l <= u64_MAX ->
  exists ret, accumulate acc l = Ok ret
    /\ (fun m => (pub_key m, stake m)) <$> ret = (fun m => (pub_key m, stake m)) <$> l
    /\ forall i m, ret !! i = Some m -> cumulative_stake m = acc + sum_Z stake (take (S i) ret).
Proof.
  revert acc. induction l as [|m l IH]; intros acc Ha Hf Hb; [by exists [] |].
  apply Forall_cons_1 in Hf as [Hm Hf]. cbn [sum_Z] in Hb.
  pose proof (sum_Z_nonneg _ _ Hf). cbn [accumulate].
  rewrite arith_u_in by width_lia. cbn [mbind res_bind].
  destruct (IH (acc + stake m)) as (ret & -> & Hmap & Hcum); [lia | done | lia |].
  cbn [mbind res_bind]. eexists. split; [done |]. rewrite !fmap_cons, Hmap. split; [done |].
  intros [|i] m'; simpl.
  - intros [= <-]. simpl. lia.
  - intros Hi. rewrite (Hcum i m' Hi). simpl. lia.
Qed.

(** The roster given to the BFT engine: for stakes whose total fits in 64
    bits it is built without overflow, holds exactly the finalizers with
    their stakes, is sorted by decreasing stake, carries the prefix sums of
    the stakes, and does not depend on the order in which the finalizers
    were known. *)
Theorem sorted_roster (vals : list MalValidator) :
  nonneg_powers vals -> total_power vals <= u64_MAX ->
  exists ret, tenderlink_roster_from_internal key_le vals = Ok ret
    /\ (fun m => (pub_key m, stake m)) <$> ret ≡ₚ (fun v => (public_key v, voting_power v)) <$> vals
    /\ StronglySorted (fun a b => stake b <= stake a) ret
    /\ (forall i m, ret !! i = Some m -> cumulative_stake m = sum_Z stake (take (S i) ret))
    /\ (forall vals', vals' ≡ₚ vals -> tenderlink_roster_from_internal key_le vals' = Ok ret).
Proof.
  intros Hp Hb. unfold tenderlink_roster_from_internal. fold (bare_members vals).
  set (srt := stable_sort (member_le key_le) (bare_members vals)).
  assert (Hperm : srt ≡ₚ bare_members vals) by apply stable_sort_perm.
  assert (Hsum : sum_Z stake srt = total_power vals)
    by (rewrite Hperm; unfold bare_members; by rewrite sum_Z_fmap).
  destruct (accumulate_spec 0 srt) as (ret & Hret & Hmap & Hcum); [lia | | lia |].
  { rewrite Hperm. unfold bare_members. by apply Forall_fmap. }
  exists ret. split; [done |]. split; [|split; [|split]].
  - rewrite Hmap, Hperm. unfold bare_members. by rewrite <- list_fmap_compose.
  - assert (Hst : stake <$> ret = stake <$> srt).
    { apply (f_equal (fmap snd)) in Hmap. by rewrite <- !list_fmap_compose in Hmap. }
    apply (StronglySorted_fmap_iff stake (fun x y => y <= x)). rewrite Hst.
    apply StronglySorted_fmap_iff. eapply StronglySorted_weaken;
      [|apply (stable_sort_sorted _ member_le_total member_le_trans)].
    intros a b. rewrite member_le_spec. lia.
  - intros i m Hi. by rewrite (Hcum i m Hi).
  - intros vals' Hv. rewrite <- Hret. unfold srt. f_equal. symmetry.
    apply stable_sort_unique; [apply member_le_total | apply member_le_trans | |].
    + intros a b (v & -> & _)%list_elem_of_fmap (w & -> & _)%list_elem_of_fmap.
      rewrite !member_le_spec. cbn. intros [?|[? Hvw]] [?|[? Hwv]]; try lia.
      f_equal; [by apply ble_antisym | done].
    + unfold bare_members. by rewrite Hv.
Qed.
End SortedRosterTheorem.

(** * The claims at concrete rosters *)

Definition example_roster : list MalValidator :=
  [MalValidator_new [Byte.x01] 100; MalValidator_new [Byte.x02] 200].

Lemma example_roster_wf : wf_roster example_roster.
Proof. split; [by apply (bool_decide_unpack _) | repeat constructor; done]. Qed.

Lemma example_roster_nonneg : nonneg_powers example_roster.
Proof. repeat constructor; done. Qed.

Definition example_action (k : StakingActionKind) (v : Z) : StakingAction :=
  mkStakingAction k v [Byte.x02] [Byte.x01] "b" "a".

Lemma reward_distribution_witness :
  exists fs', distribute_reward (H := debug_build) example_roster = Ok fs'
    /\ total_power fs' = 6300 /\ voting_power <$> fs' = [2100; 4200].
Proof.
  destruct (reward_distribution (H := debug_build) example_roster) as (fs' & Hd & _ & Ht & _);
    [exact example_roster_nonneg | vm_compute; done |].
  exists fs'. split; [exact Hd |]. split; [exact Ht |].
  vm_compute in Hd. apply Ok_inj in Hd as <-. reflexivity.
Defined.

Lemma update_roster_refines_witness :
  exists roster' names',
    update_roster_for_cmd (H := debug_build) example_roster ∅ (example_action Move 30)
      = Ok (roster', names', 1)
    /\ stakes roster' = {[ [Byte.x01] := 70; [Byte.x02] := 230 ]}.
Proof.
  destruct (update_roster_refines (H := debug_build) example_roster ∅ (example_action Move 30)
              example_roster_wf ltac:(done)) as (r & n & E & Hst & _).
  - intros k p Hk. revert k p Hk. apply (bool_decide_unpack (@map_Forall bytes Z (gmap bytes Z) _ (fun _ p => p <= u64_MAX) _)).
    vm_compute. done.
  - exists r, n. split; [exact E |]. rewrite Hst. by apply (bool_decide_unpack _).
Defined.

Lemma move_conserves_stake_witness :
  exists roster' names' n,
    update_roster_for_cmd (H := debug_build) example_roster ∅ (example_action MoveClear 30)
      = Ok (roster', names', n)
    /\ wf_roster roster' /\ total_power roster' = 300.
Proof.
  apply (move_conserves_stake (H := debug_build) example_roster ∅ (example_action MoveClear 30)
           example_roster_wf); [done | vm_compute; done | by right].
Defined.

Lemma add_stake_overflow_witness :
  exists a, update_roster_for_cmd (H := release_build) example_roster ∅ a
    = Ok (<[1%nat := set_power 199 (MalValidator_new [Byte.x02] 200)]> example_roster, ∅, 1).
Proof.
  exists (example_action Add u64_MAX).
  apply (add_stake_overflow (H := release_build) example_roster ∅ (example_action Add u64_MAX) 1
           (MalValidator_new [Byte.x02] 200) example_roster_wf); done.
Defined.

Lemma sorted_roster_witness :
  exists ret, tenderlink_roster_from_internal (H := debug_build) bytes_le example_roster = Ok ret
    /\ cumulative_stake <$> ret = [200; 300].
Proof.
  destruct (sorted_roster (H := debug_build) bytes_le example_roster) as (ret & Hr & _);
    [exact example_roster_nonneg | vm_compute; done |].
  exists ret. split; [exact Hr |]. vm_compute in Hr. apply Ok_inj in Hr as <-. reflexivity.
Defined.
