(* ===== verification/TflService.v ===== *)
(** The trailing-finality service of Crosslink ([zebra-crosslink/src/lib.rs] and
    [service.rs]): the chain of BFT blocks, the proposal, validation and
    decision of a BFT block, the walk over the newly final proof-of-work blocks
    with their rewards and staking actions, and the requests of the service.

    The state service is the interface [StateCalls]; BLAKE3, the Ed25519 batch
    verifier, the order of the engine's keys, the derivation of a key from an
    address and the parser of staking commands are third-party code and
    parameters here. A handler takes the service's lock, so it is one step. *)
From S2P Require Import Prelude Serialization Height NetworkUpgrade BlockHeader Transaction BlockCommitment TransparentIndex Chain ChainIndexes NonFinalizedState StateRead ChainTip WriteBlock StateService CrosslinkWire CrosslinkRoster.
From stdpp Require Import prelude strings gmap sorting.
From Stdlib Require Import ZArith Lia.
#[local] Open Scope Z_scope.

(** * Loops with a bound *)

(** A loop body either goes on with a new state or is done. *)
Inductive loop_result (St R : Type) : Type := Continue (s : St) | Break (r : R).
Arguments Continue {_ _} _.
Arguments Break {_ _} _.

(** At most [p] iterations; the binary bound keeps a large one executable. *)
Fixpoint bounded_loop {St R} (body : St -> outcome (loop_result St R)) (p : positive) (s : St)
    : outcome (loop_result St R) :=
  match p with
  | xH => body s
  | xO p =>
      r ← bounded_loop body p s;
      match r with Continue s => bounded_loop body p s | Break r => Ok (Break r) end
  | xI p =>
      r ← body s;
      match r with
      | Break r => Ok (Break r)
      | Continue s =>
          r ← bounded_loop body p s;
          match r with Continue s => bounded_loop body p s | Break r => Ok (Break r) end
      end
  end.

(** * The state of the service *)

Definition TFL_ACTIVATION_HEIGHT : Z := 2000.

(** [final_change_tx] is the list of the values sent so far; a receiver is the
    number of values that were sent before it subscribed. *)
Record TFLServiceInternal := mkTFLServiceInternal {
  my_public_key : bytes;
  latest_final_block : option (Z * bytes);
  tfl_is_activated : bool;
  final_change_tx : list (Z * bytes);
  bft_msg_flags : Z;
  bft_err_flags : Z;
  bft_blocks : list BftBlock;
  fat_pointer_to_tip : FatPointerToBftBlock2;
  our_set_bft_string : option string;
  active_bft_string : option string;
  validators_keys_to_names : gmap bytes string;
  validators_at_current_height : list MalValidator;
  current_bc_final : option (Z * bytes)
}.

Definition with_my_key (key : bytes) (i : TFLServiceInternal) : TFLServiceInternal :=
  mkTFLServiceInternal key (latest_final_block i) (tfl_is_activated i) (final_change_tx i)
    (bft_msg_flags i) (bft_err_flags i) (bft_blocks i) (fat_pointer_to_tip i) (our_set_bft_string i)
    (active_bft_string i) (validators_keys_to_names i) (validators_at_current_height i) (current_bc_final i).
Definition with_final (final : option (Z * bytes)) (i : TFLServiceInternal) : TFLServiceInternal :=
  mkTFLServiceInternal (my_public_key i) final (tfl_is_activated i) (final_change_tx i)
    (bft_msg_flags i) (bft_err_flags i) (bft_blocks i) (fat_pointer_to_tip i) (our_set_bft_string i)
    (active_bft_string i) (validators_keys_to_names i) (validators_at_current_height i) (current_bc_final i).
Definition with_activated (b : bool) (i : TFLServiceInternal) : TFLServiceInternal :=
  mkTFLServiceInternal (my_public_key i) (latest_final_block i) b (final_change_tx i)
    (bft_msg_flags i) (bft_err_flags i) (bft_blocks i) (fat_pointer_to_tip i) (our_set_bft_string i)
    (active_bft_string i) (validators_keys_to_names i) (validators_at_current_height i) (current_bc_final i).
Definition with_flags (msg err : Z) (i : TFLServiceInternal) : TFLServiceInternal :=
  mkTFLServiceInternal (my_public_key i) (latest_final_block i) (tfl_is_activated i) (final_change_tx i)
    msg err (bft_blocks i) (fat_pointer_to_tip i) (our_set_bft_string i)
    (active_bft_string i) (validators_keys_to_names i) (validators_at_current_height i) (current_bc_final i).
Definition with_bft_chain (blocks : list BftBlock) (tip : FatPointerToBftBlock2) (i : TFLServiceInternal) : TFLServiceInternal :=
  mkTFLServiceInternal (my_public_key i) (latest_final_block i) (tfl_is_activated i) (final_change_tx i)
    (bft_msg_flags i) (bft_err_flags i) blocks tip (our_set_bft_string i)
    (active_bft_string i) (validators_keys_to_names i) (validators_at_current_height i) (current_bc_final i).
Definition with_strings (ours active : option string) (i : TFLServiceInternal) : TFLServiceInternal :=
  mkTFLServiceInternal (my_public_key i) (latest_final_block i) (tfl_is_activated i) (final_change_tx i)
    (bft_msg_flags i) (bft_err_flags i) (bft_blocks i) (fat_pointer_to_tip i) ours
    active (validators_keys_to_names i) (validators_at_current_height i) (current_bc_final i).
Definition with_roster (roster : list MalValidator) (names : gmap bytes string) (sent : list (Z * bytes))
    (i : TFLServiceInternal) : TFLServiceInternal :=
  mkTFLServiceInternal (my_public_key i) (latest_final_block i) (tfl_is_activated i) sent
    (bft_msg_flags i) (bft_err_flags i) (bft_blocks i) (fat_pointer_to_tip i) (our_set_bft_string i)
    (active_bft_string i) names roster (current_bc_final i).
Definition with_bc_final (final : option (Z * bytes)) (i : TFLServiceInternal) : TFLServiceInternal :=
  mkTFLServiceInternal (my_public_key i) (latest_final_block i) (tfl_is_activated i) (final_change_tx i)
    (bft_msg_flags i) (bft_err_flags i) (bft_blocks i) (fat_pointer_to_tip i) (our_set_bft_string i)
    (active_bft_string i) (validators_keys_to_names i) (validators_at_current_height i) final.

(** ** The initial state *)

Record Config := mkConfig {
  public_address : option string;
  insecure_user_name : option string;
  malachite_peers : list string
}.

(** [tenderlink::TMStatus]. *)
Inductive TMStatus : Type := Pass | Fail | Indeterminate.
#[export] Instance TMStatus_eq_dec : EqDecision TMStatus.
Proof. solve_decision. Defined.

Inductive TFLBlockFinality : Type := NotYetFinalized | Finalized_ | CantBeFinalized.

Inductive TFLServiceRequest : Type :=
| IsTFLActivated
| FinalBlockHeightHash
| FinalBlockRx
| SetFinalBlockHash (hash : bytes)
| BlockFinalityStatus (height : Z) (hash : bytes)
| TxFinalityStatus (hash : bytes)
| Roster
| FatPointerToBFTChainTip
| StakingCmd (cmd : string).

Inductive TFLServiceResponse : Type :=
| RIsTFLActivated (b : bool)
| RFinalBlockHeightHash (o : option (Z * bytes))
| RFinalBlockRx (receiver : nat)
| RSetFinalBlockHash (o : option Z)
| RBlockFinalityStatus (o : option TFLBlockFinality)
| RTxFinalityStatus (o : option TFLBlockFinality)
| RRoster (l : list (bytes * Z))
| RFatPointerToBFTChainTip (fp : FatPointerToBftBlock)
| RStakingCmd.

Inductive TFLServiceError : Type := NotImplemented | Misc (msg : string).

(** The answer of the mempool to one queued transaction. *)
Inductive QueuedResult : Type :=
| NotSent (err : string)
| NotReceived (err : string)
| NotMempooled (err : string)
| Mempooled.

Section Service.
Context {W : Type} `{!StateCalls W} `{!CommitmentOps} `{BuildProfile}.
Variable blake3 : bytes -> bytes.
Variable batch_verify : list (bytes * bytes * bytes) -> bool.
Variable key_le : bytes -> bytes -> bool.
Variable key_of_address : string -> bytes.
Variable parse_from_cmd : string -> option StakingAction + string.
Variable call_mempool : Transaction -> option (list QueuedResult).
Implicit Types (w : W) (i : TFLServiceInternal).

(** [spawn_new_tfl_service]: the finalizers of the configuration, or only this
    node. *)
Definition initial_finalizers (config : Config) : list string :=
  match malachite_peers config with
  | [] => [default (default "/ip4/127.0.0.1/udp/45869/quic-v1"%string (public_address config)) (insecure_user_name config)]
  | peers => peers
  end.
Definition initial_internal (is_regtest : bool) (config : Config) : TFLServiceInternal :=
  let names := initial_finalizers config in
  mkTFLServiceInternal (zero_bytes 32) None is_regtest [] 0 0 [] FatPointerToBftBlock2_null None None
    (foldl (fun map name => <[key_of_address name := name]> map) ∅ names)
    ((fun name => MalValidator_new (key_of_address name) 1) <$> names) None.
(** [tfl_service_main_loop]: the node's own key. *)
Definition set_my_public_key (config : Config) i : TFLServiceInternal :=
  let public_ip_string := default "/ip4/127.0.0.1/tcp/45869"%string (public_address config) in
  with_my_key (key_of_address (default public_ip_string (insecure_user_name config))) i.

(** ** Reads of the proof-of-work chain *)

Definition block_height_from_hash w (hash : bytes) : outcome (option Z) :=
  r ← try_res (call_known_block w hash);
  Ok (match r with inl (Some known_block) => Some (kb_height known_block) | _ => None end).

Definition block_height_hash_from_hash w (hash : bytes) : outcome (option (Z * bytes)) :=
  r ← try_res (call_block_header w (Hash hash));
  match r with
  | inl rsp => _ ← assert_ (bool_decide (hash = hr_hash rsp)); Ok (Some (hr_height rsp, hash))
  | inr _ => Ok None
  end.

Definition tfl_reorg_final_block_height_hash w : outcome (option (Z * bytes)) :=
  locator ← try_res (call_block_locator w);
  match locator with
  | inl hashes =>
      match last hashes with
      | Some hash => height ← block_height_from_hash w hash; Ok (option_map (fun height => (height, hash)) height)
      | None => Ok None
      end
  | inr _ => Ok None
  end.

Definition tfl_final_block_height_hash w i : outcome (option (Z * bytes)) :=
  match latest_final_block i with
  | Some final => Ok (Some final)
  | None => tfl_reorg_final_block_height_hash w
  end.

(** [sat_sub]. *)
Definition sat_sub (height d : Z) : outcome Z := r ← height_sub_diff height d; Ok (default 0 r).

(** ** The sequence of blocks up to a final one *)

(** The variables of the loop: the last chunk, the vector and the counter. *)
Record SequenceLoop := mkSequenceLoop {
  chunk : list bytes;
  hashes : list (Z * bytes);
  counter : Z
}.

Definition push_hash (start_height : Z) (st : list (Z * bytes) * Z) (val : bytes) : outcome (list (Z * bytes) * Z) :=
  let '(hashes, c) := st in
  n ← unwrap (u32_checked (Z.of_nat (length hashes)));
  height ← arith_u 32 (start_height + n);
  c ← arith_i 32 (c + 1);
  Ok (hashes ++ [(height, val)], c).

(** One chunk of the loop: the request, and the pushes of its hashes up to the
    point where the next chunk is requested. *)
Definition sequence_body w (start_height : Z) (start_hash init_hash : bytes) (include_start_hash : bool)
    (final_hash : option bytes) (l : SequenceLoop) : outcome (loop_result SequenceLoop (list (Z * bytes))) :=
  let chunk_start_hash := default init_hash (last (chunk l)) in
  res ← try_res (call_find_block_hashes w [chunk_start_hash] final_hash);
  match res with
  | inr _ => Ok (Break (hashes l))
  | inl chunk_hashes =>
      _ ← assert_ (negb ((counter l =? 0) && include_start_hash && negb (bool_decide (chunk_hashes = [])))
                   || bool_decide (head chunk_hashes = Some start_hash));
      match chunk_hashes with
      | [] => Ok (Break (hashes l))
      | _ =>
          '(hashes, c) ← foldM (push_hash start_height) (hashes l, counter l) chunk_hashes;
          Ok (Continue (mkSequenceLoop chunk_hashes hashes c))
      end
  end.

(** The length of the vector must fit in a [u32], so more iterations than this
    are impossible. *)
Definition sequence_bound : positive := 4294967298.

Definition tfl_block_sequence w (start_hash : bytes) (final_height_hash : option (Z * bytes))
    (include_start_hash read_extra_info : bool) : outcome (list (Z * bytes) * list (option Block)) :=
  header ← try_res (call_block_header w (Hash start_hash));
  start ← match header with
          | inl rsp =>
              if include_start_hash then Ok (Some (hr_height rsp, previous_block_hash (hr_header rsp)))
              else height ← arith_u 32 (hr_height rsp + 1); Ok (Some (height, start_hash))
          | inr _ => Ok None
          end;
  final ← match final_height_hash with
          | Some final => Ok (Some final)
          | None => tip ← try_res (call_tip w); Ok (match tip with inl val => val | inr _ => None end)
          end;
  match start, final with
  | Some (start_height, init_hash), Some (final_height, final_hash) =>
      if final_height <? start_height then Ok ([], [])
      else
        r ← bounded_loop (sequence_body w start_height start_hash init_hash include_start_hash (Some final_hash))
              sequence_bound (mkSequenceLoop [] [] 0);
        match r with
        | Continue _ => Panic
        | Break hashes =>
            if read_extra_info then
              infos ← map_res (fun hash => r ← try_res (call_block w (Hash hash.2));
                                           Ok (match r with inl block => block | inr _ => None end)) hashes;
              Ok (hashes, infos)
            else Ok (hashes, [])
        end
  | _, _ => Ok ([], [])
  end.

(** ** Proposals *)

Definition push_new_bft_msg_flags i (msg_flags err_flags : Z) : TFLServiceInternal :=
  with_flags (Z.lor (bft_msg_flags i) msg_flags) (Z.lor (bft_err_flags i) err_flags) i.

(** The lock is taken twice and three requests are sent, so blocks can be mined
    and decided on in between: [i1], [i2] and [w1], [w2], [w3] are the states
    at these points. *)
Definition propose_new_bft_block (w1 w2 w3 : W) (i1 i2 : TFLServiceInternal) : outcome (option BftBlock) :=
  let params := PROTOTYPE_PARAMETERS in
  tip ← try_res (call_tip w1);
  match tip with
  | inl (Some (tip_height, _)) =>
      candidate ← height_sub_diff tip_height (bc_confirmation_depth_sigma params);
      match candidate with
      | None => Ok None
      | Some finality_candidate_height =>
          _ ← match last (bft_blocks i1) with Some b => blake3_hash blake3 b | None => Ok (zero_bytes 32) end;
          let is_improved_final :=
            match latest_final_block i1 with None => true | Some (final, _) => final <? finality_candidate_height end in
          if negb is_improved_final then Ok None
          else
            candidate ← expect (call_block_header w2 (Height finality_candidate_height));
            headers ← expect (call_find_block_headers w3 [hr_hash candidate] None);
            height ← arith_u 32 (as_unsigned 32 (Z.of_nat (length (bft_blocks i2))) + 1);
            res_ok (BftBlock_try_from params height (fat_pointer_to_tip i2) 0 headers)
      end
  | _ => Ok None
  end.

(** The roster handed to the engine: this node is added when it is missing. *)
Definition roster_with_us i : list MalValidator :=
  if existsb (fun v => bool_decide (address v = my_public_key i)) (validators_at_current_height i)
  then validators_at_current_height i
  else validators_at_current_height i ++ [mkMalValidator (my_public_key i) (my_public_key i) 0].

Definition malachite_wants_to_know_what_the_current_validator_set_is i : outcome (list MalValidator) :=
  let finalizers := roster_with_us i in
  _ ← foldM (fun '(total, members) f =>
               if voting_power f =? 0 then Ok (total, members)
               else
                 members ← arith_i 32 (members + 1);
                 total ← arith_u 64 (total + voting_power f);
                 Ok (total, members)) (0, 0) finalizers;
  Ok finalizers.

(** ** Validation *)

Definition validate_bft_block_from_malachite w i (new_block : BftBlock) : outcome TMStatus :=
  if negb (bool_decide (points_at_block_hash2 (previous_block_fat_ptr new_block)
                        = points_at_block_hash2 (fat_pointer_to_tip i)))
  then Ok Fail
  else
    header ← unwrap (head (headers new_block));
    height ← block_height_from_hash w (block_header_hash header);
    Ok (match height with Some _ => Pass | None => Indeterminate end).

(** ** Decisions *)

(** The placeholder blocks below the index of a new block. *)
Definition dummy_block (n : nat) : BftBlock :=
  mkBftBlock 0 (as_unsigned 32 (Z.of_nat n)) (mkFatPointerToBftBlock2 (zero_bytes (76 - 32)) []) 0 [].
Definition pad_blocks (blocks : list BftBlock) (insert_i : nat) : list BftBlock :=
  blocks ++ (dummy_block <$> seq (length blocks) (S insert_i - length blocks)).

(** The part of a decision that records the block. A vector holds at most
    [isize::MAX] bytes. *)
Definition insert_bft_block (blocks : list BftBlock) (new_block : BftBlock) : outcome (list BftBlock) :=
  insert_i ← arith_u 64 (bft_height new_block - 1);
  _ ← assert_ (insert_i <? i64_MAX);
  let insert_i := Z.to_nat insert_i in
  let blocks := pad_blocks blocks insert_i in
  _ ← (if bool_decide (0 < insert_i)%nat then
         parent ← unwrap (blocks !! (insert_i - 1)%nat);
         parent_hash ← blake3_hash blake3 parent;
         assert_ (bool_decide (parent_hash = points_at_block_hash2 (previous_block_fat_ptr new_block)))
       else Ok tt);
  _ ← assert_ (bool_decide (insert_i = 0%nat)
               || negb (bool_decide (previous_bft_block_hash new_block = zero_bytes 32)));
  old ← unwrap (blocks !! insert_i);
  _ ← assert_ (bool_decide (headers old = []));
  _ ← assert_ (negb (bool_decide (headers new_block = [])));
  Ok (<[insert_i := new_block]> blocks).

Definition staking_action_of (tx : Transaction) : option StakingAction :=
  match tx with VCrosslink _ _ _ _ _ _ _ staking_action => staking_action | _ => None end.

(** One newly final block: the reward, the staking actions and the broadcast;
    the block that was final before is skipped. *)
Definition finalize_pow_block i (final : (Z * bytes) * option Block) : outcome TFLServiceInternal :=
  let '(new_final_height_hash, new_final_block) := final in
  let work :=
    roster ← distribute_reward (validators_at_current_height i);
    '(roster, names) ← match new_final_block with
                       | Some block =>
                           '(roster, names, _) ← update_roster_for_block roster (validators_keys_to_names i)
                                                  (staking_action_of <$> transactions block);
                           Ok (roster, names)
                       | None => if overflow_checks then Panic else Ok (roster, validators_keys_to_names i)
                       end;
    Ok (with_roster roster names (final_change_tx i ++ [new_final_height_hash]) i) in
  match current_bc_final i with
  | Some (_, prev_hash) => if bool_decide (prev_hash = new_final_height_hash.2) then Ok i else work
  | None => work
  end.

(** The part of a decision that walks the newly final blocks. *)
Definition finalize_pow_blocks w i : outcome TFLServiceInternal :=
  let new_bc_final := latest_final_block i in
  i ← match new_bc_final with
      | Some final =>
          let start_hash := match current_bc_final i with Some prev => prev.2 | None => final.2 end in
          '(hashes, blocks) ← tfl_block_sequence w start_hash (Some final) true true;
          foldM finalize_pow_block i (zip hashes blocks)
      | None => Ok i
      end;
  Ok (with_bc_final new_bc_final i).

Definition new_decided_bft_block_from_malachite w i (new_block : BftBlock) (fat_pointer : FatPointerToBftBlock2)
    : outcome (list SortedRosterMember * TFLServiceInternal * W) :=
  block_hash ← blake3_hash blake3 new_block;
  _ ← assert_ (bool_decide (points_at_block_hash2 fat_pointer = block_hash));
  _ ← assert_ (validate_signatures batch_verify fat_pointer);
  status ← validate_bft_block_from_malachite w i new_block;
  _ ← assert_ (bool_decide (status = Pass));
  header ← unwrap (head (headers new_block));
  let new_final_hash := block_header_hash header in
  height ← block_height_from_hash w new_final_hash;
  new_final_height ← unwrap height;
  blocks ← insert_bft_block (bft_blocks i) new_block;
  let i := with_final (Some (new_final_height, new_final_hash)) (with_bft_chain blocks fat_pointer i) in
  '(finalized, w) ← call_crosslink_finalize w new_final_hash;
  _ ← match finalized with
      | inl hash => assert_ (bool_decide (hash = new_final_hash))
      | inr _ => Ok tt
      end;
  i ← finalize_pow_blocks w i;
  roster ← tenderlink_roster_from_internal key_le (validators_at_current_height i);
  Ok (roster, i, w).

(** [force_feed_pos]. *)
Definition force_feed_pos w i (block : BftBlock) (fat_pointer : FatPointerToBftBlock2)
    : outcome (bool * TFLServiceInternal * W) :=
  block_hash ← blake3_hash blake3 block;
  accepted ← (if bool_decide (points_at_block_hash2 fat_pointer = block_hash)
              then status ← validate_bft_block_from_malachite w i block; Ok (bool_decide (status = Pass))
              else Ok false);
  if (accepted : bool) then
    '(_, i, w) ← new_decided_bft_block_from_malachite w i block fat_pointer; Ok (true, i, w)
  else Ok (false, i, w).

(** ** The chain of BFT blocks *)

Definition fat_pointer_to_block_at_height (blocks : list BftBlock) (tip : FatPointerToBftBlock2) (at_height : Z)
    : outcome (option FatPointerToBftBlock2) :=
  if (at_height =? 0) || (Z.of_nat (length blocks) <=? at_height - 1) then Ok None
  else if at_height =? Z.of_nat (length blocks) then Ok (Some tip)
  else b ← unwrap (blocks !! Z.to_nat at_height); Ok (Some (previous_block_fat_ptr b)).

Definition get_historical_bft_block_at_height i (at_height : Z) : outcome (option (BftBlock * FatPointerToBftBlock2)) :=
  if (at_height =? 0) || (Z.of_nat (length (bft_blocks i)) <=? at_height - 1) then Ok None
  else
    block ← unwrap (bft_blocks i !! Z.to_nat (at_height - 1));
    pointer ← fat_pointer_to_block_at_height (bft_blocks i) (fat_pointer_to_tip i) at_height;
    pointer ← unwrap pointer;
    Ok (Some (block, pointer)).

(** ** The engine's closures *)

Definition propose_closure (w1 w2 w3 : W) (i1 i2 : TFLServiceInternal) : outcome (option bytes) :=
  block ← propose_new_bft_block w1 w2 w3 i1 i2;
  match block with
  | Some block => bs ← expect (zcash_serialize block); Ok (Some bs)
  | None => Ok None
  end.

Definition validate_closure w i (value : bytes) : outcome TMStatus :=
  r ← try_res (zcash_deserialize value);
  match r with
  | inl (bft_block, _) => validate_bft_block_from_malachite w i bft_block
  | inr _ => Ok Fail
  end.

Definition push_decided_closure w i (value : bytes) (fat_pointer : FatPointerToBftBlock2)
    : outcome (list SortedRosterMember * TFLServiceInternal * W) :=
  '(block, _) ← expect (zcash_deserialize value);
  new_decided_bft_block_from_malachite w i block fat_pointer.

(** [ClosureToUpdateRosterCmd]. *)
Definition update_roster_cmd i (str : option string) : option string * TFLServiceInternal :=
  match our_set_bft_string i with
  | Some ours => (Some ours, with_strings None (active_bft_string i) i)
  | None =>
      (None, match str with Some str => with_strings None (Some str) i | None => i end)
  end.

(** An iteration of the main loop: the service activates when the tip has
    reached the activation height. The rest of the iteration is logging. *)
Definition main_loop_step w i : outcome TFLServiceInternal :=
  tip ← try_res (call_tip w);
  Ok (if tfl_is_activated i then i
      else match tip with
           | inl (Some (height, _)) => if height <? TFL_ACTIVATION_HEIGHT then i else with_activated true i
           | _ => i
           end).

(** ** Requests *)

Definition tfl_block_finality_from_height_hash w i (height : Z) (hash : bytes)
    : res TFLServiceError (option TFLBlockFinality) :=
  final ← lift (tfl_final_block_height_hash w i);
  '(final_height, final_hash) ← ok_or final (Misc "There is no final block.");
  if final_height <? height then Ok (Some NotYetFinalized)
  else
    cmp_hash ← (if height =? final_height then Ok final_hash
                else rsp ← map_err Misc (call_block_header w (Height height)); Ok (hr_hash rsp));
    Ok (Some (if bool_decide (hash = cmp_hash) then Finalized_ else CantBeFinalized)).

Definition tfl_set_finality_by_hash w i (hash : bytes) : outcome (option Z * TFLServiceInternal) :=
  if tfl_is_activated i then
    new_height ← block_height_from_hash w hash;
    Ok (new_height, match new_height with Some height => with_final (Some (height, hash)) i | None => i end)
  else Ok (None, i).

Definition staking_transaction (staking_action : option StakingAction) : Transaction :=
  VCrosslink Nu6 (LockHeight 0) 0 [] [] None None staking_action.

Definition queued_result (r : QueuedResult) : res string unit :=
  match r with
  | NotSent err => Err ("tried to send command transaction: " +:+ err)%string
  | NotReceived err => Err ("tried to await command transaction: " +:+ err)%string
  | NotMempooled err => Err ("unsuccessfully mempooled transaction: " +:+ err)%string
  | Mempooled => Ok tt
  end.

Definition push_staking_action_from_cmd_str (cmd_str : string) : res string unit :=
  match parse_from_cmd cmd_str with
  | inr err => Err err
  | inl staking_action =>
      match call_mempool (staking_transaction staking_action) with
      | Some receivers => foldM (fun _ r => queued_result r) tt receivers
      | None => Ok tt
      end
  end.

Definition tx_finality_status w i (hash : bytes) : res TFLServiceError (option TFLBlockFinality) :=
  tx ← lift (try_res (call_transaction w hash));
  match tx with
  | inl (Some (_, height, _, _)) =>
      final ← lift (tfl_final_block_height_hash w i);
      '(final_height, _) ← ok_or final (Misc "There is no final block.");
      Ok (Some (if height <=? final_height then Finalized_ else NotYetFinalized))
  | _ => Ok None
  end.

Definition tfl_service_incoming_request w i (request : TFLServiceRequest)
    : res TFLServiceError (TFLServiceResponse * TFLServiceInternal) :=
  match request with
  | IsTFLActivated => Ok (RIsTFLActivated (tfl_is_activated i), i)
  | FinalBlockHeightHash => o ← lift (tfl_final_block_height_hash w i); Ok (RFinalBlockHeightHash o, i)
  | FinalBlockRx => Ok (RFinalBlockRx (length (final_change_tx i)), i)
  | SetFinalBlockHash hash => '(o, i) ← lift (tfl_set_finality_by_hash w i hash); Ok (RSetFinalBlockHash o, i)
  | BlockFinalityStatus height hash =>
      val ← tfl_block_finality_from_height_hash w i height hash; Ok (RBlockFinalityStatus val, i)
  | TxFinalityStatus hash => val ← tx_finality_status w i hash; Ok (RTxFinalityStatus val, i)
  | Roster => Ok (RRoster ((fun v => (public_key v, voting_power v)) <$> validators_at_current_height i), i)
  | FatPointerToBFTChainTip =>
      Ok (RFatPointerToBFTChainTip (FatPointerToBftBlock2_to_non_two (fat_pointer_to_tip i)), i)
  | StakingCmd cmd => _ ← map_err Misc (push_staking_action_from_cmd_str cmd); Ok (RStakingCmd, i)
  end.
End Service.

(** * The bounded loop *)

Fixpoint iter_loop {St R} (body : St -> outcome (loop_result St R)) (n : nat) (s : St) : outcome (loop_result St R) :=
  match n with
  | O => Ok (Continue s)
  | S n =>
      r ← body s;
      match r with Continue s => iter_loop body n s | Break r => Ok (Break r) end
  end.

Lemma iter_loop_add {St R} (body : St -> outcome (loop_result St R)) n m s :
  iter_loop body (n + m) s
  = (r ← iter_loop body n s; match r with Continue s => iter_loop body m s | Break r => Ok (Break r) end).
Proof.
  revert s. induction n as [|n IH]; intros s; [done|]. cbn [iter_loop Nat.add].
  destruct (body s) as [[s'|r]| |]; cbn [mbind res_bind]; [apply IH|done..].
Qed.
Lemma bounded_loop_iter {St R} (body : St -> outcome (loop_result St R)) p s :
  bounded_loop body p s = iter_loop body (Pos.to_nat p) s.
Proof.
  revert s. induction p as [p IH|p IH|]; intros s; cbn [bounded_loop].
  - rewrite Pos2Nat.inj_xI. replace (S (2 * Pos.to_nat p)) with (1 + (Pos.to_nat p + Pos.to_nat p))%nat by lia.
    cbn [Nat.add iter_loop]. destruct (body s) as [[s'|r]| |]; cbn [mbind res_bind]; try done.
    rewrite IH, iter_loop_add. destruct (iter_loop body _ s') as [[s2|r]| |]; cbn [mbind res_bind]; [apply IH|done..].
  - rewrite Pos2Nat.inj_xO. replace (2 * Pos.to_nat p)%nat with (Pos.to_nat p + Pos.to_nat p)%nat by lia.
    rewrite IH, iter_loop_add. destruct (iter_loop body _ s) as [[s2|r]| |]; cbn [mbind res_bind]; [apply IH|done..].
  - cbn [iter_loop Pos.to_nat]. change (Pos.to_nat 1) with 1%nat. cbn [iter_loop].
    by destruct (body s) as [[s'|r]| |].
Qed.
Lemma iter_loop_snoc {St R} (body : St -> outcome (loop_result St R)) n s s' :
  iter_loop body n s = Ok (Continue s') -> iter_loop body (S n) s = body s'.
Proof.
  intros E. replace (S n) with (n + 1)%nat by lia. rewrite iter_loop_add, E. cbn [iter_loop mbind res_bind].
  by destruct (body s') as [[]| |].
Qed.
(** A loop that has ended stays ended. *)
Lemma iter_loop_more {St R} (body : St -> outcome (loop_result St R)) n m s r :
  (n <= m)%nat -> iter_loop body n s = r -> (forall s', r <> Ok (Continue s')) -> iter_loop body m s = r.
Proof.
  intros Hle E Hr. replace m with (n + (m - n))%nat by lia. rewrite iter_loop_add, E.
  destruct r as [[s'|r]| |]; [by destruct (Hr s')|done..].
Qed.

Section Sequence.
Context {W : Type} `{!StateCalls W} `{BuildProfile}.
Implicit Types (w : W).

Lemma push_hash_length start_height st val st' :
  push_hash start_height st val = Ok st' ->
  length st'.1 = S (length st.1) /\ Z.of_nat (length st.1) <= u32_MAX.
Proof.
  destruct st as [hs c]. unfold push_hash.
  intros (n & Hn%unwrap_Ok%checked_Some & (h & _ & (c' & _ & [= <-])%bind_Ok_inv)%bind_Ok_inv)%bind_Ok_inv.
  cbn [fst]. rewrite length_app. cbn [length]. destruct Hn as [-> Hn]. split; [lia|]. lia.
Qed.
Lemma push_hashes_length start_height st l st' :
  l <> [] -> foldM (push_hash start_height) st l = Ok st' ->
  (length st.1 < length st'.1)%nat /\ Z.of_nat (length st'.1) <= u32_MAX + 1.
Proof.
  revert st. induction l as [|x l IH]; intros st Hne; [done|]. cbn [foldM].
  intros (st1 & [H1 H2]%push_hash_length & Hr)%bind_Ok_inv. destruct l as [|y l].
  - injection Hr as <-. split; lia.
  - destruct (IH st1 ltac:(done) Hr). split; lia.
Qed.
Lemma sequence_body_grows w sh start init incl final l l' :
  sequence_body w sh start init incl final l = Ok (Continue l') ->
  (length (hashes l) < length (hashes l'))%nat /\ Z.of_nat (length (hashes l')) <= u32_MAX + 1.
Proof.
  unfold sequence_body. intros ([chunk_hashes|e] & _ & Hb)%bind_Ok_inv; [|done].
  apply bind_Ok_inv in Hb as ([] & _ & Hb). destruct chunk_hashes as [|x chunk_hashes]; [done|].
  apply bind_Ok_inv in Hb as ([hs c] & Hf & [= <-]). cbn [hashes].
  exact (push_hashes_length _ (hashes l, counter l) (x :: chunk_hashes) (hs, c) ltac:(discriminate) Hf).
Qed.
Lemma sequence_iter_bound w sh start init incl final n l l' :
  iter_loop (sequence_body w sh start init incl final) n l = Ok (Continue l') -> Z.of_nat (length (hashes l)) <= u32_MAX + 1 ->
  (length (hashes l) + n <= length (hashes l'))%nat /\ Z.of_nat (length (hashes l')) <= u32_MAX + 1.
Proof.
  revert l. induction n as [|n IH]; intros l; cbn [iter_loop]; [intros [= <-]; lia|].
  intros ([l1|r] & H1 & Hr)%bind_Ok_inv Hl; [|done]. apply sequence_body_grows in H1 as [? ?].
  destruct (IH l1 Hr ltac:(lia)). lia.
Qed.

(** The bound of the loop cuts nothing off, whatever the state service answers:
    every iteration that goes on has pushed a hash, and the code panics before the
    number of hashes exceeds a 32-bit integer. *)
Lemma sequence_bound_enough w start_height start_hash init_hash include_start_hash final_hash :
  let body := sequence_body w start_height start_hash init_hash include_start_hash final_hash in
  let start := mkSequenceLoop [] [] 0 in
  (forall l, bounded_loop body sequence_bound start <> Ok (Continue l))
  /\ (forall p, (sequence_bound <= p)%positive -> bounded_loop body p start = bounded_loop body sequence_bound start).
Proof.
  intros body start. assert (Hend : forall l, bounded_loop body sequence_bound start <> Ok (Continue l)).
  { intros l. rewrite bounded_loop_iter. intros [Hn Hl]%sequence_iter_bound; [|done].
    assert (Hb : Z.of_nat (Pos.to_nat sequence_bound) = 4294967298) by apply positive_nat_Z.
    unfold u32_MAX in Hl. cbn [length] in Hn. lia. }
  split; [done|]. intros p Hp. rewrite !bounded_loop_iter. eapply iter_loop_more; [|done|].
  - by apply Pos2Nat.inj_le.
  - intros l. specialize (Hend l). by rewrite !bounded_loop_iter in Hend.
Qed.

(** ** The sequence on a chain *)

Implicit Types (F : list (bytes * Block)).

(** The blocks of a chain name their parents. *)
Record pow_linked F : Prop := {
  pl_parent : forall k e e', F !! k = Some e -> F !! S k = Some e' -> previous_block_hash (block_header e'.2) = e.1;
  pl_genesis : forall e, F !! 0%nat = Some e -> previous_block_hash (block_header e.2) ∉ F.*1
}.

(** The part of a list from one index to another, and the heights of a list of
    hashes from a first one on. *)
Definition segment {A} (l : list A) (first last : nat) : list A := take (last - first) (drop first l).
Definition at_heights (first : nat) (l : list bytes) : list (Z * bytes) := imap (fun k hash => (Z.of_nat (first + k), hash)) l.

Lemma length_segment {A} (l : list A) first last : (last <= length l)%nat -> length (segment l first last) = (last - first)%nat.
Proof. intros Hl. unfold segment. rewrite length_take, length_drop. lia. Qed.
Lemma segment_app {A} (l : list A) first mid last :
  (first <= mid <= last)%nat -> (last <= length l)%nat -> segment l first mid ++ segment l mid last = segment l first last.
Proof.
  intros [H1 H2] Hl. unfold segment. rewrite <- (take_drop (mid - first) (take (last - first) (drop first l))).
  rewrite take_take, Nat.min_l by lia. f_equal. rewrite skipn_firstn_comm, drop_drop. f_equal; [lia|]. f_equal. lia.
Qed.
Lemma at_heights_app first l1 l2 : at_heights first (l1 ++ l2) = at_heights first l1 ++ at_heights (first + length l1) l2.
Proof. unfold at_heights. rewrite imap_app. f_equal. apply imap_ext. intros k x _. cbn. do 2 f_equal. lia. Qed.

Lemma find_start_known l k hash : NoDup l -> l !! k = Some hash -> find_start l [hash] = S k.
Proof.
  intros Hnd Hk. apply (index_of_Some _ _ _ Hnd) in Hk. unfold find_start. cbn [List.find].
  rewrite bool_decide_eq_true_2 by (by rewrite Hk). cbn [mbind option_bind]. by rewrite Hk.
Qed.
Lemma find_start_unknown l hash : NoDup l -> hash ∉ l -> find_start l [hash] = 0%nat.
Proof.
  intros Hnd Hn. unfold find_start. cbn [List.find]. rewrite bool_decide_eq_false_2; [done|].
  intros [k Hk%(index_of_Some _ _ _ Hnd)]. by apply list_elem_of_lookup_2 in Hk.
Qed.
Lemma find_start_parent F k e :
  NoDup F.*1 -> pow_linked F -> F !! k = Some e -> find_start F.*1 [previous_block_hash (block_header e.2)] = k.
Proof.
  intros Hnd HL Hk. destruct k as [|k]; [by apply find_start_unknown; [|eapply pl_genesis]|].
  destruct (lookup_lt_is_Some_2 F k) as [e' He']; [apply lookup_lt_Some in Hk; lia|].
  rewrite (pl_parent _ HL k e' e) by done. apply find_start_known; [done|]. by rewrite list_lookup_fmap, He'.
Qed.

Lemma push_hash_exact (first : nat) hs c x :
  Z.of_nat (first + length hs) <= i32_MAX -> 0 <= c < i32_MAX ->
  push_hash (Z.of_nat first) (hs, c) x = Ok (hs ++ [(Z.of_nat (first + length hs), x)], c + 1).
Proof.
  unfold i32_MAX. intros H1 H2. unfold push_hash.
  rewrite (proj2 (checked_Some 0 u32_MAX (Z.of_nat (length hs)) _)) by (split; [done|unfold u32_MAX; lia]).
  cbn [unwrap mbind res_bind]. rewrite arith_u_in by lia. cbn [mbind res_bind]. rewrite arith_i_in by lia. cbn [mbind res_bind].
  by rewrite Nat2Z.inj_add.
Qed.
Lemma push_hashes_exact (first : nat) hs c l :
  Z.of_nat (first + length hs + length l) <= i32_MAX -> 0 <= c -> c + Z.of_nat (length l) <= i32_MAX ->
  foldM (push_hash (Z.of_nat first)) (hs, c) l = Ok (hs ++ at_heights (first + length hs) l, c + Z.of_nat (length l)).
Proof.
  revert hs c. induction l as [|x l IH]; intros hs c H1 H2 H3; cbn [foldM length] in *.
  { rewrite app_nil_r. do 2 f_equal. lia. }
  rewrite push_hash_exact by lia. cbn [mbind res_bind]. rewrite IH by (rewrite ?length_app; cbn; lia). f_equal. f_equal; [|lia].
  rewrite <- app_assoc. f_equal. rewrite length_app. cbn [length app]. unfold at_heights. rewrite imap_cons, Nat.add_0_r. f_equal.
  apply imap_ext. intros k y _. cbn. do 2 f_equal. lia.
Qed.

(** The answer to the request of a chunk. *)
Lemma chunk_exact w F (j last : nat) prev final_hash :
  serves w F -> F.*1 !! last = Some final_hash -> find_start F.*1 [prev] = j ->
  call_find_block_hashes w [prev] (Some final_hash) = Ok (take 500 (segment F.*1 j (S last))).
Proof.
  intros Sv Hf Hj. rewrite (sv_hashes _ _ Sv). f_equal. unfold find_spec. rewrite Hj. change (Z.to_nat _) with 500%nat. f_equal.
  apply lookup_lt_Some in Hf as Hlt. rewrite length_fmap in Hlt. apply (index_of_Some _ _ _ (sv_nodup _ _ Sv)) in Hf.
  unfold find_end. cbn [mbind option_bind]. rewrite Hf, Nat.min_r by lia. unfold segment. by rewrite skipn_firstn_comm.
Qed.
Lemma segment_lookup {A} (l : list A) first last k :
  (first + k < last)%nat -> segment l first last !! k = l !! (first + k)%nat.
Proof. intros Hk. unfold segment. rewrite lookup_take_lt by lia. apply lookup_drop. Qed.

Section Loop.
Context w F (first stop : nat) (start_hash init_hash final_hash : bytes) (include_start_hash : bool) (Sv : serves w F)
  (Hfirst : include_start_hash = true -> F.*1 !! first = Some start_hash) (Hstop : F.*1 !! stop = Some final_hash).
Let body := sequence_body w (Z.of_nat first) start_hash init_hash include_start_hash (Some final_hash).

(** The state of the loop before the block at index [j]. *)
Definition at_index (j : nat) (l : SequenceLoop) : Prop :=
  (first <= j <= S stop)%nat /\ find_start F.*1 [default init_hash (last (chunk l))] = j
  /\ hashes l = at_heights first (segment F.*1 first j) /\ counter l = Z.of_nat (j - first).

Lemma sequence_body_done l : at_index (S stop) l -> body l = Ok (Break (hashes l)).
Proof.
  intros (Hj & Hs & _ & _). unfold body, sequence_body. rewrite (chunk_exact w F (S stop) stop) by done.
  cbn [try_res mbind res_bind]. unfold segment. rewrite Nat.sub_diag, take_0.
  cbn [take]. rewrite bool_decide_eq_true_2 by done. cbn [negb]. by rewrite andb_false_r.
Qed.
Lemma sequence_body_step j l :
  at_index j l -> (j <= stop)%nat -> exists l', body l = Ok (Continue l') /\ at_index ((j + 500) `min` S stop) l'.
Proof.
  intros (Hj & Hs & Hh & Hc) Hle. pose proof (sv_length _ _ Sv) as Hlen. rewrite Height_MAX_value in Hlen.
  pose proof (lookup_lt_Some _ _ _ Hstop) as Hlt. rewrite length_fmap in Hlt.
  set (n := (500 `min` (S stop - j))%nat). set (c := take 500 (segment F.*1 j (S stop))).
  assert (Hn : c = segment F.*1 j (j + n)).
  { unfold c, segment. rewrite take_take. f_equal. unfold n. lia. }
  assert (Hb : (0 < n <= S stop - j)%nat) by (unfold n; lia).
  replace ((j + 500) `min` S stop)%nat with (j + n)%nat by (unfold n; lia). clearbody n.
  assert (Hcl : length c = n) by (rewrite Hn, length_segment; [|rewrite length_fmap]; lia).
  exists (mkSequenceLoop c (at_heights first (segment F.*1 first (j + n))) (Z.of_nat (j + n - first))). split.
  - unfold body, sequence_body. rewrite (chunk_exact w F j stop) by done. cbn [try_res mbind res_bind]. fold c.
    assert (Hhead : head c = F.*1 !! j).
    { rewrite Hn, head_lookup, segment_lookup by lia. f_equal. lia. }
    assert (Ha : negb ((counter l =? 0) && include_start_hash && negb (bool_decide (c = [])))
                 || bool_decide (head c = Some start_hash) = true).
    { destruct (Z.eqb_spec (counter l) 0) as [H0|H0]; [|done]. destruct include_start_hash; [|done].
      assert (j = first) as -> by lia. rewrite Hhead, Hfirst by done. by rewrite (bool_decide_eq_true_2 (Some _ = Some _)), orb_true_r. }
    rewrite Ha. cbn [assert_ mbind res_bind]. clearbody c. destruct c as [|x c'] eqn:E; [cbn in Hcl; lia|]. rewrite <- E in *.
    assert (Hhl : length (hashes l) = (j - first)%nat).
    { rewrite Hh. unfold at_heights. rewrite length_imap, length_segment; [done|rewrite length_fmap; lia]. }
    rewrite push_hashes_exact by (rewrite ?Hcl, ?Hhl; unfold i32_MAX; lia). cbn [mbind res_bind]. do 3 f_equal.
    + rewrite Hhl, Hh, Hn, <- (segment_app F.*1 first j (j + n)) by (rewrite ?length_fmap; lia).
      rewrite at_heights_app, length_segment by (rewrite length_fmap; lia). done.
    + rewrite Hc, Hcl. lia.
  - split_and!; [lia|lia| |done|done]. cbn [chunk]. rewrite last_lookup, Hcl. rewrite Hn, segment_lookup by lia.
    destruct (lookup_lt_is_Some_2 F.*1 (j + pred n)%nat) as [h Hh']; [rewrite length_fmap; lia|]. rewrite Hh'. cbn [from_option]. unfold id.
    rewrite (find_start_known _ _ _ (sv_nodup _ _ Sv) Hh'). lia.
Qed.
(** The loop after [m] requests. *)
Lemma sequence_loop_at m l :
  at_index first l -> (m = 0 \/ first + 500 * (m - 1) <= stop)%nat ->
  exists l', iter_loop body m l = Ok (Continue l') /\ at_index ((first + 500 * m) `min` S stop) l'.
Proof.
  intros Hl. pose proof Hl as ((_ & Hle) & _). induction m as [|m IH]; intros Hm.
  { exists l. split; [done|]. by replace ((first + 500 * 0) `min` S stop)%nat with first by lia. }
  destruct IH as (l1 & H1 & Hl1); [lia|]. replace ((first + 500 * m) `min` S stop)%nat with (first + 500 * m)%nat in Hl1 by lia.
  destruct (sequence_body_step _ l1 Hl1) as (l2 & H2 & Hl2); [lia|]. exists l2. split.
  - by rewrite (iter_loop_snoc _ _ _ _ H1).
  - by replace (first + 500 * S m)%nat with (first + 500 * m + 500)%nat by lia.
Qed.
Lemma sequence_loop_exact m l :
  at_index first l -> (stop < first + 500 * m)%nat ->
  iter_loop body (S m) l = Ok (Break (at_heights first (segment F.*1 first (S stop)))).
Proof.
  intros Hl Hm. pose proof Hl as ((_ & Hle) & _). set (q := ((S stop - first + 499) / 500)%nat).
  assert (Hq : (500 * q < S stop - first + 500 /\ S stop - first <= 500 * q)%nat).
  { pose proof (Nat.div_mod_eq (S stop - first + 499) 500). pose proof (Nat.mod_upper_bound (S stop - first + 499) 500 ltac:(done)).
    unfold q. lia. }
  destruct (sequence_loop_at q l Hl) as (l' & H1 & Hl'); [lia|].
  replace ((first + 500 * q) `min` S stop)%nat with (S stop) in Hl' by lia.
  apply (iter_loop_more _ (S q)); [lia| |done].
  rewrite (iter_loop_snoc _ _ _ _ H1). etransitivity; [exact (sequence_body_done _ Hl')|]. by destruct Hl' as (_ & _ & -> & _).
Qed.
End Loop.

Lemma read_blocks_exact w F (k : nat) l :
  serves w F -> l `sublist_of` F ->
  map_res (fun hash => r ← try_res (call_block w (Hash hash.2)); Ok (match r with inl block => block | inr _ => None end))
    (at_heights k l.*1) = Ok (E := Empty_set) ((fun e => Some e.2) <$> l).
Proof.
  intros Sv Hl. revert k. induction l as [|[hash b] l IH]; intros k; [done|].
  assert (Hin : (hash, b) ∈ F) by (eapply elem_of_sublist; [left|exact Hl]).
  apply list_elem_of_lookup in Hin as [j Hj].
  unfold at_heights. cbn [fmap list_fmap fst]. rewrite imap_cons. cbn [map_res snd]. rewrite (sv_block _ _ Sv).
  rewrite (proj2 (index_of_Some hash F.*1 j (sv_nodup _ _ Sv))) by by rewrite list_lookup_fmap, Hj.
  cbn [try_res mbind res_bind option_bind]. rewrite Hj. cbn [fmap option_fmap option_map snd].
  rewrite (imap_ext _ (fun i h => (Z.of_nat (S k + i), h))) by (intros; cbn; do 2 f_equal; lia).
  change (imap _ l.*1) with (at_heights (S k) l.*1). rewrite IH; [done|]. etransitivity; [|exact Hl]. by constructor.
Qed.

(** Where the walk starts, and the hash that it asks for first. *)
Lemma sequence_start w F k hash b (include_start_hash : bool) :
  serves w F -> pow_linked F -> F !! k = Some (hash, b) ->
  let first := if include_start_hash then k else S k in
  let init_hash := if include_start_hash then previous_block_hash (block_header b) else hash in
  find_start F.*1 [init_hash] = first
    /\ (header ← try_res (call_block_header w (Hash hash));
        match header with
        | inl rsp =>
            if include_start_hash then Ok (Some (hr_height rsp, previous_block_hash (hr_header rsp)))
            else height ← arith_u 32 (hr_height rsp + 1); Ok (Some (height, hash))
        | inr _ => Ok None
        end) = Ok (E := Empty_set) (Some (Z.of_nat first, init_hash)).
Proof.
  intros Sv HL Hk first init_hash. assert (Hh : F.*1 !! k = Some hash) by by rewrite list_lookup_fmap, Hk.
  pose proof (sv_length _ _ Sv) as Hlen. rewrite Height_MAX_value in Hlen. pose proof (lookup_lt_Some _ _ _ Hk).
  rewrite (sv_header_hash _ _ Sv), (proj2 (index_of_Some hash F.*1 k (sv_nodup _ _ Sv))) by done.
  unfold header_response. rewrite Hk. cbn [ok_or mbind res_bind try_res hr_height hr_header]. unfold first, init_hash.
  destruct include_start_hash.
  - split; [|done]. by apply (find_start_parent F k (hash, b) (sv_nodup _ _ Sv) HL).
  - rewrite arith_u_in by lia. cbn [mbind res_bind]. split; [by apply (find_start_known _ _ _ (sv_nodup _ _ Sv))|].
    do 3 f_equal. lia.
Qed.

Lemma segment_empty {A} (l : list A) first last : (last <= first)%nat -> segment l first last = [].
Proof. intros Hl. unfold segment. by replace (last - first)%nat with 0%nat by lia. Qed.
Lemma segment_fmap {A B} (f : A -> B) l first last : segment (f <$> l) first last = f <$> segment l first last.
Proof. unfold segment. by rewrite fmap_take, fmap_drop. Qed.
Lemma segment_sublist {A} (l : list A) first last : segment l first last `sublist_of` l.
Proof. unfold segment. etransitivity; [apply sublist_take|apply sublist_drop]. Qed.

(** Without a final block, the walk goes to the tip. *)
Lemma block_sequence_final w F start_hash final stop final_hash (include_start_hash read_extra_info : bool) :
  serves w F -> F.*1 !! stop = Some final_hash ->
  final = Some (Z.of_nat stop, final_hash) \/ (final = None /\ S stop = length F) ->
  tfl_block_sequence w start_hash final include_start_hash read_extra_info
  = tfl_block_sequence w start_hash (Some (Z.of_nat stop, final_hash)) include_start_hash read_extra_info.
Proof.
  intros Sv Hstop [->|[-> Hlen]]; [done|]. unfold tfl_block_sequence. rewrite (sv_tip _ _ Sv), last_lookup, <- Hlen. cbn [pred].
  rewrite list_lookup_fmap in Hstop. apply fmap_Some in Hstop as (e & -> & ->). cbn [fmap option_fmap option_map try_res mbind res_bind].
  by replace (Z.of_nat (S stop) - 1) with (Z.of_nat stop) by lia.
Qed.

(** The walk over a chain: the hashes from the start up to the final block,
    with their heights and blocks; nothing when the final block is below. *)
Lemma block_sequence_on_chain w F k hash stop final_hash (include_start_hash read_extra_info : bool) :
  serves w F -> pow_linked F -> F.*1 !! k = Some hash -> F.*1 !! stop = Some final_hash ->
  let first := if include_start_hash then k else S k in
  tfl_block_sequence w hash (Some (Z.of_nat stop, final_hash)) include_start_hash read_extra_info
  = Ok (at_heights first (segment F.*1 first (S stop)),
        if read_extra_info then (fun e => Some e.2) <$> segment F first (S stop) else []).
Proof.
  intros Sv HL Hk Hstop first. pose proof Hk as Hk'. rewrite list_lookup_fmap in Hk'.
  apply fmap_Some in Hk' as ([hash' b] & Hkb & E). cbn [fst] in E. subst hash'.
  destruct (sequence_start w F k hash b include_start_hash Sv HL Hkb) as (Hinit & Hstart). fold first in Hinit, Hstart.
  set (init := if include_start_hash then previous_block_hash (block_header b) else hash) in *.
  unfold tfl_block_sequence. apply bind_Ok_inv in Hstart as (header & -> & Hstart). cbn [mbind res_bind] in *. rewrite Hstart.
  cbn [mbind res_bind]. clear Hstart header.
  destruct (Z.ltb_spec (Z.of_nat stop) (Z.of_nat first)).
  { rewrite !segment_empty by lia. by destruct read_extra_info. }
  pose proof (lookup_lt_Some _ _ _ Hstop) as Hlt. rewrite length_fmap in Hlt.
  assert (Hloop : bounded_loop (sequence_body w (Z.of_nat first) hash init include_start_hash (Some final_hash))
      sequence_bound (mkSequenceLoop [] [] 0) = Ok (Break (at_heights first (segment F.*1 first (S stop))))).
  { pose proof (sv_length _ _ Sv) as Hlen. rewrite Height_MAX_value in Hlen. rewrite bounded_loop_iter.
    apply (iter_loop_more _ (S (S stop - first))); [|eapply sequence_loop_exact; try done; [| |lia]|done].
    - assert (Z.of_nat (Pos.to_nat sequence_bound) = 4294967298) by apply positive_nat_Z. lia.
    - intros ->. exact Hk.
    - split; [lia|]. split; [exact Hinit|]. split; [by rewrite segment_empty|]. cbn [counter]. lia. }
  rewrite Hloop. cbn [mbind res_bind]. destruct read_extra_info; [|done].
  rewrite segment_fmap, (read_blocks_exact w F first) by (done || apply segment_sublist). done.
Qed.

(** C28. On a chain of blocks that the state service serves and that does not
    change meanwhile, the walk from a
    block of the chain to a final block of it (or to the tip, when none is given)
    ends with exactly the hashes between them, once each, in order and with their
    heights, and with the blocks when they are asked for; it is empty when the
    final block is below the first one. The requests make progress: after every
    500 blocks the next request starts where the last one ended, and the loop ends
    at the first request above the final block. A start that the service does not
    know gives nothing. *)
Theorem block_sequence_exact w F k hash b final stop final_hash (include_start_hash read_extra_info : bool) :
  serves w F -> pow_linked F -> F !! k = Some (hash, b) -> F.*1 !! stop = Some final_hash ->
  final = Some (Z.of_nat stop, final_hash) \/ (final = None /\ S stop = length F) ->
  let first := if include_start_hash then k else S k in
  let init_hash := if include_start_hash then previous_block_hash (block_header b) else hash in
  let requests n := iter_loop (sequence_body w (Z.of_nat first) hash init_hash include_start_hash (Some final_hash)) n (mkSequenceLoop [] [] 0) in
  tfl_block_sequence w hash final include_start_hash read_extra_info
    = Ok (at_heights first (segment F.*1 first (S stop)),
          if read_extra_info then (fun e => Some e.2) <$> segment F first (S stop) else [])
  /\ (forall n, (first + 500 * n <= stop)%nat -> exists l, requests (S n) = Ok (Continue l)
        /\ hashes l = at_heights first (segment F.*1 first ((first + 500 * S n) `min` S stop)))
  /\ (forall n, (first <= stop < first + 500 * n)%nat ->
        requests (S n) = Ok (Break (at_heights first (segment F.*1 first (S stop)))))
  /\ (forall unknown, unknown ∉ F.*1 -> tfl_block_sequence w unknown final include_start_hash read_extra_info = Ok ([], [])).
Proof.
  intros Sv HL Hk Hstop Hfinal first init_hash requests.
  assert (Hk1 : F.*1 !! k = Some hash) by by rewrite list_lookup_fmap, Hk.
  destruct (sequence_start w F k hash b include_start_hash Sv HL Hk) as (Hinit & _). fold first init_hash in Hinit.
  assert (Hat : (first <= stop)%nat -> at_index F first stop init_hash first (mkSequenceLoop [] [] 0)).
  { intros Hle. split; [lia|]. split; [exact Hinit|]. split; [by rewrite segment_empty|]. cbn [counter]. lia. }
  assert (Hf : include_start_hash = true -> F.*1 !! first = Some hash) by by intros ->.
  split; [|split; [|split]].
  - rewrite (block_sequence_final w F _ final stop final_hash) by done. by apply block_sequence_on_chain.
  - intros n Hn. destruct (sequence_loop_at w F first stop hash init_hash final_hash include_start_hash Sv Hf Hstop (S n) _ (Hat ltac:(lia)))
      as (l & Hl & (_ & _ & Hh & _)); [lia|]. by exists l.
  - intros n Hn. apply (sequence_loop_exact w F first stop); [done..|apply Hat; lia|lia].
  - intros unknown Hu. rewrite (block_sequence_final w F _ final stop final_hash) by done. unfold tfl_block_sequence.
    rewrite (sv_header_hash _ _ Sv). destruct (index_of unknown F.*1) as [j|] eqn:E; [|done].
    apply index_of_Some, list_elem_of_lookup_2 in E; [done|apply Sv].
Qed.
End Sequence.

(** * Settlement: rewards and staking actions of final blocks *)

Section Settlement.
Context {W : Type} `{!StateCalls W} `{!CommitmentOps} `{BuildProfile}.
Implicit Types (w : W) (i : TFLServiceInternal) (F : list (bytes * Block)).

(** The roster and its names after a final block. *)
Definition settle (st : list MalValidator * gmap bytes string) (b : Block) : outcome (list MalValidator * gmap bytes string) :=
  roster ← distribute_reward st.1;
  '(roster, names, _) ← update_roster_for_block roster st.2 (staking_action_of <$> transactions b);
  Ok (roster, names).

Definition roster_state i : list MalValidator * gmap bytes string := (validators_at_current_height i, validators_keys_to_names i).

Lemma with_roster_same i : with_roster (validators_at_current_height i) (validators_keys_to_names i) (final_change_tx i) i = i.
Proof. by destruct i. Qed.
Lemma finalize_pow_block_new i height hash b :
  (forall prev, current_bc_final i = Some prev -> prev.2 <> hash) ->
  finalize_pow_block i ((height, hash), Some b)
  = (st ← settle (roster_state i) b; Ok (with_roster st.1 st.2 (final_change_tx i ++ [(height, hash)]) i)).
Proof.
  intros Hn. unfold finalize_pow_block, settle. cbn [snd].
  assert (forall X (x y : X), match current_bc_final i with
    | Some (_, prev_hash) => if bool_decide (prev_hash = hash) then x else y | None => y end = y) as ->.
  { intros X x y. destruct (current_bc_final i) as [[p h]|]; [|done]. by rewrite bool_decide_eq_false_2 by apply (Hn _ eq_refl). }
  unfold roster_state. cbn [fst snd]. destruct (distribute_reward _) as [r| |]; cbn [mbind res_bind]; [|done..].
  by destruct (update_roster_for_block _ _ _) as [[[r' n] c]| |].
Qed.
Lemma finalize_pow_block_same i prev height hash o :
  current_bc_final i = Some (prev, hash) -> finalize_pow_block i ((height, hash), o) = Ok i.
Proof. intros E. unfold finalize_pow_block. rewrite E. cbn [snd]. by rewrite bool_decide_eq_true_2. Qed.
Lemma finalize_new_blocks k l i :
  (forall prev, current_bc_final i = Some prev -> prev.2 ∉ l.*1) ->
  foldM finalize_pow_block i (zip (at_heights k l.*1) ((fun e => Some e.2) <$> l))
  = (st ← foldM settle (roster_state i) l.*2; Ok (with_roster st.1 st.2 (final_change_tx i ++ at_heights k l.*1) i)).
Proof.
  revert k i. induction l as [|[hash b] l IH]; intros k i Hn.
  { cbn. by rewrite app_nil_r, with_roster_same. }
  cbn [fmap list_fmap fst snd] in *. unfold at_heights. rewrite imap_cons. cbn [zip_with foldM].
  rewrite finalize_pow_block_new by (intros prev Hp E; apply (Hn _ Hp); rewrite E; left).
  destruct (settle (roster_state i) b) as [[r n]| |]; cbn [mbind res_bind]; [|done..].
  rewrite (imap_ext _ (fun j h => (Z.of_nat (S k + j), h))) by (intros; cbn; do 2 f_equal; lia).
  change (imap _ l.*1) with (at_heights (S k) l.*1). rewrite IH.
  - unfold roster_state at 1. cbn [validators_at_current_height validators_keys_to_names with_roster fst snd].
    destruct (foldM settle (r, n) l.*2) as [[r2 n2]| |]; cbn [mbind res_bind]; [|done..]. f_equal.
    unfold with_roster. cbn. f_equal. rewrite <- app_assoc, Nat.add_0_r. done.
  - cbn [current_bc_final with_roster]. intros prev Hp Hin. apply (Hn _ Hp). by right.
Qed.

(** The blocks that a new final block settles. *)
Definition first_new (prev : option (Z * bytes)) (k : nat) : nat :=
  match prev with Some (p, _) => S (Z.to_nat p) | None => k end.
Definition newly_final F (prev : option (Z * bytes)) (k : nat) : list (bytes * Block) := segment F (first_new prev k) (S k).
(** The last settled block is on the chain. *)
Definition settled_on F (prev : option (Z * bytes)) : Prop :=
  match prev with Some (p, hash) => exists j : nat, p = Z.of_nat j /\ F.*1 !! j = Some hash | None => True end.

Lemma segment_cons {A} (l : list A) first last x :
  l !! first = Some x -> (first < last)%nat -> segment l first last = x :: segment l (S first) last.
Proof.
  intros Hx Hl. unfold segment. rewrite (drop_S _ _ _ Hx). replace (last - first)%nat with (S (last - S first)) by lia. done.
Qed.
Lemma segment_not_elem {A} (l : list A) first last k x : NoDup l -> l !! k = Some x -> (k < first)%nat -> x ∉ segment l first last.
Proof.
  intros Hnd Hk Hlt [j Hj]%list_elem_of_lookup. unfold segment in Hj. apply lookup_take_Some in Hj as [Hj _]. rewrite lookup_drop in Hj.
  pose proof (NoDup_lookup _ _ _ _ Hnd Hk Hj). lia.
Qed.

Lemma finalize_pow_blocks_on_chain w F i (k : nat) hash :
  serves w F -> pow_linked F -> F.*1 !! k = Some hash -> latest_final_block i = Some (Z.of_nat k, hash) ->
  settled_on F (current_bc_final i) ->
  let first := first_new (current_bc_final i) k in
  finalize_pow_blocks w i
  = (st ← foldM settle (roster_state i) (newly_final F (current_bc_final i) k).*2;
     Ok (with_bc_final (Some (Z.of_nat k, hash))
           (with_roster st.1 st.2 (final_change_tx i ++ at_heights first (newly_final F (current_bc_final i) k).*1) i))).
Proof.
  intros Sv HL Hk Hf Hs first. unfold finalize_pow_blocks, newly_final. fold first. rewrite Hf. cbn [snd].
  assert (Hnd := sv_nodup _ _ Sv).
  destruct (current_bc_final i) as [[p ph]|] eqn:Ec; cbn [first_new settled_on] in *; cbv zeta; cbn [snd].
  - destruct Hs as (j & -> & Hj). rewrite (block_sequence_on_chain w F j ph k hash true true Sv HL Hj Hk). cbn [mbind res_bind].
    subst first. rewrite Nat2Z.id. destruct (decide (j <= k)%nat) as [Hle|Hgt].
    + pose proof Hj as Hj'. rewrite list_lookup_fmap in Hj'. apply fmap_Some in Hj' as ([ph' b] & Hjb & E). cbn [fst] in E. subst ph'.
      rewrite (segment_cons _ _ _ _ Hj), (segment_cons _ _ _ _ Hjb) by lia. unfold at_heights at 1. rewrite imap_cons.
      cbn [fmap list_fmap zip_with foldM]. rewrite (finalize_pow_block_same i (Z.of_nat j)) by done.
      cbn [mbind res_bind]. rewrite (imap_ext _ (fun n h => (Z.of_nat (S j + n), h))) by (intros; cbn; do 2 f_equal; lia).
      change (imap _ (segment F.*1 (S j) (S k))) with (at_heights (S j) (segment F.*1 (S j) (S k))).
      rewrite segment_fmap, finalize_new_blocks.
      * destruct (foldM settle _ _) as [st| |]; done.
      * rewrite Ec. intros prev [= <-]. rewrite <- segment_fmap. eapply segment_not_elem; [done|exact Hj|lia].
    + rewrite !segment_empty by lia. cbn. by rewrite app_nil_r, with_roster_same.
  - rewrite (block_sequence_on_chain w F k hash k hash true true Sv HL Hk Hk). cbn [mbind res_bind]. subst first.
    rewrite segment_fmap, finalize_new_blocks by (by rewrite Ec). by destruct (foldM settle _ _) as [st| |].
Qed.
End Settlement.

(** * Decisions *)

Section Decisions.
Context {W : Type} `{!StateCalls W} `{!CommitmentOps} `{BuildProfile}.
Variable blake3 : bytes -> bytes.
Variable batch_verify : list (bytes * bytes * bytes) -> bool.
Variable key_le : bytes -> bytes -> bool.
Implicit Types (w : W) (i : TFLServiceInternal) (F : list (bytes * Block)).
Abbreviation new_decided := (new_decided_bft_block_from_malachite blake3 batch_verify key_le).

(** The state that the walk over the newly final blocks starts from. *)
Definition decided_state i blocks (fat_pointer : FatPointerToBftBlock2) (height : Z) (hash : bytes) : TFLServiceInternal :=
  with_final (Some (height, hash)) (with_bft_chain blocks fat_pointer i).

Lemma decided_inv w i nb fp roster i' w' :
  new_decided w i nb fp = Ok (roster, i', w') ->
  exists header height blocks r, blake3_hash blake3 nb = Ok (points_at_block_hash2 fp)
    /\ validate_signatures batch_verify fp = true
    /\ previous_bft_block_hash nb = points_at_block_hash2 (fat_pointer_to_tip i)
    /\ head (headers nb) = Some header /\ block_height_from_hash w (block_header_hash header) = Ok (Some height)
    /\ insert_bft_block blake3 (bft_blocks i) nb = Ok blocks
    /\ call_crosslink_finalize w (block_header_hash header) = Ok (r, w')
    /\ finalize_pow_blocks w' (decided_state i blocks fp height (block_header_hash header)) = Ok i'.
Proof.
  unfold new_decided_bft_block_from_malachite. intros (bh & Hbh & Hd)%bind_Ok_inv.
  apply bind_Ok_inv in Hd as ([] & ->%assert_Ok%bool_decide_eq_true & Hd).
  apply bind_Ok_inv in Hd as ([] & Hsig%assert_Ok & Hd). apply bind_Ok_inv in Hd as (st & Hv & Hd).
  apply bind_Ok_inv in Hd as ([] & ->%assert_Ok%bool_decide_eq_true & Hd).
  apply bind_Ok_inv in Hd as (header & Hh%unwrap_Ok & Hd). apply bind_Ok_inv in Hd as (o & Hko & Hd).
  apply bind_Ok_inv in Hd as (height & ->%unwrap_Ok & Hd). apply bind_Ok_inv in Hd as (blocks & Hi & Hd).
  apply bind_Ok_inv in Hd as ([r w1] & Hc & Hd). apply bind_Ok_inv in Hd as ([] & _ & Hd).
  apply bind_Ok_inv in Hd as (i1 & Hf & (ro & _ & [= _ <- <-])%bind_Ok_inv).
  exists header, height, blocks, r. split_and!; try done. unfold validate_bft_block_from_malachite in Hv.
  case_bool_decide as E; [exact E|]. discriminate Hv.
Qed.

(** The blocks of the chain up to the last settled one, each once and in order
    from the first final block on, make up the broadcast and the roster. *)
Definition settled (init : list MalValidator * gmap bytes string) F i : Prop :=
  match current_bc_final i with
  | None => final_change_tx i = [] /\ roster_state i = init
  | Some (p, hash) => exists first k : nat, p = Z.of_nat k /\ (first <= k)%nat /\ F.*1 !! k = Some hash
      /\ final_change_tx i = at_heights first (segment F.*1 first (S k))
      /\ foldM settle init (segment F.*2 first (S k)) = Ok (roster_state i)
  end.

Lemma settled_settled_on init F i : settled init F i -> settled_on F (current_bc_final i).
Proof. unfold settled, settled_on. destruct (current_bc_final i) as [[p h]|]; [|done]. intros (first & k & ? & _ & ? & _). eauto. Qed.

Lemma known_on_chain w F k hash : serves w F -> F.*1 !! k = Some hash -> block_height_from_hash w hash = Ok (Some (Z.of_nat k)).
Proof.
  intros Sv Hk. rewrite list_lookup_fmap in Hk. apply fmap_Some in Hk as (e & He & ->).
  destruct (sv_known _ _ Sv k e He) as [loc E]. unfold block_height_from_hash. by rewrite E.
Qed.

(** The walk keeps the accounts settled when finality does not go back. *)
Lemma finalize_pow_blocks_settled init w F i i' (k : nat) hash :
  serves w F -> pow_linked F -> settled init F i -> F.*1 !! k = Some hash -> latest_final_block i = Some (Z.of_nat k, hash) ->
  match current_bc_final i with Some (p, _) => p <= Z.of_nat k | None => True end ->
  finalize_pow_blocks w i = Ok i' ->
  settled init F i' /\ latest_final_block i' = Some (Z.of_nat k, hash) /\ current_bc_final i' = Some (Z.of_nat k, hash).
Proof.
  intros Sv HL Hs Hk Hf Hle. pose proof (lookup_lt_Some _ _ _ Hk) as Hlt. rewrite length_fmap in Hlt.
  rewrite (finalize_pow_blocks_on_chain w F i k hash) by (done || by eapply settled_settled_on).
  intros ([r n] & Hst & [= <-])%bind_Ok_inv. cbn [fst snd]. split; [|done].
  unfold settled in *. cbn [current_bc_final with_bc_final with_roster final_change_tx]. unfold newly_final in *.
  change (roster_state _) with (r, n). destruct (current_bc_final i) as [[p ph]|]; cbn [first_new] in *.
  - destruct Hs as (first & j & -> & Hfj & Hj & Hlog & Hro). rewrite Nat2Z.id in *. exists first, k. split_and!; try done; [lia|..].
    + rewrite Hlog, <- segment_fmap, <- (segment_app F.*1 first (S j) (S k)), at_heights_app by (rewrite ?length_fmap; lia).
      do 2 f_equal. rewrite length_segment by (rewrite length_fmap; lia). lia.
    + rewrite <- (segment_app F.*2 first (S j) (S k)), foldM_app, Hro by (rewrite ?length_fmap; lia). cbn [mbind res_bind].
      by rewrite segment_fmap.
  - destruct Hs as [Hlog Hro]. exists k, k. split_and!; try done.
    + by rewrite Hlog, <- segment_fmap.
    + by rewrite <- Hro, segment_fmap.
Qed.

(** C5. Every final block is settled once: a decision whose final block is on
    the best chain, and not below the previous final block, keeps the accounts
    settled. That is, the blocks broadcast so far are consecutive blocks of the
    chain from the first final block up to the last one, each once, and the
    roster is the initial one after the reward and the staking actions of each
    of these blocks, in that order. The decided block becomes the last settled
    one. *)
Theorem decision_settles_blocks init w F i nb fp roster i' w' header k :
  new_decided w i nb fp = Ok (roster, i', w') -> serves w F -> serves w' F -> pow_linked F -> settled init F i ->
  head (headers nb) = Some header -> F.*1 !! k = Some (block_header_hash header) ->
  match current_bc_final i with Some (p, _) => p <= Z.of_nat k | None => True end ->
  settled init F i' /\ latest_final_block i' = Some (Z.of_nat k, block_header_hash header)
  /\ current_bc_final i' = Some (Z.of_nat k, block_header_hash header).
Proof.
  intros (header' & height & blocks & r & _ & _ & _ & Hh & Hkn & _ & _ & Hfin)%decided_inv Sv Sv' HL Hs Hh' Hk Hle.
  rewrite Hh in Hh'. injection Hh' as ->. rewrite (known_on_chain w F k) in Hkn by done. injection Hkn as <-.
  by eapply (finalize_pow_blocks_settled init w' F (decided_state i blocks fp (Z.of_nat k) (block_header_hash header))).
Qed.

Lemma decided_on_chain w F i nb fp roster i' w' header k :
  new_decided w i nb fp = Ok (roster, i', w') -> serves w F -> serves w' F -> pow_linked F ->
  settled_on F (current_bc_final i) -> head (headers nb) = Some header -> F.*1 !! k = Some (block_header_hash header) ->
  latest_final_block i' = Some (Z.of_nat k, block_header_hash header)
  /\ current_bc_final i' = Some (Z.of_nat k, block_header_hash header)
  /\ final_change_tx i' = final_change_tx i ++ at_heights (first_new (current_bc_final i) k) (newly_final F (current_bc_final i) k).*1
  /\ foldM settle (roster_state i) (newly_final F (current_bc_final i) k).*2 = Ok (roster_state i').
Proof.
  intros (header' & height & blocks & r & _ & _ & _ & Hh & Hkn & _ & _ & Hfin)%decided_inv Sv Sv' HL Hs Hh' Hk.
  rewrite Hh in Hh'. injection Hh' as ->. rewrite (known_on_chain w F k) in Hkn by done. injection Hkn as <-.
  rewrite (finalize_pow_blocks_on_chain w' F (decided_state i blocks fp (Z.of_nat k) (block_header_hash header)) k (block_header_hash header)) in Hfin by done.
  apply bind_Ok_inv in Hfin as ([ro n] & Hst & [= <-]). done.
Qed.
Lemma at_heights_elem first l k x : l !! k = Some x -> (Z.of_nat (first + k), x) ∈ at_heights first l.
Proof. intros Hk. apply list_elem_of_lookup. exists k. unfold at_heights. by rewrite list_lookup_imap, Hk. Qed.
Lemma settled_last_elem init F i p hash :
  settled init F i -> current_bc_final i = Some (p, hash) -> (p, hash) ∈ final_change_tx i.
Proof.
  unfold settled. intros Hs E. rewrite E in Hs. destruct Hs as (first & k & -> & Hle & Hk & -> & _).
  replace (Z.of_nat k) with (Z.of_nat (first + (k - first))) by lia. apply at_heights_elem.
  rewrite segment_lookup by lia. by replace (first + (k - first))%nat with k by lia.
Qed.

(** C40. Finality can go back: nothing refuses a decision whose final block [k]
    is below the previous one [p]. It settles no block but becomes the final
    block, so the next decision at or above [p] settles the blocks from [k + 1]
    up to [p] a second time: their rewards and staking actions are applied to
    the roster again, and [p] is broadcast twice. *)
Theorem finality_can_go_back init w F i nb1 fp1 r1 i1 w1 header1 k1 w2 nb2 fp2 r2 i2 w3 header2 k2 p hash :
  serves w F -> serves w1 F -> serves w2 F -> serves w3 F -> pow_linked F -> settled init F i ->
  current_bc_final i = Some (p, hash) -> Z.of_nat k1 < p <= Z.of_nat k2 ->
  new_decided w i nb1 fp1 = Ok (r1, i1, w1) -> head (headers nb1) = Some header1 -> F.*1 !! k1 = Some (block_header_hash header1) ->
  new_decided w2 i1 nb2 fp2 = Ok (r2, i2, w3) -> head (headers nb2) = Some header2 -> F.*1 !! k2 = Some (block_header_hash header2) ->
  latest_final_block i1 = Some (Z.of_nat k1, block_header_hash header1) /\ roster_state i1 = roster_state i
  /\ foldM settle (roster_state i) (segment F.*2 (S k1) (S k2)) = Ok (roster_state i2)
  /\ exists before between after, final_change_tx i2 = before ++ (p, hash) :: between ++ (p, hash) :: after.
Proof.
  intros Sv Sv1 Sv2 Sv3 HL Hs Hp Hk D1 Hh1 Hk1 D2 Hh2 Hk2.
  pose proof (settled_settled_on _ _ _ Hs) as Hon. pose proof (settled_last_elem _ _ _ _ _ Hs Hp) as Hin.
  destruct (decided_on_chain _ _ _ _ _ _ _ _ _ _ D1 Sv Sv1 HL Hon Hh1 Hk1) as (L1 & C1 & T1 & R1).
  assert (newly_final F (current_bc_final i) k1 = []) as Hn.
  { unfold newly_final. rewrite Hp. cbn [first_new]. apply segment_empty. lia. }
  rewrite Hn in T1, R1. cbn in T1. rewrite app_nil_r in T1.
  assert (roster_state i1 = roster_state i) as R1' by (cbn [fmap list_fmap foldM] in R1; congruence).
  destruct (decided_on_chain _ _ _ _ _ _ _ _ _ _ D2 Sv2 Sv3 HL ltac:(rewrite C1; by exists k1) Hh2 Hk2) as (_ & _ & T2 & R2).
  rewrite C1, T1 in T2. rewrite C1, R1' in R2. unfold newly_final in T2, R2. cbn [first_new] in T2, R2. rewrite Nat2Z.id in T2, R2.
  rewrite <- segment_fmap in T2. rewrite <- segment_fmap in R2. split_and!; [done|done|done|].
  rewrite Hp in Hon. destruct Hon as (j & -> & Hj).
  assert (Hin2 : (Z.of_nat j, hash) ∈ at_heights (S k1) (segment F.*1 (S k1) (S k2))).
  { replace (Z.of_nat j) with (Z.of_nat (S k1 + (j - S k1))) by lia. apply at_heights_elem. rewrite segment_lookup by lia.
    by replace (S k1 + (j - S k1))%nat with j by lia. }
  apply list_elem_of_split in Hin as (a & b & Ea), Hin2 as (c & d & Ec). exists a, (b ++ c), d.
  rewrite T2, Ea, Ec, <- !app_assoc. done.
Qed.
End Decisions.

(** * The chain of BFT blocks *)

Section BftChain.
Context {W : Type} `{!StateCalls W} `{!CommitmentOps} `{BuildProfile}.
Variable blake3 : bytes -> bytes.
Variable batch_verify : list (bytes * bytes * bytes) -> bool.
Variable key_le : bytes -> bytes -> bool.
Variable key_of_address : string -> bytes.
Variable parse_from_cmd : string -> option StakingAction + string.
Variable call_mempool : Transaction -> option (list QueuedResult).
Implicit Types (w : W) (i : TFLServiceInternal) (blocks : list BftBlock) (b nb : BftBlock) (tip fp : FatPointerToBftBlock2).
Abbreviation new_decided := (new_decided_bft_block_from_malachite blake3 batch_verify key_le).
Abbreviation hash_of := (blake3_hash blake3).

(** Heights from 1 on, every block is well formed, carries headers and names
    the hash of its parent, and the pointer to the tip points at the last block. *)
Record bft_chain blocks tip : Prop := {
  bc_wf : forall k b, blocks !! k = Some b -> wf_BftBlock b;
  bc_height : forall k b, blocks !! k = Some b -> bft_height b = Z.of_nat (S k);
  bc_headers : forall k b, blocks !! k = Some b -> headers b <> [];
  bc_first : forall b, blocks !! 0%nat = Some b -> previous_bft_block_hash b = zero_bytes 32;
  bc_parent : forall k b b', blocks !! k = Some b -> blocks !! S k = Some b' -> hash_of b = Ok (previous_bft_block_hash b');
  bc_tip : match last blocks with
           | Some b => hash_of b = Ok (points_at_block_hash2 tip)
           | None => tip = FatPointerToBftBlock2_null
           end
}.

Lemma bft_chain_empty : bft_chain [] FatPointerToBftBlock2_null.
Proof. by split. Qed.
Lemma bft_chain_snoc blocks tip nb fp :
  bft_chain blocks tip -> wf_BftBlock nb -> bft_height nb = Z.of_nat (S (length blocks)) -> headers nb <> [] ->
  previous_bft_block_hash nb = points_at_block_hash2 tip -> hash_of nb = Ok (points_at_block_hash2 fp) ->
  bft_chain (blocks ++ [nb]) fp.
Proof.
  intros [Hw Hh Hne Hf Hp Ht] Hnw Hheight Hheaders Hprev Hfp. split.
  - intros k b [Hb|[? [? <-]%list_lookup_singleton_Some]]%lookup_app_Some; [by eapply Hw|done].
  - intros k b [Hb|[? [? <-]%list_lookup_singleton_Some]]%lookup_app_Some; [by apply Hh|].
    rewrite Hheight. do 2 f_equal. lia.
  - intros k b [Hb|[? [? <-]%list_lookup_singleton_Some]]%lookup_app_Some; [by eapply Hne|done].
  - intros b Hb. destruct blocks as [|b0 blocks]; [|by apply Hf]. injection Hb as <-. rewrite Hprev. cbn in Ht. by rewrite Ht.
  - intros k b b' Hb [Hb'|[Hlen [Hk <-]%list_lookup_singleton_Some]]%lookup_app_Some.
    + apply lookup_lt_Some in Hb' as Hlt. rewrite lookup_app_l in Hb by lia. by eapply Hp.
    + rewrite lookup_app_l in Hb by lia. rewrite last_lookup in Ht. replace (pred (length blocks)) with k in Ht by lia.
      rewrite Hb in Ht. by rewrite Ht, Hprev.
  - by rewrite last_snoc.
Qed.

(** The placeholder blocks do not collide with a decided block. *)
Definition no_dummy_collision : Prop :=
  forall n b hash, wf_BftBlock b -> headers b <> [] -> hash_of (dummy_block n) = Ok hash -> hash_of b <> Ok hash.

Lemma pad_blocks_lookup blocks n k :
  pad_blocks blocks n !! k = if decide (k < length blocks)%nat then blocks !! k
                             else if decide (k <= n)%nat then Some (dummy_block k) else None.
Proof.
  unfold pad_blocks. destruct (decide (k < length blocks)%nat); [by rewrite lookup_app_l|].
  rewrite lookup_app_r, list_lookup_fmap by lia. destruct (decide (k <= n)%nat).
  - rewrite lookup_seq_lt by lia. cbn. do 2 f_equal. lia.
  - by rewrite lookup_seq_ge by lia.
Qed.
(** The index of a new block is the length of the chain. *)
Lemma insert_index blocks tip nb blocks' :
  bft_chain blocks tip -> no_dummy_collision -> wf_BftBlock nb ->
  previous_bft_block_hash nb = points_at_block_hash2 tip -> insert_bft_block blake3 blocks nb = Ok blocks' ->
  blocks' = blocks ++ [nb] /\ bft_height nb = Z.of_nat (S (length blocks)) /\ headers nb <> [].
Proof.
  intros C Hcol (_ & Hu & _) Hprev (z & Hz & ([] & Hlim%assert_Ok%Z.ltb_lt & Hi)%bind_Ok_inv)%bind_Ok_inv.
  assert (1 <= bft_height nb /\ z = bft_height nb - 1) as [Hge ->].
  { destruct (decide (bft_height nb = 0)) as [E|E].
    - rewrite E in Hz. unfold arith_u in Hz. cbn in Hz. destruct overflow_checks; [done|]. injection Hz as <-. by vm_compute in Hlim.
    - rewrite arith_u_in in Hz by (unfold is_u32, u32_MAX in Hu; lia). injection Hz as <-. unfold is_u32 in Hu. lia. }
  set (n := Z.to_nat (bft_height nb - 1)) in *.
  apply bind_Ok_inv in Hi as ([] & Hpar & ([] & Hnz%assert_Ok & (old & Hold%unwrap_Ok & ([] & Hempty%assert_Ok%bool_decide_eq_true & ([] & Hne%assert_Ok & [= <-])%bind_Ok_inv)%bind_Ok_inv)%bind_Ok_inv)%bind_Ok_inv).
  rewrite negb_true_iff, bool_decide_eq_false in Hne. rewrite pad_blocks_lookup in Hold.
  destruct (decide (n < length blocks)%nat). { by destruct (bc_headers _ _ C n old Hold). }
  assert (Hn : n = length blocks).
  { destruct (decide (n = length blocks)); [done|]. exfalso. rewrite bool_decide_eq_true_2 in Hpar by lia.
    apply bind_Ok_inv in Hpar as (parent & Hp%unwrap_Ok & (ph & Hph & Heq%assert_Ok%bool_decide_eq_true)%bind_Ok_inv).
    rewrite pad_blocks_lookup, decide_False, decide_True in Hp by lia. injection Hp as <-.
    change (points_at_block_hash2 (previous_block_fat_ptr nb)) with (previous_bft_block_hash nb) in Heq.
    pose proof (bc_tip _ _ C) as Ht. destruct (last blocks) as [b|] eqn:El.
    - rewrite last_lookup in El. apply (Hcol (n - 1)%nat b ph); [by eapply (bc_wf _ _ C)|by eapply (bc_headers _ _ C)|done|]. by rewrite Ht, Heq, Hprev.
    - rewrite Hprev, Ht in Hnz. rewrite bool_decide_eq_false_2 in Hnz by lia. by vm_compute in Hnz. }
  split_and!; [|unfold n in Hn; lia|done]. unfold pad_blocks. rewrite Hn. replace (S _ - _)%nat with 1%nat by lia. cbn [seq fmap list_fmap].
  rewrite insert_app_r_alt by lia. by rewrite Nat.sub_diag.
Qed.

(** ** Every step of the service *)

(** The state of the service, and the state service it calls, which changes on
    its own between the steps. *)
Inductive tfl_step : W * TFLServiceInternal -> W * TFLServiceInternal -> Prop :=
| step_world w w' i : tfl_step (w, i) (w', i)
| step_decided w i nb fp roster i' w' :
    wf_BftBlock nb -> new_decided w i nb fp = Ok (roster, i', w') -> tfl_step (w, i) (w', i')
| step_force_feed w i nb fp accepted i' w' :
    wf_BftBlock nb -> force_feed_pos blake3 batch_verify key_le w i nb fp = Ok (accepted, i', w') ->
    tfl_step (w, i) (w', i')
| step_request w i request rsp i' :
    tfl_service_incoming_request parse_from_cmd call_mempool w i request = Ok (rsp, i') -> tfl_step (w, i) (w, i')
| step_main_loop w i i' : main_loop_step w i = Ok i' -> tfl_step (w, i) (w, i')
| step_roster_cmd w i str : tfl_step (w, i) (w, (update_roster_cmd i str).2)
| step_flags w i msg err : tfl_step (w, i) (w, push_new_bft_msg_flags i msg err)
| step_my_key w i config : tfl_step (w, i) (w, set_my_public_key key_of_address config i).

Definition same_bft i i' : Prop := bft_blocks i' = bft_blocks i /\ fat_pointer_to_tip i' = fat_pointer_to_tip i.

Lemma finalize_pow_block_bft i final i' : finalize_pow_block i final = Ok i' -> same_bft i i'.
Proof.
  destruct final as [hh o]. unfold finalize_pow_block, same_bft. destruct (current_bc_final i) as [[p h]|]; [case_bool_decide|].
  1: by intros [= <-].
  all: by intros (r & _ & ([r' n] & _ & [= <-])%bind_Ok_inv)%bind_Ok_inv.
Qed.
Lemma finalize_pow_blocks_bft w i i' : finalize_pow_blocks w i = Ok i' -> same_bft i i'.
Proof.
  unfold finalize_pow_blocks. intros (i1 & H1 & [= <-])%bind_Ok_inv. unfold same_bft.
  cbn [bft_blocks fat_pointer_to_tip with_bc_final]. destruct (latest_final_block i) as [final|]; [|by injection H1 as <-].
  apply bind_Ok_inv in H1 as ([hs bs] & _ & Hf). revert i i1 Hf. generalize (zip hs bs). intros l.
  induction l as [|x l IH]; intros i i1; cbn [foldM]; [by intros [= <-]|].
  intros (i2 & [E1 E2]%finalize_pow_block_bft & Hr)%bind_Ok_inv. destruct (IH i2 i1 Hr) as [-> ->]. done.
Qed.
Lemma decided_bft_chain w i nb fp roster i' w' :
  no_dummy_collision -> wf_BftBlock nb -> bft_chain (bft_blocks i) (fat_pointer_to_tip i) ->
  new_decided w i nb fp = Ok (roster, i', w') ->
  bft_blocks i' = bft_blocks i ++ [nb] /\ fat_pointer_to_tip i' = fp /\ bft_chain (bft_blocks i') (fat_pointer_to_tip i').
Proof.
  intros Hcol Hu C (header & height & blocks & r & Hfp & _ & Hprev & _ & _ & Hi & _ & [E1 E2]%finalize_pow_blocks_bft)%decided_inv.
  cbn [decided_state with_final with_bft_chain bft_blocks fat_pointer_to_tip] in E1, E2. rewrite E1, E2.
  destruct (insert_index _ _ _ _ C Hcol Hu Hprev Hi) as (-> & Hh & Hne). split_and!; [done|done|]. by eapply bft_chain_snoc.
Qed.
Lemma request_bft w i request rsp i' :
  tfl_service_incoming_request parse_from_cmd call_mempool w i request = Ok (rsp, i') -> same_bft i i'.
Proof.
  unfold same_bft. destruct request; cbn [tfl_service_incoming_request];
    try (by intros [= _ <-]); try (by intros (? & _ & [= _ <-])%bind_Ok_inv).
  intros ([o i1] & H1%lift_Ok & [= _ <-])%bind_Ok_inv. unfold tfl_set_finality_by_hash in H1.
  destruct (tfl_is_activated i); [|by injection H1 as _ <-]. apply bind_Ok_inv in H1 as ([h|] & _ & [= _ <-]); done.
Qed.
Lemma tfl_step_bft_chain s s' :
  no_dummy_collision -> tfl_step s s' -> bft_chain (bft_blocks s.2) (fat_pointer_to_tip s.2) ->
  bft_chain (bft_blocks s'.2) (fat_pointer_to_tip s'.2).
Proof.
  intros Hcol [w w' i|w i nb fp roster i' w' Hu Hd|w i nb fp acc i' w' Hu Hd|w i req rsp i' Hr|w i i' Hm|w i str|w i m e|w i c] C; cbn [snd] in *; try done.
  - by eapply decided_bft_chain.
  - unfold force_feed_pos in Hd. apply bind_Ok_inv in Hd as (h & _ & (a & _ & Hd)%bind_Ok_inv). destruct a; [|by injection Hd as _ <- _].
    apply bind_Ok_inv in Hd as ([[r i1] w1] & Hd & [= _ <- _]). by eapply decided_bft_chain.
  - apply request_bft in Hr as [-> ->]. done.
  - unfold main_loop_step in Hm. apply bind_Ok_inv in Hm as (t & _ & [= <-]). by repeat case_match.
  - unfold update_roster_cmd. by repeat case_match.
Qed.

(** C4. The BFT chain: in every state that the service reaches from its start,
    whatever is decided, force-fed or requested and whatever the state service
    answers, the BFT blocks have the heights 1, 2, ... without a gap, each
    carries headers and names the BLAKE3 hash of its parent, the first one names
    no parent, and the fat pointer to the tip points at the last one. The
    placeholder blocks that the code inserts below a new block are never kept,
    provided that no placeholder has the hash of a block with headers. *)
Theorem bft_chain_reachable (w0 w : W) i is_regtest config :
  no_dummy_collision -> rtc tfl_step (w0, initial_internal key_of_address is_regtest config) (w, i) ->
  bft_chain (bft_blocks i) (fat_pointer_to_tip i).
Proof.
  intros Hcol Hr. change i with (w, i).2. eapply (rtc_ind_r (fun s => bft_chain (bft_blocks s.2) (fat_pointer_to_tip s.2))); [|intros; by eapply tfl_step_bft_chain|exact Hr].
  apply bft_chain_empty.
Qed.

(** Past BFT blocks: on a BFT chain the block at a height from 1 up to the
    length of the chain is returned with a fat pointer that points at it, and no
    block is returned for another height. The code never panics. *)
Theorem historical_block_exact i at_height :
  bft_chain (bft_blocks i) (fat_pointer_to_tip i) -> 0 <= at_height ->
  (1 <= at_height <= Z.of_nat (length (bft_blocks i)) ->
     exists b fp, get_historical_bft_block_at_height i at_height = Ok (Some (b, fp))
       /\ bft_height b = at_height /\ hash_of b = Ok (points_at_block_hash2 fp))
  /\ (~ 1 <= at_height <= Z.of_nat (length (bft_blocks i)) -> get_historical_bft_block_at_height i at_height = Ok None).
Proof.
  intros C Hpos. unfold get_historical_bft_block_at_height, fat_pointer_to_block_at_height. set (n := length (bft_blocks i)).
  split; intros Hb.
  2: { destruct (Z.eqb_spec at_height 0), (Z.leb_spec (Z.of_nat n) (at_height - 1)); try done. lia. }
  destruct (Z.eqb_spec at_height 0), (Z.leb_spec (Z.of_nat n) (at_height - 1)); try lia. cbn [orb].
  destruct (lookup_lt_is_Some_2 (bft_blocks i) (Z.to_nat (at_height - 1))) as [b Hlb]; [lia|]. rewrite Hlb. cbn [unwrap mbind res_bind].
  assert (Hheight : bft_height b = at_height) by (rewrite (bc_height _ _ C _ _ Hlb); lia).
  destruct (Z.eqb_spec at_height (Z.of_nat n)) as [->|Hne].
  - exists b, (fat_pointer_to_tip i). split_and!; [done|done|]. pose proof (bc_tip _ _ C) as Ht. rewrite last_lookup in Ht.
    replace (pred (length (bft_blocks i))) with (Z.to_nat (Z.of_nat n - 1)) in Ht by lia. by rewrite Hlb in Ht.
  - destruct (lookup_lt_is_Some_2 (bft_blocks i) (Z.to_nat at_height)) as [b' Hlb']; [lia|]. rewrite Hlb'. cbn [unwrap mbind res_bind].
    exists b, (previous_block_fat_ptr b'). split_and!; [done|done|].
    apply (bc_parent _ _ C (Z.to_nat (at_height - 1)) b b' Hlb). by replace (S (Z.to_nat (at_height - 1))) with (Z.to_nat at_height) by lia.
Qed.
End BftChain.

(** * A round of the BFT engine *)

Section Round.
Context {W : Type} `{!StateCalls W} `{!CommitmentOps} `{BuildProfile}.
Variable blake3 : bytes -> bytes.
Variable batch_verify : list (bytes * bytes * bytes) -> bool.
Variable key_le : bytes -> bytes -> bool.
Implicit Types (w : W) (i : TFLServiceInternal) (F : list (bytes * Block)) (b nb : BftBlock) (fp tip : FatPointerToBftBlock2).

(** The headers of the blocks have the hashes under which they are known, and
    can be written. *)
Record pow_headers F : Prop := {
  ph_hash : forall k e, F !! k = Some e -> block_header_hash (block_header e.2) = e.1;
  ph_wf : forall k e, F !! k = Some e -> wf_Header (block_header e.2)
}.

(** What a node proposes: the headers of the last three blocks. *)
Definition proposal F i : BftBlock :=
  mkBftBlock 1 (Z.of_nat (S (length (bft_blocks i)))) (fat_pointer_to_tip i) 0 ((fun e => block_header e.2) <$> drop (length F - 3) F).
Definition improves F i : bool :=
  (4 <=? Z.of_nat (length F)) && match latest_final_block i with Some (final, _) => final <? Z.of_nat (length F) - 4 | None => true end.

Lemma propose_on_chain w F i :
  serves w F -> bft_chain blake3 (bft_blocks i) (fat_pointer_to_tip i) -> Z.of_nat (length (bft_blocks i)) < u32_MAX ->
  propose_new_bft_block blake3 w w w i i = Ok (if improves F i then Some (proposal F i) else None).
Proof.
  intros Sv C Hlen. pose proof (sv_length _ _ Sv) as Hmax. rewrite Height_MAX_value in Hmax. unfold u32_MAX in Hlen.
  unfold propose_new_bft_block, improves. rewrite (sv_tip _ _ Sv).
  destruct (last F) as [e|] eqn:El; cbn [fmap option_fmap option_map try_res mbind res_bind].
  2: { apply last_None in El. by subst F. }
  assert (length F <> 0)%nat by (intros E%length_zero_iff_nil; by subst F).
  change (bc_confirmation_depth_sigma PROTOTYPE_PARAMETERS) with 3. rewrite height_sub_diff_spec by width_lia. cbn [mbind res_bind].
  unfold Height_MIN. destruct (Z.leb_spec 4 (Z.of_nat (length F))) as [H4|H4]; cycle 1.
  { destruct (in_range _ _ _) eqn:Er; [|done]. apply in_range_spec in Er. lia. }
  rewrite (proj2 (in_range_spec _ _ _)) by (rewrite Height_MAX_value; lia). cbn [andb].
  assert (exists x, match last (bft_blocks i) with Some b => blake3_hash blake3 b | None => Ok (zero_bytes 32) end = Ok x) as [x ->].
  { pose proof (bc_tip _ _ _ C). destruct (last (bft_blocks i)); eauto. }
  cbn [mbind res_bind]. replace (Z.of_nat (length F) - 1 - 3) with (Z.of_nat (length F - 4)) by lia.
  replace (match latest_final_block i with Some (final, _) => final <? Z.of_nat (length F) - 4 | None => true end)
    with (match latest_final_block i with Some (final, _) => final <? Z.of_nat (length F - 4) | None => true end)
    by (destruct (latest_final_block i) as [[z h]|]; [f_equal; lia|done]).
  replace (match latest_final_block i with Some (final, _) => final <? Z.of_nat (length F - 4) | None => true end)
    with (match latest_final_block i with None => true | Some (final, _) => final <? Z.of_nat (length F - 4) end) by done.
  destruct (match latest_final_block i with None => true | Some _ => _ end); [|done]. cbn [negb].
  rewrite (sv_header_height _ _ Sv), (proj2 (Z.ltb_ge _ 0)), Nat2Z.id by lia. unfold header_response.
  destruct (lookup_lt_is_Some_2 F (length F - 4)) as [[h bl] Hc]; [lia|]. rewrite Hc. cbn [ok_or mbind res_bind expect hr_hash fst].
  rewrite (sv_headers _ _ Sv). cbn [expect mbind res_bind]. unfold find_spec.
  rewrite (find_start_known _ (length F - 4)%nat h (sv_nodup _ _ Sv)) by by rewrite list_lookup_fmap, Hc.
  unfold find_end. cbn [mbind option_bind]. rewrite (take_ge (_ <$> F)) by (rewrite length_fmap; lia). replace (S (length F - 4)) with (length F - 3)%nat by lia.
  rewrite take_ge by (rewrite length_drop, length_fmap; change (Z.to_nat _) with 160%nat; lia).
  unfold as_unsigned. rewrite Z.mod_small by lia. rewrite arith_u_in by lia. cbn [mbind res_bind]. unfold BftBlock_try_from.
  rewrite <- fmap_drop, length_fmap, length_drop. replace (Z.of_nat (length F - (length F - 3))) with 3 by lia.
  change (bc_confirmation_depth_sigma PROTOTYPE_PARAMETERS) with 3. cbn [res_ok negb Z.eqb Pos.eqb].
  unfold proposal. do 3 f_equal. lia.
Qed.

Lemma proposal_wf w F i :
  serves w F -> pow_headers F -> wf_FatPointerToBftBlock2 (fat_pointer_to_tip i) -> Z.of_nat (length (bft_blocks i)) < u32_MAX ->
  wf_BftBlock (proposal F i).
Proof.
  intros Sv PH Hfp Hlen. unfold wf_BftBlock, proposal. cbn [bft_version bft_height previous_block_fat_ptr finalization_candidate_height headers].
  split; [width_lia|]. split; [width_lia|]. split; [done|]. split; [width_lia|]. split.
  - apply Forall_fmap, Forall_forall. intros e [k Hk]%list_elem_of_lookup. rewrite lookup_drop in Hk. by apply (ph_wf _ PH _ _ Hk).
  - rewrite length_fmap, length_drop. lia.
Qed.
Lemma proposal_head F i k e :
  F !! k = Some e -> S (S (S k)) = length F -> head (headers (proposal F i)) = Some (block_header e.2).
Proof.
  intros Hk Hl. cbn [proposal headers]. rewrite head_lookup, list_lookup_fmap, lookup_drop, Nat.add_0_r.
  replace (length F - 3)%nat with k by lia. by rewrite Hk.
Qed.
(** A block with the next height is appended. *)
Lemma insert_next blocks tip nb :
  bft_chain blake3 blocks tip -> (forall x, blake3 x <> zero_bytes 32) ->
  bft_height nb = Z.of_nat (S (length blocks)) -> Z.of_nat (length blocks) < u32_MAX ->
  previous_bft_block_hash nb = points_at_block_hash2 tip -> headers nb <> [] ->
  insert_bft_block blake3 blocks nb = Ok (blocks ++ [nb]).
Proof.
  intros C Hz Hh Hlen Hprev Hne. unfold u32_MAX in Hlen. unfold insert_bft_block. rewrite Hh, arith_u_in by lia. cbn [mbind res_bind].
  rewrite (proj2 (Z.ltb_lt _ _)) by (unfold i64_MAX; lia). cbn [assert_ mbind res_bind].
  replace (Z.to_nat _) with (length blocks) by lia. rewrite !pad_blocks_lookup.
  rewrite (decide_False (P := (length blocks < _)%nat)), (decide_True (P := (length blocks <= _)%nat)) by lia.
  change (points_at_block_hash2 (previous_block_fat_ptr nb)) with (previous_bft_block_hash nb). rewrite Hprev.
  pose proof (bc_tip _ _ _ C) as Ht.
  assert (Hpar : (if bool_decide (0 < length blocks)%nat then
            parent ← unwrap (if decide (length blocks - 1 < length blocks)%nat then blocks !! (length blocks - 1)%nat
                             else if decide (length blocks - 1 <= length blocks)%nat then Some (dummy_block (length blocks - 1)) else None);
            parent_hash ← blake3_hash blake3 parent;
            assert_ (bool_decide (parent_hash = points_at_block_hash2 tip))
          else Ok tt) = Ok (E := Empty_set) tt
        /\ bool_decide (length blocks = 0%nat) || negb (bool_decide (points_at_block_hash2 tip = zero_bytes 32)) = true).
  { destruct (last blocks) as [b|] eqn:El.
    - rewrite last_lookup in El. apply lookup_lt_Some in El as Hlt. replace (pred (length blocks)) with (length blocks - 1)%nat in El by lia.
      rewrite bool_decide_eq_true_2, decide_True, El by lia. cbn [unwrap mbind res_bind]. rewrite Ht. cbn [mbind res_bind].
      rewrite bool_decide_eq_true_2 by done. split; [done|]. rewrite bool_decide_eq_false_2 by lia. cbn [orb].
      apply negb_true_iff, bool_decide_eq_false. unfold blake3_hash in Ht. apply bind_Ok_inv in Ht as (bs & _ & [= <-]). apply Hz.
    - apply last_None in El. by subst blocks. }
  destruct Hpar as [-> ->]. cbn [assert_ mbind res_bind unwrap dummy_block headers].
  rewrite (bool_decide_eq_true_2 ([] = [])) by done. cbn [assert_ mbind res_bind]. rewrite (bool_decide_eq_false_2 (headers nb = [])) by done. cbn [negb assert_ mbind res_bind].
  f_equal. unfold pad_blocks. replace (S _ - _)%nat with 1%nat by lia. cbn [seq fmap list_fmap]. rewrite insert_app_r_alt by lia. by rewrite Nat.sub_diag.
Qed.

Lemma decided_next w w' F i nb fp header (k : nat) hash finalized :
  serves w F -> serves w' F -> pow_linked F -> settled_on F (current_bc_final i) ->
  bft_chain blake3 (bft_blocks i) (fat_pointer_to_tip i) -> (forall x, blake3 x <> zero_bytes 32) ->
  bft_height nb = Z.of_nat (S (length (bft_blocks i))) -> Z.of_nat (length (bft_blocks i)) < u32_MAX ->
  previous_bft_block_hash nb = points_at_block_hash2 (fat_pointer_to_tip i) ->
  head (headers nb) = Some header -> block_header_hash header = hash -> F.*1 !! k = Some hash ->
  blake3_hash blake3 nb = Ok (points_at_block_hash2 fp) -> validate_signatures batch_verify fp = true ->
  call_crosslink_finalize w hash = Ok (finalized, w') -> match finalized with inl h => h = hash | inr _ => True end ->
  new_decided_bft_block_from_malachite blake3 batch_verify key_le w i nb fp
  = (st ← foldM settle (roster_state i) (newly_final F (current_bc_final i) k).*2;
     roster ← tenderlink_roster_from_internal key_le st.1;
     Ok (roster,
         with_bc_final (Some (Z.of_nat k, hash))
           (with_roster st.1 st.2
              (final_change_tx i ++ at_heights (first_new (current_bc_final i) k) (newly_final F (current_bc_final i) k).*1)
              (decided_state i (bft_blocks i ++ [nb]) fp (Z.of_nat k) hash)), w')).
Proof.
  intros Sv Sv' HL Hs C Hz Hh Hlen Hprev Hhead <- Hk Hfp Hsig Hfin Hhash.
  unfold new_decided_bft_block_from_malachite, validate_bft_block_from_malachite.
  rewrite Hfp, Hsig. cbn [mbind res_bind]. rewrite (bool_decide_eq_true_2 (points_at_block_hash2 fp = _)) by done. cbn [assert_ mbind res_bind].
  change (points_at_block_hash2 (previous_block_fat_ptr nb)) with (previous_bft_block_hash nb).
  rewrite (bool_decide_eq_true_2 _ Hprev), Hhead. cbn [negb unwrap mbind res_bind]. rewrite (known_on_chain w F k) by done.
  cbn [mbind res_bind]. rewrite (bool_decide_eq_true_2 (Pass = Pass)) by done. cbn [assert_ mbind res_bind unwrap].
  rewrite (insert_next _ (fat_pointer_to_tip i)) by (done || by intros E; rewrite E in Hhead). cbn [mbind res_bind]. rewrite Hfin. cbn [mbind res_bind].
  assert (match finalized with inl h => assert_ (bool_decide (h = block_header_hash header)) | inr _ => Ok tt end = Ok (E := Empty_set) tt) as ->.
  { destruct finalized as [h|]; [|done]. by rewrite bool_decide_eq_true_2. }
  cbn [mbind res_bind]. fold (decided_state i (bft_blocks i ++ [nb]) fp (Z.of_nat k) (block_header_hash header)).
  rewrite (finalize_pow_blocks_on_chain w' F _ k (block_header_hash header)) by done.
  change (roster_state (decided_state _ _ _ _ _)) with (roster_state i). cbn [current_bc_final decided_state with_final with_bft_chain final_change_tx].
  by destruct (foldM settle _ _) as [[r n]| |].
Qed.

(** C6. A round with an honest proposer ends in finality: when the tip is at least
    four blocks above the final block (before the first decision, at least three
    above genesis), the node proposes the
    headers of its last three blocks on top of its BFT tip, another node with the
    same BFT tip and the same best chain decodes the proposal and passes it, and
    when a fat pointer with valid signatures decides it, the decision appends it
    to the BFT chain and makes the third last block of the best chain final; only
    the arithmetic of the rewards and of the stakes can still panic. *)
Theorem honest_proposal_is_final w w' F i (k : nat) hash :
  serves w F -> serves w' F -> pow_linked F -> pow_headers F -> settled_on F (current_bc_final i) ->
  bft_chain blake3 (bft_blocks i) (fat_pointer_to_tip i) -> wf_FatPointerToBftBlock2 (fat_pointer_to_tip i) ->
  Z.of_nat (length (bft_blocks i)) < u32_MAX -> (forall x, blake3 x <> zero_bytes 32) ->
  improves F i = true -> S (S (S k)) = length F -> F.*1 !! k = Some hash -> call_crosslink_finalize w hash = Ok (inl hash, w') ->
  exists value nb, propose_closure blake3 w w w i i = Ok (Some value) /\ validate_closure w i value = Ok Pass
    /\ headers nb = (fun e => block_header e.2) <$> drop k F
    /\ forall fp, points_at_block_hash2 fp = blake3 value -> validate_signatures batch_verify fp = true ->
         push_decided_closure blake3 batch_verify key_le w i value fp
         = (st ← foldM settle (roster_state i) (newly_final F (current_bc_final i) k).*2;
            roster ← tenderlink_roster_from_internal key_le st.1;
            Ok (roster,
                with_bc_final (Some (Z.of_nat k, hash))
                  (with_roster st.1 st.2
                     (final_change_tx i ++ at_heights (first_new (current_bc_final i) k) (newly_final F (current_bc_final i) k).*1)
                     (decided_state i (bft_blocks i ++ [nb]) fp (Z.of_nat k) hash)), w')).
Proof.
  intros Sv Sv' HL PH Hs C Hwf Hlen Hz Himp Hkl Hk Hfin. pose proof Hk as Hk'. rewrite list_lookup_fmap in Hk'.
  apply fmap_Some in Hk' as (e & He & ->). pose proof (proposal_wf w F i Sv PH Hwf Hlen) as Hpw.
  destruct (codec_total _ Hpw) as [value Hv]. pose proof (codec_roundtrip _ value [] Hpw Hv) as Hr. rewrite app_nil_r in Hr.
  pose proof (proposal_head F i k e He Hkl) as Hhead. pose proof (ph_hash _ PH _ _ He) as Hhash.
  exists value, (proposal F i). split_and!.
  - unfold propose_closure. rewrite (propose_on_chain w F i Sv C Hlen), Himp. cbn [mbind res_bind]. by rewrite Hv.
  - unfold validate_closure. rewrite Hr. cbn [try_res mbind res_bind]. unfold validate_bft_block_from_malachite.
    rewrite bool_decide_eq_true_2 by done. rewrite Hhead. cbn [negb unwrap mbind res_bind].
    by rewrite Hhash, (known_on_chain w F k).
  - cbn [proposal headers]. by replace (length F - 3)%nat with k by lia.
  - intros fp Hfp Hsig. unfold push_decided_closure. rewrite Hr. cbn [expect mbind res_bind].
    apply (decided_next w w' F i _ fp (block_header e.2) k e.1 (inl e.1)); try done.
    unfold blake3_hash. rewrite Hv. cbn [expect mbind res_bind]. by rewrite Hfp.
Qed.

(** A proposal without headers crashes the nodes that validate it: the wire
    format accepts it, and a node on whose BFT tip it builds panics instead of
    answering that it fails. *)
Theorem empty_proposal_panics w i nb value :
  wf_BftBlock nb -> zcash_serialize nb = Ok value -> headers nb = [] ->
  previous_bft_block_hash nb = points_at_block_hash2 (fat_pointer_to_tip i) ->
  validate_closure w i value = Panic.
Proof.
  intros Hw Hv Hne Hprev. pose proof (codec_roundtrip _ value [] Hw Hv) as Hr. rewrite app_nil_r in Hr.
  unfold validate_closure. rewrite Hr. cbn [try_res mbind res_bind]. unfold validate_bft_block_from_malachite.
  change (points_at_block_hash2 (previous_block_fat_ptr nb)) with (previous_bft_block_hash nb).
  rewrite (bool_decide_eq_true_2 _ Hprev), Hne. done.
Qed.
End Round.

(** * Finality of a block *)

Section Status.
Context {W : Type} `{!StateCalls W} `{!CommitmentOps} `{BuildProfile}.
Implicit Types (w : W) (i : TFLServiceInternal) (F : list (bytes * Block)).

(** The final block: the last decided one, or the end of the locator. *)
Lemma final_block_on_chain w F i :
  serves w F ->
  match latest_final_block i with Some (final, fh) => exists k : nat, final = Z.of_nat k /\ F.*1 !! k = Some fh | None => True end ->
  let final := match latest_final_block i with Some (final, _) => final | None => Z.of_nat (length F - 100) end in
  if decide (F = []) then tfl_final_block_height_hash w i = Ok None
  else exists (k : nat) fh, tfl_final_block_height_hash w i = Ok (Some (Z.of_nat k, fh)) /\ final = Z.of_nat k /\ F.*1 !! k = Some fh.
Proof.
  intros Sv Hf. unfold tfl_final_block_height_hash. destruct (latest_final_block i) as [[final fh]|]; cbv zeta.
  - destruct Hf as (k & -> & Hk). destruct (decide (F = [])) as [->|]; [done|]. by exists k, fh.
  - unfold tfl_reorg_final_block_height_hash. destruct (sv_locator _ _ Sv) as (l & -> & Hl). cbn [try_res mbind res_bind]. rewrite Hl.
    destruct (decide (F = [])) as [->|Hne]; [done|].
    destruct (lookup_lt_is_Some_2 F (length F - 100)) as [e He]. { destruct F; [done|]. cbn [length]. lia. }
    rewrite He. cbn [fmap option_fmap option_map]. assert (He1 : F.*1 !! (length F - 100)%nat = Some e.1) by by rewrite list_lookup_fmap, He.
    rewrite (known_on_chain w F _ _ Sv He1). by exists (length F - 100)%nat, e.1.
Qed.

(** C29. The finality of a block: with a final block of the best chain, or the
    block ninety-nine below the tip when nothing has been decided, a block above it
    is not yet final, and one at or below it is final exactly when it is the
    block of the best chain at that height. The answer is an error when the
    height is negative, or when there is no block at all. *)
Theorem block_finality_exact w F i height hash :
  serves w F ->
  match latest_final_block i with Some (final, fh) => exists k : nat, final = Z.of_nat k /\ F.*1 !! k = Some fh | None => True end ->
  let final := match latest_final_block i with Some (final, _) => final | None => Z.of_nat (length F - 100) end in
  tfl_block_finality_from_height_hash w i height hash
  = if bool_decide (F = []) then Err (Misc "There is no final block.")
    else if final <? height then Ok (Some NotYetFinalized)
    else if height <? 0 then Err (Misc not_found)
    else Ok (Some (if bool_decide (F.*1 !! Z.to_nat height = Some hash) then Finalized_ else CantBeFinalized)).
Proof.
  intros Sv Hf final. pose proof (final_block_on_chain w F i Sv Hf) as Hfin. cbv zeta in Hfin. fold final in Hfin. clearbody final.
  unfold tfl_block_finality_from_height_hash. destruct (decide (F = [])) as [HF|HF].
  { rewrite Hfin, bool_decide_eq_true_2 by done. done. }
  destruct Hfin as (k & fh & -> & -> & Hk). rewrite (bool_decide_eq_false_2 (F = [])) by done. cbn [lift ok_or mbind res_bind].
  destruct (Z.ltb_spec (Z.of_nat k) height); [done|]. destruct (Z.eqb_spec height (Z.of_nat k)) as [->|Hne]; cbn [mbind res_bind].
  - rewrite (proj2 (Z.ltb_ge _ 0)), Nat2Z.id, Hk by lia. do 2 f_equal. erewrite bool_decide_ext; [done|]. naive_solver.
  - rewrite (sv_header_height _ _ Sv). destruct (Z.ltb_spec height 0); [done|]. unfold header_response.
    apply lookup_lt_Some in Hk as Hlt. rewrite length_fmap in Hlt. rewrite list_lookup_fmap.
    destruct (lookup_lt_is_Some_2 F (Z.to_nat height)) as [e He]; [lia|]. rewrite He. cbn [ok_or mbind res_bind map_err hr_hash fmap option_fmap option_map].
    do 2 f_equal. erewrite bool_decide_ext; [done|]. naive_solver.
Qed.
End Status.

(** * Examples *)

(** A chain of eight blocks behind a state service that is the chain itself. *)
Module TflExample.
#[local] Existing Instance release_build.

Definition hash32 (n : Z) : bytes := le_bytes 32 n.
#[local] Instance commitments : CommitmentOps := {|
  sapling_root_canonical _ := true;
  block_header_hash h := hash32 (le_value (previous_block_hash h) + 1);
  auth_data_root _ := [];
  from_commitments _ _ := []
|}.

Definition header (n : Z) : Header :=
  mkHeader 4 (hash32 n) (zero_bytes 32) (zero_bytes 32) 0 0 (zero_bytes 32) Solution_for_proposal FatPointerToBftBlock_null.
Definition staking (n : Z) : Transaction :=
  staking_transaction (Some (mkStakingAction Transaction.Add n (hash32 100) (hash32 0) "hundred" "")).
Definition pow_block (n : Z) : Block := mkBlock (header n) [staking n].
Definition pow_chain (n : nat) : list (bytes * Block) := (fun k => (hash32 (Z.of_nat k + 1), pow_block (Z.of_nat k))) <$> seq 0 n.

#[local] Instance chain_calls : StateCalls (list (bytes * Block)) := {|
  call_tip F := Ok ((fun e => (Z.of_nat (length F) - 1, e.1)) <$> last F);
  call_known_block F hash := Ok ((fun k => mkKnownBlock BestChain (Z.of_nat k)) <$> index_of hash F.*1);
  call_block_header F hh :=
    match hh with
    | Hash hash => match index_of hash F.*1 with Some k => header_response F k | None => Err not_found end
    | Height h => if h <? 0 then Err not_found else header_response F (Z.to_nat h)
    end;
  call_block F hh := Ok (match hh with Hash hash => k ← index_of hash F.*1; snd <$> F !! k | Height _ => None end);
  call_block_locator F := Ok (option_list (fst <$> F !! (length F - 100)%nat));
  call_find_block_hashes F known stop := Ok (find_spec F.*1 F.*1 (length F) known stop MAX_FIND_BLOCK_HASHES_RESULTS);
  call_find_block_headers F known stop :=
    Ok (find_spec F.*1 ((fun e => block_header e.2) <$> F) (length F) known stop MAX_FIND_BLOCK_HEADERS_RESULTS);
  call_transaction _ _ := Ok None;
  call_crosslink_finalize F hash := Ok (inl hash, F)
|}.

Lemma chain_serves F : NoDup F.*1 -> Z.of_nat (length F) <= Height_MAX -> serves F F.
Proof.
  intros Hnd Hlen. split; try done.
  - intros k e Hk. exists BestChain. cbn. by rewrite (proj2 (index_of_Some e.1 F.*1 k Hnd)) by by rewrite list_lookup_fmap, Hk.
  - eexists. split; [done|]. by destruct (F !! (length F - 100)%nat).
Qed.

Definition chain8 : list (bytes * Block) := pow_chain 8.
Lemma pow_chain_lookup n k e : pow_chain n !! k = Some e -> (k < n)%nat /\ e = (hash32 (Z.of_nat k + 1), pow_block (Z.of_nat k)).
Proof. unfold pow_chain. rewrite list_lookup_fmap. intros (j & [-> Hj]%lookup_seq & ->)%fmap_Some. done. Qed.
Lemma chain8_lookup k e : chain8 !! k = Some e -> (k < 8)%nat /\ e = (hash32 (Z.of_nat k + 1), pow_block (Z.of_nat k)).
Proof. apply pow_chain_lookup. Qed.
Lemma pow_chain_linked n : hash32 0 ∉ (pow_chain n).*1 -> pow_linked (pow_chain n).
Proof.
  intros Hg. split.
  - intros k e e' [_ ->]%pow_chain_lookup [_ ->]%pow_chain_lookup. cbn [snd fst]. unfold pow_block, header.
    cbn [block_header previous_block_hash]. f_equal. lia.
  - by intros e [_ ->]%pow_chain_lookup.
Qed.
Lemma chain8_serves : serves chain8 chain8.
Proof. apply chain_serves; [by apply (bool_decide_unpack (NoDup chain8.*1)); vm_compute|vm_compute; discriminate]. Qed.
Lemma chain8_linked : pow_linked chain8.
Proof. apply pow_chain_linked, (bool_decide_unpack (hash32 0 ∉ (pow_chain 8).*1)). by vm_compute. Qed.
Lemma header_wf n : wf_Header (header n).
Proof.
  destruct example_header_wf as (H1 & _ & H3). split; [exact H1|]. split; [exact (length_le_bytes 32 n)|].
  repeat match goal with |- _ /\ _ => split end; try done; try apply wf_null_fat_pointer.
Qed.
Lemma chain8_headers : pow_headers chain8.
Proof.
  split; intros k e [Hk ->]%chain8_lookup; cbn [snd fst pow_block block_header].
  - cbn [block_header_hash commitments header previous_block_hash]. unfold hash32. rewrite le_value_bytes by (cbn; lia). done.
  - apply header_wf.
Qed.

(** A hash that depends on the height of the block, and tells placeholders apart. *)
Definition toy_blake3 (x : bytes) : bytes :=
  match (zcash_deserialize x : res SerializationError (BftBlock * bytes)) with
  | Ok (b, _) => if bool_decide (headers b = []) then hash32 1 else hash32 (bft_height b + 2)
  | _ => hash32 1
  end.
Definition pointer_to (height : Z) : FatPointerToBftBlock2 :=
  mkFatPointerToBftBlock2 (hash32 (height + 2) ++ zero_bytes 12) [mkFatPointerSignature2 (zero_bytes 32) (zero_bytes 64)].
Definition verify (l : list (bytes * bytes * bytes)) : bool := bool_decide (length l = 1%nat).
Definition le_keys (a b : bytes) : bool := le_value a <=? le_value b.
Definition key_of (name : string) : bytes := hash32 (Z.of_nat (String.length name)).

Definition bft_block (height n : Z) (parent : FatPointerToBftBlock2) : BftBlock := mkBftBlock 1 height parent 0 [header n].

Definition start : TFLServiceInternal := initial_internal key_of true (mkConfig None None ["one"; "three"]).
Definition no_result := ([] : list SortedRosterMember, start, chain8).
(** The blocks 4, 2 and 5 become final, in this order. *)
Definition run1 := Example.get no_result (new_decided_bft_block_from_malachite toy_blake3 verify le_keys chain8 start (bft_block 1 4 FatPointerToBftBlock2_null) (pointer_to 1)).
Definition run2 := Example.get no_result (new_decided_bft_block_from_malachite toy_blake3 verify le_keys chain8 run1.1.2 (bft_block 2 2 (pointer_to 1)) (pointer_to 2)).
Definition run3 := Example.get no_result (new_decided_bft_block_from_malachite toy_blake3 verify le_keys chain8 run2.1.2 (bft_block 3 5 (pointer_to 2)) (pointer_to 3)).

Lemma run1_ok : new_decided_bft_block_from_malachite toy_blake3 verify le_keys chain8 start (bft_block 1 4 FatPointerToBftBlock2_null) (pointer_to 1) = Ok (run1.1.1, run1.1.2, chain8).
Proof. vm_compute. reflexivity. Qed.
Lemma run2_ok : new_decided_bft_block_from_malachite toy_blake3 verify le_keys chain8 run1.1.2 (bft_block 2 2 (pointer_to 1)) (pointer_to 2) = Ok (run2.1.1, run2.1.2, chain8).
Proof. vm_compute. reflexivity. Qed.
Lemma run3_ok : new_decided_bft_block_from_malachite toy_blake3 verify le_keys chain8 run2.1.2 (bft_block 3 5 (pointer_to 2)) (pointer_to 3) = Ok (run3.1.1, run3.1.2, chain8).
Proof. vm_compute. reflexivity. Qed.
Lemma start_settled : settled (roster_state start) chain8 start.
Proof. done. Qed.
Lemma run1_settled : settled (roster_state start) chain8 run1.1.2.
Proof.
  pose proof run1_ok as D. destruct (decided_inv _ _ _ _ _ _ _ _ _ _ D) as (hd & height & blocks & r & _ & _ & _ & Hh & Hkn & _ & _ & Hfin).
  injection Hh as <-. assert (E : block_header_hash (header 4) = hash32 5) by (vm_compute; reflexivity). rewrite E in *.
  rewrite (known_on_chain chain8 chain8 4 _ chain8_serves) in Hkn by (vm_compute; reflexivity). injection Hkn as <-.
  apply (finalize_pow_blocks_settled (roster_state start) chain8 chain8 _ _ 4 (hash32 5) chain8_serves chain8_linked) in Hfin;
    [exact (proj1 Hfin)|exact (conj eq_refl eq_refl)|vm_compute; reflexivity|exact eq_refl|exact I].
Qed.

Lemma decision_settles_blocks_witness :
  settled (roster_state start) chain8 run1.1.2 /\ final_change_tx run1.1.2 = [(4, hash32 5)].
Proof.
  split; [|vm_compute; reflexivity].
  apply (decision_settles_blocks toy_blake3 verify le_keys (roster_state start) chain8 chain8 start _ _ _ _ _ (header 4) 4
           run1_ok chain8_serves chain8_serves chain8_linked start_settled).
  - reflexivity.
  - vm_compute. reflexivity.
  - exact I.
Defined.

Lemma finality_can_go_back_witness :
  exists before between after, final_change_tx run3.1.2 = before ++ (4, hash32 5) :: between ++ (4, hash32 5) :: after.
Proof.
  apply (finality_can_go_back toy_blake3 verify le_keys (roster_state start) chain8 chain8 run1.1.2 _ _ _ run2.1.2 chain8 (header 2) 2
           chain8 _ _ _ run3.1.2 chain8 (header 5) 5 4 (hash32 5)
           chain8_serves chain8_serves chain8_serves chain8_serves chain8_linked run1_settled) with (3 := run2_ok) (6 := run3_ok).
  - vm_compute. reflexivity.
  - lia.
  - reflexivity.
  - vm_compute. reflexivity.
  - reflexivity.
  - vm_compute. reflexivity.
Defined.

Lemma dummy_wf n : wf_BftBlock (dummy_block n).
Proof.
  split; [done|]. split; [|split; [|done]].
  - cbn [dummy_block bft_height]. unfold as_unsigned, is_u32. pose proof (Z.mod_pos_bound (Z.of_nat n) (2 ^ 32) eq_refl). unfold u32_MAX. lia.
  - split; [done|]. split; [constructor|done].
Qed.
Lemma toy_hash b hash :
  wf_BftBlock b -> blake3_hash toy_blake3 b = Ok hash -> hash = if bool_decide (headers b = []) then hash32 1 else hash32 (bft_height b + 2).
Proof.
  intros Hw. unfold blake3_hash. destruct (codec_total b Hw) as [bs Hb]. rewrite Hb. cbn [expect mbind res_bind]. intros [= <-].
  pose proof (codec_roundtrip b bs [] Hw Hb) as Hr. rewrite app_nil_r in Hr. unfold toy_blake3. by rewrite Hr.
Qed.
Lemma toy_no_collision : no_dummy_collision toy_blake3.
Proof.
  intros n b hash Hw Hne Hd%(toy_hash _ _ (dummy_wf n)) ->%(toy_hash _ _ Hw). rewrite (bool_decide_eq_false_2 _ Hne) in Hd.
  cbn [dummy_block headers] in Hd. rewrite bool_decide_eq_true_2 in Hd by done.
  apply (f_equal le_value) in Hd. unfold hash32 in Hd. destruct Hw as (_ & Hu & _). unfold is_u32, u32_MAX in Hu.
  rewrite !le_value_bytes in Hd by (cbn; lia). lia.
Qed.
Lemma toy_nonzero x : toy_blake3 x <> zero_bytes 32.
Proof.
  unfold toy_blake3. destruct (zcash_deserialize x) as [[b r]| |] eqn:E; [|by vm_compute..]. case_bool_decide; [by vm_compute|].
  apply codec_canonical in E as [(_ & Hu & _) _]. unfold is_u32, u32_MAX in Hu. intros Hd%(f_equal le_value). unfold hash32 in Hd.
  rewrite le_value_bytes in Hd by (cbn; lia). change (le_value (zero_bytes 32)) with 0 in Hd. lia.
Qed.

Lemma pointer_wf height : wf_FatPointerToBftBlock2 (pointer_to height).
Proof.
  split; [|split; [|done]].
  - cbn [pointer_to vote_for_block_without_finalizer_public_key]. rewrite length_app. unfold hash32. by rewrite length_le_bytes.
  - constructor; [done|constructor].
Qed.
Lemma bft_block_wf height n parent : is_u32 height -> wf_FatPointerToBftBlock2 parent -> wf_BftBlock (bft_block height n parent).
Proof.
  intros Hh Hp. split; [done|]. split; [done|]. split; [done|]. split; [done|]. split; [|done]. constructor; [apply header_wf|constructor].
Qed.
Lemma null_pointer_wf : wf_FatPointerToBftBlock2 FatPointerToBftBlock2_null.
Proof. split; [done|]. split; [constructor|done]. Qed.
Definition no_parser (cmd : string) : option StakingAction + string := inr cmd.
Definition no_mempool (tx : Transaction) : option (list QueuedResult) := None.

Lemma bft_chain_reachable_witness :
  bft_chain toy_blake3 (bft_blocks run2.1.2) (fat_pointer_to_tip run2.1.2) /\ bft_height <$> bft_blocks run2.1.2 = [1; 2].
Proof.
  split; [|vm_compute; reflexivity].
  apply (bft_chain_reachable toy_blake3 verify le_keys key_of no_parser no_mempool chain8 chain8 run2.1.2 true (mkConfig None None ["one"; "three"])
           toy_no_collision).
  eapply rtc_l; [|eapply rtc_l; [|apply rtc_refl]].
  - apply (step_decided _ _ _ _ _ _ chain8 start (bft_block 1 4 FatPointerToBftBlock2_null) (pointer_to 1) run1.1.1 run1.1.2 chain8); [|exact run1_ok].
    apply bft_block_wf; [done|exact null_pointer_wf].
  - apply (step_decided _ _ _ _ _ _ chain8 run1.1.2 (bft_block 2 2 (pointer_to 1)) (pointer_to 2) run2.1.1 run2.1.2 chain8); [|exact run2_ok].
    apply bft_block_wf; [done|apply pointer_wf].
Defined.

Lemma run2_chain : bft_chain toy_blake3 (bft_blocks run2.1.2) (fat_pointer_to_tip run2.1.2).
Proof.
  eapply (decided_bft_chain toy_blake3 verify le_keys) with (4 := run2_ok);
    [exact toy_no_collision|apply bft_block_wf; [done|apply pointer_wf]|].
  eapply (decided_bft_chain toy_blake3 verify le_keys) with (4 := run1_ok);
    [exact toy_no_collision|apply bft_block_wf; [done|exact null_pointer_wf]|]. apply bft_chain_empty.
Qed.
Lemma historical_block_exact_witness :
  exists b fp, get_historical_bft_block_at_height run2.1.2 1 = Ok (Some (b, fp)) /\ bft_height b = 1
    /\ blake3_hash toy_blake3 b = Ok (points_at_block_hash2 fp).
Proof.
  destruct (historical_block_exact toy_blake3 run2.1.2 1 run2_chain) as [Hb _]; [done|]. apply Hb. vm_compute. split; discriminate.
Defined.

Lemma honest_proposal_is_final_witness :
  exists value, propose_closure toy_blake3 chain8 chain8 chain8 start start = Ok (Some value)
    /\ validate_closure chain8 start value = Ok Pass.
Proof.
  destruct (honest_proposal_is_final toy_blake3 verify le_keys chain8 chain8 chain8 start 5 (hash32 6)
              chain8_serves chain8_serves chain8_linked chain8_headers) as (value & nb & Hp & Hv & _).
  - exact I.
  - apply bft_chain_empty.
  - exact null_pointer_wf.
  - done.
  - exact toy_nonzero.
  - vm_compute. reflexivity.
  - reflexivity.
  - vm_compute. reflexivity.
  - reflexivity.
  - by exists value.
Defined.

Definition empty_proposal : BftBlock := mkBftBlock 1 1 FatPointerToBftBlock2_null 0 [].
Lemma empty_proposal_panics_witness :
  exists value, zcash_serialize empty_proposal = Ok value /\ validate_closure chain8 start value = Panic.
Proof.
  assert (Hw : wf_BftBlock empty_proposal).
  { split; [done|]. split; [done|]. split; [exact null_pointer_wf|]. split; [done|]. split; [constructor|done]. }
  destruct (codec_total _ Hw) as [value Hv]. exists value. split; [exact Hv|].
  apply (empty_proposal_panics chain8 start empty_proposal value Hw Hv); reflexivity.
Defined.

Lemma block_finality_exact_witness :
  tfl_block_finality_from_height_hash chain8 run2.1.2 1 (hash32 2) = Ok (Some Finalized_)
  /\ tfl_block_finality_from_height_hash chain8 run2.1.2 3 (hash32 4) = Ok (Some NotYetFinalized).
Proof.
  assert (Hf : latest_final_block run2.1.2 = Some (2, hash32 3)) by (vm_compute; reflexivity).
  assert (Hon : match latest_final_block run2.1.2 with
                | Some (final, fh) => exists k : nat, final = Z.of_nat k /\ chain8.*1 !! k = Some fh | None => True end).
  { rewrite Hf. exists 2%nat. split; [done|]. vm_compute. reflexivity. }
  split.
  - rewrite (block_finality_exact chain8 chain8 run2.1.2 1 (hash32 2) chain8_serves Hon), Hf. vm_compute. reflexivity.
  - rewrite (block_finality_exact chain8 chain8 run2.1.2 3 (hash32 4) chain8_serves Hon), Hf. vm_compute. reflexivity.
Defined.

(** A walk over 510 blocks, with two requests that return hashes. *)
Definition chain512 : list (bytes * Block) := pow_chain 512.
Lemma chain512_serves : serves chain512 chain512.
Proof. apply chain_serves; [by apply (bool_decide_unpack (NoDup chain512.*1)); vm_compute|vm_compute; discriminate]. Qed.
Lemma chain512_linked : pow_linked chain512.
Proof. apply pow_chain_linked, (bool_decide_unpack (hash32 0 ∉ (pow_chain 512).*1)). by vm_compute. Qed.

Lemma block_sequence_exact_witness :
  tfl_block_sequence chain512 (hash32 3) None true false = Ok (at_heights 2 (segment chain512.*1 2 512), [])
  /\ last (at_heights 2 (segment chain512.*1 2 512)) = Some (511, hash32 512)
  /\ length (at_heights 2 (segment chain512.*1 2 512)) = 510%nat.
Proof.
  split; [|split; vm_compute; reflexivity].
  refine (proj1 (block_sequence_exact chain512 chain512 2 (hash32 3) (pow_block 2) None 511 (hash32 512) true false
            chain512_serves chain512_linked _ _ (or_intror (conj eq_refl _)))); vm_compute; reflexivity.
Defined.
End TflExample.
